(* ===== verification/_CoqProject ===== *)
-Q . S2P
Prelude.v
Types.v
SizeClasses.v
DList.v
Kernel.v
Radix.v
RadixProofs.v
RBTree.v
RBTreeRep.v
RBTreeBalance.v
RBTreeProofs.v
Binder.v
Buddy.v
BuddyRep.v
BuddyProofs.v
BuddyGrow.v
BuddySpec.v
BuddyWhole.v
BuddyProps.v
PageAllocator.v
PageProofs.v
PageSpec.v
Numa.v
NumaProofs.v
NumaSpec.v
Env.v
Predictor.v
SList.v
PendingQueue.v
Rseq.v
RseqProofs.v
RseqSpec.v
Bitmap.v
SlabCache.v
SlabProofs.v
SlabSteal.v
SlabSpec.v
Heap.v
BulkFill.v
Alloc.v
HeapFrame.v
HeapInv.v
HeapFill.v
HeapOps.v
Random.v
GlobalAlloc.v
Trim.v
TrimProofs.v
Realloc.v
ReallocProofs.v
HeapLive.v
HeapStart.v
HeapResize.v
HeapSpec.v
HeapView.v
BigInv.v
BigOps.v
BigAlloc.v
BigResize.v
HeapFull.v
FullResize.v
FullTrim.v
FullSpec.v
HeapProps.v
TrimProps.v
ResizeProps.v
Stats.v
BuddyReport.v
StatsProofs.v
StatsProps.v
Sync.v
TransferList.v
BigProps.v
Bootstrap.v
Fork.v
Preload.v
PreloadProps.v
