(* ===== verification/Prelude.v ===== *)
(** * rsmalloc: a verification library

    rsmalloc is a memory allocator for x86-64 Linux, written in Rust (src/src).  This
    library translates it into executable Rocq definitions and proves what a program
    that uses it relies on.

    ** The program and its model

    A request of at most 2 MiB is served from a size class.  A thread pops a block
    from the list of its CPU with a restartable sequence; an empty list is refilled
    from the transfer lists of this and other CPUs, and at last by carving blocks out
    of a span of pages.  A released block goes to the list of the CPU.  A larger
    request gets a block of a buddy region or a mapping of its own.  A radix tree
    knows which addresses belong to the allocator, a red-black tree the metadata of
    big allocations, and a background thread gives the pages of cold blocks back.

    Every operation is a function of explicit state into [outcome]: [Ret] a result,
    [Fatal] one of the crate's aborts, or [Stuck], which stands for an access to
    memory that holds no object of the expected kind, an index out of range, or
    fuel used up.  Theorems that say an operation ends exclude [Stuck].  Words are
    integers [Z] with the wrap-around of a build without overflow checks written out
    ([wadd], [wmul], [wrap] below); memory is one finite map from addresses to
    objects per kind of object.

    - [Types]: headers, span and big-allocation metadata, flags, errors (lib.rs).
    - [SizeClasses]: class tables and the matcher (utility.rs).
    - [Kernel]: the system calls, as a class [Kernel] of operations on an abstract
      state and a class [KernelSpec] of what their manual pages state; [BumpKernel] is
      an instance, on which the witnesses compute.
    - [Radix], [RadixProofs]: the ownership tree (internals/radix_tree.rs).
    - [RBTree], [RBTreeRep], [RBTreeBalance], [RBTreeProofs]: the map of big
      allocations (internals/rbtree.rs), on a heap of nodes with parent pointers.
    - [Binder]: memory policies (internals/binder.rs).
    - [Buddy], [BuddyRep], [BuddyProofs], [BuddyGrow], [BuddySpec], [BuddyWhole],
      [BuddyProps]: the buddy allocator (big_allocations/buddy.rs), one region and
      then the list of all regions.
    - [PageAllocator], [PageProofs], [PageSpec]: arenas of pages
      (backend/page_allocator.rs).
    - [Numa], [NumaProofs], [NumaSpec]: the topology (internals/numa_parser.rs).
    - [Env], [Predictor], [Random]: environment variables, the adaptive batch and the
      smoothed lifetimes, the random magic values (internals/env.rs,
      core_prim/predictor.rs, core_prim/random.rs).
    - [PendingQueue]: spans left by threads that exited (rseq_core/pending_queue.rs).
    - [Rseq], [RseqProofs], [RseqSpec]: the restartable sequences, instruction by
      instruction (rseq_core/rseq_asm.rs).
    - [Bitmap], [SlabCache], [SlabProofs], [SlabSteal], [SlabSpec]: the per-CPU and
      transfer lists with their hint bitmaps (rseq_core/mod.rs,
      rseq_core/slab_cache.rs).
    - [Heap], [BulkFill], [Alloc]: the state of the whole allocator, the carving of
      spans, allocation, release and big allocations (rseq_core/bulk_fill.rs,
      inner/alloc.rs, inner/free.rs, inner/align.rs,
      big_allocations/big_allocation.rs).
    - [GlobalAlloc], [Bootstrap]: configuration and initialisation of the Rust
      interface and of a preloaded process (global_alloc.rs, core_prim/bootstrap.rs).
    - [Trim], [Realloc]: trimming (trim.rs); zeroed and resized allocations
      (inner/calloc.rs, inner/realloc.rs).
    - [Preload], [PreloadProps]: the C interface of a preloaded process, with the
      allocator that was loaded before it as a parameter (abi, inner/fallback.rs, the
      [preload] branches of inner); [Fork]: the handlers of fork (core_prim/fork.rs).
    - [Stats], [BuddyReport], [StatsProofs], [StatsProps]: the statistics of the Rust
      interface and the reports of the components they are made of (global_alloc.rs,
      [report] of big_allocations/buddy.rs and internals/radix_tree.rs,
      [arena_counts], [get_rseq_cpu_usage_bytes]).
    - [Sync]: the spin lock and the one-time initialisation (internals/lock.rs,
      internals/once.rs, internals/oncelock.rs).
    - [TransferList]: the compare-and-exchange loops of the transfer lists under
      interference (rseq_core/slab_cache.rs, trim.rs).
    - [HeapFrame], [HeapInv], [HeapFill], [HeapOps], [TrimProofs], [ReallocProofs],
      [HeapLive], [HeapStart], [HeapResize], [HeapSpec]: the invariant of the heap of
      small blocks, relative to a frame of memory it leaves alone, and its
      preservation.
    - [HeapView], [BigInv], [BigOps], [BigAlloc], [BigResize]: the big allocations in
      that frame, blocks of the buddy allocator and mappings of their own.
    - [HeapFull], [FullResize], [FullTrim], [FullSpec]: the invariant of the heap with
      requests of every size and the step relation of whole calls; [HeapProps],
      [ResizeProps], [TrimProps], [BigProps] state the theorems.
    - [DList], [SList] and this file: linked lists in memory, words, the monad
      [outcome], tactics and hints that the others share.

    ** What the theorems show

    - The whole allocator: after [init], under any sequence of [alloc], [dealloc],
      [rs_calloc], [rs_realloc] with requests of every size, thread exits, clock ticks
      and trims, live pointers are aligned, mapped, owned and disjoint, and every
      further call ends ([heap_safe]); resizing keeps the contents, zeroed memory of a
      size class is zero, a second release of a small block aborts, the usable size
      covers what was asked for, trimming touches no live byte, and a big allocation
      with its own mapping is released exactly.
    - The statistics: [get_stats] ends, touches no live byte, and its numbers are those
      of the state ([stats_exact]); the bytes the buddy allocator does not report free
      are exactly those of the blocks handed out ([buddy_report_exact]).
    - A preloaded process: from its start on, the calls of the C interface keep the
      same promises, and the next allocator sees exactly the calls on pointers that
      are not the allocator's ([preload_safe]); the child of a fork starts with the
      locks that [fork_child] resets free ([fork_child_unlocks]).
    - The parts: refinement of abstract objects (the radix tree of a set of chunks, the
      red-black tree of a finite map, the queue of stacks, the slab caches of lists);
      invariants of the buddy regions and arenas over all sequences of their
      operations; equivalence of the table-driven matcher with the reference of the
      crate's tests and of the float smoothing with exact rational arithmetic; round
      trips of the range parser; termination and bounds of the loops.
    - Concurrency: the restartable sequences, the transfer lists, the spin lock and the
      one-time initialisation run as machines in which threads interleave at every instruction
      or atomic operation, under sequential consistency.
    - Where the code does less than it means to, a theorem shows it on a reachable
      state ([trimmed_block_stranded], [node_policy_never_applied], [relief_stops],
      [rs_trim_all_skips_small], [rs_trim_always_succeeds], [calloc_not_zeroed], [tag_wraps],
      [inherited_lock_never_freed], [big_malloc_keeps_errno]).

    ** Bounds and fuel

    Loops over memory take fuel and are [Stuck] without it; the fuel of the callers is
    the number of objects of the map the loop walks, plus one, or the number of bits
    or CPUs it scans, and the theorems show that it is enough.  The loops that wait
    for random values consume a list of draws and are [Stuck] when it ends.  Addresses
    of mappings lie below 2^47 ([KernelSpec]).  What the calls promise is asked of the
    kernel state of a process, one in which the page [VSYSCALL] is mapped; the theorems
    that start from a kernel state take it as a hypothesis.  The theorems about the
    whole heap ask for an aligned-pointer tag of at least 2^56, which no link of a
    header equals; the fixed tag is one.  They take layouts up to the 2^63 of Rust's
    [Layout] and sizes up to 2^62 for resizing, because the rounding of the sizes wraps
    around above.

    ** Granularity

    In the whole-heap theorems a call is one step; its restartable sequences may abort
    and move to any CPU (argument [env]), and locks are free when taken.  The
    compare-and-exchange loops of the transfer lists succeed at the first attempt there;
    [TransferList] runs them interleaved, provided that the eight-bit tag of a head does
    not come round within one attempt.

    ** Not modelled

    The printing of the report and the updates of the counters of the feature [debug],
    which take no part in allocation (the counters are an argument of [get_stats]); the features [extended-header], [explicit-zero],
    [lazy-page-trim], [trim-aggressively] and [check-owned-on-alloc]; and memory orders
    weaker than sequential consistency.  The interleavings of whole calls on the parts
    that locks protect are those of [Sync]'s mutual exclusion: the operations under a
    lock are one step. *)

From stdpp Require Export base option list list_numbers gmap numbers sorting.
From Stdlib Require Export ZArith Lia.
From Stdlib Require Import Zbitwise.

Open Scope Z_scope.

(** ** Machine words

    A [usize]/[u64] is a [Z] in [0, 2^64).  The crate is built with
    [overflow-checks = false], so the plain operators wrap. *)

Definition wrap (w z : Z) : Z := z mod 2 ^ w.

Definition wadd (a b : Z) : Z := wrap 64 (a + b).

Definition wsub (a b : Z) : Z := wrap 64 (a - b).

Definition wmul (a b : Z) : Z := wrap 64 (a * b).

(** [a << n] with the shift amount already in range. *)
Definition wshl (a n : Z) : Z := wrap 64 (Z.shiftl a n).

(** [!a] on a [w]-bit word. *)
Definition wnot (w a : Z) : Z := wrap w (Z.lnot a).

Definition usize_max : Z := 2 ^ 64 - 1.

Definition checked_add (a b : Z) : option Z :=
  if a + b <? 2 ^ 64 then Some (a + b) else None.

Definition checked_mul (a b : Z) : option Z :=
  if a * b <? 2 ^ 64 then Some (a * b) else None.

Definition saturating_add (w a b : Z) : Z := Z.min (a + b) (2 ^ w - 1).

Definition saturating_sub (a b : Z) : Z := Z.max 0 (a - b).

Definition saturating_mul (a b : Z) : Z := Z.min (a * b) (2 ^ 64 - 1).

(** Rust's [clamp]. *)
Definition clamp (z lo hi : Z) : Z := Z.min (Z.max z lo) hi.

Definition is_u (w z : Z) : Prop := 0 <= z < 2 ^ w.

(** [usize::next_power_of_two] (0 on overflow, as in a release build) and its
    checked form. *)
Definition pow2_ceil (n : Z) : Z := if n <=? 1 then 1 else 2 ^ Z.log2_up n.

Definition next_power_of_two (n : Z) : Z := wrap 64 (pow2_ceil n).

Definition checked_next_power_of_two (n : Z) : option Z :=
  if pow2_ceil n <? 2 ^ 64 then Some (pow2_ceil n) else None.

Fixpoint pos_trailing_zeros (p : positive) : Z :=
  match p with
  | xO q => 1 + pos_trailing_zeros q
  | _ => 0
  end.

(** [trailing_zeros], [leading_zeros] and [count_ones] on a 64-bit word. *)
Definition trailing_zeros (z : Z) : Z :=
  match z with
  | Zpos p => pos_trailing_zeros p
  | _ => 64
  end.

Definition leading_zeros (z : Z) : Z :=
  if z =? 0 then 64 else 63 - Z.log2 z.

Definition is_power_of_two (z : Z) : bool :=
  (0 <? z) && (z =? 2 ^ Z.log2 z).

Definition div_ceil (a b : Z) : Z := (a + b - 1) / b.

(** [size_of] for a [repr(C, align(n))] struct from the sizes of its scalar
    fields, each aligned to its own size. *)
Definition round_up (a n : Z) : Z := div_ceil a n * n.

Definition size_of_repr_C (align : Z) (fields : list Z) : Z :=
  round_up (fold_left (fun off sz => round_up off sz + sz) fields 0) align.

(** ** Automation *)

Create Rewrite HintDb words.

Lemma wrap_small w z : 0 <= z < 2 ^ w -> wrap w z = z.
Proof. apply Z.mod_small. Qed.

Lemma wrap_range w z : 0 <= w -> is_u w (wrap w z).
Proof. intros Hw. apply Z.mod_pos_bound. lia. Qed.

Lemma wrap64_range z : 0 <= wrap 64 z < 2 ^ 64.
Proof. by apply (wrap_range 64). Qed.

Lemma wadd_small a b : 0 <= a + b < 2 ^ 64 -> wadd a b = a + b.
Proof. apply wrap_small. Qed.

Lemma wsub_small a b : 0 <= a - b < 2 ^ 64 -> wsub a b = a - b.
Proof. apply wrap_small. Qed.

Lemma wmul_small a b : 0 <= a * b < 2 ^ 64 -> wmul a b = a * b.
Proof. apply wrap_small. Qed.

Lemma checked_add_Some a b c :
  checked_add a b = Some c <-> c = a + b /\ a + b < 2 ^ 64.
Proof.
  unfold checked_add. destruct (Z.ltb_spec (a + b) (2 ^ 64));
    (split; [intros ?; simplify_eq; auto | intros [-> ?]; done || lia]).
Qed.

Lemma checked_add_None a b : checked_add a b = None <-> 2 ^ 64 <= a + b.
Proof. unfold checked_add. destruct (Z.ltb_spec (a + b) (2 ^ 64)); split; done || lia. Qed.

Lemma checked_mul_Some a b c :
  checked_mul a b = Some c <-> c = a * b /\ a * b < 2 ^ 64.
Proof.
  unfold checked_mul. destruct (Z.ltb_spec (a * b) (2 ^ 64));
    (split; [intros ?; simplify_eq; auto | intros [-> ?]; done || lia]).
Qed.

#[export] Hint Rewrite wrap_small wadd_small wsub_small wmul_small using lia : words.

(** [unwrap_words]: remove the wrap-around of every operation that [lia] can
    see does not overflow. *)
Ltac unwrap_words := autorewrite with words.

Tactic Notation "unwrap_words" "in" hyp(H) := autorewrite with words in H.

(** Turn boolean comparisons in hypotheses and goal into propositions. *)
Ltac bool_lia :=
  repeat match goal with
  | H : _ && _ = true |- _ => apply andb_true_iff in H as [? ?]
  | H : _ || _ = false |- _ => apply orb_false_iff in H as [? ?]
  | H : negb _ = true |- _ => apply negb_true_iff in H
  | H : negb _ = false |- _ => apply negb_false_iff in H
  end; try lia.

(** ** Bits of machine words *)

Lemma testbit_high w a n : is_u w a -> 0 <= w <= n -> Z.testbit a n = false.
Proof.
  intros Ha Hn. rewrite <- (Z.mod_small a (2 ^ w)) by exact Ha.
  apply Z.mod_pow2_bits_high. lia.
Qed.

Lemma wrap_testbit w a n :
  0 <= w -> 0 <= n -> Z.testbit (wrap w a) n = (n <? w) && Z.testbit a n.
Proof.
  intros Hw Hn. unfold wrap. destruct (n <? w) eqn:E.
  - rewrite Z.mod_pow2_bits_low by lia. done.
  - rewrite Z.mod_pow2_bits_high by lia. done.
Qed.

Lemma wnot_testbit w a n :
  0 <= w -> 0 <= n -> Z.testbit (wnot w a) n = (n <? w) && negb (Z.testbit a n).
Proof. intros Hw Hn. unfold wnot. rewrite wrap_testbit, Z.lnot_spec by lia. done. Qed.

Lemma wshl_testbit a k n :
  0 <= k -> 0 <= n ->
  Z.testbit (wshl a k) n = (n <? 64) && (k <=? n) && Z.testbit a (n - k).
Proof.
  intros Hk Hn. unfold wshl. rewrite wrap_testbit, Z.shiftl_spec by lia.
  destruct (k <=? n) eqn:E; [by rewrite andb_true_r|].
  rewrite Z.testbit_neg_r by lia. by rewrite !andb_false_r.
Qed.

Lemma ones_testbit k n :
  0 <= k -> 0 <= n -> Z.testbit (2 ^ k - 1) n = (n <? k).
Proof.
  intros Hk Hn. replace (2 ^ k - 1) with (Z.ones k) by (rewrite Z.ones_equiv; lia).
  rewrite Z.testbit_ones by lia. by destruct (0 <=? n) eqn:?; [|lia].
Qed.

Lemma pow2_testbit k n : 0 <= k -> Z.testbit (2 ^ k) n = (n =? k).
Proof. intros Hk. by rewrite Z.pow2_bits_eqb, Z.eqb_sym. Qed.

(** The word [1 << b]. *)
Lemma single_mask_testbit b n : 0 <= b < 64 -> 0 <= n -> Z.testbit (wshl 1 b) n = (n =? b).
Proof.
  intros Hb Hn. rewrite wshl_testbit by lia.
  destruct (n =? b) eqn:E.
  - apply Z.eqb_eq in E as ->. rewrite Z.sub_diag. destruct (b <? 64) eqn:?, (b <=? b) eqn:?; lia || done.
  - destruct (b <=? n) eqn:?; [|by rewrite andb_false_r].
    rewrite (testbit_high 1) by (unfold is_u; lia). by rewrite andb_false_r.
Qed.

(** A test of one bit with a mask. *)
Lemma single_mask_land w b : 0 <= b < 64 -> negb (Z.land w (wshl 1 b) =? 0) = Z.testbit w b.
Proof.
  intros Hb. destruct (Z.testbit w b) eqn:E.
  - apply negb_true_iff, Z.eqb_neq. intros Hz. assert (E' : Z.testbit (Z.land w (wshl 1 b)) b = false) by (by rewrite Hz, Z.bits_0).
    rewrite Z.land_spec, single_mask_testbit, E, Z.eqb_refl in E' by lia. done.
  - apply negb_false_iff, Z.eqb_eq, Z.bits_inj'. intros n Hn. rewrite Z.land_spec, single_mask_testbit, Z.bits_0 by lia.
    destruct (n =? b) eqn:En; [|by rewrite andb_false_r]. apply Z.eqb_eq in En as ->. by rewrite E.
Qed.

(** Two words are equal when their 64 bits are. *)
Lemma word_eq w a b :
  0 <= w -> is_u w a -> is_u w b ->
  (forall n, 0 <= n < w -> Z.testbit a n = Z.testbit b n) -> a = b.
Proof.
  intros Hw Ha Hb Hn. apply Z.bits_inj'. intros n Hn0.
  destruct (decide (n < w)); [by apply Hn|].
  by rewrite !(testbit_high w) by (done || lia).
Qed.

(** A non-negative number without bits at or above [w] is a [w]-bit word. *)
Lemma bits_u w a :
  0 <= w -> (forall n, w <= n -> Z.testbit a n = false) -> is_u w a.
Proof.
  intros Hw Hn. replace a with (wrap w a); [by apply wrap_range|].
  apply Z.bits_inj'. intros n Hn0. rewrite wrap_testbit by lia.
  destruct (n <? w) eqn:E; [done|]. rewrite Hn by lia. done.
Qed.

Lemma land_u w a b : 0 <= w -> is_u w a -> is_u w (Z.land a b).
Proof.
  intros Hw Ha. apply bits_u; [done|]. intros n Hn.
  by rewrite Z.land_spec, (testbit_high w) by (done || lia).
Qed.

Lemma lor_u w a b : 0 <= w -> is_u w a -> is_u w b -> is_u w (Z.lor a b).
Proof.
  intros Hw Ha Hb. apply bits_u; [done|]. intros n Hn.
  by rewrite Z.lor_spec, !(testbit_high w) by (done || lia).
Qed.

Lemma wnot_u w a : 0 <= w -> is_u w (wnot w a).
Proof. apply wrap_range. Qed.

(** Clearing the low [k] bits rounds down to a multiple of [2^k]. *)
Lemma land_wnot_low k a :
  0 <= k <= 64 -> is_u 64 a -> Z.land a (wnot 64 (2 ^ k - 1)) = a / 2 ^ k * 2 ^ k.
Proof.
  intros Hk Ha. apply Z.bits_inj'. intros n Hn.
  rewrite Z.land_spec, wnot_testbit, ones_testbit by lia.
  rewrite <- Z.shiftl_mul_pow2, <- Z.shiftr_div_pow2 by lia.
  destruct (decide (n < k)).
  - rewrite Z.shiftl_spec_low by lia. by rewrite (proj2 (Z.ltb_lt n k)), !andb_false_r by lia.
  - rewrite Z.shiftl_spec_high, Z.shiftr_spec, Z.sub_add by lia.
    rewrite (proj2 (Z.ltb_ge n k)), andb_true_r by lia.
    destruct (n <? 64) eqn:E; [by rewrite andb_true_r|].
    rewrite (testbit_high 64) by (done || lia). done.
Qed.

(** Keeping the low [k] bits is the remainder. *)
Lemma land_low k a : 0 <= k -> Z.land a (2 ^ k - 1) = a mod 2 ^ k.
Proof.
  intros Hk. replace (2 ^ k - 1) with (Z.ones k) by (rewrite Z.ones_equiv; lia).
  by apply Z.land_ones.
Qed.

Lemma lxor_pow2 k a :
  0 <= k -> 0 <= a ->
  Z.lxor a (2 ^ k) = if Z.testbit a k then a - 2 ^ k else a + 2 ^ k.
Proof.
  intros Hk Ha. destruct (Z.testbit a k) eqn:E.
  - rewrite Z.sub_nocarry_ldiff.
    + apply Z.bits_inj'. intros n Hn. rewrite Z.lxor_spec, Z.ldiff_spec, pow2_testbit by lia.
      destruct (n =? k) eqn:En; [|by destruct (Z.testbit a n)].
      apply Z.eqb_eq in En as ->. by rewrite E.
    + apply Z.bits_inj'. intros n Hn. rewrite Z.ldiff_spec, pow2_testbit, Z.bits_0 by lia.
      destruct (n =? k) eqn:En; [|done]. apply Z.eqb_eq in En as ->. by rewrite E.
  - rewrite Z.add_nocarry_lxor; [done|].
    apply Z.bits_inj'. intros n Hn. rewrite Z.land_spec, pow2_testbit, Z.bits_0 by lia.
    destruct (n =? k) eqn:En; [|by rewrite andb_false_r]. apply Z.eqb_eq in En as ->. by rewrite E.
Qed.

Lemma testbit_div k a : 0 <= k -> Z.testbit a k = Z.odd (a / 2 ^ k).
Proof. intros Hk. by rewrite <- Z.shiftr_div_pow2, <- Z.bit0_odd, Z.shiftr_spec by lia. Qed.

(** ** Powers of two *)

Lemma pow2_ceil_spec n :
  1 <= n -> exists k, 0 <= k /\ pow2_ceil n = 2 ^ k /\ n <= 2 ^ k /\ (2 <= n -> 2 ^ (k - 1) < n).
Proof.
  intros Hn. unfold pow2_ceil. destruct (n <=? 1) eqn:E.
  - exists 0. change (2 ^ 0) with 1. repeat split; lia.
  - exists (Z.log2_up n). destruct (Z.log2_up_spec n ltac:(lia)) as [H1 H2].
    rewrite <- Z.sub_1_r in H1. repeat split; try lia. apply Z.log2_up_nonneg.
Qed.

Lemma pow2_ceil_pow2 k : 0 <= k -> pow2_ceil (2 ^ k) = 2 ^ k.
Proof.
  intros Hk. unfold pow2_ceil. destruct (2 ^ k <=? 1) eqn:E.
  - pose proof (Z.pow_pos_nonneg 2 k). lia.
  - by rewrite Z.log2_up_pow2.
Qed.

Lemma pos_trailing_zeros_nonneg p : 0 <= pos_trailing_zeros p.
Proof. induction p; simpl; lia. Qed.

Lemma trailing_zeros_pow2 k : 0 <= k -> trailing_zeros (2 ^ k) = k.
Proof.
  intros Hk. pattern k. apply natlike_ind; [done| |done].
  intros j Hj IH. rewrite Z.pow_succ_r by done. pose proof (Z.pow_pos_nonneg 2 j ltac:(lia) Hj).
  destruct (2 ^ j) as [|p|p] eqn:E; [lia| |lia].
  change (1 + trailing_zeros (Z.pos p) = Z.succ j). rewrite IH; lia.
Qed.

Lemma trailing_zeros_spec z :
  0 < z -> 0 <= trailing_zeros z /\ z mod 2 ^ trailing_zeros z = 0 /\ Z.testbit z (trailing_zeros z) = true.
Proof.
  destruct z as [|p|p]; [lia| |lia]. intros _. simpl.
  induction p as [p IH|p IH|]; simpl; [by rewrite Z.mod_1_r| |done].
  destruct IH as (H1 & H2 & H3). split; [lia|].
  replace (Z.pos p~0) with (2 * Z.pos p) by lia.
  rewrite Z.pow_add_r by lia. change (2 ^ 1) with 2.
  rewrite Z.mul_mod_distr_l by lia. split; [lia|].
  rewrite Z.add_1_l. rewrite Z.double_bits_succ. done.
Qed.

(** ** Reachable states *)

(** A property that every step keeps holds of every state reached. *)
Lemma rtc_invariant {A} (R : relation A) (P : A -> Prop) x y : (forall x y, R x y -> P x -> P y) -> rtc R x y -> P x -> P y.
Proof. intros HR. induction 1 as [|x y z Hxy _ IH]; [done|]. intros Hx. by eapply IH, HR. Qed.
