(* ===== verification/Types.v ===== *)
(** * Shared data of the crate (src/lib.rs)

    The header in front of every block, the span metadata, the metadata of a
    big allocation, the flags and the fatal errors.  The layout is the default
    one (feature [extended-header] off). *)

From S2P Require Import Prelude.

(** A raw pointer is its address; [null_mut()] is 0. *)
Abbreviation null := 0 (only parsing).

(** ** [Header] *)

Record Header := mkHeader {
  h_next : Z;
  h_flags : Z;
  h_class : Z;
  h_magic : Z;
  h_life_time : Z;
}.

(** [Header::SIZE], from the fields [next: *mut], [flags: u8], [class: u8],
    [magic: u16], [life_time: u32]. *)
Definition Header_SIZE : Z := size_of_repr_C 16 [8; 1; 1; 2; 4].

(** The layout of the [extended-header] feature. *)
Definition Header_SIZE_extended : Z := size_of_repr_C 16 [8; 8; 1; 4; 1].

Definition OFFSET_SIZE : Z := 8.

Definition TAG_SIZE : Z := OFFSET_SIZE * 2.

Definition ZERO_FLAG : Z := 1.

Definition ALLOCATED_FLAG : Z := 2.

Definition TRIMMED_FLAG : Z := 3.

(** [u16::from_le_bytes] of the two-character built-in magics. *)
Definition from_le_bytes (bs : list Z) : Z := foldr (fun b acc => b + 256 * acc) 0 bs.

Definition MAGIC_default : Z := from_le_bytes [82; 83].

Definition FREED_MAGIC_default : Z := from_le_bytes [82; 77].

Definition BIG_MAGIC_default : Z := from_le_bytes [82; 66].

(** ** [MetaData] of a slab span *)

Record MetaData := mkMetaData {
  md_next_page : Z;
  md_start : Z;
  md_end : Z;
  md_next : Z;
  md_node_id : Z;
}.

Definition MetaData_SIZE : Z := size_of_repr_C 16 [8; 8; 8; 8; 2].

(** ** [BigAllocMeta] *)

Record BigAllocMeta := mkBigAllocMeta {
  bm_next : Z;
  bm_size : Z;
  bm_order : Z;
  bm_buddy_region : Z;
  bm_aligned : bool;
}.

#[export] Instance BigAllocMeta_eq_dec : EqDecision BigAllocMeta.
Proof. solve_decision. Defined.

#[export] Instance Header_eq_dec : EqDecision Header.
Proof. solve_decision. Defined.

(** ** Errors *)

Inductive Err := Err_OutOfMemory.

(** A fatal error: [log_and_abort] prints it and aborts the process. *)
Inductive RSMallocError :=
  | DoubleFree
  | MemoryCorruption
  | OutOfMemory
  | VAIinitFailed
  | AttackOrCorruption
  | SecurityViolation
  | RSEQRegFailed
  | ForeignPointer
  | InvalidPointer
  | RseqCeasedToExist.

#[export] Instance RSMallocError_eq_dec : EqDecision RSMallocError.
Proof. solve_decision. Defined.

Definition error_code (e : RSMallocError) : Z :=
  match e with
  | DoubleFree => 0x1000
  | MemoryCorruption => 0x1001
  | OutOfMemory => 0x1003
  | VAIinitFailed => 0x1005
  | AttackOrCorruption => 0x100B
  | SecurityViolation => 0x100C
  | RSEQRegFailed => 0x100D
  | ForeignPointer => 0x100E
  | InvalidPointer => 0x100F
  | RseqCeasedToExist => 0x1010
  end.

(** The outcome of a piece of code: [Ret] for a normal return, [Fatal e] when
    [e.log_and_abort(..)] ends the process, and [Stuck] when the model has no
    next step: a dereference of a pointer to no object, or a loop that used up
    its fuel.  The theorems show that [Stuck] is never the outcome. *)
Inductive outcome (A : Type) :=
  | Ret (a : A)
  | Fatal (e : RSMallocError)
  | Stuck.
Arguments Ret {A} a.
Arguments Fatal {A} e.
Arguments Stuck {A}.

#[export] Instance outcome_ret : MRet outcome := fun A a => Ret a.

#[export] Instance outcome_bind : MBind outcome := fun A B f m =>
  match m with
  | Ret a => f a
  | Fatal e => Fatal e
  | Stuck => Stuck
  end.

#[export] Instance outcome_fmap : FMap outcome := fun A B f m =>
  match m with
  | Ret a => Ret (f a)
  | Fatal e => Fatal e
  | Stuck => Stuck
  end.

Lemma outcome_bind_assoc {A B C} (m : outcome A) (f : A -> outcome B) (g : B -> outcome C) :
  (m ≫= f) ≫= g = m ≫= (fun x => f x ≫= g).
Proof. by destruct m. Qed.

(** Replay an execution [H : .. = Ret _] in the goal, call by call. *)
Ltac run_ret H :=
  repeat lazymatch type of H with
  | ?m ≫= _ = Ret _ => destruct m; cbn [mbind outcome_bind] in H |- *; [|discriminate H..]
  end; try (rewrite H; cbn [mbind outcome_bind]; try reflexivity).

(** A read of a map of live objects. *)
Definition from_option {A} (o : option A) : outcome A :=
  match o with
  | Some a => Ret a
  | None => Stuck
  end.

(** ** Virtual-address accounting (features [debug] off) *)

Definition add_slab_cached_va (total_cached_va bytes : Z) : Z := wadd total_cached_va bytes.

Definition add_buddy_cached_va (buddy_total_cached_va bytes : Z) : Z :=
  wadd buddy_total_cached_va bytes.

Example layout_sizes :
  Header_SIZE = 16 /\ Header_SIZE_extended = 32 /\ MetaData_SIZE = 48.
Proof. by vm_compute. Qed.
