(* ===== verification/SizeClasses.v ===== *)
(** * Size classes and refill sizing (src/utility.rs)

    The class table, the look-up tables computed at compile time, the matcher
    [match_size_class] and the constants derived from the table; the matcher is
    proved to agree with the linear scan of the crate's own reference. *)

From S2P Require Import Prelude Types.

Definition SIZE_CLASSES : list Z :=
  [16; 32; 48; 64; 80; 96; 128;
   160; 192; 256; 320; 384; 512;
   768; 1024; 1280; 1536; 1792; 2048; 2560; 3072;
   3840; 4096; 8192; 12288; 16384; 24576;
   32768; 65536; 131072; 262144; 524288; 1048576; 2097152].

Definition NUM_SIZE_CLASSES : Z := Z.of_nat (length SIZE_CLASSES).

(** Array indexing [SIZE_CLASSES[class]]; every caller's index is in range. *)
Definition class_size (class : Z) : Z := SIZE_CLASSES !!! Z.to_nat class.

Definition align_to (size align : Z) : Z :=
  let al := wsub align 1 in
  Z.land (wadd size al) (wnot 64 al).

Definition REFILL_TINY_BYTES : Z := 32 * 1024.
Definition REFILL_SMALL_BYTES : Z := 16 * 1024.
Definition REFILL_MEDIUM_BYTES : Z := 16 * 1024.
Definition REFILL_LARGE_BYTES : Z := 16 * 1024.

Definition refill_target_bytes (payload : Z) : Z :=
  if payload <=? 128 then REFILL_TINY_BYTES
  else if payload <=? 512 then REFILL_SMALL_BYTES
  else if payload <=? 1536 then REFILL_MEDIUM_BYTES
  else
    let byte := REFILL_LARGE_BYTES in
    if byte =? 0 then 1 else byte.

Definition refill_iterations_for_payload (payload : Z) : Z :=
  let target := refill_target_bytes payload in
  if target =? 0 then 1
  else
    let block_size := align_to (payload + Header_SIZE) 16 in
    let blocks := target / block_size in
    if blocks =? 0 then 1 else blocks.

Definition ITERATIONS : list Z := refill_iterations_for_payload <$> SIZE_CLASSES.

Definition refill_total_bytes_for_payload (payload : Z) : Z :=
  let block_size := align_to (payload + Header_SIZE) 16 in
  let num_blocks := refill_iterations_for_payload payload in
  let meta_size := MetaData_SIZE in
  let total := meta_size + block_size * num_blocks in
  let pages := (total + 4095) / 4096 in
  let available_bytes := pages * 4096 - meta_size in
  let max_blocks_in_pages := available_bytes / block_size in
  if num_blocks <? max_blocks_in_pages then meta_size + block_size * max_blocks_in_pages
  else total.

Definition MIN_REFILL_BYTES : Z :=
  align_to
    (fold_left
       (fun min payload =>
          let total := refill_total_bytes_for_payload payload in
          if total <? min then total else min)
       SIZE_CLASSES usize_max)
    4096.

(** [while class < NUM_SIZE_CLASSES && SIZE_CLASSES[class] < size { class += 1 }]
    over the remaining classes [l]. *)
Fixpoint lut_scan (l : list Z) (class size : Z) : Z :=
  match l with
  | c :: l' => if c <? size then lut_scan l' (class + 1) size else class
  | [] => class
  end.

Definition SIZE_LUT : list Z :=
  (fun i => wrap 8 (lut_scan SIZE_CLASSES 0 ((i + 1) * 16))) <$> seqZ 0 256.

Definition LARGE_SIZE_LUT : list Z := [0; 23; 24; 25; 26; 26; 27; 27].

Definition BIG_CLASS_BYTES : Z := 1024 * 96.
Definition MEDIUM_CLASS_BYTES : Z := 1024 * 96.
Definition SMALL_CLASS_BYTES : Z := 1024 * 128.

Definition cache_high_blocks (payload : Z) : Z :=
  let block_size := align_to (payload + Header_SIZE) 16 in
  let blocks :=
    if SMALL_CLASS_BYTES <? block_size then 1
    else if payload <? 256 then SMALL_CLASS_BYTES / block_size
    else if payload <? 1024 * 16 then MEDIUM_CLASS_BYTES / block_size
    else BIG_CLASS_BYTES / block_size in
  if blocks =? 0 then 1 else blocks.

Definition CACHE_HIGH_BLOCKS : list Z := cache_high_blocks <$> SIZE_CLASSES.

Definition CACHE_LOW_BLOCKS : list Z :=
  (fun high => let low := high / 2 in if low =? 0 then 1 else low) <$> CACHE_HIGH_BLOCKS.

(** [iter().position(p)]. *)
Fixpoint position (p : Z -> bool) (l : list Z) : option Z :=
  match l with
  | [] => None
  | x :: l' => if p x then Some 0 else Z.succ <$> position p l'
  end.

Definition get_size_4096_class : Z :=
  default 22 (position (fun s => 4096 <=? s) SIZE_CLASSES).

Definition match_size_class (size : Z) : option Z :=
  if size =? 0 then Some 0
  else if size <=? 4096 then
    let index := Z.shiftr (size - 1) 4 in
    Some (SIZE_LUT !!! Z.to_nat index)
  else if 2097152 <? size then None
  else if size <=? 32768 then
    let index := Z.shiftr (size - 1) 12 in
    Some (LARGE_SIZE_LUT !!! Z.to_nat index)
  else
    let exponent := 64 - leading_zeros (size - 1) in
    Some (exponent + 12).

(** The linear scan the crate's own unit test compares against. *)
Definition reference_match (size : Z) : option Z :=
  if size =? 0 then Some 0
  else position (fun class_size => size <=? class_size) SIZE_CLASSES.

(** ** Alignment *)

Lemma align_to_pow2 size k :
  0 <= k < 64 -> 0 <= size -> size + 2 ^ k - 1 < 2 ^ 64 ->
  align_to size (2 ^ k) = (size + 2 ^ k - 1) / 2 ^ k * 2 ^ k.
Proof.
  intros Hk Hs Hb. unfold align_to.
  pose proof (Z.pow_pos_nonneg 2 k ltac:(lia) ltac:(lia)).
  pose proof (Z.pow_lt_mono_r 2 k 64 ltac:(lia) ltac:(lia) ltac:(lia)).
  unwrap_words. replace (size + (2 ^ k - 1)) with (size + 2 ^ k - 1) by lia.
  apply land_wnot_low; [lia|]. split; lia.
Qed.

(** [align_to] rounds up to the next multiple of a power of two. *)
Lemma align_to_spec size k :
  0 <= k < 64 -> 0 <= size -> size + 2 ^ k - 1 < 2 ^ 64 ->
  size <= align_to size (2 ^ k) < size + 2 ^ k /\ (2 ^ k | align_to size (2 ^ k)).
Proof.
  intros Hk Hs Hb. rewrite align_to_pow2 by done.
  pose proof (Z.pow_pos_nonneg 2 k ltac:(lia) ltac:(lia)).
  pose proof (Z.div_mod (size + 2 ^ k - 1) (2 ^ k) ltac:(lia)).
  pose proof (Z.mod_pos_bound (size + 2 ^ k - 1) (2 ^ k) ltac:(lia)).
  split; [lia|]. by apply Z.divide_factor_r.
Qed.

(** ** Matching *)

(** Check a decidable statement on every integer of [[lo, lo + n)]. *)
Fixpoint forall_range (lo : Z) (n : nat) (p : Z -> bool) : bool :=
  match n with
  | O => true
  | S n' => p lo && forall_range (lo + 1) n' p
  end.

Lemma forall_range_spec lo n p z :
  forall_range lo n p = true -> lo <= z < lo + Z.of_nat n -> p z = true.
Proof.
  revert lo. induction n as [|n IH]; intros lo Hp Hz; simpl in Hp; [lia|].
  apply andb_true_iff in Hp as [Hp1 Hp2].
  destruct (decide (z = lo)) as [->|]; [done|]. apply (IH (lo + 1)); [done|lia].
Qed.

Lemma match_lut_check :
  (fun lut => forall_range 1 (Z.to_nat 4096) (fun z =>
     bool_decide (Some (lut !!! Z.to_nat (Z.shiftr (z - 1) 4)) = reference_match z))) SIZE_LUT = true.
Proof. by vm_compute. Qed.

Lemma match_medium_check :
  forall_range 4097 (Z.to_nat 28672) (fun z => bool_decide (match_size_class z = reference_match z)) = true.
Proof. by vm_compute. Qed.

Lemma match_small size : 0 <= size <= 32768 -> match_size_class size = reference_match size.
Proof.
  intros Hs. destruct (decide (size = 0)) as [->|]; [done|].
  destruct (decide (size <= 4096)).
  - unfold match_size_class. destruct (size =? 0) eqn:?; [lia|]. destruct (size <=? 4096) eqn:?; [|lia].
    eapply bool_decide_eq_true. apply (forall_range_spec 1 (Z.to_nat 4096) _ size match_lut_check). lia.
  - eapply bool_decide_eq_true. apply (forall_range_spec 4097 (Z.to_nat 28672) _ size match_medium_check). lia.
Qed.

(** Above 32 KiB the classes are the powers of two and the matcher is a bit
    count. *)
Lemma match_pow2 size k :
  15 <= k <= 20 -> 2 ^ k < size <= 2 ^ (k + 1) -> match_size_class size = Some (k + 13).
Proof.
  intros Hk Hs. unfold match_size_class, leading_zeros.
  pose proof (Z.pow_le_mono_r 2 15 k ltac:(lia) ltac:(lia)).
  pose proof (Z.pow_le_mono_r 2 (k + 1) 21 ltac:(lia) ltac:(lia)).
  change (2 ^ 15) with 32768 in *. change (2 ^ 21) with 2097152 in *.
  repeat match goal with
  | |- context [if ?b then _ else _] => destruct b eqn:?; [exfalso; lia|]
  end.
  f_equal. rewrite (Z.log2_unique (size - 1) k) by (rewrite ?Z.add_1_r in *; lia). lia.
Qed.

Lemma reference_pow2 size k :
  15 <= k <= 20 -> 2 ^ k < size <= 2 ^ (k + 1) -> reference_match size = Some (k + 13).
Proof.
  intros Hk Hs. assert (k = 15 \/ k = 16 \/ k = 17 \/ k = 18 \/ k = 19 \/ k = 20) as Hc by lia.
  unfold reference_match.
  destruct Hc as [->|[->|[->|[->|[->| ->]]]]]; cbn -[Z.leb Z.eqb] in *;
    repeat match goal with
    | |- context [if ?b then _ else _] =>
        destruct b eqn:?; [first [reflexivity | exfalso; lia]|first [reflexivity | idtac]]
    end; exfalso; lia.
Qed.

Lemma reference_match_big size : 2097152 < size -> reference_match size = None.
Proof.
  intros Hs. unfold reference_match. cbn -[Z.leb Z.eqb].
  repeat match goal with
  | |- context [if ?b then _ else _] => destruct b eqn:?; [exfalso; lia|]
  end. done.
Qed.

Lemma pow2_between size :
  32768 < size <= 2097152 -> exists k, 15 <= k <= 20 /\ 2 ^ k < size <= 2 ^ (k + 1).
Proof.
  intros Hs.
  destruct (decide (size <= 65536)); [exists 15; change (2 ^ (15 + 1)) with 65536; change (2 ^ 15) with 32768; lia|].
  destruct (decide (size <= 131072)); [exists 16; change (2 ^ (16 + 1)) with 131072; change (2 ^ 16) with 65536; lia|].
  destruct (decide (size <= 262144)); [exists 17; change (2 ^ (17 + 1)) with 262144; change (2 ^ 17) with 131072; lia|].
  destruct (decide (size <= 524288)); [exists 18; change (2 ^ (18 + 1)) with 524288; change (2 ^ 18) with 262144; lia|].
  destruct (decide (size <= 1048576)); [exists 19; change (2 ^ (19 + 1)) with 1048576; change (2 ^ 19) with 524288; lia|].
  exists 20; change (2 ^ (20 + 1)) with 2097152; change (2 ^ 20) with 1048576; lia.
Qed.

Lemma match_size_class_eq size : 0 <= size -> match_size_class size = reference_match size.
Proof.
  intros Hs. destruct (decide (size <= 32768)) as [Hlt|Hge].
  - by apply match_small.
  - destruct (decide (size <= 2097152)) as [Hle|Hgt].
    + destruct (pow2_between size) as (k & Hk & Hb); [lia|].
      by rewrite (match_pow2 size k), (reference_pow2 size k).
    + rewrite reference_match_big by lia. unfold match_size_class.
      repeat case_match; lia || done.
Qed.

(** C20: for every request the table-driven matcher returns the class the linear
    scan over the class table returns, and no class exactly when the scan finds
    none. *)
Theorem match_size_class_matches_reference (size : Z) (Hsize : is_u 64 size) :
  match_size_class size = reference_match size.
Proof. apply match_size_class_eq, Hsize. Qed.

Lemma match_size_class_matches_reference_witness :
  is_u 64 24577 /\ match_size_class 24577 = reference_match 24577.
Proof. split; [by vm_compute|]. apply (match_size_class_matches_reference 24577). by vm_compute. Defined.

(** ** What a matched class promises *)

Lemma position_Some p l i :
  position p l = Some i ->
  0 <= i < Z.of_nat (length l) /\ p (l !!! Z.to_nat i) = true /\
  forall j, 0 <= j < i -> p (l !!! Z.to_nat j) = false.
Proof.
  revert i. induction l as [|x l IH]; intros i Hi; simpl in Hi; [done|].
  destruct (p x) eqn:Hx.
  - injection Hi as <-. split; [simpl; lia|]. split; [done|]. lia.
  - apply fmap_Some in Hi as (i' & Hi' & ->). destruct (IH i' Hi') as (H1 & H2 & H3).
    split; [simpl; lia|]. rewrite Z2Nat.inj_succ by lia. split; [done|].
    intros j Hj. destruct (decide (j = 0)) as [->|]; [done|].
    replace j with (Z.succ (j - 1)) by lia. rewrite Z2Nat.inj_succ by lia. apply H3. lia.
Qed.

Lemma position_None p l : position p l = None -> forall x, x ∈ l -> p x = false.
Proof.
  induction l as [|x l IH]; intros Hn y Hy; [by apply not_elem_of_nil in Hy|].
  simpl in Hn. destruct (p x) eqn:Hx; [done|]. apply fmap_None in Hn.
  apply elem_of_cons in Hy as [->|Hy]; [done|by apply IH].
Qed.

Lemma match_size_class_Some size c :
  0 <= size -> match_size_class size = Some c ->
  0 <= c < NUM_SIZE_CLASSES /\ size <= class_size c /\
  forall c', 0 <= c' < c -> class_size c' < size.
Proof.
  intros Hs Hc. rewrite match_size_class_eq in Hc by done. unfold reference_match in Hc.
  destruct (size =? 0) eqn:E.
  - injection Hc as <-. split; [by vm_compute|]. split; [|lia].
    apply Z.eqb_eq in E as ->. by vm_compute.
  - apply position_Some in Hc as (H1 & H2 & H3). unfold NUM_SIZE_CLASSES, class_size.
    split; [done|]. split; [lia|]. intros c' Hc'. specialize (H3 c' Hc'). lia.
Qed.

(** C21: a request of at most 2 MiB is served by the least class whose payload
    holds it, and that class is an index of the table; larger requests have no
    class. *)
Theorem match_size_class_tight (size : Z) (Hsize : is_u 64 size) :
  match match_size_class size with
  | Some c =>
      size <= 2097152 /\ 0 <= c < NUM_SIZE_CLASSES /\ size <= class_size c /\
      forall c', 0 <= c' < c -> class_size c' < size
  | None => 2097152 < size
  end.
Proof.
  destruct (match_size_class size) as [c|] eqn:E.
  - destruct (match_size_class_Some size c) as (H1 & H2 & H3); [apply Hsize|done|].
    split; [|done]. destruct (decide (size <= 2097152)); [done|].
    rewrite match_size_class_eq, reference_match_big in E by (lia || apply Hsize). done.
  - rewrite match_size_class_eq in E by apply Hsize. unfold reference_match in E.
    destruct (size =? 0) eqn:?; [done|].
    pose proof (position_None _ _ E 2097152 ltac:(apply list_elem_of_In; vm_compute; tauto)) as Hp.
    cbv beta in Hp. lia.
Qed.

Lemma match_size_class_tight_witness :
  is_u 64 4097 /\ match_size_class 4097 = Some 23 /\ 4097 <= class_size 23 /\
  forall c', 0 <= c' < 23 -> class_size c' < 4097.
Proof.
  assert (is_u 64 4097) as H by by vm_compute.
  pose proof (match_size_class_tight 4097 H) as Ht.
  replace (match_size_class 4097) with (Some 23) in Ht |- * by (by vm_compute).
  split; [done|]. split; [done|]. apply Ht.
Defined.

(** ** Refill sizing *)

(** The span of one refill of a class: how many blocks it holds and its bytes,
    as [alloc_metadata] and [refill_total_bytes_for_payload] compute them. *)
Definition refill_blocks (payload : Z) : Z :=
  (refill_total_bytes_for_payload payload - MetaData_SIZE) / align_to (payload + Header_SIZE) 16.

(** For every class a refill span holds the metadata and a whole number of
    at least one block, it is at least [MIN_REFILL_BYTES] once page-rounded, and
    a further block would not fit in the rounded span; so an arena with less
    than [MIN_REFILL_BYTES] left cannot serve any class. *)
Theorem refill_span_fits :
  Forall (fun payload =>
    let block := align_to (payload + Header_SIZE) 16 in
    let total := refill_total_bytes_for_payload payload in
    let pages := align_to total 4096 in
    payload + Header_SIZE <= block /\ 1 <= refill_blocks payload /\
    total = MetaData_SIZE + refill_blocks payload * block /\
    total <= pages < total + block /\
    MIN_REFILL_BYTES <= pages) SIZE_CLASSES.
Proof.
  assert (forallb (fun payload =>
    let block := align_to (payload + Header_SIZE) 16 in
    let total := refill_total_bytes_for_payload payload in
    let pages := align_to total 4096 in
    (payload + Header_SIZE <=? block) && (1 <=? refill_blocks payload) &&
    (total =? MetaData_SIZE + refill_blocks payload * block) &&
    (total <=? pages) && (pages <? total + block) &&
    (MIN_REFILL_BYTES <=? pages)) SIZE_CLASSES = true) as H by by vm_compute.
  rewrite forallb_forall in H. apply Forall_forall. intros x Hx.
  apply list_elem_of_In in Hx. specialize (H x Hx). cbv zeta in H |- *. bool_lia.
Qed.
