(* ===== verification/DList.v ===== *)
(** * Doubly linked lists in memory

    Intrusive lists threaded through objects with a [next] and a [prev] pointer:
    the free lists of the buddy allocator and the arena lists of the page
    allocator.  [seg] ties a memory to the list of addresses it holds; [link] and
    [unlink] are the memory effects of inserting at the head and of removing a
    node. *)

From S2P Require Import Prelude.

(** Objects with two link fields. *)
Class Linked (B : Type) := {
  l_next : B -> Z;
  l_prev : B -> Z;
  with_next : Z -> B -> B;
  with_prev : Z -> B -> B;
  l_next_with_next v b : l_next (with_next v b) = v;
  l_prev_with_next v b : l_prev (with_next v b) = l_prev b;
  l_next_with_prev v b : l_next (with_prev v b) = l_next b;
  l_prev_with_prev v b : l_prev (with_prev v b) = v;
}.

#[export] Hint Rewrite @l_next_with_next @l_prev_with_next @l_next_with_prev @l_prev_with_prev : links.

Section DList.
Context {B : Type} `{!Linked B}.
Implicit Types (m : gmap Z B) (l : list Z) (b : B).

(** The list [l] from [h], with [p] before it and the address [q] after it. *)
Fixpoint seg m (p h : Z) l (q : Z) : Prop :=
  match l with
  | [] => h = q
  | a :: l' => h = a /\ exists b, m !! a = Some b /\ l_prev b = p /\ seg m a (l_next b) l' q
  end.

Definition lastd (p : Z) l : Z := default p (last l).

Definition headd l (q : Z) : Z := default q (head l).

Lemma lastd_cons p a l : lastd p (a :: l) = lastd a l.
Proof. unfold lastd. rewrite last_cons. by destruct (last l). Qed.

Lemma seg_head m p h l q : seg m p h l q -> h = headd l q.
Proof. destruct l; simpl; [done|]. by intros [-> _]. Qed.

Lemma seg_app m p h l1 l2 q :
  seg m p h (l1 ++ l2) q <-> exists c, seg m p h l1 c /\ seg m (lastd p l1) c l2 q.
Proof.
  revert p h. induction l1 as [|a l1 IH]; intros p h; simpl.
  - split; [intros H; by exists h|by intros (c & -> & H)].
  - rewrite lastd_cons. split.
    + intros (-> & b & Hb & Hp & (c & H1 & H2)%IH). exists c. eauto 8.
    + intros (c & (-> & b & Hb & Hp & H1) & H2). split; [done|]. exists b. split_and!; [done..|]. apply IH. eauto.
Qed.

Lemma seg_ext m m' p h l q : (forall a, a ∈ l -> m' !! a = m !! a) -> seg m p h l q -> seg m' p h l q.
Proof.
  revert p h. induction l as [|a l IH]; intros p h Hm; simpl; [done|]. intros (-> & b & Hb & Hp & Hs).
  split; [done|]. exists b. rewrite Hm by (apply elem_of_cons; by left). split_and!; [done..|].
  apply IH; [|done]. intros c Hc. apply Hm, elem_of_cons. by right.
Qed.

(** Writing a field other than the links of a node. *)
Lemma seg_set_data m p h l q a b b' :
  m !! a = Some b -> l_next b' = l_next b -> l_prev b' = l_prev b -> seg m p h l q -> seg (<[a := b']> m) p h l q.
Proof.
  intros Hb Hn Hp. revert p h. induction l as [|c l IH]; intros p h; simpl; [done|]. intros (-> & d & Hd & Hpd & Hs).
  split; [done|]. destruct (decide (a = c)) as [->|Hne].
  - rewrite Hb in Hd. injection Hd as <-. exists b'. rewrite lookup_insert_eq, Hn. split_and!; [done|congruence|by apply IH].
  - exists d. rewrite lookup_insert_ne by done. split_and!; [done..|by apply IH].
Qed.

(** Writing the [prev] field of the first node. *)
Lemma seg_set_prev m p p' h a l q b :
  seg m p h (a :: l) q -> a ∉ l -> m !! a = Some b -> seg (<[a := with_prev p' b]> m) p' h (a :: l) q.
Proof.
  intros (-> & b' & Hb' & _ & Hs) Hnin Hb. rewrite Hb in Hb'. injection Hb' as <-. split; [done|].
  exists (with_prev p' b). rewrite lookup_insert_eq, l_prev_with_prev, l_next_with_prev. split_and!; [done..|].
  eapply seg_ext; [|exact Hs]. intros c Hc. rewrite lookup_insert_ne; [done|congruence].
Qed.

(** Writing the [next] field of the last node. *)
Lemma seg_set_next m p h l a q q' b :
  seg m p h (l ++ [a]) q -> a ∉ l -> m !! a = Some b -> seg (<[a := with_next q' b]> m) p h (l ++ [a]) q'.
Proof.
  intros (c & Hl & Ha)%seg_app Hnin Hb. apply seg_app. exists c. split.
  - eapply seg_ext; [|exact Hl]. intros d Hd. rewrite lookup_insert_ne; [done|congruence].
  - destruct Ha as (-> & b' & Hb' & Hp & _). rewrite Hb in Hb'. injection Hb' as <-. split; [done|].
    exists (with_next q' b). rewrite lookup_insert_eq, l_prev_with_next. split_and!; [done..|]. apply l_next_with_next.
Qed.

Lemma seg_elem m p h l q a : seg m p h l q -> a ∈ l -> is_Some (m !! a).
Proof.
  revert p h. induction l as [|c l IH]; intros p h; [by intros _ ?%not_elem_of_nil|].
  intros (-> & b & Hb & _ & Hs) [->|Ha]%elem_of_cons; eauto.
Qed.

(** A node in the middle. *)
Lemma seg_middle m p h l1 a l2 :
  seg m p h (l1 ++ a :: l2) 0 ->
  exists b, m !! a = Some b /\ l_prev b = lastd p l1 /\ l_next b = headd l2 0 /\
    seg m p h l1 a /\ seg m a (l_next b) l2 0.
Proof.
  intros (c & H1 & -> & b & Hb & Hp & H2)%seg_app. exists b. split_and!; try done. by eapply seg_head.
Qed.

Lemma list_head_inv {A} (xs : list A) : xs = [] \/ exists (c : A) (ys : list A), xs = c :: ys.
Proof. destruct xs; eauto. Qed.

Lemma list_last_inv {A} (xs : list A) : xs = [] \/ exists (ys : list A) (c : A), xs = ys ++ [c].
Proof. destruct xs as [|c ys] using rev_ind; eauto. Qed.

(** ** Insertion at the head *)

(** The node [b] at [a] in front of the list [l]. *)
Definition link m (a : Z) b l : gmap Z B :=
  let m := <[a := b]> m in
  match l with
  | [] => m
  | c :: _ => match m !! c with
      | Some d => <[c := with_prev a d]> m
      | None => m
      end
  end.

Lemma link_other m a b l c : c <> a -> c ∉ l -> link m a b l !! c = m !! c.
Proof.
  intros Hc Hin. unfold link. destruct l as [|d l].
  - by rewrite lookup_insert_ne.
  - rewrite not_elem_of_cons in Hin. destruct (_ !! d); rewrite ?lookup_insert_ne; naive_solver.
Qed.

Lemma link_self m a b l : a ∉ l -> link m a b l !! a = Some b.
Proof.
  intros Hn. unfold link. destruct l as [|d l]; [apply lookup_insert_eq|]. rewrite not_elem_of_cons in Hn.
  destruct (_ !! d); [rewrite lookup_insert_ne by naive_solver|]; apply lookup_insert_eq.
Qed.

Lemma link_seg m a b l h :
  seg m 0 h l 0 -> a ∉ l -> NoDup l -> l_prev b = 0 -> l_next b = h -> seg (link m a b l) 0 a (a :: l) 0.
Proof.
  intros Hseg Hn Hnd Hp Hx. split; [done|]. exists b. rewrite link_self by done. split_and!; [done..|]. rewrite Hx.
  unfold link. destruct l as [|c l]; [done|]. rewrite not_elem_of_cons in Hn. apply NoDup_cons in Hnd as [Hcl _].
  rewrite lookup_insert_ne by naive_solver.
  destruct (seg_elem _ _ _ _ _ c Hseg ltac:(apply elem_of_cons; by left)) as [d Hd]. rewrite Hd.
  apply (seg_set_prev _ 0); [|done|rewrite lookup_insert_ne; [done|naive_solver]].
  eapply seg_ext; [|exact Hseg]. intros e He. rewrite lookup_insert_ne; [done|]. intros <-.
  apply elem_of_cons in He. naive_solver.
Qed.

(** A node of the list keeps everything but its [prev] field. *)
Lemma link_lookup m a b l c d :
  m !! c = Some d -> c <> a -> exists d', link m a b l !! c = Some d' /\ (d' = d \/ d' = with_prev a d).
Proof.
  intros Hd Hne. unfold link. destruct l as [|e l]; [rewrite lookup_insert_ne by done; eauto|].
  destruct (<[a:=b]> m !! e) as [f|] eqn:E; [|rewrite lookup_insert_ne by done; eauto].
  destruct (decide (e = c)) as [->|]; [|rewrite !lookup_insert_ne by done; eauto].
  rewrite lookup_insert_ne in E by done. rewrite lookup_insert_eq. rewrite Hd in E. injection E as <-. eauto.
Qed.

(** ** Removal *)

Lemma nodup_middle (l1 l2 : list Z) a :
  NoDup (l1 ++ a :: l2) -> NoDup l1 /\ NoDup l2 /\ a ∉ l1 /\ a ∉ l2 /\ (forall c, c ∈ l1 -> c ∉ l2).
Proof.
  intros (H1 & H2 & (H3 & H4)%NoDup_cons)%NoDup_app. setoid_rewrite not_elem_of_cons in H2.
  split_and!; try done; [|intros c Hc; by apply H2]. intros Hin. by destruct (H2 a Hin).
Qed.

Section Unlink.
Context (m : gmap Z B) (l1 l2 : list Z).

(** The predecessor skips the node. *)
Definition unlink_next : gmap Z B :=
  match last l1 with
  | None => m
  | Some c => match m !! c with
      | Some d => <[c := with_next (headd l2 0) d]> m
      | None => m
      end
  end.

(** Then the successor does. *)
Definition unlink : gmap Z B :=
  match l2 with
  | [] => unlink_next
  | c :: _ => match unlink_next !! c with
      | Some d => <[c := with_prev (lastd 0 l1) d]> unlink_next
      | None => unlink_next
      end
  end.

Lemma unlink_nil : l2 = [] -> unlink = unlink_next.
Proof. unfold unlink. by intros ->. Qed.

Lemma unlink_cons d l e :
  l2 = d :: l -> unlink_next !! d = Some e -> unlink = <[d := with_prev (lastd 0 l1) e]> unlink_next.
Proof. unfold unlink. intros He. rewrite He at 1. by intros ->. Qed.

Lemma unlink_next_other c : last l1 <> Some c -> unlink_next !! c = m !! c.
Proof.
  intros Hc. unfold unlink_next. destruct (last l1) as [d|]; [|done].
  destruct (m !! d); [|done]. rewrite lookup_insert_ne; [done|congruence].
Qed.

Lemma unlink_other c : c ∉ l1 -> c ∉ l2 -> unlink !! c = m !! c.
Proof.
  intros H1 H2. rewrite <- unlink_next_other by (intros Hl; by apply H1, last_Some_elem_of).
  unfold unlink. destruct (list_head_inv l2) as [He|(d & l & He)]; rewrite He in H2 |- *; [done|]. rewrite not_elem_of_cons in H2.
  destruct (unlink_next !! d); [|done]. destruct H2 as [H2 _]. rewrite lookup_insert_ne; [done|congruence].
Qed.

Lemma unlink_seg h a :
  NoDup (l1 ++ a :: l2) -> seg m 0 h (l1 ++ a :: l2) 0 ->
  seg unlink 0 (if decide (l1 = []) then headd l2 0 else h) (l1 ++ l2) 0.
Proof.
  intros Hnd Hseg. destruct (nodup_middle _ _ _ Hnd) as (N1 & N2 & A1 & A2 & D). clear Hnd.
  destruct (seg_middle _ _ _ _ _ _ Hseg) as (b' & Hb' & Hp & Hn & S1 & S2). rewrite Hn in S2. clear Hseg.
  apply seg_app. exists (headd l2 0).
  assert (H1 : seg unlink_next 0 (if decide (l1 = []) then headd l2 0 else h) l1 (headd l2 0)).
  { unfold unlink_next. destruct (list_last_inv l1) as [He|(l & c & He)]; rewrite He in *; [done|].
    rewrite decide_False by (by destruct l). rewrite last_snoc.
    destruct (seg_elem _ _ _ _ _ c S1 ltac:(apply elem_of_app; right; by apply list_elem_of_singleton)) as [d Hd].
    rewrite Hd. eapply seg_set_next; [done| |done]. apply NoDup_app in N1 as (_ & N1 & _). intros Hin.
    by apply (N1 c Hin), list_elem_of_singleton. }
  assert (H2 : seg unlink_next a (headd l2 0) l2 0).
  { eapply seg_ext; [|exact S2]. intros c Hc. apply unlink_next_other. intros Hl%last_Some_elem_of. by apply (D c). }
  unfold unlink. destruct (list_head_inv l2) as [He|(d & l & He)]; rewrite He in *; [done|].
  destruct (seg_elem _ _ _ _ _ d H2 ltac:(apply elem_of_cons; by left)) as [e He']. rewrite He'. split.
  - eapply seg_ext; [|exact H1]. intros c Hc. rewrite lookup_insert_ne; [done|]. intros <-. apply (D d Hc), elem_of_cons. by left.
  - eapply seg_set_prev; [done| |done]. by apply NoDup_cons in N2 as [? _].
Qed.

(** A node keeps everything but its links. *)
Lemma unlink_lookup c b :
  m !! c = Some b -> exists b', unlink !! c = Some b' /\ (b' = b \/ (exists v, b' = with_next v b) \/ (exists v, b' = with_prev v b) \/
    exists v w, b' = with_prev v (with_next w b)).
Proof.
  intros Hc. assert (Hn : exists b1, unlink_next !! c = Some b1 /\ (b1 = b \/ exists v, b1 = with_next v b)).
  { unfold unlink_next. destruct (last l1) as [d|]; [|eauto]. destruct (m !! d) as [e|] eqn:E; [|eauto].
    destruct (decide (d = c)) as [->|Hne]; [|rewrite lookup_insert_ne by done; eauto].
    rewrite lookup_insert_eq. rewrite Hc in E. injection E as <-. eauto. }
  destruct Hn as (b1 & Hb1 & Hor). unfold unlink. destruct (list_head_inv l2) as [He|(d & l & He)]; rewrite He; [naive_solver|].
  destruct (unlink_next !! d) as [e|] eqn:E; [|naive_solver].
  destruct (decide (d = c)) as [->|Hne]; [|rewrite lookup_insert_ne by done; naive_solver].
  rewrite lookup_insert_eq. rewrite Hb1 in E. injection E as <-. destruct Hor as [->|[v ->]]; eauto 8.
Qed.
End Unlink.
End DList.
