(* ===== verification/Kernel.v ===== *)
(** * The memory-management system calls (rustix)

    The crate reaches the kernel through rustix: [mmap_anonymous], [munmap],
    [madvise], [mremap] and [mbind].  They are operations of an abstract kernel
    state [K]; [KernelSpec] states what mmap(2), munmap(2) and mremap(2)
    document, and every theorem that needs it takes it as an instance.
    [BumpKernel] is a concrete kernel used to evaluate the model. *)

From S2P Require Import Prelude.

Inductive Advice := LinuxHugepage | LinuxNoHugepage | LinuxDontNeed | LinuxFree | DontNeed.

Class Kernel (K : Type) := {
  (** [mmap_anonymous(null, size, READ|WRITE, PRIVATE)]: the address, or [None]
      for [Err]. *)
  mmap_anonymous : Z -> K -> option Z * K;
  munmap : Z -> Z -> K -> K;
  (** Whether the call succeeded. *)
  madvise : Z -> Z -> Advice -> K -> bool * K;
  (** [mremap(old, old_size, new_size, flags empty)]: grow in place or fail. *)
  mremap : Z -> Z -> Z -> K -> option Z * K;
  (** [mbind(ptr, len, mode, &mask, maxnode, flags)]: whether it succeeded. *)
  sys_mbind : Z -> Z -> Z -> Z -> Z -> Z -> K -> bool * K;
}.

(** The page that a process has above its own half of the addresses, on x86-64.
    A kernel state in which it is mapped is that of a process. *)
Definition VSYSCALL : Z := 18446744073699065856.

(** What the manual pages promise of the calls of a process, in terms of the
    addresses that are mapped. *)
Class KernelSpec (K : Type) `{!Kernel K} := {
  mapped : K -> Z -> Prop;
  mmap_some size k a k' :
    0 < size -> mapped k VSYSCALL -> mmap_anonymous size k = (Some a, k') ->
    0 < a /\ (4096 | a) /\ a + round_up size 4096 <= 2 ^ 47 /\
    (forall x, a <= x < a + round_up size 4096 -> ~ mapped k x) /\
    (forall x, mapped k' x <-> mapped k x \/ a <= x < a + round_up size 4096);
  mmap_none size k k' x :
    mmap_anonymous size k = (None, k') -> mapped k' x <-> mapped k x;
  mmap_keeps size k x :
    mapped k x -> mapped (mmap_anonymous size k).2 x;
  munmap_mapped a len k x :
    mapped (munmap a len k) x -> mapped k x;
  munmap_other a len k x :
    mapped k x -> (forall y, a <= y < a + round_up len 4096 -> mapped k y) -> ~ (a <= x < a + round_up len 4096) -> mapped (munmap a len k) x;
  madvise_mapped a len adv k x :
    mapped (madvise a len adv k).2 x <-> mapped k x;
  mbind_mapped a len mode mask maxnode flags k x :
    mapped (sys_mbind a len mode mask maxnode flags k).2 x <-> mapped k x;
  (** EINVAL: [flags] holds a bit other than MPOL_MF_STRICT, MPOL_MF_MOVE and
      MPOL_MF_MOVE_ALL. *)
  mbind_einval a len mode mask maxnode flags k :
    7 < flags -> (sys_mbind a len mode mask maxnode flags k).1 = false;
  (** Whole pages of a mapping: without flags it grows in place, into memory that
      is not mapped. *)
  mremap_some old osz nsz k a k' :
    0 < osz <= nsz -> (4096 | old) -> (4096 | osz) -> (4096 | nsz) -> mapped k VSYSCALL ->
    (forall x, old <= x < old + osz -> mapped k x) -> mremap old osz nsz k = (Some a, k') ->
    a = old /\ old + nsz <= 2 ^ 47 /\
    (forall x, old + osz <= x < old + nsz -> ~ mapped k x) /\
    (forall x, mapped k' x <-> mapped k x \/ old <= x < old + nsz);
  mremap_none old osz nsz k k' x :
    mremap old osz nsz k = (None, k') -> mapped k' x <-> mapped k x;
}.

Lemma mmap_kept {K} `{!Kernel K} `{!KernelSpec K} size (k : K) r k' x : mmap_anonymous size k = (r, k') -> mapped k x -> mapped k' x.
Proof. intros E Hx. pose proof (mmap_keeps size k x Hx) as Hk. by rewrite E in Hk. Qed.

Lemma round_up_ge a n : 0 < n -> a <= round_up a n.
Proof.
  intros Hn. unfold round_up, div_ceil.
  pose proof (Z.div_mod (a + n - 1) n ltac:(lia)). pose proof (Z.mod_pos_bound (a + n - 1) n Hn). lia.
Qed.

Lemma round_up_divide a n : (n | round_up a n).
Proof. apply Z.divide_factor_r. Qed.

Lemma round_up_id a n : 0 < n -> (n | a) -> round_up a n = a.
Proof.
  intros Hn [q ->]. unfold round_up, div_ceil.
  rewrite <- (Z.div_unique (q * n + n - 1) n q (n - 1)); lia.
Qed.

(** ** A concrete kernel

    The state is the list of live mappings; a new mapping goes above all of
    them, the last one can grow, [madvise] succeeds and [mbind] checks its flags. *)

Module BumpKernel.

Record state := mkState { live : list (Z * Z) }.

Definition top (k : state) : Z :=
  round_up (fold_right (fun '(b, l) t => Z.max (b + l) t) 65536 (live k)) 4096.

Definition mmap (size : Z) (k : state) : option Z * state :=
  let len := round_up size 4096 in
  if (0 <? size) && (top k + len <=? 2 ^ 47)
  then (Some (top k), mkState ((top k, len) :: live k))
  else (None, k).

Definition unmap (a len : Z) (k : state) : state :=
  mkState (filter (fun m => m.1 <> a \/ m.2 <> round_up len 4096) (live k)).

Definition remap (old osz nsz : Z) (k : state) : option Z * state :=
  match live k with
  | (b, l) :: ms =>
      if (b =? old) && (l =? osz) && (b + l =? top k) && (old + nsz <=? 2 ^ 47) then (Some old, mkState ((old, nsz) :: ms)) else (None, k)
  | [] => (None, k)
  end.

Definition in_range (m : Z * Z) (x : Z) : Prop := m.1 <= x < m.1 + m.2.

#[global] Instance kernel : Kernel state := {
  mmap_anonymous := mmap;
  munmap := unmap;
  madvise _ _ _ k := (true, k);
  mremap := remap;
  sys_mbind _ _ _ _ _ flags k := (flags <=? 7, k);
}.

Lemma top_above k m : m ∈ live k -> m.1 + m.2 <= top k.
Proof.
  unfold top. intros Hm.
  assert (m.1 + m.2 <= fold_right (fun '(b, l) t => Z.max (b + l) t) 65536 (live k)).
  { induction (live k) as [|[b l] ms IH]; [by apply not_elem_of_nil in Hm|].
    apply elem_of_cons in Hm as [->|Hm]; simpl; [lia|]. specialize (IH Hm). lia. }
  pose proof (round_up_ge (fold_right (fun '(b, l) t => Z.max (b + l) t) 65536 (live k)) 4096). lia.
Qed.

Lemma top_pos k : 65536 <= top k.
Proof.
  unfold top. assert (65536 <= fold_right (fun '(b, l) t => Z.max (b + l) t) 65536 (live k)).
  { induction (live k) as [|[b l] ms IH]; simpl; lia. }
  pose proof (round_up_ge (fold_right (fun '(b, l) t => Z.max (b + l) t) 65536 (live k)) 4096). lia.
Qed.

#[global] Program Instance kernel_spec : KernelSpec state := {
  mapped k x := x = VSYSCALL \/ exists m, m ∈ live k /\ in_range m x;
}.
Next Obligation.
  intros size k a k' Hs _ Hm. simpl in Hm. unfold mmap in Hm.
  destruct ((0 <? size) && (top k + round_up size 4096 <=? 2 ^ 47)) eqn:E; [|done].
  injection Hm as <- <-. bool_lia. pose proof (top_pos k).
  split; [lia|]. split; [apply round_up_divide|]. split; [lia|]. split.
  - intros x Hx [->|(m & Hm & Hr)]; [unfold VSYSCALL in Hx; lia|]. pose proof (top_above k m Hm). unfold in_range in Hr. lia.
  - intros x. simpl. split.
    + intros [->|(m & [->|Hm]%elem_of_cons & Hr)]; [by left; left|by right|left; right; eauto].
    + intros [[->|(m & Hm & Hr)]|Hx]; [by left|right; exists m|right; exists (top k, round_up size 4096)];
        (split; [apply elem_of_cons; auto|done]).
Qed.
Next Obligation.
  intros size k k' x Hm. simpl in Hm. unfold mmap in Hm. case_match; [done|].
  by injection Hm as <-.
Qed.
Next Obligation.
  intros size k x [->|(m & Hm & Hr)]; [by left|right]. simpl. unfold mmap. case_match; exists m; (split; [simpl|done]); [by right|done].
Qed.
Next Obligation.
  intros a len k x [->|(m & Hm & Hr)]; [by left|right]. simpl in Hm. apply list_elem_of_filter in Hm as [_ Hm]. eauto.
Qed.
Next Obligation.
  intros a len k x [->|(m & Hm & Hr)] _ Hx; [by left|right]. exists m. split; [|done]. apply list_elem_of_filter. split; [|done].
  unfold in_range in Hr. destruct (decide (m.1 = a)); [right|left]; lia.
Qed.
Next Obligation. done. Qed.
Next Obligation. done. Qed.
Next Obligation. intros; simpl. lia. Qed.
Next Obligation.
  intros old osz nsz k a k' Hs _ _ _ _ _ Hm. simpl in Hm. unfold remap in Hm. destruct k as [[|[b l] ms]]; [done|]. cbn [live] in Hm.
  destruct ((b =? old) && _ && _ && _) eqn:E; [|done]. injection Hm as <- <-. rewrite !andb_true_iff, !Z.eqb_eq, Z.leb_le in E. destruct E as [[[-> ->] Htop] Hend].
  split; [done|]. split; [done|]. split.
  - intros x Hx [->|(m & Hm & Hr)]; [unfold VSYSCALL in Hx; lia|]. pose proof (top_above _ m Hm). unfold in_range in Hr. lia.
  - intros x. simpl. split.
    + intros [->|(m & [->|Hm]%elem_of_cons & Hr)]; [by left; left|by right|left; right; exists m; split; [by apply elem_of_cons; right|done]].
    + intros [[->|(m & [->|Hm]%elem_of_cons & Hr)]|Hx]; [by left|right; exists (old, nsz)|right; exists m|right; exists (old, nsz)];
        (split; [apply elem_of_cons; auto|unfold in_range in *; cbn [fst snd] in *; lia || done]).
Qed.
Next Obligation. intros old osz nsz k k' x Hm. simpl in Hm. unfold remap in Hm. repeat case_match; by simplify_eq. Qed.

Definition empty : state := mkState [].

Lemma empty_process : mapped empty VSYSCALL.
Proof. by left. Qed.

End BumpKernel.
