(* ===== verification/Radix.v ===== *)
(** * The ownership map (src/internals/radix_tree.rs)

    A four-level radix tree over 4 KiB chunks of the 56-bit address space: three
    levels of pointer tables and a leaf bitmap of 64 words.  Memory is a map
    from (table base, word index) to the 64-bit word, an absent word being a
    zero of a fresh anonymous mapping.  The development proves that the tree
    refines a set of chunk indices. *)

From S2P Require Import Prelude Types Kernel.

Definition CHUNK_SIZE : Z := 4096.

Definition L0_BITS : Z := 8.
Definition L1_BITS : Z := 12.
Definition L2_BITS : Z := 12.
Definition L3_BITS : Z := 12.

Definition L0_SIZE : Z := Z.shiftl 1 L0_BITS.
Definition L1_SIZE : Z := Z.shiftl 1 L1_BITS.
Definition L2_SIZE : Z := Z.shiftl 1 L2_BITS.
Definition L3_SIZE : Z := Z.shiftl 1 L3_BITS.
Definition L3_WORD_BITS : Z := 64.
Definition L3_BITMAP_WORDS : Z := (L3_SIZE + L3_WORD_BITS - 1) / L3_WORD_BITS.

Definition MAX_ADDR : Z := Z.shiftl 1 56.
Definition RADIX_MAX_CHUNKS : Z := Z.shiftl 1 (L0_BITS + L1_BITS + L2_BITS + L3_BITS).

Abbreviation words := (gmap (Z * Z) Z).

(** An atomic load of word [i] of a table. *)
Definition load (m : words) (table i : Z) : Z := default 0 (m !! (table, i)).

Definition store (m : words) (table i v : Z) : words := <[(table, i) := v]> m.

(** [compare_exchange]: [inl m'] on success, [inr existing] on failure. *)
Definition compare_exchange (m : words) (table i old new : Z) : words + Z :=
  if load m table i =? old then inl (store m table i new) else inr (load m table i).

(** A new anonymous mapping reads as zeros. *)
Definition zero_table (m : words) (table : Z) : words := filter (fun kv => kv.1.1 <> table) m.

Definition split (idx : Z) : Z * Z * Z * Z :=
  let l0 := Z.land (Z.shiftr idx (L1_BITS + L2_BITS + L3_BITS)) (L0_SIZE - 1) in
  let l1 := Z.land (Z.shiftr idx (L2_BITS + L3_BITS)) (L1_SIZE - 1) in
  let l2 := Z.land (Z.shiftr idx L3_BITS) (L2_SIZE - 1) in
  let l3 := Z.land idx (L3_SIZE - 1) in
  (l0, l1, l2, l3).

Definition valid_user_addr (addr : Z) : bool := addr <? MAX_ADDR.

(** The mask of bits [first_bit ..= last_bit]. *)
Definition range_mask (first_bit last_bit : Z) : Z :=
  let low_mask := wshl usize_max first_bit in
  let high_mask :=
    if last_bit =? L3_WORD_BITS - 1 then usize_max else wshl 1 (last_bit + 1) - 1 in
  Z.land low_mask high_mask.

(** [fetch_or(mask)] or [fetch_and(!mask)]. *)
Definition update_word (m : words) (table i mask : Z) (val : bool) : words :=
  if val then store m table i (Z.lor (load m table i) mask)
  else store m table i (Z.land (load m table i) (wnot 64 mask)).

Section Radix.
Context {K : Type} `{!Kernel K}.

(** [RadixTree] with its memory and the kernel it maps pages from. *)
Record RadixTree := mkRadixTree {
  l0 : Z;
  mem : words;
  kern : K;
}.

Definition map_memory (size : Z) (m : words) (k : K) : outcome (Z * words * K) :=
  match mmap_anonymous size k with
  | (Some ptr, k') => Ret (ptr, zero_table m ptr, k')
  | (None, _) => Fatal VAIinitFailed
  end.

Definition unmap_memory (ptr size : Z) (k : K) : K := munmap ptr size k.

Definition alloc_l3_bitmap_leaf (m : words) (k : K) : outcome (Z * words * K) :=
  map_memory (L3_BITMAP_WORDS * 8) m k.

Definition Radix_new (k : K) : outcome RadixTree :=
  '(ptr, m, k') ← map_memory (L0_SIZE * 8) ∅ k;
  Ret (mkRadixTree ptr m k').

Definition get_or_alloc (ptr idx level_size : Z) (m : words) (k : K) :
    outcome (Z * words * K) :=
  let val := load m ptr idx in
  if negb (val =? 0) then Ret (val, m, k)
  else
    let size := level_size * 8 in
    '(new, m, k) ← map_memory size m k;
    match compare_exchange m ptr idx 0 new with
    | inl m' => Ret (new, m', k)
    | inr existing => Ret (existing, m, unmap_memory new size k)
    end.

Definition get_or_alloc_l3 (l2 idx : Z) (m : words) (k : K) : outcome (Z * words * K) :=
  let val := load m l2 idx in
  if negb (val =? 0) then Ret (val, m, k)
  else
    let size := L3_BITMAP_WORDS * 8 in
    '(new, m, k) ← alloc_l3_bitmap_leaf m k;
    match compare_exchange m l2 idx 0 new with
    | inl m' => Ret (new, m', k)
    | inr existing => Ret (existing, m, unmap_memory new size k)
    end.

(** [Radix::set]. *)
Definition set (t : RadixTree) (chunk_idx : Z) (val : bool) : outcome RadixTree :=
  if RADIX_MAX_CHUNKS <=? chunk_idx then Ret t
  else
    let '(i0, i1, i2, i3) := split chunk_idx in
    '(l1, m, k) ← get_or_alloc (l0 t) i0 L1_SIZE (mem t) (kern t);
    '(l2, m, k) ← get_or_alloc l1 i1 L2_SIZE m k;
    '(l3, m, k) ← get_or_alloc_l3 l2 i2 m k;
    let word_idx := i3 / L3_WORD_BITS in
    let bit_idx := i3 mod L3_WORD_BITS in
    let mask := wshl 1 bit_idx in
    Ret (mkRadixTree (l0 t) (update_word m l3 word_idx mask val) k).

(** The inner loop of [Radix::set_range]: words [word_idx ..= last_word] of
    leaf [l3], [n] of them. *)
Fixpoint set_words (n : nat) (l3 word_idx first_word last_word i3 leaf_end : Z)
    (val : bool) (m : words) : words :=
  match n with
  | O => m
  | S n' =>
      let first_bit := if word_idx =? first_word then i3 mod L3_WORD_BITS else 0 in
      let last_bit :=
        if word_idx =? last_word then leaf_end mod L3_WORD_BITS else L3_WORD_BITS - 1 in
      let mask := range_mask first_bit last_bit in
      set_words n' l3 (word_idx + 1) first_word last_word i3 leaf_end val
        (update_word m l3 word_idx mask val)
  end.

(** The outer loop of [Radix::set_range], one iteration per leaf. *)
Fixpoint set_range_loop (fuel : nat) (t : RadixTree) (chunk_idx end_idx : Z) (val : bool) :
    outcome RadixTree :=
  match fuel with
  | O => Stuck
  | S fuel' =>
      let '(i0, i1, i2, i3) := split chunk_idx in
      '(l1, m, k) ← get_or_alloc (l0 t) i0 L1_SIZE (mem t) (kern t);
      '(l2, m, k) ← get_or_alloc l1 i1 L2_SIZE m k;
      '(l3, m, k) ← get_or_alloc_l3 l2 i2 m k;
      let chunks_left_in_leaf := L3_SIZE - i3 in
      let chunks_left_in_range := end_idx - chunk_idx + 1 in
      let chunks_in_leaf := Z.min chunks_left_in_leaf chunks_left_in_range in
      let leaf_end := i3 + chunks_in_leaf - 1 in
      let first_word := i3 / L3_WORD_BITS in
      let last_word := leaf_end / L3_WORD_BITS in
      let m := set_words (Z.to_nat (last_word - first_word + 1)) l3
                 first_word first_word last_word i3 leaf_end val m in
      let t := mkRadixTree (l0 t) m k in
      if chunks_in_leaf =? chunks_left_in_range then Ret t
      else set_range_loop fuel' t (chunk_idx + chunks_in_leaf) end_idx val
  end.

(** One iteration per leaf between the two indices is enough. *)
Definition set_range_fuel (start_idx end_idx : Z) : nat :=
  Z.to_nat (end_idx / L3_SIZE - start_idx / L3_SIZE + 1).

(** [Radix::get]. *)
Definition get (t : RadixTree) (chunk_idx : Z) : bool :=
  if RADIX_MAX_CHUNKS <=? chunk_idx then false
  else
    let '(i0, i1, i2, i3) := split chunk_idx in
    let l1 := load (mem t) (l0 t) i0 in
    if l1 =? 0 then false
    else
      let l2 := load (mem t) l1 i1 in
      if l2 =? 0 then false
      else
        let l3 := load (mem t) l2 i2 in
        if l3 =? 0 then false
        else
          let word_idx := i3 / L3_WORD_BITS in
          let bit_idx := i3 mod L3_WORD_BITS in
          let mask := wshl 1 bit_idx in
          negb (Z.land (load (mem t) l3 word_idx) mask =? 0).

(** [RadixTree::set_single_big]. *)
Definition set_single_big (t : RadixTree) (addr : Z) (val : bool) : outcome RadixTree :=
  if negb (valid_user_addr addr) then Ret t
  else set t (addr / CHUNK_SIZE) val.

(** [RadixTree::set_range]. *)
Definition set_range (t : RadixTree) (addr size : Z) (val : bool) : outcome RadixTree :=
  if (size =? 0) || negb (valid_user_addr addr) then Ret t
  else
    match checked_add addr (size - 1) with
    | None => Ret t
    | Some end_addr =>
        if negb (valid_user_addr end_addr) then Ret t
        else
          let start_idx := addr / CHUNK_SIZE in
          let end_idx := end_addr / CHUNK_SIZE in
          set_range_loop (set_range_fuel start_idx end_idx) t start_idx end_idx val
    end.

(** [RadixTree::is_owned]. *)
Definition is_owned (t : RadixTree) (addr : Z) : outcome bool :=
  if l0 t =? 0 then Ret false
  else if negb (valid_user_addr addr) then Fatal InvalidPointer
  else Ret (get t (addr / CHUNK_SIZE)).

End Radix.
Arguments RadixTree K : clear implicits.
