(* ===== verification/RadixProofs.v ===== *)
(** * The ownership map refines a set of chunks

    The ghost map [tabs] names the table at every path from the root; it makes
    the pointer structure a tree.  [get], [set] and [set_range] are then reads
    and updates of the set of owned chunks. *)

From S2P Require Import Prelude Types Kernel Radix.

Ltac Zify.zify_post_hook ::= Z.to_euclidean_division_equations.

(** ** Index arithmetic *)

Lemma split_eq idx :
  split idx = ((idx / 2 ^ 36) mod 256, (idx / 2 ^ 24) mod 4096, (idx / 2 ^ 12) mod 4096, idx mod 4096).
Proof.
  unfold split. change (L1_BITS + L2_BITS + L3_BITS) with 36. change (L2_BITS + L3_BITS) with 24.
  change L3_BITS with 12. change (L0_SIZE - 1) with (2 ^ 8 - 1).
  change (L1_SIZE - 1) with (2 ^ 12 - 1). change (L2_SIZE - 1) with (2 ^ 12 - 1).
  change (L3_SIZE - 1) with (2 ^ 12 - 1).
  rewrite !land_low, !Z.shiftr_div_pow2 by lia. done.
Qed.

Definition path (idx : Z) : list Z :=
  [(idx / 2 ^ 36) mod 256; (idx / 2 ^ 24) mod 4096; (idx / 2 ^ 12) mod 4096].

(** Two chunks of the index space share a leaf exactly when they agree above
    the low 12 bits. *)
Lemma path_inj i j :
  0 <= i < 2 ^ 44 -> 0 <= j < 2 ^ 44 -> path i = path j <-> i / 4096 = j / 4096.
Proof.
  intros Hi Hj. unfold path. change (2 ^ 36) with (4096 * (4096 * 4096)). change (2 ^ 24) with (4096 * 4096).
  change (2 ^ 12) with 4096. rewrite <- !Z.div_div by lia.
  assert (0 <= i / 4096 < 4294967296) by (split; lia).
  assert (0 <= j / 4096 < 4294967296) by (split; lia).
  generalize dependent (i / 4096). generalize dependent (j / 4096). intros y Hy x Hx.
  split; [|by intros ->]. intros [= H1 H2 H3]. lia.
Qed.

(** ** Words *)

Lemma load_store m b i v c j :
  load (store m b i v) c j = if decide (c = b /\ j = i) then v else load m c j.
Proof.
  unfold load, store. case_decide as Hd.
  - destruct Hd as [-> ->]. by rewrite lookup_insert_eq.
  - rewrite lookup_insert_ne; [done|]. intros [= -> ->]. tauto.
Qed.

Lemma load_zero_table m b c j : load (zero_table m b) c j = if decide (c = b) then 0 else load m c j.
Proof.
  unfold load, zero_table. rewrite map_lookup_filter.
  destruct (m !! (c, j)) as [v|]; simpl; [|by case_decide].
  repeat case_guard; repeat case_decide; simpl in *; done.
Qed.

Lemma update_word_other m b i mask v c j :
  c <> b \/ j <> i -> load (update_word m b i mask v) c j = load m c j.
Proof.
  intros Hne. unfold update_word. destruct v; rewrite load_store; case_decide; try done; tauto.
Qed.

Lemma update_word_testbit m b i mask v n :
  0 <= n < 64 ->
  Z.testbit (load (update_word m b i mask v) b i) n =
  if Z.testbit mask n then v else Z.testbit (load m b i) n.
Proof.
  intros Hn. unfold update_word. destruct v; rewrite load_store, decide_True by done.
  - rewrite Z.lor_spec. by destruct (Z.testbit mask n), (Z.testbit (load m b i) n).
  - rewrite Z.land_spec, wnot_testbit by lia. destruct (n <? 64) eqn:?; [|lia].
    by destruct (Z.testbit mask n), (Z.testbit (load m b i) n).
Qed.

Lemma update_word_u m b i mask v c j :
  is_u 64 mask -> is_u 64 (load m c j) -> is_u 64 (load (update_word m b i mask v) c j).
Proof.
  intros Hm Hl. unfold update_word. destruct v; rewrite load_store; case_decide as Hd; try done.
  - destruct Hd as [-> ->]. by apply lor_u.
  - destruct Hd as [-> ->]. by apply land_u.
Qed.

Lemma range_mask_u f l : is_u 64 (range_mask f l).
Proof. unfold range_mask. apply land_u; [lia|]. apply (wrap_range 64). lia. Qed.

Lemma range_mask_testbit f l n :
  0 <= f < 64 -> 0 <= l < 64 -> 0 <= n < 64 ->
  Z.testbit (range_mask f l) n = (f <=? n) && (n <=? l).
Proof.
  intros Hf Hl Hn. unfold range_mask. rewrite Z.land_spec, wshl_testbit by lia.
  destruct (n <? 64) eqn:?; [|lia]. unfold usize_max.
  assert (Z.testbit (if l =? L3_WORD_BITS - 1 then 2 ^ 64 - 1 else wshl 1 (l + 1) - 1) n = (n <=? l)) as ->.
  { change (L3_WORD_BITS - 1) with 63. destruct (l =? 63) eqn:?.
    - rewrite ones_testbit by lia. lia.
    - unfold wshl. rewrite Z.shiftl_1_l.
      pose proof (Z.pow_lt_mono_r 2 (l + 1) 64 ltac:(lia) ltac:(lia) ltac:(lia)).
      pose proof (Z.pow_pos_nonneg 2 (l + 1) ltac:(lia) ltac:(lia)).
      rewrite wrap_small by lia. rewrite ones_testbit by lia. lia. }
  destruct (f <=? n) eqn:?; simpl; [|done].
  rewrite ones_testbit by lia. destruct (n - f <? 64) eqn:?; [done|lia].
Qed.

(** ** The tree invariant *)

Section Proofs.
Context {K : Type} `{!Kernel K} `{!KernelSpec K}.
Implicit Types (t : RadixTree K) (m : words) (k : K) (tabs : gmap (list Z) Z).

Record radix_inv (root : Z) m k tabs : Prop := {
  ri_root : tabs !! [] = Some root;
  ri_inj p q b : tabs !! p = Some b -> tabs !! q = Some b -> p = q;
  ri_nz p b : tabs !! p = Some b -> b <> 0;
  ri_link p b i : tabs !! p = Some b -> (length p < 3)%nat ->
    load m b i = default 0 (tabs !! (p ++ [i]));
  ri_leaf p b i : tabs !! p = Some b -> length p = 3%nat -> is_u 64 (load m b i);
  ri_len p b : tabs !! p = Some b -> (length p <= 3)%nat;
  ri_pref p i : is_Some (tabs !! (p ++ [i])) -> is_Some (tabs !! p);
  ri_mapped p b : tabs !! p = Some b -> mapped k b;
  ri_process : mapped k VSYSCALL;
}.

(** A well-formed ownership map. *)
Definition radix_wf t : Prop := exists tabs, radix_inv (l0 t) (mem t) (kern t) tabs.

Lemma radix_process t : radix_wf t -> mapped (kern t) VSYSCALL.
Proof. intros [tabs Hi]. apply Hi. Qed.

(** Bit [n] of the leaf at path [p]. *)
Definition leaf_bit m tabs (p : list Z) (n : Z) : bool :=
  match tabs !! p with
  | Some leaf => Z.testbit (load m leaf (n / 64)) (n mod 64)
  | None => false
  end.

Lemma get_leaf_bit root m k tabs idx :
  radix_inv root m k tabs -> 0 <= idx < 2 ^ 44 ->
  get (mkRadixTree root m k) idx = leaf_bit m tabs (path idx) (idx mod 4096).
Proof.
  intros Hi Hidx. unfold get. change RADIX_MAX_CHUNKS with (2 ^ 44).
  destruct (2 ^ 44 <=? idx) eqn:?; [lia|]. rewrite split_eq. simpl l0. simpl mem.
  set (i0 := (idx / 2 ^ 36) mod 256). set (i1 := (idx / 2 ^ 24) mod 4096).
  set (i2 := (idx / 2 ^ 12) mod 4096). set (i3 := idx mod 4096).
  assert (Hp : path idx = [i0; i1; i2]) by done. rewrite Hp. clear Hp.
  pose proof (ri_link _ _ _ _ Hi [] root i0 (ri_root _ _ _ _ Hi) ltac:(simpl; lia)) as L0. simpl in L0.
  unfold leaf_bit.
  destruct (tabs !! [i0]) as [b1|] eqn:E1; simpl in L0; rewrite L0; last first.
  { destruct (tabs !! [i0; i1; i2]) eqn:E3; [|done].
    destruct (ri_pref _ _ _ _ Hi [i0; i1] i2 ltac:(eauto)) as [? E2].
    destruct (ri_pref _ _ _ _ Hi [i0] i1 ltac:(eauto)) as [? ?]. congruence. }
  pose proof (ri_nz _ _ _ _ Hi _ _ E1). destruct (b1 =? 0) eqn:?; [lia|].
  pose proof (ri_link _ _ _ _ Hi [i0] b1 i1 E1 ltac:(simpl; lia)) as L1. simpl in L1.
  destruct (tabs !! [i0; i1]) as [b2|] eqn:E2; simpl in L1; rewrite L1; last first.
  { destruct (tabs !! [i0; i1; i2]) eqn:E3; [|done].
    destruct (ri_pref _ _ _ _ Hi [i0; i1] i2 ltac:(eauto)) as [? ?]. congruence. }
  pose proof (ri_nz _ _ _ _ Hi _ _ E2). destruct (b2 =? 0) eqn:?; [lia|].
  pose proof (ri_link _ _ _ _ Hi [i0; i1] b2 i2 E2 ltac:(simpl; lia)) as L2. simpl in L2.
  destruct (tabs !! [i0; i1; i2]) as [b3|] eqn:E3; simpl in L2; rewrite L2; [|done].
  pose proof (ri_nz _ _ _ _ Hi _ _ E3). destruct (b3 =? 0) eqn:?; [lia|].
  change L3_WORD_BITS with 64. apply single_mask_land. lia.
Qed.

(** ** Finding or creating a table *)

(** What one level of the walk does: the tree gains at most a zero table, and
    the bits of every leaf stay. *)
Definition extends m tabs m' tabs' : Prop :=
  tabs ⊆ tabs' /\ forall p n, length p = 3%nat -> leaf_bit m' tabs' p n = leaf_bit m tabs p n.

Lemma extends_refl m tabs : extends m tabs m tabs.
Proof. done. Qed.

Lemma extends_trans m1 tabs1 m2 tabs2 m3 tabs3 :
  extends m1 tabs1 m2 tabs2 -> extends m2 tabs2 m3 tabs3 -> extends m1 tabs1 m3 tabs3.
Proof.
  intros [S1 B1] [S2 B2]. split; [by etrans|]. intros p n Hp. by rewrite B2, B1.
Qed.

Lemma app_inj_snoc (p q : list Z) i j : p ++ [i] = q ++ [j] -> p = q /\ i = j.
Proof. intros H. by apply app_inj_tail. Qed.

(** A fresh zero table [new] linked into slot [i] of the table [b] at path
    [p]. *)
Section Fresh.
Context (root : Z) (m : words) (k k' : K) (tabs : gmap (list Z) Z) (p : list Z) (b i new size : Z).
Context (Hi : radix_inv root m k tabs) (Hs : 0 < size)
  (Hm : mmap_anonymous size k = (Some new, k'))
  (Hp : tabs !! p = Some b) (Hlen : (length p < 3)%nat) (Hnone : tabs !! (p ++ [i]) = None).

Let m' : words := store (zero_table m new) b i new.
Let tabs' : gmap (list Z) Z := <[p ++ [i] := new]> tabs.

Lemma fresh_ne q c : tabs !! q = Some c -> c <> new.
Proof using Hi Hs Hm KernelSpec0.
  clear Hlen Hp Hnone.
  intros Hq ->. destruct (mmap_some size k new k' Hs (ri_process _ _ _ _ Hi) Hm) as (_ & _ & _ & Hfresh & _).
  apply (Hfresh new); [|by eapply ri_mapped]. pose proof (round_up_ge size 4096). lia.
Qed.

Lemma fresh_load q c j :
  tabs !! q = Some c -> load m' c j = if decide (q = p /\ j = i) then new else load m c j.
Proof.
  intros Hq. unfold m'. rewrite load_store, load_zero_table, (decide_False (P := c = new)) by (by eapply fresh_ne).
  destruct (decide (c = b /\ j = i)) as [Hd|Hd], (decide (q = p /\ j = i)) as [Hd0|Hd0]; try done.
  - destruct Hd as [-> ->]. destruct Hd0. split; [|done]. by eapply ri_inj.
  - destruct Hd0 as [-> ->]. destruct Hd. split; [|done]. congruence.
Qed.

Lemma fresh_zero j : load m' new j = 0.
Proof.
  unfold m'. rewrite load_store, load_zero_table.
  rewrite decide_False; [by rewrite decide_True|]. intros [Hnb _]. by eapply (fresh_ne p b).
Qed.

Lemma snoc_ne q j : length q = length (p ++ [i]) -> q ++ [j] <> p ++ [i].
Proof. intros Hq E. apply (f_equal length) in E. rewrite length_app in E. simpl in E. lia. Qed.

Lemma fresh_link q c j :
  tabs' !! q = Some c -> (length q < 3)%nat -> load m' c j = default 0 (tabs' !! (q ++ [j])).
Proof.
  intros Hq Hq3. unfold tabs' in *. rewrite lookup_insert in Hq. case_decide as Hqp.
  - subst q. injection Hq as <-. rewrite fresh_zero, lookup_insert_ne by (intros E; by eapply snoc_ne).
    destruct (tabs !! ((p ++ [i]) ++ [j])) as [d|] eqn:E; [|done].
    destruct (ri_pref _ _ _ _ Hi (p ++ [i]) j ltac:(eauto)). congruence.
  - rewrite (fresh_load q c j Hq). case_decide as Hd.
    { destruct Hd as [-> ->]. by rewrite lookup_insert_eq. }
    rewrite lookup_insert_ne by (intros E; apply app_inj_snoc in E as [-> ->]; tauto).
    by eapply ri_link.
Qed.

Lemma fresh_pref q j : is_Some (tabs' !! (q ++ [j])) -> is_Some (tabs' !! q).
Proof.
  intros [c Hq]. unfold tabs' in *. rewrite lookup_insert in Hq. rewrite lookup_insert_is_Some.
  destruct (decide (p ++ [i] = q)) as [Heq|Hne]; [by left|right]. split; [done|].
  case_decide as Hd; [apply app_inj_snoc in Hd as [<- _]; eauto|]. by eapply ri_pref.
Qed.

Lemma fresh_inv : radix_inv root m' k' tabs'.
Proof.
  destruct (mmap_some size k new k' Hs (ri_process _ _ _ _ Hi) Hm) as (Hpos & _ & _ & _ & Hmap).
  pose proof (round_up_ge size 4096 ltac:(lia)).
  constructor; try apply fresh_link; try apply fresh_pref; unfold tabs'.
  - rewrite lookup_insert_ne; [apply Hi|]. by destruct p.
  - intros q1 q2 c. rewrite !lookup_insert. intros H1 H2.
    destruct (decide (p ++ [i] = q1)), (decide (p ++ [i] = q2)); try congruence.
    + injection H1 as <-. by destruct (fresh_ne _ _ H2).
    + injection H2 as <-. by destruct (fresh_ne _ _ H1).
    + by eapply ri_inj.
  - intros q c. rewrite lookup_insert. case_decide; intros Hq; [injection Hq as <-; lia|by eapply ri_nz].
  - intros q c j Hq Hq3. rewrite lookup_insert in Hq. case_decide.
    + injection Hq as <-. rewrite fresh_zero. unfold is_u. lia.
    + rewrite (fresh_load q c j Hq), decide_False; [by eapply ri_leaf|]. intros [-> _]. lia.
  - intros q c. rewrite lookup_insert. case_decide; intros Hq; [subst q; rewrite length_app; simpl; lia|by eapply ri_len].
  - intros q c. rewrite lookup_insert. case_decide; intros Hq; apply Hmap;
      [injection Hq as <-; right; lia|left; by eapply ri_mapped].
  - apply Hmap. left. apply Hi.
Qed.

Lemma fresh_extends : extends m tabs m' tabs'.
Proof.
  split; [by apply insert_subseteq|]. intros q n Hq. unfold leaf_bit, tabs'. rewrite lookup_insert.
  case_decide as Hd.
  - subst q. rewrite Hnone, fresh_zero, Z.bits_0. done.
  - destruct (tabs !! q) as [c|] eqn:E; [|done]. rewrite (fresh_load q c _ E), decide_False; [done|].
    intros [-> _]. lia.
Qed.
End Fresh.

Lemma get_or_alloc_ok root m k tabs p b i sz :
  radix_inv root m k tabs -> 0 < sz -> tabs !! p = Some b -> (length p < 3)%nat ->
  match get_or_alloc b i sz m k with
  | Ret (b', m', k') => exists tabs',
      radix_inv root m' k' tabs' /\ tabs' !! (p ++ [i]) = Some b' /\ extends m tabs m' tabs'
  | Fatal e => e = VAIinitFailed
  | Stuck => False
  end.
Proof.
  intros Hi Hs Hp Hlen. unfold get_or_alloc. rewrite (ri_link _ _ _ _ Hi p b i Hp Hlen).
  destruct (tabs !! (p ++ [i])) as [c|] eqn:E; simpl.
  - pose proof (ri_nz _ _ _ _ Hi _ _ E). destruct (c =? 0) eqn:?; [lia|]. simpl.
    exists tabs. eauto using extends_refl.
  - unfold map_memory. destruct (mmap_anonymous (sz * 8) k) as [[new|] k'] eqn:Hm; [|done]. simpl.
    unfold compare_exchange. rewrite load_zero_table, decide_False by (eapply fresh_ne; [exact Hi| |exact Hm|exact Hp]; lia).
    rewrite (ri_link _ _ _ _ Hi p b i Hp Hlen), E. simpl.
    exists (<[p ++ [i] := new]> tabs). rewrite lookup_insert_eq.
    split_and!; [apply fresh_inv with (k := k) (size := sz * 8)|done
      |apply fresh_extends with (root := root) (k := k) (k' := k') (size := sz * 8)]; done || lia.
Qed.

(** The walk of [set] and [set_range] down to a leaf. *)
Definition locate (root i0 i1 i2 : Z) m k : outcome (Z * words * K) :=
  '(l1, m, k) ← get_or_alloc root i0 L1_SIZE m k;
  '(l2, m, k) ← get_or_alloc l1 i1 L2_SIZE m k;
  get_or_alloc_l3 l2 i2 m k.

Lemma locate_ok root m k tabs i0 i1 i2 :
  radix_inv root m k tabs ->
  match locate root i0 i1 i2 m k with
  | Ret (l3, m', k') => exists tabs',
      radix_inv root m' k' tabs' /\ tabs' !! [i0; i1; i2] = Some l3 /\ extends m tabs m' tabs'
  | Fatal e => e = VAIinitFailed
  | Stuck => False
  end.
Proof.
  intros Hi. unfold locate.
  pose proof (get_or_alloc_ok root m k tabs [] root i0 L1_SIZE Hi ltac:(done) (ri_root _ _ _ _ Hi) ltac:(simpl; lia)) as H1.
  destruct (get_or_alloc root i0 L1_SIZE m k) as [[[b1 m1] k1]| |]; simpl; [|done..].
  destruct H1 as (tabs1 & Hi1 & E1 & X1).
  pose proof (get_or_alloc_ok root m1 k1 tabs1 [i0] b1 i1 L2_SIZE Hi1 ltac:(done) E1 ltac:(simpl; lia)) as H2.
  destruct (get_or_alloc b1 i1 L2_SIZE m1 k1) as [[[b2 m2] k2]| |]; simpl; [|done..].
  destruct H2 as (tabs2 & Hi2 & E2 & X2).
  pose proof (get_or_alloc_ok root m2 k2 tabs2 [i0; i1] b2 i2 L3_BITMAP_WORDS Hi2 ltac:(done) E2 ltac:(simpl; lia)) as H3.
  change (get_or_alloc_l3 b2 i2 m2 k2) with (get_or_alloc b2 i2 L3_BITMAP_WORDS m2 k2).
  destruct (get_or_alloc b2 i2 L3_BITMAP_WORDS m2 k2) as [[[b3 m3] k3]| |]; [|done..].
  destruct H3 as (tabs3 & Hi3 & E3 & X3). exists tabs3. eauto using extends_trans.
Qed.

(** ** Updating a leaf *)

(** Memory that differs only in the words of one leaf keeps the tree. *)
Lemma leaf_update_inv root m m' k tabs p leaf :
  radix_inv root m k tabs -> tabs !! p = Some leaf -> length p = 3%nat ->
  (forall c j, c <> leaf -> load m' c j = load m c j) ->
  (forall j, is_u 64 (load m leaf j) -> is_u 64 (load m' leaf j)) ->
  radix_inv root m' k tabs /\
  forall q n, q <> p -> leaf_bit m' tabs q n = leaf_bit m tabs q n.
Proof.
  intros Hi Hp H3 Hoth Hu. split.
  - constructor; try apply Hi.
    + intros q c j Hq Hl. rewrite Hoth; [by eapply ri_link|].
      intros ->. pose proof (ri_inj _ _ _ _ Hi _ _ _ Hp Hq). subst. lia.
    + intros q c j Hq Hl. destruct (decide (c = leaf)) as [->|].
      * apply Hu. by eapply ri_leaf.
      * rewrite Hoth by done. by eapply ri_leaf.
  - intros q n Hne. unfold leaf_bit. destruct (tabs !! q) as [c|] eqn:E; [|done].
    rewrite Hoth; [done|]. intros ->. destruct Hne. by eapply ri_inj.
Qed.

Lemma set_words_other n l3 w f l i3 le v m c j :
  c <> l3 -> load (set_words n l3 w f l i3 le v m) c j = load m c j.
Proof.
  intros Hc. revert w m. induction n as [|n IH]; intros w m; simpl; [done|].
  rewrite IH. apply update_word_other. by left.
Qed.

Lemma set_words_u n l3 w f l i3 le v m j :
  is_u 64 (load m l3 j) -> is_u 64 (load (set_words n l3 w f l i3 le v m) l3 j).
Proof.
  revert w m. induction n as [|n IH]; intros w m Hu; simpl; [done|].
  apply IH. apply update_word_u; [apply range_mask_u|done].
Qed.

(** Bits of word [j] after the words [w, w + n) have been updated. *)
Lemma set_words_testbit n l3 w f l i3 le v m j b :
  0 <= b < 64 ->
  Z.testbit (load (set_words n l3 w f l i3 le v m) l3 j) b =
  if decide (w <= j < w + Z.of_nat n)
  then if Z.testbit (range_mask (if j =? f then i3 mod 64 else 0) (if j =? l then le mod 64 else 63)) b
       then v else Z.testbit (load m l3 j) b
  else Z.testbit (load m l3 j) b.
Proof.
  intros Hb. revert w m. induction n as [|n IH]; intros w m; simpl set_words.
  - rewrite decide_False by lia. done.
  - rewrite IH. destruct (decide (j = w)) as [->|Hj].
    + rewrite decide_False, decide_True by lia. rewrite update_word_testbit by done. done.
    + rewrite update_word_other by (by right).
      destruct (decide (w + 1 <= j < w + 1 + Z.of_nat n)), (decide (w <= j < w + Z.of_nat (S n))); lia || done.
Qed.

(** All the words together: exactly the chunks [i3 ..= leaf_end]. *)
Lemma set_words_range l3 i3 le v m n :
  0 <= i3 <= le -> le < 4096 -> 0 <= n < 4096 ->
  let m' := set_words (Z.to_nat (le / 64 - i3 / 64 + 1)) l3 (i3 / 64) (i3 / 64) (le / 64) i3 le v m in
  Z.testbit (load m' l3 (n / 64)) (n mod 64) =
  if (i3 <=? n) && (n <=? le) then v else Z.testbit (load m l3 (n / 64)) (n mod 64).
Proof.
  intros Hi Hle Hn m'. unfold m'. rewrite set_words_testbit by lia.
  rewrite Z2Nat.id by lia.
  case_decide.
  - rewrite range_mask_testbit by (repeat case_match; lia).
    assert (((if n / 64 =? i3 / 64 then i3 mod 64 else 0) <=? n mod 64) &&
            (n mod 64 <=? (if n / 64 =? le / 64 then le mod 64 else 63)) = (i3 <=? n) && (n <=? le)) as ->.
    { apply eq_iff_eq_true. rewrite !andb_true_iff, !Z.leb_le. repeat case_match; lia. }
    done.
  - destruct ((i3 <=? n) && (n <=? le)) eqn:E; [|done]. bool_lia.
Qed.

(** ** The operations as updates of the set of owned chunks *)

(** Result of an update of the chunks selected by [sel]: the tree stays well
    formed with the same root and exactly those chunks take the value [v]; the
    only failure is the abort of a failed mapping. *)
Definition updated t (sel : Z -> bool) (v : bool) (o : outcome (RadixTree K)) : Prop :=
  match o with
  | Ret t' =>
      radix_wf t' /\ l0 t' = l0 t /\
      forall j, 0 <= j < 2 ^ 44 -> get t' j = if sel j then v else get t j
  | Fatal e => e = VAIinitFailed
  | Stuck => False
  end.

(** Rewriting one leaf: the chunks of [lo ..= hi], all in the leaf of [idx]. *)
Lemma leaf_updated root m k tabs m1 m2 k1 tabs1 idx l3 (sel : Z -> bool) v :
  radix_inv root m k tabs -> 0 <= idx < 2 ^ 44 ->
  radix_inv root m1 k1 tabs1 -> tabs1 !! path idx = Some l3 -> extends m tabs m1 tabs1 ->
  (forall c j, c <> l3 -> load m2 c j = load m1 c j) ->
  (forall j, is_u 64 (load m1 l3 j) -> is_u 64 (load m2 l3 j)) ->
  (forall j, 0 <= j < 2 ^ 44 -> j / 4096 = idx / 4096 ->
     Z.testbit (load m2 l3 ((j mod 4096) / 64)) ((j mod 4096) mod 64) =
     if sel j then v else Z.testbit (load m1 l3 ((j mod 4096) / 64)) ((j mod 4096) mod 64)) ->
  (forall j, 0 <= j < 2 ^ 44 -> j / 4096 <> idx / 4096 -> sel j = false) ->
  updated (mkRadixTree root m k) sel v (Ret (mkRadixTree root m2 k1)).
Proof.
  intros Hi Hidx Hi1 Hl [_ Hbit] Hoth Hu Hin Hout.
  destruct (leaf_update_inv root m1 m2 k1 tabs1 (path idx) l3) as [Hi2 Hb2]; try done.
  split; [by exists tabs1|]. split; [done|]. intros j Hj.
  rewrite (get_leaf_bit _ _ _ _ _ Hi2), (get_leaf_bit _ _ _ _ _ Hi), <- Hbit by done.
  destruct (decide (j / 4096 = idx / 4096)) as [He|Hne].
  - apply path_inj in He; [|done..]. unfold leaf_bit. rewrite He, Hl.
    rewrite Hin; [done..|]. by apply path_inj.
  - rewrite Hout by done. apply Hb2. intros Hp. by apply path_inj in Hp.
Qed.

Lemma set_updated t idx v :
  radix_wf t -> 0 <= idx < 2 ^ 44 -> updated t (fun j => j =? idx) v (set t idx v).
Proof.
  destruct t as [root m k]. intros [tabs Hi] Hidx. simpl in Hi. unfold set.
  change RADIX_MAX_CHUNKS with (2 ^ 44). destruct (2 ^ 44 <=? idx) eqn:?; [lia|].
  rewrite split_eq. simpl l0. simpl mem. simpl kern. cbv beta iota.
  pose proof (locate_ok root m k tabs ((idx / 2 ^ 36) mod 256) ((idx / 2 ^ 24) mod 4096) ((idx / 2 ^ 12) mod 4096) Hi) as Hloc.
  unfold locate in Hloc.
  destruct (get_or_alloc root _ L1_SIZE m k) as [[[b1 m1] k1]| |]; simpl in *; [|done..].
  destruct (get_or_alloc b1 _ L2_SIZE m1 k1) as [[[b2 m2] k2]| |]; simpl in *; [|done..].
  destruct (get_or_alloc_l3 b2 _ m2 k2) as [[[l3 m3] k3]| |]; simpl in *; [|done..].
  destruct Hloc as (tabs3 & Hi3 & Hl & Hx). change L3_WORD_BITS with 64.
  eapply (leaf_updated root m k tabs m3 _ k3 tabs3 idx l3); try done.
  - intros c j Hc. apply update_word_other. by left.
  - intros j Hu. apply update_word_u; [apply (wrap_range 64); lia|done].
  - intros j Hj He. destruct (decide (j mod 4096 / 64 = idx mod 4096 / 64)) as [Hw|Hw].
    + rewrite Hw, update_word_testbit, single_mask_testbit by lia.
      destruct (j =? idx) eqn:?, (j mod 4096 mod 64 =? idx mod 4096 mod 64) eqn:?; lia || done.
    + rewrite update_word_other by (by right). destruct (j =? idx) eqn:E; [|done].
      apply Z.eqb_eq in E as ->. done.
  - intros j Hj Hne. destruct (j =? idx) eqn:E; [|done]. apply Z.eqb_eq in E as ->. done.
Qed.

(** One iteration of the range loop. *)
Lemma leaf_range_updated root m k tabs idx hi v l3 m1 k1 tabs1 :
  radix_inv root m k tabs -> 0 <= idx <= hi -> hi < 2 ^ 44 -> hi / 4096 = idx / 4096 ->
  radix_inv root m1 k1 tabs1 -> tabs1 !! path idx = Some l3 -> extends m tabs m1 tabs1 ->
  let i3 := idx mod 4096 in let le := i3 + (hi - idx) in
  updated (mkRadixTree root m k) (fun j => (idx <=? j) && (j <=? hi)) v
    (Ret (mkRadixTree root
      (set_words (Z.to_nat (le / 64 - i3 / 64 + 1)) l3 (i3 / 64) (i3 / 64) (le / 64) i3 le v m1) k1)).
Proof.
  intros Hi Hidx Hhi Hsame Hi1 Hl Hx i3 le. assert (Hle : 0 <= i3 <= le /\ le < 4096) by (unfold i3, le; lia).
  eapply (leaf_updated root m k tabs m1 _ k1 tabs1 idx l3); try done; [lia|..].
  - intros c j Hc. by apply set_words_other.
  - intros j Hu. by apply set_words_u.
  - intros j Hj He. pose proof (set_words_range l3 i3 le v m1 (j mod 4096)) as Hr. cbv zeta in Hr.
    rewrite Hr by lia.
    replace ((i3 <=? j mod 4096) && (j mod 4096 <=? le)) with ((idx <=? j) && (j <=? hi)); [done|].
    apply eq_iff_eq_true. rewrite !andb_true_iff, !Z.leb_le. unfold i3, le. lia.
  - intros j Hj Hne. apply andb_false_iff. rewrite !Z.leb_gt. lia.
Qed.

Lemma updated_compose t t1 (sel1 sel2 sel : Z -> bool) v o :
  updated t sel1 v (Ret t1) -> updated t1 sel2 v o ->
  (forall j, 0 <= j < 2 ^ 44 -> sel j = sel1 j || sel2 j) -> updated t sel v o.
Proof.
  intros (Hw & Hl & Hg) H2 Hsel. destruct o as [t2|e|]; [|done..].
  destruct H2 as (Hw2 & Hl2 & Hg2). split; [done|]. split; [congruence|].
  intros j Hj. rewrite Hg2, Hg, Hsel by done. by destruct (sel1 j), (sel2 j).
Qed.

Lemma set_range_loop_updated fuel t idx hi v :
  radix_wf t -> 0 <= idx <= hi -> hi < 2 ^ 44 -> hi / 4096 - idx / 4096 < Z.of_nat fuel ->
  updated t (fun j => (idx <=? j) && (j <=? hi)) v (set_range_loop fuel t idx hi v).
Proof.
  revert t idx. induction fuel as [|fuel IH]; intros [root m k] idx [tabs Hi] Hidx Hhi Hf; [lia|].
  simpl in Hi. cbn [set_range_loop]. rewrite split_eq. simpl l0. simpl mem. simpl kern.
  pose proof (locate_ok root m k tabs ((idx / 2 ^ 36) mod 256) ((idx / 2 ^ 24) mod 4096) ((idx / 2 ^ 12) mod 4096) Hi) as Hloc.
  unfold locate in Hloc.
  destruct (get_or_alloc root _ L1_SIZE m k) as [[[b1 ma] ka]| |]; simpl in *; [|done..].
  destruct (get_or_alloc b1 _ L2_SIZE _ _) as [[[b2 mb] kb]| |]; simpl in *; [|done..].
  destruct (get_or_alloc_l3 b2 _ _ _) as [[[l3 m1] k1]| |]; cbn [mbind outcome_bind] in *; [|done..].
  destruct Hloc as (tabs1 & Hi1 & Hl & Hx).
  change L3_WORD_BITS with 64. change L3_SIZE with 4096. cbv zeta.
  set (i3 := idx mod 4096). set (n := Z.min (4096 - i3) (hi - idx + 1)).
  pose proof (leaf_range_updated root m k tabs idx (idx + n - 1) v l3 m1 k1 tabs1 Hi ltac:(unfold n, i3; lia)
    ltac:(unfold n, i3; lia) ltac:(unfold n, i3; lia) Hi1 Hl Hx) as Hstep. cbv zeta in Hstep. fold i3 in Hstep.
  replace (i3 + (idx + n - 1 - idx)) with (i3 + n - 1) in Hstep by lia.
  destruct (n =? hi - idx + 1) eqn:En.
  - apply Z.eqb_eq in En. replace (idx + n - 1) with hi in Hstep by lia. done.
  - apply Z.eqb_neq in En. assert (n = 4096 - i3) as Hn4 by lia.
    eapply updated_compose; [exact Hstep|apply IH; [apply Hstep|unfold i3 in *; lia..]|].
    intros j Hj. simpl. apply eq_iff_eq_true. rewrite orb_true_iff, !andb_true_iff, !Z.leb_le. unfold i3 in *. lia.
Qed.

Lemma set_range_updated t addr size v :
  radix_wf t -> 0 <= addr -> 0 < size -> addr + size <= MAX_ADDR ->
  updated t (fun j => (addr / CHUNK_SIZE <=? j) && (j <=? (addr + size - 1) / CHUNK_SIZE)) v
    (set_range t addr size v).
Proof.
  intros Hw Ha Hs Hm. change MAX_ADDR with (2 ^ 56) in Hm. unfold set_range, valid_user_addr, checked_add.
  change MAX_ADDR with (2 ^ 56). change CHUNK_SIZE with 4096.
  destruct (size =? 0) eqn:?; [lia|]. destruct (addr <? 2 ^ 56) eqn:?; [|lia].
  destruct (addr + (size - 1) <? 2 ^ 64) eqn:?; [|lia].
  destruct (addr + (size - 1) <? 2 ^ 56) eqn:?; [|lia]. cbn [negb orb].
  replace (addr + (size - 1)) with (addr + size - 1) by lia.
  apply set_range_loop_updated; try done; try lia.
  unfold set_range_fuel. change L3_SIZE with 4096. lia.
Qed.

(** ** What stays mapped *)

Lemma get_or_alloc_mapped ptr idx size m k b m' k' x :
  0 < size -> get_or_alloc ptr idx size m k = Ret (b, m', k') -> mapped k x -> mapped k' x.
Proof.
  intros Hs. unfold get_or_alloc. destruct (load m ptr idx =? 0) eqn:E; cbn [negb]; [|by intros [= _ _ <-]]. unfold map_memory.
  destruct (mmap_anonymous (size * 8) k) as [[new|] k1] eqn:Hm; cbn [mbind outcome_bind]; [|done].
  unfold compare_exchange. rewrite load_zero_table. apply Z.eqb_eq in E. rewrite E. replace (if decide (ptr = new) then 0 else 0) with 0 by (by case_decide).
  cbn [Z.eqb]. intros [= _ _ <-] Hx. by eapply (mmap_kept _ _ _ _ _ Hm).
Qed.

Lemma locate_mapped root i0 i1 i2 m k b m' k' x : locate root i0 i1 i2 m k = Ret (b, m', k') -> mapped k x -> mapped k' x.
Proof.
  unfold locate. destruct (get_or_alloc root i0 L1_SIZE m k) as [[[b1 m1] k1]| |] eqn:E1; cbn [mbind outcome_bind]; [|done..].
  destruct (get_or_alloc b1 i1 L2_SIZE m1 k1) as [[[b2 m2] k2]| |] eqn:E2; cbn [mbind outcome_bind]; [|done..].
  change (get_or_alloc_l3 b2 i2 m2 k2) with (get_or_alloc b2 i2 L3_BITMAP_WORDS m2 k2). intros E3 Hx.
  eapply get_or_alloc_mapped; [|exact E3|]; [done|]. eapply get_or_alloc_mapped; [|exact E2|]; [done|]. by eapply get_or_alloc_mapped; [|exact E1|].
Qed.

Lemma set_range_loop_mapped fuel t idx hi v t' x : set_range_loop fuel t idx hi v = Ret t' -> mapped (kern t) x -> mapped (kern t') x.
Proof.
  revert t idx. induction fuel as [|fuel IH]; intros [root m k] idx; [done|]. cbn [set_range_loop]. destruct (split idx) as [[[i0 i1] i2] i3]. simpl l0. simpl mem. simpl kern.
  pose proof (locate_mapped root i0 i1 i2 m k) as Hloc. unfold locate in Hloc.
  destruct (get_or_alloc root i0 L1_SIZE m k) as [[[b1 ma] ka]| |]; cbn [mbind outcome_bind] in *; [|done..].
  destruct (get_or_alloc b1 i1 L2_SIZE ma ka) as [[[b2 mb] kb]| |]; cbn [mbind outcome_bind] in *; [|done..].
  destruct (get_or_alloc_l3 b2 i2 mb kb) as [[[l3 m1] k1]| |]; cbn [mbind outcome_bind] in *; [|done..]. intros Hr Hx.
  specialize (Hloc _ _ _ x eq_refl Hx). case_match; [by simplify_eq|]. by eapply IH.
Qed.

Lemma set_mapped t idx v t' x : set t idx v = Ret t' -> mapped (kern t) x -> mapped (kern t') x.
Proof.
  unfold set. case_match; [by intros [= <-]|]. destruct (split idx) as [[[i0 i1] i2] i3]. pose proof (locate_mapped (l0 t) i0 i1 i2 (mem t) (kern t)) as Hloc. unfold locate in Hloc.
  destruct (get_or_alloc (l0 t) i0 L1_SIZE (mem t) (kern t)) as [[[b1 ma] ka]| |]; cbn [mbind outcome_bind] in *; [|done..].
  destruct (get_or_alloc b1 i1 L2_SIZE ma ka) as [[[b2 mb] kb]| |]; cbn [mbind outcome_bind] in *; [|done..].
  destruct (get_or_alloc_l3 b2 i2 mb kb) as [[[l3 m1] k1]| |]; cbn [mbind outcome_bind] in *; [|done..]. intros [= <-]. cbn. by apply (Hloc _ _ _ x eq_refl).
Qed.

Lemma set_range_mapped t addr size v t' x : set_range t addr size v = Ret t' -> mapped (kern t) x -> mapped (kern t') x.
Proof.
  unfold set_range. case_match; [by intros [= <-]|]. case_match; [|by intros [= <-]]. case_match; [by intros [= <-]|]. apply set_range_loop_mapped.
Qed.

Lemma is_owned_get t addr :
  radix_wf t -> 0 <= addr < MAX_ADDR -> is_owned t addr = Ret (get t (addr / CHUNK_SIZE)).
Proof.
  intros [tabs Hi] Ha. unfold is_owned, valid_user_addr.
  pose proof (ri_nz _ _ _ _ Hi _ _ (ri_root _ _ _ _ Hi)).
  destruct (l0 t =? 0) eqn:?; [lia|]. destruct (addr <? MAX_ADDR) eqn:?; [done|lia].
Qed.

(** ** Creation *)

Lemma Radix_new_ok k :
  mapped k VSYSCALL ->
  match Radix_new k with
  | Ret t => radix_wf t /\ forall j, 0 <= j < 2 ^ 44 -> get t j = false
  | Fatal e => e = VAIinitFailed
  | Stuck => False
  end.
Proof.
  intros Hv. unfold Radix_new, map_memory. destruct (mmap_anonymous (L0_SIZE * 8) k) as [[p|] k'] eqn:E; [|done].
  destruct (mmap_some (L0_SIZE * 8) k p k' ltac:(done) Hv E) as (Hp & _ & _ & _ & Hmap). simpl.
  assert (Hi : radix_inv p (zero_table ∅ p) k' {[ [] := p ]}).
  { assert (Hl : forall b i, load (zero_table ∅ p) b i = 0).
    { intros b i. rewrite load_zero_table. by case_decide. }
    constructor.
    - by rewrite lookup_singleton_eq.
    - intros q1 q2 b H1 H2. apply lookup_singleton_Some in H1 as [<- _], H2 as [<- _]. done.
    - intros q b Hq. apply lookup_singleton_Some in Hq as [_ <-]. lia.
    - intros q b i Hq _. rewrite Hl, lookup_singleton_ne by (by destruct q). done.
    - intros q b i Hq _. rewrite Hl. unfold is_u. lia.
    - intros q b Hq. apply lookup_singleton_Some in Hq as [<- _]. simpl. lia.
    - intros q i [b Hq]. apply lookup_singleton_Some in Hq as [Hq _]. by destruct q.
    - intros q b Hq. apply lookup_singleton_Some in Hq as [_ <-]. apply Hmap. right.
      pose proof (round_up_ge (L0_SIZE * 8) 4096). change (L0_SIZE * 8) with 2048 in *. lia.
    - apply Hmap. by left. }
  split; [by eexists|]. intros j Hj. rewrite (get_leaf_bit _ _ _ _ _ Hi) by done.
  unfold leaf_bit. by rewrite lookup_singleton_ne by done.
Qed.

(** C18: marking or clearing a byte range of the user address space terminates
    within one iteration per leaf and, unless a table cannot be mapped, changes
    the ownership of exactly the addresses of the chunks the range touches. *)
Theorem set_range_owns_exactly (t : RadixTree K) (addr size : Z) (v : bool)
    (Hwf : radix_wf t) (Haddr : 0 <= addr) (Hsize : 0 < size)
    (Hend : addr + size <= MAX_ADDR) :
  match set_range t addr size v with
  | Ret t' =>
      radix_wf t' /\
      forall a, 0 <= a < MAX_ADDR ->
        is_owned t' a =
        if (addr / CHUNK_SIZE <=? a / CHUNK_SIZE) && (a / CHUNK_SIZE <=? (addr + size - 1) / CHUNK_SIZE)
        then Ret v else is_owned t a
  | Fatal e => e = VAIinitFailed
  | Stuck => False
  end.
Proof.
  pose proof (set_range_updated t addr size v Hwf Haddr Hsize Hend) as Hu.
  destruct (set_range t addr size v) as [t'| |]; [|done..]. destruct Hu as (Hw & _ & Hg).
  split; [done|]. intros a Ha. rewrite !is_owned_get by done.
  rewrite Hg by (change MAX_ADDR with (2 ^ 56) in Ha; change CHUNK_SIZE with 4096; lia).
  by case_match.
Qed.

(** Marking one address marks its chunk and no other. *)
Lemma set_single_big_owns_chunk (t : RadixTree K) (addr : Z) (v : bool)
    (Hwf : radix_wf t) (Haddr : 0 <= addr < MAX_ADDR) :
  match set_single_big t addr v with
  | Ret t' =>
      radix_wf t' /\
      forall a, 0 <= a < MAX_ADDR ->
        is_owned t' a = if a / CHUNK_SIZE =? addr / CHUNK_SIZE then Ret v else is_owned t a
  | Fatal e => e = VAIinitFailed
  | Stuck => False
  end.
Proof.
  unfold set_single_big, valid_user_addr. destruct (addr <? MAX_ADDR) eqn:?; [|lia]. simpl.
  assert (forall a, 0 <= a < MAX_ADDR -> 0 <= a / CHUNK_SIZE < 2 ^ 44) as Hr.
  { intros a Ha. change MAX_ADDR with (2 ^ 56) in Ha. change CHUNK_SIZE with 4096. lia. }
  pose proof (set_updated t (addr / CHUNK_SIZE) v Hwf (Hr _ Haddr)) as Hu.
  destruct (set t (addr / CHUNK_SIZE) v) as [t'| |]; [|done..]. destruct Hu as (Hw & _ & Hg).
  split; [done|]. intros a Ha. rewrite !is_owned_get, Hg by (done || by apply Hr). by case_match.
Qed.
End Proofs.

(** ** Evaluation on a concrete kernel *)

Definition radix_demo : outcome (RadixTree BumpKernel.state) := Radix_new BumpKernel.empty.

Lemma radix_demo_wf t : radix_demo = Ret t -> radix_wf t.
Proof. intros H. pose proof (Radix_new_ok BumpKernel.empty BumpKernel.empty_process) as Hn. unfold radix_demo in H. rewrite H in Hn. apply Hn. Qed.

Lemma set_range_owns_exactly_witness :
  match radix_demo with
  | Ret t => match set_range t 4095 2 true with Ret t' => is_owned t' 0 = Ret true | _ => False end
  | _ => False
  end.
Proof.
  destruct radix_demo as [t| |] eqn:E; [|by vm_compute in E..].
  pose proof (set_range_owns_exactly t 4095 2 true (radix_demo_wf t E) ltac:(lia) ltac:(lia) ltac:(by vm_compute)) as Hr.
  destruct (set_range t 4095 2 true) as [t'|e|] eqn:Ho; [|exfalso|done].
  - destruct Hr as [_ Hr]. rewrite Hr by by vm_compute. done.
  - revert Ho. vm_compute in E. injection E as <-. by vm_compute.
Defined.
