(* ===== verification/RBTree.v ===== *)
(** * The red-black tree of big allocations (src/internals/rbtree.rs)

    An intrusive red-black tree with parent pointers from payload addresses to
    [BigAllocMeta], with its node pool.  The nodes live in a map from addresses
    to [Node]s; every read or write of a field goes through it, and is [Stuck]
    on an address that holds no node (null in particular).  The statements are
    in the order of the source; the lock that every public operation holds is
    the subject of [Sync]. *)

From S2P Require Import Prelude Types Kernel.

Definition NODE_CHUNK : Z := 1024.

Inductive Color := Red | Black.

#[export] Instance Color_eq_dec : EqDecision Color.
Proof. solve_decision. Defined.

Record Node := mkNode {
  key : Z;
  meta : BigAllocMeta;
  left : Z;
  right : Z;
  parent : Z;
  color : Color;
}.

(** [size_of::<Node>()]: the metadata is 48 bytes, aligned to 16. *)
Definition Node_SIZE : Z := 96.

(** A node of a fresh anonymous mapping: all bytes zero. *)
Definition zero_node : Node := mkNode 0 (mkBigAllocMeta 0 0 0 0 false) 0 0 0 Red.

Record RBTree := mkRBTree {
  root : Z;
  free_list : Z;
  nodes : gmap Z Node;
}.

Definition RBTree_new : RBTree := mkRBTree null null ∅.

(** ** Field accesses *)

Definition deref (s : RBTree) (p : Z) : outcome Node := from_option (nodes s !! p).

Definition update (s : RBTree) (p : Z) (f : Node -> Node) : outcome RBTree :=
  n ← deref s p;
  Ret (mkRBTree (root s) (free_list s) (<[p := f n]> (nodes s))).

Definition get_left (s : RBTree) (p : Z) : outcome Z := left <$> deref s p.
Definition get_right (s : RBTree) (p : Z) : outcome Z := right <$> deref s p.
Definition get_parent (s : RBTree) (p : Z) : outcome Z := parent <$> deref s p.
Definition get_color (s : RBTree) (p : Z) : outcome Color := color <$> deref s p.
Definition get_key (s : RBTree) (p : Z) : outcome Z := key <$> deref s p.
Definition get_meta (s : RBTree) (p : Z) : outcome BigAllocMeta := meta <$> deref s p.

Definition set_left (s : RBTree) (p v : Z) : outcome RBTree :=
  update s p (fun n => mkNode (key n) (meta n) v (right n) (parent n) (color n)).
Definition set_right (s : RBTree) (p v : Z) : outcome RBTree :=
  update s p (fun n => mkNode (key n) (meta n) (left n) v (parent n) (color n)).
Definition set_parent (s : RBTree) (p v : Z) : outcome RBTree :=
  update s p (fun n => mkNode (key n) (meta n) (left n) (right n) v (color n)).
Definition set_color (s : RBTree) (p : Z) (c : Color) : outcome RBTree :=
  update s p (fun n => mkNode (key n) (meta n) (left n) (right n) (parent n) c).
Definition set_key (s : RBTree) (p k : Z) : outcome RBTree :=
  update s p (fun n => mkNode k (meta n) (left n) (right n) (parent n) (color n)).
Definition set_meta (s : RBTree) (p : Z) (v : BigAllocMeta) : outcome RBTree :=
  update s p (fun n => mkNode (key n) v (left n) (right n) (parent n) (color n)).

Definition set_root (s : RBTree) (v : Z) : RBTree := mkRBTree v (free_list s) (nodes s).
Definition set_free_list (s : RBTree) (v : Z) : RBTree := mkRBTree (root s) v (nodes s).

Definition color_of (s : RBTree) (n : Z) : outcome Color :=
  if n =? null then Ret Black else get_color s n.

Definition is_red (s : RBTree) (n : Z) : outcome bool :=
  c ← color_of s n; Ret (bool_decide (c = Red)).

Definition is_black (s : RBTree) (n : Z) : outcome bool :=
  c ← color_of s n; Ret (bool_decide (c = Black)).

(** Whether the left (right) child of [w] is black. *)
Definition left_black (s : RBTree) (w : Z) : outcome bool := wl ← get_left s w; is_black s wl.

Definition right_black (s : RBTree) (w : Z) : outcome bool := wr ← get_right s w; is_black s wr.

(** [a && b] with its short circuit. *)
Definition andM (a b : outcome bool) : outcome bool :=
  x ← a; if x : bool then b else Ret false.

(** Enough iterations for any walk along a path of the tree. *)
Definition tree_fuel (s : RBTree) : nat := S (S (size (nodes s))).

(** ** Rotations *)

Definition rotate_left (s : RBTree) (x : Z) : outcome RBTree :=
  y ← get_right s x;
  yl ← get_left s y;
  s ← set_right s x yl;
  yl ← get_left s y;
  s ← (if negb (yl =? null) then set_parent s yl x else Ret s);
  xp ← get_parent s x;
  s ← set_parent s y xp;
  xp ← get_parent s x;
  s ← (if xp =? null then Ret (set_root s y)
       else
         xpl ← get_left s xp;
         if x =? xpl then set_left s xp y else set_right s xp y);
  s ← set_left s y x;
  set_parent s x y.

Definition rotate_right (s : RBTree) (x : Z) : outcome RBTree :=
  y ← get_left s x;
  yr ← get_right s y;
  s ← set_left s x yr;
  yr ← get_right s y;
  s ← (if negb (yr =? null) then set_parent s yr x else Ret s);
  xp ← get_parent s x;
  s ← set_parent s y xp;
  xp ← get_parent s x;
  s ← (if xp =? null then Ret (set_root s y)
       else
         xpr ← get_right s xp;
         if x =? xpr then set_right s xp y else set_left s xp y);
  s ← set_right s y x;
  set_parent s x y.

(** ** Lookup *)

Fixpoint find_loop (fuel : nat) (s : RBTree) (x k : Z) : outcome Z :=
  match fuel with
  | O => Stuck
  | S fuel' =>
      if x =? null then Ret null
      else
        xk ← get_key s x;
        if k =? xk then Ret x
        else
          x' ← (if k <? xk then get_left s x else get_right s x);
          find_loop fuel' s x' k
  end.

Definition find_node (s : RBTree) (k : Z) : outcome Z := find_loop (tree_fuel s) s (root s) k.

Definition get (s : RBTree) (k : Z) : outcome (option BigAllocMeta) :=
  node ← find_node s k;
  if node =? null then Ret None else Some <$> get_meta s node.

Definition replace (s : RBTree) (k : Z) (v : BigAllocMeta) :
    outcome (option BigAllocMeta * RBTree) :=
  node ← find_node s k;
  if node =? null then Ret (None, s)
  else
    old ← get_meta s node;
    s ← set_meta s node v;
    Ret (Some old, s).

(** ** The node pool *)

(** The fresh mapping: [n] zero nodes from [p] on. *)
Fixpoint map_nodes (n : nat) (p : Z) (m : gmap Z Node) : gmap Z Node :=
  match n with
  | O => m
  | S n' => <[p := zero_node]> (map_nodes n' (p + Node_SIZE) m)
  end.

(** [for i in 0..NODE_CHUNK]: link node [i] to node [i + 1], the last to null. *)
Fixpoint link_nodes (n : nat) (s : RBTree) (ptr i : Z) : outcome RBTree :=
  match n with
  | O => Ret s
  | S n' =>
      let node := ptr + i * Node_SIZE in
      s ← set_left s node (if i + 1 <? NODE_CHUNK then ptr + (i + 1) * Node_SIZE else null);
      link_nodes n' s ptr (i + 1)
  end.

Definition free_node (s : RBTree) (node : Z) : outcome RBTree :=
  let head := free_list s in
  s ← set_left s node head;
  Ret (set_free_list s node).

Section Pool.
Context {K : Type} `{!Kernel K}.

Definition alloc_chunk (s : RBTree) (k : K) : outcome (RBTree * K) :=
  let size := NODE_CHUNK * Node_SIZE in
  match mmap_anonymous size k with
  | (None, _) => Fatal OutOfMemory
  | (Some ptr, k) =>
      let s := mkRBTree (root s) (free_list s) (map_nodes (Z.to_nat NODE_CHUNK) ptr (nodes s)) in
      s ← link_nodes (Z.to_nat NODE_CHUNK) s ptr 0;
      let old_head := free_list s in
      s ← set_left s (ptr + (NODE_CHUNK - 1) * Node_SIZE) old_head;
      Ret (set_free_list s ptr, k)
  end.

Definition alloc_node (s : RBTree) (k : K) (ky : Z) (v : BigAllocMeta) : outcome (Z * RBTree * K) :=
  '(s, k) ← (if free_list s =? null then alloc_chunk s k else Ret (s, k));
  let head := free_list s in
  next ← get_left s head;
  let s := set_free_list s next in
  s ← set_key s head ky;
  s ← set_meta s head v;
  s ← set_left s head null;
  s ← set_right s head null;
  s ← set_parent s head null;
  s ← set_color s head Red;
  Ret (head, s, k).

End Pool.

(** ** Insertion *)

Definition insert_fixup_left (s : RBTree) (z zp zpp : Z) : outcome (RBTree * Z) :=
  y ← get_right s zpp;
  red ← is_red s y;
  if red : bool then
    s ← set_color s zp Black;
    s ← set_color s y Black;
    s ← set_color s zpp Red;
    Ret (s, zpp)
  else
    zpr ← get_right s zp;
    '(s, z) ← (if z =? zpr then s ← rotate_left s zp; Ret (s, zp) else Ret (s, z));
    zp ← get_parent s z;
    zpp ← get_parent s zp;
    s ← set_color s zp Black;
    s ← set_color s zpp Red;
    s ← rotate_right s zpp;
    Ret (s, z).

Definition insert_fixup_right (s : RBTree) (z zp zpp : Z) : outcome (RBTree * Z) :=
  y ← get_left s zpp;
  red ← is_red s y;
  if red : bool then
    s ← set_color s zp Black;
    s ← set_color s y Black;
    s ← set_color s zpp Red;
    Ret (s, zpp)
  else
    zpl ← get_left s zp;
    '(s, z) ← (if z =? zpl then s ← rotate_right s zp; Ret (s, zp) else Ret (s, z));
    zp ← get_parent s z;
    zpp ← get_parent s zp;
    s ← set_color s zp Black;
    s ← set_color s zpp Red;
    s ← rotate_left s zpp;
    Ret (s, z).

Fixpoint insert_fixup_loop (fuel : nat) (s : RBTree) (z : Z) : outcome RBTree :=
  match fuel with
  | O => Stuck
  | S fuel' =>
      zp ← get_parent s z;
      red ← is_red s zp;
      if red : bool then
        zpp ← get_parent s zp;
        zppl ← get_left s zpp;
        '(s, z) ← (if zp =? zppl then insert_fixup_left s z zp zpp
                   else insert_fixup_right s z zp zpp);
        insert_fixup_loop fuel' s z
      else Ret s
  end.

Definition insert_fixup (s : RBTree) (z : Z) : outcome RBTree :=
  s ← insert_fixup_loop (tree_fuel s) s z;
  set_color s (root s) Black.

(** The descent of [tree_insert]: [inl s'] when the key was found and its
    metadata overwritten, [inr y] with the last node visited otherwise. *)
Fixpoint insert_descend (fuel : nat) (s : RBTree) (y x k : Z) (v : BigAllocMeta) :
    outcome (RBTree + Z) :=
  match fuel with
  | O => Stuck
  | S fuel' =>
      if x =? null then Ret (inr y)
      else
        xk ← get_key s x;
        if k =? xk then s ← set_meta s x v; Ret (inl s)
        else if k <? xk then x' ← get_left s x; insert_descend fuel' s x x' k v
        else x' ← get_right s x; insert_descend fuel' s x x' k v
  end.

Section Insert.
Context {K : Type} `{!Kernel K}.

Definition tree_insert (s : RBTree) (k : K) (ky : Z) (v : BigAllocMeta) : outcome (RBTree * K) :=
  d ← insert_descend (tree_fuel s) s null (root s) ky v;
  match d with
  | inl s => Ret (s, k)
  | inr y =>
      '(z, s, k) ← alloc_node s k ky v;
      s ← set_parent s z y;
      s ← (if y =? null then Ret (set_root s z)
           else
             yk ← get_key s y;
             if ky <? yk then set_left s y z else set_right s y z);
      s ← insert_fixup s z;
      Ret (s, k)
  end.

Definition insert (s : RBTree) (k : K) (ky : Z) (v : BigAllocMeta) : outcome (RBTree * K) :=
  tree_insert s k ky v.

End Insert.

(** ** Removal *)

Definition transplant (s : RBTree) (u v : Z) : outcome RBTree :=
  up ← get_parent s u;
  s ← (if up =? null then Ret (set_root s v)
       else
         upl ← get_left s up;
         if u =? upl then set_left s up v else set_right s up v);
  if negb (v =? null) then set_parent s v up else Ret s.

Fixpoint minimum (fuel : nat) (s : RBTree) (x : Z) : outcome Z :=
  match fuel with
  | O => Stuck
  | S fuel' =>
      l ← get_left s x;
      if l =? null then Ret x else minimum fuel' s l
  end.

Definition delete_fixup_left (s : RBTree) (x x_parent : Z) : outcome (RBTree * Z * Z) :=
  w ← get_right s x_parent;
  wred ← is_red s w;
  '(s, w) ← (if wred : bool then
       s ← set_color s w Black;
       s ← set_color s x_parent Red;
       s ← rotate_left s x_parent;
       w ← get_right s x_parent;
       Ret (s, w)
     else Ret (s, w));
  both ← andM (left_black s w) (right_black s w);
  if both : bool then
    s ← set_color s w Red;
    xpp ← get_parent s x_parent;
    Ret (s, x_parent, xpp)
  else
    far ← right_black s w;
    '(s, w) ← (if far : bool then
         wl ← get_left s w;
         s ← (if negb (wl =? null) then set_color s wl Black else Ret s);
         s ← set_color s w Red;
         s ← rotate_right s w;
         w ← get_right s x_parent;
         Ret (s, w)
       else Ret (s, w));
    xpc ← get_color s x_parent;
    s ← set_color s w xpc;
    s ← set_color s x_parent Black;
    wr ← get_right s w;
    s ← (if negb (wr =? null) then set_color s wr Black else Ret s);
    s ← rotate_left s x_parent;
    Ret (s, root s, null).

Definition delete_fixup_right (s : RBTree) (x x_parent : Z) : outcome (RBTree * Z * Z) :=
  w ← get_left s x_parent;
  wred ← is_red s w;
  '(s, w) ← (if wred : bool then
       s ← set_color s w Black;
       s ← set_color s x_parent Red;
       s ← rotate_right s x_parent;
       w ← get_left s x_parent;
       Ret (s, w)
     else Ret (s, w));
  both ← andM (right_black s w) (left_black s w);
  if both : bool then
    s ← set_color s w Red;
    xpp ← get_parent s x_parent;
    Ret (s, x_parent, xpp)
  else
    far ← left_black s w;
    '(s, w) ← (if far : bool then
         wr ← get_right s w;
         s ← (if negb (wr =? null) then set_color s wr Black else Ret s);
         s ← set_color s w Red;
         s ← rotate_left s w;
         w ← get_left s x_parent;
         Ret (s, w)
       else Ret (s, w));
    xpc ← get_color s x_parent;
    s ← set_color s w xpc;
    s ← set_color s x_parent Black;
    wl ← get_left s w;
    s ← (if negb (wl =? null) then set_color s wl Black else Ret s);
    s ← rotate_right s x_parent;
    Ret (s, root s, null).

Fixpoint delete_fixup_loop (fuel : nat) (s : RBTree) (x x_parent : Z) : outcome (RBTree * Z) :=
  match fuel with
  | O => Stuck
  | S fuel' =>
      continue ← andM (Ret (negb (x =? root s))) (is_black s x);
      if continue : bool then
        if x_parent =? null then Ret (s, x)
        else
          xpl ← get_left s x_parent;
          '(s, x, x_parent) ← (if x =? xpl then delete_fixup_left s x x_parent
                               else delete_fixup_right s x x_parent);
          delete_fixup_loop fuel' s x x_parent
      else Ret (s, x)
  end.

Definition delete_fixup (s : RBTree) (x x_parent : Z) : outcome RBTree :=
  '(s, x) ← delete_fixup_loop (tree_fuel s) s x x_parent;
  if negb (x =? null) then set_color s x Black else Ret s.

(** The two-child case of [delete_node]: the successor [y] takes the place of
    [z].  The result is [y_original_color], [x] and [x_parent]. *)
Definition delete_two_children (s : RBTree) (z : Z) : outcome (RBTree * Color * Z * Z) :=
  zr ← get_right s z;
  y ← minimum (tree_fuel s) s zr;
  y_original_color ← get_color s y;
  x ← get_right s y;
  yp ← get_parent s y;
  '(s, x_parent) ← (if yp =? z then Ret (s, y)
     else
       x_parent ← get_parent s y;
       yr ← get_right s y;
       s ← transplant s y yr;
       zr ← get_right s z;
       s ← set_right s y zr;
       yr ← get_right s y;
       s ← set_parent s yr y;
       Ret (s, x_parent));
  s ← transplant s z y;
  zl ← get_left s z;
  s ← set_left s y zl;
  yl ← get_left s y;
  s ← set_parent s yl y;
  zc ← get_color s z;
  s ← set_color s y zc;
  Ret (s, y_original_color, x, x_parent).

Definition delete_node (s : RBTree) (z : Z) : outcome RBTree :=
  c ← get_color s z;
  zl ← get_left s z;
  zr ← get_right s z;
  '(s, y_original_color, x, x_parent) ←
    (if zl =? null then
       zp ← get_parent s z;
       s ← transplant s z zr;
       Ret (s, c, zr, zp)
     else if zr =? null then
       zp ← get_parent s z;
       s ← transplant s z zl;
       Ret (s, c, zl, zp)
     else delete_two_children s z);
  s ← (if bool_decide (y_original_color = Black) then delete_fixup s x x_parent else Ret s);
  free_node s z.

Definition remove (s : RBTree) (k : Z) : outcome (option BigAllocMeta * RBTree) :=
  node ← find_node s k;
  if node =? null then Ret (None, s)
  else
    v ← get_meta s node;
    s ← delete_node s node;
    Ret (Some v, s).
