(* ===== verification/RBTreeRep.v ===== *)
(** * The shape of the red-black tree in memory

    Functional trees annotated with the addresses of their nodes, zippers into
    them ([ctx], innermost frame first), and the relation between a zipper and
    the node map.  [rotate_left], [rotate_right] and [transplant] are specified
    once, at the focus of a zipper; every other proof about the tree reasons on
    the functional tree. *)

From S2P Require Import Prelude Types RBTree.

(** ** Trees and zippers *)

Inductive tree :=
  | E
  | T (c : Color) (l : tree) (a k : Z) (v : BigAllocMeta) (r : tree).

Inductive frame :=
  | FL (c : Color) (a k : Z) (v : BigAllocMeta) (r : tree)
  | FR (c : Color) (l : tree) (a k : Z) (v : BigAllocMeta).

Abbreviation ctx := (list frame).

Abbreviation entry := (Z * (Z * BigAllocMeta))%type.

Definition addr (t : tree) : Z :=
  match t with E => 0 | T _ _ a _ _ _ => a end.

Definition tcolor (t : tree) : Color :=
  match t with E => Black | T c _ _ _ _ _ => c end.

Definition faddr (f : frame) : Z :=
  match f with FL _ a _ _ _ => a | FR _ _ a _ _ => a end.

Definition fcolor (f : frame) : Color :=
  match f with FL c _ _ _ _ => c | FR c _ _ _ _ => c end.

Definition caddr (c : ctx) : Z :=
  match c with [] => 0 | f :: _ => faddr f end.

Definition fplug (f : frame) (t : tree) : tree :=
  match f with
  | FL c a k v r => T c t a k v r
  | FR c l a k v => T c l a k v t
  end.

Fixpoint plug (c : ctx) (t : tree) : tree :=
  match c with [] => t | f :: c' => plug c' (fplug f t) end.

(** Entries in key order: address, key and metadata. *)
Fixpoint inorder (t : tree) : list entry :=
  match t with
  | E => []
  | T _ l a k v r => inorder l ++ (a, (k, v)) :: inorder r
  end.

Fixpoint before (c : ctx) : list entry :=
  match c with
  | [] => []
  | FL _ _ _ _ _ :: c' => before c'
  | FR _ l a k v :: c' => before c' ++ inorder l ++ [(a, (k, v))]
  end.

Fixpoint after (c : ctx) : list entry :=
  match c with
  | [] => []
  | FL _ a k v r :: c' => (a, (k, v)) :: inorder r ++ after c'
  | FR _ _ _ _ _ :: c' => after c'
  end.

Definition entries (c : ctx) (t : tree) : list entry := before c ++ inorder t ++ after c.

Lemma entries_frame f c t : entries (f :: c) t = entries c (fplug f t).
Proof. unfold entries. destruct f; simpl; by rewrite <- ?app_assoc; simpl; rewrite <- ?app_assoc. Qed.

Lemma entries_app c1 c2 t : entries (c1 ++ c2) t = entries c2 (plug c1 t).
Proof. revert t. induction c1 as [|f c1 IH]; intros t; [done|]. simpl app. by rewrite entries_frame, IH. Qed.

Lemma inorder_plug c t : inorder (plug c t) = entries c t.
Proof.
  rewrite <- (app_nil_r c) at 2. rewrite entries_app. unfold entries. simpl. by rewrite app_nil_r.
Qed.

Lemma entries_plug c t : entries [] (plug c t) = entries c t.
Proof. by rewrite <- entries_app, app_nil_r. Qed.

(** ** Mirror images *)

Fixpoint tmirror (t : tree) : tree :=
  match t with E => E | T c l a k v r => T c (tmirror r) a k v (tmirror l) end.

Definition fmirror (f : frame) : frame :=
  match f with
  | FL c a k v r => FR c (tmirror r) a k v
  | FR c l a k v => FL c a k v (tmirror l)
  end.

Definition nmirror (n : Node) : Node :=
  mkNode (key n) (meta n) (right n) (left n) (parent n) (color n).

Definition smirror (s : RBTree) : RBTree := mkRBTree (root s) (free_list s) (nmirror <$> nodes s).

Lemma nmirror_inv n : nmirror (nmirror n) = n.
Proof. by destruct n. Qed.

Lemma smirror_inv s : smirror (smirror s) = s.
Proof.
  destruct s as [r f m]. unfold smirror. simpl. f_equal. rewrite <- map_fmap_compose.
  rewrite <- (map_fmap_id m) at 2. apply map_fmap_ext. intros i x _. apply nmirror_inv.
Qed.

Lemma tmirror_inv t : tmirror (tmirror t) = t.
Proof. induction t; simpl; congruence. Qed.

Lemma addr_mirror t : addr (tmirror t) = addr t.
Proof. by destruct t. Qed.

Lemma tcolor_mirror t : tcolor (tmirror t) = tcolor t.
Proof. by destruct t. Qed.

Lemma fmirror_inv f : fmirror (fmirror f) = f.
Proof. destruct f; simpl; by rewrite tmirror_inv. Qed.

Lemma cmirror_inv (c : ctx) : fmirror <$> (fmirror <$> c) = c.
Proof. induction c as [|f c IH]; [done|]. rewrite !fmap_cons, fmirror_inv. by f_equal. Qed.

Lemma caddr_mirror c : caddr (fmirror <$> c) = caddr c.
Proof. by destruct c as [|[]]. Qed.

Lemma inorder_mirror t : inorder (tmirror t) = reverse (inorder t).
Proof.
  induction t as [|c l IHl a k v r IHr]; [done|]. simpl.
  rewrite reverse_app, reverse_cons, IHl, IHr. by rewrite <- app_assoc.
Qed.

Lemma fplug_mirror f t : tmirror (fplug f t) = fplug (fmirror f) (tmirror t).
Proof. by destruct f. Qed.

Lemma plug_mirror c t : tmirror (plug c t) = plug (fmirror <$> c) (tmirror t).
Proof. revert t. induction c as [|f c IH]; intros t; [done|]. simpl. by rewrite IH, fplug_mirror. Qed.

Lemma entries_mirror c t : entries (fmirror <$> c) (tmirror t) = reverse (entries c t).
Proof. by rewrite <- !inorder_plug, <- plug_mirror, inorder_mirror. Qed.

(** ** Representation *)

Fixpoint rep (m : gmap Z Node) (par : Z) (t : tree) : Prop :=
  match t with
  | E => True
  | T c l a k v r =>
      m !! a = Some (mkNode k v (addr l) (addr r) par c) /\ rep m a l /\ rep m a r
  end.

(** The frames of [c] with the address [h] in the hole. *)
Fixpoint repc (m : gmap Z Node) (rt h : Z) (c : ctx) : Prop :=
  match c with
  | [] => rt = h
  | FL col a k v r :: c' =>
      m !! a = Some (mkNode k v h (addr r) (caddr c') col) /\ rep m a r /\ repc m rt a c'
  | FR col l a k v :: c' =>
      m !! a = Some (mkNode k v (addr l) h (caddr c') col) /\ rep m a l /\ repc m rt a c'
  end.

(** Addresses of a subtree and of a zipper. *)
Definition addrs (t : tree) : list Z := (inorder t).*1.

Definition caddrs (c : ctx) : list Z := (before c).*1 ++ (after c).*1.

Lemma addrs_T c l a k v r : addrs (T c l a k v r) = addrs l ++ a :: addrs r.
Proof. unfold addrs. simpl. by rewrite fmap_app. Qed.

Lemma elem_addrs_T x c l a k v r :
  x ∈ addrs (T c l a k v r) <-> x = a \/ x ∈ addrs l \/ x ∈ addrs r.
Proof. rewrite addrs_T, elem_of_app, elem_of_cons. tauto. Qed.

Lemma elem_caddrs_FL x c a k v r c' :
  x ∈ caddrs (FL c a k v r :: c') <-> x = a \/ x ∈ addrs r \/ x ∈ caddrs c'.
Proof.
  unfold caddrs, addrs. cbn [before after]. rewrite fmap_cons, fmap_app, !elem_of_app, elem_of_cons, elem_of_app.
  cbn [fst]. tauto.
Qed.

Lemma elem_caddrs_FR x c l a k v c' :
  x ∈ caddrs (FR c l a k v :: c') <-> x = a \/ x ∈ addrs l \/ x ∈ caddrs c'.
Proof.
  unfold caddrs, addrs. cbn [before after].
  rewrite !fmap_app, !elem_of_app. cbn [fmap list_fmap fst]. rewrite elem_of_cons, elem_of_nil. tauto.
Qed.

Lemma addr_in t : t <> E -> addr t ∈ addrs t.
Proof. destruct t; [done|]. intros _. apply elem_addrs_T. by left. Qed.

Lemma caddr_in c : c <> [] -> caddr c ∈ caddrs c.
Proof.
  destruct c as [|[]]; [done| |]; intros _; simpl;
    [apply elem_caddrs_FL|apply elem_caddrs_FR]; by left.
Qed.

Lemma rep_ext m m' par t :
  (forall a, a ∈ addrs t -> m' !! a = m !! a) -> rep m par t -> rep m' par t.
Proof.
  revert par. induction t as [|c l IHl a k v r IHr]; intros par Hm; [done|]. intros (Ha & Hl & Hr).
  simpl. rewrite Hm by (apply elem_addrs_T; by left). split_and!; [done|..];
    [apply IHl|apply IHr]; try done; intros x Hx; apply Hm, elem_addrs_T; auto.
Qed.

Lemma repc_ext m m' rt h c :
  (forall a, a ∈ caddrs c -> m' !! a = m !! a) -> repc m rt h c -> repc m' rt h c.
Proof.
  revert h. induction c as [|[col a k v r|col l a k v] c IH]; intros h Hm; [done|..];
    intros (Ha & Ht & Hc); simpl;
    (rewrite Hm by (rewrite ?elem_caddrs_FL, ?elem_caddrs_FR; by left));
    (split_and!; [done|eapply rep_ext; [|done]|apply IH; [|done]]);
    intros x Hx; apply Hm; rewrite ?elem_caddrs_FL, ?elem_caddrs_FR; auto.
Qed.

Lemma rep_plug m rt c1 c2 t :
  repc m rt (addr t) (c1 ++ c2) /\ rep m (caddr (c1 ++ c2)) t <->
  repc m rt (addr (plug c1 t)) c2 /\ rep m (caddr c2) (plug c1 t).
Proof.
  revert t. induction c1 as [|f c1 IH]; intros t; [done|]. simpl plug. rewrite <- IH.
  destruct f; simpl; tauto.
Qed.

Lemma rep_mirror m par t : rep m par t -> rep (nmirror <$> m) par (tmirror t).
Proof.
  revert par. induction t as [|c l IHl a k v r IHr]; intros par; [done|]. intros (Ha & Hl & Hr).
  simpl. rewrite lookup_fmap, Ha, !addr_mirror. auto.
Qed.

Lemma repc_mirror m rt h c : repc m rt h c -> repc (nmirror <$> m) rt h (fmirror <$> c).
Proof.
  revert h. induction c as [|[col a k v r|col l a k v] c IH]; intros h; [done|..];
    intros (Ha & Ht & Hc); simpl; rewrite lookup_fmap, Ha, !addr_mirror, caddr_mirror;
    auto using rep_mirror.
Qed.

(** ** The focus invariant *)

(** [s] holds the tree [plug c t] with distinct non-null addresses, and agrees
    with [s0] everywhere else. *)
Record focus (s0 s : RBTree) (c : ctx) (t : tree) : Prop := {
  fo_ctx : repc (nodes s) (root s) (addr t) c;
  fo_rep : rep (nodes s) (caddr c) t;
  fo_nodup : NoDup (entries c t).*1;
  fo_nz : 0 ∉ (entries c t).*1;
  fo_frame a : a ∉ (entries c t).*1 -> nodes s !! a = nodes s0 !! a;
  fo_free : free_list s = free_list s0;
}.

Lemma focus_app s0 s c1 c2 t : focus s0 s (c1 ++ c2) t <-> focus s0 s c2 (plug c1 t).
Proof.
  destruct (rep_plug (nodes s) (root s) c1 c2 t) as [Ha Hb].
  split; intros [H1 H2 H3 H4 H5 H6].
  - rewrite entries_app in *. destruct (Ha (conj H1 H2)). by constructor.
  - destruct (Hb (conj H1 H2)). constructor; rewrite ?entries_app; done.
Qed.

Lemma focus_down s0 s f c t : focus s0 s c (fplug f t) <-> focus s0 s (f :: c) t.
Proof. symmetry. apply (focus_app s0 s [f] c t). Qed.

Lemma focus_mirror s0 s c t :
  focus s0 s c t -> focus (smirror s0) (smirror s) (fmirror <$> c) (tmirror t).
Proof.
  intros [H1 H2 H3 H4 H5 H6].
  constructor; rewrite ?entries_mirror, ?fmap_reverse, ?addr_mirror, ?caddr_mirror; simpl;
    auto using rep_mirror, repc_mirror.
  - by rewrite reverse_Permutation.
  - by rewrite elem_of_reverse.
  - intros a. rewrite elem_of_reverse. intros Ha. by rewrite !lookup_fmap, H5.
Qed.

Lemma focus_mirror_iff s0 s c t :
  focus (smirror s0) (smirror s) (fmirror <$> c) (tmirror t) <-> focus s0 s c t.
Proof.
  split; [|apply focus_mirror]. intros H. apply focus_mirror in H.
  by rewrite !smirror_inv, cmirror_inv, tmirror_inv in H.
Qed.

(** ** Executing field accesses *)

Section Exec.
Context (s : RBTree) (p : Z) (n : Node) (Hn : nodes s !! p = Some n).

Definition with_node (n' : Node) : RBTree := mkRBTree (root s) (free_list s) (<[p := n']> (nodes s)).

Lemma deref_ok : deref s p = Ret n.
Proof. unfold deref. by rewrite Hn. Qed.

Lemma update_ok f : update s p f = Ret (with_node (f n)).
Proof. unfold update. by rewrite deref_ok. Qed.

Lemma get_left_ok : get_left s p = Ret (left n).
Proof. unfold get_left. by rewrite deref_ok. Qed.
Lemma get_right_ok : get_right s p = Ret (right n).
Proof. unfold get_right. by rewrite deref_ok. Qed.
Lemma get_parent_ok : get_parent s p = Ret (parent n).
Proof. unfold get_parent. by rewrite deref_ok. Qed.
Lemma get_color_ok : get_color s p = Ret (color n).
Proof. unfold get_color. by rewrite deref_ok. Qed.
Lemma get_key_ok : get_key s p = Ret (key n).
Proof. unfold get_key. by rewrite deref_ok. Qed.
Lemma get_meta_ok : get_meta s p = Ret (meta n).
Proof. unfold get_meta. by rewrite deref_ok. Qed.
Lemma set_left_ok v : set_left s p v = Ret (with_node (mkNode (key n) (meta n) v (right n) (parent n) (color n))).
Proof. apply update_ok. Qed.
Lemma set_right_ok v : set_right s p v = Ret (with_node (mkNode (key n) (meta n) (left n) v (parent n) (color n))).
Proof. apply update_ok. Qed.
Lemma set_parent_ok v : set_parent s p v = Ret (with_node (mkNode (key n) (meta n) (left n) (right n) v (color n))).
Proof. apply update_ok. Qed.
Lemma set_color_ok v : set_color s p v = Ret (with_node (mkNode (key n) (meta n) (left n) (right n) (parent n) v)).
Proof. apply update_ok. Qed.
Lemma set_key_ok v : set_key s p v = Ret (with_node (mkNode v (meta n) (left n) (right n) (parent n) (color n))).
Proof. apply update_ok. Qed.
Lemma set_meta_ok v : set_meta s p v = Ret (with_node (mkNode (key n) v (left n) (right n) (parent n) (color n))).
Proof. apply update_ok. Qed.
End Exec.

(** Rewrite a field access at an address whose node is a hypothesis. *)
Ltac exec_one :=
  match goal with
  | |- context [get_left ?s ?p] => erewrite (get_left_ok s p) by eassumption
  | |- context [get_right ?s ?p] => erewrite (get_right_ok s p) by eassumption
  | |- context [get_parent ?s ?p] => erewrite (get_parent_ok s p) by eassumption
  | |- context [get_color ?s ?p] => erewrite (get_color_ok s p) by eassumption
  | |- context [get_key ?s ?p] => erewrite (get_key_ok s p) by eassumption
  | |- context [get_meta ?s ?p] => erewrite (get_meta_ok s p) by eassumption
  end; cbn [mbind outcome_bind fmap outcome_fmap left right parent color key meta].

(** ** Distinctness *)

Lemma entries_perm c t : (entries c t).*1 ≡ₚ addrs t ++ caddrs c.
Proof.
  unfold entries, addrs, caddrs. rewrite !fmap_app. rewrite (Permutation_app_comm (before c).*1).
  rewrite <- (app_assoc (inorder t).*1). f_equiv. apply Permutation_app_comm.
Qed.

Lemma caddrs_perm f c :
  caddrs (f :: c) ≡ₚ
  match f with FL _ a _ _ t | FR _ t a _ _ => a :: addrs t ++ caddrs c end.
Proof.
  unfold caddrs, addrs. destruct f; cbn [before after]; rewrite ?fmap_app; cbn [fmap list_fmap fst].
  - rewrite fmap_app, <- Permutation_middle. apply perm_skip. rewrite !app_assoc.
    apply Permutation_app_tail, Permutation_app_comm.
  - rewrite <- !app_assoc. cbn [app]. rewrite (app_assoc (before c).*1), <- Permutation_middle.
    apply perm_skip. rewrite (app_assoc (inorder l).*1). apply Permutation_app_tail, Permutation_app_comm.
Qed.

Lemma elem_entries a c t : a ∈ (entries c t).*1 <-> a ∈ addrs t \/ a ∈ caddrs c.
Proof. by rewrite entries_perm, elem_of_app. Qed.

Lemma focus_distinct s0 s c t :
  focus s0 s c t ->
  NoDup (addrs t) /\ NoDup (caddrs c) /\ (forall a, a ∈ addrs t -> a ∉ caddrs c) /\
  0 ∉ addrs t /\ 0 ∉ caddrs c.
Proof.
  intros [_ _ Hnd Hnz _ _]. rewrite entries_perm in Hnd, Hnz. apply NoDup_app in Hnd as (?&?&?).
  apply not_elem_of_app in Hnz as [??]. done.
Qed.

Lemma NoDup_addrs_T c l a k v r :
  NoDup (addrs (T c l a k v r)) <->
  a ∉ addrs l /\ a ∉ addrs r /\ NoDup (addrs l) /\ NoDup (addrs r) /\
  (forall x, x ∈ addrs l -> x ∉ addrs r).
Proof.
  rewrite addrs_T, <- Permutation_middle, NoDup_cons, NoDup_app, elem_of_app. tauto.
Qed.

Lemma NoDup_caddrs_cons f c :
  NoDup (caddrs (f :: c)) ->
  NoDup (caddrs c) /\ faddr f ∉ caddrs c /\
  match f with
  | FL _ a _ _ t | FR _ t a _ _ =>
      a ∉ addrs t /\ NoDup (addrs t) /\ forall x, x ∈ addrs t -> x ∉ caddrs c
  end.
Proof.
  rewrite caddrs_perm. destruct f; rewrite NoDup_cons, NoDup_app, not_elem_of_app; simpl; tauto.
Qed.

(** ** Writes at the focus *)

(** Changing the colour or the metadata of the node in focus. *)
Lemma focus_set_node s0 s c col l a k v r col' v' :
  focus s0 s c (T col l a k v r) ->
  focus s0 (with_node s a (mkNode k v' (addr l) (addr r) (caddr c) col')) c (T col' l a k v' r).
Proof.
  intros Hf. pose proof (focus_distinct _ _ _ _ Hf) as (Hd & _ & Hdc & _).
  apply NoDup_addrs_T in Hd as (Hal & Har & _).
  assert (Ha : a ∉ caddrs c) by (apply Hdc, elem_addrs_T; by left).
  destruct Hf as [Hc (Hn & Hl & Hr) Hnd Hnz Hfr Hfl]. rewrite entries_perm, addrs_T in *.
  constructor; simpl; rewrite ?entries_perm, ?addrs_T; try done.
  - eapply repc_ext; [|done]. intros x Hx. rewrite lookup_insert_ne; [done|congruence].
  - rewrite lookup_insert_eq. split_and!; [done|..];
      (eapply rep_ext; [|done]); intros x Hx; (rewrite lookup_insert_ne; [done|congruence]).
  - intros x. rewrite entries_perm, addrs_T. intros Hx.
    rewrite lookup_insert_ne; [by apply Hfr; rewrite entries_perm, addrs_T|]. set_solver.
Qed.

Lemma focus_node s0 s c col l a k v r :
  focus s0 s c (T col l a k v r) ->
  nodes s !! a = Some (mkNode k v (addr l) (addr r) (caddr c) col) /\ a <> 0.
Proof.
  intros Hf. split; [apply Hf|]. pose proof (focus_distinct _ _ _ _ Hf) as (_ & _ & _ & Hz & _).
  rewrite elem_addrs_T in Hz. naive_solver.
Qed.

Lemma focus_set_color s0 s c col l a k v r col' :
  focus s0 s c (T col l a k v r) ->
  exists s', set_color s a col' = Ret s' /\ focus s0 s' c (T col' l a k v r).
Proof.
  intros Hf. destruct (focus_node _ _ _ _ _ _ _ _ _ Hf) as [Hn _]. 
  rewrite (set_color_ok _ _ _ Hn). eexists. split; [done|]. by eapply focus_set_node.
Qed.

Lemma focus_set_meta s0 s c col l a k v r v' :
  focus s0 s c (T col l a k v r) ->
  exists s', set_meta s a v' = Ret s' /\ focus s0 s' c (T col l a k v' r).
Proof.
  intros Hf. destruct (focus_node _ _ _ _ _ _ _ _ _ Hf) as [Hn _]. 
  rewrite (set_meta_ok _ _ _ Hn). eexists. split; [done|]. by eapply focus_set_node.
Qed.

(** Hanging a subtree under another parent. *)
Lemma reparent_ok s p q t :
  rep (nodes s) p t -> NoDup (addrs t) -> 0 ∉ addrs t ->
  exists s', (if negb (addr t =? 0) then set_parent s (addr t) q else Ret s) = Ret s' /\
    root s' = root s /\ free_list s' = free_list s /\ rep (nodes s') q t /\
    forall a, a ∉ addrs t -> nodes s' !! a = nodes s !! a.
Proof.
  destruct t as [|c l a k v r]; [by eauto 10|]. intros (Ha & Hl & Hr) Hnd Hz.
  apply NoDup_addrs_T in Hnd as (Hal & Har & _). rewrite elem_addrs_T in Hz. simpl.
  destruct (a =? 0) eqn:E0; [lia|]. simpl. rewrite (set_parent_ok _ _ _ Ha).
  eexists. do 3 (split; [done|]). split.
  - simpl. rewrite lookup_insert_eq. split_and!; [done|..];
      (eapply rep_ext; [|done]); intros x Hx; (rewrite lookup_insert_ne; [done|congruence]).
  - intros x Hx. simpl. rewrite elem_addrs_T in Hx. rewrite lookup_insert_ne; [done|naive_solver].
Qed.

(** Making the parent of [x] point to [y] instead. *)
Definition relink (s : RBTree) (xp x y : Z) : outcome RBTree :=
  if xp =? null then Ret (set_root s y)
  else
    xpl ← get_left s xp;
    if x =? xpl then set_left s xp y else set_right s xp y.

Lemma relink_ok s c x y :
  repc (nodes s) (root s) x c -> NoDup (caddrs c) -> 0 ∉ caddrs c -> x ∉ caddrs c -> x <> 0 ->
  exists s', relink s (caddr c) x y = Ret s' /\
    free_list s' = free_list s /\ repc (nodes s') (root s') y c /\
    forall a, a ∉ caddrs c -> nodes s' !! a = nodes s !! a.
Proof.
  intros Hc Hnd Hz Hx Hx0. unfold relink. destruct c as [|[col a k v r|col l a k v] c]; simpl caddr.
  { eexists. by split_and!. }
  all: apply NoDup_caddrs_cons in Hnd as (Hnd & Hac & Hat & _); simpl in Hac;
    destruct Hc as (Ha & Ht & Hc);
    rewrite ?elem_caddrs_FL, ?elem_caddrs_FR in *; destruct (a =? 0) eqn:E0; [lia|];
    rewrite (get_left_ok _ _ _ Ha); cbn [mbind outcome_bind left].
  - rewrite Z.eqb_refl. rewrite (set_left_ok _ _ _ Ha). eexists.
    do 2 (split; [done|]). split; simpl.
    + rewrite lookup_insert_eq. split_and!; [done|eapply rep_ext; [|done]|eapply repc_ext; [|done]];
        intros z Hz'; (rewrite lookup_insert_ne; [done|congruence]).
    + intros z. rewrite elem_caddrs_FL. intros Hz'. rewrite lookup_insert_ne; [done|naive_solver].
  - destruct (x =? addr l) eqn:El.
    { apply Z.eqb_eq in El. destruct l; simpl in El; [done|]. destruct Hx. right; left.
      apply elem_addrs_T. by left. }
    rewrite (set_right_ok _ _ _ Ha). eexists. do 2 (split; [done|]). split; simpl.
    + rewrite lookup_insert_eq. split_and!; [done|eapply rep_ext; [|done]|eapply repc_ext; [|done]];
        intros z Hz'; (rewrite lookup_insert_ne; [done|congruence]).
    + intros z. rewrite elem_caddrs_FR. intros Hz'. rewrite lookup_insert_ne; [done|naive_solver].
Qed.

(** ** Separation by tags

    Disjoint address lists are told apart by one function: every disequality
    between their members is then a congruence. *)

Lemma tag_lists (ls : list (list Z)) :
  NoDup (concat ls) -> exists f : Z -> nat, forall i l a, ls !! i = Some l -> a ∈ l -> f a = i.
Proof.
  induction ls as [|l ls IH]; intros Hnd; [by exists (fun _ => O)|].
  simpl in Hnd. apply NoDup_app in Hnd as (_ & Hdis & Hnd). destruct (IH Hnd) as [f Hf].
  exists (fun a => if decide (a ∈ l) then O else S (f a)). intros [|i] l' a Hi Ha; simpl in Hi.
  - injection Hi as <-. by rewrite decide_True.
  - rewrite decide_False; [f_equal; by eapply Hf|]. intros Hin. apply (Hdis a Hin).
    rewrite list_elem_of_In in *. apply in_concat. exists l'. split; [|done].
    apply list_elem_of_In. by eapply list_elem_of_lookup_2.
Qed.

(** Discharge [a <> b] and [a ∉ l] from tag hypotheses. *)
Ltac tagged :=
  repeat intro; subst;
  repeat match goal with
  | Hin : ?a ∈ ?l, Hl : forall a, a ∈ ?l -> ?f a = _ |- _ => apply Hl in Hin
  end; congruence.

(** ** Rotations *)

Section Rotate.
Context (s0 s : RBTree) (c : ctx) (cx cy : Color) (ta tb td : tree).
Context (x y kx ky : Z) (vx vy : BigAllocMeta).
Context (Hf : focus s0 s c (T cx ta x kx vx (T cy tb y ky vy td))).

Lemma rotate_tags :
  exists f : Z -> nat, f 0 = 0%nat /\ f x = 1%nat /\ f y = 2%nat /\
    (forall a, a ∈ addrs ta -> f a = 3%nat) /\ (forall a, a ∈ addrs tb -> f a = 4%nat) /\
    (forall a, a ∈ addrs td -> f a = 5%nat) /\ (forall a, a ∈ caddrs c -> f a = 6%nat).
Proof.
  destruct (tag_lists [[0]; [x]; [y]; addrs ta; addrs tb; addrs td; caddrs c]) as [f Hls].
  - destruct Hf as [_ _ Hnd Hnz _ _]. simpl. rewrite app_nil_r. apply NoDup_cons.
    enough (x :: y :: addrs ta ++ addrs tb ++ addrs td ++ caddrs c ≡ₚ
      (entries c (T cx ta x kx vx (T cy tb y ky vy td))).*1) as -> by done.
    rewrite entries_perm, !addrs_T, <- !app_assoc. cbn [app]. rewrite <- Permutation_middle.
    apply perm_skip. rewrite <- app_assoc. cbn [app]. rewrite !(app_assoc (addrs ta)).
    apply Permutation_middle.
  - exists f. split_and!; [apply (Hls 0%nat [0] 0)|apply (Hls 1%nat [x] x)|apply (Hls 2%nat [y] y)|..];
      try (done || by apply list_elem_of_singleton); intros a Ha; by eapply Hls.
Qed.

Lemma rotate_entries :
  entries c (T cy (T cx ta x kx vx tb) y ky vy td) = entries c (T cx ta x kx vx (T cy tb y ky vy td)).
Proof. unfold entries. simpl. rewrite <- !app_assoc. simpl. by rewrite <- !app_assoc. Qed.

(** The final state of a rotation, from the state [s4] before the two last
    writes. *)
Lemma rotate_finish s4 :
  repc (nodes s4) (root s4) y c -> rep (nodes s4) x tb -> free_list s4 = free_list s ->
  (forall a, a <> x -> a <> y -> a ∉ addrs tb -> a ∉ caddrs c -> nodes s4 !! a = nodes s !! a) ->
  focus s0 (mkRBTree (root s4) (free_list s4)
      (<[x := mkNode kx vx (addr ta) (addr tb) y cx]>
         (<[y := mkNode ky vy x (addr td) (caddr c) cy]> (nodes s4))))
    c (T cy (T cx ta x kx vx tb) y ky vy td).
Proof.
  intros Hrc4 Hrb4 Hf4 Hout. destruct rotate_tags as (f & F0 & Fx & Fy & Fa & Fb & Fd & Fc).
  pose proof (fo_rep _ _ _ _ Hf) as (Hx & Hra & Hy & Hrb & Hrd).
  constructor; rewrite ?rotate_entries; cbn [nodes root free_list]; try apply Hf.
  - eapply repc_ext; [|exact Hrc4]. intros a Hin. by rewrite !lookup_insert_ne by tagged.
  - simpl rep. rewrite lookup_insert_ne, !lookup_insert_eq by tagged. split; [done|].
    split; [split; [done|split]|]; (eapply rep_ext; [|eassumption]); intros a Hin;
      rewrite !lookup_insert_ne by tagged; done || (apply Hout; tagged).
  - intros a Hin. rewrite <- (fo_frame _ _ _ _ Hf a) by done.
    rewrite elem_entries, !elem_addrs_T in Hin. rewrite !lookup_insert_ne by naive_solver. apply Hout; naive_solver.
  - rewrite Hf4. apply Hf.
Qed.

Lemma rotate_left_ok :
  exists s', rotate_left s x = Ret s' /\ focus s0 s' c (T cy (T cx ta x kx vx tb) y ky vy td).
Proof.
  destruct rotate_tags as (f & F0 & Fx & Fy & Fa & Fb & Fd & Fc).
  pose proof (focus_distinct _ _ _ _ Hf) as (Hnd & Hndc & _ & _ & Hzc).
  apply NoDup_addrs_T in Hnd as (_ & _ & _ & Hnd & _). apply NoDup_addrs_T in Hnd as (_ & _ & Hndb & _).
  pose proof (fo_rep _ _ _ _ Hf) as (Hx & Hra & Hy & Hrb & Hrd).
  pose proof (fo_ctx _ _ _ _ Hf) as Hrc. simpl addr in *.
  unfold rotate_left. do 2 exec_one. rewrite (set_right_ok _ _ _ Hx). cbn [mbind outcome_bind].
  set (s1 := with_node _ _ _).
  assert (Hs1 : forall a, a <> x -> nodes s1 !! a = nodes s !! a) by (intros; by apply lookup_insert_ne).
  rewrite (get_left_ok s1 y _ ltac:(rewrite Hs1 by tagged; done)). cbn [mbind outcome_bind left].
  destruct (reparent_ok s1 y x tb) as (s2 & -> & Hr2 & Hf2 & Hrb2 & Hs2);
    [eapply rep_ext; [|done]; intros; apply Hs1; tagged|done|tagged|].
  assert (Hx2 : nodes s2 !! x = Some (mkNode kx vx (addr ta) (addr tb) (caddr c) cx))
    by (rewrite Hs2 by tagged; apply lookup_insert_eq).
  assert (Hy2 : nodes s2 !! y = Some (mkNode ky vy (addr tb) (addr td) x cy)) by (by rewrite Hs2, Hs1 by tagged).
  cbn [mbind outcome_bind]. exec_one. rewrite (set_parent_ok _ _ _ Hy2). cbn [mbind outcome_bind].
  set (s3 := with_node _ _ _).
  assert (Hs3 : forall a, a <> y -> nodes s3 !! a = nodes s2 !! a) by (intros; by apply lookup_insert_ne).
  rewrite (get_parent_ok s3 x _ ltac:(rewrite Hs3 by tagged; done)). cbn [mbind outcome_bind parent].
  destruct (relink_ok s3 c x y) as (s4 & Hlink & Hf4 & Hrc4 & Hs4); [|done|done|tagged|tagged|].
  { simpl. rewrite Hr2. eapply repc_ext; [|exact Hrc]. intros a Hin. by rewrite Hs3, Hs2, Hs1 by tagged. }
  unfold relink in Hlink. rewrite Hlink. cbn [mbind outcome_bind].
  assert (Hy4 : nodes s4 !! y = Some (mkNode ky vy (addr tb) (addr td) (caddr c) cy))
    by (rewrite Hs4 by tagged; apply lookup_insert_eq).
  assert (Hx4 : nodes s4 !! x = Some (mkNode kx vx (addr ta) (addr tb) (caddr c) cx)) by (by rewrite Hs4, Hs3 by tagged).
  rewrite (set_left_ok _ _ _ Hy4). cbn [mbind outcome_bind].
  rewrite (set_parent_ok _ x (mkNode kx vx (addr ta) (addr tb) (caddr c) cx));
    [|simpl; by rewrite lookup_insert_ne by tagged].
  eexists. split; [done|]. apply (rotate_finish s4); [done|..].
  - eapply rep_ext; [|exact Hrb2]. intros a Hin. by rewrite Hs4, Hs3 by tagged.
  - rewrite Hf4. exact Hf2.
  - intros. by rewrite Hs4, Hs3, Hs2, Hs1.
Qed.
End Rotate.

(** ** Mirror images of the operations *)

Lemma deref_mirror s p : deref (smirror s) p = nmirror <$> deref s p.
Proof. unfold deref. simpl. rewrite lookup_fmap. by destruct (nodes s !! p). Qed.

Lemma get_left_mirror s p : get_left (smirror s) p = get_right s p.
Proof. unfold get_left, get_right. rewrite deref_mirror. by destruct (deref s p). Qed.
Lemma get_right_mirror s p : get_right (smirror s) p = get_left s p.
Proof. unfold get_left, get_right. rewrite deref_mirror. by destruct (deref s p). Qed.
Lemma get_parent_mirror s p : get_parent (smirror s) p = get_parent s p.
Proof. unfold get_parent. rewrite deref_mirror. by destruct (deref s p). Qed.
Lemma get_color_mirror s p : get_color (smirror s) p = get_color s p.
Proof. unfold get_color. rewrite deref_mirror. by destruct (deref s p). Qed.
Lemma is_red_mirror s p : is_red (smirror s) p = is_red s p.
Proof. unfold is_red, color_of. by rewrite get_color_mirror. Qed.
Lemma is_black_mirror s p : is_black (smirror s) p = is_black s p.
Proof. unfold is_black, color_of. by rewrite get_color_mirror. Qed.

Lemma update_mirror s p f g :
  (forall n, f (nmirror n) = nmirror (g n)) -> update (smirror s) p f = smirror <$> update s p g.
Proof.
  intros Hfg. unfold update. rewrite deref_mirror. destruct (deref s p) as [n| |]; simpl; try done.
  unfold smirror. simpl. by rewrite Hfg, fmap_insert.
Qed.

Lemma set_left_mirror s p v : set_left (smirror s) p v = smirror <$> set_right s p v.
Proof. by apply update_mirror. Qed.
Lemma set_right_mirror s p v : set_right (smirror s) p v = smirror <$> set_left s p v.
Proof. by apply update_mirror. Qed.
Lemma set_parent_mirror s p v : set_parent (smirror s) p v = smirror <$> set_parent s p v.
Proof. by apply update_mirror. Qed.
Lemma set_color_mirror s p v : set_color (smirror s) p v = smirror <$> set_color s p v.
Proof. by apply update_mirror. Qed.
Lemma set_root_mirror s v : set_root (smirror s) v = smirror (set_root s v).
Proof. done. Qed.

Create Rewrite HintDb mirror.
#[export] Hint Rewrite get_left_mirror get_right_mirror get_parent_mirror get_color_mirror
  is_red_mirror is_black_mirror set_left_mirror set_right_mirror set_parent_mirror
  set_color_mirror set_root_mirror : mirror.

Lemma left_black_mirror s p : left_black (smirror s) p = right_black s p.
Proof.
  unfold left_black, right_black. rewrite get_left_mirror. destruct (get_right s p); simpl; try done.
  apply is_black_mirror.
Qed.

Lemma right_black_mirror s p : right_black (smirror s) p = left_black s p.
Proof.
  unfold left_black, right_black. rewrite get_right_mirror. destruct (get_left s p); simpl; try done.
  apply is_black_mirror.
Qed.

#[export] Hint Rewrite left_black_mirror right_black_mirror : mirror.

Lemma bind_mirror {A A' B B'} (h : A -> A') (g : B -> B') (m' : outcome A') (m : outcome A) k' k :
  m' = h <$> m -> (forall a, k' (h a) = g <$> k a) -> m' ≫= k' = g <$> (m ≫= k).
Proof. intros -> Hk. by destruct m; simpl. Qed.

Lemma bind_same {A B B'} (g : B -> B') (m' m : outcome A) k' k :
  m' = m -> (forall a, k' a = g <$> k a) -> m' ≫= k' = g <$> (m ≫= k).
Proof. intros -> Hk. by destruct m; simpl. Qed.

(** Mirror images of a state paired with pointers. *)
Definition pmirror {A} (p : RBTree * A) : RBTree * A := (smirror p.1, p.2).

Definition tmirror3 {A B} (p : RBTree * A * B) : RBTree * A * B := (smirror p.1.1, p.1.2, p.2).

(** Run both sides of a mirror equation one call at a time. *)
Ltac mirror_leaf := autorewrite with mirror; reflexivity.

Ltac mirror_steps :=
  first
  [ progress mirror_leaf
  | match goal with
    | |- (if ?b then _ else _) = _ => destruct b; mirror_steps
    | |- _ ≫= _ = _ <$> (_ ≫= _) =>
        first
        [ apply bind_same; [mirror_leaf|intros ?; cbv beta iota; mirror_steps]
        | apply (bind_mirror smirror); [mirror_steps|intros ?; cbv beta iota; mirror_steps]
        | apply (bind_mirror pmirror);
            [mirror_steps|intros [? ?]; cbv beta iota delta [pmirror fst snd]; mirror_steps] ]
    end ].

Lemma rotate_mirror s x : rotate_left (smirror s) x = smirror <$> rotate_right s x.
Proof. unfold rotate_left, rotate_right. mirror_steps. Qed.

Lemma rotate_mirror' s x : rotate_right (smirror s) x = smirror <$> rotate_left s x.
Proof.
  pose proof (rotate_mirror (smirror s) x) as H. rewrite smirror_inv in H. rewrite H.
  destruct (rotate_right (smirror s) x); simpl; by rewrite ?smirror_inv.
Qed.

#[export] Hint Rewrite rotate_mirror rotate_mirror' : mirror.

Lemma rotate_right_ok s0 s c cx cy ta tb td x y kx ky vx vy :
  focus s0 s c (T cx (T cy td y ky vy tb) x kx vx ta) ->
  exists s', rotate_right s x = Ret s' /\ focus s0 s' c (T cy td y ky vy (T cx tb x kx vx ta)).
Proof.
  intros Hf. apply focus_mirror in Hf. simpl in Hf. apply rotate_left_ok in Hf as (s' & Hr & Hf).
  rewrite rotate_mirror in Hr. destruct (rotate_right s x) as [s1| |]; try done. injection Hr as <-.
  exists s1. split; [done|]. by apply focus_mirror_iff.
Qed.

(** ** Transplanting *)

(** Putting the tree [t] where the node [u] hangs. *)
Lemma transplant_ok s c u nu p t :
  nodes s !! u = Some nu -> parent nu = caddr c -> u ∉ caddrs c -> u <> 0 ->
  repc (nodes s) (root s) u c -> rep (nodes s) p t ->
  NoDup (addrs t) -> 0 ∉ addrs t -> NoDup (caddrs c) -> 0 ∉ caddrs c ->
  (forall a, a ∈ addrs t -> a ∉ caddrs c) ->
  exists s', transplant s u (addr t) = Ret s' /\
    free_list s' = free_list s /\ repc (nodes s') (root s') (addr t) c /\ rep (nodes s') (caddr c) t /\
    forall a, a ∉ caddrs c -> a ∉ addrs t -> nodes s' !! a = nodes s !! a.
Proof.
  intros Hu Hp Huc Hu0 Hc Ht Hndt Hzt Hndc Hzc Hd. unfold transplant.
  rewrite (get_parent_ok _ _ _ Hu), Hp. cbn [mbind outcome_bind].
  destruct (relink_ok s c u (addr t)) as (s1 & Hl & Hf1 & Hc1 & Hs1); try done.
  unfold relink in Hl. rewrite Hl. cbn [mbind outcome_bind].
  destruct (reparent_ok s1 p (caddr c) t) as (s2 & Hr & Hr2 & Hf2 & Ht2 & Hs2); try done.
  { eapply rep_ext; [|exact Ht]. intros a Ha. by apply Hs1, Hd. }
  rewrite Hr. exists s2. split; [done|]. split; [congruence|]. split_and!; [|done|].
  - rewrite Hr2. eapply repc_ext; [|exact Hc1]. intros a Ha. apply Hs2. intros Hin. by apply (Hd a).
  - intros a Ha Hat. by rewrite Hs2, Hs1.
Qed.

(** A state holding the tree [plug c t], relative to no other state. *)
Abbreviation holds s c t := (focus s s c t).

Lemma holds_intro s c t :
  repc (nodes s) (root s) (addr t) c -> rep (nodes s) (caddr c) t ->
  NoDup (addrs t) -> 0 ∉ addrs t -> NoDup (caddrs c) -> 0 ∉ caddrs c ->
  (forall a, a ∈ addrs t -> a ∉ caddrs c) -> holds s c t.
Proof.
  intros. constructor; try done; rewrite entries_perm.
  - rewrite NoDup_app. done.
  - rewrite not_elem_of_app. done.
Qed.

Lemma focus_holds s0 s c t : focus s0 s c t -> holds s c t.
Proof. intros [???? ??]. by constructor. Qed.

(** Removing a node with at most one child. *)
Lemma transplant_child s0 s c col l u k v r t :
  focus s0 s c (T col l u k v r) -> (l = E /\ t = r \/ r = E /\ t = l) ->
  exists s', transplant s u (addr t) = Ret s' /\ holds s' c t /\
    nodes s' !! u = nodes s !! u /\ free_list s' = free_list s /\
    forall a, a ∉ (entries c (T col l u k v r)).*1 -> nodes s' !! a = nodes s !! a.
Proof.
  intros Hf Ht. pose proof (focus_distinct _ _ _ _ Hf) as (Hnd & Hndc & Hdc & Hz & Hzc).
  apply NoDup_addrs_T in Hnd as (Hul & Hur & Hndl & Hndr & _).
  destruct (focus_node _ _ _ _ _ _ _ _ _ Hf) as [Hu Hu0].
  pose proof (fo_rep _ _ _ _ Hf) as (_ & Hl & Hr).
  assert (Huc : u ∉ caddrs c) by (apply Hdc, elem_addrs_T; by left).
  assert (Hsub : forall a, a ∈ addrs t -> a ∈ addrs (T col l u k v r)).
  { intros a Ha. rewrite elem_addrs_T. destruct Ht as [[_ ->]|[_ ->]]; auto. }
  assert (Hut : u ∉ addrs t) by (by destruct Ht as [[_ ->]|[_ ->]]).
  assert (Hndt : NoDup (addrs t)) by (by destruct Ht as [[_ ->]|[_ ->]]).
  assert (Hrt : rep (nodes s) u t) by (by destruct Ht as [[_ ->]|[_ ->]]).
  destruct (transplant_ok s c u _ u t Hu) as (s' & Hs & Hfl & Hc' & Ht' & Hout); try done; auto.
  { apply Hf. }
  exists s'. split; [done|]. split_and!; [apply holds_intro; auto|by apply Hout|done|].
  intros a Ha. rewrite elem_entries in Ha. apply Hout; auto.
Qed.

(** ** Replacing a node by its successor *)

Section Splice.
Context (s : RBTree) (c : ctx) (col cy : Color) (l tr : tree) (z y p yk : Z) (yv : BigAllocMeta) (nz : Node).
Context (Hz : nodes s !! z = Some nz) (Hzl : left nz = addr l) (Hzp : parent nz = caddr c)
  (Hzc : color nz = col) (Hl0 : l <> E).
Context (Hc : repc (nodes s) (root s) z c) (Hl : rep (nodes s) z l)
  (Hy : rep (nodes s) p (T cy E y yk yv tr)).
Context (Hnd : NoDup (0 :: z :: y :: addrs l ++ addrs tr ++ caddrs c)).

Lemma splice_tags :
  exists f : Z -> nat, f 0 = 0%nat /\ f z = 1%nat /\ f y = 2%nat /\
    (forall a, a ∈ addrs l -> f a = 3%nat) /\ (forall a, a ∈ addrs tr -> f a = 4%nat) /\
    (forall a, a ∈ caddrs c -> f a = 5%nat).
Proof using Hnd.
  destruct (tag_lists [[0]; [z]; [y]; addrs l; addrs tr; caddrs c]) as [f Hls].
  - simpl. by rewrite app_nil_r.
  - exists f. split_and!; [apply (Hls 0%nat [0] 0)|apply (Hls 1%nat [z] z)|apply (Hls 2%nat [y] y)|..];
      try (done || by apply list_elem_of_singleton); intros a Ha; by eapply Hls.
Qed.

Lemma splice_nodup :
  NoDup (addrs l) /\ NoDup (addrs tr) /\ NoDup (caddrs c).
Proof using Hnd.
  apply NoDup_cons in Hnd as (_ & (_ & (_ & Hn)%NoDup_cons)%NoDup_cons).
  apply NoDup_app in Hn as (? & _ & Hn). apply NoDup_app in Hn as (? & _ & ?). done.
Qed.

(** The tail of the two-child case: [transplant(z, y)] and the fields of [y]. *)
Definition splice : outcome RBTree :=
  s ← transplant s z y;
  zl ← get_left s z;
  s ← set_left s y zl;
  yl ← get_left s y;
  s ← set_parent s yl y;
  zc ← get_color s z;
  set_color s y zc.

Lemma splice_holds s' :
  repc (nodes s') (root s') y c -> nodes s' !! y = Some (mkNode yk yv (addr l) (addr tr) (caddr c) col) ->
  rep (nodes s') y l -> rep (nodes s') y tr -> holds s' c (T col l y yk yv tr).
Proof using Hnd.
  clear Hz Hzl Hzp Hzc Hl0 Hc Hl Hy.
  intros Hc' Hy' Hl' Ht'. destruct splice_tags as (f & F0 & Fz & Fy & Fl & Ft & Fc).
  destruct splice_nodup as (Hndl & Hndt & Hndc). apply holds_intro; try done; try tagged.
  - apply NoDup_addrs_T. split_and!; try done; tagged.
  - rewrite elem_addrs_T. intros [H|[H|H]]; tagged.
  - intros a. rewrite elem_addrs_T. intros [H|[H|H]]; tagged.
Qed.

Lemma splice_ok :
  exists s', splice = Ret s' /\ holds s' c (T col l y yk yv tr) /\
    nodes s' !! z = Some nz /\ free_list s' = free_list s /\
    forall a, a <> y -> a ∉ addrs l -> a ∉ addrs tr -> a ∉ caddrs c -> nodes s' !! a = nodes s !! a.
Proof using All.
  destruct splice_tags as (f & F0 & Fz & Fy & Fl & Ft & Fc). destruct splice_nodup as (Hndl & Hndt & Hndc).
  assert (Fyt : forall a, a ∈ addrs (T cy E y yk yv tr) -> f a = 2%nat \/ f a = 4%nat).
  { intros a. rewrite elem_addrs_T. intros [->|[Ha|Ha]]; auto. by apply not_elem_of_nil in Ha. }
  unfold splice. change (transplant s z y) with (transplant s z (addr (T cy E y yk yv tr))).
  destruct (transplant_ok s c z nz p (T cy E y yk yv tr)) as (s1 & -> & Hf1 & Hc1 & Hy1 & Hs1); try done; try tagged.
  { apply NoDup_addrs_T. split_and!; [apply not_elem_of_nil|tagged|apply NoDup_nil_2|done|].
    intros a Ha. by apply not_elem_of_nil in Ha. }
  { intros [?|?]%Fyt; congruence. }
  { intros a [?|?]%Fyt ?%Fc; congruence. }
  cbn [mbind outcome_bind]. destruct Hy1 as (Hy1 & _ & Ht1).
  assert (Hz1 : nodes s1 !! z = Some nz) by (rewrite Hs1; [done|tagged|intros [?|?]%Fyt; congruence]).
  assert (Hl1 : rep (nodes s1) z l).
  { eapply rep_ext; [|exact Hl]. intros a Ha. apply Hs1; [tagged|]. intros [?|?]%Fyt; apply Fl in Ha; congruence. }
  exec_one. rewrite Hzl, (set_left_ok _ _ _ Hy1). cbn [mbind outcome_bind key meta left right parent color].
  set (s2 := with_node _ _ _).
  assert (Hs2 : forall a, a <> y -> nodes s2 !! a = nodes s1 !! a) by (intros; by apply lookup_insert_ne).
  assert (Hy2 : nodes s2 !! y = Some (mkNode yk yv (addr l) (addr tr) (caddr c) cy)) by apply lookup_insert_eq.
  exec_one. destruct (reparent_ok s2 z y l) as (s3 & Hr & Hr3 & Hf3 & Hl3 & Hs3);
    [eapply rep_ext; [|exact Hl1]; intros; apply Hs2; tagged|done|tagged|].
  destruct (addr l =? 0) eqn:El0; [apply addr_in in Hl0; apply Z.eqb_eq in El0; rewrite El0 in Hl0; tagged|].
  simpl in Hr. rewrite Hr. cbn [mbind outcome_bind].
  rewrite (get_color_ok _ z nz), Hzc by (by rewrite Hs3, Hs2 by tagged). cbn [mbind outcome_bind].
  rewrite (set_color_ok _ y (mkNode yk yv (addr l) (addr tr) (caddr c) cy)) by (by rewrite Hs3 by tagged).
  eexists. split; [done|].
  assert (Hs : forall a, a <> y -> a ∉ addrs l -> nodes (with_node s3 y (mkNode yk yv (addr l) (addr tr) (caddr c) col)) !! a = nodes s1 !! a).
  { intros a Hay Hal. simpl. by rewrite lookup_insert_ne, Hs3, Hs2. }
  cbn [key meta left right parent color]. split_and!.
  - apply splice_holds; try done.
    + simpl. rewrite Hr3. eapply repc_ext; [|exact Hc1]. intros a Ha. apply Hs; tagged.
    + apply lookup_insert_eq.
    + eapply rep_ext; [|exact Hl3]. intros a Ha. simpl. by rewrite lookup_insert_ne by tagged.
    + eapply rep_ext; [|exact Ht1]. intros a Ha. apply Hs; tagged.
  - rewrite Hs by tagged. done.
  - simpl. by rewrite Hf3.
  - intros a Hay Hal Hat Hac. rewrite Hs, Hs1; try done. rewrite elem_addrs_T. intros [?|[Ha|?]]; try done. by apply not_elem_of_nil in Ha.
Qed.
End Splice.

(** ** Sizes *)

Lemma rep_dom m p t a : rep m p t -> a ∈ addrs t -> is_Some (m !! a).
Proof.
  revert p. induction t as [|c l IHl b k v r IHr]; intros p; [intros _ Ha; by apply not_elem_of_nil in Ha|].
  intros (Hb & Hl & Hr). rewrite elem_addrs_T. intros [->|[?|?]]; eauto.
Qed.

Lemma focus_dom s0 s c t a : focus s0 s c t -> a ∈ (entries c t).*1 -> is_Some (nodes s !! a).
Proof.
  intros Hf Ha. rewrite <- (app_nil_r c) in Hf. apply focus_app in Hf.
  rewrite <- inorder_plug in Ha. by eapply rep_dom; [apply Hf|].
Qed.

Lemma focus_size s0 s c t : focus s0 s c t -> (length (entries c t) <= size (nodes s))%nat.
Proof.
  intros Hf. pose proof (size_list_to_set (C := gset Z) _ (fo_nodup _ _ _ _ Hf)) as Hsz.
  rewrite length_fmap in Hsz. rewrite <- Hsz, <- size_dom.
  apply subseteq_size. intros a Ha%elem_of_list_to_set. apply elem_of_dom. by eapply focus_dom.
Qed.

Lemma plug_app c1 c2 t : plug (c1 ++ c2) t = plug c2 (plug c1 t).
Proof. revert t. induction c1; intros t; simpl; auto. Qed.

Lemma plug_ne c t : t <> E -> plug c t <> E.
Proof. revert t. induction c as [|f c IH]; intros t Ht; [done|]. simpl. apply IH. by destruct f. Qed.

Lemma plug_nonempty c t : c <> [] -> plug c t <> E.
Proof. destruct c as [|f c]; [done|]. intros _. simpl. apply plug_ne. by destruct f. Qed.

Lemma length_entries_ctx c t : (length c + length (inorder t) <= length (entries c t))%nat.
Proof.
  revert t. induction c as [|f c IH]; intros t; [unfold entries; rewrite !length_app; simpl; lia|].
  rewrite entries_frame. specialize (IH (fplug f t)). destruct f; simpl in *; rewrite length_app in IH; simpl in IH; lia.
Qed.

Lemma focus_fuel s0 s c t : focus s0 s c t -> (length c + length (inorder t) < tree_fuel s)%nat.
Proof. intros Hf%focus_size. pose proof (length_entries_ctx c t). unfold tree_fuel. lia. Qed.

(** ** The successor *)

Definition lspine (c : ctx) : Prop := Forall (fun f => match f with FL _ _ _ _ _ => True | _ => False end) c.

Lemma minimum_ok s0 s c t fuel :
  focus s0 s c t -> t <> E -> (length (inorder t) <= fuel)%nat ->
  exists c2 cy y yk yv yr, t = plug c2 (T cy E y yk yv yr) /\ lspine c2 /\ minimum fuel s (addr t) = Ret y.
Proof.
  revert c fuel. induction t as [|col l IHl a k v r _]; intros c fuel Hf Ht Hfuel; [done|].
  simpl in Hfuel. rewrite length_app in Hfuel. simpl in Hfuel. destruct fuel as [|fuel]; [lia|].
  destruct (focus_node _ _ _ _ _ _ _ _ _ Hf) as [Ha _]. simpl. exec_one.
  destruct l as [|cl ll al kl vl rl].
  - exists [], col, a, k, v, r. by repeat constructor.
  - apply (focus_down _ _ (FL col a k v r)) in Hf.
    destruct (IHl _ fuel Hf) as (c2 & cy & y & yk & yv & yr & Ht' & Hsp & Hm); [done|lia|].
    destruct (focus_node _ _ _ _ _ _ _ _ _ Hf) as [_ Hal]. cbn [addr] in *.
    destruct (al =? 0) eqn:?; [lia|]. exists (c2 ++ [FL col a k v r]), cy, y, yk, yv, yr.
    rewrite plug_app, <- Ht'. split_and!; [done| |done]. apply Forall_app. split; [done|]. by repeat constructor.
Qed.

Lemma lspine_before c2 c : lspine c2 -> before (c2 ++ c) = before c.
Proof. induction 1 as [|[]]; done. Qed.

(** Addresses of the two-child case: the node, its successor and the rest. *)
Lemma two_children_perm c col l z k v c2 cy y yk yv yr :
  (entries c (T col l z k v (plug c2 (T cy E y yk yv yr)))).*1 ≡ₚ
  z :: y :: addrs l ++ addrs (plug c2 yr) ++ caddrs c.
Proof.
  rewrite entries_perm, addrs_T, <- app_assoc. cbn [app]. rewrite <- Permutation_middle. apply perm_skip.
  assert (addrs (plug c2 (T cy E y yk yv yr)) ≡ₚ y :: addrs (plug c2 yr)) as ->.
  { unfold addrs. rewrite !inorder_plug. unfold entries. simpl. rewrite !fmap_app, fmap_cons, fmap_app.
    symmetry. apply Permutation_middle. }
  cbn [app]. by rewrite <- Permutation_middle.
Qed.

Section TwoChildren.
Context (s0 s : RBTree) (c c2 : ctx) (col cy : Color) (l yr : tree) (z y k yk : Z) (v yv : BigAllocMeta).
Context (Hl0 : l <> E) (Hf : focus s0 s c (T col l z k v (plug c2 (T cy E y yk yv yr)))).

Lemma two_nodup : NoDup (0 :: z :: y :: addrs l ++ addrs (plug c2 yr) ++ caddrs c).
Proof using Hf.
  destruct Hf as [_ _ Hnd Hnz _ _]. rewrite two_children_perm in Hnd, Hnz. by apply NoDup_cons.
Qed.

(** The successor detached: [y] holds the right subtree of [z]. *)
Definition detach : outcome RBTree :=
  yr ← get_right s y;
  s ← transplant s y yr;
  zr ← get_right s z;
  s ← set_right s y zr;
  yr ← get_right s y;
  set_parent s yr y.

Lemma detach_ok :
  c2 <> [] ->
  exists s' n, detach = Ret s' /\ free_list s' = free_list s /\
    nodes s' !! z = Some n /\ left n = addr l /\ parent n = caddr c /\ color n = col /\
    repc (nodes s') (root s') z c /\ rep (nodes s') z l /\
    rep (nodes s') (caddr c2) (T cy E y yk yv (plug c2 yr)) /\
    forall a, a ∉ (entries c (T col l z k v (plug c2 (T cy E y yk yv yr)))).*1 -> nodes s' !! a = nodes s !! a.
Proof using Hf Hl0.
  intros Hc2. assert (Hf' : focus s0 s (c2 ++ FR col l z k v :: c) (T cy E y yk yv yr)).
  { apply focus_app, focus_down. exact Hf. }
  destruct (focus_node _ _ _ _ _ _ _ _ _ Hf') as [Hy Hy0]. unfold detach. exec_one.
  destruct (transplant_child _ _ _ _ _ _ _ _ _ yr Hf' ltac:(auto)) as (s1 & -> & Hh1 & Hy1 & Hf1 & Hs1).
  cbn [mbind outcome_bind]. rewrite Hy in Hy1.
  replace (caddr (c2 ++ FR col l z k v :: c)) with (caddr c2) in Hy1 by (by destruct c2).
  apply focus_app in Hh1. apply (focus_down _ _ (FR col l z k v)) in Hh1. cbn [fplug] in Hh1.
  destruct (focus_node _ _ _ _ _ _ _ _ _ Hh1) as [Hz1 Hz0]. exec_one.
  rewrite (set_right_ok _ _ _ Hy1). cbn [mbind outcome_bind key meta left right parent color].
  set (s2 := with_node _ _ _). rewrite (get_right_ok s2 y _ ltac:(apply lookup_insert_eq)). cbn [mbind outcome_bind right].
  destruct (splice_tags c l (plug c2 yr) z y two_nodup) as (f & F0 & Fz & Fy & Fl & Ft & Fc).
  destruct (splice_nodup c l (plug c2 yr) z y two_nodup) as (Hndl & Hndt & Hndc).
  assert (Hs2 : forall a, a <> y -> nodes s2 !! a = nodes s1 !! a) by (intros; by apply lookup_insert_ne).
  pose proof (fo_rep _ _ _ _ Hh1) as (_ & Hl1 & Ht1).
  destruct (reparent_ok s2 z y (plug c2 yr)) as (s3 & Hr & Hr3 & Hf3 & Ht3 & Hs3);
    [eapply rep_ext; [|exact Ht1]; intros; apply Hs2; tagged|done|tagged|].
  assert (Hne : plug c2 yr <> E) by (by apply plug_nonempty).
  destruct (addr (plug c2 yr) =? 0) eqn:El0; [apply addr_in in Hne; apply Z.eqb_eq in El0; rewrite El0 in Hne; tagged|].
  simpl in Hr. exists s3. eexists. split; [exact Hr|].
  assert (Hs : forall a, a <> y -> a ∉ addrs (plug c2 yr) -> nodes s3 !! a = nodes s1 !! a)
    by (intros; by rewrite Hs3, Hs2).
  split; [by rewrite Hf3|]. split; [rewrite Hs by tagged; exact Hz1|]. do 3 (split; [done|]). split_and!.
  - rewrite Hr3. eapply repc_ext; [|apply Hh1]. intros a Ha. apply Hs; tagged.
  - eapply rep_ext; [|exact Hl1]. intros a Ha. apply Hs; tagged.
  - simpl. rewrite Hs3 by tagged. split; [apply lookup_insert_eq|done].
  - intros a Ha. rewrite entries_app, entries_frame in Hs1.
    rewrite Hs; [by apply Hs1|..]; rewrite two_children_perm in Ha; set_solver.
Qed.

(** The two-child case leaves the successor in the place of [z] and the focus
    on what is left of the successor. *)
Definition spliced (s' : RBTree) : Prop :=
  holds s' (c2 ++ FR col l y yk yv :: c) yr /\
  is_Some (nodes s' !! z) /\ free_list s' = free_list s /\
  forall a, a ∉ (entries c (T col l z k v (plug c2 (T cy E y yk yv yr)))).*1 -> nodes s' !! a = nodes s !! a.

Lemma splice_spliced s1 nz p :
  nodes s1 !! z = Some nz -> left nz = addr l -> parent nz = caddr c -> color nz = col ->
  repc (nodes s1) (root s1) z c -> rep (nodes s1) z l -> rep (nodes s1) p (T cy E y yk yv (plug c2 yr)) ->
  free_list s1 = free_list s ->
  (forall a, a ∉ (entries c (T col l z k v (plug c2 (T cy E y yk yv yr)))).*1 -> nodes s1 !! a = nodes s !! a) ->
  exists s', splice s1 z y = Ret s' /\ spliced s'.
Proof using Hf Hl0.
  intros Hz Hzl Hzp Hzc Hc Hl Hy Hfl Hs1.
  destruct (splice_ok s1 c col cy l (plug c2 yr) z y p yk yv nz) as (s' & Hsp & Hh & Hz' & Hf' & Hs');
    try done; [apply two_nodup|].
  exists s'. split; [done|]. split_and!; [by apply focus_app, focus_down|eauto|congruence|].
  intros a Ha. rewrite Hs', Hs1; try done; rewrite two_children_perm in Ha; set_solver.
Qed.

Lemma spine_parent_ne : c2 <> [] -> caddr (c2 ++ FR col l z k v :: c) <> z.
Proof using Hf.
  intros Hc2. pose proof two_nodup as Hnd. apply NoDup_cons in Hnd as (_ & (Hz & _)%NoDup_cons).
  intros Heq. apply Hz. rewrite elem_of_cons, !elem_of_app. right; right; left.
  rewrite <- Heq. unfold addrs. rewrite inorder_plug, entries_perm, elem_of_app. right.
  replace (caddr (c2 ++ FR col l z k v :: c)) with (caddr c2) by (by destruct c2). by apply caddr_in.
Qed.

Lemma delete_two_children_run :
  minimum (tree_fuel s) s (addr (plug c2 (T cy E y yk yv yr))) = Ret y ->
  exists s', delete_two_children s z = Ret (s', cy, addr yr, caddr (c2 ++ FR col l y yk yv :: c)) /\ spliced s'.
Proof using Hf Hl0.
  intros Hmin. destruct (focus_node _ _ _ _ _ _ _ _ _ Hf) as [Hz Hz0].
  assert (Hf' : focus s0 s (c2 ++ FR col l z k v :: c) (T cy E y yk yv yr)) by (apply focus_app, focus_down; exact Hf).
  destruct (focus_node _ _ _ _ _ _ _ _ _ Hf') as [Hy Hy0].
  unfold delete_two_children. exec_one. rewrite Hmin. cbn [mbind outcome_bind]. do 3 exec_one.
  destruct (decide (c2 = [])) as [Hc2|Hc2].
  - destruct (splice_spliced s _ z Hz) as (s' & Hsp & Hd); try done; try apply Hf.
    { rewrite Hc2. pose proof (fo_rep _ _ _ _ Hf) as (_ & _ & Hy'). by rewrite Hc2 in Hy'. }
    exists s'. split; [|done]. rewrite Hc2. cbn [app caddr faddr]. rewrite Z.eqb_refl. cbn [mbind outcome_bind].
    unfold splice in Hsp. run_ret Hsp.
  - destruct (detach_ok Hc2) as (s1 & nz & Hd & Hf1 & Hz1 & Hzl & Hzp & Hzc & Hc1 & Hl1 & Hy1 & Hs1).
    destruct (splice_spliced s1 nz _ Hz1 Hzl Hzp Hzc Hc1 Hl1 Hy1 Hf1 Hs1) as (s' & Hsp & Hd').
    exists s'. split; [|done].
    assert (Hyp : caddr (c2 ++ FR col l z k v :: c) <> z) by (by apply spine_parent_ne).
    apply Z.eqb_neq in Hyp as ->. unfold detach in Hd. unfold splice in Hsp.
    replace (caddr (c2 ++ FR col l y yk yv :: c)) with (caddr (c2 ++ FR col l z k v :: c)) by (by destruct c2).
    rewrite (get_right_ok _ _ _ Hy) in Hd. cbn [mbind outcome_bind right] in Hd |- *.
    run_ret Hd. run_ret Hsp.
Qed.
End TwoChildren.
