(* ===== verification/RBTreeBalance.v ===== *)
(** * The red-black invariant

    [rb n t] says that [t] is a red-black tree of black height [n]; [rbc n c]
    that the zipper [c] expects one.  The two repair loops are specified at the
    focus of a zipper; the right-hand branches follow from the left-hand ones by
    mirror symmetry. *)

From S2P Require Import Prelude Types RBTree RBTreeRep.

Inductive rb : nat -> tree -> Prop :=
  | rb_E : rb 0 E
  | rb_Red n l a k v r : rb n l -> rb n r -> tcolor l = Black -> tcolor r = Black -> rb n (T Red l a k v r)
  | rb_Black n l a k v r : rb n l -> rb n r -> rb (S n) (T Black l a k v r).

(** The innermost frame exists and is black. *)
Definition top_black (c : ctx) : Prop :=
  match c with [] => False | f :: _ => fcolor f = Black end.

Inductive rbc : nat -> ctx -> Prop :=
  | rbc_nil n : rbc n []
  | rbc_FL_Red n a k v r c : rb n r -> tcolor r = Black -> top_black c -> rbc n c -> rbc n (FL Red a k v r :: c)
  | rbc_FL_Black n a k v r c : rb n r -> rbc (S n) c -> rbc n (FL Black a k v r :: c)
  | rbc_FR_Red n l a k v c : rb n l -> tcolor l = Black -> top_black c -> rbc n c -> rbc n (FR Red l a k v :: c)
  | rbc_FR_Black n l a k v c : rb n l -> rbc (S n) c -> rbc n (FR Black l a k v :: c).

Create HintDb rb.
#[export] Hint Constructors rb rbc : rb.

Lemma rb_mirror n t : rb n t -> rb n (tmirror t).
Proof. induction 1; simpl; constructor; rewrite ?tcolor_mirror; auto. Qed.

Lemma top_black_mirror c : top_black c -> top_black (fmirror <$> c).
Proof. by destruct c as [|[]]. Qed.

Lemma rbc_mirror n c : rbc n c -> rbc n (fmirror <$> c).
Proof.
  induction 1; rewrite ?fmap_cons; simpl; constructor; rewrite ?tcolor_mirror; auto using rb_mirror, top_black_mirror.
Qed.

(** A finished zipper. *)
Lemma rb_plug n c t :
  rbc n c -> rb n t -> (tcolor t = Black \/ top_black c \/ c = []) ->
  (exists n', rb n' (plug c t)) /\ (c = [] \/ tcolor (plug c t) = Black).
Proof.
  intros Hc. revert t. induction Hc as [|n a k v r c Hr Hb Htop _ IH|n a k v r c Hr _ IH
    |n l a k v c Hl Hb Htop _ IH|n l a k v c Hl _ IH]; intros t Ht Hcol; simpl; [by eauto|..].
  - destruct (IH (T Red t a k v r)) as [? [->|?]]; auto; try done. constructor; naive_solver.
  - destruct (IH (T Black t a k v r)) as [? [->|?]]; auto; by constructor.
  - destruct (IH (T Red l a k v t)) as [? [->|?]]; auto; try done. constructor; naive_solver.
  - destruct (IH (T Black l a k v t)) as [? [->|?]]; auto; by constructor.
Qed.

Definition blacken (t : tree) : tree :=
  match t with E => E | T _ l a k v r => T Black l a k v r end.

Lemma rb_blacken n t : rb n t -> exists n', rb n' (blacken t).
Proof. destruct 1; simpl; eauto with rb. Qed.

(** ** Colours in memory *)

Lemma color_of_ok s p t : rep (nodes s) p t -> 0 ∉ addrs t -> color_of s (addr t) = Ret (tcolor t).
Proof.
  unfold color_of. destruct t as [|c l a k v r]; [done|]. intros (Ha & _) Hz. rewrite elem_addrs_T in Hz. simpl.
  destruct (a =? 0) eqn:?; [lia|]. by rewrite (get_color_ok _ _ _ Ha).
Qed.

Lemma is_red_ok s p t :
  rep (nodes s) p t -> 0 ∉ addrs t -> is_red s (addr t) = Ret (bool_decide (tcolor t = Red)).
Proof. intros Hr Hz. unfold is_red. by rewrite (color_of_ok _ _ _ Hr). Qed.

Lemma is_black_ok s p t :
  rep (nodes s) p t -> 0 ∉ addrs t -> is_black s (addr t) = Ret (bool_decide (tcolor t = Black)).
Proof. intros Hr Hz. unfold is_black. by rewrite (color_of_ok _ _ _ Hr). Qed.

(** The parent, seen from the focus. *)
Definition top_red (c : ctx) : bool :=
  match c with [] => false | f :: _ => bool_decide (fcolor f = Red) end.

Lemma focus_parent_red s0 s c t : focus s0 s c t -> is_red s (caddr c) = Ret (top_red c).
Proof.
  intros Hf. pose proof (fo_ctx _ _ _ _ Hf) as Hc. pose proof (focus_distinct _ _ _ _ Hf) as (_ & _ & _ & _ & Hz).
  unfold is_red, color_of. destruct c as [|[col a k v r|col l a k v] c]; [done|..]; simpl;
    rewrite ?elem_caddrs_FL, ?elem_caddrs_FR in Hz; destruct Hc as (Ha & _);
    (destruct (a =? 0) eqn:?; [lia|]); by rewrite (get_color_ok _ _ _ Ha).
Qed.

Ltac solve_entries :=
  unfold entries; simpl; repeat (rewrite <- app_assoc; simpl); reflexivity.

(** ** Insertion *)

(** The state of the insertion loop: a red tree in focus. *)
Definition ins_inv (s0 s : RBTree) (c : ctx) (t : tree) : Prop :=
  focus s0 s c t /\ tcolor t = Red /\ exists n, rb n t /\ rbc n c.

(** What one iteration achieves. *)
Definition ins_step (s0 : RBTree) (c : ctx) (t : tree) (o : outcome (RBTree * Z)) : Prop :=
  exists s' c' t', o = Ret (s', addr t') /\ ins_inv s0 s' c' t' /\
    entries c' t' = entries c t /\ (length c' < length c)%nat.

(** Recolouring and rotating the grandparent, the node being an outer child. *)
Lemma rotate_up_ok s0 s c cg g kg vg ty cp p kp vp tb t :
  focus s0 s (FL cp p kp vp tb :: FL cg g kg vg ty :: c) t ->
  exists s', (s ← set_color s p Black; s ← set_color s g Red; s ← rotate_right s g; Ret (s, addr t)) = Ret (s', addr t) /\
    focus s0 s' (FL Black p kp vp (T Red tb g kg vg ty) :: c) t.
Proof.
  intros Hf. apply focus_down in Hf. cbn [fplug] in Hf.
  destruct (focus_set_color _ _ _ _ _ _ _ _ _ Black Hf) as (s1 & -> & Hf1). cbn [mbind outcome_bind].
  apply focus_down in Hf1. cbn [fplug] in Hf1.
  destruct (focus_set_color _ _ _ _ _ _ _ _ _ Red Hf1) as (s2 & -> & Hf2). cbn [mbind outcome_bind].
  destruct (rotate_right_ok _ _ _ _ _ _ _ _ _ _ _ _ _ _ Hf2) as (s3 & -> & Hf3). cbn [mbind outcome_bind].
  exists s3. split; [done|]. by apply focus_down.
Qed.

(** Recolouring a red uncle. *)
Lemma recolor_ok s0 s c cp l p kp vp r cg g kg vg cy yl y ky vy yr :
  focus s0 s c (T cg (T cp l p kp vp r) g kg vg (T cy yl y ky vy yr)) ->
  exists s', (s ← set_color s p Black; s ← set_color s y Black; s ← set_color s g Red; Ret (s, g)) = Ret (s', g) /\
    focus s0 s' c (T Red (T Black l p kp vp r) g kg vg (T Black yl y ky vy yr)).
Proof.
  intros Hf. apply (focus_down _ _ (FL cg g kg vg _)) in Hf.
  destruct (focus_set_color _ _ _ _ _ _ _ _ _ Black Hf) as (s1 & -> & Hf1). cbn [mbind outcome_bind].
  apply focus_down in Hf1. cbn [fplug] in Hf1. apply (focus_down _ _ (FR cg _ g kg vg)) in Hf1.
  destruct (focus_set_color _ _ _ _ _ _ _ _ _ Black Hf1) as (s2 & -> & Hf2). cbn [mbind outcome_bind].
  apply focus_down in Hf2. cbn [fplug] in Hf2.
  destruct (focus_set_color _ _ _ _ _ _ _ _ _ Red Hf2) as (s3 & -> & Hf3). by exists s3.
Qed.

Lemma addr_ne_subtree s0 s c t1 t2 x :
  focus s0 s c (fplug x t1) -> t1 <> E ->
  match x with FL _ _ _ _ r => r = t2 | FR _ l _ _ _ => l = t2 end -> addr t1 <> addr t2.
Proof.
  intros Hf Ht1 Hx Heq. pose proof (focus_distinct _ _ _ _ Hf) as (Hnd & _ & _ & Hz & _).
  pose proof (addr_in _ Ht1) as H1. destruct t2 as [|c2 l2 a2 k2 v2 r2] eqn:E2.
  { simpl in Heq. rewrite Heq in H1. destruct Hz. destruct x; apply elem_addrs_T; auto. }
  assert (H2 : addr t2 ∈ addrs t2) by (subst t2; by apply addr_in). rewrite Heq, <- E2 in H1.
  destruct x; simpl in Hnd; apply NoDup_addrs_T in Hnd as (_ & _ & _ & _ & Hd); subst; by eapply Hd.
Qed.

(** A red parent below a left child link, with its black grandparent. *)
Lemma rbc_grandparent_left n f1 cg g kg vg ty c t :
  rbc n (f1 :: FL cg g kg vg ty :: c) -> fcolor f1 = Red -> rb n t -> tcolor t = Red ->
  cg = Black /\ rb n ty /\ rbc (S n) c /\
  match f1 with FL _ _ _ _ u | FR _ u _ _ _ => rb n u /\ tcolor u = Black end.
Proof. intros Hc Hf Ht Hred. inversion Hc; subst; try done; simpl in *; subst; inversion select (rbc _ (FL _ _ _ _ _ :: _)); by subst. Qed.

Section InsertLeft.
Context (s0 s : RBTree) (c : ctx) (f1 : frame) (g kg : Z) (vg : BigAllocMeta) (ty t : tree) (n : nat).
Abbreviation old := (f1 :: FL Black g kg vg ty :: c).
Context (Hf : focus s0 s old t) (Hred : tcolor t = Red) (Hrb : rb n t) (Hrbc : rbc n old)
  (Hf1 : fcolor f1 = Red).

Lemma insert_red_uncle :
  tcolor ty = Red ->
  ins_step s0 old t
    (s ← set_color s (faddr f1) Black; s ← set_color s (addr ty) Black; s ← set_color s g Red; Ret (s, g)).
Proof using All.
  intros Hty. pose proof (rbc_grandparent_left _ _ _ _ _ _ _ _ _ Hrbc Hf1 Hrb Hred) as (_ & Hrby & Hc & Hsib).
  pose proof Hf as Hfg. apply focus_down, focus_down in Hfg. cbn [fplug] in Hfg.
  destruct ty as [|cy yl y ky vy yr] eqn:Ety; [done|]. simpl in Hty. subst cy. inversion Hrby; subst.
  destruct f1 as [col p kp vp u|col u p kp vp] eqn:Ef1; simpl in Hf1; subst col; cbn [fplug faddr addr] in *;
    destruct (recolor_ok _ _ _ _ _ _ _ _ _ _ _ _ _ _ _ _ _ _ _ Hfg) as (s' & Hs & Hf');
    (eexists s', c, (T Red _ _ _ _ _); split; [exact Hs|]; split; [split_and!; [done|done|]|split; [solve_entries|simpl; lia]]);
    exists (S n); (split; [|done]); destruct Hsib; by repeat constructor.
Qed.

(** The black-uncle case: an inner child is first rotated outwards. *)
Definition black_uncle_left (z zp : Z) : outcome (RBTree * Z) :=
  zpr ← get_right s zp;
  '(s, z) ← (if z =? zpr then s ← rotate_left s zp; Ret (s, zp) else Ret (s, z));
  zp ← get_parent s z;
  zpp ← get_parent s zp;
  s ← set_color s zp Black;
  s ← set_color s zpp Red;
  s ← rotate_right s zpp;
  Ret (s, z).

Lemma insert_black_uncle :
  tcolor ty = Black -> ins_step s0 old t (black_uncle_left (addr t) (faddr f1)).
Proof using All.
  intros Hty. pose proof (rbc_grandparent_left _ _ _ _ _ _ _ _ _ Hrbc Hf1 Hrb Hred) as (_ & Hrby & Hc & Hsib).
  destruct t as [|ct tl z kz vz tr] eqn:Et; [done|]. simpl in Hred. subst ct.
  pose proof Hf as Hfp. apply focus_down in Hfp. unfold black_uncle_left.
  destruct f1 as [col p kp vp u|col u p kp vp] eqn:Ef1; simpl in Hf1; subst col; cbn [fplug faddr addr] in *;
    destruct (focus_node _ _ _ _ _ _ _ _ _ Hfp) as [Hp Hp0]; exec_one.
  - assert (z <> addr u) as Hne by (apply (addr_ne_subtree _ _ _ (T Red tl z kz vz tr) u (FL Red p kp vp u) Hfp); done).
    apply Z.eqb_neq in Hne as ->. cbn [mbind outcome_bind].
    destruct (focus_node _ _ _ _ _ _ _ _ _ Hf) as [Hz _]. do 2 exec_one.
    destruct (rotate_up_ok _ _ _ _ _ _ _ _ _ _ _ _ _ _ Hf) as (s' & Hs & Hf').
    eexists s', (FL Black p kp vp (T Red u g kg vg ty) :: c), (T Red tl z kz vz tr). split; [exact Hs|].
    split; [split_and!; [done|done|]|split; [solve_entries|simpl; lia]]. exists n. destruct Hsib. auto 8 with rb.
  - rewrite Z.eqb_refl. cbn [addr].
    destruct (rotate_left_ok _ _ _ _ _ _ _ _ _ _ _ _ _ _ Hfp) as (s1 & -> & Hf1'). cbn [mbind outcome_bind].
    apply (focus_down _ _ (FL Red z kz vz tr)) in Hf1'.
    destruct (focus_node _ _ _ _ _ _ _ _ _ Hf1') as [Hp1 _]. exec_one.
    pose proof (fo_ctx _ _ _ _ Hf1') as (Hz1 & _). exec_one.
    destruct (rotate_up_ok _ _ _ _ _ _ _ _ _ _ _ _ _ _ Hf1') as (s' & Hs & Hf').
    eexists s', (FL Black z kz vz (T Red tr g kg vg ty) :: c), (T Red u p kp vp tl). split; [exact Hs|].
    inversion Hrb; subst.
    split; [split_and!; [done|done|]|split; [solve_entries|simpl; lia]]. exists n. destruct Hsib. auto 8 with rb.
Qed.
End InsertLeft.

Lemma insert_fixup_left_ok s0 s c f1 cg g kg vg ty t :
  ins_inv s0 s (f1 :: FL cg g kg vg ty :: c) t -> fcolor f1 = Red ->
  ins_step s0 (f1 :: FL cg g kg vg ty :: c) t (insert_fixup_left s (addr t) (faddr f1) g).
Proof.
  intros (Hf & Hred & n & Hrb & Hrbc) Hf1.
  pose proof (rbc_grandparent_left _ _ _ _ _ _ _ _ _ Hrbc Hf1 Hrb Hred) as (-> & _).
  pose proof Hf as Hfg. apply focus_down, focus_down in Hfg. cbn [fplug] in Hfg.
  pose proof (focus_distinct _ _ _ _ Hfg) as (_ & _ & _ & Hz & _). rewrite elem_addrs_T in Hz.
  pose proof (fo_rep _ _ _ _ Hfg) as (Hg & Hp & Hy).
  unfold insert_fixup_left. exec_one. rewrite (is_red_ok _ _ _ Hy) by tauto. cbn [mbind outcome_bind].
  destruct (bool_decide_reflect (tcolor ty = Red)) as [Hty|Hty].
  - by eapply insert_red_uncle.
  - eapply insert_black_uncle; try done. by destruct (tcolor ty).
Qed.

Lemma insert_fixup_mirror s z zp zpp :
  insert_fixup_left (smirror s) z zp zpp = pmirror <$> insert_fixup_right s z zp zpp.
Proof. unfold insert_fixup_left, insert_fixup_right. mirror_steps. Qed.

Lemma ins_inv_mirror s0 s c t :
  ins_inv s0 s c t -> ins_inv (smirror s0) (smirror s) (fmirror <$> c) (tmirror t).
Proof.
  intros (Hf & Hred & n & Hrb & Hrbc). split; [by apply focus_mirror|]. rewrite tcolor_mirror. split; [done|].
  exists n. auto using rb_mirror, rbc_mirror.
Qed.

Lemma ins_inv_unmirror s0 s c t :
  ins_inv (smirror s0) s c t -> ins_inv s0 (smirror s) (fmirror <$> c) (tmirror t).
Proof. intros H%ins_inv_mirror. by rewrite smirror_inv in H. Qed.

Lemma ins_step_mirror s0 c t o :
  ins_step (smirror s0) (fmirror <$> c) (tmirror t) (pmirror <$> o) -> ins_step s0 c t o.
Proof.
  intros (s' & c' & t' & Ho & Hi & He & Hl). destruct o as [[s1 z]| |]; try done. injection Ho as <- ->.
  exists s1, (fmirror <$> c'), (tmirror t'). rewrite addr_mirror, entries_mirror, He, entries_mirror.
  rewrite length_fmap in *. apply ins_inv_unmirror in Hi. rewrite smirror_inv in Hi.
  by rewrite (reverse_involutive (entries c t)).
Qed.

Lemma insert_fixup_right_ok s0 s c f1 cg g kg vg ty t :
  ins_inv s0 s (f1 :: FR cg ty g kg vg :: c) t -> fcolor f1 = Red ->
  ins_step s0 (f1 :: FR cg ty g kg vg :: c) t (insert_fixup_right s (addr t) (faddr f1) g).
Proof.
  intros Hi%ins_inv_mirror Hf1. apply ins_step_mirror. rewrite <- insert_fixup_mirror, <- (addr_mirror t).
  replace (faddr f1) with (faddr (fmirror f1)) by (by destruct f1).
  apply insert_fixup_left_ok; [done|]. by destruct f1.
Qed.

(** A red frame has a black frame above it. *)
Lemma top_red_inv n c :
  rbc n c -> top_red c = true -> exists f1 g c', c = f1 :: g :: c' /\ fcolor f1 = Red.
Proof.
  intros Hc Ht. destruct c as [|f1 c]; [done|]. simpl in Ht. apply bool_decide_eq_true in Ht.
  assert (top_black c) by (inversion Hc; by subst). destruct c as [|g c]; [done|]. eauto 6.
Qed.

Lemma insert_iteration s0 s c t f1 g :
  ins_inv s0 s (f1 :: g :: c) t -> fcolor f1 = Red ->
  ins_step s0 (f1 :: g :: c) t
    (zpp ← get_parent s (faddr f1); zppl ← get_left s zpp;
     if faddr f1 =? zppl then insert_fixup_left s (addr t) (faddr f1) zpp
     else insert_fixup_right s (addr t) (faddr f1) zpp).
Proof.
  intros Hi Hf1. pose proof (proj1 Hi) as Hf. pose proof (fo_ctx _ _ _ _ Hf) as Hc.
  assert (get_parent s (faddr f1) = Ret (faddr g)) as ->.
  { destruct f1; destruct Hc as (Hp & _); simpl; by rewrite (get_parent_ok _ _ _ Hp). }
  cbn [mbind outcome_bind].
  apply focus_down in Hf. destruct g as [cg g kg vg ty|cg ty g kg vg]; cbn [faddr].
  - assert (get_left s g = Ret (faddr f1)) as ->.
    { destruct f1; destruct Hc as (_ & _ & Hg & _); by rewrite (get_left_ok _ _ _ Hg). }
    cbn [mbind outcome_bind]. rewrite Z.eqb_refl. by apply insert_fixup_left_ok.
  - assert (get_left s g = Ret (addr ty)) as ->.
    { destruct f1; destruct Hc as (_ & _ & Hg & _); by rewrite (get_left_ok _ _ _ Hg). }
    cbn [mbind outcome_bind]. apply focus_down in Hf.
    assert (faddr f1 <> addr ty) as Hne.
    { replace (faddr f1) with (addr (fplug f1 t)) by (by destruct f1).
      by apply (addr_ne_subtree _ _ _ _ ty _ Hf); [destruct f1|]. }
    apply Z.eqb_neq in Hne as ->. by apply insert_fixup_right_ok.
Qed.

Lemma insert_fixup_loop_ok s0 s c t fuel :
  ins_inv s0 s c t -> (length c < fuel)%nat ->
  exists s' t' n, insert_fixup_loop fuel s (addr t) = Ret s' /\ focus s0 s' [] t' /\
    inorder t' = entries c t /\ t' <> E /\ rb n t'.
Proof.
  revert s c t. induction fuel as [|fuel IH]; intros s c t Hi Hfuel; [lia|].
  destruct (Hi) as (Hf & Hred & n & Hrb & Hrbc). simpl.
  assert (get_parent s (addr t) = Ret (caddr c)) as ->.
  { destruct t; [done|]. destruct (focus_node _ _ _ _ _ _ _ _ _ Hf) as [Ht _]. cbn [addr]. by rewrite (get_parent_ok _ _ _ Ht). }
  cbn [mbind outcome_bind]. rewrite (focus_parent_red _ _ _ _ Hf). cbn [mbind outcome_bind].
  destruct (top_red c) eqn:Htop.
  - destruct (top_red_inv _ _ Hrbc Htop) as (f1 & g & c' & -> & Hf1). cbn [caddr].
    destruct (insert_iteration _ _ _ _ _ _ Hi Hf1) as (s1 & c1 & t1 & Hs & Hi1 & He & Hl). run_ret Hs.
    rewrite <- He. apply IH; [done|]. simpl in *. lia.
  - destruct (rb_plug n c t Hrbc Hrb) as [[n' Hn'] _].
    { destruct c as [|f c]; [by auto|]. simpl in *. apply bool_decide_eq_false in Htop. right; left. by destruct (fcolor f). }
    exists s, (plug c t), n'. rewrite inorder_plug. split_and!; try done.
    + apply focus_app. by rewrite app_nil_r.
    + apply plug_ne. by destruct t.
Qed.

(** Restoring the invariant after an insertion. *)
Lemma insert_fixup_ok s0 s c t :
  ins_inv s0 s c t ->
  exists s' t', insert_fixup s (addr t) = Ret s' /\ focus s0 s' [] t' /\
    inorder t' = entries c t /\ tcolor t' = Black /\ exists n, rb n t'.
Proof.
  intros Hi. pose proof (focus_fuel _ _ _ _ (proj1 Hi)) as Hfuel. unfold insert_fixup.
  destruct (insert_fixup_loop_ok s0 s c t (tree_fuel s) Hi ltac:(lia)) as (s1 & t1 & n & -> & Hf & He & Hne & Hrb).
  cbn [mbind outcome_bind]. destruct t1 as [|col l a k v r]; [done|].
  replace (root s1) with a by (symmetry; apply (fo_ctx _ _ _ _ Hf)).
  destruct (focus_set_color _ _ _ _ _ _ _ _ _ Black Hf) as (s2 & -> & Hf2).
  exists s2, (T Black l a k v r). split_and!; try done. by apply rb_blacken in Hrb.
Qed.

(** ** Removal *)

(** The tree in focus is one black node short; a red root is about to be
    blackened, so it may have a red child. *)
Definition nearly (n : nat) (t : tree) : Prop :=
  match t with
  | T Red l _ _ _ r => rb n l /\ rb n r
  | _ => rb n t
  end.

Lemma rb_nearly n t : rb n t -> nearly n t.
Proof. by destruct 1; simpl; auto with rb. Qed.

Definition del_inv (s0 s : RBTree) (c : ctx) (t : tree) : Prop :=
  focus s0 s c t /\ exists n, nearly n t /\ rbc (S n) c.

Definition del_step (s0 : RBTree) (c : ctx) (t : tree) (o : outcome (RBTree * Z * Z)) : Prop :=
  exists s' c' t', o = Ret (s', addr t', caddr c') /\ del_inv s0 s' c' t' /\
    entries c' t' = entries c t /\ (tcolor t' = Red \/ (length c' < length c)%nat).

(** A red sibling is rotated above the parent. *)
Definition fix_red_sibling (s : RBTree) (x_parent w : Z) : outcome (RBTree * Z) :=
  wred ← is_red s w;
  if wred : bool then
    s ← set_color s w Black;
    s ← set_color s x_parent Red;
    s ← rotate_left s x_parent;
    w ← get_right s x_parent;
    Ret (s, w)
  else Ret (s, w).

(** A red inner nephew is rotated outwards. *)
Definition fix_inner (s : RBTree) (x_parent w : Z) : outcome (RBTree * Z) :=
  far ← right_black s w;
  if far : bool then
    wl ← get_left s w;
    s ← (if negb (wl =? null) then set_color s wl Black else Ret s);
    s ← set_color s w Red;
    s ← rotate_right s w;
    w ← get_right s x_parent;
    Ret (s, w)
  else Ret (s, w).

(** A red outer nephew ends the repair. *)
Definition fix_outer (s : RBTree) (x_parent w : Z) : outcome (RBTree * Z * Z) :=
  xpc ← get_color s x_parent;
  s ← set_color s w xpc;
  s ← set_color s x_parent Black;
  wr ← get_right s w;
  s ← (if negb (wr =? null) then set_color s wr Black else Ret s);
  s ← rotate_left s x_parent;
  Ret (s, root s, null).

Lemma rbc_FL_inv n cp p kp vp w c :
  rbc n (FL cp p kp vp w :: c) ->
  rb n w /\ (cp = Black /\ rbc (S n) c \/ cp = Red /\ tcolor w = Black /\ top_black c /\ rbc n c).
Proof. inversion 1; subst; auto 8. Qed.

Lemma focus_0_notin s0 s c t : focus s0 s c t -> 0 ∉ addrs t.
Proof. intros Hf. apply (focus_distinct _ _ _ _ Hf). Qed.

Lemma fix_red_sibling_ok s0 s n cp p kp vp w c t :
  focus s0 s (FL cp p kp vp w :: c) t -> rbc (S n) (FL cp p kp vp w :: c) ->
  exists s1 cp1 w1 c1, fix_red_sibling s p (addr w) = Ret (s1, addr w1) /\
    focus s0 s1 (FL cp1 p kp vp w1 :: c1) t /\ tcolor w1 = Black /\ rbc (S n) (FL cp1 p kp vp w1 :: c1) /\
    entries (FL cp1 p kp vp w1 :: c1) t = entries (FL cp p kp vp w :: c) t /\
    (cp1 = Red \/ length c1 = length c).
Proof.
  intros Hf Hc. pose proof (fo_ctx _ _ _ _ Hf) as (_ & Hw & _).
  assert (Hz : 0 ∉ addrs w).
  { apply focus_down, focus_0_notin in Hf. cbn [fplug] in Hf. rewrite elem_addrs_T in Hf. tauto. }
  unfold fix_red_sibling. rewrite (is_red_ok _ _ _ Hw Hz). cbn [mbind outcome_bind].
  destruct (bool_decide_reflect (tcolor w = Red)) as [Hred|Hblack]; last first.
  { exists s, cp, w, c. split_and!; try done; [by destruct (tcolor w)|by right]. }
  apply rbc_FL_inv in Hc as [Hrw [[-> Hc]|(_ & Hb & _)]]; [|congruence].
  inversion Hrw as [|? wl a k v wr Hwl Hwr Hbl Hbr|]; subst; try done. cbn [addr].
  apply focus_down in Hf. cbn [fplug] in Hf. apply (focus_down _ _ (FR Black t p kp vp)) in Hf.
  destruct (focus_set_color _ _ _ _ _ _ _ _ _ Black Hf) as (s1 & -> & Hf1). cbn [mbind outcome_bind].
  apply focus_down in Hf1. cbn [fplug] in Hf1.
  destruct (focus_set_color _ _ _ _ _ _ _ _ _ Red Hf1) as (s2 & -> & Hf2). cbn [mbind outcome_bind].
  destruct (rotate_left_ok _ _ _ _ _ _ _ _ _ _ _ _ _ _ Hf2) as (s3 & -> & Hf3). cbn [mbind outcome_bind].
  apply (focus_down _ _ (FL Black a k v wr)), (focus_down _ _ (FL Red p kp vp wl)) in Hf3.
  pose proof (fo_ctx _ _ _ _ Hf3) as (Hp & _). exec_one.
  exists s3, Red, wl, (FL Black a k v wr :: c). split_and!; try done; [|solve_entries|by left].
  by repeat constructor.
Qed.

Lemma right_black_ok s w k v l p c r :
  nodes s !! w = Some (mkNode k v l (addr r) p c) -> rep (nodes s) w r -> 0 ∉ addrs r ->
  right_black s w = Ret (bool_decide (tcolor r = Black)).
Proof. intros Hw Hr Hz. unfold right_black. exec_one. by eapply is_black_ok. Qed.

Lemma left_black_ok s w k v l p c r :
  nodes s !! w = Some (mkNode k v (addr l) r p c) -> rep (nodes s) w l -> 0 ∉ addrs l ->
  left_black s w = Ret (bool_decide (tcolor l = Black)).
Proof. intros Hw Hr Hz. unfold left_black. exec_one. by eapply is_black_ok. Qed.

Lemma fix_inner_ok s0 s n cp p kp vp wl w kw vw wr c t :
  focus s0 s (FL cp p kp vp (T Black wl w kw vw wr) :: c) t -> rb n wl -> rb n wr ->
  tcolor wl = Red \/ tcolor wr = Red ->
  exists s1 wl1 w1 k1 v1 wr1, fix_inner s p w = Ret (s1, w1) /\
    focus s0 s1 (FL cp p kp vp (T Black wl1 w1 k1 v1 wr1) :: c) t /\ rb n wl1 /\ rb n wr1 /\ tcolor wr1 = Red /\
    entries (FL cp p kp vp (T Black wl1 w1 k1 v1 wr1) :: c) t = entries (FL cp p kp vp (T Black wl w kw vw wr) :: c) t.
Proof.
  intros Hf Hl Hr Hone. pose proof (fo_ctx _ _ _ _ Hf) as (_ & (Hw & Hwl & Hwr) & _).
  assert (Hz : 0 ∉ addrs wr).
  { apply focus_down, focus_0_notin in Hf. cbn [fplug] in Hf. rewrite !elem_addrs_T in Hf. tauto. }
  unfold fix_inner. rewrite (right_black_ok _ _ _ _ _ _ _ _ Hw Hwr Hz). cbn [mbind outcome_bind].
  destruct (bool_decide_reflect (tcolor wr = Black)) as [Hb|Hr']; last first.
  { exists s, wl, w, kw, vw, wr. split_and!; try done. by destruct (tcolor wr). }
  destruct Hone as [Hone|?]; [|congruence]. destruct wl as [|cl a b k v d]; [done|]. simpl in Hone. subst cl.
  inversion Hl; subst. exec_one.
  apply focus_down in Hf. cbn [fplug] in Hf. apply (focus_down _ _ (FR cp t p kp vp)), (focus_down _ _ (FL Black w kw vw wr)) in Hf.
  destruct (focus_node _ _ _ _ _ _ _ _ _ Hf) as [_ Hb0]. cbn [addr]. destruct (b =? 0) eqn:?; [lia|]. cbn [negb].
  destruct (focus_set_color _ _ _ _ _ _ _ _ _ Black Hf) as (s1 & -> & Hf1). cbn [mbind outcome_bind].
  apply focus_down in Hf1. cbn [fplug] in Hf1.
  destruct (focus_set_color _ _ _ _ _ _ _ _ _ Red Hf1) as (s2 & -> & Hf2). cbn [mbind outcome_bind].
  destruct (rotate_right_ok _ _ _ _ _ _ _ _ _ _ _ _ _ _ Hf2) as (s3 & -> & Hf3). cbn [mbind outcome_bind].
  pose proof (fo_ctx _ _ _ _ Hf3) as (Hp & _). exec_one. cbn [addr].
  apply focus_down in Hf3. cbn [fplug] in Hf3. apply (focus_down _ _ (FL cp p kp vp _)) in Hf3.
  exists s3, a, b, k, v, (T Red d w kw vw wr). split_and!; try done; [|solve_entries]. by constructor.
Qed.

Lemma fix_outer_ok s0 s cp p kp vp wl w kw vw a r k v b c t :
  focus s0 s (FL cp p kp vp (T Black wl w kw vw (T Red a r k v b)) :: c) t ->
  exists s', fix_outer s p w = Ret (s', root s', 0) /\
    focus s0 s' c (T cp (T Black t p kp vp wl) w kw vw (T Black a r k v b)).
Proof.
  intros Hf. pose proof (fo_ctx _ _ _ _ Hf) as (Hp & _). unfold fix_outer. exec_one.
  apply focus_down in Hf. cbn [fplug] in Hf. apply (focus_down _ _ (FR cp t p kp vp)) in Hf.
  destruct (focus_set_color _ _ _ _ _ _ _ _ _ cp Hf) as (s1 & -> & Hf1). cbn [mbind outcome_bind].
  apply focus_down in Hf1. cbn [fplug] in Hf1.
  destruct (focus_set_color _ _ _ _ _ _ _ _ _ Black Hf1) as (s2 & -> & Hf2). cbn [mbind outcome_bind].
  apply (focus_down _ _ (FR Black t p kp vp)) in Hf2.
  destruct (focus_node _ _ _ _ _ _ _ _ _ Hf2) as [Hw2 _]. exec_one. cbn [addr].
  apply (focus_down _ _ (FR cp wl w kw vw)) in Hf2.
  destruct (focus_node _ _ _ _ _ _ _ _ _ Hf2) as [_ Hr0]. destruct (r =? 0) eqn:?; [lia|]. cbn [negb].
  destruct (focus_set_color _ _ _ _ _ _ _ _ _ Black Hf2) as (s3 & -> & Hf3). cbn [mbind outcome_bind].
  do 2 (apply focus_down in Hf3; cbn [fplug] in Hf3).
  destruct (rotate_left_ok _ _ _ _ _ _ _ _ _ _ _ _ _ _ Hf3) as (s4 & -> & Hf4). by exists s4.
Qed.

(** The both-black case moves the defect to the parent. *)
Lemma push_up_inv s0 s n cp p kp vp wl w kw vw wr c t :
  focus s0 s c (T cp t p kp vp (T Red wl w kw vw wr)) -> rb n t -> rb n wl -> rb n wr ->
  tcolor wl = Black -> tcolor wr = Black -> rbc (S n) (FL cp p kp vp (T Black wl w kw vw wr) :: c) ->
  del_inv s0 s c (T cp t p kp vp (T Red wl w kw vw wr)).
Proof.
  intros Hf Ht Hl Hr Hbl Hbr Hc. split; [done|].
  apply rbc_FL_inv in Hc as [_ [[-> Hc]|(-> & _ & _ & Hc)]].
  - exists (S n). split; [|done]. simpl. auto with rb.
  - exists n. split; [|done]. simpl. auto with rb.
Qed.

(** The red-nephew case finishes the tree. *)
Lemma finish_inv s0 s n cp p kp vp wl w kw vw a r k v b c t w0 :
  focus s0 s c (T cp (T Black t p kp vp wl) w kw vw (T Black a r k v b)) ->
  rb n t -> rb n wl -> rb n (T Red a r k v b) -> rbc (S n) (FL cp p kp vp w0 :: c) ->
  del_inv s0 s [] (plug c (T cp (T Black t p kp vp wl) w kw vw (T Black a r k v b))).
Proof.
  intros Hf Ht Hl Hr Hc. inversion Hr; subst. split; [apply focus_app; by rewrite app_nil_r|].
  assert (exists m, rb m (plug c (T cp (T Black t p kp vp wl) w kw vw (T Black a r k v b)))) as [m Hm].
  { apply rbc_FL_inv in Hc as [_ [[-> Hc]|(-> & _ & Htop & Hc)]];
      apply (rb_plug _ _ _ Hc); simpl; auto with rb. }
  exists m. split; [by apply rb_nearly|constructor].
Qed.

(** The rest of an iteration, once the sibling [w] is black. *)
Definition black_sibling (s : RBTree) (x_parent w : Z) : outcome (RBTree * Z * Z) :=
  both ← andM (left_black s w) (right_black s w);
  if both : bool then
    s ← set_color s w Red;
    xpp ← get_parent s x_parent;
    Ret (s, x_parent, xpp)
  else
    '(s, w) ← fix_inner s x_parent w;
    fix_outer s x_parent w.

Lemma black_sibling_ok s0 s n cp p kp vp wl w kw vw wr c t :
  focus s0 s (FL cp p kp vp (T Black wl w kw vw wr) :: c) t -> rb n t -> rb n wl -> rb n wr ->
  rbc (S n) (FL cp p kp vp (T Black wl w kw vw wr) :: c) ->
  exists s' c' t', black_sibling s p w = Ret (s', addr t', caddr c') /\ del_inv s0 s' c' t' /\
    entries c' t' = entries (FL cp p kp vp (T Black wl w kw vw wr) :: c) t /\
    (c' = c /\ tcolor t' = cp \/ c' = []).
Proof.
  intros Hf Ht Hwl Hwr Hc. pose proof (fo_ctx _ _ _ _ Hf) as (Hp & (Hw & Hl & Hr) & _).
  assert (Hz : 0 ∉ addrs wl /\ 0 ∉ addrs wr).
  { pose proof Hf as Hf'. apply focus_down, focus_0_notin in Hf'. cbn [fplug] in Hf'. rewrite !elem_addrs_T in Hf'. tauto. }
  unfold black_sibling. rewrite (left_black_ok _ _ _ _ _ _ _ _ Hw Hl (proj1 Hz)). unfold andM. cbn [mbind outcome_bind].
  rewrite (right_black_ok _ _ _ _ _ _ _ _ Hw Hr (proj2 Hz)).
  assert (Hdec : tcolor wl = Black /\ tcolor wr = Black \/ tcolor wl = Red \/ tcolor wr = Red)
    by (destruct (tcolor wl), (tcolor wr); auto).
  destruct Hdec as [[Hbl Hbr]|Hone].
  - rewrite Hbl, Hbr. cbn [mbind outcome_bind bool_decide decide decide_rel].
    apply focus_down in Hf. cbn [fplug] in Hf. apply (focus_down _ _ (FR cp t p kp vp)) in Hf.
    destruct (focus_set_color _ _ _ _ _ _ _ _ _ Red Hf) as (s1 & -> & Hf1). cbn [mbind outcome_bind].
    apply focus_down in Hf1. cbn [fplug] in Hf1. destruct (focus_node _ _ _ _ _ _ _ _ _ Hf1) as [Hp1 _]. exec_one.
    eexists s1, c, (T cp t p kp vp _). split; [done|]. split; [by eapply push_up_inv|]. split; [solve_entries|by left].
  - destruct (fix_inner_ok _ _ n _ _ _ _ _ _ _ _ _ _ _ Hf Hwl Hwr Hone)
      as (s2 & wl1 & w1 & k1 & v1 & wr1 & Hs & Hf2 & Hl1 & Hr1 & Hred & He2).
    destruct wr1 as [|cr ra rr rk rv rb']; [done|]. simpl in Hred. subst cr.
    destruct (fix_outer_ok _ _ _ _ _ _ _ _ _ _ _ _ _ _ _ _ _ Hf2) as (s3 & Hs3 & Hf3).
    pose proof (finish_inv _ _ _ _ _ _ _ _ _ _ _ _ _ _ _ _ _ _ _ Hf3 Ht Hl1 Hr1 Hc) as Hi.
    eexists s3, [], (plug c _). split; [|split; [exact Hi|split; [|by right]]].
    + rewrite Hs. cbn [mbind outcome_bind]. rewrite Hs3. rewrite (fo_ctx _ _ _ _ (proj1 Hi)).
      destruct Hone as [-> | ->]; [done|]. by destruct (bool_decide (tcolor wl = Black)).
    + rewrite <- He2, entries_plug. solve_entries.
Qed.

Lemma delete_fixup_left_ok s0 s cp p kp vp w c t :
  del_inv s0 s (FL cp p kp vp w :: c) t -> tcolor t = Black ->
  del_step s0 (FL cp p kp vp w :: c) t (delete_fixup_left s (addr t) p).
Proof.
  intros (Hf & n & Hn & Hc) Hb. assert (Ht : rb n t) by (by destruct t as [|[]]).
  unfold delete_fixup_left. pose proof (fo_ctx _ _ _ _ Hf) as (Hp & _).
  rewrite (get_right_ok _ _ _ Hp). cbn [mbind outcome_bind right].
  destruct (fix_red_sibling_ok _ _ _ _ _ _ _ _ _ _ Hf Hc) as (s1 & cp1 & w1 & c1 & Hs & Hf1 & Hb1 & Hc1 & He1 & Hlen).
  pose proof (rbc_FL_inv _ _ _ _ _ _ _ Hc1) as [Hw1 _].
  inversion Hw1 as [| |? wl wa wk wv wr Hwl Hwr]; subst; try done.
  destruct (black_sibling_ok _ _ _ _ _ _ _ _ _ _ _ _ _ _ Hf1 Ht Hwl Hwr Hc1) as (s2 & c2 & t2 & Hs2 & Hi & He & Hcase).
  exists s2, c2, t2. split; [|split; [done|split; [congruence|]]].
  - unfold fix_red_sibling in Hs. run_ret Hs. cbn [addr]. unfold black_sibling in Hs2. run_ret Hs2.
    match type of Hs2 with (if ?b then _ else _) = _ => destruct b end; [done|].
    unfold fix_inner in Hs2. by rewrite outcome_bind_assoc in Hs2.
  - destruct Hcase as [[-> Hcol]| ->]; [|right; simpl; lia]. destruct Hlen as [->|Hlen]; [by left|]. right. simpl. lia.
Qed.

Lemma delete_fixup_mirror s x p :
  delete_fixup_left (smirror s) x p = tmirror3 <$> delete_fixup_right s x p.
Proof. unfold delete_fixup_left, delete_fixup_right, andM. mirror_steps. Qed.

Lemma del_inv_mirror s0 s c t :
  del_inv s0 s c t -> del_inv (smirror s0) (smirror s) (fmirror <$> c) (tmirror t).
Proof.
  intros (Hf & n & Hn & Hc). split; [by apply focus_mirror|]. exists n. split; [|by apply rbc_mirror].
  destruct t as [|[] l a k v r]; simpl in *; [done|destruct Hn; auto using rb_mirror|].
  by apply (rb_mirror n (T Black l a k v r)).
Qed.

Lemma del_step_mirror s0 c t o :
  del_step (smirror s0) (fmirror <$> c) (tmirror t) (tmirror3 <$> o) -> del_step s0 c t o.
Proof.
  intros (s' & c' & t' & Ho & Hi & He & Hl). destruct o as [[[s1 x] xp]| |]; try done. injection Ho as <- -> ->.
  exists s1, (fmirror <$> c'), (tmirror t'). rewrite addr_mirror, caddr_mirror, entries_mirror, He, entries_mirror, tcolor_mirror.
  rewrite !length_fmap in *. apply del_inv_mirror in Hi. rewrite !smirror_inv in Hi.
  by rewrite (reverse_involutive (entries c t)).
Qed.

Lemma delete_fixup_right_ok s0 s cp w p kp vp c t :
  del_inv s0 s (FR cp w p kp vp :: c) t -> tcolor t = Black ->
  del_step s0 (FR cp w p kp vp :: c) t (delete_fixup_right s (addr t) p).
Proof.
  intros Hi%del_inv_mirror Hb. apply del_step_mirror. rewrite <- delete_fixup_mirror, <- (addr_mirror t).
  apply delete_fixup_left_ok; [done|]. by rewrite tcolor_mirror.
Qed.

Lemma repc_root m rt h c : repc m rt h c -> c <> [] -> rt ∈ caddrs c.
Proof.
  revert h. induction c as [|f c IH]; intros h Hc Hne; [done|].
  assert (rt = faddr f \/ rt ∈ caddrs c) as Hin.
  { destruct c as [|g c']; [left; destruct f; simpl in Hc; tauto|right].
    destruct f; destruct Hc as (_ & _ & Hc); by eapply IH. }
  destruct f; rewrite ?elem_caddrs_FL, ?elem_caddrs_FR; simpl in Hin; tauto.
Qed.

Lemma focus_root_ne s0 s c t : focus s0 s c t -> c <> [] -> addr t <> root s.
Proof.
  intros Hf Hne Heq. pose proof (focus_distinct _ _ _ _ Hf) as (_ & _ & Hd & _ & Hz).
  pose proof (repc_root _ _ _ _ (fo_ctx _ _ _ _ Hf) Hne) as Hr. rewrite <- Heq in Hr.
  destruct t as [|col l a k v r]; [done|]. apply (Hd (addr (T col l a k v r))); [by apply addr_in|done].
Qed.

(** One iteration at a black defect below a parent. *)
Lemma delete_iteration s0 s f c t :
  del_inv s0 s (f :: c) t -> tcolor t = Black ->
  del_step s0 (f :: c) t
    (xpl ← get_left s (faddr f);
     if addr t =? xpl then delete_fixup_left s (addr t) (faddr f) else delete_fixup_right s (addr t) (faddr f)).
Proof.
  intros Hi Hb. destruct (Hi) as (Hf & n & Hn & Hc). pose proof (fo_ctx _ _ _ _ Hf) as Hr.
  destruct f as [cp p kp vp w|cp w p kp vp]; destruct Hr as (Hp & _); cbn [faddr]; exec_one.
  - rewrite Z.eqb_refl. by apply delete_fixup_left_ok.
  - assert (addr t <> addr w) as Hne.
    { apply focus_down in Hf. destruct t as [|ct lt at' kt vt rt].
      - assert (Hw : w <> E) by (inversion Hc; subst; inversion select (rb (S n) w); by subst).
        pose proof (addr_in _ Hw) as Hin. apply focus_0_notin in Hf. cbn [fplug] in Hf. rewrite elem_addrs_T in Hf.
        simpl. intros Heq. rewrite <- Heq in Hin. tauto.
      - by apply (addr_ne_subtree _ _ _ _ w _ Hf). }
    apply Z.eqb_neq in Hne as ->. by apply delete_fixup_right_ok.
Qed.

Definition del_need (c : ctx) (t : tree) : nat := if decide (tcolor t = Red) then 0%nat else length c.

Lemma delete_fixup_loop_ok s0 fuel s c t :
  del_inv s0 s c t -> (del_need c t < fuel)%nat ->
  exists s' c' t', delete_fixup_loop fuel s (addr t) (caddr c) = Ret (s', addr t') /\ del_inv s0 s' c' t' /\
    entries c' t' = entries c t /\ (c' = [] \/ tcolor t' = Red).
Proof.
  revert s c t. induction fuel as [|fuel IH]; intros s c t Hi Hfuel; [lia|]. pose proof (proj1 Hi) as Hf. simpl.
  destruct c as [|f c].
  { replace (root s) with (addr t) by (symmetry; apply (fo_ctx _ _ _ _ Hf)). rewrite (Z.eqb_refl (addr t)).
    exists s, [], t. do 3 (split; [done|]). by left. }
  pose proof (focus_root_ne _ _ _ _ Hf ltac:(done)) as Hne. apply Z.eqb_neq in Hne as ->.
  unfold andM. cbn [negb mbind outcome_bind].
  rewrite (is_black_ok _ _ _ (fo_rep _ _ _ _ Hf) (focus_0_notin _ _ _ _ Hf)). cbn [mbind outcome_bind].
  destruct (bool_decide_reflect (tcolor t = Black)) as [Hb|Hred].
  - destruct (delete_iteration _ _ _ _ _ Hi Hb) as (s1 & c1 & t1 & Hs & Hi1 & He & Hl).
    assert (faddr f <> 0) as Hp.
    { pose proof (focus_distinct _ _ _ _ Hf) as (_ & _ & _ & _ & Hz). intros Heq. apply Hz. rewrite <- Heq.
      apply (caddr_in (f :: c)). done. }
    cbn [caddr]. apply Z.eqb_neq in Hp as ->. run_ret Hs. rewrite <- He. apply IH; [done|].
    unfold del_need in *. rewrite Hb in Hfuel. simpl in Hfuel. destruct Hl as [->|Hl]; [simpl; lia|].
    destruct (decide (tcolor t1 = Red)); simpl in *; lia.
  - exists s, (f :: c), t. do 3 (split; [done|]). right. by destruct (tcolor t).
Qed.

(** Restoring the invariant after a removal. *)
Lemma delete_fixup_ok s0 s c t :
  del_inv s0 s c t ->
  exists s' t', delete_fixup s (addr t) (caddr c) = Ret s' /\ focus s0 s' [] t' /\
    inorder t' = entries c t /\ tcolor t' = Black /\ exists n, rb n t'.
Proof.
  intros Hi. pose proof (focus_fuel _ _ _ _ (proj1 Hi)) as Hfuel. unfold delete_fixup.
  destruct (delete_fixup_loop_ok s0 (tree_fuel s) s c t Hi) as (s1 & c1 & t1 & -> & (Hf & n & Hn & Hc) & He & Hend).
  { unfold del_need. destruct (decide (tcolor t = Red)); lia. }
  cbn [mbind outcome_bind]. rewrite <- He, <- inorder_plug. destruct t1 as [|col l a k v r].
  - destruct Hend as [->|?]; [|done]. exists s1, E. split_and!; try done. by exists n.
  - destruct (focus_node _ _ _ _ _ _ _ _ _ Hf) as [_ Ha]. cbn [addr]. destruct (a =? 0) eqn:?; [lia|]. cbn [negb].
    destruct (focus_set_color _ _ _ _ _ _ _ _ _ Black Hf) as (s2 & -> & Hf2).
    exists s2, (plug c1 (T Black l a k v r)). split; [done|].
    split; [apply focus_app; by rewrite app_nil_r|]. split; [by rewrite !inorder_plug|].
    destruct (decide (c1 = [])) as [->|Hne].
    + split; [done|]. destruct col; simpl in Hn; [exists (S n); destruct Hn; by constructor|by exists n].
    + destruct Hend as [?|Hred]; [done|]. simpl in Hred. subst col. destruct Hn as [Hl Hr].
      destruct (rb_plug (S n) c1 (T Black l a k v r) Hc) as [? [?|?]]; simpl; auto with rb. done.
Qed.
