(* ===== verification/RBTreeProofs.v ===== *)
(** * The red-black tree refines a finite map

    [tree_ok s k M] relates a tree with its node pool to the map [M] from keys
    to metadata.  [get], [insert], [replace] and [remove] are lookup, insertion,
    update and deletion of [M]; a search takes logarithmically many steps. *)

From S2P Require Import Prelude Types Kernel RBTree RBTreeRep RBTreeBalance.

(** ** Keys *)

Abbreviation keys l := (l.*2.*1).

Definition sorted (l : list entry) : Prop := StronglySorted Z.lt (keys l).

Definition to_map (l : list entry) : gmap Z BigAllocMeta := list_to_map l.*2.

Lemma sorted_nodup l : sorted l -> NoDup (keys l).
Proof.
  unfold sorted. induction 1 as [|x l' Hs IH Hall]; constructor; [|done].
  intros Hin. rewrite Forall_forall in Hall. specialize (Hall x Hin). lia.
Qed.

Lemma sorted_split l1 e l2 :
  sorted (l1 ++ e :: l2) <->
  sorted (l1 ++ l2) /\ Forall (fun x => x < e.2.1) (keys l1) /\ Forall (fun x => e.2.1 < x) (keys l2).
Proof.
  unfold sorted. rewrite !fmap_app, !fmap_cons, !StronglySorted_app, !Forall_forall.
  setoid_rewrite elem_of_cons. split.
  - intros (H1 & H2 & H3). inversion H3 as [|? ? Hs Hall]; subst. rewrite Forall_forall in Hall. naive_solver.
  - intros ((H1 & H2 & H3) & H4 & H5). split_and!; [|done|constructor; [done|by apply Forall_forall]].
    intros x1 x2 Hx1 [->|Hx2]; auto.
Qed.

Lemma to_map_lookup l1 e l2 : sorted (l1 ++ e :: l2) -> to_map (l1 ++ e :: l2) !! e.2.1 = Some e.2.2.
Proof.
  intros Hs. apply elem_of_list_to_map_1; [by apply sorted_nodup|].
  rewrite fmap_app, fmap_cons. apply elem_of_app. right. apply elem_of_cons. left. by destruct e as [? []].
Qed.

Lemma to_map_lookup_None l k : k ∉ keys l -> to_map l !! k = None.
Proof. apply not_elem_of_list_to_map_1. Qed.

Lemma to_map_middle l1 e l2 :
  sorted (l1 ++ e :: l2) -> to_map (l1 ++ e :: l2) = <[e.2.1 := e.2.2]> (to_map (l1 ++ l2)).
Proof.
  intros Hs. pose proof (sorted_nodup _ Hs) as Hnd. unfold to_map.
  rewrite fmap_app, fmap_cons in *. rewrite fmap_app.
  rewrite (list_to_map_proper _ (e.2 :: l1.*2 ++ l2.*2)); [by destruct e as [? []]|done|].
  symmetry. apply Permutation_middle.
Qed.

Lemma to_map_remove l1 e l2 :
  sorted (l1 ++ e :: l2) -> to_map (l1 ++ l2) = delete e.2.1 (to_map (l1 ++ e :: l2)).
Proof.
  intros Hs. rewrite (to_map_middle _ _ _ Hs), delete_insert_id; [done|].
  apply to_map_lookup_None. pose proof (sorted_nodup _ Hs) as Hnd.
  rewrite !fmap_app, !fmap_cons in *. rewrite <- Permutation_middle in Hnd. by apply NoDup_cons in Hnd as [? _].
Qed.

Lemma to_map_size l : sorted l -> size (to_map l) = length l.
Proof.
  intros Hs%sorted_nodup. unfold to_map. rewrite <- length_map_to_list, map_to_list_to_map by done. apply length_fmap.
Qed.

(** ** Searching *)

Fixpoint height (t : tree) : nat :=
  match t with E => 0 | T _ l _ _ _ r => S (Nat.max (height l) (height r)) end.

Lemma height_inorder t : (height t <= length (inorder t))%nat.
Proof. induction t as [|c l IHl a k v r IHr]; simpl; [lia|]. rewrite length_app. simpl. lia. Qed.

(** The frames a search for [k] has passed. *)
Definition passed (k : Z) (c : ctx) : Prop :=
  Forall (fun f => match f with FL _ _ fk _ _ => k < fk | FR _ _ _ fk _ => fk < k end) c.

(** Where a search for [k] in [t] ends. *)
Definition lands (k : Z) (t : tree) (c : ctx) (t' : tree) : Prop :=
  t = plug c t' /\ passed k c /\ match t' with E => True | T _ _ _ k' _ _ => k' = k end.

Lemma search_ind (P : tree -> Prop) k :
  P E ->
  (forall c l a v r, P (T c l a k v r)) ->
  (forall c l a k' v r, k < k' -> P l -> P (T c l a k' v r)) ->
  (forall c l a k' v r, k' < k -> P r -> P (T c l a k' v r)) ->
  forall t, P t.
Proof.
  intros HE Heq Hl Hr t. induction t as [|c l IHl a k' v r IHr]; [done|].
  destruct (Z.lt_trichotomy k k') as [?|[<-|?]]; auto.
Qed.

Lemma lands_cons k t f c t' :
  lands k t c t' -> match f with FL _ _ fk _ _ => k < fk | FR _ _ _ fk _ => fk < k end ->
  lands k (fplug f t) (c ++ [f]) t'.
Proof.
  intros (-> & Hp & Ht) Hf. split_and!; [by rewrite plug_app| |done].
  apply Forall_app. split; [done|]. by constructor.
Qed.

Lemma find_loop_ok s0 s k t c fuel :
  focus s0 s c t -> (height t < fuel)%nat ->
  exists c' t', lands k t c' t' /\ find_loop fuel s (addr t) k = Ret (addr t').
Proof.
  revert c fuel. pattern t. apply (search_ind _ k);
    [|intros col l a v r|intros col l a k' v r Hlt IH|intros col l a k' v r Hlt IH];
    intros c fuel Hf Hfuel; (destruct fuel as [|fuel]; [simpl in Hfuel; lia|]).
  - exists [], E. by repeat constructor.
  - destruct (focus_node _ _ _ _ _ _ _ _ _ Hf) as [Ha Ha0]. exists [], (T col l a k v r). split; [by repeat constructor|].
    simpl. destruct (a =? 0) eqn:?; [lia|]. repeat exec_one. by rewrite Z.eqb_refl.
  - destruct (focus_node _ _ _ _ _ _ _ _ _ Hf) as [Ha Ha0]. apply (focus_down _ _ (FL col a k' v r)) in Hf.
    destruct (IH _ fuel Hf) as (c' & t' & Hl & Hs); [simpl in Hfuel; lia|].
    exists (c' ++ [FL col a k' v r]), t'. split; [by apply (lands_cons k l (FL col a k' v r))|].
    simpl. destruct (a =? 0) eqn:?; [lia|]. repeat exec_one. destruct (k =? k') eqn:?; [lia|].
    destruct (k <? k') eqn:?; [|lia]. done.
  - destruct (focus_node _ _ _ _ _ _ _ _ _ Hf) as [Ha Ha0]. apply (focus_down _ _ (FR col l a k' v)) in Hf.
    destruct (IH _ fuel Hf) as (c' & t' & Hl & Hs); [simpl in Hfuel; lia|].
    exists (c' ++ [FR col l a k' v]), t'. split; [by apply (lands_cons k r (FR col l a k' v))|].
    simpl. destruct (a =? 0) eqn:?; [lia|]. repeat exec_one. destruct (k =? k') eqn:?; [lia|].
    destruct (k <? k') eqn:?; [lia|]. done.
Qed.

(** The result of a search does not depend on the fuel. *)
Lemma find_loop_mono fuel s x k a n : find_loop fuel s x k = Ret a -> find_loop (fuel + n) s x k = Ret a.
Proof.
  revert x. induction fuel as [|fuel IH]; intros x H; [done|]. simpl in *.
  destruct (x =? 0); [done|]. destruct (get_key s x) as [xk| |]; simpl in *; [|done..].
  destruct (k =? xk); [done|]. destruct (if k <? xk then get_left s x else get_right s x); simpl in *; [|done..]. auto.
Qed.

Lemma find_loop_det f1 f2 s x k a b : find_loop f1 s x k = Ret a -> find_loop f2 s x k = Ret b -> a = b.
Proof.
  intros Ha%(find_loop_mono _ _ _ _ _ f2) Hb%(find_loop_mono _ _ _ _ _ f1). rewrite Nat.add_comm in Hb. congruence.
Qed.

(** What [tree_insert]'s descent returns. *)
Definition descended (s : RBTree) (v : BigAllocMeta) (c : ctx) (t : tree) : outcome (RBTree + Z) :=
  match t with
  | E => Ret (inr (caddr c))
  | T _ _ a _ _ _ => inl <$> set_meta s a v
  end.

Lemma insert_descend_ok s0 s k v t c fuel :
  focus s0 s c t -> (height t < fuel)%nat ->
  exists c' t', lands k t c' t' /\ insert_descend fuel s (caddr c) (addr t) k v = descended s v (c' ++ c) t'.
Proof.
  revert c fuel. pattern t. apply (search_ind _ k);
    [|intros col l a v0 r|intros col l a k' v0 r Hlt IH|intros col l a k' v0 r Hlt IH];
    intros c fuel Hf Hfuel; (destruct fuel as [|fuel]; [simpl in Hfuel; lia|]).
  - exists [], E. by repeat constructor.
  - destruct (focus_node _ _ _ _ _ _ _ _ _ Hf) as [Ha Ha0]. exists [], (T col l a k v0 r). split; [by repeat constructor|].
    simpl. destruct (a =? 0) eqn:?; [lia|]. repeat exec_one. rewrite Z.eqb_refl. by destruct (set_meta s a v).
  - destruct (focus_node _ _ _ _ _ _ _ _ _ Hf) as [Ha Ha0]. apply (focus_down _ _ (FL col a k' v0 r)) in Hf.
    destruct (IH _ fuel Hf) as (c' & t' & Hl & Hs); [simpl in Hfuel; lia|].
    exists (c' ++ [FL col a k' v0 r]), t'. rewrite <- app_assoc.
    split; [by apply (lands_cons k l (FL col a k' v0 r))|].
    simpl. destruct (a =? 0) eqn:?; [lia|]. repeat exec_one. destruct (k =? k') eqn:?; [lia|].
    destruct (k <? k') eqn:?; [|lia]. done.
  - destruct (focus_node _ _ _ _ _ _ _ _ _ Hf) as [Ha Ha0]. apply (focus_down _ _ (FR col l a k' v0)) in Hf.
    destruct (IH _ fuel Hf) as (c' & t' & Hl & Hs); [simpl in Hfuel; lia|].
    exists (c' ++ [FR col l a k' v0]), t'. rewrite <- app_assoc.
    split; [by apply (lands_cons k r (FR col l a k' v0))|].
    simpl. destruct (a =? 0) eqn:?; [lia|]. repeat exec_one. destruct (k =? k') eqn:?; [lia|].
    destruct (k <? k') eqn:?; [lia|]. done.
Qed.

(** A search that falls off the tree separates the keys. *)
Lemma passed_bounds k c t :
  passed k c -> sorted (entries c t) ->
  Forall (fun x => x < k) (keys (before c)) /\ Forall (fun x => k < x) (keys (after c)).
Proof.
  intros Hp. revert t. induction Hp as [|f c Hf _ IH]; intros t Hs; [done|].
  rewrite entries_frame in Hs. destruct (IH _ Hs) as [Hb Ha]. unfold entries in Hs.
  destruct f as [col a fk fv r|col l a fk fv]; simpl in *.
  - split; [done|]. rewrite <- app_assoc in Hs. simpl in Hs. rewrite app_assoc in Hs.
    apply sorted_split in Hs as (_ & _ & Hs). simpl in Hs. rewrite !fmap_app. constructor; [done|].
    rewrite fmap_app, !Forall_forall in *. rewrite fmap_app in Hs. intros x Hx. specialize (Hs x Hx). lia.
  - split; [|done]. rewrite <- app_assoc in Hs. simpl in Hs. rewrite app_assoc in Hs.
    apply sorted_split in Hs as (_ & Hs & _). simpl in Hs. rewrite !fmap_app, app_assoc. apply Forall_app.
    rewrite !fmap_app in Hs. split; [|by repeat constructor].
    rewrite Forall_forall in *. intros x Hx. specialize (Hs x Hx). lia.
Qed.

(** ** Height *)

Lemma rb_height n t : rb n t -> (height t <= 2 * n + (if decide (tcolor t = Red) then 1 else 0))%nat.
Proof.
  induction 1 as [|n l a k v r _ IHl _ IHr Hl Hr|n l a k v r _ IHl _ IHr]; simpl; [lia|..].
  - rewrite Hl, Hr in *. simpl in *. lia.
  - repeat case_decide; simpl in *; lia.
Qed.

Lemma rb_size n t : rb n t -> (2 ^ n <= S (length (inorder t)))%nat.
Proof.
  induction 1 as [|n l a k v r _ IHl _ IHr _ _|n l a k v r _ IHl _ IHr]; simpl; [lia|..]; rewrite length_app; simpl; lia.
Qed.

Lemma rb_log_height n t :
  rb n t -> tcolor t = Black -> (height t <= 2 * Nat.log2 (S (length (inorder t))))%nat.
Proof.
  intros Hrb Hb. pose proof (rb_height _ _ Hrb) as Hh. rewrite Hb in Hh. simpl in Hh.
  pose proof (Nat.log2_le_mono _ _ (rb_size _ _ Hrb)) as Hl. rewrite Nat.log2_pow2 in Hl by lia. lia.
Qed.

(** ** Zippers into a red-black tree *)

Lemma rb_unplug N c t :
  rb N (plug c t) -> tcolor (plug c t) = Black ->
  exists n, rb n t /\ rbc n c /\ (tcolor t = Red -> top_black c).
Proof.
  revert t. induction c as [|f c IH]; intros t Hrb Hb; simpl in *.
  { exists N. split_and!; [done|constructor|congruence]. }
  destruct (IH _ Hrb Hb) as (n & Ht & Hc & Htop).
  destruct f as [[] a k v r|[] l a k v]; simpl in *; inversion Ht; subst;
    eexists; (split_and!; [eassumption|constructor; eauto|done || congruence]).
Qed.

Lemma rbc_rename n c2 col l a k v a' k' v' c :
  rbc n (c2 ++ FR col l a k v :: c) -> rbc n (c2 ++ FR col l a' k' v' :: c).
Proof.
  revert n. induction c2 as [|f c2 IH]; intros n Hc; simpl in *.
  - inversion Hc; subst; by constructor.
  - assert (Htop : top_black (c2 ++ FR col l a k v :: c) -> top_black (c2 ++ FR col l a' k' v' :: c)) by (by destruct c2).
    inversion Hc; subst; constructor; auto.
Qed.

Lemma after_rename c2 col l a k v a' k' v' c :
  after (c2 ++ FR col l a k v :: c) = after (c2 ++ FR col l a' k' v' :: c).
Proof. induction c2 as [|[] c2 IH]; simpl; congruence. Qed.

(** Dropping a node with at most one child. *)
Lemma rb_drop n col l u k v r t c :
  rb n (T col l u k v r) -> (l = E /\ t = r \/ r = E /\ t = l) -> rbc n c ->
  match col with
  | Black => exists m, rb m t /\ rbc (S m) c
  | Red => rb n t /\ tcolor t = Black
  end.
Proof. intros Hrb Ht Hc. inversion Hrb; subst; destruct Ht as [[_ ->]|[_ ->]]; eauto. Qed.

(** ** Removing a node *)

(** The state after the structural part of [delete_node]: [z] is out of the
    tree, and the tree is one black node short below [c] if [col] is black. *)
Definition unlinked (s s' : RBTree) (old : list entry) (e : entry) (col : Color) (c : ctx) (t : tree) : Prop :=
  holds s' c t /\ is_Some (nodes s' !! e.1) /\ free_list s' = free_list s /\
  (forall a, a ∉ old.*1 -> nodes s' !! a = nodes s !! a) /\
  (exists l1 l2, old = l1 ++ e :: l2 /\ entries c t = l1 ++ l2) /\
  exists n, rb n t /\ match col with Black => rbc (S n) c | Red => rbc n c /\ tcolor t = Black end.

Lemma unlink_child s c col l z k v r t :
  holds s c (T col l z k v r) -> (l = E /\ t = r \/ r = E /\ t = l) ->
  (exists N, rb N (plug c (T col l z k v r))) -> tcolor (plug c (T col l z k v r)) = Black ->
  exists s', transplant s z (addr t) = Ret s' /\
    unlinked s s' (entries c (T col l z k v r)) (z, (k, v)) col c t.
Proof.
  intros Hf Ht [N HN] Hroot. destruct (rb_unplug _ _ _ HN Hroot) as (n & Hrb & Hc & _).
  destruct (transplant_child _ _ _ _ _ _ _ _ _ t Hf Ht) as (s' & Hs & Hh & Hz & Hfl & Hout).
  exists s'. split; [done|]. pose proof (rb_drop _ _ _ _ _ _ _ _ _ Hrb Ht Hc) as Hd.
  destruct (focus_node _ _ _ _ _ _ _ _ _ Hf) as [Hn _].
  split; [done|]. split; [simpl; rewrite Hz; eauto|]. split_and!; [done|done| |destruct col; naive_solver].
  exists (before c ++ inorder l), (inorder r ++ after c). unfold entries. simpl. rewrite <- !app_assoc. split; [done|].
  destruct Ht as [[-> ->]|[-> ->]]; by rewrite ?app_nil_r.
Qed.

Lemma unlink_successor s c col l z k v r :
  holds s c (T col l z k v r) -> l <> E -> r <> E ->
  (exists N, rb N (plug c (T col l z k v r))) -> tcolor (plug c (T col l z k v r)) = Black ->
  exists s' cy c' t', delete_two_children s z = Ret (s', cy, addr t', caddr c') /\
    unlinked s s' (entries c (T col l z k v r)) (z, (k, v)) cy c' t'.
Proof.
  intros Hf Hl Hr [N HN] Hroot. pose proof Hf as Hfr. apply (focus_down _ _ (FR col l z k v)) in Hfr.
  pose proof (focus_fuel _ _ _ _ Hfr) as Hfuel.
  destruct (minimum_ok _ _ _ _ (tree_fuel s) Hfr Hr ltac:(lia)) as (c2 & cy & y & yk & yv & yr & -> & Hsp & Hmin).
  destruct (delete_two_children_run _ _ _ _ _ _ _ _ _ _ _ _ _ _ Hl Hf Hmin) as (s' & Hs & Hh & Hz & Hfl & Hout).
  exists s', cy, (c2 ++ FR col l y yk yv :: c), yr. split; [done|]. split_and!; [done|done|done|done| |].
  - exists (before c ++ inorder l), ((y, (yk, yv)) :: inorder yr ++ after (c2 ++ FR col l y yk yv :: c)).
    change (T col l z k v (plug c2 (T cy E y yk yv yr))) with (fplug (FR col l z k v) (plug c2 (T cy E y yk yv yr))).
    rewrite <- entries_frame, <- entries_app. unfold entries. rewrite !lspine_before by done. simpl.
    rewrite <- !app_assoc. simpl. split; [|done]. by rewrite (after_rename c2 col l z k v y yk yv).
  - replace (plug c (T col l z k v (plug c2 (T cy E y yk yv yr)))) with
      (plug (c2 ++ FR col l z k v :: c) (T cy E y yk yv yr)) in * by (by rewrite plug_app).
    destruct (rb_unplug _ _ _ HN Hroot) as (m & Hm & Hcm & _). apply (rbc_rename _ _ _ _ _ _ _ y yk yv) in Hcm.
    pose proof (rb_drop _ _ _ _ _ _ _ yr _ Hm ltac:(auto) Hcm) as Hd. destruct cy; naive_solver.
Qed.

(** Changes outside the tree keep it. *)
Lemma holds_ext s s' t :
  holds s [] t -> root s' = root s -> (forall a, a ∈ addrs t -> nodes s' !! a = nodes s !! a) -> holds s' [] t.
Proof.
  intros Hf Hr Hs. destruct (Hf) as [Hc Ht Hnd Hnz _ _]. constructor; try done.
  - simpl in *. congruence.
  - by eapply rep_ext.
Qed.

(** The repair after the structural part. *)
Lemma repair_ok s s1 old e col c t :
  unlinked s s1 old e col c t ->
  exists s2 t2, (if bool_decide (col = Black) then delete_fixup s1 (addr t) (caddr c) else Ret s1) = Ret s2 /\
    focus s1 s2 [] t2 /\ inorder t2 = entries c t /\ tcolor t2 = Black /\ exists n, rb n t2.
Proof.
  intros (Hh & _ & _ & _ & _ & n & Hn & Hc). destruct col; simpl.
  - destruct Hc as [Hc Hb]. destruct (rb_plug n c t Hc Hn) as [HN Hroot]; [by auto|].
    exists s1, (plug c t). split; [done|]. split; [apply focus_app; by rewrite app_nil_r|].
    split; [apply inorder_plug|]. split; [|done]. destruct Hroot as [->|?]; done.
  - apply delete_fixup_ok. split; [done|]. exists n. auto using rb_nearly.
Qed.

Definition node_removed (s s' : RBTree) (old : list entry) (e : entry) : Prop :=
  exists t' l1 l2, holds s' [] t' /\ tcolor t' = Black /\ (exists n, rb n t') /\
    old = l1 ++ e :: l2 /\ inorder t' = l1 ++ l2 /\ free_list s' = e.1 /\
    (exists n, nodes s' !! e.1 = Some n /\ left n = free_list s) /\
    (forall a, a ∉ old.*1 -> nodes s' !! a = nodes s !! a).

Lemma repair_and_free s s1 old e col c t :
  NoDup old.*1 -> unlinked s s1 old e col c t ->
  exists s', (s ← (if bool_decide (col = Black) then delete_fixup s1 (addr t) (caddr c) else Ret s1);
     free_node s e.1) = Ret s' /\ node_removed s s' old e.
Proof.
  intros Hnd Hu. destruct (repair_ok _ _ _ _ _ _ _ Hu) as (s2 & t2 & -> & Hf2 & He & Hb & Hrb). cbn [mbind outcome_bind].
  destruct Hu as (Hh & [nz Hz] & Hfl & Hout & (l1 & l2 & Hold & Hnew) & _).
  assert (Hout2 : e.1 ∉ (inorder t2).*1).
  { rewrite He, Hnew. rewrite Hold, fmap_app, fmap_cons, <- Permutation_middle, <- fmap_app in Hnd.
    by apply NoDup_cons in Hnd as [? _]. }
  assert (Hin : forall a, a ∉ (inorder t2).*1 -> nodes s2 !! a = nodes s1 !! a).
  { intros a Ha. apply (fo_frame _ _ _ _ Hf2). unfold entries. simpl. by rewrite app_nil_r. }
  unfold free_node. rewrite (set_left_ok _ _ nz) by (by rewrite Hin). cbn [mbind outcome_bind].
  eexists. split; [done|]. exists t2, l1, l2. split_and!; try done.
  - eapply (holds_ext s2); [by eapply focus_holds|done|]. intros a Ha. simpl. rewrite lookup_insert_ne; [done|].
    intros <-. done.
  - congruence.
  - simpl. rewrite lookup_insert_eq. eexists. split; [done|]. simpl. rewrite (fo_free _ _ _ _ Hf2). done.
  - intros a Ha. simpl. rewrite lookup_insert_ne.
    + rewrite Hin; [by apply Hout|]. rewrite He, Hnew. rewrite Hold in Ha.
      rewrite fmap_app, fmap_cons, not_elem_of_app, not_elem_of_cons in Ha. rewrite fmap_app, not_elem_of_app. tauto.
    + intros <-. apply Ha. rewrite Hold, fmap_app. apply elem_of_app. right. apply elem_of_cons. by left.
Qed.

Lemma addr_0 t : 0 ∉ addrs t -> addr t = 0 -> t = E.
Proof. destruct t as [|c l a k v r]; [done|]. rewrite elem_addrs_T. simpl. intros H ->. tauto. Qed.

Lemma delete_node_ok s c col l z k v r :
  holds s c (T col l z k v r) -> (exists N, rb N (plug c (T col l z k v r))) ->
  tcolor (plug c (T col l z k v r)) = Black ->
  exists s', delete_node s z = Ret s' /\ node_removed s s' (entries c (T col l z k v r)) (z, (k, v)).
Proof.
  intros Hf HN Hroot. destruct (focus_node _ _ _ _ _ _ _ _ _ Hf) as [Hz _].
  pose proof (fo_nodup _ _ _ _ Hf) as Hnd. unfold delete_node.
  pose proof (focus_0_notin _ _ _ _ Hf) as H0. rewrite elem_addrs_T in H0.
  repeat exec_one.
  destruct (addr l =? 0) eqn:El; [|destruct (addr r =? 0) eqn:Er].
  - apply Z.eqb_eq, addr_0 in El as ->; [|tauto].
    destruct (unlink_child _ _ _ _ _ _ _ _ r Hf ltac:(auto) HN Hroot) as (s1 & -> & Hu). cbn [mbind outcome_bind].
    by apply (repair_and_free _ _ _ (z, (k, v))).
  - apply Z.eqb_eq, addr_0 in Er as ->; [|tauto].
    destruct (unlink_child _ _ _ _ _ _ _ _ l Hf ltac:(auto) HN Hroot) as (s1 & -> & Hu). cbn [mbind outcome_bind].
    by apply (repair_and_free _ _ _ (z, (k, v))).
  - destruct (unlink_successor _ _ _ _ _ _ _ _ Hf) as (s1 & cy & c1 & t1 & -> & Hu); [by intros ->..|done|done|].
    cbn [mbind outcome_bind]. by apply (repair_and_free _ _ _ (z, (k, v))).
Qed.

(** ** The node pool *)

(** The free list from [h], linked by [left]. *)
Fixpoint chain (m : gmap Z Node) (h : Z) (l : list Z) : Prop :=
  match l with
  | [] => h = 0
  | a :: l' => h = a /\ exists n, m !! a = Some n /\ chain m (left n) l'
  end.

Lemma chain_ext m m' h l : (forall a, a ∈ l -> m' !! a = m !! a) -> chain m h l -> chain m' h l.
Proof.
  revert h. induction l as [|a l IH]; intros h Hm; [done|]. intros (-> & n & Hn & Hc). split; [done|].
  exists n. rewrite Hm by (apply elem_of_cons; by left). split; [done|]. apply IH; [|done].
  intros b Hb. apply Hm, elem_of_cons. by right.
Qed.

Lemma chain_elem m h l a : chain m h l -> a ∈ l -> is_Some (m !! a).
Proof.
  revert h. induction l as [|b l IH]; intros h Hc; [by intros ?%not_elem_of_nil|].
  destruct Hc as (_ & n & Hn & Hc). intros [->|Ha]%elem_of_cons; eauto.
Qed.

(** Linking another chain behind the last node. *)
Lemma chain_set_last m h l a n l' h' :
  chain m h (l ++ [a]) -> NoDup (l ++ a :: l') -> left n = h' -> chain m h' l' ->
  chain (<[a := n]> m) h (l ++ a :: l').
Proof.
  intros Hc Hnd Hn Hl'. revert h Hc Hnd. induction l as [|b l IH]; intros h Hc Hnd; simpl in *.
  - destruct Hc as (-> & _). split; [done|]. exists n. rewrite lookup_insert_eq. split; [done|]. rewrite Hn.
    eapply chain_ext; [|done]. intros b Hb. rewrite lookup_insert_ne; [done|]. intros <-.
    by apply NoDup_cons in Hnd as [? _].
  - destruct Hc as (-> & nb & Hb & Hc). apply NoDup_cons in Hnd as [Hnb Hnd]. split; [done|].
    exists nb. rewrite lookup_insert_ne; [auto|]. intros <-. apply Hnb. set_solver.
Qed.

(** The addresses of [n] nodes from [p] on. *)
Fixpoint slots (p : Z) (n : nat) : list Z :=
  match n with O => [] | S n' => p :: slots (p + Node_SIZE) n' end.

Lemma elem_slots p n a : a ∈ slots p n -> p <= a < p + Z.of_nat n * Node_SIZE.
Proof.
  unfold Node_SIZE. revert p. induction n as [|n IH]; intros p; [by intros ?%not_elem_of_nil|].
  cbn [slots]. intros [->|Ha]%elem_of_cons; [lia|]. apply IH in Ha. unfold Node_SIZE in Ha. lia.
Qed.

Lemma slots_nodup p n : NoDup (slots p n).
Proof.
  revert p. induction n as [|n IH]; intros p; cbn [slots]; constructor; [|done].
  intros Ha%elem_slots. unfold Node_SIZE in Ha. lia.
Qed.

Lemma slots_snoc p n : slots p (S n) = slots p n ++ [p + Z.of_nat n * Node_SIZE].
Proof.
  revert p. induction n as [|n IH]; intros p; [simpl; f_equal; lia|].
  change (slots p (S (S n))) with (p :: slots (p + Node_SIZE) (S n)). rewrite IH. simpl. do 2 f_equal.
  f_equal. unfold Node_SIZE. lia.
Qed.

Lemma map_nodes_lookup n p m a :
  map_nodes n p m !! a = if decide (a ∈ slots p n) then Some zero_node else m !! a.
Proof.
  revert p. induction n as [|n IH]; intros p; cbn [map_nodes slots]; [done|].
  rewrite lookup_insert, IH. destruct (decide (p = a)) as [->|Hne].
  - rewrite decide_True; [done|]. apply elem_of_cons. by left.
  - destruct (decide (a ∈ slots (p + Node_SIZE) n)) as [Hin|Hin].
    + rewrite decide_True; [done|]. apply elem_of_cons. by right.
    + rewrite decide_False; [done|]. rewrite elem_of_cons. naive_solver.
Qed.

Lemma link_nodes_ok n s ptr i :
  i + Z.of_nat n = NODE_CHUNK -> (forall a, a ∈ slots (ptr + i * Node_SIZE) n -> is_Some (nodes s !! a)) ->
  exists s', link_nodes n s ptr i = Ret s' /\ root s' = root s /\ free_list s' = free_list s /\
    (forall a, a ∉ slots (ptr + i * Node_SIZE) n -> nodes s' !! a = nodes s !! a) /\
    (forall h, h = (if decide (n = O) then 0 else ptr + i * Node_SIZE) -> chain (nodes s') h (slots (ptr + i * Node_SIZE) n)).
Proof.
  revert s i. induction n as [|n IH]; intros s i Hi Hs; cbn [link_nodes slots].
  { exists s. by split_and!. }
  destruct (Hs (ptr + i * Node_SIZE)) as [nd Hnd]; [apply elem_of_cons; by left|].
  rewrite (set_left_ok _ _ _ Hnd). cbn [mbind outcome_bind].
  replace (ptr + i * Node_SIZE + Node_SIZE) with (ptr + (i + 1) * Node_SIZE) by lia.
  set (s1 := with_node _ _ _).
  assert (Hne : ptr + i * Node_SIZE ∉ slots (ptr + (i + 1) * Node_SIZE) n)
    by (intros Ha%elem_slots; unfold Node_SIZE in Ha; lia).
  destruct (IH s1 (i + 1)) as (s2 & Hl & Hr & Hf & Hout & Hch); [lia|..].
  { intros a Ha. simpl. rewrite lookup_insert_ne by congruence. apply Hs, elem_of_cons. right.
    replace (ptr + i * Node_SIZE + Node_SIZE) with (ptr + (i + 1) * Node_SIZE) by lia. done. }
  exists s2. split_and!; [done..| |].
  - intros a [Ha1 Ha2]%not_elem_of_cons. rewrite Hout by done. simpl. by rewrite lookup_insert_ne.
  - intros h ->. rewrite decide_False by done. split; [done|]. rewrite Hout by done. simpl. rewrite lookup_insert_eq.
    eexists. split; [done|]. cbn [left]. apply Hch. unfold NODE_CHUNK in *.
    destruct (decide (n = O)); destruct (i + 1 <? 1024) eqn:?; done || lia.
Qed.

(** The six writes that initialise a node. *)
Lemma init_node_ok s a n ky v :
  nodes s !! a = Some n ->
  (s ← set_key s a ky; s ← set_meta s a v; s ← set_left s a 0; s ← set_right s a 0;
   s ← set_parent s a 0; set_color s a Red) = Ret (with_node s a (mkNode ky v 0 0 0 Red)).
Proof.
  intros Hn. rewrite (set_key_ok _ _ _ Hn). cbn [mbind outcome_bind].
  do 5 (unfold set_meta, set_left, set_right, set_parent, set_color;
    erewrite update_ok by apply lookup_insert_eq; cbn [mbind outcome_bind]).
  unfold with_node. simpl. by rewrite !insert_insert_eq.
Qed.

Section Pool.
Context {K : Type} `{!Kernel K} `{!KernelSpec K}.
Implicit Types (k : K).

(** The free list [fl], and every node in mapped memory. *)
Record pool_ok (s : RBTree) (k : K) (fl : list Z) : Prop := {
  po_chain : chain (nodes s) (free_list s) fl;
  po_nodup : NoDup fl;
  po_nz : 0 ∉ fl;
  po_mapped a : is_Some (nodes s !! a) -> mapped k a;
  po_process : mapped k VSYSCALL;
}.

(** Nodes in use are untouched and stay out of the free list. *)
Definition keeps (s s' : RBTree) (fl fl' : list Z) : Prop :=
  root s' = root s /\ forall a, is_Some (nodes s !! a) -> a ∉ fl -> a ∉ fl' /\ nodes s' !! a = nodes s !! a.

Lemma alloc_chunk_ok s k :
  pool_ok s k [] ->
  match alloc_chunk s k with
  | Ret (s', k') => exists fl, pool_ok s' k' fl /\ fl <> [] /\ keeps s s' [] fl
  | Fatal e => e = OutOfMemory
  | Stuck => False
  end.
Proof.
  intros [Hc _ _ Hm Hv]. unfold alloc_chunk.
  destruct (mmap_anonymous (NODE_CHUNK * Node_SIZE) k) as [[ptr|] k'] eqn:Hk; [|done].
  destruct (mmap_some (NODE_CHUNK * Node_SIZE) k ptr k' ltac:(done) Hv Hk) as (Hp & _ & _ & Hfresh & Hmap).
  change (round_up (NODE_CHUNK * Node_SIZE) 4096) with 98304 in *.
  set (s1 := mkRBTree _ _ _). set (fl := slots ptr (Z.to_nat NODE_CHUNK)).
  assert (Hfl : forall a, a ∈ fl -> ptr <= a < ptr + 98304) by (intros a Ha%elem_slots; exact Ha).
  assert (Hs1 : forall a, nodes s1 !! a = if decide (a ∈ fl) then Some zero_node else nodes s !! a)
    by (intros; apply map_nodes_lookup).
  destruct (link_nodes_ok (Z.to_nat NODE_CHUNK) s1 ptr 0) as (s2 & -> & Hr2 & Hf2 & Hout & Hch);
    [done|intros a Ha; rewrite Hs1, decide_True; [done|by rewrite Z.add_0_r in Ha]|].
  rewrite Z.add_0_r in *. fold fl in Hout, Hch. specialize (Hch ptr eq_refl). cbn [mbind outcome_bind].
  assert (Hsplit : fl = slots ptr 1023 ++ [ptr + (NODE_CHUNK - 1) * Node_SIZE]) by apply (slots_snoc ptr 1023).
  set (last := ptr + (NODE_CHUNK - 1) * Node_SIZE) in *.
  assert (Hlast : last ∈ fl) by (rewrite Hsplit; apply elem_of_app; right; by apply list_elem_of_singleton).
  destruct (chain_elem _ _ _ _ Hch Hlast) as [nl Hnl]. rewrite (set_left_ok _ _ _ Hnl). cbn [mbind outcome_bind].
  simpl in Hc. rewrite Hsplit in Hch.
  assert (Hnew : forall a, a ∉ fl -> nodes (with_node s2 last (mkNode (key nl) (meta nl) (free_list s2) (right nl) (parent nl) (color nl))) !! a = nodes s !! a).
  { intros a Ha. simpl. rewrite lookup_insert_ne by congruence. by rewrite Hout, Hs1, decide_False. }
  exists fl. split; [constructor|split; [by rewrite Hsplit; destruct (slots ptr 1023)|split; [done|]]].
  - rewrite Hsplit. apply (chain_set_last _ _ _ _ _ _ 0); [done|rewrite <- Hsplit; apply slots_nodup| |done].
    simpl. by rewrite Hf2.
  - apply slots_nodup.
  - intros Ha%Hfl. lia.
  - intros a Ha. apply Hmap. destruct (decide (a ∈ fl)) as [Hin|Hin]; [right; auto|left].
    apply Hm. by rewrite <- Hnew.
  - apply Hmap. by left.
  - intros a Ha _. assert (a ∉ fl) by (intros Hin; apply (Hfresh a); auto). split; [assumption|apply Hnew; assumption].
Qed.

Lemma alloc_node_ok s k fl ky v :
  pool_ok s k fl ->
  match alloc_node s k ky v with
  | Ret (z, s', k') => exists fl', pool_ok s' k' fl' /\ nodes s' !! z = Some (mkNode ky v 0 0 0 Red) /\
      z <> 0 /\ z ∉ fl' /\ keeps s s' fl (z :: fl')
  | Fatal e => e = OutOfMemory
  | Stuck => False
  end.
Proof.
  intros Hp. unfold alloc_node.
  assert (Hpre : match (if free_list s =? 0 then alloc_chunk s k else Ret (s, k)) with
    | Ret (s1, k1) => exists a fl1, pool_ok s1 k1 (a :: fl1) /\ keeps s s1 fl (a :: fl1)
    | Fatal e => e = OutOfMemory | Stuck => False end).
  { pose proof (po_chain _ _ _ Hp) as Hc. destruct fl as [|a fl]; simpl in Hc.
    - rewrite Hc. pose proof (alloc_chunk_ok s k Hp) as Hch. simpl.
      destruct (alloc_chunk s k) as [[s1 k1]| |]; [|done..]. destruct Hch as ([|a fl] & Hp1 & Hne & Hk); [done|]. eauto.
    - destruct Hc as (-> & n & Hn & _). pose proof (po_nz _ _ _ Hp) as Hz. rewrite not_elem_of_cons in Hz.
      destruct (a =? 0) eqn:?; [lia|]. exists a, fl. split; [done|]. split; [done|auto]. }
  destruct (if free_list s =? 0 then _ else _) as [[s1 k1]| |]; [|done..]. clear Hp.
  destruct Hpre as (a & fl1 & [(Ha & n & Hn & Hch) Hnd Hz Hm Hv] & Hr & Hkeep). cbn [mbind outcome_bind].
  rewrite Ha. exec_one. rewrite not_elem_of_cons in Hz. apply NoDup_cons in Hnd as [Hafl Hnd].
  pose proof (init_node_ok (set_free_list s1 (left n)) a n ky v Hn) as Hinit. run_ret Hinit.
  exists fl1. split; [constructor; try done|].
  - simpl. eapply chain_ext; [|done]. intros b Hb. rewrite lookup_insert_ne; [done|congruence].
  - tauto.
  - intros b Hb. apply Hm. simpl in Hb. rewrite lookup_insert in Hb. case_decide; [subst; eauto|done].
  - split; [apply lookup_insert_eq|]. split; [naive_solver|]. split; [done|]. split; [done|].
    intros b Hb Hbf. destruct (Hkeep b Hb Hbf) as [Hnin Hsame]. split; [done|]. simpl. rewrite lookup_insert_ne; [done|].
    intros ->. apply Hnin, elem_of_cons. by left.
Qed.

(** ** Refinement of a finite map *)

(** The tree [t] held by [s], with everything but the pool. *)
Definition holds_rb (s : RBTree) (t : tree) : Prop :=
  holds s [] t /\ tcolor t = Black /\ (exists n, rb n t) /\ sorted (inorder t).

(** The state [s] implements the map [M]. *)
Definition tree_ok (s : RBTree) (k : K) (M : gmap Z BigAllocMeta) : Prop :=
  exists t fl, holds_rb s t /\ pool_ok s k fl /\ (forall a, a ∈ fl -> a ∉ addrs t) /\ M = to_map (inorder t).

Lemma RBTree_new_ok k : mapped k VSYSCALL -> tree_ok RBTree_new k ∅.
Proof.
  intros Hv.
  exists E, []. split; [|split; [constructor|split; [by intros ? ?%not_elem_of_nil|done]]].
  - split; [constructor; try done; [apply NoDup_nil_2|apply not_elem_of_nil]|].
    split; [done|]. split; [exists O|]; constructor.
  - done.
  - apply NoDup_nil_2.
  - apply not_elem_of_nil.
  - by intros a [n Hn].
  - done.
Qed.

(** A landed search decides the map. *)
Lemma lands_lookup t ky c t' :
  lands ky t c t' -> sorted (inorder t) ->
  to_map (inorder t) !! ky = match t' with E => None | T _ _ _ _ v _ => Some v end.
Proof.
  intros (-> & Hp & Hk) Hs. rewrite inorder_plug in *. destruct t' as [|col l a k' v r].
  - destruct (passed_bounds _ _ _ Hp Hs) as [Hb Ha]. apply to_map_lookup_None. unfold entries. simpl.
    rewrite !fmap_app, elem_of_app, !Forall_forall in *. intros [Hin|Hin]; [specialize (Hb _ Hin)|specialize (Ha _ Hin)]; lia.
  - subst k'. unfold entries in *. simpl in *. rewrite <- app_assoc in *. simpl in *. rewrite app_assoc in *.
    apply (to_map_lookup _ (a, (ky, v))), Hs.
Qed.

Lemma find_node_ok s t ky :
  holds s [] t -> exists c t', lands ky t c t' /\ find_node s ky = Ret (addr t') /\ holds s c t'.
Proof.
  intros Hf. pose proof (focus_fuel _ _ _ _ Hf) as Hfuel. pose proof (height_inorder t).
  destruct (find_loop_ok s s ky t [] (tree_fuel s) Hf) as (c & t' & Hl & Hs); [simpl in Hfuel; lia|].
  exists c, t'. split; [done|]. unfold find_node. replace (root s) with (addr t) by (symmetry; apply Hf).
  split; [done|]. destruct Hl as (-> & _). apply focus_app in Hf. by rewrite app_nil_r in Hf.
Qed.

(** Overwriting the metadata of a node. *)
Lemma set_meta_holds s c col l a ky v r v' :
  holds s c (T col l a ky v r) -> holds_rb s (plug c (T col l a ky v r)) ->
  exists s', set_meta s a v' = Ret s' /\ free_list s' = free_list s /\
    (forall b, b ∉ (entries c (T col l a ky v r)).*1 -> nodes s' !! b = nodes s !! b) /\
    holds_rb s' (plug c (T col l a ky v' r)).
Proof.
  intros Hf (_ & Hb & [n Hrb] & Hs). destruct (focus_set_meta _ _ _ _ _ _ _ _ _ v' Hf) as (s' & Hset & Hf').
  exists s'. split; [done|]. split; [apply Hf'|]. split.
  { intros b Hin. rewrite (fo_frame _ _ _ _ Hf' b); [done|]. rewrite entries_perm, addrs_T in *. done. }
  destruct (rb_unplug _ _ _ Hrb Hb) as (m & Hm & Hc & Htop).
  assert (Hm' : rb m (T col l a ky v' r)) by (inversion Hm; subst; by constructor).
  destruct (rb_plug m c _ Hc Hm') as [Hn' Hroot].
  { destruct col; simpl in *; auto. }
  split_and!; [|destruct Hroot as [->|?]; [|done]|done|].
  - apply focus_holds with s. apply focus_app. by rewrite app_nil_r.
  - simpl in *. done.
  - rewrite inorder_plug in *. unfold sorted, entries in *. simpl in *. by rewrite !fmap_app in *.
Qed.

(** Changes confined to nodes in use keep the pool. *)
Lemma pool_transfer s s' k fl (A : list Z) :
  pool_ok s k fl -> free_list s' = free_list s ->
  (forall a, a ∉ A -> nodes s' !! a = nodes s !! a) ->
  (forall a, a ∈ A -> a ∉ fl /\ is_Some (nodes s !! a)) -> pool_ok s' k fl.
Proof.
  intros [Hc Hnd Hz Hm Hv] Hfl Hout HA. constructor; try done.
  - rewrite Hfl. eapply chain_ext; [|done]. intros a Ha. apply Hout. intros Hin. by destruct (HA a Hin).
  - intros a Ha. apply Hm. destruct (decide (a ∈ A)) as [Hin|Hin]; [by apply HA|]. by rewrite <- Hout.
Qed.

(** Hanging the new node [z] below the last frame of the search. *)
Lemma attach_ok s c z ky v :
  holds s c E -> z ∉ caddrs c -> z <> 0 -> nodes s !! z = Some (mkNode ky v 0 0 0 Red) -> passed ky c ->
  exists s', (s ← set_parent s z (caddr c);
      if caddr c =? null then Ret (set_root s z)
      else yk ← get_key s (caddr c); if ky <? yk then set_left s (caddr c) z else set_right s (caddr c) z) = Ret s' /\
    holds s' c (T Red E z ky v E) /\ free_list s' = free_list s /\
    forall a, a <> z -> a ∉ caddrs c -> nodes s' !! a = nodes s !! a.
Proof.
  intros Hf Hzc Hz0 Hz Hp. pose proof (focus_distinct _ _ _ _ Hf) as (_ & Hndc & _ & _ & Hzc0).
  pose proof (fo_ctx _ _ _ _ Hf) as Hc. rewrite (set_parent_ok _ _ _ Hz). cbn [mbind outcome_bind key meta left right color].
  set (s1 := with_node _ _ _).
  assert (Hs1 : forall a, a <> z -> nodes s1 !! a = nodes s !! a) by (intros; by apply lookup_insert_ne).
  assert (Hz1 : nodes s1 !! z = Some (mkNode ky v 0 0 (caddr c) Red)) by apply lookup_insert_eq.
  assert (Hc1 : repc (nodes s1) (root s1) 0 c) by (eapply repc_ext; [|exact Hc]; intros; apply Hs1; congruence).
  assert (Hgoal : forall s', repc (nodes s') (root s') z c -> nodes s' !! z = nodes s1 !! z ->
    free_list s' = free_list s1 -> (forall a, a <> z -> a ∉ caddrs c -> nodes s' !! a = nodes s1 !! a) ->
    holds s' c (T Red E z ky v E) /\ free_list s' = free_list s /\
    forall a, a <> z -> a ∉ caddrs c -> nodes s' !! a = nodes s !! a).
  { intros s' Hc' Hz' Hfl Hout. split_and!; [|done|intros; by rewrite Hout, Hs1].
    apply holds_intro; try done; [simpl; by rewrite Hz', Hz1|..]; unfold addrs; simpl; [by apply NoDup_singleton|..];
      [intros H0%list_elem_of_singleton; congruence|by intros a ->%list_elem_of_singleton]. }
  clearbody s1. destruct c as [|[col a fk fv r|col l a fk fv] c]; cbn [caddr faddr]; simpl in Hc1.
  { eexists. split; [done|]. by apply Hgoal. }
  all: rewrite ?elem_caddrs_FL, ?elem_caddrs_FR in *; apply NoDup_caddrs_cons in Hndc as (Hndc & Hac & Hat & _); simpl in Hac;
    destruct Hc1 as (Ha & Ht & Hc1); inversion Hp as [|? ? Hlt _]; subst;
    (destruct (a =? 0) eqn:?; [lia|]); exec_one.
  - destruct (ky <? fk) eqn:?; [|lia]. rewrite (set_left_ok _ _ _ Ha). eexists. split; [done|].
    apply Hgoal; simpl; [|by rewrite lookup_insert_ne by naive_solver|done|].
    + rewrite lookup_insert_eq. split_and!; [done|eapply rep_ext; [|done]|eapply repc_ext; [|done]];
        intros b Hb; (rewrite lookup_insert_ne; [done|congruence]).
    + intros b Hb. rewrite elem_caddrs_FL. intros Hb'. rewrite lookup_insert_ne; [done|naive_solver].
  - destruct (ky <? fk) eqn:?; [lia|]. rewrite (set_right_ok _ _ _ Ha). eexists. split; [done|].
    apply Hgoal; simpl; [|by rewrite lookup_insert_ne by naive_solver|done|].
    + rewrite lookup_insert_eq. split_and!; [done|eapply rep_ext; [|done]|eapply repc_ext; [|done]];
        intros b Hb; (rewrite lookup_insert_ne; [done|congruence]).
    + intros b Hb. rewrite elem_caddrs_FR. intros Hb'. rewrite lookup_insert_ne; [done|naive_solver].
Qed.

(** The state after the repair implements the extended map. *)
Lemma insert_finished s1 s2 s3 k c z ky v t fl :
  pool_ok s1 k fl -> z ∉ fl -> is_Some (nodes s1 !! z) -> passed ky c -> sorted (entries c E) ->
  (forall a, a ∈ (entries c E).*1 -> a ∉ z :: fl /\ is_Some (nodes s1 !! a)) ->
  free_list s2 = free_list s1 -> (forall a, a <> z -> a ∉ caddrs c -> nodes s2 !! a = nodes s1 !! a) ->
  focus s2 s3 [] t -> inorder t = entries c (T Red E z ky v E) -> tcolor t = Black -> (exists n, rb n t) ->
  tree_ok s3 k (<[ky := v]> (to_map (entries c E))).
Proof.
  intros Hpool Hz Hzs Hp Hs Hold Hfl Hout Hf Hin Hb Hrb.
  assert (Hent : entries c (T Red E z ky v E) = before c ++ (z, (ky, v)) :: after c) by done.
  destruct (passed_bounds _ _ _ Hp Hs) as [Hlo Hhi].
  assert (Hs' : sorted (before c ++ (z, (ky, v)) :: after c)) by (by apply sorted_split).
  assert (Hmem : forall a, a ∈ (inorder t).*1 <-> a = z \/ a ∈ (entries c E).*1).
  { intros a. rewrite Hin, Hent. unfold entries. simpl. rewrite !fmap_app, fmap_cons, !elem_of_app, elem_of_cons. simpl. tauto. }
  exists t, fl. split; [|split; [|split]].
  - split; [by eapply focus_holds|]. split; [done|]. split; [done|]. by rewrite Hin, Hent.
  - apply (pool_transfer s1 s3 k fl ((inorder t).*1)); [done|by rewrite (fo_free _ _ _ _ Hf)|..].
    + intros a Ha. rewrite (fo_frame _ _ _ _ Hf) by (unfold entries; simpl; by rewrite app_nil_r).
      rewrite Hmem, elem_entries in Ha. apply Hout; tauto.
    + intros a [->|Ha]%Hmem; [done|]. destruct (Hold a Ha) as [Hn ?]. rewrite not_elem_of_cons in Hn. tauto.
  - intros a Ha [->|Hin']%Hmem; [done|]. destruct (Hold a Hin') as [Hn _]. apply Hn, elem_of_cons. by right.
  - rewrite Hin, Hent, (to_map_middle _ _ _ Hs'). done.
Qed.

(** The tail of [tree_insert]: a fresh node at an empty place. *)
Lemma insert_fresh s k c ky v fl :
  holds s c E -> holds_rb s (plug c E) -> passed ky c -> pool_ok s k fl ->
  (forall a, a ∈ fl -> a ∉ addrs (plug c E)) ->
  match ('(z, s, k) ← alloc_node s k ky v;
      s ← set_parent s z (caddr c);
      s ← (if caddr c =? null then Ret (set_root s z)
           else yk ← get_key s (caddr c); if ky <? yk then set_left s (caddr c) z else set_right s (caddr c) z);
      s ← insert_fixup s z; Ret (s, k)) with
  | Ret (s', k') => tree_ok s' k' (<[ky := v]> (to_map (inorder (plug c E))))
  | Fatal e => e = OutOfMemory
  | Stuck => False
  end.
Proof.
  intros Hf (_ & Hb & [N HN] & Hs) Hp Hpool Hdis. pose proof (alloc_node_ok s k fl ky v Hpool) as Halloc.
  destruct (alloc_node s k ky v) as [[[z s1] k1]| |]; [|done..]. cbn [mbind outcome_bind].
  destruct Halloc as (fl1 & Hpool1 & Hz1 & Hz0 & Hzfl & Hr1 & Hkeep).
  rewrite inorder_plug in *. unfold addrs in Hdis. rewrite inorder_plug in Hdis.
  assert (Hold : forall a, a ∈ (entries c E).*1 -> a ∉ z :: fl1 /\ nodes s1 !! a = nodes s !! a).
  { intros a Ha. apply Hkeep; [by eapply focus_dom|]. intros Hin. by apply (Hdis a). }
  assert (Hf1 : holds s1 c E).
  { destruct Hf as [Hc Ht Hnd Hnz _ _]. constructor; try done. rewrite Hr1.
    eapply repc_ext; [|done]. intros a Ha. apply Hold. rewrite elem_entries. by right. }
  destruct (attach_ok s1 c z ky v Hf1) as (s2 & Hatt & Hf2 & Hfl2 & Hout2); try done.
  { intros Hin. destruct (Hold z) as [Hnin _]; [rewrite elem_entries; by right|]. apply Hnin, elem_of_cons. by left. }
  run_ret Hatt.
  destruct (rb_unplug _ _ _ HN Hb) as (n & Hn & Hc & _). inversion Hn; subst.
  destruct (insert_fixup_ok s2 s2 c (T Red E z ky v E)) as (s3 & t3 & Hfix & Hf3 & Hin & Hb3 & Hrb3).
  { split; [done|]. split; [done|]. exists O. split; [|done]. repeat constructor. }
  cbn [addr] in Hfix. rewrite Hfix. cbn [mbind outcome_bind].
  apply (insert_finished s1 s2 s3 k1 c z ky v t3 fl1); try done.
  intros b Hb'. destruct (Hold b Hb') as [? ->]. split; [done|]. by eapply focus_dom.
Qed.

(** A tree whose metadata was overwritten, with its pool. *)
Lemma tree_ok_set s s' k fl c col l a ky v r v' :
  holds s c (T col l a ky v r) -> pool_ok s k fl -> (forall b, b ∈ fl -> b ∉ (entries c (T col l a ky v r)).*1) ->
  sorted (entries c (T col l a ky v r)) ->
  free_list s' = free_list s -> (forall b, b ∉ (entries c (T col l a ky v r)).*1 -> nodes s' !! b = nodes s !! b) ->
  holds_rb s' (plug c (T col l a ky v' r)) ->
  tree_ok s' k (<[ky := v']> (to_map (entries c (T col l a ky v r)))).
Proof.
  intros Hf Hpool Hdis Hs Hfl Hout Hrb. exists (plug c (T col l a ky v' r)), fl. split; [done|].
  assert (Hent : forall w, entries c (T col l a ky w r) = (before c ++ inorder l) ++ (a, (ky, w)) :: inorder r ++ after c).
  { intros w. unfold entries. simpl. by rewrite <- !app_assoc. }
  assert (Hmem : (entries c (T col l a ky v' r)).*1 = (entries c (T col l a ky v r)).*1) by (by rewrite !Hent, !fmap_app).
  split; [|split].
  - apply (pool_transfer s s' k fl (entries c (T col l a ky v r)).*1); try done.
    intros b Hb. split; [intros Hin; by apply (Hdis b)|by eapply focus_dom].
  - intros b Hb. unfold addrs. rewrite inorder_plug, Hmem. auto.
  - destruct Hrb as (_ & _ & _ & Hs'). rewrite inorder_plug in *. rewrite !Hent in *.
    rewrite (to_map_middle _ _ _ Hs), (to_map_middle _ _ _ Hs'). simpl. by rewrite insert_insert_eq.
Qed.

(** A removed node goes to the head of the free list. *)
Lemma removed_ok s s' k fl c t e :
  node_removed s s' (entries c t) e -> holds s c t -> pool_ok s k fl ->
  (forall a, a ∈ fl -> a ∉ (entries c t).*1) -> sorted (entries c t) ->
  tree_ok s' k (delete e.2.1 (to_map (entries c t))).
Proof.
  intros (t' & l1 & l2 & Hh & Hb & Hrb & Hold & Hnew & Hfl & (n & Hn & Hleft) & Hout) Hf [Hc Hnd Hz Hm Hv] Hdis Hs.
  pose proof (fo_nodup _ _ _ _ Hf) as Hnd'. pose proof (fo_nz _ _ _ _ Hf) as Hnz.
  assert (He : e.1 ∈ (entries c t).*1) by (rewrite Hold, fmap_app; apply elem_of_app; right; apply elem_of_cons; by left).
  assert (Hsub : forall a, a ∈ (inorder t').*1 -> a ∈ (entries c t).*1 /\ a <> e.1).
  { intros a Ha. rewrite Hnew in Ha. rewrite Hold, fmap_app, fmap_cons, <- Permutation_middle, <- fmap_app in Hnd' |- *.
    apply NoDup_cons in Hnd' as [Hne _]. split; [apply elem_of_cons; by right|]. intros ->. done. }
  exists t', (e.1 :: fl). split; [|split; [constructor|split]].
  - split_and!; [done..|]. rewrite Hnew. rewrite Hold in Hs. by apply sorted_split in Hs as [? _].
  - simpl. split; [done|]. exists n. split; [done|]. rewrite Hleft. eapply chain_ext; [|done]. intros a Ha. apply Hout. auto.
  - apply NoDup_cons. split; [|done]. intros Hin. by apply (Hdis e.1).
  - rewrite not_elem_of_cons. split; [|done]. intros Heq. rewrite Heq in Hnz. done.
  - intros a Ha. apply Hm. destruct (decide (a ∈ (entries c t).*1)) as [Hin|Hin]; [by eapply focus_dom|]. by rewrite <- Hout.
  - done.
  - intros a [->|Ha]%elem_of_cons Hin; apply Hsub in Hin as [Hin Hne]; [done|]. by apply (Hdis a).
  - rewrite Hnew. rewrite Hold in *. symmetry. by apply to_map_remove.
Qed.

(** ** The operations on the map *)

(** A lookup returns what the map holds. *)
Lemma get_ok (s : RBTree) (k : K) (M : gmap Z BigAllocMeta) (ky : Z) (Hok : tree_ok s k M) :
  get s ky = Ret (M !! ky).
Proof.
  destruct Hok as (t & fl & (Hf & _ & _ & Hs) & _ & _ & ->).
  destruct (find_node_ok s t ky Hf) as (c & t' & Hl & Hfind & Hf'). unfold get. rewrite Hfind.
  cbn [mbind outcome_bind]. rewrite (lands_lookup _ _ _ _ Hl Hs). destruct t' as [|col l a k' v r]; [done|].
  destruct (focus_node _ _ _ _ _ _ _ _ _ Hf') as [Ha Ha0]. cbn [addr]. destruct (a =? 0) eqn:?; [lia|]. by exec_one.
Qed.

(** An insertion extends the map, unless no node can be mapped. *)
Lemma insert_ok (s : RBTree) (k : K) (M : gmap Z BigAllocMeta) (ky : Z) (v : BigAllocMeta)
    (Hok : tree_ok s k M) :
  match insert s k ky v with
  | Ret (s', k') => tree_ok s' k' (<[ky := v]> M)
  | Fatal e => e = OutOfMemory
  | Stuck => False
  end.
Proof.
  destruct Hok as (t & fl & (Hf & Hb & Hrb & Hs) & Hpool & Hdis & ->). unfold insert, tree_insert.
  pose proof (focus_fuel _ _ _ _ Hf) as Hfuel. pose proof (height_inorder t).
  destruct (insert_descend_ok s s ky v t [] (tree_fuel s) Hf) as (c & t' & (-> & Hp & Hk) & Hd); [simpl in Hfuel; lia|].
  replace (root s) with (addr (plug c t')) by (symmetry; apply Hf). cbn [caddr] in Hd. rewrite Hd, app_nil_r.
  assert (Hf' : holds s c t') by (apply focus_app in Hf; by rewrite app_nil_r in Hf).
  destruct t' as [|col l a k' v0 r].
  - by apply insert_fresh with fl.
  - subst k'. unfold descended. destruct (set_meta_holds s c col l a ky v0 r v Hf') as (s' & -> & Hfl & Hout & Hrb'); [done|].
    simpl. rewrite inorder_plug in *. unfold addrs in Hdis. rewrite inorder_plug in Hdis. by eapply tree_ok_set.
Qed.

(** Replacing updates a present key. *)
Lemma replace_ok (s : RBTree) (k : K) (M : gmap Z BigAllocMeta) (ky : Z) (v : BigAllocMeta)
    (Hok : tree_ok s k M) :
  exists s', replace s ky v = Ret (M !! ky, s') /\
    tree_ok s' k (if decide (is_Some (M !! ky)) then <[ky := v]> M else M).
Proof.
  destruct (Hok) as (t & fl & (Hf & Hb & Hrb & Hs) & Hpool & Hdis & HM).
  destruct (find_node_ok s t ky Hf) as (c & t' & Hl & Hfind & Hf'). unfold replace. rewrite Hfind.
  cbn [mbind outcome_bind]. pose proof (lands_lookup _ _ _ _ Hl Hs) as Hlk. rewrite <- HM in Hlk. rewrite Hlk.
  destruct t' as [|col l a k' v0 r].
  - exists s. split; [done|]. by rewrite decide_False by (by intros []).
  - destruct (focus_node _ _ _ _ _ _ _ _ _ Hf') as [Ha Ha0]. cbn [addr]. destruct (a =? 0) eqn:?; [lia|]. exec_one.
    destruct Hl as (-> & _ & ->). destruct (set_meta_holds s c col l a ky v0 r v Hf') as (s' & -> & Hfl & Hout & Hrb'); [done|].
    exists s'. split; [done|]. rewrite decide_True by done. rewrite HM. rewrite inorder_plug in *.
    unfold addrs in Hdis. rewrite inorder_plug in Hdis. by eapply tree_ok_set.
Qed.

(** A removal deletes the key. *)
Lemma remove_ok (s : RBTree) (k : K) (M : gmap Z BigAllocMeta) (ky : Z) (Hok : tree_ok s k M) :
  exists s', remove s ky = Ret (M !! ky, s') /\ tree_ok s' k (delete ky M).
Proof.
  destruct (Hok) as (t & fl & (Hf & Hb & Hrb & Hs) & Hpool & Hdis & HM).
  destruct (find_node_ok s t ky Hf) as (c & t' & Hl & Hfind & Hf'). unfold remove. rewrite Hfind.
  cbn [mbind outcome_bind]. pose proof (lands_lookup _ _ _ _ Hl Hs) as Hlk. rewrite <- HM in Hlk. rewrite Hlk.
  destruct t' as [|col l a k' v0 r].
  - exists s. split; [done|]. by rewrite delete_id.
  - destruct (focus_node _ _ _ _ _ _ _ _ _ Hf') as [Ha Ha0]. cbn [addr]. destruct (a =? 0) eqn:?; [lia|]. exec_one.
    destruct Hl as (-> & _ & ->). destruct (delete_node_ok s c col l a ky v0 r Hf' Hrb Hb) as (s' & -> & Hrem).
    exists s'. split; [done|]. rewrite HM, inorder_plug in *. unfold addrs in Hdis. rewrite inorder_plug in Hdis.
    by eapply (removed_ok s s' k fl _ _ (a, (ky, v0))).
Qed.

(** A well-formed tree: sorted, red-black, with a sound node pool. *)
Definition tree_wf (s : RBTree) (k : K) : Prop := exists M, tree_ok s k M.

(** ** Sequences of operations *)

Inductive op :=
  | OpInsert (ky : Z) (v : BigAllocMeta)
  | OpGet (ky : Z)
  | OpReplace (ky : Z) (v : BigAllocMeta)
  | OpRemove (ky : Z).

Definition run_op (s : RBTree) (k : K) (o : op) : outcome (option BigAllocMeta * RBTree * K) :=
  match o with
  | OpInsert ky v => '(s, k) ← insert s k ky v; Ret (None, s, k)
  | OpGet ky => r ← get s ky; Ret (r, s, k)
  | OpReplace ky v => '(r, s) ← replace s ky v; Ret (r, s, k)
  | OpRemove ky => '(r, s) ← remove s ky; Ret (r, s, k)
  end.

Fixpoint run_ops (s : RBTree) (k : K) (os : list op) : outcome (list (option BigAllocMeta) * RBTree * K) :=
  match os with
  | [] => Ret ([], s, k)
  | o :: os' =>
      '(r, s, k) ← run_op s k o;
      '(rs, s, k) ← run_ops s k os';
      Ret (r :: rs, s, k)
  end.

(** The same operations on the reference map. *)
Definition spec_op (M : gmap Z BigAllocMeta) (o : op) : option BigAllocMeta * gmap Z BigAllocMeta :=
  match o with
  | OpInsert ky v => (None, <[ky := v]> M)
  | OpGet ky => (M !! ky, M)
  | OpReplace ky v => (M !! ky, if decide (is_Some (M !! ky)) then <[ky := v]> M else M)
  | OpRemove ky => (M !! ky, delete ky M)
  end.

Fixpoint spec_ops (M : gmap Z BigAllocMeta) (os : list op) : list (option BigAllocMeta) * gmap Z BigAllocMeta :=
  match os with
  | [] => ([], M)
  | o :: os' => let '(r, M) := spec_op M o in let '(rs, M) := spec_ops M os' in (r :: rs, M)
  end.

Lemma run_op_ok s k M o :
  tree_ok s k M ->
  match run_op s k o with
  | Ret (r, s', k') => r = (spec_op M o).1 /\ tree_ok s' k' (spec_op M o).2
  | Fatal e => e = OutOfMemory
  | Stuck => False
  end.
Proof.
  intros Hok. destruct o as [ky v|ky|ky v|ky]; simpl.
  - pose proof (insert_ok s k M ky v Hok) as H. by destruct (insert s k ky v) as [[s' k']| |].
  - by rewrite (get_ok s k M ky Hok).
  - destruct (replace_ok s k M ky v Hok) as (s' & -> & H). done.
  - destruct (remove_ok s k M ky Hok) as (s' & -> & H). done.
Qed.

Lemma run_ops_ok s k M os :
  tree_ok s k M ->
  match run_ops s k os with
  | Ret (rs, s', k') => rs = (spec_ops M os).1 /\ tree_ok s' k' (spec_ops M os).2
  | Fatal e => e = OutOfMemory
  | Stuck => False
  end.
Proof.
  revert s k M. induction os as [|o os IH]; intros s k M Hok; simpl; [done|].
  pose proof (run_op_ok s k M o Hok) as Hop. destruct (run_op s k o) as [[[r s1] k1]| |]; simpl; [|done..].
  destruct (spec_op M o) as [r' M1]. destruct Hop as [-> Hok1]. simpl.
  specialize (IH s1 k1 M1 Hok1). destruct (run_ops s1 k1 os) as [[[rs s2] k3]| |]; simpl; [|done..].
  destruct (spec_ops M1 os) as [rs' M2]. destruct IH as [-> Hok2]. done.
Qed.

(** C19: in a process, any sequence of insertions, lookups, replacements and
    removals on the tree that [RBTree::new] builds terminates, and returns the results of the
    same sequence on a finite map; the only failure is the abort when no node
    can be mapped. *)
Theorem ops_refine_map (k : K) (os : list op) (Hk : mapped k VSYSCALL) :
  match run_ops RBTree_new k os with
  | Ret (rs, s', k') => rs = (spec_ops ∅ os).1 /\ tree_ok s' k' (spec_ops ∅ os).2
  | Fatal e => e = OutOfMemory
  | Stuck => False
  end.
Proof. by apply run_ops_ok, RBTree_new_ok. Qed.

(** An insertion into a well-formed tree terminates with a well-formed
    (sorted, red-black, black-rooted) tree in which the key has the given
    metadata and every other key what it had, unless no node can be mapped. *)
Theorem insert_then_get (s : RBTree) (k : K) (ky : Z) (v : BigAllocMeta) (Hwf : tree_wf s k) :
  match insert s k ky v with
  | Ret (s', k') =>
      tree_wf s' k' /\ forall ky2, get s' ky2 = if ky2 =? ky then Ret (Some v) else get s ky2
  | Fatal e => e = OutOfMemory
  | Stuck => False
  end.
Proof.
  destruct Hwf as [M Hok]. pose proof (insert_ok s k M ky v Hok) as H.
  destruct (insert s k ky v) as [[s' k']| |]; [|done..]. split; [by eexists|]. intros ky2.
  rewrite (get_ok _ _ _ _ Hok), (get_ok _ _ _ _ H). destruct (Z.eqb_spec ky2 ky) as [->|Hne].
  - by rewrite lookup_insert_eq.
  - by rewrite lookup_insert_ne by congruence.
Qed.

(** A removal from a well-formed tree terminates with a well-formed tree,
    returns what a lookup returned, and forgets that key alone. *)
Theorem remove_then_get (s : RBTree) (k : K) (ky : Z) (Hwf : tree_wf s k) :
  exists r s', remove s ky = Ret (r, s') /\ get s ky = Ret r /\ tree_wf s' k /\
    forall ky2, get s' ky2 = if ky2 =? ky then Ret None else get s ky2.
Proof.
  destruct Hwf as [M Hok]. destruct (remove_ok s k M ky Hok) as (s' & Hr & H).
  exists (M !! ky), s'. split; [done|]. split; [by apply get_ok with k|]. split; [by eexists|]. intros ky2.
  rewrite (get_ok _ _ _ _ Hok), (get_ok _ _ _ _ H). destruct (Z.eqb_spec ky2 ky) as [->|Hne].
  - by rewrite lookup_delete_eq.
  - by rewrite lookup_delete_ne by congruence.
Qed.

(** C22: a search visits at most [2 log2 (n + 1)] nodes of a tree of [n] keys:
    that many iterations (and the one that sees null) give the result. *)
Theorem search_logarithmic (s : RBTree) (k : K) (M : gmap Z BigAllocMeta) (ky : Z) (Hok : tree_ok s k M) :
  exists a, find_loop (S (2 * Nat.log2 (S (size M)))) s (root s) ky = Ret a /\ find_node s ky = Ret a /\
    (a = 0 <-> M !! ky = None).
Proof.
  destruct Hok as (t & fl & (Hf & Hb & [n Hrb] & Hs) & _ & _ & ->). rewrite (to_map_size _ Hs).
  pose proof (rb_log_height _ _ Hrb Hb) as Hh. pose proof (focus_fuel _ _ _ _ Hf) as Hfuel. pose proof (height_inorder t).
  assert (Hroot : root s = addr t) by apply Hf. rewrite Hroot.
  destruct (find_loop_ok s s ky t [] (S (2 * Nat.log2 (S (length (inorder t))))) Hf) as (c & t' & Hl & Hfind); [lia|].
  destruct (find_node_ok s t ky Hf) as (c2 & t2 & Hl2 & Hfind2 & Hf2). exists (addr t'). split; [done|].
  unfold find_node in *. rewrite Hroot in *. rewrite (find_loop_det _ _ _ _ _ _ _ Hfind Hfind2).
  split; [done|]. rewrite (lands_lookup _ _ _ _ Hl2 Hs). destruct t2; [done|].
  destruct (focus_node _ _ _ _ _ _ _ _ _ Hf2) as [_ ?]. split; intros; done.
Qed.
End Pool.

(** ** Evaluation on a concrete kernel *)

Definition demo_meta (n : Z) : BigAllocMeta := mkBigAllocMeta 0 n 0 0 false.

(** Three keys inserted and one removed. *)
Definition demo_ops : list op :=
  [OpInsert 20 (demo_meta 1); OpInsert 10 (demo_meta 2); OpInsert 30 (demo_meta 3); OpRemove 20].

Definition demo_tree : outcome (list (option BigAllocMeta) * RBTree * BumpKernel.state) :=
  run_ops RBTree_new BumpKernel.empty demo_ops.

Lemma demo_tree_ok rs s k : demo_tree = Ret (rs, s, k) -> tree_ok s k (spec_ops ∅ demo_ops).2.
Proof.
  intros H. pose proof (run_ops_ok RBTree_new BumpKernel.empty ∅ demo_ops (RBTree_new_ok _ BumpKernel.empty_process)) as Hr.
  unfold demo_tree in H. rewrite H in Hr. apply Hr.
Qed.

(** A closed evaluation in the demo state. *)
Definition in_demo (f : RBTree -> BumpKernel.state -> bool) : bool :=
  match demo_tree with Ret (_, s, k) => f s k | _ => false end.

Definition is_ret {A} (o : outcome A) : bool := match o with Ret _ => true | _ => false end.

Lemma demo_insert_runs : in_demo (fun s k => is_ret (insert s k 15 (demo_meta 4))) = true.
Proof. by vm_compute. Qed.

Lemma demo_get_runs :
  in_demo (fun s _ => match get s 10 with Ret r => bool_decide (r = Some (demo_meta 2)) | _ => false end) = true.
Proof. by vm_compute. Qed.

Lemma ops_refine_map_witness :
  match demo_tree with Ret (rs, _, _) => rs = [None; None; None; Some (demo_meta 1)] | _ => False end.
Proof.
  pose proof (ops_refine_map BumpKernel.empty demo_ops BumpKernel.empty_process) as Hr. assert (Hd : match demo_tree with Ret _ => true | _ => false end = true) by (by vm_compute). unfold demo_tree in *.
  destruct (run_ops RBTree_new BumpKernel.empty demo_ops) as [[[rs s] k]| |]; [|discriminate Hd|discriminate Hd]. destruct Hr as [-> _]. reflexivity.
Defined.

Lemma insert_then_get_witness :
  match demo_tree with
  | Ret (_, s, k) =>
      match insert s k 15 (demo_meta 4) with
      | Ret (s', _) => get s' 15 = Ret (Some (demo_meta 4)) /\ get s' 10 = get s 10
      | _ => False
      end
  | _ => False
  end.
Proof.
  pose proof demo_insert_runs as Hrun. unfold in_demo in Hrun.
  destruct demo_tree as [[[rs s] k]| |] eqn:E; [|done..].
  pose proof (insert_then_get s k 15 (demo_meta 4) (ex_intro _ _ (demo_tree_ok _ _ _ E))) as Hr.
  destruct (insert s k 15 (demo_meta 4)) as [[s' k']| |]; [|done..]. destruct Hr as [_ Hr].
  split; rewrite Hr; reflexivity.
Defined.

Lemma remove_then_get_witness :
  match demo_tree with
  | Ret (_, s, _) => exists s', remove s 10 = Ret (Some (demo_meta 2), s') /\ get s' 10 = Ret None
  | _ => False
  end.
Proof.
  pose proof demo_get_runs as Hrun. unfold in_demo in Hrun.
  destruct demo_tree as [[[rs s] k]| |] eqn:E; [|done..].
  destruct (remove_then_get s k 10 (ex_intro _ _ (demo_tree_ok _ _ _ E))) as (r & s' & Hr & Hg & _ & Hk).
  exists s'. rewrite Hk, Hr. split; [|done]. rewrite Hg in Hrun. apply bool_decide_eq_true in Hrun as ->. done.
Defined.

Lemma search_logarithmic_witness :
  match demo_tree with
  | Ret (_, s, _) => exists a, find_loop 3 s (root s) 30 = Ret a /\ find_node s 30 = Ret a /\ a <> 0
  | _ => False
  end.
Proof.
  pose proof demo_get_runs as Hrun. unfold in_demo in Hrun.
  destruct demo_tree as [[[rs s] k]| |] eqn:E; [|done..].
  destruct (search_logarithmic s k _ 30 (demo_tree_ok _ _ _ E)) as (a & H1 & H2 & H3).
  exists a. split; [exact H1|]. split; [done|]. intros Ha%H3. by vm_compute in Ha.
Defined.
