(* ===== verification/Binder.v ===== *)
(** * NUMA placement (src/internals/binder.rs)

    The memory-policy calls made on every mapping of a NUMA system. *)

From S2P Require Import Prelude Kernel.

Definition MPOL_PREFERRED : Z := 1.
Definition MPOL_BIND : Z := 2.
Definition MPOL_F_STATIC_NODES : Z := Z.shiftl 1 15.

(** [1usize.wrapping_shl(node_id as u32)]: the shift amount is taken modulo 64. *)
Definition node_mask_word (node_id : Z) : Z := wshl 1 (node_id mod 64).

Section Binder.
Context {K : Type} `{!Kernel K}.

Definition mbind_node (ptr len node_id mode : Z) (k : K) : bool * K :=
  if 64 <=? node_id then (false, k)
  else
    let mask := node_mask_word node_id in
    let maxnode := node_id + 1 in
    sys_mbind ptr len mode mask maxnode MPOL_F_STATIC_NODES k.

Definition prefer_node (ptr len node_id : Z) (k : K) : bool * K :=
  mbind_node ptr len node_id MPOL_PREFERRED k.

Definition bind_node (ptr len node_id : Z) (k : K) : bool * K :=
  mbind_node ptr len node_id MPOL_BIND k.

(** The mask names exactly the node. *)
Lemma node_mask_word_bit node n :
  0 <= node < 64 -> 0 <= n -> Z.testbit (node_mask_word node) n = (n =? node).
Proof.
  intros Hn Hn0. unfold node_mask_word. rewrite Z.mod_small by lia.
  unfold wshl. rewrite Z.shiftl_1_l, wrap_testbit, pow2_testbit by lia.
  destruct (n =? node) eqn:?; [|by rewrite andb_false_r]. destruct (n <? 64) eqn:?; [done|lia].
Qed.

Section Spec.
Context `{!KernelSpec K}.

Lemma mbind_node_mapped ptr len node mode k x : mapped (mbind_node ptr len node mode k).2 x <-> mapped k x.
Proof. unfold mbind_node. destruct (64 <=? node); [done|]. apply mbind_mapped. Qed.

(** C23: on a kernel that rejects unknown flags as mbind(2) documents, neither
    call ever applies a policy: the mode flag MPOL_F_STATIC_NODES is passed in
    the flags argument.  The set of mapped addresses does not change. *)
Theorem node_policy_never_applied (ptr len node : Z) (k : K) :
  (prefer_node ptr len node k).1 = false /\ (bind_node ptr len node k).1 = false /\
  forall x, mapped (prefer_node ptr len node k).2 x <-> mapped k x.
Proof.
  unfold prefer_node, bind_node. split_and!; [..|intros x; apply mbind_node_mapped];
    unfold mbind_node; (destruct (64 <=? node); [done|by apply mbind_einval]).
Qed.
End Spec.
End Binder.
