(* ===== verification/Buddy.v ===== *)
(** * The buddy allocator (src/big_allocations/buddy.rs)

    Regions of 64 MiB or more are cut into blocks of 4 MiB to 64 MiB.  The free
    blocks of an order form a doubly linked list threaded through the blocks
    themselves, with a bitmap per order and a mask of non-empty orders.  Memory
    is three maps: the region headers, the free-block headers and the bitmap
    words, each by address.  The code runs under its locks, so the operations
    are sequential. *)

From S2P Require Import Prelude Types SizeClasses Kernel Binder Radix.

Definition BIG_BUDDY_MIN_ORDER : Z := 22.
Definition BIG_BUDDY_MAX_ORDER : Z := 26.
Definition BUDDY_NUM_ORDERS : Z := BIG_BUDDY_MAX_ORDER - BIG_BUDDY_MIN_ORDER + 1.
Definition PAGE_SIZE : Z := 4096.
Definition BIG_BUDDY_MAX_BLOCK_SIZE : Z := Z.shiftl 1 BIG_BUDDY_MAX_ORDER.

Definition BUDDY_TRIM_NOT_ALLOCATED : Z := 0.
Definition BUDDY_TRIM_ALLOCATED : Z := 1.
Definition BUDDY_TRIM_TRIMMED : Z := 2.

Record FreeBlock := mkFreeBlock {
  fb_next : Z;
  fb_prev : Z;
  fb_life_time : Z;
  fb_trim_state : Z;
}.

Record BuddyRegion := mkBuddyRegion {
  r_next : Z;
  r_base : Z;
  r_total_size : Z;
  r_order : Z;
  r_node_id : Z;
  r_nonempty_mask : Z;
  r_free : list Z;
  r_free_bitmap : list Z;
  r_free_bitmap_words : list Z;
}.

(** [size_of::<BuddyRegion>()]: 160 bytes of fields, then five locks of 64 bytes
    each, aligned to 64. *)
Definition BuddyRegion_SIZE : Z := 512.

Definition BuddyRegion_empty : BuddyRegion :=
  mkBuddyRegion null 0 0 BIG_BUDDY_MIN_ORDER 0 0
    (replicate (Z.to_nat BUDDY_NUM_ORDERS) null)
    (replicate (Z.to_nat BUDDY_NUM_ORDERS) null)
    (replicate (Z.to_nat BUDDY_NUM_ORDERS) 0).

(** [BuddyAllocator], the statics it owns and the memory it manages. *)
Record Buddy := mkBuddy {
  bd_regions : Z;
  bd_grow_order : Z;
  bd_thp : bool;
  bd_init : bool;
  bd_cached_va : Z;
  bd_region_mem : gmap Z BuddyRegion;
  bd_blocks : gmap Z FreeBlock;
  bd_words : gmap Z Z;
}.

Definition BuddyAllocator_new : Buddy :=
  mkBuddy null BIG_BUDDY_MIN_ORDER false false 0 ∅ ∅ ∅.

(** ** Sizes and orders *)

Definition order_for_size (size : Z) : Z := trailing_zeros (next_power_of_two (Z.max size 1)).

Definition normalize_region_size (size : Z) : Z :=
  Z.max (default BIG_BUDDY_MAX_BLOCK_SIZE (checked_next_power_of_two size)) BIG_BUDDY_MAX_BLOCK_SIZE.

Definition align_to_page (size : Z) : Z := align_to size PAGE_SIZE.

Definition order_index (order : Z) : Z := wsub order BIG_BUDDY_MIN_ORDER.

Definition order_bit (order : Z) : Z := wrap 8 (Z.shiftl 1 (order_index order)).

(** ** Memory accesses *)

Definition get_region (s : Buddy) (r : Z) : outcome BuddyRegion := from_option (bd_region_mem s !! r).

Definition put_region (s : Buddy) (r : Z) (x : BuddyRegion) : Buddy :=
  mkBuddy (bd_regions s) (bd_grow_order s) (bd_thp s) (bd_init s) (bd_cached_va s)
    (<[r := x]> (bd_region_mem s)) (bd_blocks s) (bd_words s).

Definition set_blocks (s : Buddy) (m : gmap Z FreeBlock) : Buddy :=
  mkBuddy (bd_regions s) (bd_grow_order s) (bd_thp s) (bd_init s) (bd_cached_va s)
    (bd_region_mem s) m (bd_words s).

Definition set_word_mem (s : Buddy) (m : gmap Z Z) : Buddy :=
  mkBuddy (bd_regions s) (bd_grow_order s) (bd_thp s) (bd_init s) (bd_cached_va s)
    (bd_region_mem s) (bd_blocks s) m.

Definition set_cached_va (s : Buddy) (v : Z) : Buddy :=
  mkBuddy (bd_regions s) (bd_grow_order s) (bd_thp s) (bd_init s) v
    (bd_region_mem s) (bd_blocks s) (bd_words s).

Definition get_block (s : Buddy) (p : Z) : outcome FreeBlock := from_option (bd_blocks s !! p).

Definition update_block (s : Buddy) (p : Z) (f : FreeBlock -> FreeBlock) : outcome Buddy :=
  b ← get_block s p; Ret (set_blocks s (<[p := f b]> (bd_blocks s))).

Definition set_next (s : Buddy) (p v : Z) : outcome Buddy :=
  update_block s p (fun b => mkFreeBlock v (fb_prev b) (fb_life_time b) (fb_trim_state b)).

Definition set_prev (s : Buddy) (p v : Z) : outcome Buddy :=
  update_block s p (fun b => mkFreeBlock (fb_next b) v (fb_life_time b) (fb_trim_state b)).

(** [FreeBlock::new] writes a header at [addr]. *)
Definition FreeBlock_new (s : Buddy) (addr life_time trim_state : Z) : Buddy :=
  set_blocks s (<[addr := mkFreeBlock null null life_time trim_state]> (bd_blocks s)).

(** The bitmap words are zero in the fresh mapping of the region node. *)
Definition load_word (s : Buddy) (p : Z) : Z := default 0 (bd_words s !! p).

Definition store_word (s : Buddy) (p v : Z) : Buddy := set_word_mem s (<[p := v]> (bd_words s)).

Definition with_mask (x : BuddyRegion) (v : Z) : BuddyRegion :=
  mkBuddyRegion (r_next x) (r_base x) (r_total_size x) (r_order x) (r_node_id x) v
    (r_free x) (r_free_bitmap x) (r_free_bitmap_words x).

Definition with_free (x : BuddyRegion) (v : list Z) : BuddyRegion :=
  mkBuddyRegion (r_next x) (r_base x) (r_total_size x) (r_order x) (r_node_id x) (r_nonempty_mask x)
    v (r_free_bitmap x) (r_free_bitmap_words x).

(** An index into one of the per-order arrays; out of range is a panic. *)
Definition at_index (l : list Z) (i : Z) : outcome Z := from_option (l !! Z.to_nat i).

(** ** Free lists, bitmaps and the order mask *)

Definition mark_order_nonempty (s : Buddy) (r order : Z) : outcome Buddy :=
  x ← get_region s r;
  Ret (put_region s r (with_mask x (Z.lor (r_nonempty_mask x) (order_bit order)))).

Definition mark_order_empty_if_needed (s : Buddy) (r order : Z) : outcome Buddy :=
  x ← get_region s r;
  head ← at_index (r_free x) (order_index order);
  if head =? null
  then Ret (put_region s r (with_mask x (Z.land (r_nonempty_mask x) (wnot 8 (order_bit order)))))
  else Ret s.

(** The address of the word and the bit of the block at [addr]. *)
Definition bitmap_location (s : Buddy) (r addr order : Z) : outcome (Z * Z) :=
  let index := order_index order in
  x ← get_region s r;
  let block := Z.shiftr (wsub addr (r_base x)) order in
  let word := block / 64 in
  bm ← at_index (r_free_bitmap x) index;
  Ret (bm + 8 * word, wshl 1 (Z.land block (64 - 1))).

Definition block_is_free (s : Buddy) (r addr order : Z) : outcome bool :=
  '(word, bit) ← bitmap_location s r addr order;
  Ret (negb (Z.land (load_word s word) bit =? 0)).

Definition set_head (s : Buddy) (r index v : Z) : outcome Buddy :=
  x ← get_region s r;
  _ ← at_index (r_free x) index;
  Ret (put_region s r (with_free x (<[Z.to_nat index := v]> (r_free x)))).

Definition get_head (s : Buddy) (r index : Z) : outcome Z :=
  x ← get_region s r; at_index (r_free x) index.

Definition push_free_block (s : Buddy) (r order block : Z) : outcome Buddy :=
  let index := order_index order in
  s ← set_prev s block null;
  head ← get_head s r index;
  s ← set_next s block head;
  s ← (if negb (head =? null) then set_prev s head block else Ret s);
  s ← set_head s r index block;
  '(word, bit) ← bitmap_location s r block order;
  let s := store_word s word (Z.lor (load_word s word) bit) in
  mark_order_nonempty s r order.

Definition remove_free_block (s : Buddy) (r order block : Z) : outcome Buddy :=
  let index := order_index order in
  b ← get_block s block;
  let next := fb_next b in
  let prev := fb_prev b in
  s ← (if prev =? null then set_head s r index next else set_next s prev next);
  s ← (if negb (next =? null) then set_prev s next prev else Ret s);
  '(word, bit) ← bitmap_location s r block order;
  let s := store_word s word (Z.land (load_word s word) (wnot 64 bit)) in
  mark_order_empty_if_needed s r order.

Definition buddy (s : Buddy) (r addr order : Z) : outcome Z :=
  x ← get_region s r;
  let rel := wsub addr (r_base x) in
  Ret (wadd (r_base x) (Z.lxor rel (wshl 1 order))).

(** ** Allocation from a region *)

(** The inner loop: halve the block until it has the requested order, giving
    the upper halves back. *)
Fixpoint split_loop (fuel : nat) (s : Buddy) (r alloc_order requested_order block_addr life_time trim_state : Z) :
    outcome Buddy :=
  match fuel with
  | O => Stuck
  | S fuel' =>
      if requested_order <? alloc_order then
        let alloc_order := alloc_order - 1 in
        let block_size := wshl 1 alloc_order in
        let buddy_addr := wadd block_addr block_size in
        let s := FreeBlock_new s buddy_addr life_time trim_state in
        s ← push_free_block s r alloc_order buddy_addr;
        split_loop fuel' s r alloc_order requested_order block_addr life_time trim_state
      else Ret s
  end.

(** The outer loop over the orders; [mask] was read before it. *)
Fixpoint alloc_loop (fuel : nat) (s : Buddy) (r mask alloc_order requested_order : Z) :
    outcome (option (Z * Z) * Buddy) :=
  match fuel with
  | O => Stuck
  | S fuel' =>
      x ← get_region s r;
      if alloc_order <=? r_order x then
        if Z.land mask (order_bit alloc_order) =? 0 then alloc_loop fuel' s r mask (alloc_order + 1) requested_order
        else
          head ← get_head s r (order_index alloc_order);
          if head =? null then
            s ← mark_order_empty_if_needed s r alloc_order;
            alloc_loop fuel' s r mask (alloc_order + 1) requested_order
          else
            b ← get_block s head;
            let block_life_time := fb_life_time b in
            let block_trim_state := fb_trim_state b in
            s ← remove_free_block s r alloc_order head;
            s ← split_loop (Z.to_nat (BUDDY_NUM_ORDERS + 1)) s r alloc_order requested_order head
                  block_life_time block_trim_state;
            Ret (Some (head, block_trim_state), s)
      else Ret (None, s)
  end.

Definition alloc_from_region (s : Buddy) (r requested_order : Z) : outcome (option (Z * Z) * Buddy) :=
  x ← get_region s r;
  if r_order x <? requested_order then Ret (None, s)
  else
    let requested_index := order_index requested_order in
    let mask := Z.land (r_nonempty_mask x) (wrap 8 (Z.shiftl (wnot 8 0) requested_index)) in
    if mask =? 0 then Ret (None, s)
    else alloc_loop (Z.to_nat (BUDDY_NUM_ORDERS + 1)) s r mask requested_order requested_order.

(** Walk the list of regions for one of [node_id] with a free block. *)
Fixpoint alloc_from_node_loop (fuel : nat) (s : Buddy) (r requested_order node_id : Z) :
    outcome (option (Z * Z * Z * Z) * Buddy) :=
  match fuel with
  | O => Stuck
  | S fuel' =>
      if r =? null then Ret (None, s)
      else
        x ← get_region s r;
        let next := r_next x in
        if r_node_id x =? node_id then
          '(res, s) ← alloc_from_region s r requested_order;
          match res with
          | Some (addr, flag) => Ret (Some (addr, requested_order, flag, r), s)
          | None => alloc_from_node_loop fuel' s next requested_order node_id
          end
        else alloc_from_node_loop fuel' s next requested_order node_id
  end.

Definition alloc_from_node (s : Buddy) (requested_order node_id : Z) : outcome (option (Z * Z * Z * Z) * Buddy) :=
  alloc_from_node_loop (S (size (bd_region_mem s))) s (bd_regions s) requested_order node_id.

(** ** Freeing *)

(** The coalescing loop: the block and its order after all merges. *)
Fixpoint coalesce (fuel : nat) (s : Buddy) (r current current_order : Z) : outcome (Buddy * Z * Z) :=
  match fuel with
  | O => Stuck
  | S fuel' =>
      x ← get_region s r;
      if current_order <? r_order x then
        bud ← buddy s r current current_order;
        if (bud <? r_base x) || (wadd (r_base x) (r_total_size x) <=? bud) then Ret (s, current, current_order)
        else
          free ← block_is_free s r bud current_order;
          if negb free then Ret (s, current, current_order)
          else
            s ← remove_free_block s r current_order bud;
            coalesce fuel' s r (Z.min current bud) (current_order + 1)
      else Ret (s, current, current_order)
  end.

Definition free (s : Buddy) (stamp r addr order : Z) : outcome Buddy :=
  if (order <? BIG_BUDDY_MIN_ORDER) || (BIG_BUDDY_MAX_ORDER <? order) then Ret s
  else if r =? null then Ret s
  else
    x ← get_region s r;
    if (addr <? r_base x) || (wadd (r_base x) (r_total_size x) <=? addr) then Ret s
    else if r_order x <? order then Ret s
    else
      '(s, current, current_order) ← coalesce (Z.to_nat (BUDDY_NUM_ORDERS + 1)) s r addr order;
      let s := FreeBlock_new s current stamp BUDDY_TRIM_ALLOCATED in
      push_free_block s r current_order current.

(** Take the upper buddy of an allocated block, if it is free. *)
Definition try_grow_inplace (s : Buddy) (r addr current_order : Z) : outcome (option (Z * Z) * Buddy) :=
  if r =? null then Ret (None, s)
  else
    x ← get_region s r;
    if r_order x <=? current_order then Ret (None, s)
    else if (addr <? r_base x) || (wadd (r_base x) (r_total_size x) <=? addr) then Ret (None, s)
    else
      let next_order := current_order + 1 in
      buddy_addr ← buddy s r addr current_order;
      if buddy_addr <? addr then Ret (None, s)
      else if (buddy_addr <? r_base x) || (wadd (r_base x) (r_total_size x) <=? buddy_addr) then Ret (None, s)
      else
        free ← block_is_free s r buddy_addr current_order;
        if free : bool then
          s ← remove_free_block s r current_order buddy_addr;
          Ret (Some (addr, next_order), s)
        else Ret (None, s).

(** ** Growing: new regions *)

(** The first loop of [alloc_region_node]: bytes of all bitmaps. *)
Fixpoint bitmap_bytes_loop (n : nat) (order region_size acc : Z) : option Z :=
  match n with
  | O => Some acc
  | S n' =>
      let blocks := Z.shiftr region_size order in
      let words := div_ceil blocks 64 in
      b ← checked_mul words 8;
      acc ← checked_add acc b;
      bitmap_bytes_loop n' (order + 1) region_size acc
  end.

Definition region_node_size (region_size : Z) : option Z :=
  bytes ← bitmap_bytes_loop (Z.to_nat BUDDY_NUM_ORDERS) BIG_BUDDY_MIN_ORDER region_size 0;
  sz ← checked_add BuddyRegion_SIZE bytes;
  Some (align_to_page sz).

(** The loop of [add_region] that hands each order its bitmap. *)
Fixpoint bitmap_layout (n : nat) (order region_size bitmap : Z) : list Z * list Z :=
  match n with
  | O => ([], [])
  | S n' =>
      let blocks := Z.shiftr region_size order in
      let words := div_ceil blocks 64 in
      let '(ptrs, ws) := bitmap_layout n' (order + 1) region_size (bitmap + 8 * words) in
      (bitmap :: ptrs, words :: ws)
  end.

(** [while offset < normalized_size]: one block of the largest order each. *)
Fixpoint push_max_blocks (fuel : nat) (s : Buddy) (r base offset normalized_size life_time : Z) : outcome Buddy :=
  match fuel with
  | O => Stuck
  | S fuel' =>
      if offset <? normalized_size then
        let addr := wadd base offset in
        let s := FreeBlock_new s addr life_time BUDDY_TRIM_NOT_ALLOCATED in
        s ← push_free_block s r BIG_BUDDY_MAX_ORDER addr;
        push_max_blocks fuel' s r base (wadd offset BIG_BUDDY_MAX_BLOCK_SIZE) normalized_size life_time
      else Ret s
  end.

Section Grow.
Context {K : Type} `{!Kernel K}.

(** The configuration and clocks the allocator reads. *)
Record BuddyEnv := mkBuddyEnv {
  max_refill_retries : Z;
  current_stamp : Z;
}.
Context (env : BuddyEnv).

(** [for _ in 0..MAX_REFILL_RETRIES] around an anonymous mapping. *)
Fixpoint mmap_retry (n : nat) (size : Z) (k : K) : option Z * K :=
  match n with
  | O => (None, k)
  | S n' =>
      match mmap_anonymous size k with
      | (Some p, k) => (Some p, k)
      | (None, k) => mmap_retry n' size k
      end
  end.

Definition alloc_region_node (s : Buddy) (k : K) (region_size : Z) : option Z * Buddy * K :=
  match region_node_size region_size with
  | None => (None, s, k)
  | Some node_size =>
      match mmap_retry (Z.to_nat (max_refill_retries env)) node_size k with
      | (Some region, k) => (Some region, set_cached_va s (add_buddy_cached_va (bd_cached_va s) node_size), k)
      | (None, k) => (None, s, k)
      end
  end.

(** The mapping loop of [add_region]. *)
Definition map_region (s : Buddy) (k : K) (normalized_size node_id : Z) (is_numa : bool) : option Z * Buddy * K :=
  match mmap_retry (Z.to_nat (max_refill_retries env)) normalized_size k with
  | (Some region, k) =>
      let s := set_cached_va s (add_buddy_cached_va (bd_cached_va s) normalized_size) in
      let k := if is_numa then (prefer_node region normalized_size node_id k).2 else k in
      (Some region, s, k)
  | (None, k) => (None, s, k)
  end.

(** The region header as [add_region] fills it. *)
Definition new_region (region_ptr base normalized_size node_id : Z) : BuddyRegion :=
  let '(ptrs, ws) := bitmap_layout (Z.to_nat BUDDY_NUM_ORDERS) BIG_BUDDY_MIN_ORDER normalized_size
                       (region_ptr + BuddyRegion_SIZE) in
  mkBuddyRegion (r_next BuddyRegion_empty) base normalized_size BIG_BUDDY_MAX_ORDER node_id
    (r_nonempty_mask BuddyRegion_empty) (r_free BuddyRegion_empty) ptrs ws.

Definition add_region (s : Buddy) (rx : RadixTree K) (size node_id : Z) (init is_numa : bool) :
    outcome (bool * Buddy * RadixTree K) :=
  let normalized_size := normalize_region_size size in
  match map_region s (kern rx) normalized_size node_id is_numa with
  | (None, s, k) => Ret (false, s, mkRadixTree (l0 rx) (mem rx) k)
  | (Some base, s, k) =>
      match alloc_region_node s k normalized_size with
      | (None, s, k) => Ret (false, s, mkRadixTree (l0 rx) (mem rx) (munmap base normalized_size k))
      | (Some region_ptr, s, k) =>
          let k := if bd_thp s then (madvise base normalized_size LinuxHugepage k).2 else k in
          rx ← set_range (mkRadixTree (l0 rx) (mem rx) k) base normalized_size true;
          let s := put_region s region_ptr (new_region region_ptr base normalized_size node_id) in
          s ← push_max_blocks (Z.to_nat (normalized_size / BIG_BUDDY_MAX_BLOCK_SIZE + 1)) s region_ptr base 0
                normalized_size (current_stamp env);
          x ← get_region s region_ptr;
          let s := put_region s region_ptr
            (mkBuddyRegion (bd_regions s) (r_base x) (r_total_size x) (r_order x) (r_node_id x)
               (r_nonempty_mask x) (r_free x) (r_free_bitmap x) (r_free_bitmap_words x)) in
          let s := mkBuddy region_ptr (bd_grow_order s) (bd_thp s) (if init then true else bd_init s)
                     (bd_cached_va s) (bd_region_mem s) (bd_blocks s) (bd_words s) in
          Ret (true, s, rx)
      end
  end.

(** [BuddyAllocator::init], the first time it is called; [node_id] and [is_numa]
    are what the slab cache says of the current CPU. *)
Definition init (s : Buddy) (rx : RadixTree K) (size : Z) (thp : bool) (node_id : Z) (is_numa : bool) :
    outcome (Buddy * RadixTree K) :=
  let normalized_size := normalize_region_size size in
  let s := mkBuddy (bd_regions s) (Z.min (order_for_size normalized_size) BIG_BUDDY_MAX_ORDER) thp
             (bd_init s) (bd_cached_va s) (bd_region_mem s) (bd_blocks s) (bd_words s) in
  '(_, s, rx) ← add_region s rx normalized_size node_id true is_numa;
  Ret (s, rx).

(** [for i in 0..numa.nranges]: every node in turn, from [node_id] on. *)
Fixpoint numa_loop (n : nat) (s : Buddy) (i node_id nranges requested_order : Z) :
    outcome (option (Z * Z * Z * Z) * Buddy) :=
  match n with
  | O => Ret (None, s)
  | S n' =>
      let node := (i + node_id) mod nranges in
      '(res, s) ← alloc_from_node s requested_order (wrap 16 node);
      match res with
      | Some block => Ret (Some block, s)
      | None => numa_loop n' s (i + 1) node_id nranges requested_order
      end
  end.

Definition alloc (s : Buddy) (rx : RadixTree K) (size node_id nranges : Z) (is_numa : bool) :
    outcome (option (Z * Z * Z * Z) * Buddy * RadixTree K) :=
  let requested_order := Z.max (order_for_size size) BIG_BUDDY_MIN_ORDER in
  if BIG_BUDDY_MAX_ORDER <? requested_order then Ret (None, s, rx)
  else
    '(res, s) ← alloc_from_node s requested_order node_id;
    match res with
    | Some block => Ret (Some block, s, rx)
    | None =>
        let expand_order := Z.min (Z.max (bd_grow_order s) requested_order) BIG_BUDDY_MAX_ORDER in
        '(grown, s, rx) ← add_region s rx (wshl 1 expand_order) node_id false is_numa;
        '(res, s) ← (if grown : bool then alloc_from_node s requested_order node_id else Ret (None, s));
        match res with
        | Some block => Ret (Some block, s, rx)
        | None =>
            if is_numa then
              '(res, s) ← numa_loop (Z.to_nat nranges) s 0 node_id nranges requested_order;
              Ret (res, s, rx)
            else Ret (None, s, rx)
        end
    end.

(** ** Trimming *)

(** Bytes trimmed, the sum of ages and the number of blocks seen. *)
Record TrimAcc := mkTrimAcc { ta_trimmed : Z; ta_avg : Z; ta_total : Z }.

(** One free block of size [block_size]; the flag tells the caller to stop. *)
Definition trim_block (s : Buddy) (k : K) (acc : TrimAcc) (curr block_size stamp avg_life requested_size : Z)
    (force_trim : bool) : outcome (bool * Buddy * K * TrimAcc) :=
  b ← get_block s curr;
  if (fb_trim_state b =? BUDDY_TRIM_NOT_ALLOCATED) || (fb_trim_state b =? BUDDY_TRIM_TRIMMED) then
    Ret (false, s, k, acc)
  else
    let age := saturating_sub stamp (fb_life_time b) in
    let avg := saturating_add 32 (ta_avg acc) age in
    let total := saturating_add 32 (ta_total acc) 1 in
    let '(s, k, trimmed) :=
      if (force_trim || (avg_life <? age)) && (PAGE_SIZE <? block_size) then
        let trim_addr := wadd curr PAGE_SIZE in
        let trim_size := block_size - PAGE_SIZE in
        let '(ok, k) := madvise trim_addr trim_size LinuxDontNeed k in
        let state := if ok : bool then BUDDY_TRIM_TRIMMED else fb_trim_state b in
        let trimmed := if ok then saturating_add 64 (ta_trimmed acc) trim_size else ta_trimmed acc in
        (set_blocks s (<[curr := mkFreeBlock (fb_next b) (fb_prev b) stamp state]> (bd_blocks s)), k, trimmed)
      else (s, k, ta_trimmed acc) in
    let stop := force_trim && negb (requested_size =? 0) && (requested_size <=? trimmed) in
    Ret (stop, s, k, mkTrimAcc trimmed avg total).

Fixpoint trim_list (fuel : nat) (s : Buddy) (k : K) (acc : TrimAcc)
    (curr block_size stamp avg_life requested_size : Z) (force_trim : bool) : outcome (bool * Buddy * K * TrimAcc) :=
  match fuel with
  | O => Stuck
  | S fuel' =>
      if curr =? null then Ret (false, s, k, acc)
      else
        b ← get_block s curr;
        let next_block := fb_next b in
        '(stop, s, k, acc) ← trim_block s k acc curr block_size stamp avg_life requested_size force_trim;
        if stop : bool then Ret (true, s, k, acc)
        else trim_list fuel' s k acc next_block block_size stamp avg_life requested_size force_trim
  end.

Fixpoint trim_orders (fuel : nat) (s : Buddy) (k : K) (acc : TrimAcc)
    (r order stamp avg_life requested_size : Z) (force_trim : bool) : outcome (bool * Buddy * K * TrimAcc) :=
  match fuel with
  | O => Stuck
  | S fuel' =>
      x ← get_region s r;
      if order <=? r_order x then
        head ← get_head s r (order_index order);
        '(stop, s, k, acc) ← trim_list (S (size (bd_blocks s))) s k acc head (wshl 1 order) stamp avg_life
                               requested_size force_trim;
        if stop : bool then Ret (true, s, k, acc)
        else trim_orders fuel' s k acc r (order + 1) stamp avg_life requested_size force_trim
      else Ret (false, s, k, acc)
  end.

Fixpoint trim_regions (fuel : nat) (s : Buddy) (k : K) (acc : TrimAcc)
    (r stamp avg_life requested_size : Z) (force_trim : bool) : outcome (Buddy * K * TrimAcc) :=
  match fuel with
  | O => Stuck
  | S fuel' =>
      if r =? null then Ret (s, k, acc)
      else
        x ← get_region s r;
        let next_region := r_next x in
        '(stop, s, k, acc) ← trim_orders (Z.to_nat (BUDDY_NUM_ORDERS + 1)) s k acc r BIG_BUDDY_MIN_ORDER stamp
                               avg_life requested_size force_trim;
        if stop : bool then Ret (s, k, acc)
        else trim_regions fuel' s k acc next_region stamp avg_life requested_size force_trim
  end.

(** [trim_inner] with the global trim lock taken; the result is the number of
    bytes and the new average, left alone when no block was seen.  [blend] is the
    exponential smoothing of the predictor. *)
Definition trim_inner (blend : Z -> Z -> Z) (s : Buddy) (k : K) (avg_life requested_size : Z) (force_trim : bool) :
    outcome (Z * Z * Buddy * K) :=
  '(s, k, acc) ← trim_regions (S (size (bd_region_mem s))) s k (mkTrimAcc 0 0 0) (bd_regions s)
                   (current_stamp env) avg_life requested_size force_trim;
  let average :=
    if 0 <? ta_total acc then blend (clamp (ta_avg acc / ta_total acc) 10 600) avg_life else avg_life in
  Ret (ta_trimmed acc, average, s, k).

Definition trim (blend : Z -> Z -> Z) (s : Buddy) (k : K) (avg_life requested_size : Z) :=
  trim_inner blend s k avg_life requested_size true.

Definition trim_old (blend : Z -> Z -> Z) (s : Buddy) (k : K) (avg_life requested_size : Z) :=
  trim_inner blend s k avg_life requested_size false.

End Grow.
