(* ===== verification/BuddyRep.v ===== *)
(** * Free lists, bitmaps and masks of a buddy region

    [region_rep s r x L] says that the region at [r] with header [x] represents
    the free lists [L] (one list of block addresses per order): the linked lists,
    the bitmap bits and the mask bits all agree with [L].  [push_free_block],
    [remove_free_block] and [block_is_free] are specified on [L]. *)

From S2P Require Import Prelude Types SizeClasses DList Kernel Binder Radix Buddy.

Ltac Zify.zify_post_hook ::= idtac.

#[export] Program Instance FreeBlock_linked : Linked FreeBlock := {
  l_next := fb_next;
  l_prev := fb_prev;
  with_next v b := mkFreeBlock v (fb_prev b) (fb_life_time b) (fb_trim_state b);
  with_prev v b := mkFreeBlock (fb_next b) v (fb_life_time b) (fb_trim_state b);
}.
Solve All Obligations with done.

(** ** Blocks *)

Section Region.
Context (base total : Z).

(** A block of order [o] at [a], aligned relative to the base. *)
Definition valid (o a : Z) : Prop :=
  22 <= o <= 26 /\ base <= a /\ a + 2 ^ o <= base + total /\ (2 ^ o | a - base).

Definition block_no (o a : Z) : Z := (a - base) / 2 ^ o.

Lemma valid_block o a : valid o a -> a = base + block_no o a * 2 ^ o /\ 0 <= block_no o a /\ block_no o a < total / 2 ^ o.
Proof.
  intros (Ho & Hlo & Hhi & [q Hq]). pose proof (Z.pow_pos_nonneg 2 o ltac:(lia) ltac:(lia)) as Hp.
  unfold block_no. rewrite Hq, Z.div_mul by lia. split; [lia|]. split; [nia|].
  apply Z.lt_le_trans with (q + 1); [lia|]. apply Z.div_le_lower_bound; [lia|]. nia.
Qed.

Lemma block_no_inj o a b : valid o a -> valid o b -> block_no o a = block_no o b -> a = b.
Proof.
  intros (Ha & _)%valid_block (Hb & _)%valid_block He. rewrite He in Ha. congruence.
Qed.

(** What the code assumes of a region: its place in the address space. *)
Definition region_space : Prop :=
  0 < base /\ 0 < total /\ base + total <= 2 ^ 47 /\ (2 ^ 26 | total).

(** ** Representation *)

Record region_rep (s : Buddy) (r : Z) (x : BuddyRegion) (L : Z -> list Z) : Prop := {
  rr_region : bd_region_mem s !! r = Some x;
  rr_base : r_base x = base;
  rr_total : r_total_size x = total;
  rr_order : r_order x = 26;
  rr_list o : 22 <= o <= 26 -> exists h, r_free x !! Z.to_nat (o - 22) = Some h /\ seg (bd_blocks s) 0 h (L o) 0;
  rr_valid o a : a ∈ L o -> valid o a;
  rr_nodup o : NoDup (L o);
  rr_uniq o o' a : a ∈ L o -> a ∈ L o' -> o = o';
  rr_bm o : 22 <= o <= 26 -> is_Some (r_free_bitmap x !! Z.to_nat (o - 22));
  rr_apart o o' p p' i i' : 22 <= o <= 26 -> 22 <= o' <= 26 ->
    r_free_bitmap x !! Z.to_nat (o - 22) = Some p -> r_free_bitmap x !! Z.to_nat (o' - 22) = Some p' ->
    0 <= i <= total / 2 ^ o / 64 -> 0 <= i' <= total / 2 ^ o' / 64 ->
    i * 64 < total / 2 ^ o -> i' * 64 < total / 2 ^ o' ->
    p + 8 * i = p' + 8 * i' -> o = o' /\ i = i';
  rr_bit o a p : valid o a -> r_free_bitmap x !! Z.to_nat (o - 22) = Some p ->
    Z.testbit (load_word s (p + 8 * (block_no o a / 64))) (block_no o a mod 64) = bool_decide (a ∈ L o);
  rr_mask_u : is_u 8 (r_nonempty_mask x);
  rr_mask o : 22 <= o <= 26 -> Z.testbit (r_nonempty_mask x) (o - 22) = negb (bool_decide (L o = []));
  rr_mask_high i : 5 <= i -> Z.testbit (r_nonempty_mask x) i = false;
}.

Definition upd (L : Z -> list Z) (o : Z) (l : list Z) : Z -> list Z :=
  fun o' => if o' =? o then l else L o'.

Lemma upd_eq L o l : upd L o l o = l.
Proof. unfold upd. by rewrite Z.eqb_refl. Qed.

Lemma upd_ne L o l o' : o' <> o -> upd L o l o' = L o'.
Proof. intros H. unfold upd. by apply Z.eqb_neq in H as ->. Qed.

(** ** Bitmap bits *)

Lemma order_index_ok o : 22 <= o <= 26 -> order_index o = o - 22.
Proof. intros Ho. unfold order_index, BIG_BUDDY_MIN_ORDER. apply wsub_small. lia. Qed.

Lemma load_store_word s p v q : load_word (store_word s p v) q = if decide (q = p) then v else load_word s q.
Proof.
  unfold load_word, store_word. simpl. destruct (decide (q = p)) as [->|Hne].
  - by rewrite lookup_insert_eq.
  - by rewrite lookup_insert_ne.
Qed.

Context (Hsp : region_space).

Lemma valid_bound o a : valid o a -> 0 < a < 2 ^ 47 /\ 0 < 2 ^ o <= 2 ^ 26.
Proof using Hsp.
  intros (Ho & Hlo & Hhi & _). destruct Hsp as (Hb & Ht & He & _).
  pose proof (Z.pow_pos_nonneg 2 o ltac:(lia) ltac:(lia)).
  pose proof (Z.pow_le_mono_r 2 o 26 ltac:(lia) ltac:(lia)). lia.
Qed.

Lemma bitmap_location_ok s r x o a p :
  bd_region_mem s !! r = Some x -> r_base x = base -> valid o a ->
  r_free_bitmap x !! Z.to_nat (o - 22) = Some p ->
  bitmap_location s r a o = Ret (p + 8 * (block_no o a / 64), wshl 1 (block_no o a mod 64)).
Proof using Hsp.
  intros Hr Hb Hv Hp. pose proof (valid_bound _ _ Hv) as [Ha _]. destruct (Hv) as (Ho & Hlo & Hhi & _).
  destruct Hsp as (Hb0 & Ht0 & He & _).
  unfold bitmap_location, get_region, at_index. rewrite Hr. simpl. rewrite order_index_ok, Hp by done. simpl.
  rewrite Hb, wsub_small, Z.shiftr_div_pow2 by lia. change (64 - 1) with (2 ^ 6 - 1). rewrite land_low by lia. done.
Qed.

(** Two blocks share a bitmap bit only if they are the same. *)
Lemma bit_unique s r x L o a p o2 a2 p2 :
  region_rep s r x L -> valid o a -> valid o2 a2 ->
  r_free_bitmap x !! Z.to_nat (o - 22) = Some p -> r_free_bitmap x !! Z.to_nat (o2 - 22) = Some p2 ->
  p + 8 * (block_no o a / 64) = p2 + 8 * (block_no o2 a2 / 64) ->
  block_no o a mod 64 = block_no o2 a2 mod 64 -> o = o2 /\ a = a2.
Proof.
  clear Hsp. intros Hrep Hv Hv2 Hp Hp2 Hw Hm. pose proof (valid_block _ _ Hv) as (_ & H0 & H1). pose proof (valid_block _ _ Hv2) as (_ & H2 & H3).
  pose proof (Z.div_mod (block_no o a) 64 ltac:(lia)) as D1. pose proof (Z.div_mod (block_no o2 a2) 64 ltac:(lia)) as D2.
  pose proof (Z.mod_pos_bound (block_no o a) 64 ltac:(lia)). pose proof (Z.mod_pos_bound (block_no o2 a2) 64 ltac:(lia)).
  destruct (rr_apart _ _ _ _ Hrep o o2 p p2 (block_no o a / 64) (block_no o2 a2 / 64)) as [-> He]; try done; try lia;
    [apply Hv|apply Hv2|split; [lia|apply Z.div_le_mono; lia]|split; [lia|apply Z.div_le_mono; lia]|].
  split; [done|]. apply (block_no_inj o2); try done. lia.
Qed.

(** The bits after one word was rewritten in one bit. *)
Lemma rewrite_bit s r x L o a p nv (b : bool) :
  region_rep s r x L -> valid o a -> r_free_bitmap x !! Z.to_nat (o - 22) = Some p ->
  (forall n, 0 <= n < 64 -> Z.testbit nv n =
     if n =? block_no o a mod 64 then b else Z.testbit (load_word s (p + 8 * (block_no o a / 64))) n) ->
  forall o2 a2 p2, valid o2 a2 -> r_free_bitmap x !! Z.to_nat (o2 - 22) = Some p2 ->
    Z.testbit (load_word (store_word s (p + 8 * (block_no o a / 64)) nv) (p2 + 8 * (block_no o2 a2 / 64))) (block_no o2 a2 mod 64)
    = if (o2 =? o) && (a2 =? a) then b else bool_decide (a2 ∈ L o2).
Proof.
  clear Hsp. intros Hrep Hv Hp Hnv o2 a2 p2 Hv2 Hp2. rewrite load_store_word, <- (rr_bit _ _ _ _ Hrep o2 a2 p2 Hv2 Hp2).
  destruct (decide (p2 + 8 * (block_no o2 a2 / 64) = p + 8 * (block_no o a / 64))) as [He|Hne].
  - rewrite Hnv by (apply Z.mod_pos_bound; lia). destruct (Z.eqb_spec (block_no o2 a2 mod 64) (block_no o a mod 64)) as [Hm|Hm].
    + destruct (bit_unique _ _ _ _ _ _ _ _ _ _ Hrep Hv2 Hv Hp2 Hp He Hm) as [-> ->]. by rewrite !Z.eqb_refl.
    + rewrite <- He. destruct (Z.eqb_spec o2 o) as [->|]; [|done]. destruct (Z.eqb_spec a2 a) as [->|]; [|done]. done.
  - destruct (Z.eqb_spec o2 o) as [->|]; [|done]. destruct (Z.eqb_spec a2 a) as [->|]; [|done]. simpl. congruence.
Qed.

Lemma block_is_free_ok s r x L o a :
  region_rep s r x L -> valid o a -> block_is_free s r a o = Ret (bool_decide (a ∈ L o)).
Proof using Hsp.
  intros Hrep Hv. destruct (rr_bm _ _ _ _ Hrep o (proj1 Hv)) as [p Hp]. unfold block_is_free.
  rewrite (bitmap_location_ok _ _ _ _ _ _ (rr_region _ _ _ _ Hrep) (rr_base _ _ _ _ Hrep) Hv Hp). simpl.
  rewrite <- (rr_bit _ _ _ _ Hrep o a p Hv Hp). f_equal.
  set (w := load_word s _). set (m := block_no o a mod 64).
  assert (Hm : 0 <= m < 64) by (apply Z.mod_pos_bound; lia).
  destruct (Z.testbit w m) eqn:E.
  - apply negb_true_iff, Z.eqb_neq. intros H0. apply (f_equal (fun z => Z.testbit z m)) in H0.
    rewrite Z.land_spec, E, single_mask_testbit, Z.eqb_refl, Z.bits_0 in H0 by lia. done.
  - apply negb_false_iff, Z.eqb_eq. apply Z.bits_inj'. intros n Hn. rewrite Z.land_spec, Z.bits_0.
    destruct (decide (n < 64)).
    + rewrite single_mask_testbit by lia. destruct (Z.eqb_spec n m) as [->|]; [by rewrite E|by rewrite andb_false_r].
    + rewrite (testbit_high 64 (wshl 1 m)); [by rewrite andb_false_r|apply (wrap_range 64); lia|lia].
Qed.

(** ** Frames *)

Definition static_eq (x x' : BuddyRegion) : Prop :=
  r_next x' = r_next x /\ r_base x' = r_base x /\ r_total_size x' = r_total_size x /\ r_order x' = r_order x /\
  r_node_id x' = r_node_id x /\ r_free_bitmap x' = r_free_bitmap x /\ r_free_bitmap_words x' = r_free_bitmap_words x.

(** The address of a bitmap word of region [x]. *)
Definition own_word (x : BuddyRegion) (w : Z) : Prop :=
  exists o p i, 22 <= o <= 26 /\ r_free_bitmap x !! Z.to_nat (o - 22) = Some p /\
    0 <= i /\ i * 64 < total / 2 ^ o /\ w = p + 8 * i.

(** From [s] to [s'] only region [r], its blocks and its bitmaps change. *)
Record local_to (r : Z) (x : BuddyRegion) (s s' : Buddy) : Prop := {
  lo_scalars : bd_regions s' = bd_regions s /\ bd_grow_order s' = bd_grow_order s /\ bd_thp s' = bd_thp s /\
    bd_init s' = bd_init s /\ bd_cached_va s' = bd_cached_va s;
  lo_regions r' : r' <> r -> bd_region_mem s' !! r' = bd_region_mem s !! r';
  lo_static : exists x0 x', bd_region_mem s !! r = Some x0 /\ bd_region_mem s' !! r = Some x' /\
    static_eq x x0 /\ static_eq x x';
  lo_blocks a : ~ (base <= a < base + total) -> bd_blocks s' !! a = bd_blocks s !! a;
  lo_words w : ~ own_word x w -> bd_words s' !! w = bd_words s !! w;
}.

Lemma local_refl r x s : bd_region_mem s !! r = Some x -> local_to r x s s.
Proof. clear Hsp. intros Hx. constructor; try done. exists x, x. by repeat split. Qed.

Lemma local_trans r x s1 s2 s3 : local_to r x s1 s2 -> local_to r x s2 s3 -> local_to r x s1 s3.
Proof.
  clear Hsp. intros [(A1 & A2 & A3 & A4 & A5) A6 A7 A8 A9] [(B1 & B2 & B3 & B4 & B5) B6 B7 B8 B9]. constructor.
  - by rewrite B1, B2, B3, B4, B5.
  - intros r' Hr. by rewrite B6, A6.
  - destruct A7 as (x0 & _ & H0 & _ & S0 & _), B7 as (_ & x' & _ & H1 & _ & S1). eauto 8.
  - intros a Ha. by rewrite B8, A8.
  - intros w Hw. by rewrite B9, A9.
Qed.

Lemma local_eq r x x1 s s' : static_eq x x1 -> local_to r x1 s s' -> local_to r x s s'.
Proof.
  clear Hsp. intros (E1 & E2 & E3 & E4 & E5 & E6 & E7) [A1 A2 (x0 & x' & H0 & H1 & S0 & S1) A4 A5].
  constructor; try done.
  - exists x0, x'. unfold static_eq in *. split_and!; try done; naive_solver congruence.
  - intros w Hw. apply A5. unfold own_word in *. by rewrite E6.
Qed.

Lemma own_word_block x o a p :
  valid o a -> r_free_bitmap x !! Z.to_nat (o - 22) = Some p -> own_word x (p + 8 * (block_no o a / 64)).
Proof.
  clear Hsp. intros Hv Hp. pose proof (valid_block _ _ Hv) as (_ & H0 & H1).
  exists o, p, (block_no o a / 64). split; [apply Hv|]. split; [done|]. split; [apply Z.div_pos; lia|]. split; [|done].
  pose proof (Z.mul_div_le (block_no o a) 64). lia.
Qed.

(** ** Executing the block writes *)

Lemma get_region_ok s r x : bd_region_mem s !! r = Some x -> get_region s r = Ret x.
Proof. clear Hsp. intros H. unfold get_region. by rewrite H. Qed.

Lemma get_block_ok s p b : bd_blocks s !! p = Some b -> get_block s p = Ret b.
Proof. clear Hsp. intros H. unfold get_block. by rewrite H. Qed.

Lemma set_prev_ok s p b v :
  bd_blocks s !! p = Some b ->
  set_prev s p v = Ret (set_blocks s (<[p := mkFreeBlock (fb_next b) v (fb_life_time b) (fb_trim_state b)]> (bd_blocks s))).
Proof. clear Hsp. intros H. unfold set_prev, update_block. by rewrite (get_block_ok _ _ _ H). Qed.

Lemma set_next_ok s p b v :
  bd_blocks s !! p = Some b ->
  set_next s p v = Ret (set_blocks s (<[p := mkFreeBlock v (fb_prev b) (fb_life_time b) (fb_trim_state b)]> (bd_blocks s))).
Proof. clear Hsp. intros H. unfold set_next, update_block. by rewrite (get_block_ok _ _ _ H). Qed.

Lemma order_bit_testbit o n : 22 <= o <= 26 -> 0 <= n -> Z.testbit (order_bit o) n = (n =? o - 22).
Proof.
  clear Hsp. intros Ho Hn. unfold order_bit. rewrite order_index_ok, Z.shiftl_1_l, wrap_testbit, pow2_testbit by lia.
  destruct (Z.eqb_spec n (o - 22)) as [->|]; [|by rewrite andb_false_r]. destruct (o - 22 <? 8) eqn:?; [done|lia].
Qed.

(** ** Pushing a block *)

Section Push.
Context (s : Buddy) (r : Z) (x : BuddyRegion) (L : Z -> list Z) (o a h : Z) (b : FreeBlock).
Context (Hrep : region_rep s r x L) (Hv : valid o a) (Hnew : forall o', a ∉ L o') (Hb : bd_blocks s !! a = Some b)
  (Hh : r_free x !! Z.to_nat (o - 22) = Some h) (Hseg : seg (bd_blocks s) 0 h (L o) 0).

Let L' := upd L o (a :: L o).

(** The block map after the list operations: [a] in front of the old head. *)
Abbreviation push_blocks := (link (bd_blocks s) a (mkFreeBlock h 0 (fb_life_time b) (fb_trim_state b)) (L o)).

Lemma push_seg : seg push_blocks 0 a (a :: L o) 0.
Proof using Hnew Hseg Hrep. clear Hsp. apply (link_seg _ _ _ _ h); try done. apply (rr_nodup _ _ _ _ Hrep). Qed.

(** The list operations of [push_free_block]. *)
Lemma push_run :
  (s ← set_prev s a null; head ← get_head s r (order_index o); s ← set_next s a head;
   if negb (head =? null) then set_prev s head a else Ret s) = Ret (set_blocks s push_blocks).
Proof using All.
  pose proof (Hnew o) as Hn. pose proof (rr_nodup _ _ _ _ Hrep o) as Hnd.
  rewrite (set_prev_ok _ _ _ _ Hb). cbn [mbind outcome_bind].
  assert (get_head (set_blocks s (<[a:=mkFreeBlock (fb_next b) 0 (fb_life_time b) (fb_trim_state b)]> (bd_blocks s))) r (order_index o) = Ret h) as ->.
  { unfold get_head. rewrite (get_region_ok _ _ x) by apply Hrep. unfold at_index. simpl. rewrite order_index_ok by apply Hv. by rewrite Hh. }
  cbn [mbind outcome_bind].
  rewrite (set_next_ok _ _ (mkFreeBlock (fb_next b) 0 (fb_life_time b) (fb_trim_state b))) by apply lookup_insert_eq.
  cbn [mbind outcome_bind fb_prev fb_life_time fb_trim_state]. unfold set_blocks at 2 3. simpl bd_blocks. rewrite insert_insert_eq.
  pose proof (seg_head _ _ _ _ _ Hseg) as Hhd. unfold link. destruct (L o) as [|c l] eqn:HL; cbn in Hhd.
  - rewrite Hhd. reflexivity.
  - assert (Hc0 : c <> 0) by (pose proof (valid_bound o c (rr_valid _ _ _ _ Hrep o c ltac:(rewrite HL; apply elem_of_cons; by left))); lia).
    rewrite not_elem_of_cons in Hn. subst h.
    destruct (seg_elem _ _ _ _ _ c Hseg ltac:(apply elem_of_cons; by left)) as [d Hd].
    destruct (c =? 0) eqn:?; [lia|]. cbn [negb].
    rewrite (set_prev_ok _ _ d) by (simpl; rewrite lookup_insert_ne; [done|naive_solver]). simpl.
    rewrite lookup_insert_ne by naive_solver. by rewrite Hd.
Qed.

(** The lists after the push. *)
Lemma push_lists o' :
  22 <= o' <= 26 ->
  exists h', <[Z.to_nat (o - 22) := a]> (r_free x) !! Z.to_nat (o' - 22) = Some h' /\ seg push_blocks 0 h' (L' o') 0.
Proof using All.
  intros Ho'. unfold L'. destruct (decide (o' = o)) as [->|Hne].
  - exists a. rewrite upd_eq, list_lookup_insert_eq; [split; [done|apply push_seg]|]. by eapply lookup_lt_Some.
  - destruct (rr_list _ _ _ _ Hrep o' Ho') as (h' & Hh' & Hs'). exists h'. rewrite upd_ne by done.
    rewrite list_lookup_insert_ne by (destruct Hv as [? _]; lia). split; [done|]. eapply seg_ext; [|exact Hs'].
    intros c Hc. apply link_other; [intros ->; by apply (Hnew o')|].
    intros Hin. by apply Hne, (rr_uniq _ _ _ _ Hrep _ _ c).
Qed.

Lemma push_elem o' c : c ∈ L' o' <-> c ∈ L o' \/ (o' = o /\ c = a).
Proof using base.
  unfold L', upd. destruct (Z.eqb_spec o' o) as [->|]; [rewrite elem_of_cons|]; tauto.
Qed.

Definition pushed_region : BuddyRegion :=
  with_mask (with_free x (<[Z.to_nat (o - 22) := a]> (r_free x))) (Z.lor (r_nonempty_mask x) (order_bit o)).

Lemma push_mask :
  is_u 8 (r_nonempty_mask pushed_region) /\
  (forall o', 22 <= o' <= 26 -> Z.testbit (r_nonempty_mask pushed_region) (o' - 22) = negb (bool_decide (L' o' = []))) /\
  (forall i, 5 <= i -> Z.testbit (r_nonempty_mask pushed_region) i = false).
Proof using Hrep Hv.
  clear Hsp Hnew Hb Hh Hseg. pose proof (proj1 Hv) as Ho. simpl. split; [|split].
  - apply lor_u; [lia|apply Hrep|]. apply (wrap_range 8). lia.
  - intros o' Ho'. rewrite Z.lor_spec, (rr_mask _ _ _ _ Hrep), order_bit_testbit by lia. unfold L', upd.
    destruct (Z.eqb_spec o' o) as [->|Hne]; [by rewrite Z.eqb_refl, orb_true_r|].
    destruct (Z.eqb_spec (o' - 22) (o - 22)); [lia|]. by rewrite orb_false_r.
  - intros i Hi. rewrite Z.lor_spec, (rr_mask_high _ _ _ _ Hrep), order_bit_testbit by lia.
    destruct (Z.eqb_spec i (o - 22)); [lia|done].
Qed.

Lemma push_rep s' p :
  r_free_bitmap x !! Z.to_nat (o - 22) = Some p ->
  bd_region_mem s' !! r = Some pushed_region -> bd_blocks s' = push_blocks ->
  (forall w, load_word s' w = load_word (store_word s (p + 8 * (block_no o a / 64))
     (Z.lor (load_word s (p + 8 * (block_no o a / 64))) (wshl 1 (block_no o a mod 64)))) w) ->
  region_rep s' r pushed_region L'.
Proof using All.
  intros Hp Hr Hbl Hw. destruct push_mask as (Hmu & Hm & Hmh). constructor; try done; try apply Hrep.
  - intros o' Ho'. rewrite Hbl. by apply push_lists.
  - intros o' c [Hc|[Ho1 Hc]]%push_elem; [by apply Hrep|by rewrite Ho1, Hc].
  - intros o'. unfold L', upd. destruct (o' =? o); [|apply Hrep]. apply NoDup_cons. split; [apply Hnew|apply Hrep].
  - intros o1 o2 c [H1|[E1 E2]]%push_elem [H2|[E3 E4]]%push_elem; [by eapply rr_uniq|..|congruence];
      [rewrite E4 in H1|rewrite E2 in H2]; by edestruct Hnew.
  - intros o2 c q Hv2 Hq. rewrite Hw. rewrite (rewrite_bit s r x L o a p _ true Hrep Hv Hp); [|..|done|done].
    + apply eq_true_iff_eq. rewrite bool_decide_eq_true, push_elem.
      destruct (Z.eqb_spec o2 o), (Z.eqb_spec c a); simpl; rewrite ?bool_decide_eq_true; naive_solver.
    + intros n Hn. rewrite Z.lor_spec, single_mask_testbit by (lia || apply Z.mod_pos_bound; lia).
      destruct (n =? _); [by rewrite orb_true_r|by rewrite orb_false_r].
Qed.
End Push.

Lemma push_ok s r x L o a b :
  region_rep s r x L -> valid o a -> (forall o', a ∉ L o') -> bd_blocks s !! a = Some b ->
  exists s' x', push_free_block s r o a = Ret s' /\ region_rep s' r x' (upd L o (a :: L o)) /\ local_to r x s s' /\
    bd_blocks s' !! a = Some (mkFreeBlock (headd (L o) 0) 0 (fb_life_time b) (fb_trim_state b)).
Proof using Hsp.
  intros Hrep Hv Hnew Hb. pose proof (proj1 Hv) as Ho. destruct (rr_list _ _ _ _ Hrep o Ho) as (h & Hh & Hseg).
  destruct (rr_bm _ _ _ _ Hrep o Ho) as [p Hp]. pose proof (rr_region _ _ _ _ Hrep) as Hx.
  unfold push_free_block. pose proof (push_run s r x L o a h b Hrep Hv Hnew Hb Hh Hseg) as Hrun.
  cbv zeta. rewrite (order_index_ok o Ho) in Hrun |- *. run_ret Hrun. unfold set_head at 1.
  rewrite (get_region_ok _ _ x) by exact Hx. cbn [mbind outcome_bind]. unfold at_index at 1. rewrite Hh.
  cbn [from_option mbind outcome_bind].
  set (x1 := with_free x _). set (s1 := put_region _ _ _).
  assert (Hx1 : bd_region_mem s1 !! r = Some x1) by apply lookup_insert_eq.
  rewrite (bitmap_location_ok s1 r x1 o a p Hx1 (rr_base _ _ _ _ Hrep) Hv Hp). cbn [mbind outcome_bind].
  unfold mark_order_nonempty. rewrite (get_region_ok _ _ x1) by exact Hx1. cbn [mbind outcome_bind].
  eexists _, (pushed_region x o a). split; [reflexivity|]. split; [|split].
  - apply (push_rep s r x L o a h b Hrep Hv Hnew Hb Hh Hseg _ p Hp); [apply lookup_insert_eq|done|done].
  - constructor; try done.
    + intros r' Hr. simpl. by rewrite !lookup_insert_ne.
    + exists x, (pushed_region x o a). split; [done|]. split; [|by repeat split].
      apply lookup_insert_eq.
    + intros c Hc. simpl. apply link_other.
      * intros ->. destruct Hv as (_ & ? & ? & _). pose proof (Z.pow_pos_nonneg 2 o). lia.
      * intros Hin. pose proof (rr_valid _ _ _ _ Hrep _ _ Hin) as (_ & ? & ? & _). pose proof (Z.pow_pos_nonneg 2 o). lia.
    + intros w Hw. simpl. rewrite lookup_insert_ne; [done|]. intros <-. by apply Hw, own_word_block.
  - rewrite <- (seg_head _ _ _ _ _ Hseg). simpl; apply link_self, Hnew.
Qed.

(** ** Removing a block *)

Section Remove.
Context (s : Buddy) (r : Z) (x : BuddyRegion) (L : Z -> list Z) (o a h : Z) (l1 l2 : list Z) (b : FreeBlock).
Context (Hrep : region_rep s r x L) (Ho : 22 <= o <= 26) (HL : L o = l1 ++ a :: l2) (Hb : bd_blocks s !! a = Some b)
  (Hh : r_free x !! Z.to_nat (o - 22) = Some h) (Hseg : seg (bd_blocks s) 0 h (l1 ++ a :: l2) 0).

Abbreviation L2 := (upd L o (l1 ++ l2)).

Abbreviation unlink_next := (unlink_next (bd_blocks s) l1 l2).
Abbreviation unlink_blocks := (unlink (bd_blocks s) l1 l2).

Lemma unlink_nodup : NoDup l1 /\ NoDup l2 /\ a ∉ l1 /\ a ∉ l2 /\ (forall c, c ∈ l1 -> c ∉ l2).
Proof using Hrep HL.
  clear Hsp Hseg. apply nodup_middle. rewrite <- HL. apply (rr_nodup _ _ _ _ Hrep).
Qed.

(** The head of the list after the removal. *)
Definition new_head : Z := if decide (l1 = []) then headd l2 0 else h.

Definition new_free : list Z := <[Z.to_nat (o - 22) := new_head]> (r_free x).

Lemma elem_nonzero c : c ∈ L o -> c <> 0.
Proof using Hsp Hrep. intros Hc%(rr_valid _ _ _ _ Hrep)%valid_bound. lia. Qed.

Lemma new_head_zero : new_head = 0 <-> l1 ++ l2 = [].
Proof using All.
  unfold new_head. pose proof (seg_head _ _ _ _ _ Hseg) as Hhd.
  assert (Hin : forall c, c ∈ l1 \/ c ∈ l2 -> c <> 0).
  { intros c Hc. apply elem_nonzero. rewrite HL, elem_of_app, elem_of_cons. tauto. }
  destruct (decide (l1 = [])) as [->|Hne]; simpl.
  - destruct l2 as [|d l]; [done|]. unfold headd. simpl. split; [|done]. intros ->. exfalso. apply (Hin 0); [|done]. right. apply elem_of_cons. by left.
  - destruct l1 as [|d l]; [done|]. simpl in Hhd. split; [|done]. intros ->. exfalso. apply (Hin 0); [|done].
    left. rewrite Hhd. apply elem_of_cons. by left.
Qed.

(** The first list operation: the predecessor, or the head. *)
Lemma remove_prev_run :
  exists s1, (if lastd 0 l1 =? null then set_head s r (o - 22) (headd l2 0) else set_next s (lastd 0 l1) (headd l2 0)) = Ret s1 /\
    bd_region_mem s1 !! r = Some (with_free x new_free) /\ (forall r', r' <> r -> bd_region_mem s1 !! r' = bd_region_mem s !! r') /\
    bd_blocks s1 = unlink_next /\ bd_words s1 = bd_words s /\
    (bd_regions s1 = bd_regions s /\ bd_grow_order s1 = bd_grow_order s /\ bd_thp s1 = bd_thp s /\
     bd_init s1 = bd_init s /\ bd_cached_va s1 = bd_cached_va s).
Proof using All.
  pose proof (rr_region _ _ _ _ Hrep) as Hx. unfold new_free, new_head, unlink_next.
  destruct (list_last_inv l1) as [He|(l & c & He)]; rewrite He.
  - simpl. unfold set_head. rewrite (get_region_ok _ _ _ Hx). simpl. unfold at_index. rewrite Hh. simpl.
    eexists. split; [done|]. simpl. split; [apply lookup_insert_eq|]. split; [|done]. intros r' Hr. by apply lookup_insert_ne.
  - unfold lastd. rewrite last_snoc. simpl. rewrite decide_False by (by destruct l).
    assert (Hc : c ∈ L o) by (rewrite HL, He, !elem_of_app; left; right; by apply list_elem_of_singleton).
    pose proof (elem_nonzero c Hc). destruct (c =? 0) eqn:?; [lia|].
    destruct (seg_elem _ _ _ _ _ c Hseg ltac:(rewrite <- HL; done)) as [d Hd].
    rewrite (set_next_ok _ _ _ _ Hd), Hd. eexists. split; [done|]. simpl. split; [|done].
    rewrite list_insert_id by done. rewrite Hx. by destruct x.
Qed.

(** The list operations of [remove_free_block]. *)
Lemma remove_run :
  exists s1, (s ← (if fb_prev b =? null then set_head s r (order_index o) (fb_next b) else set_next s (fb_prev b) (fb_next b));
     if negb (fb_next b =? null) then set_prev s (fb_next b) (fb_prev b) else Ret s) = Ret s1 /\
    bd_region_mem s1 !! r = Some (with_free x new_free) /\ (forall r', r' <> r -> bd_region_mem s1 !! r' = bd_region_mem s !! r') /\
    bd_blocks s1 = unlink_blocks /\ bd_words s1 = bd_words s /\
    (bd_regions s1 = bd_regions s /\ bd_grow_order s1 = bd_grow_order s /\ bd_thp s1 = bd_thp s /\
     bd_init s1 = bd_init s /\ bd_cached_va s1 = bd_cached_va s).
Proof using All.
  destruct (seg_middle _ _ _ _ _ _ Hseg) as (b' & Hb' & Hp & Hn & _ & S2). rewrite Hb in Hb'. injection Hb' as <-. change (fb_prev b = lastd 0 l1) in Hp. change (fb_next b = headd l2 0) in Hn.
  rewrite Hp, Hn, order_index_ok by done. destruct remove_prev_run as (s1 & -> & Hr1 & Hr2 & Hb1 & Hw & Hs1).
  cbn [mbind outcome_bind].
  destruct (list_head_inv l2) as [He2|(d & l & He2)].
  { exists s1. rewrite (unlink_nil _ _ _ He2), He2 in *. done. }
  assert (headd l2 0 = d) as -> by (by rewrite He2).
  assert (Hd2 : d ∈ l2) by (rewrite He2; apply elem_of_cons; by left).
  assert (Hd : d ∈ L o) by (rewrite HL, elem_of_app, elem_of_cons; auto). pose proof (elem_nonzero d Hd).
  destruct (d =? 0) eqn:?; [lia|]. simpl.
  destruct unlink_nodup as (_ & _ & _ & _ & D).
  assert (Hnd : is_Some (unlink_next !! d)).
  { rewrite unlink_next_other; [eapply seg_elem; [exact Hseg|by rewrite <- HL]|].
    intros Hl%last_Some_elem_of. by apply (D d Hl). }
  destruct Hnd as [e He]. rewrite (set_prev_ok _ _ e) by (by rewrite Hb1).
  eexists. split; [done|]. simpl. rewrite Hb1, (unlink_cons _ _ _ d l e He2 He). done.
Qed.

Lemma remove_elem o' c : c ∈ L2 o' <-> c ∈ L o' /\ c <> a \/ (o' <> o /\ c ∈ L o').
Proof using All.
  destruct unlink_nodup as (_ & _ & A1 & A2 & _). clear Hsp Hseg Hb Hh. unfold upd. destruct (Z.eqb_spec o' o) as [->|]; [|tauto].
  rewrite HL, !elem_of_app, elem_of_cons. split; [|naive_solver].
  intros Hc. left. split; [tauto|]. intros ->. tauto.
Qed.

Definition removed_mask : Z :=
  if decide (l1 ++ l2 = []) then Z.land (r_nonempty_mask x) (wnot 8 (order_bit o)) else r_nonempty_mask x.

Definition removed_region : BuddyRegion := with_mask (with_free x new_free) removed_mask.

Lemma removed_mask_bit i :
  0 <= i -> Z.testbit removed_mask i = Z.testbit (r_nonempty_mask x) i && negb (bool_decide (l1 ++ l2 = []) && (i =? o - 22)).
Proof using Ho Hrep.
  intros Hi. unfold removed_mask. destruct (decide (l1 ++ l2 = [])) as [He|Hne].
  - rewrite bool_decide_true by done. rewrite Z.land_spec, wnot_testbit, order_bit_testbit by lia. simpl.
    destruct (i <? 8) eqn:?; [done|]. rewrite (rr_mask_high _ _ _ _ Hrep) by lia. done.
  - rewrite bool_decide_false by done. by rewrite andb_true_r.
Qed.

Lemma remove_rep s' p :
  r_free_bitmap x !! Z.to_nat (o - 22) = Some p -> valid o a ->
  bd_region_mem s' !! r = Some removed_region -> bd_blocks s' = unlink_blocks ->
  (forall w, load_word s' w = load_word (store_word s (p + 8 * (block_no o a / 64))
     (Z.land (load_word s (p + 8 * (block_no o a / 64))) (wnot 64 (wshl 1 (block_no o a mod 64))))) w) ->
  region_rep s' r removed_region L2.
Proof using All.
  intros Hp Hv Hr Hbl Hw. assert (Hsub : forall o' c, c ∈ L2 o' -> c ∈ L o') by (intros o' c Hc%remove_elem; tauto).
  constructor; try done; try apply Hrep.
  - intros o' Ho'. simpl. unfold new_free. destruct (decide (o' = o)) as [->|Hne].
    + exists new_head. rewrite upd_eq, list_lookup_insert_eq by (by eapply lookup_lt_Some). rewrite Hbl.
      split; [done|]. eapply unlink_seg; [|exact Hseg]. rewrite <- HL. apply (rr_nodup _ _ _ _ Hrep).
    + rewrite upd_ne, list_lookup_insert_ne by (done || lia). destruct (rr_list _ _ _ _ Hrep o' Ho') as (h' & Hh' & Hs').
      exists h'. split; [done|]. eapply seg_ext; [|exact Hs']. intros c Hc. rewrite Hbl. apply unlink_other; intros Hin;
        apply Hne, (rr_uniq _ _ _ _ Hrep _ _ c Hc); rewrite HL; set_solver.
  - intros o' c Hc. apply Hrep, Hsub, Hc.
  - intros o'. unfold upd. destruct (o' =? o); [|apply Hrep]. destruct unlink_nodup as (? & ? & _ & _ & ?). by apply NoDup_app.
  - intros o1 o2 c H1%Hsub H2%Hsub. by eapply rr_uniq.
  - intros o2 c q Hv2 Hq. rewrite Hw. rewrite (rewrite_bit s r x L o a p _ false Hrep Hv Hp); [|..|done|done].
    + apply eq_true_iff_eq. rewrite bool_decide_eq_true, remove_elem.
      destruct (Z.eqb_spec o2 o) as [->|], (Z.eqb_spec c a) as [->|]; simpl; rewrite ?bool_decide_eq_true; naive_solver.
    + intros n Hn. rewrite Z.land_spec, wnot_testbit, single_mask_testbit by (lia || apply Z.mod_pos_bound; lia).
      destruct (n <? 64) eqn:?; [|lia]. simpl. destruct (n =? _); [by rewrite andb_false_r|by rewrite andb_true_r].
  - simpl. unfold removed_mask. destruct (decide _); [apply land_u; [lia|]|]; apply Hrep.
  - intros o' Ho'. simpl. rewrite removed_mask_bit, (rr_mask _ _ _ _ Hrep) by lia. unfold upd.
    destruct (Z.eqb_spec o' o) as [->|Hne].
    + rewrite Z.eqb_refl, andb_true_r. rewrite (bool_decide_false (L o = [])) by (rewrite HL; by destruct l1). done.
    + destruct (Z.eqb_spec (o' - 22) (o - 22)); [lia|]. by rewrite andb_false_r, andb_true_r.
  - intros i Hi. simpl. rewrite removed_mask_bit, (rr_mask_high _ _ _ _ Hrep) by lia. done.
Qed.

Lemma mark_empty_ok s1 :
  bd_region_mem s1 !! r = Some (with_free x new_free) ->
  exists s2, mark_order_empty_if_needed s1 r o = Ret s2 /\ bd_region_mem s2 !! r = Some removed_region /\
    (forall r', r' <> r -> bd_region_mem s2 !! r' = bd_region_mem s1 !! r') /\
    bd_blocks s2 = bd_blocks s1 /\ bd_words s2 = bd_words s1 /\
    (bd_regions s2 = bd_regions s1 /\ bd_grow_order s2 = bd_grow_order s1 /\ bd_thp s2 = bd_thp s1 /\
     bd_init s2 = bd_init s1 /\ bd_cached_va s2 = bd_cached_va s1).
Proof using All.
  intros Hx1. unfold mark_order_empty_if_needed. rewrite (get_region_ok _ _ _ Hx1). cbn [mbind outcome_bind].
  assert (at_index (r_free (with_free x new_free)) (order_index o) = Ret new_head) as ->.
  { unfold at_index. simpl. rewrite order_index_ok by done. unfold new_free.
    by rewrite list_lookup_insert_eq by (by eapply lookup_lt_Some). }
  cbn [mbind outcome_bind]. pose proof new_head_zero as Hz. unfold removed_region, removed_mask.
  destruct (Z.eqb_spec new_head 0) as [H0|H0].
  - rewrite decide_True by (by apply Hz). eexists. split; [done|]. simpl. split; [apply lookup_insert_eq|].
    split; [|done]. intros r' Hr. by apply lookup_insert_ne.
  - rewrite decide_False by (intros He; by apply H0, Hz). exists s1. done.
Qed.
End Remove.

Lemma remove_free_ok s r x L o a :
  region_rep s r x L -> 22 <= o <= 26 -> a ∈ L o ->
  exists s' x' l1 l2, L o = l1 ++ a :: l2 /\ remove_free_block s r o a = Ret s' /\
    region_rep s' r x' (upd L o (l1 ++ l2)) /\ local_to r x s s'.
Proof using Hsp.
  intros Hrep Ho Ha. pose proof (rr_valid _ _ _ _ Hrep _ _ Ha) as Hv. pose proof (rr_region _ _ _ _ Hrep) as Hx.
  destruct (rr_list _ _ _ _ Hrep o Ho) as (h & Hh & Hseg). destruct (rr_bm _ _ _ _ Hrep o Ho) as [p Hp].
  destruct (seg_elem _ _ _ _ _ _ Hseg Ha) as [b Hb]. apply list_elem_of_split in Ha as (l1 & l2 & HL). rewrite HL in Hseg.
  destruct (remove_run s r x L o a h l1 l2 b Hrep Ho HL Hb Hh Hseg) as (s1 & Hrun & Hx1 & Hr1 & Hb1 & Hw1 & Hsc).
  unfold remove_free_block. rewrite (get_block_ok _ _ _ Hb). cbn [mbind outcome_bind]. cbv zeta. run_ret Hrun.
  rewrite (bitmap_location_ok s1 r _ o a p Hx1 (rr_base _ _ _ _ Hrep) Hv Hp). cbn [mbind outcome_bind].
  destruct (mark_empty_ok s r x L o a h l1 l2 b Hrep Ho HL Hb Hh Hseg (store_word s1 (p + 8 * (block_no o a / 64))
    (Z.land (load_word s1 (p + 8 * (block_no o a / 64))) (wnot 64 (wshl 1 (block_no o a mod 64)))))) as (s2 & Hm & Hx2 & Hr2 & Hb2 & Hw2 & Hsc2); [done|].
  exists s2, (removed_region x o h l1 l2), l1, l2. split; [done|]. split; [done|]. split.
  - apply (remove_rep s r x L o a h l1 l2 b Hrep Ho HL Hb Hh Hseg _ p); try done; [by rewrite Hb2|].
    intros w. unfold load_word. rewrite Hw2. simpl. unfold load_word. by rewrite Hw1.
  - constructor.
    + simpl in Hsc2. naive_solver congruence.
    + intros r' Hr. by rewrite Hr2, Hr1.
    + exists x, (removed_region x o h l1 l2). split; [done|]. split; [done|]. by repeat split.
    + intros c Hc. rewrite Hb2. simpl. rewrite Hb1. apply unlink_other; intros Hin; apply Hc;
        (assert (Hc' : valid o c) by (apply (rr_valid _ _ _ _ Hrep); rewrite HL, elem_of_app, elem_of_cons; auto));
        destruct Hc' as (_ & ? & ? & _); pose proof (Z.pow_pos_nonneg 2 o); lia.
    + intros w Hw. rewrite Hw2. simpl. rewrite Hw1, lookup_insert_ne; [done|]. intros <-. by apply Hw, own_word_block.
Qed.
End Region.
