(* ===== verification/BuddyProofs.v ===== *)
(** * Correctness of the buddy allocator

    The blocks in use and the free blocks of a region tile it at every moment,
    and no two free buddies stay apart.  [alloc_from_region], [free] and
    [try_grow_inplace] are proved against this invariant. *)

From S2P Require Import Prelude Types SizeClasses DList Kernel Binder Radix Buddy BuddyRep.

Ltac Zify.zify_post_hook ::= idtac.

Section Region.
Context (base total : Z) (Hsp : region_space base total).
Implicit Types (s : Buddy) (r o a : Z) (x : BuddyRegion) (L : Z -> list Z) (A : gset (Z * Z)).
Abbreviation valid := (valid base total).
Abbreviation region_rep := (region_rep base total).
Abbreviation local_to := (local_to base total).

(** ** Tilings *)

Record tiling (B : Z -> Z -> Prop) : Prop := {
  ti_valid o a : B o a -> valid o a;
  ti_disj o a o' a' : B o a -> B o' a' -> a < a' + 2 ^ o' -> a' < a + 2 ^ o -> o = o' /\ a = a';
  ti_cover p : base <= p < base + total -> exists o a, B o a /\ a <= p < a + 2 ^ o;
}.

Lemma tiling_iff B B' : (forall o a, B o a <-> B' o a) -> tiling B -> tiling B'.
Proof.
  intros HB [H1 H2 H3]. constructor.
  - intros o a Ha%HB. auto.
  - intros o a o' a' Ha%HB Ha'%HB. auto.
  - intros p Hp. destruct (H3 p Hp) as (o & a & Ha%HB & ?). eauto.
Qed.

Lemma pow2_pos o : 0 <= o -> 0 < 2 ^ o.
Proof. intros. apply Z.pow_pos_nonneg; lia. Qed.

Lemma pow2_half o : 0 < o -> 2 ^ o = 2 ^ (o - 1) + 2 ^ (o - 1).
Proof. intros Ho. replace o with (o - 1 + 1) at 1 by lia. rewrite Z.pow_add_r by lia. lia. Qed.

(** The two halves of a block. *)
Lemma valid_halves o a : valid o a -> 22 < o -> valid (o - 1) a /\ valid (o - 1) (a + 2 ^ (o - 1)).
Proof.
  intros (Ho & Hlo & Hhi & Hd) Hlt. pose proof (pow2_half o ltac:(lia)). pose proof (pow2_pos (o - 1) ltac:(lia)).
  assert (Hd' : (2 ^ (o - 1) | a - base)).
  { destruct Hd as [q Hq]. exists (q * 2). rewrite Hq. lia. }
  split; (split; [lia|]); (split; [lia|]); (split; [lia|]); [done|].
  replace (a + 2 ^ (o - 1) - base) with (a - base + 2 ^ (o - 1)) by lia. apply Z.divide_add_r; [done|apply Z.divide_refl].
Qed.

Lemma tiling_split B o a :
  tiling B -> B o a -> 22 < o ->
  tiling (fun o' a' => B o' a' /\ ~ (o' = o /\ a' = a) \/ o' = o - 1 /\ (a' = a \/ a' = a + 2 ^ (o - 1))).
Proof.
  intros [H1 H2 H3] Ha Ho. pose proof (pow2_half o ltac:(lia)). pose proof (pow2_pos (o - 1) ltac:(lia)).
  destruct (valid_halves o a (H1 _ _ Ha) Ho) as [Hv1 Hv2]. constructor.
  - intros o' a' [[Hb _]|[-> [-> | ->]]]; auto.
  - intros o1 a1 o2 a2 [[B1 N1]|[-> E1]] [[B2 N2]|[-> E2]] Hlt1 Hlt2; [by apply H2|..].
    + destruct N1. apply H2; [done..| |]; lia.
    + destruct N2. apply H2; [done..| |]; lia.
    + lia.
  - intros p Hp. destruct (H3 p Hp) as (o' & a' & Hb & Hr).
    destruct (decide (o' = o)) as [->|]; [destruct (decide (a' = a)) as [->|]|]; [|by exists o, a'; split; [left; tauto|]|by exists o', a'; split; [left; tauto|]].
    destruct (decide (p < a + 2 ^ (o - 1))); [exists (o - 1), a|exists (o - 1), (a + 2 ^ (o - 1))]; (split; [tauto|lia]).
Qed.

Lemma tiling_merge B o a :
  tiling B -> B o a -> B o (a + 2 ^ o) -> valid (o + 1) a ->
  tiling (fun o' a' => B o' a' /\ ~ (o' = o /\ (a' = a \/ a' = a + 2 ^ o)) \/ o' = o + 1 /\ a' = a).
Proof.
  intros [H1 H2 H3] Ha Hb Hv. pose proof (H1 _ _ Ha) as (Ho & _). pose proof (pow2_half (o + 1) ltac:(lia)) as Hp2.
  replace (o + 1 - 1) with o in Hp2 by lia. pose proof (pow2_pos o ltac:(lia)).
  assert (Hin : forall o1 a1, B o1 a1 -> a1 < a + 2 ^ (o + 1) -> a < a1 + 2 ^ o1 -> o1 = o /\ (a1 = a \/ a1 = a + 2 ^ o)).
  { intros o1 a1 B1 Hl1 Hl2. destruct (decide (a1 < a + 2 ^ o)).
    - destruct (H2 o1 a1 o a) as [-> ->]; [done..|lia|lia|]. auto.
    - pose proof (H1 _ _ B1) as (? & _). pose proof (pow2_pos o1 ltac:(lia)).
      destruct (H2 o1 a1 o (a + 2 ^ o)) as [-> ->]; [done..|lia|lia|]. auto. }
  constructor.
  - intros o' a' [[Hb' _]|[-> ->]]; auto.
  - intros o1 a1 o2 a2 [[B1 N1]|[-> ->]] [[B2 N2]|[-> ->]] Hlt1 Hlt2; [by apply H2|..|done].
    + destruct N1. by apply Hin.
    + destruct N2. apply Hin; [done|lia|lia].
  - intros p Hp. destruct (H3 p Hp) as (o' & a' & Hb' & Hr).
    destruct (decide (a <= p < a + 2 ^ (o + 1))); [exists (o + 1), a; split; [tauto|lia]|].
    exists o', a'. split; [left; split; [done|]|done]. intros [-> [-> | ->]]; lia.
Qed.

(** ** Buddies *)

Definition bud (o a : Z) : Z := base + Z.lxor (a - base) (2 ^ o).

Lemma bud_cases o a :
  valid o a -> o < 26 ->
  (bud o a = a + 2 ^ o /\ valid (o + 1) a) \/ (bud o a = a - 2 ^ o /\ valid (o + 1) (a - 2 ^ o)).
Proof using Hsp.
  intros (Ho & Hlo & Hhi & Hd) Hlt. unfold bud. rewrite lxor_pow2, testbit_div by lia.
  pose proof (pow2_pos o ltac:(lia)) as Hp. destruct Hd as [n Hn]. rewrite Hn, Z.div_mul by lia.
  assert (Hp1 : 2 ^ (o + 1) = 2 ^ o * 2) by (rewrite Z.pow_add_r by lia; lia).
  destruct Hsp as (_ & _ & _ & [t Ht]).
  assert (Htot : total = t * 2 ^ (26 - (o + 1)) * 2 ^ (o + 1)).
  { rewrite <- Z.mul_assoc, <- Z.pow_add_r by lia. replace (26 - (o + 1) + (o + 1)) with 26 by lia. done. }
  set (u := t * 2 ^ (26 - (o + 1))) in *. pose proof (Z.div_mod n 2 ltac:(lia)) as Hdm. rewrite Zmod_odd in Hdm.
  assert (Hn0 : 0 <= n) by (apply (Zmult_le_reg_r 0 n (2 ^ o)); lia).
  set (q := n / 2) in *. assert (Hq0 : 0 <= q) by (apply Z.div_pos; lia). clearbody q u. set (c := 2 ^ o) in *. clearbody c.
  destruct (Z.odd n) eqn:Hodd; simpl in Hdm.
  - right. split; [lia|]. split; [lia|]. assert (Ha : a - base = (2 * q + 1) * c) by lia.
    split; [nia|]. split; [lia|]. exists q. rewrite Hp1. lia.
  - left. split; [lia|]. split; [lia|]. split; [lia|]. assert (Ha : a - base = (2 * q) * c) by lia.
    split; [|exists q; rewrite Hp1; lia].
    assert (q < u) by nia. rewrite Hp1 in *. nia.
Qed.

Lemma valid_bud o a : valid o a -> o < 26 -> valid o (bud o a).
Proof using Hsp.
  intros Hv Hlt. destruct (bud_cases o a Hv Hlt) as [[-> Hp]|[-> Hp]];
    destruct (valid_halves _ _ Hp ltac:(destruct Hv as [? _]; lia)) as [H1 H2];
    replace (o + 1 - 1) with o in * by lia; done.
Qed.

Lemma bud_invol o a : valid o a -> bud o (bud o a) = a.
Proof. unfold bud. intros _. rewrite Z.add_simpl_l, Z.lxor_assoc, Z.lxor_nilpotent, Z.lxor_0_r. lia. Qed.

Lemma buddy_run s r x L o a :
  region_rep s r x L -> valid o a -> buddy s r a o = Ret (bud o a).
Proof using Hsp.
  intros Hrep Hv. destruct (Hv) as (Ho & Hlo & Hhi & _). destruct Hsp as (Hb0 & Ht0 & He & _).
  pose proof (pow2_pos o ltac:(lia)). pose proof (Z.pow_le_mono_r 2 o 26 ltac:(lia) ltac:(lia)).
  unfold buddy. rewrite (get_region_ok _ _ _ (rr_region _ _ _ _ _ _ Hrep)). cbn [mbind outcome_bind].
  rewrite (rr_base _ _ _ _ _ _ Hrep), wsub_small by lia.
  assert (wshl 1 o = 2 ^ o) as -> by (unfold wshl; rewrite Z.shiftl_1_l; apply wrap_small; lia).
  assert (Hx : 0 <= Z.lxor (a - base) (2 ^ o) < 2 ^ 48) by (rewrite lxor_pow2 by lia; case_match; [|lia];
    pose proof (testbit_div o (a - base) ltac:(lia)) as Ht; rewrite Ht in *; destruct (decide (a - base < 2 ^ o));
    [rewrite Z.div_small in * by lia; done|lia]).
  rewrite wadd_small by lia. done.
Qed.

(** ** The invariant *)

(** The blocks of the region: on a free list of [L], or handed out ([A]). *)
Definition held L A (o a : Z) : Prop := a ∈ L o \/ (o, a) ∈ A.

Record buddy_inv s r x L A : Prop := {
  bi_rep : region_rep s r x L;
  bi_tiling : tiling (held L A);
  bi_apart o a : a ∈ L o -> (o, a) ∉ A;
  bi_coalesced o a : a ∈ L o -> o < 26 -> bud o a ∉ L o;
}.

Lemma upd_push L o a o' c : c ∈ upd L o (a :: L o) o' <-> c ∈ L o' \/ o' = o /\ c = a.
Proof. clear Hsp. unfold upd. destruct (Z.eqb_spec o' o) as [->|]; rewrite ?elem_of_cons; naive_solver. Qed.

Lemma upd_drop L o a l1 l2 o' c :
  NoDup (L o) -> L o = l1 ++ a :: l2 -> c ∈ upd L o (l1 ++ l2) o' <-> c ∈ L o' /\ ~ (o' = o /\ c = a).
Proof.
  clear Hsp. intros Hnd HL. unfold upd. destruct (Z.eqb_spec o' o) as [->|]; [|naive_solver].
  rewrite HL in Hnd |- *. apply NoDup_app in Hnd as (_ & H1 & (H2 & _)%NoDup_cons).
  setoid_rewrite not_elem_of_cons in H1. rewrite !elem_of_app, elem_of_cons. naive_solver.
Qed.

(** A header written where no list passes. *)
Lemma fresh_block_rep s r x L a lt ts :
  region_rep s r x L -> (forall o, a ∉ L o) -> region_rep (FreeBlock_new s a lt ts) r x L.
Proof.
  clear Hsp. intros Hrep Hn. constructor; try apply Hrep. intros o Ho.
  destruct (rr_list _ _ _ _ _ _ Hrep o Ho) as (h & Hh & Hs). exists h. split; [done|].
  eapply seg_ext; [|exact Hs]. intros c Hc. simpl. rewrite lookup_insert_ne; [done|]. intros ->. by apply (Hn o).
Qed.

Lemma fresh_block_local s r x o a lt ts :
  bd_region_mem s !! r = Some x -> valid o a -> local_to r x s (FreeBlock_new s a lt ts).
Proof.
  clear Hsp. intros Hx (Ho & Hlo & Hhi & _). pose proof (pow2_pos o ltac:(lia)). constructor; try done.
  - exists x, x. by repeat split.
  - intros c Hc. simpl. apply lookup_insert_ne. lia.
Qed.

(** [FreeBlock::new] and [push_free_block] on a block outside the lists. *)
Lemma give_run s r x L o a lt ts :
  region_rep s r x L -> valid o a -> (forall o', a ∉ L o') ->
  exists s' x', push_free_block (FreeBlock_new s a lt ts) r o a = Ret s' /\ region_rep s' r x' (upd L o (a :: L o)) /\ local_to r x s s'.
Proof using Hsp.
  intros Hrep Hv Hn. pose proof (rr_region _ _ _ _ _ _ Hrep) as Hx.
  destruct (push_ok base total Hsp (FreeBlock_new s a lt ts) r x L o a (mkFreeBlock null null lt ts)) as (s' & x' & Hrun & Hrep' & Hlo & _);
    [by apply fresh_block_rep|done..|by apply lookup_insert_eq|].
  exists s', x'. split; [done|]. split; [done|]. eapply local_trans; [by eapply fresh_block_local|done].
Qed.

(** A held block overlaps no block of a list. *)
Lemma inv_overlap s r x L A o a o' c :
  buddy_inv s r x L A -> (o, a) ∈ A -> c ∈ L o' -> c < a + 2 ^ o -> a < c + 2 ^ o' -> False.
Proof.
  clear Hsp. intros Hi HA Hc H1 H2. destruct (ti_disj _ (bi_tiling _ _ _ _ _ Hi) o' c o a) as [-> ->]; try lia; [by left|by right|].
  by apply (bi_apart _ _ _ _ _ Hi o a).
Qed.

Lemma inv_valid s r x L A o a : buddy_inv s r x L A -> (o, a) ∈ A -> valid o a.
Proof. clear Hsp. intros Hi HA. apply (ti_valid _ (bi_tiling _ _ _ _ _ Hi)). by right. Qed.

(** No list contains the address of a handed-out block. *)
Lemma inv_fresh s r x L A o a : buddy_inv s r x L A -> (o, a) ∈ A -> forall o', a ∉ L o'.
Proof.
  clear Hsp. intros Hi HA o' Hc. pose proof (inv_valid _ _ _ _ _ _ _ Hi HA) as (Ho & _).
  pose proof (ti_valid _ (bi_tiling _ _ _ _ _ Hi) o' a (or_introl Hc)) as (Ho' & _).
  pose proof (pow2_pos o ltac:(lia)). pose proof (pow2_pos o' ltac:(lia)).
  by eapply (inv_overlap _ _ _ _ _ o a o' a Hi); [..|lia|lia].
Qed.

(** ** The moves of the invariant *)

(** Taking a block off its list. *)
Lemma take_ok s r x L A o a :
  buddy_inv s r x L A -> a ∈ L o ->
  exists s' x' L', remove_free_block s r o a = Ret s' /\ buddy_inv s' r x' L' ({[(o, a)]} ∪ A) /\ local_to r x s s' /\ (forall o' c, c ∈ L' o' <-> c ∈ L o' /\ ~ (o' = o /\ c = a)).
Proof using Hsp.
  intros [Hrep Hti Hap Hco] Ha. pose proof (rr_valid _ _ _ _ _ _ Hrep _ _ Ha) as (Ho & _).
  destruct (remove_free_ok base total Hsp s r x L o a Hrep Ho Ha) as (s' & x' & l1 & l2 & HL & Hrun & Hrep' & Hlo).
  pose proof (fun o' c => upd_drop L o a l1 l2 o' c (rr_nodup _ _ _ _ _ _ Hrep o) HL) as Hel.
  exists s', x', (upd L o (l1 ++ l2)). split; [done|]. split; [|done]. constructor; [done|..].
  - eapply tiling_iff; [|exact Hti]. intros o' c. unfold held. rewrite Hel, elem_of_union, elem_of_singleton.
    destruct (decide ((o', c) = (o, a))) as [[= -> ->]|]; naive_solver.
  - intros o' c. rewrite Hel, elem_of_union, elem_of_singleton. naive_solver.
  - intros o' c. rewrite !Hel. naive_solver.
Qed.

(** Giving a handed-out block whose buddy is not free back to its list. *)
Lemma give_ok s r x L A o a lt ts :
  buddy_inv s r x L ({[(o, a)]} ∪ A) -> (o, a) ∉ A -> (o < 26 -> bud o a ∉ L o) ->
  exists s' x', push_free_block (FreeBlock_new s a lt ts) r o a = Ret s' /\ buddy_inv s' r x' (upd L o (a :: L o)) A /\ local_to r x s s'.
Proof using Hsp.
  intros Hi HnA Hb. assert (Hin : (o, a) ∈ ({[(o, a)]} ∪ A : gset (Z * Z))) by set_solver.
  pose proof (inv_valid _ _ _ _ _ _ _ Hi Hin) as Hv. pose proof (inv_fresh _ _ _ _ _ _ _ Hi Hin) as Hf.
  destruct Hi as [Hrep Hti Hap Hco]. destruct (give_run s r x L o a lt ts Hrep Hv Hf) as (s' & x' & Hrun & Hrep' & Hlo).
  exists s', x'. split; [done|]. split; [|done]. constructor; [done|..].
  - eapply tiling_iff; [|exact Hti]. intros o' c. unfold held. rewrite upd_push, elem_of_union, elem_of_singleton.
    naive_solver.
  - intros o' c. rewrite upd_push. intros [Hc|[-> ->]]; [|done]. specialize (Hap _ _ Hc). set_solver.
  - intros o' c. rewrite !upd_push. intros [Hc|[-> ->]] Hlt [Hd|[He1 He2]].
    + by apply (Hco o' c).
    + subst o'. apply Hb; [done|]. rewrite <- He2, bud_invol; [done|]. by apply (rr_valid _ _ _ _ _ _ Hrep).
    + by apply Hb.
    + destruct (bud_cases o a Hv Hlt) as [[Hq _]|[Hq _]]; pose proof (pow2_pos o ltac:(destruct Hv; lia)); lia.
Qed.

(** Two handed-out buddies are one block of the next order. *)
Lemma inv_merge s r x L A o a :
  buddy_inv s r x L ({[(o, bud o a)]} ∪ ({[(o, a)]} ∪ A)) -> o < 26 -> (o, a) ∉ A -> (o, bud o a) ∉ A ->
  buddy_inv s r x L ({[(o + 1, Z.min a (bud o a))]} ∪ A) /\ (o + 1, Z.min a (bud o a)) ∉ A.
Proof using Hsp.
  intros Hi Hlt Hn1 Hn2. set (A2 := {[(o, bud o a)]} ∪ _) in Hi.
  assert (Ha : (o, a) ∈ A2) by set_solver. assert (Hb : (o, bud o a) ∈ A2) by set_solver.
  pose proof (inv_valid _ _ _ _ _ _ _ Hi Ha) as Hv. pose proof (pow2_pos o ltac:(destruct Hv; lia)) as Hp.
  assert (Hm : exists m, Z.min a (bud o a) = m /\ valid (o + 1) m /\
    (forall c, c = a \/ c = bud o a <-> c = m \/ c = m + 2 ^ o)).
  { destruct (bud_cases o a Hv Hlt) as [[Hq Hvp]|[Hq Hvp]]; rewrite Hq.
    - exists a. split; [lia|]. done.
    - exists (a - 2 ^ o). split; [lia|]. split; [done|]. intros c. lia. }
  destruct Hm as (m & -> & Hvm & Hc). pose proof (proj1 (Hc a) (or_introl eq_refl)) as Hca.
  destruct Hi as [Hrep Hti Hap Hco].
  assert (Hm1 : held L A2 o m) by (right; destruct (proj2 (Hc m) (or_introl eq_refl)) as [-> | ->]; done).
  assert (Hm2 : held L A2 o (m + 2 ^ o)) by (right; destruct (proj2 (Hc (m + 2 ^ o)) (or_intror eq_refl)) as [-> | ->]; done).
  assert (Hno : (o + 1, m) ∉ A2).
  { intros Hin. destruct (ti_disj _ Hti (o + 1) m o m (or_intror Hin) Hm1); try lia.
    pose proof (pow2_pos (o + 1) ltac:(destruct Hv; lia)). lia. }
  assert (HnL : m ∉ L (o + 1)).
  { intros Hin. destruct (ti_disj _ Hti (o + 1) m o m (or_introl Hin) Hm1); try lia.
    pose proof (pow2_pos (o + 1) ltac:(destruct Hv; lia)). lia. }
  split; [|unfold A2 in Hno; set_solver]. constructor; [done| |intros o' c Hcl; specialize (Hap _ _ Hcl); set_solver|done].
  eapply tiling_iff; [|exact (tiling_merge _ o m Hti Hm1 Hm2 Hvm)]. intros o' c. unfold held, A2.
  rewrite !elem_of_union, !elem_of_singleton, !pair_equal_spec, <- Hc. split; [naive_solver|].
  intros [Hl|[[-> ->]|HA]]; [|tauto|naive_solver]. left. split; [by left|]. intros [-> Hcc]. apply (Hap _ _ Hl). unfold A2. set_solver.
Qed.

(** A handed-out block is two of the order below. *)
Lemma split_step s r x L A o a lt ts :
  buddy_inv s r x L ({[(o, a)]} ∪ A) -> (o, a) ∉ A -> 22 < o ->
  exists s' x', push_free_block (FreeBlock_new s (a + 2 ^ (o - 1)) lt ts) r (o - 1) (a + 2 ^ (o - 1)) = Ret s' /\
    buddy_inv s' r x' (upd L (o - 1) ((a + 2 ^ (o - 1)) :: L (o - 1))) ({[(o - 1, a)]} ∪ A) /\
    (o - 1, a) ∉ A /\ local_to r x s s'.
Proof using Hsp.
  intros Hi HnA Ho. set (A2 := {[(o, a)]} ∪ A) in *. assert (Hin : (o, a) ∈ A2) by set_solver.
  pose proof (inv_valid _ _ _ _ _ _ _ Hi Hin) as Hv. destruct (valid_halves o a Hv Ho) as [Hv1 Hv2].
  pose proof (pow2_pos (o - 1) ltac:(lia)). pose proof (pow2_half o ltac:(lia)).
  assert (Hover : forall o' c, held L A2 o' c -> a <= c < a + 2 ^ o -> o' = o /\ c = a).
  { intros o' c Hc Hr. pose proof (ti_valid _ (bi_tiling _ _ _ _ _ Hi) _ _ Hc) as (Ho' & _). pose proof (pow2_pos o' ltac:(lia)).
    apply (ti_disj _ (bi_tiling _ _ _ _ _ Hi)); [done|by right|lia|lia]. }
  assert (Hn : (o - 1, a) ∉ A) by (intros HA; destruct (Hover (o - 1) a); [right; set_solver|lia|lia]).
  assert (HnL : a ∉ L (o - 1)) by (intros HA; destruct (Hover (o - 1) a); [by left|lia|lia]).
  assert (Hn2 : (o - 1, a + 2 ^ (o - 1)) ∉ ({[(o - 1, a)]} ∪ A : gset (Z * Z))).
  { intros [He%elem_of_singleton|HA]%elem_of_union; [injection He; lia|].
    destruct (Hover (o - 1) (a + 2 ^ (o - 1))); [right; set_solver|lia|lia]. }
  assert (Hi2 : buddy_inv s r x L ({[(o - 1, a + 2 ^ (o - 1))]} ∪ ({[(o - 1, a)]} ∪ A))).
  { destruct Hi as [Hrep Hti Hap Hco]. constructor; [done| | |done].
    - eapply tiling_iff; [|exact (tiling_split _ o a Hti (or_intror Hin) Ho)]. intros o' c. unfold held, A2.
      rewrite !elem_of_union, !elem_of_singleton, !pair_equal_spec. split; [naive_solver|].
      intros [Hl|[|[|HA]]]; [|tauto..|]; left; (split; [tauto|]); intros [-> ->]; [by apply (Hap _ _ Hl)|done].
    - intros o' c Hc. rewrite !not_elem_of_union, !not_elem_of_singleton, !pair_equal_spec.
      assert (Hh : held L A2 o' c) by (by left).
      split; [|split]; [intros [-> ->]; destruct (Hover _ _ Hh); lia|intros [-> ->]; destruct (Hover _ _ Hh); lia|].
      specialize (Hap _ _ Hc). set_solver. }
  assert (Hb : bud (o - 1) (a + 2 ^ (o - 1)) = a).
  { destruct (bud_cases (o - 1) a Hv1 ltac:(destruct Hv; lia)) as [[<- _]|[_ (_ & _ & _ & Hd)]]; [by apply bud_invol|].
    destruct Hv as (_ & _ & _ & [q Hq]), Hd as [q' Hq']. replace (o - 1 + 1) with o in Hq' by lia.
    assert (Hz : (2 * (q - q') - 1) * 2 ^ (o - 1) = 0) by lia. apply Z.eq_mul_0_l in Hz; lia. }
  destruct (give_ok s r x L _ (o - 1) (a + 2 ^ (o - 1)) lt ts Hi2 Hn2) as (s' & x' & Hrun & Hi' & Hlo); [by rewrite Hb|].
  by exists s', x'.
Qed.

(** ** Splitting and coalescing *)

Lemma wshl_pow2 o : 0 <= o < 64 -> wshl 1 o = 2 ^ o.
Proof.
  clear Hsp. intros Ho. unfold wshl. rewrite Z.shiftl_1_l. apply wrap_small.
  pose proof (pow2_pos o ltac:(lia)). pose proof (Z.pow_lt_mono_r 2 o 64 ltac:(lia) ltac:(lia) ltac:(lia)). lia.
Qed.

Lemma wadd_pow2 o a : valid o a -> wadd a (2 ^ (o - 1)) = a + 2 ^ (o - 1).
Proof using Hsp.
  intros (Ho & Hlo & Hhi & _). destruct Hsp as (Hb & Ht & He & _). pose proof (pow2_pos (o - 1) ltac:(lia)).
  pose proof (pow2_half o ltac:(lia)). apply wadd_small. lia.
Qed.

Lemma rep_static s r x L s' x' L' :
  region_rep s r x L -> region_rep s' r x' L' -> local_to r x s s' -> static_eq x x'.
Proof.
  clear Hsp. intros _ Hrep Hlo. destruct (lo_static _ _ _ _ _ _ Hlo) as (_ & x2 & _ & Hx & _ & Hs).
  rewrite (rr_region _ _ _ _ _ _ Hrep) in Hx. by injection Hx as <-.
Qed.

Lemma inv_local_trans s r x L A s1 x1 L1 A1 s2 :
  buddy_inv s r x L A -> buddy_inv s1 r x1 L1 A1 -> local_to r x s s1 -> local_to r x1 s1 s2 -> local_to r x s s2.
Proof.
  clear Hsp. intros H0 H1 L01 L12. eapply local_trans; [done|]. eapply local_eq; [|exact L12].
  by eapply rep_static; [apply H0|apply H1|].
Qed.

Lemma split_ok fuel s r x L A o req a lt ts :
  buddy_inv s r x L ({[(o, a)]} ∪ A) -> (o, a) ∉ A -> 22 <= req <= o -> (Z.to_nat (o - req) < fuel)%nat ->
  exists s' x' L', split_loop fuel s r o req a lt ts = Ret s' /\ buddy_inv s' r x' L' ({[(req, a)]} ∪ A) /\
    (req, a) ∉ A /\ local_to r x s s'.
Proof using Hsp.
  revert s x L o. induction fuel as [|fuel IH]; intros s x L o Hi HnA Hreq Hf; [lia|]. simpl.
  pose proof (inv_valid _ _ _ _ _ o a Hi ltac:(set_solver)) as Hv. destruct (Z.ltb_spec req o) as [Hlt|Hge].
  - destruct (split_step s r x L A o a lt ts Hi HnA ltac:(lia)) as (s1 & x1 & Hrun & Hi1 & Hn1 & Hl1).
    rewrite wshl_pow2, (wadd_pow2 o a Hv) by (destruct Hv; lia). rewrite Hrun. cbn [mbind outcome_bind].
    destruct (IH s1 x1 _ (o - 1) Hi1 Hn1 ltac:(lia) ltac:(lia)) as (s' & x' & L' & Hrun' & Hi' & Hn' & Hl').
    exists s', x', L'. split; [done|]. split; [done|]. split; [done|]. exact (inv_local_trans _ _ _ _ _ _ _ _ _ _ Hi Hi1 Hl1 Hl').
  - assert (o = req) as -> by lia. exists s, x, L. split; [done|]. split; [done|]. split; [done|]. apply local_refl, Hi.
Qed.

Lemma in_region o a : valid o a -> (a <? base) || (wadd base total <=? a) = false.
Proof using Hsp.
  intros (Ho & Hlo & Hhi & _). destruct Hsp as (Hb & Ht & He & _). pose proof (pow2_pos o ltac:(lia)).
  rewrite wadd_small by lia. lia.
Qed.

Lemma coalesce_ok fuel s r x L A o a :
  buddy_inv s r x L ({[(o, a)]} ∪ A) -> (o, a) ∉ A -> (Z.to_nat (26 - o) < fuel)%nat ->
  exists s' x' L' oc c, coalesce fuel s r a o = Ret (s', c, oc) /\ buddy_inv s' r x' L' ({[(oc, c)]} ∪ A) /\
    (oc, c) ∉ A /\ (oc < 26 -> bud oc c ∉ L' oc) /\ local_to r x s s'.
Proof using Hsp.
  revert s x L o a. induction fuel as [|fuel IH]; intros s x L o a Hi HnA Hf; [lia|]. simpl.
  pose proof (inv_valid _ _ _ _ _ o a Hi ltac:(set_solver)) as Hv. pose proof (bi_rep _ _ _ _ _ Hi) as Hrep.
  assert (Hstop : exists s' x' L' oc c, Ret (s, a, o) = Ret (s', c, oc) /\ buddy_inv s' r x' L' ({[(oc, c)]} ∪ A) /\
    (oc, c) ∉ A /\ ((o < 26 -> bud o a ∉ L o) -> oc < 26 -> bud oc c ∉ L' oc) /\ local_to r x s s').
  { exists s, x, L, o, a. split; [done|]. split; [done|]. split; [done|]. split; [done|]. apply local_refl, Hrep. }
  rewrite (get_region_ok _ _ _ (rr_region _ _ _ _ _ _ Hrep)). cbn [mbind outcome_bind].
  rewrite (rr_order _ _ _ _ _ _ Hrep). destruct (Z.ltb_spec o 26) as [Hlt|Hge]; [|naive_solver lia].
  pose proof (valid_bud o a Hv Hlt) as Hvb.
  rewrite (buddy_run s r x L o a Hrep Hv). cbn [mbind outcome_bind].
  rewrite (rr_base _ _ _ _ _ _ Hrep), (rr_total _ _ _ _ _ _ Hrep), (in_region o _ Hvb).
  rewrite (block_is_free_ok base total Hsp s r x L o _ Hrep Hvb). cbn [mbind outcome_bind].
  destruct (bool_decide_reflect (bud o a ∈ L o)) as [Hin|Hout]; cbn [negb]; [|naive_solver].
  destruct (take_ok s r x L _ o (bud o a) Hi Hin) as (s1 & x1 & L1 & Hrun & Hi1 & Hl1 & _). rewrite Hrun. cbn [mbind outcome_bind].
  pose proof (bi_apart _ _ _ _ _ Hi _ _ Hin) as Hnb.
  destruct (inv_merge s1 r x1 L1 A o a Hi1 Hlt HnA ltac:(set_solver)) as [Hi2 Hn2].
  destruct (IH s1 x1 L1 (o + 1) _ Hi2 Hn2 ltac:(lia)) as (s' & x' & L' & oc & c & Hrun' & Hi' & Hn' & Hb' & Hl').
  exists s', x', L', oc, c. split; [done|]. split; [done|]. split; [done|]. split; [done|]. eapply inv_local_trans; [exact Hi|exact Hi1|done|done].
Qed.

(** ** The operations *)

Lemma free_ok s stamp r x L A o a :
  buddy_inv s r x L A -> r <> 0 -> (o, a) ∈ A ->
  exists s' x' L', free s stamp r a o = Ret s' /\ buddy_inv s' r x' L' (A ∖ {[(o, a)]}) /\ local_to r x s s'.
Proof using Hsp.
  intros Hi Hr HA. pose proof (inv_valid _ _ _ _ _ _ _ Hi HA) as Hv. pose proof (bi_rep _ _ _ _ _ Hi) as Hrep.
  unfold free, BIG_BUDDY_MIN_ORDER, BIG_BUDDY_MAX_ORDER.
  destruct ((o <? 22) || (26 <? o)) eqn:?; [destruct Hv; lia|]. destruct (r =? null) eqn:?; [lia|].
  rewrite (get_region_ok _ _ _ (rr_region _ _ _ _ _ _ Hrep)). cbn [mbind outcome_bind].
  rewrite (rr_base _ _ _ _ _ _ Hrep), (rr_total _ _ _ _ _ _ Hrep), (rr_order _ _ _ _ _ _ Hrep), (in_region o _ Hv).
  destruct (26 <? o) eqn:?; [lia|].
  assert (HAe : A = {[(o, a)]} ∪ (A ∖ {[(o, a)]})) by (by apply union_difference_singleton_L).
  rewrite HAe in Hi at 1. destruct (coalesce_ok (Z.to_nat (BUDDY_NUM_ORDERS + 1)) s r x L _ o a Hi ltac:(set_solver)) as
    (s1 & x1 & L1 & oc & c & Hrun & Hi1 & Hn1 & Hb & Hl1); [unfold BUDDY_NUM_ORDERS, BIG_BUDDY_MAX_ORDER, BIG_BUDDY_MIN_ORDER; lia|].
  rewrite Hrun. cbn [mbind outcome_bind].
  destruct (give_ok s1 r x1 L1 _ oc c stamp BUDDY_TRIM_ALLOCATED Hi1 Hn1 Hb) as (s2 & x2 & Hrun2 & Hi2 & Hl2).
  exists s2, x2, (upd L1 oc (c :: L1 oc)). split; [done|]. split; [done|]. eapply inv_local_trans; [exact Hi|exact Hi1|done|done].
Qed.

(** A block grows in place exactly when it is the lower half of its parent and
    the upper half is free. *)
Lemma try_grow_inplace_ok s r x L A o a :
  buddy_inv s r x L A -> r <> 0 -> (o, a) ∈ A ->
  (exists s' x' L', try_grow_inplace s r a o = Ret (Some (a, o + 1), s') /\ o < 26 /\ a + 2 ^ o ∈ L o /\ valid (o + 1) a /\
     buddy_inv s' r x' L' ({[(o + 1, a)]} ∪ (A ∖ {[(o, a)]})) /\ local_to r x s s') \/
  (try_grow_inplace s r a o = Ret (None, s) /\ ~ (o < 26 /\ a + 2 ^ o ∈ L o /\ valid (o + 1) a)).
Proof using Hsp.
  intros Hi Hr HA. pose proof (inv_valid _ _ _ _ _ _ _ Hi HA) as Hv. pose proof (bi_rep _ _ _ _ _ Hi) as Hrep.
  unfold try_grow_inplace. destruct (r =? null) eqn:?; [lia|].
  rewrite (get_region_ok _ _ _ (rr_region _ _ _ _ _ _ Hrep)). cbn [mbind outcome_bind].
  rewrite (rr_base _ _ _ _ _ _ Hrep), (rr_total _ _ _ _ _ _ Hrep), (rr_order _ _ _ _ _ _ Hrep).
  destruct (Z.leb_spec 26 o) as [Hge|Hlt]; [right; split; [done|lia]|].
  rewrite (in_region o _ Hv), (buddy_run s r x L o a Hrep Hv). cbn [mbind outcome_bind].
  pose proof (valid_bud o a Hv Hlt) as Hvb. pose proof (pow2_pos o ltac:(destruct Hv; lia)) as Hp.
  destruct (bud_cases o a Hv Hlt) as [[Hq Hvp]|[Hq Hvp]].
  - destruct (Z.ltb_spec (bud o a) a); [lia|]. rewrite (in_region o _ Hvb).
    rewrite (block_is_free_ok base total Hsp s r x L o _ Hrep Hvb). cbn [mbind outcome_bind].
    destruct (bool_decide_reflect (bud o a ∈ L o)) as [Hin|Hout]; [left|right; split; [done|]; rewrite <- Hq; tauto].
    destruct (take_ok s r x L A o (bud o a) Hi Hin) as (s1 & x1 & L1 & Hrun & Hi1 & Hl1 & _). rewrite Hrun. cbn [mbind outcome_bind].
    exists s1, x1, L1. split; [done|]. split; [done|]. split; [by rewrite <- Hq|]. split; [done|]. split; [|done].
    pose proof (bi_apart _ _ _ _ _ Hi _ _ Hin) as Hnb. rewrite (union_difference_singleton_L (o, a) A HA) in Hi1 at 1.
    destruct (inv_merge s1 r x1 L1 _ o a Hi1 Hlt ltac:(set_solver) ltac:(set_solver)) as [Hi2 _].
    by rewrite Z.min_l in Hi2 by lia.
  - destruct (Z.ltb_spec (bud o a) a); [|lia]. right. split; [done|]. intros (_ & _ & (_ & _ & _ & [q1 H1])).
    destruct Hvp as (_ & _ & _ & [q2 H2]). pose proof (pow2_half (o + 1) ltac:(destruct Hv; lia)) as H3.
    replace (o + 1 - 1) with o in H3 by lia.
    assert (Hz : (2 * (q1 - q2) - 1) * 2 ^ o = 0) by lia. apply Z.eq_mul_0_l in Hz; lia.
Qed.

(** ** Allocation *)

(** The test of the order mask decides whether the list is empty. *)
Lemma mask_test s r x L req o :
  region_rep s r x L -> 22 <= req <= o -> o <= 26 ->
  (Z.land (Z.land (r_nonempty_mask x) (wrap 8 (Z.shiftl (wnot 8 0) (order_index req)))) (order_bit o) =? 0)
  = bool_decide (L o = []).
Proof.
  clear Hsp. intros Hrep Hreq Ho. rewrite order_index_ok by lia. set (m := r_nonempty_mask x).
  assert (Hbit : forall i, 0 <= i -> Z.testbit (Z.land (Z.land m (wrap 8 (Z.shiftl (wnot 8 0) (req - 22)))) (order_bit o)) i
    = (i =? o - 22) && negb (bool_decide (L o = []))).
  { intros i Hi. rewrite !Z.land_spec, order_bit_testbit by lia. destruct (Z.eqb_spec i (o - 22)) as [->|]; [|by rewrite andb_false_r].
    unfold m. rewrite (rr_mask _ _ _ _ _ _ Hrep) by lia. unfold wrap. rewrite Z.mod_pow2_bits_low, Z.shiftl_spec, wnot_testbit, Z.bits_0 by lia.
    destruct (o - 22 - (req - 22) <? 8) eqn:?; [|lia]. simpl. by rewrite !andb_true_r. }
  destruct (bool_decide_reflect (L o = [])) as [He|Hne].
  - apply Z.eqb_eq, Z.bits_inj'. intros i Hi. rewrite Hbit, Z.bits_0 by done. by rewrite andb_false_r.
  - apply Z.eqb_neq. intros H0. specialize (Hbit (o - 22) ltac:(lia)). rewrite H0, Z.bits_0, Z.eqb_refl in Hbit. done.
Qed.

Lemma get_head_ok s r x L o :
  region_rep s r x L -> 22 <= o <= 26 -> get_head s r (order_index o) = Ret (headd (L o) 0).
Proof.
  clear Hsp. intros Hrep Ho. unfold get_head, at_index. rewrite (get_region_ok _ _ _ (rr_region _ _ _ _ _ _ Hrep)).
  cbn [mbind outcome_bind]. rewrite order_index_ok by done. destruct (rr_list _ _ _ _ _ _ Hrep o Ho) as (h & -> & Hs).
  simpl. by rewrite (seg_head _ _ _ _ _ Hs).
Qed.

(** The outcome of an allocation of order [req]: a block cut from the smallest
    order that has one, or nothing because no list has one. *)
Definition alloc_result s r x L A req (res : outcome (option (Z * Z) * Buddy)) : Prop :=
  (exists o a b s' x' L', res = Ret (Some (a, fb_trim_state b), s') /\ req <= o <= 26 /\ a ∈ L o /\
     bd_blocks s !! a = Some b /\ (forall o', req <= o' < o -> L o' = []) /\
     buddy_inv s' r x' L' ({[(req, a)]} ∪ A) /\ (req, a) ∉ A /\ local_to r x s s') \/
  (res = Ret (None, s) /\ forall o, req <= o <= 26 -> L o = []).

Lemma alloc_loop_ok fuel s r x L A req o :
  buddy_inv s r x L A -> 22 <= req <= o -> o <= 27 -> (Z.to_nat (27 - o) < fuel)%nat ->
  (forall o', req <= o' < o -> L o' = []) ->
  alloc_result s r x L A req (alloc_loop fuel s r
    (Z.land (r_nonempty_mask x) (wrap 8 (Z.shiftl (wnot 8 0) (order_index req)))) o req).
Proof using Hsp.
  intros Hi Hreq. pose proof (bi_rep _ _ _ _ _ Hi) as Hrep.
  revert o Hreq. induction fuel as [|fuel IH]; intros o Hreq Ho Hf Hbelow; [lia|]. cbn [alloc_loop].
  rewrite (get_region_ok _ _ _ (rr_region _ _ _ _ _ _ Hrep)). cbn [mbind outcome_bind].
  rewrite (rr_order _ _ _ _ _ _ Hrep). destruct (Z.leb_spec o 26) as [Hle|Hgt]; [|right; split; [done|]; intros; apply Hbelow; lia].
  rewrite (mask_test s r x L req o Hrep Hreq Hle). destruct (bool_decide_reflect (L o = [])) as [He|Hne].
  { apply IH; try lia. intros o' Ho'. destruct (decide (o' = o)) as [->|]; [done|]. apply Hbelow. lia. }
  rewrite (get_head_ok s r x L o Hrep) by lia. cbn [mbind outcome_bind].
  destruct (list_head_inv (L o)) as [He|(a & l & He)]; [done|]. assert (Ha : a ∈ L o) by (rewrite He; apply elem_of_cons; by left).
  replace (headd (L o) 0) with a by (by rewrite He).
  pose proof (rr_valid _ _ _ _ _ _ Hrep _ _ Ha) as Hv. pose proof (valid_bound base total Hsp _ _ Hv) as [Hav _].
  destruct (a =? null) eqn:?; [lia|]. destruct (rr_list _ _ _ _ _ _ Hrep o ltac:(lia)) as (h & _ & Hs).
  destruct (seg_elem _ _ _ _ _ _ Hs Ha) as [b Hb]. rewrite (get_block_ok _ _ _ Hb). cbn [mbind outcome_bind].
  destruct (take_ok s r x L A o a Hi Ha) as (s1 & x1 & L1 & Hrun & Hi1 & Hl1 & _). rewrite Hrun. cbn [mbind outcome_bind].
  destruct (split_ok (Z.to_nat (BUDDY_NUM_ORDERS + 1)) s1 r x1 L1 A o req a (fb_life_time b) (fb_trim_state b) Hi1
    (bi_apart _ _ _ _ _ Hi _ _ Ha) Hreq) as (s2 & x2 & L2 & Hrun2 & Hi2 & Hn2 & Hl2);
    [unfold BUDDY_NUM_ORDERS, BIG_BUDDY_MAX_ORDER, BIG_BUDDY_MIN_ORDER; lia|].
  rewrite Hrun2. cbn [mbind outcome_bind]. left. exists o, a, b, s2, x2, L2. split; [done|]. split; [lia|].
  split; [done|]. split; [done|]. split; [done|]. split; [done|]. split; [done|].
  eapply inv_local_trans; [exact Hi|exact Hi1|done|done].
Qed.

Lemma alloc_from_region_ok s r x L A req :
  buddy_inv s r x L A -> 22 <= req -> alloc_result s r x L A req (alloc_from_region s r req).
Proof using Hsp.
  intros Hi Hreq. pose proof (bi_rep _ _ _ _ _ Hi) as Hrep. unfold alloc_from_region.
  rewrite (get_region_ok _ _ _ (rr_region _ _ _ _ _ _ Hrep)). cbn [mbind outcome_bind]. rewrite (rr_order _ _ _ _ _ _ Hrep).
  destruct (Z.ltb_spec 26 req); [right; split; [done|lia]|].
  destruct (Z.eqb_spec (Z.land (r_nonempty_mask x) (wrap 8 (Z.shiftl (wnot 8 0) (order_index req)))) 0) as [Hm|Hm].
  - right. split; [done|]. intros o Ho. pose proof (mask_test s r x L req o Hrep ltac:(lia) ltac:(lia)) as Ht.
    rewrite Hm, Z.land_0_l in Ht. symmetry in Ht. by apply bool_decide_eq_true in Ht.
  - apply alloc_loop_ok; try done; try lia. unfold BUDDY_NUM_ORDERS, BIG_BUDDY_MAX_ORDER, BIG_BUDDY_MIN_ORDER. lia.
Qed.

(** ** Complete coalescing *)

(** A block that covers the buddy of another, smaller one covers that one too. *)
Lemma cover_parent o a o' a' :
  valid o a -> valid o' a' -> o < o' -> a' <= bud o a < a' + 2 ^ o' -> a' <= a /\ a + 2 ^ o <= a' + 2 ^ o'.
Proof using Hsp.
  intros Hv (Ho' & _ & _ & [q' Hq']) Hlt Hr. pose proof (pow2_pos o ltac:(destruct Hv; lia)) as Hp.
  assert (Hm : exists m, valid (o + 1) m /\ (bud o a = m \/ bud o a = m + 2 ^ o) /\ (a = m \/ a = m + 2 ^ o)).
  { destruct (bud_cases o a Hv ltac:(lia)) as [[Hb Hvp]|[Hb Hvp]]; [exists a|exists (a - 2 ^ o)]; (split; [done|lia]). }
  destruct Hm as (m & (_ & _ & _ & [q Hq]) & Hb & Ha).
  assert (He : 2 ^ o' = 2 ^ (o' - (o + 1)) * 2 ^ (o + 1)) by (rewrite <- Z.pow_add_r by (destruct Hv; lia); f_equal; lia).
  pose proof (pow2_half (o + 1) ltac:(destruct Hv; lia)) as H3. replace (o + 1 - 1) with o in H3 by lia.
  pose proof (pow2_pos (o' - (o + 1)) ltac:(lia)) as Hk. set (k := 2 ^ (o' - (o + 1))) in *. clearbody k.
  assert (Hq2 : m - base = q * 2 ^ (o + 1)) by lia.
  assert (H1 : q' * k <= q) by (destruct (decide (q + 1 <= q' * k)); [|lia]; exfalso; nia).
  assert (H2 : q + 1 <= q' * k + k) by (destruct (decide (q' * k + k <= q)); [exfalso; nia|lia]).
  set (c := 2 ^ (o + 1)) in *. clearbody c. nia.
Qed.

Lemma no_small_block s r x L o :
  buddy_inv s r x L ∅ -> o < 26 -> (forall o', o' < o -> L o' = []) -> L o = [].
Proof using Hsp.
  intros Hi Hlt Hbelow. destruct (list_head_inv (L o)) as [He|(a & l & He)]; [done|]. exfalso.
  assert (Ha : a ∈ L o) by (rewrite He; apply elem_of_cons; by left). pose proof (bi_rep _ _ _ _ _ Hi) as Hrep.
  pose proof (rr_valid _ _ _ _ _ _ Hrep _ _ Ha) as Hv. pose proof (valid_bud o a Hv Hlt) as (Ho & Hlo & Hhi & [q Hq]).
  pose proof (pow2_pos o ltac:(lia)) as Hp.
  destruct (ti_cover _ (bi_tiling _ _ _ _ _ Hi) (bud o a) ltac:(lia)) as (o' & a' & [Hb|Hb] & Hr); [|set_solver].
  pose proof (rr_valid _ _ _ _ _ _ Hrep _ _ Hb) as Hv'. destruct (decide (o' < o)).
  { rewrite Hbelow in Hb by done. set_solver. }
  destruct (decide (o' = o)) as [->|].
  - assert (bud o a = a') as Hba.
    { destruct Hv' as (_ & _ & _ & [q' Hq']). assert (q = q') by nia. subst q'. lia. }
    apply (bi_coalesced _ _ _ _ _ Hi o a Ha Hlt). by rewrite Hba.
  - destruct (cover_parent o a o' a' Hv Hv' ltac:(lia) Hr) as [H1 H2].
    destruct (ti_disj _ (bi_tiling _ _ _ _ _ Hi) o a o' a' (or_introl Ha) (or_introl Hb)); lia.
Qed.

Lemma all_coalesced s r x L o : buddy_inv s r x L ∅ -> o < 26 -> L o = [].
Proof using Hsp.
  intros Hi. assert (Hn : forall n o, o < 22 + Z.of_nat n -> o < 26 -> L o = []).
  { induction n as [|n IH]; intros o' Ho' Hlt.
    - destruct (list_head_inv (L o')) as [He|(a & l & He)]; [done|]. exfalso.
      pose proof (rr_valid _ _ _ _ _ _ (bi_rep _ _ _ _ _ Hi) o' a ltac:(rewrite He; apply elem_of_cons; by left)) as [? _]. lia.
    - apply (no_small_block s r x L o' Hi Hlt). intros o2 Ho2. apply IH; lia. }
  intros Hlt. apply (Hn 4%nat); lia.
Qed.
End Region.
