(* ===== verification/BuddyGrow.v ===== *)
(** * New buddy regions

    A region header and its bitmaps as [add_region] lays them out represent empty
    lists; after the loop that pushes the largest blocks they represent a region
    that is free as a whole. *)

From S2P Require Import Prelude Types SizeClasses DList Kernel Binder Radix RadixProofs Buddy BuddyRep BuddyProofs.

Ltac Zify.zify_post_hook ::= idtac.

(** ** The layout of the bitmaps *)

Section Layout.
Context (rp base total node : Z).

Definition words_of (o : Z) : Z := div_ceil (Z.shiftr total o) 64.

(** The offset of the bitmap of order [o] behind the header. *)
Definition bm_at (o : Z) : Z :=
  rp + 512 + 8 * ((if 22 <? o then words_of 22 else 0) + (if 23 <? o then words_of 23 else 0) +
                  (if 24 <? o then words_of 24 else 0) + (if 25 <? o then words_of 25 else 0) +
                  (if 26 <? o then words_of 26 else 0)).

Lemma order_five o : 22 <= o <= 26 -> o = 22 \/ o = 23 \/ o = 24 \/ o = 25 \/ o = 26.
Proof. lia. Qed.

Lemma new_region_bitmap o :
  22 <= o <= 26 -> r_free_bitmap (new_region rp base total node) !! Z.to_nat (o - 22) = Some (bm_at o).
Proof.
  intros Ho. unfold new_region, bm_at. change (Z.to_nat BUDDY_NUM_ORDERS) with 5%nat. change BIG_BUDDY_MIN_ORDER with 22.
  cbn [bitmap_layout r_free_bitmap]. change (22 + 1) with 23. change (23 + 1) with 24. change (24 + 1) with 25. change (25 + 1) with 26.
  fold (words_of 22) (words_of 23) (words_of 24) (words_of 25) (words_of 26). change BuddyRegion_SIZE with 512.
  generalize (words_of 22) (words_of 23) (words_of 24) (words_of 25) (words_of 26). intros w1 w2 w3 w4 w5.
  destruct (order_five o Ho) as [->|[->|[->|[->| ->]]]]; match goal with |- context [Z.to_nat ?n] => let v := eval vm_compute in (Z.to_nat n) in change (Z.to_nat n) with v end;
    cbn [lookup list_lookup Z.ltb Z.compare Pos.compare Pos.compare_cont]; f_equal; lia.
Qed.

Lemma words_of_bound o i : 0 <= o -> 0 <= total -> 0 <= i -> i * 64 < total / 2 ^ o -> i < words_of o.
Proof.
  intros Ho Ht Hi H. unfold words_of, div_ceil. rewrite Z.shiftr_div_pow2 by done.
  apply Z.lt_le_trans with (i + 1); [lia|]. apply Z.div_le_lower_bound; lia.
Qed.

Lemma words_of_nonneg o : 0 <= o -> 0 <= total -> 0 <= words_of o.
Proof.
  intros Ho Ht. unfold words_of, div_ceil. apply Z.div_pos; [|lia].
  assert (0 <= Z.shiftr total o) by (by apply Z.shiftr_nonneg). lia.
Qed.

(** The bitmaps of two orders do not overlap. *)
Lemma bm_apart o o' i i' :
  22 <= o <= 26 -> 22 <= o' <= 26 -> 0 <= i < words_of o -> 0 <= i' < words_of o' -> 0 <= total ->
  bm_at o + 8 * i = bm_at o' + 8 * i' -> o = o' /\ i = i'.
Proof.
  intros Ho Ho' Hi Hi' Ht. unfold bm_at. pose proof (words_of_nonneg 22 ltac:(lia) Ht). pose proof (words_of_nonneg 23 ltac:(lia) Ht).
  pose proof (words_of_nonneg 24 ltac:(lia) Ht). pose proof (words_of_nonneg 25 ltac:(lia) Ht). pose proof (words_of_nonneg 26 ltac:(lia) Ht).
  destruct (order_five o Ho) as [->|[->|[->|[->| ->]]]], (order_five o' Ho') as [->|[->|[->|[->| ->]]]]; simpl; lia.
Qed.

(** The node mapping holds the header and every bitmap word. *)
Lemma node_size_fits size o i :
  0 <= total -> total < 2 ^ 63 -> region_node_size total = Some size ->
  22 <= o <= 26 -> 0 <= i < words_of o -> rp + 512 <= bm_at o + 8 * i /\ bm_at o + 8 * i + 8 <= rp + size /\ 0 < size < 2 ^ 64.
Proof.
  intros Ht Hb Hs Ho Hi. pose proof (words_of_nonneg 22 ltac:(lia) Ht). pose proof (words_of_nonneg 23 ltac:(lia) Ht).
  pose proof (words_of_nonneg 24 ltac:(lia) Ht). pose proof (words_of_nonneg 25 ltac:(lia) Ht). pose proof (words_of_nonneg 26 ltac:(lia) Ht).
  assert (Hw : forall o, 22 <= o -> words_of o <= 2 ^ 36).
  { intros o1 Ho1. unfold words_of, div_ceil. rewrite Z.shiftr_div_pow2 by lia.
    assert (total / 2 ^ o1 <= 2 ^ 41).
    { apply Z.div_le_upper_bound; [apply Z.pow_pos_nonneg; lia|]. pose proof (Z.pow_le_mono_r 2 22 o1 ltac:(lia) ltac:(lia)). nia. }
    apply Z.div_le_upper_bound; lia. }
  pose proof (Hw 22 ltac:(lia)). pose proof (Hw 23 ltac:(lia)). pose proof (Hw 24 ltac:(lia)). pose proof (Hw 25 ltac:(lia)). pose proof (Hw 26 ltac:(lia)).
  set (sum := 8 * words_of 22 + 8 * words_of 23 + 8 * words_of 24 + 8 * words_of 25 + 8 * words_of 26).
  assert (Hsz : size = align_to_page (512 + sum)).
  { revert Hs. unfold region_node_size. change (Z.to_nat BUDDY_NUM_ORDERS) with 5%nat. change BIG_BUDDY_MIN_ORDER with 22.
    cbn [bitmap_bytes_loop]. change (22 + 1) with 23. change (23 + 1) with 24. change (24 + 1) with 25. change (25 + 1) with 26.
    fold (words_of 22) (words_of 23) (words_of 24) (words_of 25) (words_of 26). unfold checked_mul, checked_add, BuddyRegion_SIZE.
    repeat (case_match; [|lia]; cbn [mbind option_bind]). intros <-%(inj Some). unfold sum. f_equal. lia. }
  unfold align_to_page, PAGE_SIZE in Hsz. change 4096 with (2 ^ 12) in Hsz.
  destruct (align_to_spec (512 + sum) 12 ltac:(lia) ltac:(lia) ltac:(lia)) as [Hal _]. rewrite <- Hsz in Hal.
  unfold bm_at. unfold sum in Hal. destruct (order_five o Ho) as [->|[->|[->|[->| ->]]]]; simpl; lia.
Qed.
End Layout.

Lemma region_node_size_some total :
  0 <= total < 2 ^ 63 -> exists size, region_node_size total = Some size.
Proof.
  intros Ht. assert (Hw : forall o, 22 <= o -> 0 <= div_ceil (Z.shiftr total o) 64 <= 2 ^ 36).
  { intros o1 Ho1. unfold div_ceil. rewrite Z.shiftr_div_pow2 by lia. pose proof (Z.pow_pos_nonneg 2 o1 ltac:(lia) ltac:(lia)).
    assert (0 <= total / 2 ^ o1 <= 2 ^ 41).
    { split; [apply Z.div_pos; lia|]. apply Z.div_le_upper_bound; [lia|]. pose proof (Z.pow_le_mono_r 2 22 o1 ltac:(lia) ltac:(lia)). nia. }
    split; [apply Z.div_pos; lia|]. apply Z.div_le_upper_bound; lia. }
  unfold region_node_size. change (Z.to_nat BUDDY_NUM_ORDERS) with 5%nat. change BIG_BUDDY_MIN_ORDER with 22.
  cbn [bitmap_bytes_loop]. change (22 + 1) with 23. change (23 + 1) with 24. change (24 + 1) with 25. change (25 + 1) with 26.
  pose proof (Hw 22 ltac:(lia)). pose proof (Hw 23 ltac:(lia)). pose proof (Hw 24 ltac:(lia)). pose proof (Hw 25 ltac:(lia)). pose proof (Hw 26 ltac:(lia)).
  unfold checked_mul, checked_add, BuddyRegion_SIZE. repeat (case_match; [|lia]; cbn [mbind option_bind]). eauto.
Qed.

(** ** The free region *)

Section Fresh.
Context (base total : Z) (Hsp : region_space base total).

Lemma new_region_rep s rp node :
  (forall o i, 22 <= o <= 26 -> 0 <= i < words_of total o -> load_word s (bm_at rp total o + 8 * i) = 0) ->
  region_rep base total (put_region s rp (new_region rp base total node)) rp (new_region rp base total node) (fun _ => []).
Proof using Hsp.
  intros Hz. destruct Hsp as (_ & Ht & _). constructor; try done.
  - apply lookup_insert_eq.
  - intros o Ho. exists 0. split; [|done]. destruct (order_five o Ho) as [->|[->|[->|[->| ->]]]]; done.
  - intros o a Ha. by apply not_elem_of_nil in Ha.
  - intros. constructor.
  - intros o o' a Ha. by apply not_elem_of_nil in Ha.
  - intros o Ho. rewrite new_region_bitmap by done. eauto.
  - intros o o' p p' i i' Ho Ho' Hp Hp' Hi Hi' Hlt Hlt' He. rewrite new_region_bitmap in Hp, Hp' by done.
    injection Hp as <-. injection Hp' as <-. apply (bm_apart rp total o o' i i' Ho Ho'); [split; [lia|apply words_of_bound; lia]..|lia|exact He].
  - intros o a p Hv Hp. rewrite new_region_bitmap in Hp by apply Hv. injection Hp as <-.
    pose proof (valid_block base total _ _ Hv) as (_ & Hb0 & Hb1). pose proof (proj1 Hv) as Ho.
    unfold load_word in *. simpl. rewrite Hz; [by rewrite Z.bits_0|done|]. split; [apply Z.div_pos; lia|].
    apply words_of_bound; [lia|lia|apply Z.div_pos; lia|]. pose proof (Z.mul_div_le (block_no base o a) 64 ltac:(lia)). lia.
  - intros o Ho. simpl. by rewrite Z.bits_0.
  - intros i Hi. simpl. apply Z.bits_0.
Qed.

(** The lists after [j] blocks of the largest order were pushed. *)
Definition pushed (L : Z -> list Z) (j : Z) : Prop :=
  (forall o, o <> 26 -> L o = []) /\ (forall a, a ∈ L 26 <-> exists i, 0 <= i < j /\ a = base + i * 2 ^ 26).

Lemma push_max_ok fuel s r x L j lt :
  region_rep base total s r x L -> pushed L j -> 0 <= j -> j * 2 ^ 26 <= total ->
  (Z.to_nat (total / 2 ^ 26 - j) < fuel)%nat ->
  exists s' x' L', push_max_blocks fuel s r base (j * 2 ^ 26) total lt = Ret s' /\ region_rep base total s' r x' L' /\
    pushed L' (total / 2 ^ 26) /\ local_to base total r x s s'.
Proof using Hsp.
  revert s x L j. induction fuel as [|fuel IH]; intros s x L j Hrep Hpu Hj Hle Hf; [lia|].
  destruct Hsp as (Hb & Ht & He & [q Hq]). assert (Hdiv : total / 2 ^ 26 = q) by (rewrite Hq; apply Z.div_mul; lia).
  rewrite Hdiv in *. cbn [push_max_blocks]. change BIG_BUDDY_MAX_BLOCK_SIZE with (2 ^ 26). change BIG_BUDDY_MAX_ORDER with 26.
  destruct (Z.ltb_spec (j * 2 ^ 26) total) as [Hlt|Hge].
  - rewrite (wadd_small base) by lia. cbv zeta. set (a := base + j * 2 ^ 26).
    assert (Hv : valid base total 26 a) by (unfold valid, a; repeat split; try lia; exists j; lia).
    destruct (give_run base total Hsp s r x L 26 a lt BUDDY_TRIM_NOT_ALLOCATED Hrep Hv) as (s1 & x1 & Hrun & Hrep1 & Hl1).
    { intros o Hin. destruct Hpu as [Hpu1 Hpu2]. destruct (decide (o = 26)) as [->|Hne].
      - apply Hpu2 in Hin as (i & Hi & Hai). unfold a in Hai. lia.
      - rewrite Hpu1 in Hin by done. by apply not_elem_of_nil in Hin. }
    rewrite Hrun. cbn [mbind outcome_bind]. rewrite wadd_small by lia. replace (j * 2 ^ 26 + 2 ^ 26) with ((j + 1) * 2 ^ 26) by lia.
    destruct (IH s1 x1 (upd L 26 (a :: L 26)) (j + 1) Hrep1) as (s' & x' & L' & Hrun' & Hrep' & Hpu' & Hl'); try lia.
    { destruct Hpu as [Hpu1 Hpu2]. split; [intros o Hne; rewrite upd_ne by done; by apply Hpu1|].
      intros c. rewrite upd_eq, elem_of_cons, Hpu2. split.
      - intros [->|(i & Hi & ->)]; [exists j; split; [lia|done]|exists i; split; [lia|done]].
      - intros (i & Hi & ->). destruct (decide (i = j)) as [->|]; [by left|right; exists i; split; [lia|done]]. }
    exists s', x', L'. split; [done|]. split; [done|]. split; [done|]. eapply local_trans; [done|].
    eapply local_eq; [|exact Hl']. exact (rep_static _ _ _ _ _ _ _ _ _ Hrep Hrep1 Hl1).
  - assert (j = q) as -> by lia. exists s, x, L. split; [done|]. split; [done|]. split; [done|]. apply local_refl, Hrep.
Qed.

(** All blocks of the largest order, and no other, tile the region. *)
Lemma pushed_inv s r x L :
  region_rep base total s r x L -> pushed L (total / 2 ^ 26) -> buddy_inv base total s r x L ∅.
Proof using Hsp.
  intros Hrep [H1 H2]. destruct Hsp as (Hb & Ht & He & [q Hq]). assert (Hdiv : total / 2 ^ 26 = q) by (rewrite Hq; apply Z.div_mul; lia).
  rewrite Hdiv in H2.
  assert (Hheld : forall o a, held L ∅ o a <-> o = 26 /\ exists i, 0 <= i < q /\ a = base + i * 2 ^ 26).
  { intros o a. unfold held. rewrite <- H2. destruct (decide (o = 26)) as [->|Hne]; [set_solver|]. rewrite H1 by done. set_solver. }
  constructor; [done| |set_solver|].
  - constructor.
    + intros o a Ho%Hheld. apply (rr_valid _ _ _ _ _ _ Hrep). destruct Ho as [-> Ho]. by apply H2.
    + intros o a o' a' (-> & i & Hi & ->)%Hheld (-> & i' & Hi' & ->)%Hheld Ha Ha'. assert (i = i') as -> by lia. done.
    + intros p Hp. exists 26, (base + (p - base) / 2 ^ 26 * 2 ^ 26).
      pose proof (Z.div_mod (p - base) (2 ^ 26) ltac:(lia)). pose proof (Z.mod_pos_bound (p - base) (2 ^ 26) ltac:(lia)).
      split; [|lia]. apply Hheld. split; [done|]. exists ((p - base) / 2 ^ 26). split; [|done].
      split; [apply Z.div_pos; lia|]. apply Z.div_lt_upper_bound; lia.
  - intros o a Ha Hlt. rewrite H1 in Ha by lia. by apply not_elem_of_nil in Ha.
Qed.
End Fresh.

(** ** [add_region] *)

Lemma normalize_ok size :
  is_u 64 size -> exists k, 26 <= k < 64 /\ normalize_region_size size = 2 ^ k /\ (size <= 2 ^ 63 -> size <= 2 ^ k).
Proof.
  intros Hs. unfold is_u in Hs. unfold normalize_region_size, checked_next_power_of_two. change BIG_BUDDY_MAX_BLOCK_SIZE with (2 ^ 26).
  destruct (pow2_ceil_spec (Z.max size 1) ltac:(lia)) as (j & Hj & Hp & Hle & Hgt).
  assert (He : pow2_ceil size = 2 ^ j) by (rewrite <- Hp; unfold pow2_ceil; destruct (size <=? 1) eqn:?, (Z.max size 1 <=? 1) eqn:?; (done || f_equal; f_equal; lia || lia)).
  rewrite He. destruct (Z.ltb_spec (2 ^ j) (2 ^ 64)) as [Hlt|Hge]; cbn [default from_option id]; unfold id.
  - assert (Hj64 : j < 64) by (apply (Z.pow_lt_mono_r_iff 2); lia). destruct (decide (26 <= j)).
    + exists j. rewrite Z.max_l by (apply Z.pow_le_mono_r; lia). split; [lia|]. split; [done|]. lia.
    + exists 26. pose proof (Z.pow_le_mono_r 2 j 26 ltac:(lia) ltac:(lia)). rewrite Z.max_r by lia. split; [lia|]. split; [done|]. lia.
  - exists 26. split; [lia|]. split; [done|]. intros Hs63. exfalso.
    assert (Hj1 : 64 <= j) by (apply (Z.pow_le_mono_r_iff 2); lia).
    pose proof (Z.pow_le_mono_r 2 63 (j - 1) ltac:(lia) ltac:(lia)). destruct (decide (2 <= Z.max size 1)); [lia|].
    assert (Z.max size 1 = 1) as H1 by lia. rewrite H1 in Hp. unfold pow2_ceil in Hp. simpl in Hp. lia.
Qed.

Section AddRegion.
Context {K : Type} `{!Kernel K} `{!KernelSpec K}.
Implicit Types (s : Buddy) (rx : RadixTree K) (k : K).

Lemma mmap_retry_ok n size k a k' :
  0 < size -> mapped k VSYSCALL -> mmap_retry n size k = (Some a, k') ->
  0 < a /\ (4096 | a) /\ a + round_up size 4096 <= 2 ^ 47 /\
  (forall x, a <= x < a + round_up size 4096 -> ~ mapped k x) /\
  (forall x, mapped k' x <-> mapped k x \/ a <= x < a + round_up size 4096).
Proof.
  intros Hs. revert k. induction n as [|n IH]; intros k Hv; simpl; [done|].
  destruct (mmap_anonymous size k) as [[p|] k1] eqn:E.
  - intros [= -> ->]. by apply mmap_some.
  - intros Hr. destruct (IH _ (mmap_kept _ _ _ _ _ E Hv) Hr) as (H1 & H2 & H3 & H4 & H5). pose proof (fun x => mmap_none size k k1 x E) as Hm.
    repeat (split; [done|]). setoid_rewrite Hm in H4. setoid_rewrite Hm in H5. done.
Qed.

Lemma mmap_retry_none n size k k' x : mmap_retry n size k = (None, k') -> mapped k' x <-> mapped k x.
Proof.
  revert k. induction n as [|n IH]; intros k; simpl; [by intros [= ->]|].
  destruct (mmap_anonymous size k) as [[p|] k1] eqn:E; [done|]. intros Hr. rewrite (IH _ Hr). by apply mmap_none with size.
Qed.

Lemma radix_wf_mono rx k :
  radix_wf rx -> (forall x, mapped (kern rx) x -> mapped k x) -> radix_wf (mkRadixTree (l0 rx) (mem rx) k).
Proof.
  intros [tabs Hi] Hm. exists tabs. destruct Hi. constructor; eauto.
Qed.

Lemma prefer_node_mapped ptr len node k x : mapped (prefer_node ptr len node k).2 x <-> mapped k x.
Proof. apply mbind_node_mapped. Qed.

(** Bitmap words exist only in memory that is mapped. *)
Definition words_clean s k : Prop := forall w, ~ mapped k w -> bd_words s !! w = None.

(** The mapping of a region and of its node. *)
Lemma map_region_ok env s k n node (numa : bool) base s1 k1 :
  0 < n -> mapped k VSYSCALL -> map_region env s k n node numa = (Some base, s1, k1) ->
  s1 = set_cached_va s (add_buddy_cached_va (bd_cached_va s) n) /\
  0 < base /\ (4096 | base) /\ base + round_up n 4096 <= 2 ^ 47 /\
  (forall x, base <= x < base + round_up n 4096 -> ~ mapped k x) /\
  (forall x, mapped k1 x <-> mapped k x \/ base <= x < base + round_up n 4096).
Proof.
  intros Hn Hv. unfold map_region. destruct (mmap_retry _ n k) as [[p|] k2] eqn:E; [|done]. intros [= -> <- <-].
  split; [done|]. destruct (mmap_retry_ok _ _ _ _ _ Hn Hv E) as (H1 & H2 & H3 & H4 & H5). repeat (split; [done|]).
  destruct numa; [|done]. intros x. rewrite prefer_node_mapped. apply H5.
Qed.

Lemma map_region_none env s k n node numa s1 k1 x :
  map_region env s k n node numa = (None, s1, k1) -> s1 = s /\ (mapped k1 x <-> mapped k x).
Proof.
  unfold map_region. destruct (mmap_retry _ n k) as [[p|] k2] eqn:E; [done|]. intros [= <- <-]. split; [done|].
  by eapply mmap_retry_none.
Qed.

Lemma alloc_region_node_ok env s k n rp s1 k1 size :
  0 < size -> mapped k VSYSCALL -> region_node_size n = Some size -> alloc_region_node env s k n = (Some rp, s1, k1) ->
  s1 = set_cached_va s (add_buddy_cached_va (bd_cached_va s) size) /\ 0 < rp /\
  (forall x, rp <= x < rp + round_up size 4096 -> ~ mapped k x) /\
  (forall x, mapped k1 x <-> mapped k x \/ rp <= x < rp + round_up size 4096).
Proof.
  intros Hs Hv Hn. unfold alloc_region_node. rewrite Hn. destruct (mmap_retry _ size k) as [[p|] k2] eqn:E; [|done].
  intros [= -> <- <-]. split; [done|]. by destruct (mmap_retry_ok _ _ _ _ _ Hs Hv E) as (H1 & _ & _ & H4 & H5).
Qed.

Lemma alloc_region_node_none env s k n s1 k1 x :
  alloc_region_node env s k n = (None, s1, k1) -> s1 = s /\ (mapped k1 x <-> mapped k x).
Proof.
  unfold alloc_region_node. destruct (region_node_size n) as [size|]; [|by intros [= <- <-]].
  destruct (mmap_retry _ size k) as [[p|] k2] eqn:E; [done|]. intros [= <- <-]. split; [done|]. by eapply mmap_retry_none.
Qed.

(** The header, the blocks and the link of a region whose mappings exist. *)
Lemma install_region base total s rp node lt (Hsp : region_space base total) :
  (forall o i, 22 <= o <= 26 -> 0 <= i < words_of total o -> load_word s (bm_at rp total o + 8 * i) = 0) ->
  exists s1 x1 L1, push_max_blocks (Z.to_nat (total / BIG_BUDDY_MAX_BLOCK_SIZE + 1))
      (put_region s rp (new_region rp base total node)) rp base 0 total lt = Ret s1 /\
    bd_region_mem s1 !! rp = Some x1 /\ buddy_inv base total s1 rp x1 L1 ∅ /\ r_node_id x1 = node /\
    local_to base total rp (new_region rp base total node) (put_region s rp (new_region rp base total node)) s1.
Proof.
  intros Hz. pose proof (new_region_rep base total Hsp s rp node Hz) as Hrep. destruct (Hsp) as (_ & Ht & _).
  destruct (push_max_ok base total Hsp (Z.to_nat (total / BIG_BUDDY_MAX_BLOCK_SIZE + 1)) _ _ _ (fun _ => []) 0 lt Hrep)
    as (s1 & x1 & L1 & Hrun & Hrep1 & Hpu & Hl1).
  - split; [done|]. intros a. split; [by intros ?%not_elem_of_nil|intros (i & Hi & _); lia].
  - lia.
  - lia.
  - change BIG_BUDDY_MAX_BLOCK_SIZE with (2 ^ 26). pose proof (Z.div_pos total (2 ^ 26) ltac:(lia) ltac:(lia)). lia.
  - exists s1, x1, L1. split; [done|]. split; [apply Hrep1|]. split; [by apply pushed_inv|]. split; [|done].
    by destruct (rep_static _ _ _ _ _ _ _ _ _ Hrep Hrep1 Hl1) as (_ & _ & _ & _ & -> & _).
Qed.

(** Linking the region changes nothing the invariant speaks of. *)
Lemma inv_relink base total s r x L A next regions grow thp ini va :
  buddy_inv base total s r x L A ->
  buddy_inv base total
    (mkBuddy regions grow thp ini va
      (<[r := mkBuddyRegion next (r_base x) (r_total_size x) (r_order x) (r_node_id x) (r_nonempty_mask x) (r_free x)
               (r_free_bitmap x) (r_free_bitmap_words x)]> (bd_region_mem s)) (bd_blocks s) (bd_words s))
    r (mkBuddyRegion next (r_base x) (r_total_size x) (r_order x) (r_node_id x) (r_nonempty_mask x) (r_free x)
               (r_free_bitmap x) (r_free_bitmap_words x)) L A.
Proof.
  intros [Hrep Hti Hap Hco]. constructor; try done. destruct Hrep. constructor; try done. apply lookup_insert_eq.
Qed.
End AddRegion.
