(* ===== verification/BuddySpec.v ===== *)
(** * What the buddy allocator promises

    The theorems on growing, allocating, freeing and growing in place, for one
    region and for every sequence of operations on it. *)

From S2P Require Import Prelude Types SizeClasses DList Kernel Binder Radix RadixProofs Buddy BuddyRep BuddyProofs BuddyGrow.

Ltac Zify.zify_post_hook ::= idtac.

Section Add.
Context {K : Type} `{!Kernel K} `{!KernelSpec K}.
Implicit Types (s : Buddy) (rx : RadixTree K) (k : K).

(** A new region [base, base + total) with header [x] and free lists [L]: mapped
    where nothing was, free as a whole, first in the list of regions; its bytes are
    the only ones whose ownership changes, and only its own blocks and bitmap words
    are written. *)
Record region_added_at s rx (node : Z) s' rx' (base total : Z) (x : BuddyRegion) (L : Z -> list Z) : Prop := {
  ra_space : region_space base total;
  ra_page : (4096 | base);
  ra_head : bd_regions s' <> null;
  ra_inv : buddy_inv base total s' (bd_regions s') x L ∅;
  ra_link : r_next x = bd_regions s /\ r_node_id x = node;
  ra_radix : radix_wf rx';
  ra_fresh : forall a, base <= a < base + total -> ~ mapped (kern rx) a;
  ra_owned : forall a, 0 <= a < MAX_ADDR ->
    is_owned rx' a = if (base <=? a) && (a <? base + total) then Ret true else is_owned rx a;
  ra_regions : forall r, r <> bd_regions s' -> bd_region_mem s' !! r = bd_region_mem s !! r;
  ra_blocks : forall a, ~ base <= a < base + total -> bd_blocks s' !! a = bd_blocks s !! a;
  ra_words : forall w, mapped (kern rx) w -> bd_words s' !! w = bd_words s !! w;
  ra_own : forall w, own_word total x w \/ w = bd_regions s' -> ~ mapped (kern rx) w /\ mapped (kern rx') w;
  ra_mapped : forall a, mapped (kern rx) a \/ base <= a < base + total -> mapped (kern rx') a;
  ra_clean : words_clean s' (kern rx');
  ra_scalars : bd_grow_order s' = bd_grow_order s /\ bd_thp s' = bd_thp s;
}.

Definition region_added s rx size node s' rx' : Prop :=
  exists base x L, region_added_at s rx node s' rx' base (normalize_region_size size) x L.

(** Without memory nothing but the kernel's state changes. *)
Definition region_not_added s rx s' rx' : Prop :=
  bd_regions s' = bd_regions s /\ bd_region_mem s' = bd_region_mem s /\ bd_blocks s' = bd_blocks s /\
  bd_words s' = bd_words s /\ radix_wf rx' /\ (forall a, is_owned rx' a = is_owned rx a) /\
  (forall a, mapped (kern rx) a -> mapped (kern rx') a) /\ bd_grow_order s' = bd_grow_order s.

Lemma chunks_of_range base total a :
  (4096 | base) -> (4096 | total) -> 0 < total -> 0 <= base ->
  (base / CHUNK_SIZE <=? a / CHUNK_SIZE) && (a / CHUNK_SIZE <=? (base + total - 1) / CHUNK_SIZE)
  = (base <=? a) && (a <? base + total).
Proof.
  intros [q ->] [t ->] Ht Hb. change CHUNK_SIZE with 4096. rewrite Z.div_mul by lia.
  replace ((q * 4096 + t * 4096 - 1) / 4096) with (q + t - 1) by (apply Z.div_unique with 4095; lia).
  pose proof (Z.div_mod a 4096 ltac:(lia)). pose proof (Z.mod_pos_bound a 4096 ltac:(lia)). lia.
Qed.

(** The two mappings and the ownership map, up to the header. *)
Lemma owned_after rx k base total :
  radix_wf rx -> (forall x, mapped (kern rx) x -> mapped k x) -> region_space base total -> (4096 | base) ->
  match set_range (mkRadixTree (l0 rx) (mem rx) k) base total true with
  | Ret rx' => radix_wf rx' /\ (forall a, 0 <= a < MAX_ADDR ->
      is_owned rx' a = if (base <=? a) && (a <? base + total) then Ret true else is_owned rx a) /\
      forall a, mapped k a -> mapped (kern rx') a
  | Fatal e => e = VAIinitFailed
  | Stuck => False
  end.
Proof.
  intros Hwf Hm (Hb & Ht & He & Hd) Hal. set (t := mkRadixTree _ _ _).
  assert (Hwt : radix_wf t) by (by apply radix_wf_mono).
  assert (Hd4 : (4096 | total)) by (apply Z.divide_trans with (2 ^ 26); [by exists (2 ^ 14)|done]).
  assert (Hmax : MAX_ADDR = 2 ^ 56) by done.
  pose proof (set_range_updated t base total true Hwt ltac:(lia) Ht ltac:(lia)) as Hu.
  pose proof (fun t' x => set_range_mapped t base total true t' x) as Hmm.
  destruct (set_range t base total true) as [rx'| |]; [|done..]. destruct Hu as (Hw & _ & Hg).
  split; [done|]. split; [|intros a; by apply (Hmm rx' a)]. intros a Ha. rewrite (is_owned_get rx'), (is_owned_get rx) by done.
  rewrite Hg by (change CHUNK_SIZE with 4096; split; [apply Z.div_pos; lia|apply Z.div_lt_upper_bound; lia]).
  rewrite chunks_of_range by (done || lia). by destruct ((base <=? a) && (a <? base + total)).
Qed.

(** The end of [add_region]: the header, the blocks, the link. *)
Lemma link_region base total s rp node lt rx (ini : bool) :
  region_space base total ->
  (forall o i, 22 <= o <= 26 -> 0 <= i < words_of total o -> load_word s (bm_at rp total o + 8 * i) = 0) ->
  exists s' x L,
    (s ← push_max_blocks (Z.to_nat (total / BIG_BUDDY_MAX_BLOCK_SIZE + 1))
           (put_region s rp (new_region rp base total node)) rp base 0 total lt;
     x ← get_region s rp;
     let s := put_region s rp
       (mkBuddyRegion (bd_regions s) (r_base x) (r_total_size x) (r_order x) (r_node_id x)
          (r_nonempty_mask x) (r_free x) (r_free_bitmap x) (r_free_bitmap_words x)) in
     let s := mkBuddy rp (bd_grow_order s) (bd_thp s) (if ini then true else bd_init s)
                (bd_cached_va s) (bd_region_mem s) (bd_blocks s) (bd_words s) in
     Ret (true, s, rx)) = Ret (true, s', rx) /\
    bd_regions s' = rp /\ buddy_inv base total s' rp x L ∅ /\ r_next x = bd_regions s /\ r_node_id x = node /\
    (forall r, r <> rp -> bd_region_mem s' !! r = bd_region_mem s !! r) /\
    (forall a, ~ base <= a < base + total -> bd_blocks s' !! a = bd_blocks s !! a) /\
    (forall w, ~ own_word total x w -> bd_words s' !! w = bd_words s !! w) /\
    r_free_bitmap x = r_free_bitmap (new_region rp base total node) /\
    bd_grow_order s' = bd_grow_order s /\ bd_thp s' = bd_thp s.
Proof.
  intros Hsp Hz. destruct (install_region base total s rp node lt Hsp Hz) as (s1 & x1 & L1 & Hrun & Hx1 & Hi & Hnode & Hl).
  rewrite Hrun. cbn [mbind outcome_bind]. rewrite (get_region_ok _ _ _ Hx1). cbn [mbind outcome_bind].
  destruct (lo_scalars _ _ _ _ _ _ Hl) as (Hre & Hgo & Hthp & _). destruct (lo_static _ _ _ _ _ _ Hl) as (x0 & x2 & _ & Hx2 & _ & Hst).
  assert (x2 = x1) as -> by congruence. destruct Hst as (_ & _ & _ & _ & _ & Hbm & _).
  eexists _, _, L1. split; [reflexivity|]. split; [done|].
  split; [exact (inv_relink _ _ _ _ _ _ _ _ _ _ _ _ _ Hi)|]. split; [done|]. split; [done|]. split; [|split; [|split; [|done]]].
  - intros r Hr. simpl. rewrite lookup_insert_ne by done. rewrite (lo_regions _ _ _ _ _ _ Hl r) by done. simpl. by rewrite lookup_insert_ne.
  - intros a Ha. simpl. by rewrite (lo_blocks _ _ _ _ _ _ Hl a Ha).
  - intros w Hw. simpl. rewrite (lo_words _ _ _ _ _ _ Hl w); [done|]. unfold own_word in *. simpl in Hw. by rewrite <- Hbm.
Qed.

(** The bitmap words of the new region lie in its node mapping. *)
Lemma own_word_node base total rp node size x w :
  region_space base total -> region_node_size total = Some size -> r_free_bitmap x = r_free_bitmap (new_region rp base total node) ->
  own_word total x w -> rp <= w < rp + round_up size 4096.
Proof.
  intros (Hb & Ht & He & _) Hsz Hbm (o & p & i & Ho & Hp & Hi & Hlt & ->). rewrite Hbm, new_region_bitmap in Hp by done. injection Hp as <-.
  destruct (node_size_fits rp total size o i ltac:(lia) ltac:(lia) Hsz Ho) as (H1 & H2 & H3); [split; [lia|apply words_of_bound; lia]|].
  pose proof (round_up_ge size 4096 ltac:(lia)). lia.
Qed.

(** The state behind a region that was mapped at [base] with its node at [rp]. *)
Lemma region_added_intro s s2 rx k3 rx' s' base n rp node size x L :
  radix_wf rx' -> words_clean s (kern rx) -> region_space base n -> (4096 | base) -> region_node_size n = Some size -> 0 < rp -> 0 < size ->
  (forall a, base <= a < base + n -> ~ mapped (kern rx) a) ->
  (forall a, rp <= a < rp + round_up size 4096 -> ~ mapped (kern rx) a) ->
  (forall a, mapped (kern rx) a \/ base <= a < base + n \/ rp <= a < rp + round_up size 4096 -> mapped k3 a) ->
  (forall a, mapped k3 a -> mapped (kern rx') a) ->
  (forall a, 0 <= a < MAX_ADDR -> is_owned rx' a = if (base <=? a) && (a <? base + n) then Ret true else is_owned rx a) ->
  bd_regions s2 = bd_regions s -> bd_region_mem s2 = bd_region_mem s -> bd_blocks s2 = bd_blocks s -> bd_words s2 = bd_words s ->
  bd_grow_order s2 = bd_grow_order s -> bd_thp s2 = bd_thp s ->
  bd_regions s' = rp -> buddy_inv base n s' rp x L ∅ -> r_next x = bd_regions s2 -> r_node_id x = node ->
  (forall r, r <> rp -> bd_region_mem s' !! r = bd_region_mem s2 !! r) ->
  (forall a, ~ base <= a < base + n -> bd_blocks s' !! a = bd_blocks s2 !! a) ->
  (forall w, ~ own_word n x w -> bd_words s' !! w = bd_words s2 !! w) ->
  r_free_bitmap x = r_free_bitmap (new_region rp base n node) ->
  bd_grow_order s' = bd_grow_order s2 -> bd_thp s' = bd_thp s2 ->
  region_added_at s rx node s' rx' base n x L.
Proof.
  intros Hwf Hcl Hsp Hb4 Hsz Hrp Hs0 Hbm Hrm Hk3 Hk4 Ho E1 E2 E3 E4 E5 E6 Hr Hi Hnx Hnode Hfr Hfb Hfw Hbmp Hgo Hthp.
  assert (Hown : forall w, own_word n x w -> rp <= w < rp + round_up size 4096) by (intros w; by eapply own_word_node).
  pose proof (round_up_ge size 4096 ltac:(lia)) as Hru. constructor; try done; rewrite ?Hr.
  - change null with 0. lia.
  - done.
  - by rewrite Hnx.
  - intros r Hne. by rewrite Hfr, E2.
  - intros a Ha. by rewrite Hfb, E3.
  - intros w Hw. rewrite Hfw, E4; [done|]. intros Hx%Hown. by apply (Hrm w).
  - intros w Hw. assert (Hin : rp <= w < rp + round_up size 4096) by (destruct Hw as [Hw| ->]; [by apply Hown|lia]). split; [by apply Hrm|]. apply Hk4, Hk3. tauto.
  - intros a Ha. apply Hk4, Hk3. tauto.
  - intros w Hw. rewrite Hfw, E4; [apply Hcl; intros Hm; apply Hw, Hk4, Hk3; by left|]. intros Hx%Hown. apply Hw, Hk4, Hk3. tauto.
  - by rewrite Hgo, Hthp.
Qed.

Lemma add_region_ok env s rx size node (ini numa : bool) :
  is_u 64 size -> radix_wf rx -> words_clean s (kern rx) ->
  match add_region env s rx size node ini numa with
  | Ret (true, s', rx') => region_added s rx size node s' rx'
  | Ret (false, s', rx') => region_not_added s rx s' rx'
  | Fatal e => e = VAIinitFailed
  | Stuck => False
  end.
Proof.
  intros Hs Hwf Hcl. pose proof (radix_process _ Hwf) as Hv. unfold add_region, region_added. destruct (normalize_ok size Hs) as (j & Hj & Hn & _). rewrite Hn. set (n := 2 ^ j).
  assert (Hn0 : 0 < n < 2 ^ 64) by (split; [apply Z.pow_pos_nonneg; lia|apply Z.pow_lt_mono_r; lia]).
  assert (Hd : (2 ^ 26 | n)) by (exists (2 ^ (j - 26)); unfold n; rewrite <- Z.pow_add_r by lia; f_equal; lia).
  assert (Hd4 : (4096 | n)) by (apply Z.divide_trans with (2 ^ 26); [by exists (2 ^ 14)|done]).
  destruct (map_region env s (kern rx) n node numa) as [[[base|] s1] k1] eqn:E1.
  2:{ pose proof (fun x => map_region_none _ _ _ _ _ _ _ _ x E1) as Hm. destruct (Hm 0) as [-> _].
      repeat (split; [done|]). assert (Hmm : forall x, mapped (kern rx) x -> mapped k1 x) by (intros x Hx; by apply Hm).
      split; [by apply radix_wf_mono|done]. }
  destruct (map_region_ok _ _ _ _ _ _ _ _ _ (proj1 Hn0) Hv E1) as (-> & Hb & Hb4 & Hbe & Hbm & Hk1). rewrite round_up_id in Hbe, Hbm, Hk1 by (lia || done).
  set (s1 := set_cached_va _ _) in *. assert (Hsp : region_space base n) by (repeat split; (done || lia)).
  destruct (alloc_region_node env s1 k1 n) as [[[rp|] s2] k2] eqn:E2.
  2:{ pose proof (fun x => alloc_region_node_none _ _ _ _ _ _ x E2) as Hm. destruct (Hm 0) as [-> _].
      repeat (split; [done|]). assert (Hmm : forall x, mapped (kern rx) x -> mapped (munmap base n k2) x).
      { intros x Hx. apply munmap_other; rewrite ?round_up_id by (lia || done); [apply Hm, Hk1; by left|intros y Hy; apply Hm, Hk1; by right|]. intros Hr. by apply (Hbm x Hr). }
      split; [by apply radix_wf_mono|done]. }
  destruct (region_node_size_some n ltac:(lia)) as [size' Hsz].
  pose proof (fun o i => node_size_fits rp n size' o i ltac:(lia) ltac:(lia) Hsz) as Hfit.
  assert (Hs0 : 0 < size') by (apply (Hfit 22 0); [lia|]; split; [lia|]; apply words_of_bound; [lia|lia|lia|];
    apply Z.div_str_pos; pose proof (Z.pow_le_mono_r 2 26 j ltac:(lia) ltac:(lia)); unfold n; lia).
  destruct (alloc_region_node_ok _ _ _ _ _ _ _ _ Hs0 (proj2 (Hk1 _) (or_introl Hv)) Hsz E2) as (-> & Hrp & Hrm & Hk2). set (s2 := set_cached_va s1 _) in *.
  assert (Hrm0 : forall a, rp <= a < rp + round_up size' 4096 -> ~ mapped (kern rx) a) by (intros a Ha Hm; apply (Hrm a Ha), Hk1; by left).
  set (k3 := if bd_thp s2 then _ else _).
  assert (Hk3 : forall x, mapped (kern rx) x \/ base <= x < base + n \/ rp <= x < rp + round_up size' 4096 -> mapped k3 x).
  { intros x Hx. assert (mapped k2 x) by (apply Hk2; rewrite Hk1; tauto). unfold k3. destruct (bd_thp s2); [by apply madvise_mapped|done]. }
  pose proof (owned_after rx k3 base n Hwf ltac:(auto) Hsp Hb4) as Ho.
  destruct (set_range _ base n true) as [rx'| |]; cbn [mbind outcome_bind]; [|done..]. destruct Ho as (Hwf' & Ho & Hk4).
  destruct (link_region base n s2 rp node (current_stamp env) rx' ini Hsp) as (s' & x & L & Hrun & Hr & Hi & Hnx & Hnode & Hfr & Hfb & Hfw & Hbmp & Hgo & Hthp).
  { intros o i Hoo Hi. unfold load_word. simpl. rewrite Hcl; [done|]. apply Hrm0.
    destruct (Hfit o i Hoo Hi) as (F1 & F2 & _). pose proof (round_up_ge size' 4096 ltac:(lia)). lia. }
  cbn [mbind outcome_bind] in Hrun. rewrite Hrun. exists base, x, L. by apply (region_added_intro s s2 rx k3 rx' s' base n rp node size' x L).
Qed.
End Add.

(** ** Sequences of operations on a region *)

(** What a client does with a region: allocate, give a block it holds back, or
    extend a block it holds. *)
Inductive RegionOp :=
  | OpAlloc (requested_order : Z)
  | OpFree (order addr stamp : Z)
  | OpGrow (order addr : Z).

(** One operation; the set holds the blocks handed out, as (order, address). *)
Definition region_op (r : Z) (st : Buddy * gset (Z * Z)) (op : RegionOp) : outcome (Buddy * gset (Z * Z)) :=
  let '(s, A) := st in
  match op with
  | OpAlloc req =>
      '(res, s) ← alloc_from_region s r req;
      Ret (s, match res with Some (a, _) => {[(req, a)]} ∪ A | None => A end)
  | OpFree o a stamp =>
      if decide ((o, a) ∈ A) then s ← free s stamp r a o; Ret (s, A ∖ {[(o, a)]}) else Ret (s, A)
  | OpGrow o a =>
      if decide ((o, a) ∈ A) then
        '(res, s) ← try_grow_inplace s r a o;
        Ret (s, match res with Some (a', o') => {[(o', a')]} ∪ A ∖ {[(o, a)]} | None => A end)
      else Ret (s, A)
  end.

Fixpoint region_ops (r : Z) (st : Buddy * gset (Z * Z)) (ops : list RegionOp) : outcome (Buddy * gset (Z * Z)) :=
  match ops with
  | [] => Ret st
  | op :: ops => st ← region_op r st op; region_ops r st ops
  end.

(** Orders below the smallest never reach a region. *)
Definition op_ok (op : RegionOp) : Prop := match op with OpAlloc req => BIG_BUDDY_MIN_ORDER <= req | _ => True end.

#[export] Instance op_ok_dec op : Decision (op_ok op).
Proof. destruct op; apply _. Defined.

Section Ops.
Context (base total : Z) (Hsp : region_space base total).
Implicit Types (s : Buddy) (r o a : Z) (x : BuddyRegion) (L : Z -> list Z) (A : gset (Z * Z)).

Lemma region_op_inv s r x L A op :
  buddy_inv base total s r x L A -> r <> null -> op_ok op ->
  exists s' x' L' A', region_op r (s, A) op = Ret (s', A') /\ buddy_inv base total s' r x' L' A'.
Proof using Hsp.
  intros Hi Hr Hop. destruct op as [req|o a stamp|o a]; simpl.
  - destruct (alloc_from_region_ok base total Hsp s r x L A req Hi Hop) as
      [(o & a & b & s' & x' & L' & -> & _ & _ & _ & _ & Hi' & _)|[-> _]]; cbn [mbind outcome_bind]; eauto 6.
  - destruct (decide ((o, a) ∈ A)) as [HA|]; [|eauto 6].
    destruct (free_ok base total Hsp s stamp r x L A o a Hi Hr HA) as (s' & x' & L' & -> & Hi' & _). cbn [mbind outcome_bind]. eauto 6.
  - destruct (decide ((o, a) ∈ A)) as [HA|]; [|eauto 6].
    destruct (try_grow_inplace_ok base total Hsp s r x L A o a Hi Hr HA) as [(s' & x' & L' & -> & _ & _ & _ & Hi' & _)|[-> _]];
      cbn [mbind outcome_bind]; eauto 6.
Qed.

Lemma region_ops_inv ops : forall s r x L A,
  buddy_inv base total s r x L A -> r <> null -> Forall op_ok ops ->
  exists s' x' L' A', region_ops r (s, A) ops = Ret (s', A') /\ buddy_inv base total s' r x' L' A'.
Proof using Hsp.
  induction ops as [|op ops IH]; intros s r x L A Hi Hr Hall; cbn [region_ops]; [eauto 6|].
  apply Forall_cons in Hall as [Hop Hall].
  destruct (region_op_inv s r x L A op Hi Hr Hop) as (s1 & x1 & L1 & A1 & -> & Hi1). cbn [mbind outcome_bind]. eauto.
Qed.

(** When nothing is handed out every block of the largest order is free. *)
Lemma all_free s r x L :
  buddy_inv base total s r x L ∅ ->
  forall o a, a ∈ L o <-> o = 26 /\ exists i, 0 <= i < total / 2 ^ 26 /\ a = base + i * 2 ^ 26.
Proof using Hsp.
  intros Hi o a. pose proof (bi_rep _ _ _ _ _ _ _ Hi) as Hrep. destruct (Hsp) as (Hb & Ht & He & [q Hq]).
  assert (Hdiv : total / 2 ^ 26 = q) by (rewrite Hq; apply Z.div_mul; lia). rewrite Hdiv. split.
  - intros Ha. pose proof (rr_valid _ _ _ _ _ _ Hrep _ _ Ha) as (Ho & Hlo & Hhi & [i Hi']).
    destruct (decide (o < 26)) as [Hlt|]; [rewrite (all_coalesced base total Hsp s r x L o Hi Hlt) in Ha; by apply not_elem_of_nil in Ha|].
    assert (o = 26) as -> by lia. split; [done|]. exists i. lia.
  - intros (-> & i & Hir & ->).
    destruct (ti_cover _ _ _ (bi_tiling _ _ _ _ _ _ _ Hi) (base + i * 2 ^ 26) ltac:(lia)) as (o & a & [Ha|Ha] & Hr); [|set_solver].
    pose proof (rr_valid _ _ _ _ _ _ Hrep _ _ Ha) as (Ho & Hlo & Hhi & [i' Hi']).
    destruct (decide (o < 26)) as [Hlt|]; [rewrite (all_coalesced base total Hsp s r x L o Hi Hlt) in Ha; by apply not_elem_of_nil in Ha|].
    assert (o = 26) as -> by lia. assert (i = i') as -> by lia. by replace (base + i' * 2 ^ 26) with a by lia.
Qed.
End Ops.

(** ** Theorems *)

(** When the kernel provides memory, [add_region] puts at the head of the
    region list a region that is free as a whole, mapped where nothing was
    mapped, whose bytes are exactly the ones newly owned in the ownership map;
    otherwise it leaves lists, bitmaps and ownership alone.  It never goes wrong
    other than by the abort of a failed radix-table mapping. *)
Theorem add_region_free_as_a_whole {K} `{!Kernel K} `{!KernelSpec K} (env : BuddyEnv) (s : Buddy) (rx : RadixTree K)
    (size node : Z) (ini numa : bool)
    (Hsize : is_u 64 size) (Hwf : radix_wf rx) (Hclean : words_clean s (kern rx)) :
  match add_region env s rx size node ini numa with
  | Ret (true, s', rx') => region_added s rx size node s' rx'
  | Ret (false, s', rx') => region_not_added s rx s' rx'
  | Fatal e => e = VAIinitFailed
  | Stuck => False
  end.
Proof. by apply add_region_ok. Qed.

(** C24: an allocation from a region hands out a block that was not handed out,
    cut from the smallest order that has a free block, together with that
    block's trim state, and keeps the region tiled by free and handed-out blocks;
    it fails only if no order has a block, and then changes nothing. *)
Theorem alloc_from_region_best_fit (base total : Z) (s : Buddy) (r : Z) (x : BuddyRegion) (L : Z -> list Z)
    (A : gset (Z * Z)) (req : Z)
    (Hsp : region_space base total) (Hinv : buddy_inv base total s r x L A) (Hreq : BIG_BUDDY_MIN_ORDER <= req) :
  alloc_result base total s r x L A req (alloc_from_region s r req).
Proof. by apply alloc_from_region_ok. Qed.

(** C25: freeing a handed-out block merges it with its free buddies, keeps the
    tiling, leaves no two free buddies apart and touches no other region. *)
Theorem free_coalesces (base total : Z) (s : Buddy) (stamp r : Z) (x : BuddyRegion) (L : Z -> list Z)
    (A : gset (Z * Z)) (o a : Z)
    (Hsp : region_space base total) (Hinv : buddy_inv base total s r x L A) (Hr : r <> null) (Ha : (o, a) ∈ A) :
  exists s' x' L', free s stamp r a o = Ret s' /\ buddy_inv base total s' r x' L' (A ∖ {[(o, a)]}) /\
    local_to base total r x s s'.
Proof. exact (free_ok base total Hsp s stamp r x L A o a Hinv Hr Ha). Qed.

(** C26: a handed-out block grows in place exactly when it is the lower half of
    its parent and the upper half is free; the address stays the same and the
    grown block is handed out in place of the old one. *)
Theorem try_grow_inplace_exact (base total : Z) (s : Buddy) (r : Z) (x : BuddyRegion) (L : Z -> list Z)
    (A : gset (Z * Z)) (o a : Z)
    (Hsp : region_space base total) (Hinv : buddy_inv base total s r x L A) (Hr : r <> null) (Ha : (o, a) ∈ A) :
  (exists s' x' L', try_grow_inplace s r a o = Ret (Some (a, o + 1), s') /\ o < 26 /\ a + 2 ^ o ∈ L o /\
     valid base total (o + 1) a /\ buddy_inv base total s' r x' L' ({[(o + 1, a)]} ∪ (A ∖ {[(o, a)]})) /\
     local_to base total r x s s') \/
  (try_grow_inplace s r a o = Ret (None, s) /\ ~ (o < 26 /\ a + 2 ^ o ∈ L o /\ valid base total (o + 1) a)).
Proof. exact (try_grow_inplace_ok base total Hsp s r x L A o a Hinv Hr Ha). Qed.

(** Every sequence of allocations, frees and in-place growths on a free
    region runs to its end; the blocks handed out lie in the region, aligned to
    their size, and do not overlap; and once all are given back, the free lists
    are again exactly all blocks of the largest order. *)
Theorem region_ops_safe (base total : Z) (s : Buddy) (r : Z) (x : BuddyRegion) (L : Z -> list Z) (ops : list RegionOp)
    (Hsp : region_space base total) (Hinv : buddy_inv base total s r x L ∅) (Hr : r <> null) (Hops : Forall op_ok ops) :
  exists s' A x' L', region_ops r (s, ∅) ops = Ret (s', A) /\ region_rep base total s' r x' L' /\
    (forall o a, (o, a) ∈ A -> base <= a /\ a + 2 ^ o <= base + total /\ (2 ^ o | a - base)) /\
    (forall o a o' a', (o, a) ∈ A -> (o', a') ∈ A -> (o, a) <> (o', a') -> a + 2 ^ o <= a' \/ a' + 2 ^ o' <= a) /\
    (A = ∅ -> forall o a, a ∈ L' o <-> o = 26 /\ exists i, 0 <= i < total / 2 ^ 26 /\ a = base + i * 2 ^ 26).
Proof.
  destruct (region_ops_inv base total Hsp ops s r x L ∅ Hinv Hr Hops) as (s' & x' & L' & A & Hrun & Hi).
  exists s', A, x', L'. split; [done|]. split; [apply Hi|]. split; [|split].
  - intros o a Ha. apply (inv_valid _ _ _ _ _ _ _ _ _ Hi) in Ha as (_ & ? & ? & ?). done.
  - intros o a o' a' Ha Ha' Hne. destruct (decide (a + 2 ^ o <= a')); [by left|]. destruct (decide (a' + 2 ^ o' <= a)); [by right|].
    destruct Hne. destruct (ti_disj _ _ _ (bi_tiling _ _ _ _ _ _ _ Hi) o a o' a') as [-> ->]; (by right) || lia || done.
  - intros ->. by eapply all_free.
Qed.

(** ** Witnesses: a region of 64 MiB on the concrete kernel *)

Definition buddy_demo : outcome (bool * Buddy * RadixTree BumpKernel.state) :=
  rx ← Radix_new BumpKernel.empty;
  add_region (mkBuddyEnv 3 7) BuddyAllocator_new rx 1000 0 true false.

Lemma buddy_demo_grows : match buddy_demo with Ret (true, _, _) => true | _ => false end = true.
Proof. by vm_compute. Qed.

Lemma words_clean_new {K} `{!Kernel K} `{!KernelSpec K} (k : K) : words_clean BuddyAllocator_new k.
Proof. done. Qed.

Lemma add_region_free_as_a_whole_witness :
  exists rx s' rx', add_region (mkBuddyEnv 3 7) BuddyAllocator_new rx 1000 0 true false = Ret (true, s', rx') /\
    region_added BuddyAllocator_new rx 1000 0 s' rx' (K := BumpKernel.state).
Proof.
  pose proof buddy_demo_grows as Hg. unfold buddy_demo in Hg. pose proof (Radix_new_ok BumpKernel.empty BumpKernel.empty_process) as Hn.
  destruct (Radix_new BumpKernel.empty) as [rx| |]; [|done..]. cbn [mbind outcome_bind] in Hg. destruct Hn as [Hwf _].
  pose proof (add_region_free_as_a_whole (mkBuddyEnv 3 7) BuddyAllocator_new rx 1000 0 true false ltac:(done) Hwf (words_clean_new _)) as H.
  exists rx. destruct (add_region _ _ rx _ _ _ _) as [[[[] s'] rx']| |]; [|done..]. eauto.
Defined.

Lemma buddy_demo_inv :
  exists base total s r x L, region_space base total /\ r <> null /\ total = 2 ^ 26 /\ buddy_inv base total s r x L ∅.
Proof.
  pose proof buddy_demo_grows as Hg. unfold buddy_demo in Hg. pose proof (Radix_new_ok BumpKernel.empty BumpKernel.empty_process) as Hn.
  destruct (Radix_new BumpKernel.empty) as [rx| |]; [|done..]. cbn [mbind outcome_bind] in Hg. destruct Hn as [Hwf _].
  pose proof (add_region_ok (mkBuddyEnv 3 7) BuddyAllocator_new rx 1000 0 true false ltac:(done) Hwf (words_clean_new _)) as H.
  destruct (add_region _ _ rx _ _ _ _) as [[[[] s'] rx']| |]; [|done..]. destruct H as (base & x & L & H).
  exists base, (normalize_region_size 1000), s', (bd_regions s'), x, L. split; [apply H|]. split; [apply H|]. split; [done|apply H].
Qed.

(** The smallest block of the region, handed out. *)
Lemma buddy_demo_alloc :
  exists base total s r x L a, region_space base total /\ r <> null /\ buddy_inv base total s r x L {[(22, a)]}.
Proof.
  destruct buddy_demo_inv as (base & total & s & r & x & L & Hsp & Hr & Ht & Hi).
  destruct (alloc_from_region_ok base total Hsp s r x L ∅ 22 Hi ltac:(done)) as
    [(o & a & b & s' & x' & L' & _ & _ & _ & _ & _ & Hi' & _)|[_ Hno]].
  - rewrite union_empty_r_L in Hi'. exists base, total, s', r, x', L', a. split; [done|]. by split.
  - exfalso. specialize (Hno 26 ltac:(lia)). assert (Hin : base ∈ L 26).
    { apply (all_free base total Hsp s r x L Hi). split; [done|]. exists 0. rewrite Ht. split; [by vm_compute|lia]. }
    rewrite Hno in Hin. by apply not_elem_of_nil in Hin.
Qed.

Lemma alloc_from_region_best_fit_witness :
  exists base total s r x L, alloc_result base total s r x L ∅ 22 (alloc_from_region s r 22).
Proof.
  destruct buddy_demo_inv as (base & total & s & r & x & L & Hsp & _ & _ & Hi). exists base, total, s, r, x, L.
  apply (alloc_from_region_best_fit base total s r x L ∅ 22 Hsp Hi). by vm_compute.
Defined.

Lemma free_coalesces_witness :
  exists s s' r a, free s 9 r a 22 = Ret s'.
Proof.
  destruct buddy_demo_alloc as (base & total & s & r & x & L & a & Hsp & Hr & Hi).
  destruct (free_coalesces base total s 9 r x L {[(22, a)]} 22 a Hsp Hi Hr ltac:(set_solver)) as (s' & x' & L' & H & _). eauto.
Defined.

Lemma try_grow_inplace_exact_witness :
  exists s r a res s', try_grow_inplace s r a 22 = Ret (res, s').
Proof.
  destruct buddy_demo_alloc as (base & total & s & r & x & L & a & Hsp & Hr & Hi).
  destruct (try_grow_inplace_exact base total s r x L {[(22, a)]} 22 a Hsp Hi Hr ltac:(set_solver)) as
    [(s' & x' & L' & H & _)|[H _]]; eauto 6.
Defined.

Lemma region_ops_safe_witness :
  exists s r s' A, region_ops r (s, ∅) [OpAlloc 22; OpAlloc 24; OpAlloc 22; OpAlloc 27] = Ret (s', A).
Proof.
  destruct buddy_demo_inv as (base & total & s & r & x & L & Hsp & Hr & _ & Hi).
  destruct (region_ops_safe base total s r x L [OpAlloc 22; OpAlloc 24; OpAlloc 22; OpAlloc 27] Hsp Hi Hr
    ltac:(by apply (bool_decide_unpack _); vm_compute)) as (s' & A & x' & L' & H & _). eauto.
Defined.
