(* ===== verification/BuddyWhole.v ===== *)
(** * The buddy allocator as a whole

    The list of regions with everything handed out of any of them: an operation
    on one region leaves the others alone, a new region is apart from all of them,
    and the walks over the list end.  [whole] is the invariant of the allocator;
    allocation, release, growth in place and trimming keep it. *)

From stdpp Require Import functions.
From S2P Require Import Prelude Types SizeClasses DList Kernel Binder Radix RadixProofs Buddy BuddyRep BuddyProofs BuddyGrow BuddySpec.

Ltac Zify.zify_post_hook ::= idtac.

(** The invariant of a region depends on its header, its blocks and its words. *)
Lemma buddy_inv_frame b t s s' r x L A :
  bd_region_mem s' !! r = bd_region_mem s !! r ->
  (forall a, b <= a < b + t -> bd_blocks s' !! a = bd_blocks s !! a) ->
  (forall w, own_word t x w -> bd_words s' !! w = bd_words s !! w) ->
  buddy_inv b t s r x L A -> buddy_inv b t s' r x L A.
Proof.
  intros Hr Hb Hw [Hrep Hti Hap Hco]. constructor; try done. destruct Hrep as [R1 R2 R3 R4 R5 R6 R7 R8 R9 R10 R11 R12 R13 R14].
  constructor; try done.
  - by rewrite Hr.
  - intros o Ho. destruct (R5 o Ho) as (h & Hh & Hs). exists h. split; [done|]. eapply seg_ext; [|exact Hs].
    intros a Ha. apply Hb. destruct (R6 o a Ha) as (Hoo & H1 & H2 & _). pose proof (Z.pow_pos_nonneg 2 o ltac:(lia) ltac:(lia)). lia.
  - intros o a p Hv Hp. rewrite <- (R11 o a p Hv Hp). unfold load_word. rewrite Hw; [done|]. by eapply own_word_block.
Qed.

(** ** The list of regions *)

(** Regions as (header, (base, size)), in the order of the list. *)
Abbreviation regions := (list (Z * (Z * Z))).

Fixpoint linked (s : Buddy) (h : Z) (rs : regions) : Prop :=
  match rs with
  | [] => h = null
  | (r, _) :: rs => h = r /\ r <> null /\ exists x, bd_region_mem s !! r = Some x /\ linked s (r_next x) rs
  end.

(** The links of the region headers are the same. *)
Definition same_links (s s' : Buddy) (r : Z) : Prop :=
  match bd_region_mem s !! r, bd_region_mem s' !! r with Some x, Some x' => r_next x' = r_next x | None, None => True | _, _ => False end.

Lemma linked_same s s' h rs : (forall r, r ∈ rs.*1 -> same_links s s' r) -> linked s h rs -> linked s' h rs.
Proof.
  revert h. induction rs as [|[r bt] rs IH]; intros h Hs; simpl; [done|]. intros (-> & Hn & x & Hx & Hl). split; [done|]. split; [done|].
  pose proof (Hs r ltac:(by left)) as Hsame. unfold same_links in Hsame. rewrite Hx in Hsame.
  destruct (bd_region_mem s' !! r) as [x'|] eqn:Hx'; [|done]. exists x'. split; [done|]. rewrite Hsame. apply IH; [|done]. intros r' Hr'. apply Hs. by right.
Qed.

Lemma linked_dom s h rs r : linked s h rs -> r ∈ rs.*1 -> r ∈ dom (bd_region_mem s).
Proof.
  revert h. induction rs as [|[r' bt] rs IH]; intros h; simpl; [by intros _ ?%not_elem_of_nil|].
  intros (_ & _ & x & Hx & Hl) [->|Hin]%elem_of_cons; [by apply elem_of_dom|by eapply IH].
Qed.

(** The fuel of the walks is enough. *)
Lemma linked_fuel s h rs : linked s h rs -> NoDup rs.*1 -> (length rs <= size (bd_region_mem s))%nat.
Proof.
  intros Hl Hnd. rewrite <- (length_fmap fst), <- size_dom, <- (size_list_to_set (C := gset Z) rs.*1 Hnd).
  apply subseteq_size. intros r Hr%elem_of_list_to_set. by eapply linked_dom.
Qed.

(** ** The invariant *)

Section Whole.
Context {K : Type} `{!Kernel K} `{!KernelSpec K}.
Implicit Types (s : Buddy) (rx : RadixTree K) (k : K) (rs : regions) (A : Z -> gset (Z * Z)).

(** A region in the state [s], of which the blocks [Ar] are handed out. *)
Record region_ok s rx (Ar : gset (Z * Z)) (r b t : Z) : Prop := {
  ro_space : region_space b t /\ (4096 | b);
  ro_inv : exists x L, buddy_inv b t s r x L Ar;
  ro_bytes a : b <= a < b + t -> mapped (kern rx) a /\ is_owned rx a = Ret true;
  ro_words x w : bd_region_mem s !! r = Some x -> own_word t x w -> mapped (kern rx) w;
  ro_node : mapped (kern rx) r;
}.

Definition apart s (r b t r' b' t' : Z) : Prop :=
  (forall y, b <= y < b + t -> b' <= y < b' + t' -> False) /\
  (forall x x' w, bd_region_mem s !! r = Some x -> bd_region_mem s !! r' = Some x' -> own_word t x w -> own_word t' x' w -> False).

Record whole s rx rs A : Prop := {
  wh_linked : linked s (bd_regions s) rs;
  wh_nodup : NoDup rs.*1;
  wh_region r b t : (r, (b, t)) ∈ rs -> region_ok s rx (A r) r b t;
  wh_apart r b t r' b' t' : (r, (b, t)) ∈ rs -> (r', (b', t')) ∈ rs -> r <> r' -> apart s r b t r' b' t';
  wh_none r : r ∉ rs.*1 -> A r = ∅;
  wh_radix : radix_wf rx;
  wh_clean : words_clean s (kern rx);
  wh_grow : 0 <= bd_grow_order s <= 26;
}.

Lemma whole_in rs (r b t : Z) : (r, (b, t)) ∈ rs -> r ∈ rs.*1.
Proof. intros H. apply list_elem_of_fmap. by exists (r, (b, t)). Qed.

Lemma whole_unique rs (r b t b' t' : Z) : NoDup rs.*1 -> (r, (b, t)) ∈ rs -> (r, (b', t')) ∈ rs -> b = b' /\ t = t'.
Proof.
  intros Hnd [i Hi]%list_elem_of_lookup [j Hj]%list_elem_of_lookup.
  assert (i = j) as <- by (eapply NoDup_lookup; [exact Hnd|by rewrite list_lookup_fmap, Hi|by rewrite list_lookup_fmap, Hj]). rewrite Hi in Hj. by simplify_eq.
Qed.

Lemma linked_ne s h rs r : linked s h rs -> r ∈ rs.*1 -> r <> null.
Proof.
  revert h. induction rs as [|[r' bt] rs IH]; intros h; simpl; [by intros _ ?%not_elem_of_nil|].
  intros (_ & Hn & x & Hx & Hl) [->|Hin]%elem_of_cons; [done|by eapply IH].
Qed.

Lemma local_header b t r x s s' x' :
  local_to b t r x s s' -> bd_region_mem s !! r = Some x -> bd_region_mem s' !! r = Some x' -> static_eq x x'.
Proof. intros Hlo Hx Hx'. destruct (lo_static _ _ _ _ _ _ Hlo) as (x0 & x1 & H0 & H1 & _ & Hs). by simplify_eq. Qed.

Lemma own_word_static t x x' w : r_free_bitmap x' = r_free_bitmap x -> own_word t x' w <-> own_word t x w.
Proof. intros He. unfold own_word. by rewrite He. Qed.

(** Headers keep their links and bitmaps under a change of one region. *)
Lemma local_bitmaps b t r x s s' r' y y' :
  local_to b t r x s s' -> bd_region_mem s !! r = Some x -> bd_region_mem s !! r' = Some y -> bd_region_mem s' !! r' = Some y' ->
  r_free_bitmap y' = r_free_bitmap y.
Proof.
  intros Hlo Hx Hy Hy'. destruct (decide (r' = r)) as [->|Hne]; [|rewrite (lo_regions _ _ _ _ _ _ Hlo r' Hne) in Hy'; congruence].
  rewrite Hy in Hx. injection Hx as ->. by destruct (local_header _ _ _ _ _ _ _ Hlo Hy Hy') as (_ & _ & _ & _ & _ & ? & _).
Qed.

Lemma local_known b t r x s s' r' y' :
  local_to b t r x s s' -> bd_region_mem s' !! r' = Some y' -> exists y, bd_region_mem s !! r' = Some y.
Proof.
  intros Hlo Hy'. destruct (decide (r' = r)) as [->|Hne]; [|rewrite (lo_regions _ _ _ _ _ _ Hlo r' Hne) in Hy'; eauto].
  destruct (lo_static _ _ _ _ _ _ Hlo) as (x0 & _ & H0 & _). eauto.
Qed.

(** An operation on one region. *)
Lemma whole_local s rx rs A r b t x s' x' L' Ar :
  whole s rx rs A -> (r, (b, t)) ∈ rs -> bd_region_mem s !! r = Some x -> local_to b t r x s s' ->
  buddy_inv b t s' r x' L' Ar -> whole s' rx rs (<[r := Ar]> A).
Proof.
  intros HW Hin Hx Hlo Hi. pose proof (wh_region _ _ _ _ HW r b t Hin) as [O1 _ O3 O4 O5].
  destruct (lo_scalars _ _ _ _ _ _ Hlo) as (S1 & S2 & _). constructor.
  - rewrite S1. eapply linked_same; [|apply HW]. intros r' Hr'. unfold same_links. destruct (decide (r' = r)) as [->|Hne].
    + rewrite Hx, (rr_region _ _ _ _ _ _ (bi_rep _ _ _ _ _ _ _ Hi)). by destruct (local_header _ _ _ _ _ _ _ Hlo Hx (rr_region _ _ _ _ _ _ (bi_rep _ _ _ _ _ _ _ Hi))).
    + rewrite (lo_regions _ _ _ _ _ _ Hlo r' Hne). by case_match.
  - apply HW.
  - intros r' b' t' Hin'. destruct (decide (r' = r)) as [->|Hne].
    + destruct (whole_unique rs r b t b' t' (wh_nodup _ _ _ _ HW) Hin Hin') as [<- <-]. rewrite fn_lookup_insert. constructor; try done; [eauto|].
      intros y w Hy. rewrite (own_word_static t x y w); [by apply O4|]. by eapply local_bitmaps.
    + rewrite fn_lookup_insert_ne by done. pose proof (wh_region _ _ _ _ HW r' b' t' Hin') as [P1 (y & Ly & Py) P3 P4 P5].
      destruct (wh_apart _ _ _ _ HW r b t r' b' t' Hin Hin' ltac:(done)) as [Hb Hw]. pose proof (rr_region _ _ _ _ _ _ (bi_rep _ _ _ _ _ _ _ Py)) as Hy.
      pose proof (lo_regions _ _ _ _ _ _ Hlo r' Hne) as Hm. constructor; try done; [|intros y' w; rewrite Hm; apply P4].
      exists y, Ly. eapply buddy_inv_frame; [done| | |exact Py].
      * intros a Ha. apply (lo_blocks _ _ _ _ _ _ Hlo). intros Ha'. by apply (Hb a).
      * intros w Hw'. apply (lo_words _ _ _ _ _ _ Hlo). intros Hw''. by apply (Hw x y w).
  - intros r1 b1 t1 r2 b2 t2 H1 H2 Hne. destruct (wh_apart _ _ _ _ HW _ _ _ _ _ _ H1 H2 Hne) as [Hb Hw]. split; [done|].
    intros y1 y2 w Hy1 Hy2. destruct (local_known _ _ _ _ _ _ _ _ Hlo Hy1) as [z1 Hz1]. destruct (local_known _ _ _ _ _ _ _ _ Hlo Hy2) as [z2 Hz2].
    rewrite (own_word_static t1 z1 y1 w), (own_word_static t2 z2 y2 w) by (by eapply local_bitmaps). by apply Hw.
  - intros r' Hr'. rewrite fn_lookup_insert_ne; [by apply HW|]. intros <-. by apply Hr', (whole_in rs r b t).
  - apply HW.
  - intros w Hw. destruct (decide (bd_words s' !! w = bd_words s !! w)) as [->|Hne]; [by apply HW|]. exfalso. apply Hne, (lo_words _ _ _ _ _ _ Hlo). intros Ho. by apply Hw, (O4 x w).
  - rewrite S2. apply HW.
Qed.

(** A new region at the head of the list. *)
Lemma whole_added s rx rs A node s' rx' b t x L :
  whole s rx rs A -> region_added_at s rx node s' rx' b t x L -> whole s' rx' ((bd_regions s', (b, t)) :: rs) A.
Proof.
  intros HW [R1 R1' R2 R3 [R4 R4'] R5 R6 R7 R8 R9 R10 R11 R12 R13 R14]. set (r0 := bd_regions s') in *.
  pose proof (rr_region _ _ _ _ _ _ (bi_rep _ _ _ _ _ _ _ R3)) as Hx.
  assert (Hold : forall r b1 t1, (r, (b1, t1)) ∈ rs -> r <> r0).
  { intros r b1 t1 Hin ->. destruct (R11 r0 (or_intror eq_refl)) as [Hn _]. apply Hn, (ro_node _ _ _ _ _ _ (wh_region _ _ _ _ HW _ _ _ Hin)). }
  assert (Hr0 : r0 ∉ rs.*1). { intros ((r & b1 & t1) & -> & Hin)%list_elem_of_fmap. by eapply Hold. }
  assert (Hnew : forall r b1 t1, (r, (b1, t1)) ∈ rs -> apart s' r0 b t r b1 t1).
  { intros r b1 t1 Hin. pose proof (wh_region _ _ _ _ HW _ _ _ Hin) as [P1 _ P3 P4 P5]. split.
    - intros y Hy Hy'. apply (R6 y Hy). by apply P3.
    - intros x1 x2 w Hx1 Hx2 Hw1 Hw2. rewrite Hx in Hx1. injection Hx1 as <-. rewrite R8 in Hx2 by (by eapply Hold). destruct (R11 w (or_introl Hw1)) as [Hn _]. by apply Hn, (P4 x2 w). }
  constructor.
  - simpl. split; [done|]. split; [done|]. exists x. split; [done|]. rewrite R4. eapply linked_same; [|apply HW].
    intros r Hr. unfold same_links. rewrite R8; [by case_match|]. by intros ->.
  - simpl. apply NoDup_cons. split; [done|apply HW].
  - intros r b1 t1 [He|Hin]%elem_of_cons.
    + simplify_eq. rewrite (wh_none _ _ _ _ HW r0 Hr0). constructor; [done|eauto| |intros y w Hy Hw; rewrite Hx in Hy; simplify_eq; apply R11; by left|apply R11; by right].
      intros a Ha. split; [by apply R12; right|]. destruct R1 as (? & ? & ? & _). rewrite R7 by (change MAX_ADDR with (2 ^ 56); lia). by destruct ((b <=? a) && (a <? b + t)) eqn:?; [|lia].
    + pose proof (wh_region _ _ _ _ HW _ _ _ Hin) as [P1 (y & Ly & Py) P3 P4 P5]. constructor; [done| | | |by apply R12; left].
      * exists y, Ly. eapply buddy_inv_frame; [by apply R8, (Hold r b1 t1)| | |exact Py].
        -- intros a Ha. apply R9. intros Ha'. by apply (R6 a Ha'), P3.
        -- intros w Hw. apply R10. by apply (P4 y w); [apply Py|].
      * intros a Ha. destruct (P3 a Ha) as [Hm Ho]. split; [by apply R12; left|]. destruct P1 as [(? & ? & ? & _) _]. rewrite R7, Ho by (change MAX_ADDR with (2 ^ 56); lia). by case_match.
      * intros y' w Hy' Hw. rewrite R8 in Hy' by (by eapply Hold). apply R12. left. by apply (P4 y' w).
  - intros r1 b1 t1 r2 b2 t2 [He1|H1]%elem_of_cons [He2|H2]%elem_of_cons Hne; simplify_eq; [by apply Hnew| |].
    + destruct (Hnew _ _ _ H1) as [Hb Hw]. split; [intros y ? ?; by apply (Hb y)|]. intros y1 y2 w ? ? ? ?. by apply (Hw y2 y1 w).
    + destruct (wh_apart _ _ _ _ HW _ _ _ _ _ _ H1 H2 Hne) as [Hb Hw]. split; [done|]. intros y1 y2 w. rewrite !R8 by (by eapply Hold). apply Hw.
  - intros r Hr. apply (wh_none _ _ _ _ HW). intros Hin. apply Hr. simpl. by right.
  - done.
  - done.
  - destruct R14 as [-> _]. apply HW.
Qed.

Lemma whole_not_added s rx rs A s' rx' : whole s rx rs A -> region_not_added s rx s' rx' -> whole s' rx' rs A.
Proof.
  intros [W1 W2 W3 W4 W5 W6 W7 W8] (E1 & E2 & E3 & E4 & Hwf & Ho & Hm & Hg). constructor; try done.
  - rewrite E1. eapply linked_same; [|exact W1]. intros r _. unfold same_links. rewrite E2. by case_match.
  - intros r b t Hin. destruct (W3 r b t Hin) as [P1 (y & Ly & Py) P3 P4 P5]. constructor; [done| | | |by apply Hm].
    + exists y, Ly. eapply buddy_inv_frame; [by rewrite E2|by rewrite E3|by rewrite E4|exact Py].
    + intros a Ha. rewrite Ho. destruct (P3 a Ha). split; [by apply Hm|done].
    + intros y' w. rewrite E2. intros ? ?. by eapply Hm, P4.
  - intros r b t r' b' t' H1 H2 Hne. destruct (W4 _ _ _ _ _ _ H1 H2 Hne) as [Hb Hw]. split; [done|]. by rewrite E2.
  - intros w Hw. rewrite E4. apply W7. intros Hx. by apply Hw, Hm.
  - by rewrite Hg.
Qed.

(** ** Allocation *)

(** What an allocation of order [req] from the regions [rs] gives. *)
Definition alloc_done A (req : Z) (res : option (Z * Z * Z * Z)) s' rx' rs' : Prop :=
  match res with
  | Some (a, o, _, r) => o = req /\ (exists b t, (r, (b, t)) ∈ rs' /\ valid b t req a) /\ (req, a) ∉ A r /\
      whole s' rx' rs' (<[r := {[(req, a)]} ∪ A r]> A)
  | None => whole s' rx' rs' A
  end.

Lemma alloc_loop_whole s rx rs A req node fuel : forall h rs',
  whole s rx rs A -> 22 <= req <= 26 -> linked s h rs' -> (forall p, p ∈ rs' -> p ∈ rs) -> (length rs' < fuel)%nat ->
  exists res s', alloc_from_node_loop fuel s h req node = Ret (res, s') /\ alloc_done A req res s' rx rs /\ (res = None -> s' = s).
Proof.
  induction fuel as [|fuel IH]; intros h rs' HW Hreq Hl Hsub Hf; [lia|]. cbn [alloc_from_node_loop].
  destruct rs' as [|[r [b t]] rs']; cbn [linked] in Hl.
  - subst h. rewrite Z.eqb_refl. by exists None, s.
  - destruct Hl as (-> & Hn & x & Hx & Hl). destruct (Z.eqb_spec r null) as [|_]; [done|]. rewrite (get_region_ok _ _ _ Hx). cbn [mbind outcome_bind].
    assert (Hnext : exists res s', alloc_from_node_loop fuel s (r_next x) req node = Ret (res, s') /\ alloc_done A req res s' rx rs /\ (res = None -> s' = s)).
    { apply (IH _ rs'); try done; [|simpl in Hf; lia]. intros p Hp. apply Hsub. by right. }
    destruct (r_node_id x =? node); [|exact Hnext]. pose proof (Hsub (r, (b, t)) ltac:(by left)) as Hin. destruct (wh_region _ _ _ _ HW r b t Hin) as [[Hsp _] (y & L & Hi) _ _ _].
    pose proof (rr_region _ _ _ _ _ _ (bi_rep _ _ _ _ _ _ _ Hi)) as Hy. assert (y = x) as -> by congruence.
    destruct (alloc_from_region_ok b t Hsp s r x L (A r) req Hi ltac:(lia)) as [(o & a & blk & s' & x' & L' & -> & _ & _ & _ & _ & Hi' & Hna & Hlo)|[-> _]]; cbn [mbind outcome_bind]; [|exact Hnext].
    exists (Some (a, req, fb_trim_state blk, r)), s'. split; [done|]. split; [|done]. split; [done|]. split; [|split; [done|by eapply whole_local]].
    exists b, t. split; [done|]. by eapply (inv_valid _ _ _ _ _ _ _ _ _ Hi'), elem_of_union_l, elem_of_singleton.
Qed.

Lemma alloc_from_node_whole s rx rs A req node :
  whole s rx rs A -> 22 <= req <= 26 ->
  exists res s', alloc_from_node s req node = Ret (res, s') /\ alloc_done A req res s' rx rs /\ (res = None -> s' = s).
Proof.
  intros HW Hreq. unfold alloc_from_node. pose proof (linked_fuel _ _ _ (wh_linked _ _ _ _ HW) (wh_nodup _ _ _ _ HW)). apply (alloc_loop_whole _ _ _ _ _ _ _ _ rs); try done; [apply HW|lia].
Qed.

Lemma numa_loop_whole s rx rs A req node nr n : forall i,
  whole s rx rs A -> 22 <= req <= 26 ->
  exists res s', numa_loop n s i node nr req = Ret (res, s') /\ alloc_done A req res s' rx rs /\ (res = None -> s' = s).
Proof.
  induction n as [|n IH]; intros i HW Hreq; cbn [numa_loop]; [by exists None, s|].
  destruct (alloc_from_node_whole s rx rs A req (wrap 16 ((i + node) mod nr)) HW Hreq) as (res & s' & -> & Hd & Hs). cbn [mbind outcome_bind].
  destruct res as [p|]; [by exists (Some p), s'|]. rewrite (Hs eq_refl). by apply IH.
Qed.

(** The order of a request: the smallest block that holds it, at least 4 MiB. *)
Lemma requested_order_ok size :
  is_u 64 size -> let o := Z.max (order_for_size size) BIG_BUDDY_MIN_ORDER in 22 <= o /\ (o <= 26 -> size <= 2 ^ o).
Proof.
  intros Hs o. unfold is_u in Hs. split; [unfold o, BIG_BUDDY_MIN_ORDER; lia|]. intros Ho. unfold o, order_for_size, next_power_of_two in *. change BIG_BUDDY_MIN_ORDER with 22 in *.
  destruct (pow2_ceil_spec (Z.max size 1) ltac:(lia)) as (j & Hj & Hp & Hle & _). rewrite Hp in *. destruct (Z.ltb_spec j 64) as [Hlt|Hge].
  - rewrite wrap_small in * by (split; [apply Z.pow_nonneg; lia|apply Z.pow_lt_mono_r; lia]). rewrite trailing_zeros_pow2 in * by done.
    pose proof (Z.pow_le_mono_r 2 j (Z.max j 22) ltac:(lia) ltac:(lia)). lia.
  - exfalso. assert (Hz : wrap 64 (2 ^ j) = 0). { unfold wrap. apply Z.mod_divide; [done|]. exists (2 ^ (j - 64)). rewrite <- Z.pow_add_r by lia. f_equal. lia. }
    rewrite Hz in Ho. change (trailing_zeros 0) with 64 in Ho. lia.
Qed.

Lemma expand_size_ok s rx rs A req : whole s rx rs A -> 22 <= req -> is_u 64 (wshl 1 (Z.min (Z.max (bd_grow_order s) req) BIG_BUDDY_MAX_ORDER)).
Proof. intros _ _. apply (wrap_range 64). lia. Qed.

(** The regions grow where nothing was mapped, and nothing is unmapped or
    disowned. *)
Record buddy_grown rx rs rx' rs' : Prop := {
  bg_suffix : suffix rs rs';
  bg_mapped a : mapped (kern rx) a -> mapped (kern rx') a;
  bg_owned a : 0 <= a < MAX_ADDR -> is_owned rx a = Ret true -> is_owned rx' a = Ret true;
  bg_fresh r b t : (r, (b, t)) ∈ rs' -> (r, (b, t)) ∈ rs \/ forall y, b <= y < b + t -> ~ mapped (kern rx) y;
}.

Lemma buddy_grown_refl rx rs : buddy_grown rx rs rx rs.
Proof. constructor; auto. Qed.

Lemma add_region_whole (env : BuddyEnv) s rx rs A size node ini numa :
  whole s rx rs A -> is_u 64 size ->
  match add_region env s rx size node ini numa with
  | Ret (_, s', rx') => exists rs', buddy_grown rx rs rx' rs' /\ whole s' rx' rs' A
  | Fatal e => e = VAIinitFailed
  | Stuck => False
  end.
Proof.
  intros HW Hs. pose proof (add_region_ok env s rx size node ini numa Hs (wh_radix _ _ _ _ HW) (wh_clean _ _ _ _ HW)) as Ha.
  destruct (add_region env s rx size node ini numa) as [[[[] s'] rx']| |]; [| |done..].
  - destruct Ha as (b & x & L & Ha). eexists. split; [|by eapply whole_added]. constructor.
    + by apply suffix_cons_r.
    + intros a Hm. apply (ra_mapped _ _ _ _ _ _ _ _ _ Ha). by left.
    + intros a Hr Ho. rewrite (ra_owned _ _ _ _ _ _ _ _ _ Ha a Hr), Ho. by case_match.
    + intros r b1 t1 [He|Hin]%elem_of_cons; [right|by left]. simplify_eq. apply (ra_fresh _ _ _ _ _ _ _ _ _ Ha).
  - exists rs. split; [|by eapply whole_not_added]. destruct Ha as (_ & _ & _ & _ & _ & Ho & Hm & _). constructor; [done|done| |by left]. intros a _. by rewrite Ho.
Qed.

(** The result of an allocation, with its regions and its order. *)
Local Ltac give rs req := exists rs, req; split; [by auto using buddy_grown_refl|]; split; [by auto|done].

Lemma alloc_whole (env : BuddyEnv) s rx rs A size node nr numa :
  whole s rx rs A -> is_u 64 size ->
  match Buddy.alloc env s rx size node nr numa with
  | Ret (res, s', rx') => exists rs' req, buddy_grown rx rs rx' rs' /\
      (res = None \/ size <= 2 ^ req) /\ alloc_done A req res s' rx' rs'
  | Fatal e => e = VAIinitFailed
  | Stuck => False
  end.
Proof.
  intros HW Hs. unfold Buddy.alloc. destruct (requested_order_ok size Hs) as [Hlo Hfit]. set (req := Z.max _ _) in *.
  change BIG_BUDDY_MAX_ORDER with 26. destruct (Z.ltb_spec 26 req) as [Hgt|Hle]; [by give rs req|].
  destruct (alloc_from_node_whole s rx rs A req node HW ltac:(lia)) as (res & s1 & -> & Hd & Hsame). cbn [mbind outcome_bind].
  destruct res as [[[[a o] f] r]|]; [by give rs req|]. rewrite (Hsame eq_refl). clear s1 Hd Hsame.
  pose proof (add_region_whole env s rx rs A _ node false numa HW (expand_size_ok s rx rs A req HW Hlo)) as Ha. change BIG_BUDDY_MAX_ORDER with 26 in Ha.
  destruct (add_region env s rx _ node false numa) as [[[grown s1] rx1]| |]; cbn [mbind outcome_bind]; [|done..]. destruct Ha as (rs1 & Hgr & HW1).
  assert (Hretry : exists res s2, (if grown then alloc_from_node s1 req node else Ret (None, s1)) = Ret (res, s2) /\ alloc_done A req res s2 rx1 rs1 /\ (res = None -> s2 = s1)).
  { destruct grown; [by apply alloc_from_node_whole; [|lia]|by exists None, s1]. }
  destruct Hretry as (res & s2 & -> & Hd & Hsame). cbn [mbind outcome_bind]. destruct res as [[[[a o] f] r]|]; [by give rs1 req|]. rewrite (Hsame eq_refl).
  destruct numa; [|by give rs1 req].
  destruct (numa_loop_whole s1 rx1 rs1 A req node nr (Z.to_nat nr) 0 HW1 ltac:(lia)) as (res & s3 & -> & Hd3 & _). cbn [mbind outcome_bind]. by give rs1 req.
Qed.

(** ** Release and growth in place *)

Lemma free_whole s rx rs A stamp r o a :
  whole s rx rs A -> (o, a) ∈ A r -> exists s', Buddy.free s stamp r a o = Ret s' /\ whole s' rx rs (<[r := A r ∖ {[(o, a)]}]> A).
Proof.
  intros HW Ha. assert (Hr : r ∈ rs.*1). { destruct (decide (r ∈ rs.*1)) as [|Hn]; [done|]. rewrite (wh_none _ _ _ _ HW r Hn) in Ha. set_solver. }
  pose proof (linked_ne _ _ _ _ (wh_linked _ _ _ _ HW) Hr) as Hn. apply list_elem_of_fmap in Hr as ((r' & b & t) & -> & Hin). simpl in *.
  destruct (wh_region _ _ _ _ HW r' b t Hin) as [[Hsp _] (x & L & Hi) _ _ _].
  destruct (free_ok b t Hsp s stamp r' x L (A r') o a Hi Hn Ha) as (s' & x' & L' & Hrun & Hi' & Hlo). exists s'. split; [done|]. eapply whole_local; [done..| |done|done]. apply Hi.
Qed.

Lemma grow_whole s rx rs A r o a :
  whole s rx rs A -> (o, a) ∈ A r ->
  (exists s', Buddy.try_grow_inplace s r a o = Ret (Some (a, o + 1), s') /\ whole s' rx rs (<[r := {[(o + 1, a)]} ∪ A r ∖ {[(o, a)]}]> A)) \/
  Buddy.try_grow_inplace s r a o = Ret (None, s).
Proof.
  intros HW Ha. assert (Hr : r ∈ rs.*1). { destruct (decide (r ∈ rs.*1)) as [|Hn]; [done|]. rewrite (wh_none _ _ _ _ HW r Hn) in Ha. set_solver. }
  pose proof (linked_ne _ _ _ _ (wh_linked _ _ _ _ HW) Hr) as Hn. apply list_elem_of_fmap in Hr as ((r' & b & t) & -> & Hin). simpl in *.
  destruct (wh_region _ _ _ _ HW r' b t Hin) as [[Hsp _] (x & L & Hi) _ _ _].
  destruct (try_grow_inplace_ok b t Hsp s r' x L (A r') o a Hi Hn Ha) as [(s' & x' & L' & Hrun & _ & _ & _ & Hi' & Hlo)|[Hrun _]]; [left|by right].
  exists s'. split; [done|]. eapply whole_local; [done..| |done|done]. apply Hi.
Qed.

(** What is handed out lies in mapped, owned memory and does not overlap. *)
Lemma whole_block s rx rs A r o a :
  whole s rx rs A -> (o, a) ∈ A r -> exists b t, (r, (b, t)) ∈ rs /\ region_space b t /\ valid b t o a.
Proof.
  intros HW Ha. assert (Hr : r ∈ rs.*1). { destruct (decide (r ∈ rs.*1)) as [|Hn]; [done|]. rewrite (wh_none _ _ _ _ HW r Hn) in Ha. set_solver. }
  apply list_elem_of_fmap in Hr as ((r' & b & t) & -> & Hin). simpl in *. destruct (wh_region _ _ _ _ HW r' b t Hin) as [[Hsp _] (x & L & Hi) _ _ _].
  exists b, t. split; [done|]. split; [done|]. by eapply inv_valid.
Qed.

Lemma whole_bytes s rx rs A r o a y :
  whole s rx rs A -> (o, a) ∈ A r -> a <= y < a + 2 ^ o -> 0 < y < 2 ^ 47 /\ mapped (kern rx) y /\ is_owned rx y = Ret true.
Proof.
  intros HW Ha Hy. destruct (whole_block _ _ _ _ _ _ _ HW Ha) as (b & t & Hin & (H1 & H2 & H3 & _) & (_ & Hlo & Hhi & _)).
  destruct (ro_bytes _ _ _ _ _ _ (wh_region _ _ _ _ HW r b t Hin) y ltac:(lia)) as [Hm Ho]. split; [lia|done].
Qed.

Lemma whole_disjoint s rx rs A r o a r' o' a' y :
  whole s rx rs A -> (o, a) ∈ A r -> (o', a') ∈ A r' -> a <= y < a + 2 ^ o -> a' <= y < a' + 2 ^ o' -> r = r' /\ o = o' /\ a = a'.
Proof.
  intros HW Ha Ha' Hy Hy'. destruct (whole_block _ _ _ _ _ _ _ HW Ha) as (b & t & Hin & _ & (_ & Hlo & Hhi & _)).
  destruct (whole_block _ _ _ _ _ _ _ HW Ha') as (b' & t' & Hin' & _ & (_ & Hlo' & Hhi' & _)). destruct (decide (r = r')) as [<-|Hne].
  - split; [done|]. destruct (wh_region _ _ _ _ HW r b t Hin) as [_ (x & L & Hi) _ _ _]. apply (ti_disj _ _ _ (bi_tiling _ _ _ _ _ _ _ Hi)); [by right..|lia|lia].
  - exfalso. destruct (wh_apart _ _ _ _ HW _ _ _ _ _ _ Hin Hin' Hne) as [Hb _]. apply (Hb y); lia.
Qed.

(** ** Trimming *)

Definition links (b : FreeBlock) : Z * Z := (fb_next b, fb_prev b).

(** Blocks get a new age or state, and nothing else changes. *)
Record relabel s s' : Prop := {
  rl_scalars : bd_regions s' = bd_regions s /\ bd_grow_order s' = bd_grow_order s /\ bd_thp s' = bd_thp s /\ bd_init s' = bd_init s /\ bd_cached_va s' = bd_cached_va s;
  rl_mem : bd_region_mem s' = bd_region_mem s;
  rl_words : bd_words s' = bd_words s;
  rl_blocks a : links <$> bd_blocks s' !! a = links <$> bd_blocks s !! a;
}.

#[export] Instance relabel_preorder : PreOrder relabel.
Proof.
  split; [by constructor|]. intros s1 s2 s3 [(A1 & A2 & A3 & A4 & A5) M1 W1 B1] [(C1 & C2 & C3 & C4 & C5) M2 W2 B2].
  constructor; [split_and!; congruence|congruence|congruence|]. intros a. by rewrite B2.
Qed.

Lemma seg_relabel (m m' : gmap Z FreeBlock) p h l q : (forall a, links <$> m' !! a = links <$> m !! a) -> seg m p h l q -> seg m' p h l q.
Proof.
  intros Hm. revert p h. induction l as [|a l IH]; intros p h; simpl; [done|]. intros (-> & b & Hb & Hp & Hs). split; [done|].
  specialize (Hm a). rewrite Hb in Hm. destruct (m' !! a) as [b'|]; [|done]. injection Hm as H1 H2. exists b'. simpl in *. rewrite H1, H2. auto.
Qed.

Lemma relabel_inv b t s s' r x L Ar : relabel s s' -> buddy_inv b t s r x L Ar -> buddy_inv b t s' r x L Ar.
Proof.
  intros [_ Hm Hw Hb] [Hrep Hti Hap Hco]. constructor; try done. destruct Hrep as [R1 R2 R3 R4 R5 R6 R7 R8 R9 R10 R11 R12 R13 R14]. constructor; try done.
  - by rewrite Hm.
  - intros o Ho. destruct (R5 o Ho) as (h & Hh & Hs). exists h. split; [done|]. by eapply seg_relabel.
  - intros o a p Hv Hp. unfold load_word. rewrite Hw. by apply R11.
Qed.

Lemma whole_relabel s s' rx rs A k :
  whole s rx rs A -> relabel s s' -> (forall x, mapped (kern rx) x -> mapped k x) -> whole s' (mkRadixTree (l0 rx) (mem rx) k) rs A.
Proof.
  intros [W1 W2 W3 W4 W5 W6 W7 W8] HR Hk. pose proof HR as [(E1 & E2 & _) Hm Hw Hb]. constructor; try done.
  - rewrite E1. eapply linked_same; [|exact W1]. intros r _. unfold same_links. rewrite Hm. by case_match.
  - intros r b t Hin. destruct (W3 r b t Hin) as [P1 (y & Ly & Py) P3 P4 P5]. constructor; [done| | | |by apply Hk].
    + exists y, Ly. by eapply relabel_inv.
    + intros a Ha. destruct (P3 a Ha). split; [by apply Hk|done].
    + intros y' w. rewrite Hm. intros ? ?. by eapply Hk, P4.
  - intros r b t r' b' t' H1 H2 Hne. destruct (W4 _ _ _ _ _ _ H1 H2 Hne) as [Hbb Hww]. split; [done|]. by rewrite Hm.
  - by apply radix_wf_mono.
  - intros w Hn. rewrite Hw. apply W7. intros Hx. by apply Hn, Hk.
  - by rewrite E2.
Qed.

(** A free block shares no byte with a block that is handed out. *)
Lemma free_apart s rx rs A r b t x L o a r' o' a' y :
  whole s rx rs A -> (r, (b, t)) ∈ rs -> buddy_inv b t s r x L (A r) -> a ∈ L o -> (o', a') ∈ A r' ->
  a <= y < a + 2 ^ o -> a' <= y < a' + 2 ^ o' -> False.
Proof.
  intros HW Hin Hi Ha Ha' Hy Hy'. pose proof (rr_valid _ _ _ _ _ _ (bi_rep _ _ _ _ _ _ _ Hi) _ _ Ha) as (_ & Hlo & Hhi & _).
  destruct (whole_block _ _ _ _ _ _ _ HW Ha') as (b' & t' & Hin' & _ & (_ & Hlo' & Hhi' & _)). destruct (decide (r = r')) as [<-|Hne].
  - eapply (inv_overlap _ _ _ _ _ _ _ _ _ _ _ Hi Ha' Ha); lia.
  - destruct (wh_apart _ _ _ _ HW _ _ _ _ _ _ Hin Hin' Hne) as [Hb _]. apply (Hb y); lia.
Qed.

Section Trim.
Context (s0 : Buddy) (rx : RadixTree K) (rs : regions) (A : Z -> gset (Z * Z)) (HW : whole s0 rx rs A).
Context (R : relation K) `{!PreOrder R}.
Context (HR : forall start len k, (4096 | start) -> (4096 | len) ->
  (forall r o a y, (o, a) ∈ A r -> a <= y < a + 2 ^ o -> ~ start <= y < start + len) ->
  (exists r b t, (r, (b, t)) ∈ rs /\ b <= start /\ start + len <= b + t) -> R k (madvise start len LinuxDontNeed k).2).

Lemma trim_block_ok s k acc r b t x L o a stamp avg requested force :
  relabel s0 s -> (r, (b, t)) ∈ rs -> buddy_inv b t s0 r x L (A r) -> a ∈ L o ->
  exists stop s' k' acc', trim_block s k acc a (wshl 1 o) stamp avg requested force = Ret (stop, s', k', acc') /\ relabel s s' /\ R k k'.
Proof using HW HR PreOrder0.
  intros Hre Hin Hi Ha. pose proof (rr_valid _ _ _ _ _ _ (bi_rep _ _ _ _ _ _ _ Hi) _ _ Ha) as Hv. pose proof Hv as (Ho & Hlo & Hhi & [q Hq]).
  destruct (wh_region _ _ _ _ HW r b t Hin) as [[(Hb0 & Ht0 & He & _) [qb Hqb]] _ _ _ _]. rewrite wshl_pow2 by lia. pose proof (Z.pow_le_mono_r 2 22 o ltac:(lia) ltac:(lia)) as Hp.
  destruct (rr_list _ _ _ _ _ _ (bi_rep _ _ _ _ _ _ _ Hi) o Ho) as (h & _ & Hs). destruct (seg_elem _ _ _ _ _ _ Hs Ha) as [blk0 Hblk0].
  pose proof (rl_blocks _ _ Hre a) as Hl. rewrite Hblk0 in Hl. destruct (bd_blocks s !! a) as [blk|] eqn:Hblk; [|done].
  unfold trim_block. rewrite (get_block_ok _ _ _ Hblk). cbn [mbind outcome_bind]. destruct (_ || _) eqn:Hst; [eexists _, s, k, _; split; [done|]; by split|].
  destruct (_ && _) eqn:Hc; [|cbv zeta; eexists _, s, k, _; split; [done|]; by split].
  assert (H4 : (4096 | 2 ^ o)) by (exists (2 ^ (o - 12)); change 4096 with (2 ^ 12); rewrite <- Z.pow_add_r by lia; f_equal; lia).
  assert (Hk : R k (madvise (wadd a PAGE_SIZE) (2 ^ o - PAGE_SIZE) LinuxDontNeed k).2).
  { change PAGE_SIZE with 4096. rewrite wadd_small by lia. apply HR.
    - destruct H4 as [u Hu]. exists (qb + q * u + 1). rewrite Hu in Hq. lia.
    - destruct H4 as [u Hu]. exists (u - 1). lia.
    - intros r' o' a' y Ha' Hy Hy'. eapply (free_apart s0 rx rs A r b t x L o a r' o' a' y); [done..|lia|lia].
    - exists r, b, t. split; [done|lia]. }
  destruct (madvise _ _ _ k) as [ok k'] eqn:Hmad. simpl in Hk. cbv zeta. eexists _, _, _, _. split; [done|]. split; [|done].
  constructor; try done. intros c. simpl. destruct (decide (c = a)) as [->|Hne]; [by rewrite lookup_insert_eq, Hblk|by rewrite lookup_insert_ne].
Qed.

Lemma trim_list_ok fuel r b t x L o stamp avg requested force : forall s k acc p h l,
  relabel s0 s -> (r, (b, t)) ∈ rs -> buddy_inv b t s0 r x L (A r) -> (forall a, a ∈ l -> a ∈ L o) -> seg (bd_blocks s) p h l 0 -> (length l < fuel)%nat ->
  exists stop s' k' acc', trim_list fuel s k acc h (wshl 1 o) stamp avg requested force = Ret (stop, s', k', acc') /\ relabel s s' /\ R k k'.
Proof using HW HR PreOrder0.
  induction fuel as [|fuel IH]; intros s k acc p h l Hre Hin Hi Hsub Hs Hf; [lia|]. cbn [trim_list]. destruct l as [|a l]; cbn [seg] in Hs.
  - subst h. change (0 =? null) with true. cbv iota. eexists _, s, k, _. split; [done|]. by split.
  - destruct Hs as (-> & blk & Hblk & _ & Hs). pose proof (Hsub a ltac:(by left)) as Ha. destruct (wh_region _ _ _ _ HW r b t Hin) as [[Hsp _] _ _ _ _].
    pose proof (rr_valid _ _ _ _ _ _ (bi_rep _ _ _ _ _ _ _ Hi) _ _ Ha) as Hv. destruct (valid_bound b t Hsp _ _ Hv) as [Hav _].
    destruct (Z.eqb_spec a null) as [->|_]; [change null with 0 in Hav; lia|]. rewrite (get_block_ok _ _ _ Hblk). cbn [mbind outcome_bind].
    destruct (trim_block_ok s k acc r b t x L o a stamp avg requested force Hre Hin Hi Ha) as (stop & s1 & k1 & acc1 & -> & Hre1 & Hk1). cbn [mbind outcome_bind].
    destruct stop; [eexists _, s1, k1, _; by split|].
    destruct (IH s1 k1 acc1 a (fb_next blk) l) as (stop & s2 & k2 & acc2 & Hrun & Hre2 & Hk2); [by etrans|done|done| | | |].
    + intros c Hc. apply Hsub. by right.
    + eapply seg_relabel; [apply Hre1|exact Hs].
    + simpl in Hf. lia.
    + exists stop, s2, k2, acc2. split; [done|]. split; by etrans.
Qed.

(** The fuel of the walk over a free list. *)
Lemma seg_fuel s h (l : list Z) : seg (bd_blocks s) 0 h l 0 -> NoDup l -> (length l < S (size (bd_blocks s)))%nat.
Proof using.
  clear. intros Hs Hnd. rewrite <- size_dom, <- (size_list_to_set (C := gset Z) l Hnd). apply le_n_S, subseteq_size. intros a Ha%elem_of_list_to_set. apply elem_of_dom. by eapply seg_elem.
Qed.

Lemma trim_orders_ok fuel r b t x L stamp avg requested force : forall s k acc o,
  relabel s0 s -> (r, (b, t)) ∈ rs -> buddy_inv b t s0 r x L (A r) -> 22 <= o <= 27 -> (Z.to_nat (27 - o) < fuel)%nat ->
  exists stop s' k' acc', trim_orders fuel s k acc r o stamp avg requested force = Ret (stop, s', k', acc') /\ relabel s s' /\ R k k'.
Proof using HW HR PreOrder0.
  induction fuel as [|fuel IH]; intros s k acc o Hre Hin Hi Ho Hf; [lia|]. cbn [trim_orders]. pose proof (relabel_inv _ _ _ _ _ _ _ _ Hre Hi) as Hi'. pose proof (bi_rep _ _ _ _ _ _ _ Hi') as Hrep.
  rewrite (get_region_ok _ _ _ (rr_region _ _ _ _ _ _ Hrep)). cbn [mbind outcome_bind]. rewrite (rr_order _ _ _ _ _ _ Hrep).
  destruct (Z.leb_spec o 26) as [Hle|Hgt]; [|eexists _, s, k, _; by split]. rewrite (get_head_ok b t s r x L o Hrep) by lia. cbn [mbind outcome_bind].
  destruct (rr_list _ _ _ _ _ _ Hrep o ltac:(lia)) as (h & _ & Hs). rewrite <- (seg_head _ _ _ _ _ Hs).
  destruct (trim_list_ok (S (size (bd_blocks s))) r b t x L o stamp avg requested force s k acc 0 h (L o) Hre Hin Hi ltac:(done) Hs) as (stop & s1 & k1 & acc1 & -> & Hre1 & Hk1);
    [eapply seg_fuel; [done|]; apply Hrep|]. cbn [mbind outcome_bind]. destruct stop; [eexists _, s1, k1, _; by split|].
  destruct (IH s1 k1 acc1 (o + 1)) as (stop & s2 & k2 & acc2 & Hrun & Hre2 & Hk2); [by etrans|done|done|lia|lia|]. exists stop, s2, k2, acc2. split; [done|]. split; by etrans.
Qed.

Lemma trim_regions_ok fuel stamp avg requested force : forall s k acc h rs',
  relabel s0 s -> linked s h rs' -> (forall p, p ∈ rs' -> p ∈ rs) -> (length rs' < fuel)%nat ->
  exists s' k' acc', trim_regions fuel s k acc h stamp avg requested force = Ret (s', k', acc') /\ relabel s s' /\ R k k'.
Proof using HW HR PreOrder0.
  induction fuel as [|fuel IH]; intros s k acc h rs' Hre Hl Hsub Hf; [lia|]. cbn [trim_regions]. destruct rs' as [|[r [b t]] rs']; cbn [linked] in Hl.
  - subst h. rewrite Z.eqb_refl. eexists s, k, _. by split.
  - destruct Hl as (-> & Hn & x & Hx & Hl). destruct (Z.eqb_spec r null) as [|_]; [done|]. rewrite (get_region_ok _ _ _ Hx). cbn [mbind outcome_bind].
    pose proof (Hsub (r, (b, t)) ltac:(by left)) as Hin. destruct (wh_region _ _ _ _ HW r b t Hin) as [_ (y & L & Hi) _ _ _].
    destruct (trim_orders_ok (Z.to_nat (BUDDY_NUM_ORDERS + 1)) r b t y L stamp avg requested force s k acc BIG_BUDDY_MIN_ORDER Hre Hin Hi) as (stop & s1 & k1 & acc1 & -> & Hre1 & Hk1);
      [unfold BIG_BUDDY_MIN_ORDER; lia|unfold BUDDY_NUM_ORDERS, BIG_BUDDY_MAX_ORDER, BIG_BUDDY_MIN_ORDER; lia|]. cbn [mbind outcome_bind].
    destruct stop; [eexists s1, k1, _; by split|].
    destruct (IH s1 k1 acc1 (r_next x) rs') as (s2 & k2 & acc2 & Hrun & Hre2 & Hk2); [by etrans| | |simpl in Hf; lia|].
    + eapply linked_same; [|exact Hl]. intros r' _. unfold same_links. rewrite (rl_mem _ _ Hre1). by case_match.
    + intros p Hp. apply Hsub. by right.
    + exists s2, k2, acc2. split; [done|]. split; by etrans.
Qed.

Lemma trim_whole (env : BuddyEnv) blend avg requested force :
  exists n average s' k', trim_inner env blend s0 (kern rx) avg requested force = Ret (n, average, s', k') /\ relabel s0 s' /\ R (kern rx) k'.
Proof using HW HR PreOrder0.
  unfold trim_inner. pose proof (linked_fuel _ _ _ (wh_linked _ _ _ _ HW) (wh_nodup _ _ _ _ HW)).
  destruct (trim_regions_ok (S (size (bd_region_mem s0))) (current_stamp env) avg requested force s0 (kern rx) (mkTrimAcc 0 0 0) (bd_regions s0) rs) as (s' & k' & acc' & -> & Hre & Hk);
    [done|apply HW|done|lia|]. cbn [mbind outcome_bind]. by eexists _, _, s', k'.
Qed.
End Trim.
End Whole.

(** ** The start *)

Section Start.
Context {K : Type} `{!Kernel K} `{!KernelSpec K}.
Implicit Types (s : Buddy) (rx : RadixTree K).

Lemma trailing_zeros_nonneg z : 0 <= trailing_zeros z.
Proof. unfold trailing_zeros. destruct z; [lia|apply pos_trailing_zeros_nonneg|lia]. Qed.

Lemma whole_new rx grow thp : radix_wf rx -> 0 <= grow <= 26 -> whole (mkBuddy null grow thp false 0 ∅ ∅ ∅) rx [] (fun _ => ∅).
Proof. intros Hwf Hg. constructor; try done; [apply NoDup_nil_2|by intros r b t ?%not_elem_of_nil|by intros r b t r' b' t' ?%not_elem_of_nil]. Qed.

Lemma init_whole (env : BuddyEnv) rx size thp node numa :
  radix_wf rx -> is_u 64 size ->
  match Buddy.init env BuddyAllocator_new rx size thp node numa with
  | Ret (s, rx') => exists rs, whole s rx' rs (fun _ => ∅)
  | Fatal e => e = VAIinitFailed
  | Stuck => False
  end.
Proof.
  intros Hwf Hs. unfold Buddy.init. destruct (normalize_ok size Hs) as (j & Hj & Hn & _).
  assert (Hsz : is_u 64 (normalize_region_size size)) by (rewrite Hn; split; [apply Z.pow_nonneg; lia|apply Z.pow_lt_mono_r; lia]).
  set (s0 := mkBuddy _ _ _ _ _ _ _ _). assert (HW : whole s0 rx [] (fun _ => ∅)).
  { apply whole_new; [done|]. pose proof (trailing_zeros_nonneg (next_power_of_two (Z.max (normalize_region_size size) 1))). unfold order_for_size, BIG_BUDDY_MAX_ORDER. lia. }
  pose proof (add_region_whole env s0 rx [] _ _ node true numa HW Hsz) as Ha. destruct (add_region env s0 rx _ node true numa) as [[[g s] rx']| |]; cbn [mbind outcome_bind]; [|done..].
  destruct Ha as (rs & _ & HW'). eauto.
Qed.
End Start.
