(* ===== verification/BuddyProps.v ===== *)
(** * What the buddy allocator promises as a whole

    Every sequence of allocations, releases, growths in place and trims, from the
    initialisation of the allocator on, over as many regions as it maps. *)

From stdpp Require Import functions.
From S2P Require Import Prelude Types SizeClasses DList Kernel Binder Radix RadixProofs Buddy BuddyRep BuddyProofs BuddyGrow BuddySpec BuddyWhole.

Ltac Zify.zify_post_hook ::= idtac.

(** The calls of a client, each with the clock and retry limit it meets: allocate
    on a node, release or grow a block of a region, trim. *)
Inductive BuddyOp :=
  | BAlloc (size node : Z)
  | BFree (region order addr : Z)
  | BGrow (region order addr : Z)
  | BTrim (avg_life requested : Z) (force : bool).

Definition buddy_op_ok (op : BuddyEnv * BuddyOp) : Prop := match op.2 with BAlloc size _ => is_u 64 size | _ => True end.

#[export] Instance is_u_dec w z : Decision (is_u w z).
Proof. unfold is_u. apply _. Defined.

#[export] Instance buddy_op_ok_dec op : Decision (buddy_op_ok op).
Proof. destruct op as [env []]; apply _. Defined.

(** The blocks handed out, as (region, order, address), with the size asked for. *)
Abbreviation blocks := (gmap (Z * Z * Z) Z).

Section Handed.
Implicit Types (A : Z -> gset (Z * Z)) (H : blocks).

(** The client's view agrees with the invariant, and every block is big enough. *)
Record handed H A : Prop := {
  hd_iff r o a : is_Some (H !! (r, o, a)) <-> (o, a) ∈ A r;
  hd_size r o a n : H !! (r, o, a) = Some n -> n <= 2 ^ o;
}.

Lemma handed_insert H A r o a n :
  handed H A -> n <= 2 ^ o -> handed (<[(r, o, a) := n]> H) (<[r := {[(o, a)]} ∪ A r]> A).
Proof.
  intros [H1 H2] Hn. constructor.
  - intros r' o' a'. destruct (decide (r' = r)) as [->|Hr].
    + rewrite fn_lookup_insert, elem_of_union, elem_of_singleton. destruct (decide ((o', a') = (o, a))) as [He|Hne].
      * injection He as -> ->. rewrite lookup_insert_eq. split; [by left|eauto].
      * rewrite lookup_insert_ne by congruence. rewrite H1. naive_solver.
    + rewrite fn_lookup_insert_ne, lookup_insert_ne by congruence. apply H1.
  - intros r' o' a' n'. destruct (decide ((r', o', a') = (r, o, a))) as [He|Hne].
    + injection He as -> -> ->. rewrite lookup_insert_eq. by intros [= <-].
    + rewrite lookup_insert_ne by done. apply H2.
Qed.

Lemma handed_delete H A r o a : handed H A -> handed (delete (r, o, a) H) (<[r := A r ∖ {[(o, a)]}]> A).
Proof.
  intros [H1 H2]. constructor.
  - intros r' o' a'. destruct (decide (r' = r)) as [->|Hr].
    + rewrite fn_lookup_insert, elem_of_difference, elem_of_singleton. destruct (decide ((o', a') = (o, a))) as [He|Hne].
      * injection He as -> ->. rewrite lookup_delete_eq. split; [by intros []|naive_solver].
      * rewrite lookup_delete_ne by congruence. rewrite H1. naive_solver.
    + rewrite fn_lookup_insert_ne, lookup_delete_ne by congruence. apply H1.
  - intros r' o' a' n' Hl. apply lookup_delete_Some in Hl as [_ Hl]. by eapply H2.
Qed.

Lemma handed_ext H A A' : (forall r, A r = A' r) -> handed H A -> handed H A'.
Proof. intros He [H1 H2]. constructor; [|done]. intros r o a. rewrite <- He. apply H1. Qed.

Lemma handed_grow H A r o a n :
  handed H A -> 0 <= o -> H !! (r, o, a) = Some n -> handed (<[(r, o + 1, a) := n]> (delete (r, o, a) H)) (<[r := {[(o + 1, a)]} ∪ A r ∖ {[(o, a)]}]> A).
Proof.
  intros HH Ho Hl. eapply handed_ext; [|apply handed_insert; [by apply (handed_delete H A r o a)|]].
  - intros r'. destruct (decide (r' = r)) as [->|Hne]; [by rewrite !fn_lookup_insert|by rewrite !fn_lookup_insert_ne].
  - pose proof (hd_size _ _ HH _ _ _ _ Hl). pose proof (Z.pow_le_mono_r 2 o (o + 1) ltac:(lia) ltac:(lia)). lia.
Qed.
End Handed.

Section Ops.
Context {K : Type} `{!Kernel K} (nranges : Z) (numa : bool) (blend : Z -> Z -> Z).

Definition buddy_op (st : Buddy * RadixTree K * blocks) (op : BuddyEnv * BuddyOp) : outcome (Buddy * RadixTree K * blocks) :=
  let '(s, rx, H) := st in
  match op.2 with
  | BAlloc size node =>
      '(res, s, rx) ← Buddy.alloc op.1 s rx size node nranges numa;
      Ret (s, rx, match res with Some (a, o, _, r) => <[(r, o, a) := size]> H | None => H end)
  | BFree r o a =>
      match H !! (r, o, a) with
      | Some _ => s ← Buddy.free s (current_stamp op.1) r a o; Ret (s, rx, delete (r, o, a) H)
      | None => Ret st
      end
  | BGrow r o a =>
      match H !! (r, o, a) with
      | Some n =>
          '(res, s) ← Buddy.try_grow_inplace s r a o;
          Ret (s, rx, match res with Some (a', o') => <[(r, o', a') := n]> (delete (r, o, a) H) | None => H end)
      | None => Ret st
      end
  | BTrim avg requested force =>
      '(_, _, s, k) ← trim_inner op.1 blend s (kern rx) avg requested force;
      Ret (s, mkRadixTree (l0 rx) (mem rx) k, H)
  end.

Fixpoint buddy_ops (st : Buddy * RadixTree K * blocks) (ops : list (BuddyEnv * BuddyOp)) : outcome (Buddy * RadixTree K * blocks) :=
  match ops with
  | [] => Ret st
  | op :: ops => st ← buddy_op st op; buddy_ops st ops
  end.

Context `{!KernelSpec K}.
Implicit Types (s : Buddy) (rx : RadixTree K) (rs : regions) (A : Z -> gset (Z * Z)) (H : blocks).

Definition buddy_ok s rx H : Prop := exists rs A, whole s rx rs A /\ handed H A.

(** The orders of handed-out blocks. *)
Lemma whole_order s rx rs A r o a : whole s rx rs A -> (o, a) ∈ A r -> 22 <= o <= 26.
Proof using. intros HW Ha. by destruct (whole_block _ _ _ _ _ _ _ HW Ha) as (b & t & _ & _ & Ho & _). Qed.

Lemma buddy_op_keeps s rx H op :
  buddy_ok s rx H -> buddy_op_ok op ->
  match buddy_op (s, rx, H) op with Ret (s', rx', H') => buddy_ok s' rx' H' | Fatal e => e = VAIinitFailed | Stuck => False end.
Proof.
  intros (rs & A & HW & HH) Hop. destruct op as [env [size node|r o a|r o a|avg requested force]]; cbn [buddy_op fst snd].
  - pose proof (alloc_whole env s rx rs A size node nranges numa HW Hop) as Ha. destruct (Buddy.alloc _ _ _ _ _ _ _) as [[[res s'] rx']| |]; cbn [mbind outcome_bind]; [|done..].
    destruct Ha as (rs' & req & _ & Hsz & Hd). destruct res as [[[[a o] f] r]|]; [|by exists rs', A]. destruct Hd as (-> & _ & _ & HW').
    eexists rs', _. split; [exact HW'|]. apply handed_insert; [done|]. by destruct Hsz.
  - destruct (H !! (r, o, a)) as [n|] eqn:Hl; [|by exists rs, A]. destruct (free_whole s rx rs A (current_stamp env) r o a HW) as (s' & -> & HW'); [apply HH; eauto|].
    cbn [mbind outcome_bind]. eexists rs, _. split; [exact HW'|]. by apply handed_delete.
  - destruct (H !! (r, o, a)) as [n|] eqn:Hl; [|by exists rs, A]. assert (Ha : (o, a) ∈ A r) by (apply HH; eauto).
    destruct (grow_whole s rx rs A r o a HW Ha) as [(s' & -> & HW')| ->]; cbn [mbind outcome_bind]; [|by exists rs, A]. eexists rs, _. split; [exact HW'|].
    apply handed_grow; [done| |done]. pose proof (whole_order _ _ _ _ _ _ _ HW Ha). lia.
  - set (R := fun k k' : K => forall x, mapped k x -> mapped k' x). assert (PreOrder R) by (split; [by intros k x|intros k1 k2 k3 H1 H2 x; auto]).
    destruct (trim_whole s rx rs A HW R) with (env := env) (blend := blend) (avg := avg) (requested := requested) (force := force) as (n & av & s' & k' & -> & Hre & Hk).
    { intros start len k _ _ _ _ x. apply madvise_mapped. }
    cbn [mbind outcome_bind]. exists rs, A. split; [|done]. by eapply whole_relabel.
Qed.

Lemma buddy_ops_keep ops : forall s rx H,
  buddy_ok s rx H -> Forall buddy_op_ok ops ->
  match buddy_ops (s, rx, H) ops with Ret (s', rx', H') => buddy_ok s' rx' H' | Fatal e => e = VAIinitFailed | Stuck => False end.
Proof.
  induction ops as [|op ops IH]; intros s rx H Hok Hall; cbn [buddy_ops]; [done|]. apply Forall_cons in Hall as [Hop Hall].
  pose proof (buddy_op_keeps s rx H op Hok Hop) as Hk. destruct (buddy_op _ op) as [[[s' rx'] H']| |]; cbn [mbind outcome_bind]; [|done..]. by apply IH.
Qed.
End Ops.

(** ** Theorems *)

(** [R] holds of two kernel states when advising away whole pages of a region that
    share no byte with a block handed out leads from one to the other. *)
Definition free_advisable {K} `{!Kernel K} (s : Buddy) (H : blocks) (R : relation K) : Prop :=
  forall start len k, (4096 | start) -> (4096 | len) ->
    (exists r x, bd_region_mem s !! r = Some x /\ r_base x <= start /\ start + len <= r_base x + r_total_size x) ->
    (forall r o a n y, H !! (r, o, a) = Some n -> a <= y < a + 2 ^ o -> ~ start <= y < start + len) -> R k (madvise start len LinuxDontNeed k).2.

Lemma region_header {K} `{!Kernel K} `{!KernelSpec K} s (rx : RadixTree K) rs A r b t :
  whole s rx rs A -> (r, (b, t)) ∈ rs -> exists x, bd_region_mem s !! r = Some x /\ r_base x = b /\ r_total_size x = t.
Proof. intros HW Hin. destruct (wh_region _ _ _ _ HW r b t Hin) as [_ (x & L & [Hrep _ _ _]) _ _ _]. exists x. split_and!; apply Hrep. Qed.

Lemma handed_aligned {K} `{!Kernel K} `{!KernelSpec K} s (rx : RadixTree K) rs A r o a :
  whole s rx rs A -> (o, a) ∈ A r -> (4096 | a) /\ exists x, bd_region_mem s !! r = Some x /\ (2 ^ o | a - r_base x).
Proof.
  intros HW Ha. destruct (whole_block _ _ _ _ _ _ _ HW Ha) as (b & t & Hin & _ & (Ho & _ & _ & Hd)). destruct (region_header _ _ _ _ _ _ _ HW Hin) as (x & Hx & Hb & _).
  destruct (wh_region _ _ _ _ HW r b t Hin) as [[_ H4] _ _ _ _]. split; [|exists x; by rewrite Hb]. replace a with (b + (a - b)) by lia. apply Z.divide_add_r; [done|].
  apply Z.divide_trans with (2 ^ o); [|done]. exists (2 ^ (o - 12)). change 4096 with (2 ^ 12). rewrite <- Z.pow_add_r by lia. f_equal. lia.
Qed.

Lemma handed_trim {K} `{!Kernel K} `{!KernelSpec K} s (rx : RadixTree K) rs A H (R : relation K) env blend avg requested force :
  whole s rx rs A -> handed H A -> PreOrder R -> free_advisable s H R ->
  exists n average s' k', trim_inner env blend s (kern rx) avg requested force = Ret (n, average, s', k') /\ R (kern rx) k'.
Proof.
  intros HW [HH _] HP HR. destruct (trim_whole s rx rs A HW R) with (env := env) (blend := blend) (avg := avg) (requested := requested) (force := force) as (n & av & s' & k' & Hr & _ & Hk); [|by eauto 8].
  intros start len k H1 H2 Hfree (r & b & t & Hin & Hlo & Hhi). apply HR; [done..| |].
  - destruct (region_header _ _ _ _ _ _ _ HW Hin) as (x & Hx & <- & <-). by exists r, x.
  - intros r' o a n0 y Hl Hy. eapply Hfree; [|exact Hy]. apply HH. eauto.
Qed.

(** C14. The buddy allocator is safe.  Initialise it and let clients allocate,
    release, grow in place and trim in any order, on any nodes, with as many regions
    as it maps.  Every call ends or aborts because a table of the ownership map
    cannot be mapped.  Every block handed out and not released starts at a page,
    aligned to its own size in its region, is as large as the size asked for, lies in
    memory that is mapped and owned, and shares no byte with any other.  A further
    trim ends, and whatever relation between kernel states is kept by advising whole
    pages of a region away that share no byte with a block handed out holds between
    the kernel before and after.  And once all blocks are released, every region is
    again a list of free blocks of the largest order. *)
Theorem buddy_safe {K} `{!Kernel K} `{!KernelSpec K} (env : BuddyEnv) (rx : RadixTree K) (size node nranges : Z) (thp numa : bool)
    (blend : Z -> Z -> Z) (ops : list (BuddyEnv * BuddyOp))
    (Hwf : radix_wf rx) (Hsize : is_u 64 size) (Hops : Forall buddy_op_ok ops) :
  match ('(s, rx) ← Buddy.init env BuddyAllocator_new rx size thp node numa; buddy_ops nranges numa blend (s, rx, ∅) ops) with
  | Ret (s, rx', H) =>
      (forall r o a n, H !! (r, o, a) = Some n -> n <= 2 ^ o /\ ((4096 | a) /\ exists x, bd_region_mem s !! r = Some x /\ (2 ^ o | a - r_base x)) /\
         forall y, a <= y < a + 2 ^ o -> 0 < y < 2 ^ 47 /\ mapped (kern rx') y /\ is_owned rx' y = Ret true) /\
      (forall r o a n r' o' a' n' y, H !! (r, o, a) = Some n -> H !! (r', o', a') = Some n' -> a <= y < a + 2 ^ o -> a' <= y < a' + 2 ^ o' -> (r, o, a) = (r', o', a')) /\
      (forall (R : relation K) env' avg requested force, PreOrder R -> free_advisable s H R ->
         exists n average s' k', trim_inner env' blend s (kern rx') avg requested force = Ret (n, average, s', k') /\ R (kern rx') k') /\
      exists rs, linked s (bd_regions s) rs /\ (H = ∅ -> forall r b t, (r, (b, t)) ∈ rs -> exists x L, region_rep b t s r x L /\
        forall o a, a ∈ L o <-> o = 26 /\ exists i, 0 <= i < t / 2 ^ 26 /\ a = b + i * 2 ^ 26)
  | Fatal e => e = VAIinitFailed
  | Stuck => False
  end.
Proof.
  pose proof (init_whole env rx size thp node numa Hwf Hsize) as Hi. destruct (Buddy.init _ _ _ _ _ _ _) as [[s0 rx0]| |]; cbn [mbind outcome_bind]; [|done..]. destruct Hi as [rs0 HW0].
  pose proof (buddy_ops_keep nranges numa blend ops s0 rx0 ∅ ltac:(exists rs0, (fun _ => ∅); split; [done|by constructor; [intros r o a; split; [by intros []|set_solver]|]]) Hops) as Hk.
  destruct (buddy_ops _ _ _ _ ops) as [[[s rx'] H]| |]; [|done..]. destruct Hk as (rs & A & HW & HH). pose proof HH as [H1 H2]. split_and!.
  - intros r o a n Hl. assert (Ha : (o, a) ∈ A r) by (apply H1; eauto). split; [by eapply H2|]. split; [by eapply handed_aligned|]. intros y Hy. by eapply whole_bytes.
  - intros r o a n r' o' a' n' y Hl Hl' Hy Hy'. destruct (whole_disjoint s rx' rs A r o a r' o' a' y HW) as (-> & -> & ->); [apply H1; eauto|apply H1; eauto|done..].
  - intros R env' avg requested force HP HR. by eapply handed_trim.
  - exists rs. split; [apply HW|]. intros -> r b t Hin. destruct (wh_region _ _ _ _ HW r b t Hin) as [[Hsp _] (x & L & Hi) _ _ _]. exists x, L. split; [apply Hi|].
    apply (all_free b t Hsp s r x L). assert (HA : A r = ∅); [|by rewrite <- HA]. apply set_eq. intros [o a]. rewrite <- H1. split; [by intros []|set_solver].
Qed.

Lemma buddy_safe_witness :
  exists rx s rx' H, ('(s, rx) ← Buddy.init (mkBuddyEnv 3 7) BuddyAllocator_new rx 1000 false 0 false;
    buddy_ops 1 false (fun v _ => v) (s, rx, ∅) [(mkBuddyEnv 3 8, BAlloc 5000000 0); (mkBuddyEnv 3 9, BAlloc 60000000 0); (mkBuddyEnv 3 10, BTrim 10 0 true)]) = Ret (s, rx', H : gmap (Z * Z * Z) Z) /\
    bool_decide (size H = 2%nat) = true /\ forall (r o a n : Z), H !! (r, o, a) = Some n -> n <= 2 ^ o /\ forall y, a <= y < a + 2 ^ o -> 0 < y < 2 ^ 47 /\ mapped (K := BumpKernel.state) (kern rx') y.
Proof.
  pose proof (Radix_new_ok BumpKernel.empty BumpKernel.empty_process) as Hn. set (ops := [_; _; _]).
  assert (Hc : match (rx ← Radix_new BumpKernel.empty; '(s, rx) ← Buddy.init (mkBuddyEnv 3 7) BuddyAllocator_new rx 1000 false 0 false; buddy_ops 1 false (fun v _ => v) (s, rx, ∅) ops) with
    | Ret (_, _, H) => bool_decide (size H = 2%nat) | _ => false end = true) by (by vm_compute).
  destruct (Radix_new BumpKernel.empty) as [rx| |]; [|discriminate Hc|discriminate Hc]. cbn [mbind outcome_bind] in Hc. destruct Hn as [Hwf _]. exists rx.
  pose proof (buddy_safe (mkBuddyEnv 3 7) rx 1000 0 1 false false (fun v _ => v) ops Hwf ltac:(split; [lia|lia]) ltac:(apply (bool_decide_unpack _); vm_compute; reflexivity)) as Hb.
  destruct (Buddy.init _ _ rx _ _ _ _) as [[s0 rx0]| |]; cbn [mbind outcome_bind] in *; [|discriminate Hc|discriminate Hc].
  destruct (buddy_ops _ _ _ _ ops) as [[[s rx'] H]| |]; [|discriminate Hc|discriminate Hc]. exists s, rx', H. split; [reflexivity|]. split; [exact Hc|].
  intros r o a n Hl. destruct Hb as [Hb _]. destruct (Hb r o a n Hl) as [H1 [_ H2]]. split; [exact H1|]. intros y Hy. destruct (H2 y Hy) as (H3 & H4 & _). split; assumption.
Defined.
