(* ===== verification/PageAllocator.v ===== *)
(** * The page allocator (src/backend/page_allocator.rs)

    Each NUMA node has a doubly linked list of arenas and a current arena.  An
    arena is a mapping whose first page holds its header; data is handed out by
    moving [current] towards [end].  The code of a node runs under its mutex. *)

From S2P Require Import Prelude Types SizeClasses DList Kernel Binder.

Definition PAGE_SIZE : Z := 4096.

(** The default of the configurable [ARENA_SIZE]. *)
Definition ARENA_SIZE_default : Z := 1024 * 1024 * 256.

Record PageArena := mkPageArena {
  pa_next : Z;
  pa_prev : Z;
  pa_base : Z;
  pa_end : Z;
  pa_current : Z;
}.

Definition PageArena_SIZE : Z := size_of_repr_C 8 [8; 8; 8; 8; 8].

#[export] Program Instance PageArena_linked : Linked PageArena := {
  l_next := pa_next;
  l_prev := pa_prev;
  with_next v b := mkPageArena v (pa_prev b) (pa_base b) (pa_end b) (pa_current b);
  with_prev v b := mkPageArena (pa_next b) v (pa_base b) (pa_end b) (pa_current b);
}.
Solve All Obligations with done.

Record NodeArenaState := mkNodeArenaState {
  na_current : Z;
  na_arenas : Z;
}.

Record NodeArena := mkNodeArena {
  na_state : NodeArenaState;
  na_node_id : Z;
}.

(** [size_of::<NodeArena>()]: aligned to a cache line. *)
Definition NodeArena_SIZE : Z := 64.

(** [InnerTable] as the array of nodes it points to; [None] is the null pointer. *)
Record InnerTable := mkInnerTable {
  it_arenas : option (list NodeArena);
  it_node_count : Z;
}.

Section PageAllocator.
Context {K : Type} `{!Kernel K}.

(** The allocator, the arena headers in memory and the kernel. *)
Record PageAllocator := mkPageAllocator {
  pg_inner : InnerTable;
  pg_mem : gmap Z PageArena;
  pg_kern : K;
}.

Definition PageAllocator_new (k : K) : PageAllocator :=
  mkPageAllocator (mkInnerTable None 0) ∅ k.

(** [init], the first time it is called. *)
Definition init (p : PageAllocator) (node_count : Z) : PageAllocator :=
  let node_count := Z.max node_count 1 in
  let bytes := wmul NodeArena_SIZE node_count in
  match mmap_anonymous bytes (pg_kern p) with
  | (None, k) => mkPageAllocator (pg_inner p) (pg_mem p) k
  | (Some mem, k) =>
      let arenas := (fun node => mkNodeArena (mkNodeArenaState null null) (wrap 16 (Z.of_nat node)))
                      <$> seq 0 (Z.to_nat node_count) in
      mkPageAllocator (mkInnerTable (Some arenas) node_count) (pg_mem p) k
  end.

(** ** Arenas of one node *)

(** A node's lists, the headers and the kernel, while its mutex is held. *)
Record NodeMem := mkNodeMem {
  nm_state : NodeArenaState;
  nm_mem : gmap Z PageArena;
  nm_kern : K;
}.

Definition get_arena (n : NodeMem) (a : Z) : outcome PageArena := from_option (nm_mem n !! a).

Definition put_arena (n : NodeMem) (a : Z) (x : PageArena) : NodeMem :=
  mkNodeMem (nm_state n) (<[a := x]> (nm_mem n)) (nm_kern n).

Definition set_next (n : NodeMem) (a v : Z) : outcome NodeMem :=
  x ← get_arena n a; Ret (put_arena n a (with_next v x)).

Definition set_prev (n : NodeMem) (a v : Z) : outcome NodeMem :=
  x ← get_arena n a; Ret (put_arena n a (with_prev v x)).

Definition set_arenas (n : NodeMem) (v : Z) : NodeMem :=
  mkNodeMem (mkNodeArenaState (na_current (nm_state n)) v) (nm_mem n) (nm_kern n).

Definition set_current (n : NodeMem) (v : Z) : NodeMem :=
  mkNodeMem (mkNodeArenaState v (na_arenas (nm_state n))) (nm_mem n) (nm_kern n).

Definition set_cursor (n : NodeMem) (a : Z) (x : PageArena) (v : Z) : NodeMem :=
  put_arena n a (mkPageArena (pa_next x) (pa_prev x) (pa_base x) (pa_end x) v).

(** A zeroed header page, as MADV_DONTNEED leaves it. *)
Definition zero_arena : PageArena := mkPageArena 0 0 0 0 0.

Definition metadata_size : Z := align_to PageArena_SIZE PAGE_SIZE.

Section Config.
(** The configured [ARENA_SIZE]. *)
Context (ARENA_SIZE : Z).

Definition remove_arena (n : NodeMem) (arena_base : Z) : outcome NodeMem :=
  if arena_base =? null then Ret n
  else
    arena ← get_arena n arena_base;
    let next := pa_next arena in
    let prev := pa_prev arena in
    n ← (if negb (prev =? null) then set_next n prev next else Ret (set_arenas n next));
    n ← (if negb (next =? null) then set_prev n next prev else Ret n);
    let n := if na_current (nm_state n) =? arena_base then set_current n next else n in
    if 1024 * 1024 * 16 <=? ARENA_SIZE then
      let '(ok, k) := madvise arena_base metadata_size DontNeed (nm_kern n) in
      Ret (mkNodeMem (nm_state n) (if ok : bool then <[arena_base := zero_arena]> (nm_mem n) else nm_mem n) k)
    else Ret n.

(** Move the cursor of the arena to [next] and drop the arena when what is left
    is too small for a refill. *)
Definition advance (n : NodeMem) (a : Z) (arena : PageArena) (next : Z) : outcome NodeMem :=
  let n := set_cursor n a arena next in
  if wsub (pa_end arena) next <? MIN_REFILL_BYTES then remove_arena n a else Ret n.

Definition allocate_current (n : NodeMem) (size : Z) : outcome (option Z * NodeMem) :=
  let cur := na_current (nm_state n) in
  if cur =? null then Ret (None, n)
  else
    arena ← get_arena n cur;
    match checked_add (pa_current arena) size with
    | None => Ret (None, n)
    | Some next =>
        if pa_end arena <? next then Ret (None, n)
        else
          n ← advance n cur arena next;
          Ret (Some (pa_current arena), n)
    end.

Fixpoint search_loop (fuel : nat) (n : NodeMem) (arena size : Z) : outcome (option Z * NodeMem) :=
  match fuel with
  | O => Stuck
  | S fuel' =>
      if arena =? null then Ret (None, n)
      else
        x ← get_arena n arena;
        let fits :=
          match checked_add (pa_current x) size with
          | Some next => if next <=? pa_end x then Some next else None
          | None => None
          end in
        match (if negb (arena =? na_current (nm_state n)) then fits else None) with
        | Some next =>
            n ← advance n arena x next;
            Ret (Some (pa_current x), n)
        | None => search_loop fuel' n (pa_next x) size
        end
  end.

Definition allocate_search (n : NodeMem) (size : Z) : outcome (option Z * NodeMem) :=
  search_loop (S (base.size (nm_mem n))) n (na_arenas (nm_state n)) size.

(** The result says whether an arena was added. *)
Definition new_arena_locked (n : NodeMem) (node_id requested : Z) : outcome (bool * NodeMem) :=
  let data_size := align_to (Z.max requested ARENA_SIZE) PAGE_SIZE in
  match checked_add metadata_size data_size with
  | None => Ret (false, n)
  | Some map_size =>
      match mmap_anonymous map_size (nm_kern n) with
      | (None, k) => Ret (false, mkNodeMem (nm_state n) (nm_mem n) k)
      | (Some mem, k) =>
          let k := (prefer_node mem map_size node_id k).2 in
          let n := mkNodeMem (nm_state n) (nm_mem n) k in
          let base := wadd mem metadata_size in
          match checked_add base data_size with
          | None => Ret (false, n)
          | Some end_ =>
              let head := na_arenas (nm_state n) in
              let n := put_arena n mem (mkPageArena head null base end_ base) in
              n ← (if negb (head =? null) then set_prev n head mem else Ret n);
              let n := set_arenas n mem in
              Ret (true, set_current n mem)
          end
      end
  end.

(** The body of [alloc] after the node is locked. *)
Definition alloc_locked (n : NodeMem) (node_id size : Z) : outcome (option Z * NodeMem) :=
  '(res, n) ← allocate_current n size;
  match res with
  | Some ptr => Ret (Some ptr, n)
  | None =>
      '(res, n) ← allocate_search n size;
      match res with
      | Some ptr => Ret (Some ptr, n)
      | None =>
          '(ok, n) ← new_arena_locked n node_id size;
          if ok : bool then allocate_current n size else Ret (None, n)
      end
  end.

(** The node of [node_id]: node 0 when out of range. *)
Definition node_index (inner : InnerTable) (node_id : Z) : Z :=
  if it_node_count inner <=? node_id then 0 else node_id.

(** Run [f] on the locked node and write it back. *)
Definition with_node {A} (p : PageAllocator) (node_id : Z) (no_table : A)
    (f : NodeArena -> NodeMem -> outcome (A * NodeMem)) : outcome (A * PageAllocator) :=
  match it_arenas (pg_inner p) with
  | None => Ret (no_table, p)
  | Some arenas =>
      if it_node_count (pg_inner p) =? 0 then Ret (no_table, p)
      else
        let i := Z.to_nat (node_index (pg_inner p) node_id) in
        node ← from_option (arenas !! i);
        '(res, n) ← f node (mkNodeMem (na_state node) (pg_mem p) (pg_kern p));
        Ret (res, mkPageAllocator
          (mkInnerTable (Some (<[i := mkNodeArena (nm_state n) (na_node_id node)]> arenas)) (it_node_count (pg_inner p)))
          (nm_mem n) (nm_kern n))
  end.

Definition alloc (p : PageAllocator) (node_id size : Z) : outcome (option Z * PageAllocator) :=
  let size := align_to (Z.max size 1) PAGE_SIZE in
  with_node p node_id None (fun node n => alloc_locked n (na_node_id node) size).

(** The search of [try_grow_inplace] for the arena of [addr]. *)
Fixpoint grow_loop (fuel : nat) (n : NodeMem) (arena addr old_size new_size : Z) : outcome (bool * NodeMem) :=
  match fuel with
  | O => Stuck
  | S fuel' =>
      if arena =? null then Ret (false, n)
      else
        x ← get_arena n arena;
        if (pa_base x <=? addr) && (addr <? pa_end x) then
          if negb ((wsub addr (pa_base x)) mod PAGE_SIZE =? 0) then Ret (false, n)
          else
            match checked_add addr old_size with
            | None => Ret (false, n)
            | Some old_end =>
                if negb (old_end =? pa_current x) then Ret (false, n)
                else
                  match checked_add addr new_size with
                  | None => Ret (false, n)
                  | Some new_end =>
                      if pa_end x <? new_end then Ret (false, n)
                      else
                        n ← advance n arena x new_end;
                        Ret (true, n)
                  end
            end
        else grow_loop fuel' n (pa_next x) addr old_size new_size
  end.

Definition try_grow_inplace (p : PageAllocator) (node_id ptr old_size new_size : Z) : outcome (bool * PageAllocator) :=
  if (ptr =? null) || (new_size <=? old_size) then Ret (false, p)
  else
    let old_size := align_to (Z.max old_size 1) PAGE_SIZE in
    let new_size := align_to (Z.max new_size 1) PAGE_SIZE in
    if new_size <=? old_size then Ret (true, p)
    else
      with_node p node_id false (fun _ n =>
        grow_loop (S (size (nm_mem n))) n (na_arenas (nm_state n)) ptr old_size new_size).

End Config.
End PageAllocator.
Arguments PageAllocator K : clear implicits.
Arguments NodeMem K : clear implicits.
