(* ===== verification/PageProofs.v ===== *)
(** * Correctness of the page allocator

    The unused bytes of the listed arenas are the available bytes.  An
    allocation takes page-aligned bytes that were available or not mapped at
    all, and no byte is available twice. *)

From S2P Require Import Prelude Types SizeClasses DList Kernel Binder PageAllocator.

Ltac Zify.zify_post_hook ::= idtac.

Section Proofs.
Context {K : Type} `{!Kernel K} `{!KernelSpec K}.
Implicit Types (n : NodeMem K) (p : PageAllocator K) (m : gmap Z PageArena) (k : K) (st : NodeArenaState)
  (l : list Z) (a c : Z) (P : Z -> Prop).

(** ** Invariants *)

(** The extent of an arena: where data starts, where it ends, the cursor. *)
Definition extent m a : option (Z * Z * Z) := (fun x => (pa_base x, pa_end x, pa_current x)) <$> m !! a.

Record arena_ok k (a b e cur : Z) : Prop := {
  ao_pos : 0 < a;
  ao_base : b = a + 4096;
  ao_order : b <= cur <= e;
  ao_end : e <= 2 ^ 47;
  ao_align : (4096 | a) /\ (4096 | cur) /\ (4096 | e);
  ao_mapped y : a <= y < e -> mapped k y;
}.

(** The arenas selected by [P] are well formed and apart from each other. *)
Record arenas_ok m k P : Prop := {
  as_ok a : P a -> exists b e cur, extent m a = Some (b, e, cur) /\ arena_ok k a b e cur;
  as_apart a a' b e cur b' e' cur' : P a -> P a' -> a <> a' ->
    extent m a = Some (b, e, cur) -> extent m a' = Some (b', e', cur') -> e <= a' \/ e' <= a;
  as_process : mapped k VSYSCALL;
}.

(** The list of a node. *)
Record node_ok m st l : Prop := {
  no_seg : seg m 0 (na_arenas st) l 0;
  no_nodup : NoDup l;
  no_zero a : a ∈ l -> a <> 0;
  no_current : na_current st = 0 \/ na_current st ∈ l;
}.

(** The byte [y] can be handed out. *)
Definition avail m P (y : Z) : Prop :=
  exists a b e cur, P a /\ extent m a = Some (b, e, cur) /\ cur <= y < e.

(** ** One arena *)

Lemma get_arena_ok n a x : nm_mem n !! a = Some x -> get_arena n a = Ret x.
Proof. intros H. unfold get_arena. by rewrite H. Qed.

Lemma extent_unlink m l1 l2 c d : extent m c = Some d -> extent (unlink m l1 l2) c = Some d.
Proof.
  unfold extent. intros (x & E & ->)%fmap_Some.
  destruct (unlink_lookup m l1 l2 c x E) as (x' & -> & [->|[[v ->]|[[v ->]|(v & w & ->)]]]); done.
Qed.

Lemma extent_link m a x l c d : extent m c = Some d -> c <> a -> extent (link m a x l) c = Some d.
Proof.
  unfold extent. intros (y & E & ->)%fmap_Some Hne.
  destruct (link_lookup m a x l c y E Hne) as (y' & -> & [->| ->]); done.
Qed.

(** What an operation leaves alone: headers outside the node's list, extents
    other than that of [a], and the mapped addresses. *)
Record frame l a n n' : Prop := {
  fr_mem c : c ∉ l -> nm_mem n' !! c = nm_mem n !! c;
  fr_extent c d : c <> a -> extent (nm_mem n) c = Some d -> extent (nm_mem n') c = Some d;
  fr_mapped y : mapped (nm_kern n') y <-> mapped (nm_kern n) y;
}.

Section Remove.
Context (ARENA_SIZE : Z).

(** The list part of [remove_arena]. *)
Lemma remove_lists n l1 a l2 x :
  node_ok (nm_mem n) (nm_state n) (l1 ++ a :: l2) -> nm_mem n !! a = Some x ->
  exists n', (n ← (if negb (pa_prev x =? null) then set_next n (pa_prev x) (pa_next x) else Ret (set_arenas n (pa_next x)));
     if negb (pa_next x =? null) then set_prev n (pa_next x) (pa_prev x) else Ret n) = Ret n' /\
    nm_mem n' = unlink (nm_mem n) l1 l2 /\ nm_kern n' = nm_kern n /\ na_current (nm_state n') = na_current (nm_state n) /\
    na_arenas (nm_state n') = if decide (l1 = []) then headd l2 0 else na_arenas (nm_state n).
Proof.
  intros Hok Hx. pose proof (no_seg _ _ _ Hok) as Hseg.
  destruct (nodup_middle _ _ _ (no_nodup _ _ _ Hok)) as (_ & _ & _ & _ & D).
  destruct (seg_middle _ _ _ _ _ _ Hseg) as (x' & Hx' & Hp & Hn & _). rewrite Hx in Hx'. injection Hx' as <-.
  change (pa_prev x = lastd 0 l1) in Hp. change (pa_next x = headd l2 0) in Hn. rewrite Hp, Hn.
  assert (Hz : forall c, c ∈ l1 \/ c ∈ l2 -> (c =? 0) = false).
  { intros c Hc. apply Z.eqb_neq, (no_zero _ _ _ Hok). rewrite elem_of_app, elem_of_cons. tauto. }
  assert (Hfirst : exists n1, (if negb (lastd 0 l1 =? null) then set_next n (lastd 0 l1) (headd l2 0) else Ret (set_arenas n (headd l2 0))) = Ret n1 /\
    nm_mem n1 = unlink_next (nm_mem n) l1 l2 /\ nm_kern n1 = nm_kern n /\ na_current (nm_state n1) = na_current (nm_state n) /\
    na_arenas (nm_state n1) = if decide (l1 = []) then headd l2 0 else na_arenas (nm_state n)).
  { unfold unlink_next, lastd. destruct (list_last_inv l1) as [->|(l & c & ->)]; [by eexists|]. rewrite last_snoc. simpl.
    rewrite Hz by (left; rewrite elem_of_app, list_elem_of_singleton; by right). cbn [negb].
    destruct (seg_elem _ _ _ _ _ c Hseg ltac:(rewrite !elem_of_app, list_elem_of_singleton; auto)) as [y Hy].
    unfold set_next. rewrite (get_arena_ok _ _ _ Hy), Hy. eexists. split; [done|]. rewrite decide_False by (by destruct l). done. }
  destruct Hfirst as (n1 & -> & Hm1 & Hk1 & Hc1 & Ha1). cbn [mbind outcome_bind].
  destruct (list_head_inv l2) as [He|(d & l & He)].
  { exists n1. rewrite (unlink_nil _ _ _ He). rewrite He in Hm1, Ha1 |- *. done. }
  assert (Hd2 : d ∈ l2) by (rewrite He; apply elem_of_cons; by left).
  assert (headd l2 0 = d) as Hh by (by rewrite He). rewrite Hh in *. rewrite Hz by auto. cbn [negb].
  assert (Hd : is_Some (unlink_next (nm_mem n) l1 l2 !! d)).
  { rewrite unlink_next_other; [eapply seg_elem; [exact Hseg|rewrite elem_of_app, elem_of_cons; auto]|].
    intros Hl%last_Some_elem_of. by apply (D d Hl). }
  destruct Hd as [y Hy]. unfold set_prev. rewrite (get_arena_ok _ _ y) by (by rewrite Hm1). eexists. split; [done|].
  simpl. rewrite (unlink_cons _ _ _ d l y He Hy), Hm1. done.
Qed.

Lemma remove_arena_ok n l1 a l2 :
  node_ok (nm_mem n) (nm_state n) (l1 ++ a :: l2) ->
  exists n', remove_arena ARENA_SIZE n a = Ret n' /\ node_ok (nm_mem n') (nm_state n') (l1 ++ l2) /\ frame (l1 ++ a :: l2) a n n'.
Proof.
  intros Hok. pose proof (no_zero _ _ _ Hok a ltac:(rewrite elem_of_app, elem_of_cons; auto)) as Hnz.
  pose proof (no_nodup _ _ _ Hok) as Hnd. destruct (nodup_middle _ _ _ Hnd) as (N1 & N2 & A1 & A2 & D).
  destruct (seg_middle _ _ _ _ _ _ (no_seg _ _ _ Hok)) as (x & Hx & Hp & Hn & _). change (pa_next x = headd l2 0) in Hn.
  unfold remove_arena. destruct (a =? null) eqn:?; [lia|]. rewrite (get_arena_ok _ _ _ Hx). cbn [mbind outcome_bind]. cbv zeta.
  destruct (remove_lists n l1 a l2 x Hok Hx) as (n1 & Hrun & Hm1 & Hk1 & Hc1 & Ha1). run_ret Hrun.
  set (n2 := if na_current (nm_state n1) =? a then _ else _).
  assert (H2 : nm_mem n2 = unlink (nm_mem n) l1 l2 /\ nm_kern n2 = nm_kern n /\ na_arenas (nm_state n2) = na_arenas (nm_state n1) /\
    (na_current (nm_state n2) = 0 \/ na_current (nm_state n2) ∈ l1 ++ l2)).
  { unfold n2. destruct (Z.eqb_spec (na_current (nm_state n1)) a) as [He|Hne]; simpl; (split; [done|]); (split; [done|]); (split; [done|]).
    - rewrite Hn. unfold headd. destruct l2 as [|d l]; [by left|right]. rewrite elem_of_app, elem_of_cons. auto.
    - destruct (no_current _ _ _ Hok) as [Hc|Hc]; [left; congruence|right]. rewrite elem_of_app, elem_of_cons in Hc.
      rewrite Hc1 in *. rewrite elem_of_app. naive_solver. }
  destruct H2 as (Hm2 & Hk2 & Ha2 & Hc2).
  assert (Hseg2 : seg (nm_mem n2) 0 (na_arenas (nm_state n2)) (l1 ++ l2) 0).
  { rewrite Hm2, Ha2, Ha1. eapply unlink_seg; [done|apply Hok]. }
  assert (Hnin : a ∉ l1 ++ l2) by (rewrite elem_of_app; tauto).
  assert (Hres : forall mem' k', (forall c, c <> a -> mem' !! c = nm_mem n2 !! c) -> (forall y, mapped k' y <-> mapped (nm_kern n) y) ->
    node_ok mem' (nm_state n2) (l1 ++ l2) /\ frame (l1 ++ a :: l2) a n (mkNodeMem (nm_state n2) mem' k')).
  { intros mem' k' Hmem Hmap. split; constructor; simpl; try done.
    - eapply seg_ext; [|exact Hseg2]. intros c Hc. apply Hmem. congruence.
    - apply NoDup_app. done.
    - intros c Hc. apply (no_zero _ _ _ Hok). rewrite elem_of_app in *. rewrite elem_of_cons. tauto.
    - intros c Hc. rewrite elem_of_app, elem_of_cons in Hc. rewrite Hmem, Hm2, unlink_other by tauto. done.
    - intros c d Hne Hd. unfold extent. rewrite Hmem by done. rewrite Hm2. by apply extent_unlink. }
  destruct (1024 * 1024 * 16 <=? ARENA_SIZE).
  - destruct (madvise a metadata_size DontNeed (nm_kern n2)) as [ok k'] eqn:Em. eexists. split; [done|]. apply Hres.
    + intros c Hne. destruct ok; [by rewrite lookup_insert_ne|done].
    + intros y. pose proof (madvise_mapped a metadata_size DontNeed (nm_kern n2) y) as Hmap. rewrite Em in Hmap. simpl in Hmap. by rewrite Hk2 in Hmap.
  - exists n2. split; [done|]. destruct (Hres (nm_mem n2) (nm_kern n2)) as [H1 H2]; [done|by rewrite Hk2|]. by destruct n2.
Qed.

(** ** One node *)

(** The node with list [l] among the listed arenas [P]. *)
Record node_inv n l P : Prop := {
  ni_node : node_ok (nm_mem n) (nm_state n) l;
  ni_arenas : arenas_ok (nm_mem n) (nm_kern n) P;
  ni_sub a : a ∈ l -> P a;
}.

(** The listed arenas when the node's list goes from [l] to [l']. *)
Definition relist P l l' (c : Z) : Prop := (P c /\ c ∉ l) \/ c ∈ l'.

(** The bytes from [lo] to [hi] leave the available ones; nothing else becomes
    available but freshly mapped bytes. *)
Record taken n P n' P' (lo hi : Z) : Prop := {
  tk_bytes y : lo <= y < hi ->
    (avail (nm_mem n) P y \/ ~ mapped (nm_kern n) y) /\ mapped (nm_kern n') y /\ ~ avail (nm_mem n') P' y;
  tk_avail y : avail (nm_mem n') P' y -> avail (nm_mem n) P y \/ ~ mapped (nm_kern n) y /\ mapped (nm_kern n') y;
  tk_mapped y : mapped (nm_kern n) y -> mapped (nm_kern n') y;
}.

Lemma avail_iff m P P' y : (forall c, P c <-> P' c) -> avail m P y -> avail m P' y.
Proof. intros H (a & b & e & cur & Ha & Hr). exists a, b, e, cur. split; [by apply H|done]. Qed.

Lemma arenas_sub m k P (P' : Z -> Prop) : (forall c, P' c -> P c) -> arenas_ok m k P -> arenas_ok m k P'.
Proof. intros H [H1 H2 H3]. constructor; [intros a Ha; by apply H1, H| |done]. intros a a' b e cur b' e' cur' Ha Ha'. apply H2; auto. Qed.

Lemma avail_mapped m k P y : arenas_ok m k P -> avail m P y -> mapped k y.
Proof.
  intros Hok (a & b & e & cur & Ha & He & Hy). destruct (as_ok _ _ _ Hok a Ha) as (b' & e' & cur' & He' & Hao).
  rewrite He in He'. injection He' as <- <- <-. apply (ao_mapped _ _ _ _ _ Hao). destruct (ao_order _ _ _ _ _ Hao).
  pose proof (ao_base _ _ _ _ _ Hao). lia.
Qed.

Lemma extent_lookup m a x : m !! a = Some x -> extent m a = Some (pa_base x, pa_end x, pa_current x).
Proof. intros H. unfold extent. by rewrite H. Qed.

(** Moving the cursor. *)
Lemma cursor_ok n l P a x next :
  node_inv n l P -> a ∈ l -> nm_mem n !! a = Some x -> pa_current x <= next <= pa_end x -> (4096 | next) ->
  node_inv (set_cursor n a x next) l P /\ taken n P (set_cursor n a x next) P (pa_current x) next.
Proof.
  intros [Hno Has Hsub] Ha Hx Hn Hal. set (n1 := set_cursor n a x next).
  destruct (as_ok _ _ _ Has a (Hsub a Ha)) as (b & e & cur & He & Hao). rewrite (extent_lookup _ _ _ Hx) in He.
  injection He as <- <- <-. pose proof (extent_lookup _ _ _ Hx) as Hex.
  assert (E1 : forall c, extent (nm_mem n1) c = if decide (c = a) then Some (pa_base x, pa_end x, next) else extent (nm_mem n) c).
  { intros c. unfold extent. simpl. destruct (decide (c = a)) as [->|Hne]; [by rewrite lookup_insert_eq|by rewrite lookup_insert_ne]. }
  destruct Hao as [Hpos Hbase Hord Hend (Hal1 & Hal2 & Hal3) Hmap].
  assert (Hback : forall y, avail (nm_mem n1) P y -> avail (nm_mem n) P y /\ ~ (pa_current x <= y < next)).
  { intros y (c & b & e & cur & Hc & Hec & Hy). rewrite E1 in Hec. destruct (decide (c = a)) as [->|Hne].
    - injection Hec as <- <- <-. split; [|lia]. exists a, (pa_base x), (pa_end x), (pa_current x). split; [done|]. split; [done|lia].
    - split; [by exists c, b, e, cur|]. destruct (as_apart _ _ _ Has c a b e cur _ _ _ Hc (Hsub a Ha) Hne Hec Hex) as [Hd|Hd]; [lia|].
      destruct (as_ok _ _ _ Has c Hc) as (b' & e' & cur' & He' & Hao'). rewrite Hec in He'. injection He' as <- <- <-.
      pose proof (ao_order _ _ _ _ _ Hao'). pose proof (ao_base _ _ _ _ _ Hao'). lia. }
  split; constructor; try done.
  - destruct Hno as [Hseg Hnd Hz Hc]. constructor; try done. simpl. by eapply seg_set_data.
  - constructor.
    + intros c Hc. rewrite E1. destruct (decide (c = a)) as [->|]; [|by apply Has].
      exists (pa_base x), (pa_end x), next. split; [done|]. constructor; (done || lia).
    + intros c c' b e cur b' e' cur' Hc Hc' Hne He He'. rewrite E1 in He, He'.
      destruct (decide (c = a)) as [->|]; destruct (decide (c' = a)) as [->|]; try done; simplify_eq;
        by eapply (as_apart _ _ _ Has); try done.
    + apply Has.
  - intros y Hy. split; [|split].
    + left. exists a, (pa_base x), (pa_end x), (pa_current x). split; [by apply Hsub|]. split; [done|lia].
    + apply Hmap. lia.
    + intros Hav. by apply Hback in Hav as [_ ?].
  - intros y Hy. left. by apply Hback.
Qed.

(** Dropping an arena from the list. *)
Lemma drop_ok n l P a :
  node_inv n l P -> a ∈ l ->
  exists n' l', remove_arena ARENA_SIZE n a = Ret n' /\ (forall c, c ∈ l' <-> c ∈ l /\ c <> a) /\
    node_inv n' l' (relist P l l') /\ (forall c, c ∉ l -> nm_mem n' !! c = nm_mem n !! c) /\
    (forall y, avail (nm_mem n') (relist P l l') y -> avail (nm_mem n) P y) /\ (forall y, mapped (nm_kern n') y <-> mapped (nm_kern n) y).
Proof.
  intros [Hno Has Hsub] Ha. apply list_elem_of_split in Ha as (l1 & l2 & ->).
  destruct (remove_arena_ok n l1 a l2 Hno) as (n' & Hrun & Hno' & [F1 F2 F3]).
  destruct (nodup_middle _ _ _ (no_nodup _ _ _ Hno)) as (_ & _ & A1 & A2 & _).
  assert (Hin : forall c, c ∈ l1 ++ l2 <-> c ∈ l1 ++ a :: l2 /\ c <> a).
  { intros c. rewrite !elem_of_app, elem_of_cons. naive_solver. }
  assert (HP : forall c, relist P (l1 ++ a :: l2) (l1 ++ l2) c -> P c /\ c <> a).
  { intros c [[Hc Hn]|Hc]; [split; [done|]; intros ->; apply Hn; rewrite elem_of_app, elem_of_cons; auto|].
    apply Hin in Hc as [Hc ?]. auto. }
  assert (Hext : forall c d, relist P (l1 ++ a :: l2) (l1 ++ l2) c -> extent (nm_mem n') c = Some d -> extent (nm_mem n) c = Some d).
  { intros c d [Hc Hne]%HP Hd. destruct (as_ok _ _ _ Has c Hc) as (b & e & cur & He & _). rewrite (F2 c _ Hne He) in Hd. by rewrite <- Hd. }
  exists n', (l1 ++ l2). split; [done|]. split; [done|]. split; [|split; [done|split; [|done]]].
  - constructor; [done| |intros c Hc; by right]. constructor.
    + intros c Hc. destruct (HP c Hc) as [Hc' Hne]. destruct (as_ok _ _ _ Has c Hc') as (b & e & cur & He & []). exists b, e, cur.
      split; [by apply F2|]. constructor; try done. intros y Hy. apply F3. auto.
    + intros c c' b e cur b' e' cur' Hc Hc' Hne He%Hext He'%Hext; [|done..]. eapply (as_apart _ _ _ Has); try done; by apply HP.
    + apply F3, Has.
  - intros y (c & b & e & cur & Hc & He & Hy). exists c, b, e, cur. split; [by apply HP|]. split; [by apply Hext|done].
Qed.

(** The result of handing out the bytes from [lo] to [hi] in a node. *)
Definition hands_out n l P (lo hi : Z) (n' : NodeMem K) : Prop :=
  exists l', node_inv n' l' (relist P l l') /\ taken n P n' (relist P l l') lo hi /\
    (forall c, c ∈ l' -> c ∈ l \/ ~ mapped (nm_kern n) c) /\
    (forall c, c ∉ l -> mapped (nm_kern n) c -> nm_mem n' !! c = nm_mem n !! c).

Lemma relist_id P l : (forall a, a ∈ l -> P a) -> forall c, relist P l l c <-> P c.
Proof. intros H c. unfold relist. split; [intros [[? _]|?]; auto|]. intros Hc. destruct (decide (c ∈ l)); auto. Qed.

Lemma node_inv_iff n l P (P' : Z -> Prop) : (forall c, P c <-> P' c) -> node_inv n l P -> node_inv n l P'.
Proof.
  intros H [H1 H2 H3]. constructor; [done| |intros a Ha; by apply H, H3]. eapply arenas_sub; [|done]. intros c. apply H.
Qed.

Lemma advance_ok n l P a x next :
  node_inv n l P -> a ∈ l -> nm_mem n !! a = Some x -> pa_current x <= next <= pa_end x -> (4096 | next) ->
  exists n', advance ARENA_SIZE n a x next = Ret n' /\ hands_out n l P (pa_current x) next n'.
Proof.
  intros Hi Ha Hx Hn Hal. destruct (cursor_ok n l P a x next Hi Ha Hx Hn Hal) as [Hi1 Ht]. unfold advance.
  set (n1 := set_cursor n a x next) in *. pose proof (relist_id P l (ni_sub _ _ _ Hi)) as Hid.
  assert (Hmem : forall c, c ∉ l -> nm_mem n1 !! c = nm_mem n !! c) by (intros c Hc; simpl; rewrite lookup_insert_ne; [done|congruence]).
  destruct (wsub (pa_end x) next <? MIN_REFILL_BYTES).
  - destruct (drop_ok n1 l P a Hi1 Ha) as (n' & l' & Hrun & Hl' & Hi' & Hm' & Hav & Hmap). exists n'. split; [done|].
    exists l'. split; [done|]. split; [|split].
    + destruct Ht as [T1 T2 T3]. constructor.
      * intros y Hy. destruct (T1 y Hy) as (? & ? & Hna). split; [done|]. split; [by apply Hmap|]. intros Hc%Hav. done.
      * intros y Hy%Hav. apply T2 in Hy as [?|[? ?]]; [by left|right]. split; [done|by apply Hmap].
      * intros y Hy. by apply Hmap, T3.
    + intros c Hc%Hl'. left. tauto.
    + intros c Hc _. by rewrite Hm', Hmem.
  - exists n1. split; [done|]. exists l. split; [eapply node_inv_iff; [|exact Hi1]; intros c; by rewrite Hid|]. split; [|split].
    + destruct Ht as [T1 T2 T3]. constructor; [|intros y Hy; apply T2; eapply avail_iff; [exact Hid|done]|done].
      intros y Hy. destruct (T1 y Hy) as (? & ? & Hna). split; [done|]. split; [done|]. intros Hc. apply Hna. by eapply avail_iff; [exact Hid|].
    + auto.
    + intros c Hc _. by apply Hmem.
Qed.

(** ** Allocation in a node *)

Lemma arena_of n l P a x :
  node_inv n l P -> a ∈ l -> nm_mem n !! a = Some x -> arena_ok (nm_kern n) a (pa_base x) (pa_end x) (pa_current x).
Proof.
  intros Hi Ha Hx. destruct (as_ok _ _ _ (ni_arenas _ _ _ Hi) a (ni_sub _ _ _ Hi a Ha)) as (b & e & cur & He & Hao).
  rewrite (extent_lookup _ _ _ Hx) in He. by injection He as <- <- <-.
Qed.

(** A block of [size] bytes was found, or the node is as before. *)
Definition found n l P (size : Z) (res : outcome (option Z * NodeMem K)) : Prop :=
  (exists ptr n', res = Ret (Some ptr, n') /\ 0 < ptr /\ (4096 | ptr) /\ ptr + size <= 2 ^ 47 /\ hands_out n l P ptr (ptr + size) n') \/
  res = Ret (None, n).

Lemma take_found n l P a x size next :
  node_inv n l P -> a ∈ l -> nm_mem n !! a = Some x -> 0 < size -> (4096 | size) ->
  checked_add (pa_current x) size = Some next -> next <= pa_end x ->
  found n l P size (n' ← advance ARENA_SIZE n a x next; Ret (Some (pa_current x), n')).
Proof.
  intros Hi Ha Hx Hs Hd Hc Hle. pose proof (arena_of _ _ _ _ _ Hi Ha Hx) as Hao. apply checked_add_Some in Hc as [-> Hlt].
  destruct (ao_align _ _ _ _ _ Hao) as (H1 & H2 & H3). pose proof (ao_order _ _ _ _ _ Hao). pose proof (ao_pos _ _ _ _ _ Hao).
  pose proof (ao_base _ _ _ _ _ Hao). pose proof (ao_end _ _ _ _ _ Hao).
  destruct (advance_ok n l P a x (pa_current x + size) Hi Ha Hx) as (n' & -> & Hh); [lia|by apply Z.divide_add_r|].
  left. exists (pa_current x), n'. split; [done|]. split; [lia|]. split; [done|]. split; [lia|done].
Qed.

Lemma allocate_current_ok n l P size :
  node_inv n l P -> 0 < size -> (4096 | size) -> found n l P size (allocate_current ARENA_SIZE n size).
Proof.
  intros Hi Hs Hd. unfold allocate_current. destruct (Z.eqb_spec (na_current (nm_state n)) null) as [|Hne]; [by right|].
  destruct (no_current _ _ _ (ni_node _ _ _ Hi)) as [|Ha]; [done|].
  destruct (seg_elem _ _ _ _ _ _ (no_seg _ _ _ (ni_node _ _ _ Hi)) Ha) as [x Hx]. rewrite (get_arena_ok _ _ _ Hx). cbn [mbind outcome_bind].
  destruct (checked_add (pa_current x) size) as [next|] eqn:E; [|by right]. destruct (Z.ltb_spec (pa_end x) next); [by right|].
  by eapply take_found.
Qed.

Lemma search_ok fuel n l P size l1 l2 :
  node_inv n l P -> 0 < size -> (4096 | size) -> l = l1 ++ l2 -> (length l2 < fuel)%nat ->
  found n l P size (search_loop ARENA_SIZE fuel n (headd l2 0) size).
Proof.
  intros Hi Hs Hd. revert l1 l2. induction fuel as [|fuel IH]; intros l1 l2 Hl Hf; [lia|]. cbn [search_loop].
  destruct (list_head_inv l2) as [->|(a & l3 & ->)]; [by right|]. change (headd (a :: l3) 0) with a.
  assert (Ha : a ∈ l) by (rewrite Hl, elem_of_app, elem_of_cons; auto).
  pose proof (no_zero _ _ _ (ni_node _ _ _ Hi) a Ha). destruct (a =? null) eqn:?; [lia|].
  pose proof (no_seg _ _ _ (ni_node _ _ _ Hi)) as Hseg. rewrite Hl in Hseg.
  destruct (seg_middle _ _ _ _ _ _ Hseg) as (x & Hx & _ & Hn & _). change (pa_next x = headd l3 0) in Hn.
  rewrite (get_arena_ok _ _ _ Hx). cbn [mbind outcome_bind]. cbv zeta. rewrite Hn.
  assert (Hgo : found n l P size (search_loop ARENA_SIZE fuel n (headd l3 0) size)).
  { apply (IH (l1 ++ [a])); [by rewrite <- app_assoc|simpl in Hf; lia]. }
  destruct (negb (a =? na_current (nm_state n))); [|done].
  destruct (checked_add (pa_current x) size) as [next|] eqn:E; [|done]. destruct (Z.leb_spec next (pa_end x)); [|done].
  by eapply take_found.
Qed.

Lemma seg_length m b h l e : seg m b h l e -> NoDup l -> (length l <= size m)%nat.
Proof.
  intros Hseg Hnd. rewrite <- (size_list_to_set (C := gset Z) l Hnd), <- size_dom. apply subseteq_size. intros a Ha%elem_of_list_to_set.
  apply elem_of_dom. by eapply seg_elem.
Qed.

Lemma allocate_search_ok n l P size :
  node_inv n l P -> 0 < size -> (4096 | size) -> found n l P size (allocate_search ARENA_SIZE n size).
Proof.
  intros Hi Hs Hd. unfold allocate_search. pose proof (no_seg _ _ _ (ni_node _ _ _ Hi)) as Hseg.
  rewrite (seg_head _ _ _ _ _ Hseg). apply (search_ok _ n l P size [] l); try done.
  pose proof (seg_length _ _ _ _ _ Hseg (no_nodup _ _ _ (ni_node _ _ _ Hi))). lia.
Qed.

(** ** New arenas *)

Context (Harena : 0 <= ARENA_SIZE <= 2 ^ 62).

(** A new arena in front of the list is current and has room for [requested]
    bytes; or the kernel has no memory. *)
Definition arena_added n l P (requested : Z) (res : outcome (bool * NodeMem K)) : Prop :=
  (exists a x n', res = Ret (true, n') /\ node_inv n' (a :: l) (relist P l (a :: l)) /\ nm_mem n' !! a = Some x /\
     na_current (nm_state n') = a /\ requested <= pa_end x - pa_current x /\ ~ mapped (nm_kern n) a /\
     (forall y, avail (nm_mem n') (relist P l (a :: l)) y -> avail (nm_mem n) P y \/ ~ mapped (nm_kern n) y /\ mapped (nm_kern n') y) /\
     (forall y, mapped (nm_kern n) y -> mapped (nm_kern n') y) /\
     (forall c, c ∉ l -> mapped (nm_kern n) c -> nm_mem n' !! c = nm_mem n !! c)) \/
  (exists n', res = Ret (false, n') /\ nm_state n' = nm_state n /\ nm_mem n' = nm_mem n /\
     (forall y, mapped (nm_kern n) y -> mapped (nm_kern n') y)).

(** The invariant with the header of the new arena linked in. *)
Lemma linked_inv n l P a x k' :
  node_inv n l P -> (forall y, a <= y < pa_end x -> ~ mapped (nm_kern n) y) ->
  pa_next x = na_arenas (nm_state n) -> pa_prev x = 0 ->
  arena_ok k' a (pa_base x) (pa_end x) (pa_current x) -> (forall y, mapped (nm_kern n) y -> mapped k' y) ->
  let n' := mkNodeMem (mkNodeArenaState a a) (link (nm_mem n) a x l) k' in
  node_inv n' (a :: l) (relist P l (a :: l)) /\ nm_mem n' !! a = Some x /\
  (forall c d, P c -> extent (nm_mem n') c = Some d -> extent (nm_mem n) c = Some d).
Proof.
  intros [Hno Has Hsub] Hfresh Hnx Hpr Hao Hmono n'.
  assert (Hrange : forall c b e cur, P c -> extent (nm_mem n) c = Some (b, e, cur) -> c < e /\ (forall y, c <= y < e -> mapped (nm_kern n) y)).
  { intros c b e cur Hc He. destruct (as_ok _ _ _ Has c Hc) as (b' & e' & cur' & He' & Hao'). rewrite He in He'. injection He' as <- <- <-.
    pose proof (ao_order _ _ _ _ _ Hao'). pose proof (ao_base _ _ _ _ _ Hao'). split; [lia|]. intros y Hy. by eapply ao_mapped. }
  assert (Hlt : a < pa_end x) by (pose proof (ao_order _ _ _ _ _ Hao); pose proof (ao_base _ _ _ _ _ Hao); lia).
  assert (HnP : ~ P a).
  { intros Ha. destruct (as_ok _ _ _ Has a Ha) as (b & e & cur & He & _). destruct (Hrange _ _ _ _ Ha He) as [H1 H2]. apply (Hfresh a); [lia|]. apply H2. lia. }
  assert (Hnl : a ∉ l) by (intros Ha; by apply HnP, Hsub).
  assert (Hself : nm_mem n' !! a = Some x) by (by apply link_self).
  assert (Hext : forall c d, P c -> extent (nm_mem n') c = Some d -> extent (nm_mem n) c = Some d).
  { intros c d Hc Hd. destruct (as_ok _ _ _ Has c Hc) as (b & e & cur & He & _).
    assert (c <> a) by congruence. pose proof (extent_link (nm_mem n) a x l c _ He ltac:(done)) as He'. simpl in Hd. rewrite He' in Hd. by rewrite <- Hd. }
  assert (Hapart : forall c b e cur, P c -> extent (nm_mem n) c = Some (b, e, cur) -> e <= a \/ pa_end x <= c).
  { intros c b e cur Hc He. destruct (Hrange c b e cur Hc He) as [H1 H2]. destruct (decide (e <= a)); [by left|]. destruct (decide (pa_end x <= c)); [by right|].
    exfalso. apply (Hfresh (Z.max a c)); [lia|]. apply H2. lia. }
  assert (HP : forall c, relist P l (a :: l) c -> c = a \/ P c /\ c <> a).
  { intros c [[Hc _]|[->|Hc]%elem_of_cons]; [right; split; [done|congruence]|by left|right]. split; [auto|]. intros ->. auto. }
  pose proof (extent_lookup _ _ _ Hself) as Hea. split; [|done]. constructor; [| |intros c Hc; by right].
  - destruct Hno as [Hseg Hnd Hz Hcur]. constructor; cbn [nm_mem nm_state na_arenas na_current n'].
    + apply (link_seg _ _ _ _ (na_arenas (nm_state n))); done.
    + by apply NoDup_cons.
    + intros c [->|Hc]%elem_of_cons; [pose proof (ao_pos _ _ _ _ _ Hao); lia|auto].
    + right. apply elem_of_cons. by left.
  - constructor.
    + intros c [->|[Hc Hne]]%HP; [eauto 6|]. destruct (as_ok _ _ _ Has c Hc) as (b & e & cur & He & []). exists b, e, cur.
      split; [by apply extent_link|]. constructor; auto.
    + intros c c' b e cur b' e' cur' [->|[Hc Hne]]%HP [->|[Hc' Hne']]%HP Hcc He He'; [done|..].
      * rewrite Hea in He. injection He as <- <- <-. apply Hext in He'; [|done]. destruct (Hapart _ _ _ _ Hc' He'); auto.
      * rewrite Hea in He'. injection He' as <- <- <-. apply Hext in He; [|done]. destruct (Hapart _ _ _ _ Hc He); auto.
      * apply Hext in He, He'; [|done..]. by eapply (as_apart _ _ _ Has).
    + apply Hmono, Has.
Qed.

(** The writes that link the header in. *)
Lemma link_run n l a x k :
  node_ok (nm_mem n) (nm_state n) l -> a ∉ l ->
  (n' ← (let n := put_arena (mkNodeMem (nm_state n) (nm_mem n) k) a x in
         if negb (na_arenas (nm_state n) =? null) then set_prev n (na_arenas (nm_state n)) a else Ret n);
   Ret (true, set_current (set_arenas n' a) a)) =
  Ret (true, mkNodeMem (mkNodeArenaState a a) (link (nm_mem n) a x l) k).
Proof.
  intros [Hseg _ Hz _] Hnin. cbv zeta. simpl nm_state. rewrite (seg_head _ _ _ _ _ Hseg). unfold link. destruct l as [|c l]; [done|].
  change (headd (c :: l) 0) with c. pose proof (Hz c ltac:(apply elem_of_cons; by left)). destruct (c =? null) eqn:?; [lia|].
  destruct (seg_elem _ _ _ _ _ c Hseg ltac:(apply elem_of_cons; by left)) as [d Hd].
  assert (Hd' : <[a := x]> (nm_mem n) !! c = Some d) by (rewrite lookup_insert_ne; [done|]; rewrite not_elem_of_cons in Hnin; naive_solver).
  rewrite Hd'. cbn [negb]. unfold set_prev. rewrite (get_arena_ok _ _ d) by done. done.
Qed.

Lemma new_arena_ok n l P node requested :
  node_inv n l P -> 0 < requested <= 2 ^ 62 -> arena_added n l P requested (new_arena_locked ARENA_SIZE n node requested).
Proof using Harena KernelSpec0.
  intros Hi Hr. unfold new_arena_locked. change PAGE_SIZE with (2 ^ 12).
  destruct (align_to_spec (Z.max requested ARENA_SIZE) 12 ltac:(lia) ltac:(lia) ltac:(lia)) as [Hsz Hd].
  set (data := align_to _ _) in *. change metadata_size with 4096. unfold checked_add at 1.
  destruct (4096 + data <? 2 ^ 64) eqn:?; [|lia].
  assert (Hd2 : (4096 | 4096 + data)) by (apply Z.divide_add_r; [apply Z.divide_refl|done]).
  destruct (mmap_anonymous (4096 + data) (nm_kern n)) as [[mem|] k] eqn:E.
  2:{ right. eexists. split; [done|]. split; [done|]. split; [done|]. intros y Hy. simpl. by apply (mmap_none _ _ _ y E). }
  destruct (mmap_some (4096 + data) _ _ _ ltac:(lia) (as_process _ _ _ (ni_arenas _ _ _ Hi)) E) as (H1 & H2 & H3 & H4 & H5). rewrite round_up_id in H3, H4, H5 by (lia || done).
  set (k' := (prefer_node mem (4096 + data) node k).2). rewrite wadd_small by lia. unfold checked_add.
  destruct (mem + 4096 + data <? 2 ^ 64) eqn:?; [|lia].
  set (x := mkPageArena (na_arenas (nm_state n)) null (mem + 4096) (mem + 4096 + data) (mem + 4096)).
  assert (Hk' : forall y, mapped k' y <-> mapped (nm_kern n) y \/ mem <= y < mem + (4096 + data)).
  { intros y. unfold k', prefer_node. rewrite mbind_node_mapped. apply H5. }
  destruct (linked_inv n l P mem x k' Hi) as (Hi' & Hx' & Hext); simpl.
  { intros y Hy. apply H4. lia. }
  { done. } { done. }
  { constructor; simpl; try lia; [|intros y Hy; apply Hk'; right; lia]. split; [done|].
    split; [apply Z.divide_add_r; [done|apply Z.divide_refl]|]. replace (mem + 4096 + data) with (mem + (4096 + data)) by lia. by apply Z.divide_add_r. }
  { intros y Hy. apply Hk'. by left. }
  assert (Hmem : mem ∉ l).
  { intros Hin. destruct (seg_elem _ _ _ _ _ _ (no_seg _ _ _ (ni_node _ _ _ Hi)) Hin) as [z Hz].
    pose proof (arena_of _ _ _ _ _ Hi Hin Hz) as Hao. apply (H4 mem); [lia|]. apply (ao_mapped _ _ _ _ _ Hao).
    pose proof (ao_order _ _ _ _ _ Hao). pose proof (ao_base _ _ _ _ _ Hao). lia. }
  left. exists mem, x, (mkNodeMem (mkNodeArenaState mem mem) (link (nm_mem n) mem x l) k').
  split; [by apply (link_run n l mem x k'), Hmem; apply Hi|]. split; [done|]. split; [done|]. split; [done|]. split; [simpl; lia|].
  split; [apply H4; lia|]. split; [|split].
  - intros y (c & b & e & cur & [[Hc _]|[->|Hc]%elem_of_cons] & He & Hy); simpl nm_kern.
    + left. exists c, b, e, cur. split; [done|]. split; [by apply Hext|done].
    + right. rewrite (extent_lookup _ _ _ Hx') in He. injection He as <- <- <-. simpl in Hy. split; [apply H4; lia|]. apply Hk'. right; lia.
    + left. pose proof (ni_sub _ _ _ Hi c Hc). exists c, b, e, cur. split; [done|]. split; [by apply Hext|done].
  - intros y Hy. apply Hk'. by left.
  - intros c Hc Hm. simpl. apply link_other; [|done]. intros ->. apply (H4 mem); [lia|done].
Qed.

(** Handing out from the node with the new arena. *)
Lemma hands_out_after n l P a n1 lo hi n' :
  node_inv n l P -> ~ mapped (nm_kern n) a ->
  (forall y, avail (nm_mem n1) (relist P l (a :: l)) y -> avail (nm_mem n) P y \/ ~ mapped (nm_kern n) y /\ mapped (nm_kern n1) y) ->
  (forall y, mapped (nm_kern n) y -> mapped (nm_kern n1) y) ->
  (forall c, c ∉ l -> mapped (nm_kern n) c -> nm_mem n1 !! c = nm_mem n !! c) ->
  hands_out n1 (a :: l) (relist P l (a :: l)) lo hi n' -> hands_out n l P lo hi n'.
Proof.
  intros Hi Hfa Hav Hmono Hfr (l' & Hi' & Ht & Hl' & Hfr'). exists l'.
  assert (HPm : forall c, P c -> mapped (nm_kern n) c).
  { intros c Hcl. destruct (as_ok _ _ _ (ni_arenas _ _ _ Hi) c Hcl) as (b & e & cur & _ & Ho). apply (ao_mapped _ _ _ _ _ Ho).
    pose proof (ao_order _ _ _ _ _ Ho). pose proof (ao_base _ _ _ _ _ Ho). lia. }
  assert (Hre : forall c, relist (relist P l (a :: l)) (a :: l) l' c <-> relist P l l' c).
  { intros c. unfold relist. rewrite !elem_of_cons. pose proof (HPm c).
    split; [tauto|]. intros [[Hc1 Hc2]|]; [left|tauto]. assert (c <> a) by (intros ->; auto). tauto. }
  split; [by eapply node_inv_iff|]. split; [|split].
  - destruct Ht as [T1 T2 T3]. constructor.
    + intros y Hy. destruct (T1 y Hy) as (Hor & Hm & Hna). split; [|split; [done|]].
      * destruct Hor as [Hor|Hor]; [|right; intros Hm'; by apply Hor, Hmono]. apply Hav in Hor as [?|[? _]]; auto.
      * intros Hc'. apply Hna. eapply avail_iff; [|done]. intros c. by rewrite Hre.
    + intros y Hy. apply (avail_iff _ _ _ _ (fun c => iff_sym (Hre c))) in Hy. apply T2 in Hy as [Hy|[Hy1 Hy2]].
      * apply Hav in Hy as [?|[? ?]]; [by left|right]. auto.
      * right. split; [|done]. intros Hm. by apply Hy1, Hmono.
    + auto.
  - intros c Hc'. apply Hl' in Hc' as [[->|Hc']%elem_of_cons|Hc']; [by right|by left|right]. intros Hm. by apply Hc', Hmono.
  - intros c Hc' Hm. rewrite Hfr'; [by apply Hfr| |by apply Hmono]. rewrite elem_of_cons. intros [->|]; done.
Qed.

(** The outcome of an allocation in a node. *)
Lemma alloc_locked_ok n l P node size :
  node_inv n l P -> 0 < size <= 2 ^ 62 -> (4096 | size) ->
  found n l P size (alloc_locked ARENA_SIZE n node size) \/
  (exists n', alloc_locked ARENA_SIZE n node size = Ret (None, n') /\ nm_state n' = nm_state n /\ nm_mem n' = nm_mem n /\
     (forall y, mapped (nm_kern n) y -> mapped (nm_kern n') y)).
Proof using Harena KernelSpec0.
  intros Hi Hs Hd. unfold alloc_locked.
  destruct (allocate_current_ok n l P size Hi ltac:(lia) Hd) as [(ptr & n' & -> & H)| ->]; cbn [mbind outcome_bind]; [left; left; eauto|].
  destruct (allocate_search_ok n l P size Hi ltac:(lia) Hd) as [(ptr & n' & -> & H)| ->]; cbn [mbind outcome_bind]; [left; left; eauto|].
  destruct (new_arena_ok n l P node size Hi Hs) as [(a & x & n1 & -> & Hi1 & Hx & Hc & Hroom & Hfa & Hav & Hmono & Hfr)|(n' & -> & H)];
    cbn [mbind outcome_bind]; [|right; eauto]. left. left.
  pose proof (arena_of n1 (a :: l) _ a x Hi1 ltac:(apply elem_of_cons; by left) Hx) as Hao.
  unfold allocate_current. rewrite Hc. pose proof (ao_pos _ _ _ _ _ Hao). destruct (a =? null) eqn:?; [lia|].
  rewrite (get_arena_ok _ _ _ Hx). cbn [mbind outcome_bind]. pose proof (ao_end _ _ _ _ _ Hao). pose proof (ao_order _ _ _ _ _ Hao).
  unfold checked_add. destruct (pa_current x + size <? 2 ^ 64) eqn:?; [|lia]. destruct (Z.ltb_spec (pa_end x) (pa_current x + size)); [lia|].
  destruct (take_found n1 (a :: l) _ a x size (pa_current x + size) Hi1 ltac:(apply elem_of_cons; by left) Hx ltac:(lia) Hd) as
    [(ptr & n' & Hrun & Hp1 & Hp2 & Hp3 & Hh)|Hrun]; [unfold checked_add; case_match; [done|lia]|done| |].
  2:{ destruct (advance ARENA_SIZE n1 a x (pa_current x + size)); done. }
  exists ptr, n'. split; [done|]. split; [done|]. split; [done|]. split; [done|].
  by eapply (hands_out_after n l P a n1).
Qed.

(** ** Growing in place *)

(** The block ending at the cursor was extended, or the node is as before. *)
Definition grown n l P (addr osz nsz : Z) (res : outcome (bool * NodeMem K)) : Prop :=
  (exists n', res = Ret (true, n') /\ hands_out n l P (addr + osz) (addr + nsz) n') \/ res = Ret (false, n).

Lemma grow_ok fuel n l P addr osz nsz l1 l2 :
  node_inv n l P -> 0 <= osz < nsz -> (4096 | nsz) -> l = l1 ++ l2 -> (length l2 < fuel)%nat ->
  grown n l P addr osz nsz (grow_loop ARENA_SIZE fuel n (headd l2 0) addr osz nsz).
Proof.
  intros Hi Hs Hd. revert l1 l2. induction fuel as [|fuel IH]; intros l1 l2 Hl Hf; [lia|]. cbn [grow_loop].
  destruct (list_head_inv l2) as [->|(a & l3 & ->)]; [by right|]. change (headd (a :: l3) 0) with a.
  assert (Ha : a ∈ l) by (rewrite Hl, elem_of_app, elem_of_cons; auto).
  pose proof (no_zero _ _ _ (ni_node _ _ _ Hi) a Ha). destruct (a =? null) eqn:?; [lia|].
  pose proof (no_seg _ _ _ (ni_node _ _ _ Hi)) as Hseg. rewrite Hl in Hseg.
  destruct (seg_middle _ _ _ _ _ _ Hseg) as (x & Hx & _ & Hn & _). change (pa_next x = headd l3 0) in Hn.
  rewrite (get_arena_ok _ _ _ Hx). cbn [mbind outcome_bind]. rewrite Hn.
  destruct ((pa_base x <=? addr) && (addr <? pa_end x)) eqn:Hin; [|apply (IH (l1 ++ [a])); [by rewrite <- app_assoc|simpl in Hf; lia]].
  pose proof (arena_of _ _ _ _ _ Hi Ha Hx) as Hao. pose proof (ao_pos _ _ _ _ _ Hao). pose proof (ao_base _ _ _ _ _ Hao). pose proof (ao_end _ _ _ _ _ Hao).
  rewrite wsub_small by lia. change PAGE_SIZE with 4096. destruct (Z.eqb_spec ((addr - pa_base x) mod 4096) 0) as [Hm|]; [cbn [negb]|by right].
  destruct (checked_add addr osz) as [oe|] eqn:E1; [|by right]. apply checked_add_Some in E1 as [-> _].
  destruct (Z.eqb_spec (addr + osz) (pa_current x)) as [Hc|]; [cbn [negb]|by right].
  destruct (checked_add addr nsz) as [ne|] eqn:E2; [|by right]. apply checked_add_Some in E2 as [-> _].
  destruct (Z.ltb_spec (pa_end x) (addr + nsz)); [by right|].
  assert (Had : (4096 | addr)).
  { destruct (ao_align _ _ _ _ _ Hao) as ([q Hq] & _). apply Z.mod_divide in Hm as [t Ht]; [|lia]. exists (t + q + 1). lia. }
  destruct (advance_ok n l P a x (addr + nsz) Hi Ha Hx ltac:(lia)) as (n' & -> & Hh); [by apply Z.divide_add_r|].
  cbn [mbind outcome_bind]. left. exists n'. split; [done|]. by rewrite Hc.
Qed.

(** ** The whole allocator *)

Definition nodes p : list NodeArena := default [] (it_arenas (pg_inner p)).

(** Listed by one of the nodes, given the list [L i] of node [i]. *)
Definition listed p (L : nat -> list Z) (c : Z) : Prop := exists i, (i < length (nodes p))%nat /\ c ∈ L i.

Record page_inv p (L : nat -> list Z) : Prop := {
  pi_table : it_arenas (pg_inner p) = Some (nodes p) /\ it_node_count (pg_inner p) = Z.of_nat (length (nodes p)) /\ nodes p <> [];
  pi_node i node : nodes p !! i = Some node -> node_ok (pg_mem p) (na_state node) (L i);
  pi_uniq i j c : (i < length (nodes p))%nat -> (j < length (nodes p))%nat -> c ∈ L i -> c ∈ L j -> i = j;
  pi_arenas : arenas_ok (pg_mem p) (pg_kern p) (listed p L);
}.

(** The available bytes of the allocator and what an operation may do to them. *)
Definition page_avail p L (y : Z) : Prop := avail (pg_mem p) (listed p L) y.

Record page_taken p L p' L' (lo hi : Z) : Prop := {
  pt_bytes y : lo <= y < hi -> (page_avail p L y \/ ~ mapped (pg_kern p) y) /\ mapped (pg_kern p') y /\ ~ page_avail p' L' y;
  pt_avail y : page_avail p' L' y -> page_avail p L y \/ ~ mapped (pg_kern p) y /\ mapped (pg_kern p') y;
  pt_mapped y : mapped (pg_kern p) y -> mapped (pg_kern p') y;
}.

(** The node [i] after a step, written back. *)
Definition write_back p (i : nat) (node : NodeArena) n : PageAllocator K :=
  mkPageAllocator (mkInnerTable (Some (<[i := mkNodeArena (nm_state n) (na_node_id node)]> (nodes p))) (it_node_count (pg_inner p)))
    (nm_mem n) (nm_kern n).

Definition node_mem p (node : NodeArena) : NodeMem K := mkNodeMem (na_state node) (pg_mem p) (pg_kern p).

Lemma page_node_inv p L i node :
  page_inv p L -> nodes p !! i = Some node -> node_inv (node_mem p node) (L i) (listed p L).
Proof.
  intros Hi Hn. constructor; [by eapply pi_node|apply Hi|]. intros a Ha. exists i. split; [by eapply lookup_lt_Some|done].
Qed.

Lemma page_step p L i node lo hi n' :
  page_inv p L -> nodes p !! i = Some node -> hands_out (node_mem p node) (L i) (listed p L) lo hi n' ->
  exists L', page_inv (write_back p i node n') L' /\ page_taken p L (write_back p i node n') L' lo hi.
Proof.
  intros Hi Hn (l' & Hi' & Ht & Hl' & Hfr). pose proof (lookup_lt_Some _ _ _ Hn) as Hlt.
  set (L' := fun j => if decide (j = i) then l' else L j). set (p' := write_back p i node n').
  assert (Hnodes : nodes p' = <[i := mkNodeArena (nm_state n') (na_node_id node)]> (nodes p)) by done.
  assert (Hlen : length (nodes p') = length (nodes p)) by (rewrite Hnodes; apply length_insert).
  assert (HPm : forall c, listed p L c -> mapped (pg_kern p) c).
  { intros c Hc. destruct (as_ok _ _ _ (pi_arenas _ _ Hi) c Hc) as (b & e & cur & _ & Ho). apply (ao_mapped _ _ _ _ _ Ho).
    pose proof (ao_order _ _ _ _ _ Ho). pose proof (ao_base _ _ _ _ _ Ho). lia. }
  assert (Hne : forall j c, j <> i -> (j < length (nodes p))%nat -> c ∈ L j -> c ∉ L i /\ c ∉ l').
  { intros j c Hji Hj Hc. assert (Hci : c ∉ L i) by (intros Hci; by apply Hji, (pi_uniq _ _ Hi j i c)). split; [done|].
    intros Hcl. apply Hl' in Hcl as [Hcl|Hcl]; [done|]. apply Hcl, HPm. by exists j. }
  assert (HP : forall c, relist (listed p L) (L i) l' c <-> listed p' L' c).
  { intros c. unfold relist, listed, L'. rewrite Hlen. split.
    - intros [[(j & Hj & Hc) Hni]|Hc]; [exists j|exists i]; (split; [done|]); case_decide; congruence.
    - intros (j & Hj & Hc). case_decide as Hd; [by right|left]. split; [by exists j|]. by eapply Hne. }
  exists L'. split.
  - destruct (pi_table _ _ Hi) as (T1 & T2 & T3). constructor.
    + rewrite Hlen. split; [by rewrite Hnodes|]. split; [done|]. rewrite Hnodes. intros He. apply T3, length_zero_iff_nil. by rewrite <- Hlen, Hnodes, He.
    + intros j nd Hj. rewrite Hnodes in Hj. unfold L'. destruct (decide (j = i)) as [->|Hji].
      * rewrite list_lookup_insert_eq in Hj by done. injection Hj as <-. apply Hi'.
      * rewrite list_lookup_insert_ne in Hj by done. destruct (pi_node _ _ Hi j nd Hj) as [N1 N2 N3 N4]. constructor; try done.
        eapply seg_ext; [|exact N1]. intros c Hc. apply lookup_lt_Some in Hj. apply Hfr; [by eapply Hne|]. apply HPm. by exists j.
    + rewrite Hlen. intros j1 j2 c H1 H2. unfold L'. intros Hc1 Hc2. destruct (decide (j1 = i)) as [->|], (decide (j2 = i)) as [->|]; try done.
      * by destruct (Hne j2 c).
      * by destruct (Hne j1 c).
      * by apply (pi_uniq _ _ Hi j1 j2 c).
    + eapply arenas_sub; [|exact (ni_arenas _ _ _ Hi')]. intros c. apply HP.
  - destruct Ht as [T1 T2 T3]. constructor; [|intros y Hy|done].
    + intros y Hy. destruct (T1 y Hy) as (Hor & Hm & Hna). split; [done|]. split; [done|]. intros Hc. apply Hna. eapply avail_iff; [|exact Hc].
      intros c. by rewrite HP.
    + apply T2. eapply avail_iff; [|exact Hy]. intros c. by rewrite HP.
Qed.

(** The kernel knows more mapped addresses and nothing else changed. *)
Lemma page_kernel p L k :
  page_inv p L -> (forall y, mapped (pg_kern p) y -> mapped k y) -> page_inv (mkPageAllocator (pg_inner p) (pg_mem p) k) L.
Proof.
  intros [H1 H2 H3 H4] Hm. constructor; try done. destruct H4 as [A1 A2 A3]. constructor; [|done|by apply Hm].
  intros a Ha. destruct (A1 a Ha) as (b & e & cur & He & []). exists b, e, cur. split; [done|]. constructor; auto.
Qed.
End Remove.
End Proofs.
