(* ===== verification/PageSpec.v ===== *)
(** * What the page allocator promises

    Allocation, growth in place and every sequence of both: the pages handed out
    are page aligned, mapped and disjoint. *)

From S2P Require Import Prelude Types SizeClasses DList Kernel Binder PageAllocator PageProofs.

Ltac Zify.zify_post_hook ::= idtac.

(** The bytes a request of [size] takes. *)
Definition page_bytes (size : Z) : Z := align_to (Z.max size 1) PAGE_SIZE.

Lemma page_bytes_ok size :
  0 <= size <= 2 ^ 61 -> size <= page_bytes size /\ 0 < page_bytes size <= 2 ^ 62 /\ (4096 | page_bytes size).
Proof.
  intros Hs. unfold page_bytes. change PAGE_SIZE with (2 ^ 12).
  destruct (align_to_spec (Z.max size 1) 12 ltac:(lia) ltac:(lia) ltac:(lia)) as [H1 H2]. split; [lia|]. split; [lia|done].
Qed.

Section Spec.
Context {K : Type} `{!Kernel K} `{!KernelSpec K} (ARENA_SIZE : Z) (Harena : 0 <= ARENA_SIZE <= 2 ^ 62).
Implicit Types (p : PageAllocator K) (k : K) (L : nat -> list Z).

Lemma node_lookup p L node_id :
  page_inv p L -> 0 <= node_id -> exists node, nodes p !! Z.to_nat (node_index (pg_inner p) node_id) = Some node.
Proof.
  intros Hi Hn. destruct (pi_table _ _ Hi) as (_ & Hc & Hne). apply lookup_lt_is_Some. unfold node_index. rewrite Hc.
  assert (0 < length (nodes p))%nat by (destruct (nodes p); simpl in *; [done|lia]). case_match; lia.
Qed.

(** [with_node] on a well-formed allocator. *)
Lemma with_node_run {A} p L node_id (no : A) f :
  page_inv p L -> 0 <= node_id ->
  exists i node, nodes p !! i = Some node /\
    with_node p node_id no f = ('(res, n) ← f node (node_mem p node); Ret (res, write_back p i node n)).
Proof.
  intros Hi Hn. destruct (node_lookup p L node_id Hi Hn) as [node Hl]. destruct (pi_table _ _ Hi) as (Ht & Hc & Hne).
  exists (Z.to_nat (node_index (pg_inner p) node_id)), node. split; [done|]. unfold with_node. rewrite Ht.
  destruct (Z.eqb_spec (it_node_count (pg_inner p)) 0) as [H0|_].
  { rewrite Hc in H0. destruct (nodes p); [done|simpl in H0; lia]. }
  rewrite Hl. done.
Qed.

(** A write-back of the same node changes nothing but the kernel. *)
Lemma write_back_same p L i node n :
  page_inv p L -> nodes p !! i = Some node -> nm_state n = na_state node -> nm_mem n = pg_mem p ->
  write_back p i node n = mkPageAllocator (pg_inner p) (pg_mem p) (nm_kern n).
Proof.
  intros Hi Hl Hs Hm. destruct (pi_table _ _ Hi) as (Ht & _). unfold write_back. rewrite Hs, Hm, list_insert_id by (rewrite Hl; by destruct node).
  rewrite <- Ht. by destruct (pg_inner p).
Qed.

(** The result of an allocation. *)
Definition page_alloc_result p L (bytes : Z) (res : outcome (option Z * PageAllocator K)) : Prop :=
  (exists ptr p' L', res = Ret (Some ptr, p') /\ page_inv p' L' /\ 0 < ptr /\ (4096 | ptr) /\ ptr + bytes <= 2 ^ 47 /\
     page_taken p L p' L' ptr (ptr + bytes)) \/
  (exists p', res = Ret (None, p') /\ page_inv p' L /\ pg_inner p' = pg_inner p /\ pg_mem p' = pg_mem p /\
     forall y, mapped (pg_kern p) y -> mapped (pg_kern p') y).

Lemma alloc_ok p L node_id size :
  page_inv p L -> 0 <= node_id -> 0 <= size <= 2 ^ 61 ->
  page_alloc_result p L (page_bytes size) (alloc ARENA_SIZE p node_id size).
Proof using Harena KernelSpec0.
  intros Hi Hn Hs. destruct (page_bytes_ok size Hs) as (_ & Hb & Hd). unfold alloc. fold (page_bytes size).
  destruct (with_node_run p L node_id None (fun node n => alloc_locked ARENA_SIZE n (na_node_id node) (page_bytes size)) Hi Hn) as (i & node & Hl & ->).
  pose proof (page_node_inv p L i node Hi Hl) as Hni.
  assert (Hnone : forall n, nm_state n = na_state node -> nm_mem n = pg_mem p -> (forall y, mapped (pg_kern p) y -> mapped (nm_kern n) y) ->
    page_alloc_result p L (page_bytes size) (Ret (None, write_back p i node n))).
  { intros n H1 H2 H3. right. exists (mkPageAllocator (pg_inner p) (pg_mem p) (nm_kern n)).
    split; [by rewrite (write_back_same p L)|]. split; [by apply page_kernel|done]. }
  destruct (alloc_locked_ok ARENA_SIZE Harena _ _ _ (na_node_id node) (page_bytes size) Hni Hb Hd) as
    [[(ptr & n' & -> & H1 & H2 & H3 & Hh)| ->]|(n' & -> & H1 & H2 & H3)]; cbn [mbind outcome_bind]; [|by apply Hnone..].
  left. destruct (page_step p L i node _ _ n' Hi Hl Hh) as (L' & Hi' & Ht). exists ptr, (write_back p i node n'), L'. done.
Qed.

Lemma grow_inplace_ok p L node_id ptr old_size new_size :
  page_inv p L -> 0 <= node_id -> 0 <= old_size <= 2 ^ 61 -> 0 <= new_size <= 2 ^ 61 ->
  (exists p' L', try_grow_inplace ARENA_SIZE p node_id ptr old_size new_size = Ret (true, p') /\ page_inv p' L' /\
     page_taken p L p' L' (ptr + page_bytes old_size) (ptr + page_bytes new_size)) \/
  try_grow_inplace ARENA_SIZE p node_id ptr old_size new_size = Ret (false, p).
Proof using KernelSpec0.
  intros Hi Hn Ho Hw. destruct (page_bytes_ok old_size Ho) as (_ & Hb1 & _). destruct (page_bytes_ok new_size Hw) as (_ & Hb2 & Hd).
  unfold try_grow_inplace. fold (page_bytes old_size) (page_bytes new_size).
  destruct ((ptr =? null) || (new_size <=? old_size)); [by right|]. destruct (Z.leb_spec (page_bytes new_size) (page_bytes old_size)) as [Hle|Hlt].
  { left. exists p, L. split; [done|]. split; [done|]. constructor; [intros y Hy; lia|auto..]. }
  destruct (with_node_run p L node_id false (fun _ n => grow_loop ARENA_SIZE (S (size (nm_mem n))) n (na_arenas (nm_state n)) ptr
    (page_bytes old_size) (page_bytes new_size)) Hi Hn) as (i & node & Hl & ->).
  pose proof (page_node_inv p L i node Hi Hl) as Hni. pose proof (no_seg _ _ _ (ni_node _ _ _ Hni)) as Hseg.
  pose proof (seg_length _ _ _ _ _ Hseg (no_nodup _ _ _ (ni_node _ _ _ Hni))) as Hlen. rewrite (seg_head _ _ _ _ _ Hseg).
  destruct (grow_ok ARENA_SIZE (S (size (nm_mem (node_mem p node)))) (node_mem p node) (L i) (listed p L) ptr (page_bytes old_size)
    (page_bytes new_size) [] (L i) Hni ltac:(lia) Hd eq_refl ltac:(lia)) as [(n' & -> & Hh)| ->]; cbn [mbind outcome_bind].
  - left. destruct (page_step p L i node _ _ n' Hi Hl Hh) as (L' & Hi' & Ht). exists (write_back p i node n'), L'. done.
  - right. rewrite (write_back_same p L) by done. by destruct p.
Qed.

(** Initialisation: no arenas, one entry per node. *)
Lemma init_ok k node_count :
  mapped k VSYSCALL -> node_count <= 2 ^ 16 ->
  let p := init (PageAllocator_new k) node_count in
  (page_inv p (fun _ => []) /\ length (nodes p) = Z.to_nat (Z.max node_count 1)) \/ it_arenas (pg_inner p) = None.
Proof.
  intros Hv Hc. unfold init. destruct (mmap_anonymous _ _) as [[mem|] k1] eqn:E; [left|by right]. cbv zeta. split.
  - constructor.
    + unfold nodes. simpl. rewrite length_fmap, length_seq. split; [done|]. split; [lia|].
      intros He. apply (f_equal length) in He. rewrite length_fmap, length_seq in He. simpl in He. lia.
    + intros i node Hl. unfold nodes in Hl. simpl in Hl. rewrite list_lookup_fmap in Hl.
      apply fmap_Some in Hl as (j & _ & ->). constructor; simpl; [done|constructor|by intros a ?%not_elem_of_nil|by left].
    + intros i j c _ _ Hx. by apply not_elem_of_nil in Hx.
    + constructor; [intros a (i & _ & Hx); by apply not_elem_of_nil in Hx| |by eapply (mmap_kept _ _ _ _ _ E)]. intros a a' b e cur b' e' cur' (i & _ & Hx). by apply not_elem_of_nil in Hx.
  - unfold nodes. simpl. by rewrite length_fmap, length_seq.
Qed.

(** ** Sequences of operations *)

Inductive PageOp :=
  | PAlloc (node_id size : Z)
  | PGrow (node_id ptr old_size new_size : Z).

(** The pieces handed out so far, as (address, bytes). *)
Definition page_op (st : list (Z * Z) * PageAllocator K) (op : PageOp) : outcome (list (Z * Z) * PageAllocator K) :=
  let '(out, p) := st in
  match op with
  | PAlloc node_id size =>
      '(res, p) ← alloc ARENA_SIZE p node_id size;
      Ret (match res with Some ptr => (ptr, page_bytes size) :: out | None => out end, p)
  | PGrow node_id ptr old_size new_size =>
      '(ok, p) ← try_grow_inplace ARENA_SIZE p node_id ptr old_size new_size;
      Ret (if ok : bool then (ptr + page_bytes old_size, page_bytes new_size - page_bytes old_size) :: out else out, p)
  end.

Fixpoint page_ops (st : list (Z * Z) * PageAllocator K) (ops : list PageOp) : outcome (list (Z * Z) * PageAllocator K) :=
  match ops with
  | [] => Ret st
  | op :: ops => st ← page_op st op; page_ops st ops
  end.

Definition page_op_ok (op : PageOp) : Prop :=
  match op with
  | PAlloc node_id size => 0 <= node_id /\ 0 <= size <= 2 ^ 61
  | PGrow node_id _ old_size new_size => 0 <= node_id /\ 0 <= old_size <= 2 ^ 61 /\ 0 <= new_size <= 2 ^ 61
  end.

Definition piece (y : Z) (b : Z * Z) : Prop := b.1 <= y < b.1 + b.2.

(** Every byte is in one piece at most; the bytes of pieces are mapped and not
    available. *)
Record out_ok (out : list (Z * Z)) p L : Prop := {
  oo_once y i j b b' : out !! i = Some b -> out !! j = Some b' -> piece y b -> piece y b' -> i = j;
  oo_mapped y b : b ∈ out -> piece y b -> mapped (pg_kern p) y /\ ~ page_avail p L y;
}.

Lemma out_ok_taken out p L p' L' lo len :
  out_ok out p L -> page_taken p L p' L' lo (lo + len) -> out_ok ((lo, len) :: out) p' L'.
Proof.
  intros [O1 O2] [T1 T2 T3].
  assert (Hold : forall y b, b ∈ out -> piece y b -> mapped (pg_kern p') y /\ ~ page_avail p' L' y).
  { intros y b Hb Hy. destruct (O2 y b Hb Hy) as [H1 H2]. split; [auto|]. intros Hav. apply T2 in Hav as [|[? _]]; auto. }
  assert (Hnew : forall y b, b ∈ out -> piece y b -> piece y (lo, len) -> False).
  { intros y b Hb Hy Hl. destruct (O2 y b Hb Hy) as [H1 H2]. destruct (T1 y Hl) as ([|] & _); auto. }
  constructor.
  - intros y [|i] [|j] b b' Hi Hj Hb Hb'; simpl in *; [done|..]; simplify_eq.
    + exfalso. apply (Hnew y b'); [by apply (list_elem_of_lookup_2 _ j)|done..].
    + exfalso. apply (Hnew y b); [by apply (list_elem_of_lookup_2 _ i)|done..].
    + f_equal. by apply (O1 y i j b b').
  - intros y b [->|Hb]%elem_of_cons Hy; [|by apply (Hold y b)]. destruct (T1 y Hy) as (_ & ? & ?). done.
Qed.

Lemma page_ops_inv ops : forall out p L,
  page_inv p L -> out_ok out p L -> Forall page_op_ok ops ->
  exists out' p' L', page_ops (out, p) ops = Ret (out', p') /\ page_inv p' L' /\ out_ok out' p' L'.
Proof using Harena KernelSpec0.
  induction ops as [|op ops IH]; intros out p L Hi Ho Hall; cbn [page_ops]; [eauto 6|].
  apply Forall_cons in Hall as [Hop Hall].
  assert (Hstep : exists out1 p1 L1, page_op (out, p) op = Ret (out1, p1) /\ page_inv p1 L1 /\ out_ok out1 p1 L1).
  { destruct op as [node_id size|node_id ptr osz nsz]; simpl.
    - destruct Hop as [Hn Hs]. destruct (alloc_ok p L node_id size Hi Hn Hs) as [(ptr & p' & L' & -> & Hi' & _ & _ & _ & Ht)|(p' & -> & Hi' & H1 & H2 & H3)];
        cbn [mbind outcome_bind].
      + eexists _, p', L'. split; [done|]. split; [done|]. by apply (out_ok_taken out p L).
      + exists out, p', L. split; [done|]. split; [done|]. destruct Ho as [O1 O2]. constructor; [done|].
        intros y b Hb Hy. destruct (O2 y b Hb Hy) as [Hm Hna]. split; [auto|].
        unfold page_avail, listed, nodes in *. by rewrite H1, H2.
    - destruct Hop as (Hn & Hs1 & Hs2). destruct (grow_inplace_ok p L node_id ptr osz nsz Hi Hn Hs1 Hs2) as [(p' & L' & -> & Hi' & Ht)| ->];
        cbn [mbind outcome_bind]; [|eauto 6]. eexists _, p', L'. split; [done|]. split; [done|]. apply (out_ok_taken out p L); [done|].
      by replace (ptr + page_bytes osz + (page_bytes nsz - page_bytes osz)) with (ptr + page_bytes nsz) by lia. }
  destruct Hstep as (out1 & p1 & L1 & -> & Hi1 & Ho1). cbn [mbind outcome_bind]. eauto.
Qed.

(** ** Theorems *)

(** An allocation of the page allocator returns a page-aligned address of
    bytes that were available in an arena or not mapped before, are mapped now
    and no longer available; it fails only without changing any arena.  The
    invariant on the arena lists of all nodes is kept. *)
Theorem page_alloc_fresh (p : PageAllocator K) (L : nat -> list Z) (node_id size : Z)
    (Hinv : page_inv p L) (Hnode : 0 <= node_id) (Hsize : 0 <= size <= 2 ^ 61) :
  page_alloc_result p L (page_bytes size) (alloc ARENA_SIZE p node_id size).
Proof using Harena KernelSpec0. by apply alloc_ok. Qed.

(** Growing in place extends by bytes that were available and changes
    nothing else, or answers no and changes nothing. *)
Theorem page_grow_inplace_safe (p : PageAllocator K) (L : nat -> list Z) (node_id ptr old_size new_size : Z)
    (Hinv : page_inv p L) (Hnode : 0 <= node_id) (Hold : 0 <= old_size <= 2 ^ 61) (Hnew : 0 <= new_size <= 2 ^ 61) :
  (exists p' L', try_grow_inplace ARENA_SIZE p node_id ptr old_size new_size = Ret (true, p') /\ page_inv p' L' /\
     page_taken p L p' L' (ptr + page_bytes old_size) (ptr + page_bytes new_size)) \/
  try_grow_inplace ARENA_SIZE p node_id ptr old_size new_size = Ret (false, p).
Proof using KernelSpec0. by apply grow_inplace_ok. Qed.

(** C17: in a process, from a freshly initialised page allocator every sequence of
    allocations and growths on any nodes runs to its end, and no byte is handed out
    twice. *)
Theorem page_ops_disjoint (k : K) (node_count : Z) (ops : list PageOp)
    (Hk : mapped k VSYSCALL) (Hcount : node_count <= 2 ^ 16) (Htable : it_arenas (pg_inner (init (PageAllocator_new k) node_count)) <> None)
    (Hops : Forall page_op_ok ops) :
  exists out p', page_ops ([], init (PageAllocator_new k) node_count) ops = Ret (out, p') /\
    (forall y i j b b', out !! i = Some b -> out !! j = Some b' -> piece y b -> piece y b' -> i = j) /\
    (forall y b, b ∈ out -> piece y b -> mapped (pg_kern p') y).
Proof using Harena KernelSpec0.
  destruct (init_ok k node_count Hk Hcount) as [[Hi _]|]; [|done].
  destruct (page_ops_inv ops [] _ _ Hi) as (out & p' & L' & Hrun & _ & [O1 O2]); [|done|].
  - constructor; [intros y i j b b' Hb; by rewrite lookup_nil in Hb|by intros y b ?%not_elem_of_nil].
  - exists out, p'. split; [done|]. split; [done|]. intros y b Hb Hy. by destruct (O2 y b Hb Hy).
Qed.
End Spec.

(** ** Witnesses *)

Definition page_demo : PageAllocator BumpKernel.state := init (PageAllocator_new BumpKernel.empty) 2.

Lemma page_demo_table : it_arenas (pg_inner page_demo) <> None.
Proof. by vm_compute. Qed.

Lemma page_demo_inv : page_inv page_demo (fun _ => []).
Proof.
  destruct (init_ok BumpKernel.empty 2 BumpKernel.empty_process ltac:(lia)) as [[H _]|H]; [done|]. by destruct page_demo_table.
Qed.

Lemma page_alloc_fresh_witness :
  page_alloc_result page_demo (fun _ => []) (page_bytes 5000) (alloc ARENA_SIZE_default page_demo 1 5000).
Proof. apply (page_alloc_fresh ARENA_SIZE_default ltac:(by vm_compute) page_demo _ 1 5000 page_demo_inv); lia. Defined.

Lemma page_grow_inplace_safe_witness :
  try_grow_inplace ARENA_SIZE_default page_demo 0 65536 4096 9000 = Ret (false, page_demo).
Proof.
  destruct (page_grow_inplace_safe ARENA_SIZE_default page_demo _ 0 65536 4096 9000 page_demo_inv ltac:(lia) ltac:(lia) ltac:(lia))
    as [(p' & L' & H & _)|H]; [|exact H]. vm_compute in H. discriminate H.
Defined.

Lemma page_ops_disjoint_witness :
  exists out p', page_ops ARENA_SIZE_default ([], page_demo) [PAlloc 0 5000; PGrow 0 73728 5000 70000; PAlloc 9 1; PAlloc 1 300000000] = Ret (out, p').
Proof.
  destruct (page_ops_disjoint ARENA_SIZE_default ltac:(by vm_compute) BumpKernel.empty 2
    [PAlloc 0 5000; PGrow 0 73728 5000 70000; PAlloc 9 1; PAlloc 1 300000000] BumpKernel.empty_process ltac:(lia) page_demo_table
    ltac:(repeat constructor; lia)) as (out & p' & H & _). eauto.
Defined.
