(* ===== verification/Numa.v ===== *)
(** * NUMA topology (src/internals/numa_parser.rs)

    The lists of numbers in /sys/devices/system/node are parsed by two iterators,
    one of ranges and one of numbers; the topology maps each CPU to a node and
    each node to the span of its CPUs.  Bytes are integers of 8 bits; the files
    are a parameter, what one read of a path returns. *)

From S2P Require Import Prelude Types Kernel.

Definition INVALID_NODE : Z := 65535.

Record NumaCpuRange := mkNumaCpuRange { cr_node_id : Z; cr_start_cpu : Z; cr_end_cpu : Z }.

(** [size_of::<NumaCpuRange>()]. *)
Definition NumaCpuRange_SIZE : Z := size_of_repr_C 8 [2; 8; 8].

(** The arrays stand for the pointers to them. *)
Record NumaTopology := mkNumaTopology {
  cpu_to_node : list Z;
  ncpu : Z;
  node_ids : list Z;
  nnodes : Z;
  cpu_ranges : list NumaCpuRange;
  nranges : Z;
}.

(** ** Ranges of numbers *)

Record NumberRange := mkNumberRange { range_start : Z; range_end : Z }.

#[export] Instance NumberRange_eq_dec : EqDecision NumberRange.
Proof. solve_decision. Defined.

Definition NumberRange_new (start end_ : Z) : option NumberRange :=
  if start <=? end_ then Some (mkNumberRange start end_) else None.

Record NumberRangeIter := mkNumberRangeIter { it_next : Z; it_end : Z; it_finished : bool }.

Definition range_iter (r : NumberRange) : NumberRangeIter :=
  mkNumberRangeIter (range_start r) (range_end r) false.

Definition NumberRangeIter_next (it : NumberRangeIter) : option Z * NumberRangeIter :=
  if it_finished it then (None, it)
  else
    let item := it_next it in
    let finished := item =? it_end it in
    let next := if negb finished then wadd (it_next it) 1 else it_next it in
    (Some item, mkNumberRangeIter next (it_end it) finished).

(** ** The iterator of ranges *)

Record NumberRangeList := mkNumberRangeList { rl_bytes : list Z; rl_index : nat; rl_finished : bool }.

Definition NumberRangeList_new (bytes : list Z) : NumberRangeList := mkNumberRangeList bytes 0 false.

Definition is_ascii_whitespace (b : Z) : bool := (b =? 32) || (b =? 9) || (b =? 10) || (b =? 12) || (b =? 13).

Definition is_ascii_digit (b : Z) : bool := (48 <=? b) && (b <=? 57).

Fixpoint skip_loop (fuel : nat) (bytes : list Z) (index : nat) : nat :=
  match fuel with
  | O => index
  | S fuel' =>
      match bytes !! index with
      | Some b => if is_ascii_whitespace b then skip_loop fuel' bytes (S index) else index
      | None => index
      end
  end.

(** Every iteration moves on, so the length of the input is enough fuel. *)
Definition skip_ascii_whitespace (bytes : list Z) (index : nat) : nat := skip_loop (length bytes) bytes index.

(** The number so far, whether there was a digit, and the index; [None] is an
    overflow. *)
Fixpoint usize_loop (fuel : nat) (bytes : list Z) (index : nat) (n : Z) (parsed_digit : bool) : option (Z * bool) * nat :=
  match fuel with
  | O => (Some (n, parsed_digit), index)
  | S fuel' =>
      match bytes !! index with
      | Some b =>
          if is_ascii_digit b then
            match (m ← checked_mul n 10; checked_add m (b - 48)) with
            | Some n => usize_loop fuel' bytes (S index) n true
            | None => (None, index)
            end
          else (Some (n, parsed_digit), index)
      | None => (Some (n, parsed_digit), index)
      end
  end.

Definition parse_usize (bytes : list Z) (index : nat) : option Z * nat :=
  match usize_loop (length bytes) bytes index 0 false with
  | (Some (n, true), index) => (Some n, index)
  | (_, index) => (None, index)
  end.

Inductive ParseResult (A : Type) := Ok (a : A) | ParseListError.
Arguments Ok {A}.
Arguments ParseListError {A}.

(** The end of [parse_range]: the separator after the numbers. *)
Definition parse_separator (bytes : list Z) (index : nat) (start end_ : Z) : ParseResult (option NumberRange) * nat :=
  let index := skip_ascii_whitespace bytes index in
  let finish index :=
    match NumberRange_new start end_ with
    | Some r => (Ok (Some r), index)
    | None => (ParseListError, index)
    end in
  match bytes !! index with
  | Some b =>
      if b =? 44 then
        let index := S index in
        let index := skip_ascii_whitespace bytes index in
        if (length bytes <=? index)%nat then (ParseListError, index) else finish index
      else (ParseListError, index)
  | None => finish index
  end.

Definition parse_range (bytes : list Z) (index : nat) : ParseResult (option NumberRange) * nat :=
  let index := skip_ascii_whitespace bytes index in
  if (length bytes <=? index)%nat then (Ok None, index)
  else
    match parse_usize bytes index with
    | (None, index) => (ParseListError, index)
    | (Some start, index) =>
        let index := skip_ascii_whitespace bytes index in
        let '(end_, index) :=
          if bool_decide (bytes !! index = Some 45) then
            let index := S index in
            let index := skip_ascii_whitespace bytes index in
            parse_usize bytes index
          else (Some start, index) in
        match end_ with
        | None => (ParseListError, index)
        | Some end_ => parse_separator bytes index start end_
        end
    end.

Definition NumberRangeList_next (l : NumberRangeList) : option (ParseResult NumberRange) * NumberRangeList :=
  if rl_finished l then (None, l)
  else
    match parse_range (rl_bytes l) (rl_index l) with
    | (Ok (Some range), index) => (Some (Ok range), mkNumberRangeList (rl_bytes l) index false)
    | (Ok None, index) => (None, mkNumberRangeList (rl_bytes l) index true)
    | (ParseListError, index) => (Some ParseListError, mkNumberRangeList (rl_bytes l) index true)
    end.

(** ** The iterator of numbers *)

Record NumberList := mkNumberList { nl_ranges : NumberRangeList; nl_pending : option NumberRangeIter }.

Definition NumberList_new (bytes : list Z) : NumberList := mkNumberList (NumberRangeList_new bytes) None.

(** The item of a pending range, if there is one left. *)
Definition pending_next (l : NumberList) : option Z * NumberList :=
  match nl_pending l with
  | Some it => let '(item, it) := NumberRangeIter_next it in (item, mkNumberList (nl_ranges l) (Some it))
  | None => (None, l)
  end.

Definition NumberList_next (l : NumberList) : outcome (option (ParseResult Z) * NumberList) :=
  match pending_next l with
  | (Some item, l) => Ret (Some (Ok item), l)
  | (None, l) =>
      match NumberRangeList_next (nl_ranges l) with
      | (None, rs) => Ret (None, mkNumberList rs None)
      | (Some (Ok range), rs) =>
          match NumberRangeIter_next (range_iter range) with
          | (Some item, it) => Ret (Some (Ok item), mkNumberList rs (Some it))
          | (None, _) => Stuck
          end
      | (Some ParseListError, rs) => Ret (Some ParseListError, mkNumberList rs None)
      end
  end.

Definition parse_number_ranges (bytes : list Z) : NumberRangeList := NumberRangeList_new bytes.

Definition parse_number_list (bytes : list Z) : NumberList := NumberList_new bytes.

(** All ranges of a list, as [collect] into a [Result] gives them: [None] is the
    error.  Each range takes at least one byte. *)
Fixpoint collect_ranges (fuel : nat) (l : NumberRangeList) : outcome (option (list NumberRange)) :=
  match fuel with
  | O => Stuck
  | S fuel' =>
      match NumberRangeList_next l with
      | (None, _) => Ret (Some [])
      | (Some ParseListError, _) => Ret None
      | (Some (Ok r), l) => rs ← collect_ranges fuel' l; Ret (rs ← rs; Some (r :: rs))
      end
  end.

Definition all_ranges (bytes : list Z) : outcome (option (list NumberRange)) :=
  collect_ranges (S (length bytes)) (parse_number_ranges bytes).

(** ** Decimal paths *)

Definition PREFIX : list Z :=
  [47; 115; 121; 115; 47; 100; 101; 118; 105; 99; 101; 115; 47; 115; 121; 115; 116; 101; 109; 47; 110; 111; 100; 101; 47; 110; 111; 100; 101].

Definition SUFFIX : list Z := [47; 99; 112; 117; 108; 105; 115; 116].

(** [*buf.get_mut(i)? = b; i += 1] over a list of bytes. *)
Fixpoint put_bytes (bs : list Z) (buf : list Z) (i : nat) : option (list Z * nat) :=
  match bs with
  | [] => Some (buf, i)
  | b :: bs => if (i <? length buf)%nat then put_bytes bs (<[i := b]> buf) (S i) else None
  end.

(** The digits of [n], least first; 20 digits hold every [usize]. *)
Fixpoint digits_loop (fuel : nat) (n : Z) : list Z :=
  match fuel with
  | O => []
  | S fuel' => if 0 <? n then (48 + n mod 10) :: digits_loop fuel' (n / 10) else []
  end.

Definition digits (n : Z) : list Z := if n =? 0 then [48] else digits_loop 20 n.

Definition format_node_cpulist_path (node : Z) (buf : list Z) : option (list Z) :=
  '(buf, i) ← put_bytes PREFIX buf 0;
  '(buf, i) ← put_bytes (rev (digits node)) buf i;
  '(buf, i) ← put_bytes SUFFIX buf i;
  Some (take i buf).

(** ** Topology *)

Definition clipped_cpu_range (range : NumberRange) (ncpu : Z) : option NumberRange :=
  if (ncpu =? 0) || (ncpu <=? range_start range) then None
  else Some (mkNumberRange (range_start range) (Z.min (range_end range) (ncpu - 1))).

(** A write through a pointer to an array; out of bounds is undefined. *)
Definition write_at {A} (l : list A) (i : nat) (v : A) : outcome (list A) :=
  if (i <? length l)%nat then Ret (<[i := v]> l) else Stuck.

(** [for cpu in range.iter()]. *)
Fixpoint mark_cpus (fuel : nat) (it : NumberRangeIter) (node : Z) (cpus : list Z) : outcome (list Z) :=
  match fuel with
  | O => Stuck
  | S fuel' =>
      match NumberRangeIter_next it with
      | (None, _) => Ret cpus
      | (Some cpu, it) => cpus ← write_at cpus (Z.to_nat cpu) node; mark_cpus fuel' it node cpus
      end
  end.

(** [for range in parse_number_ranges(..)] for one node; [None] is the early
    return on a malformed list. *)
Fixpoint mark_ranges (fuel : nat) (l : NumberRangeList) (ncpu node : Z) (cpus : list Z) : outcome (option (list Z)) :=
  match fuel with
  | O => Stuck
  | S fuel' =>
      match NumberRangeList_next l with
      | (None, _) => Ret (Some cpus)
      | (Some ParseListError, _) => Ret None
      | (Some (Ok range), l) =>
          match clipped_cpu_range range ncpu with
          | None => mark_ranges fuel' l ncpu node cpus
          | Some r =>
              cpus ← mark_cpus (Z.to_nat (ncpu + 1)) (range_iter r) node cpus;
              mark_ranges fuel' l ncpu node cpus
          end
      end
  end.

(** The first loop of [populate_cpu_ranges]. *)
Fixpoint assign_cpus (n : nat) (cpu : nat) (cpus : list Z) (ranges : list NumaCpuRange) (nranges : Z) :
    outcome (list Z * list NumaCpuRange) :=
  match n with
  | O => Ret (cpus, ranges)
  | S n' =>
      c ← from_option (cpus !! cpu);
      let c := if (c =? INVALID_NODE) || (nranges <=? c) then 0 else c in
      let cpus := <[cpu := c]> cpus in
      range ← from_option (ranges !! Z.to_nat c);
      let start := if cr_start_cpu range =? usize_max then Z.of_nat cpu else cr_start_cpu range in
      let ranges := <[Z.to_nat c := mkNumaCpuRange (cr_node_id range) start (Z.of_nat cpu)]> ranges in
      assign_cpus n' (S cpu) cpus ranges nranges
  end.

(** The second: nodes without CPUs get an empty span. *)
Definition close_range (r : NumaCpuRange) : NumaCpuRange :=
  if cr_start_cpu r =? usize_max then mkNumaCpuRange (cr_node_id r) 1 0 else r.

Definition populate_cpu_ranges (cpus : list Z) (ncpu : Z) (ranges : list NumaCpuRange) (nranges : Z) :
    outcome (list Z * list NumaCpuRange) :=
  '(cpus, ranges) ← assign_cpus (Z.to_nat ncpu) 0 cpus ranges nranges;
  Ret (cpus, map close_range ranges).

Section Topology.
Context {K : Type} `{!Kernel K}.

(** What one read of the file at a path returns; [None] if it cannot be opened
    or read. *)
Context (read_file_stack : list Z -> option (list Z)).

Definition ONLINE_PATH : list Z :=
  [47; 115; 121; 115; 47; 100; 101; 118; 105; 99; 101; 115; 47; 115; 121; 115; 116; 101; 109; 47; 110; 111; 100; 101; 47; 111; 110; 108; 105; 110; 101].

(** A zeroed array of [count] elements of [elt_size] bytes. *)
Definition mmap_array {A} (zero : A) (elt_size count : Z) (k : K) : option (list A) * K :=
  if count =? 0 then (Some [], k)
  else
    match checked_mul count elt_size with
    | None => (None, k)
    | Some bytes =>
        match mmap_anonymous bytes k with
        | (Some _, k) => (Some (replicate (Z.to_nat count) zero), k)
        | (None, k) => (None, k)
        end
    end.

Definition init_cpu_to_node (cpus : list Z) (ncpu node : Z) : list Z :=
  foldl (fun cpus cpu => <[cpu := node]> cpus) cpus (seq 0 (Z.to_nat ncpu)).

Definition zero_range : NumaCpuRange := mkNumaCpuRange 0 0 0.

Definition single_node_topology (ncpu : Z) (k : K) : option NumaTopology * K :=
  match mmap_array 0 2 ncpu k with
  | (None, k) => (None, k)
  | (Some cpus, k) =>
      let cpus := init_cpu_to_node cpus ncpu 0 in
      match mmap_array 0 2 1 k with
      | (None, k) => (None, k)
      | (Some ids, k) =>
          let ids := <[0%nat := 0]> ids in
          let nranges := 1 in
          match mmap_array zero_range NumaCpuRange_SIZE nranges k with
          | (None, k) => (None, k)
          | (Some ranges, k) =>
              let ranges := <[0%nat := mkNumaCpuRange 0 0 (saturating_sub ncpu 1)]> ranges in
              (Some (mkNumaTopology cpus ncpu ids 1 ranges nranges), k)
          end
      end
  end.

(** The first pass over the online nodes: how many fit in a [u16]. *)
Fixpoint count_nodes (fuel : nat) (l : NumberList) (nnodes : Z) : outcome (option Z) :=
  match fuel with
  | O => Stuck
  | S fuel' =>
      '(item, l) ← NumberList_next l;
      match item with
      | None => Ret (Some nnodes)
      | Some ParseListError => Ret None
      | Some (Ok node) => count_nodes fuel' l (if node <? 65536 then nnodes + 1 else nnodes)
      end
  end.

(** The second: write them down. *)
Fixpoint fill_nodes (fuel : nat) (l : NumberList) (ids : list Z) (node_index : nat) (max_node : Z) :
    outcome (option (list Z * Z)) :=
  match fuel with
  | O => Stuck
  | S fuel' =>
      '(item, l) ← NumberList_next l;
      match item with
      | None => Ret (Some (ids, max_node))
      | Some ParseListError => Ret None
      | Some (Ok node) =>
          if node <? 65536 then
            ids ← write_at ids node_index node;
            fill_nodes fuel' l ids (S node_index) (Z.max max_node node)
          else fill_nodes fuel' l ids node_index max_node
      end
  end.

(** Enough iterations for all numbers of the ranges up to the end or an error. *)
Fixpoint items_bound (n : nat) (l : NumberRangeList) : nat :=
  match n with
  | O => 1
  | S n' =>
      match NumberRangeList_next l with
      | (Some (Ok r), l) => Z.to_nat (range_end r - range_start r + 1) + items_bound n' l
      | _ => 1
      end
  end%nat.

Definition list_fuel (bytes : list Z) : nat := items_bound (S (length bytes)) (parse_number_ranges bytes).

(** [for i in 0..nnodes]: read the CPU list of each node. *)
Fixpoint read_nodes (ids : list Z) (ncpu : Z) (cpus : list Z) : outcome (option (list Z)) :=
  match ids with
  | [] => Ret (Some cpus)
  | node :: ids =>
      match format_node_cpulist_path node (replicate 128 0) with
      | None => Ret None
      | Some path =>
          match read_file_stack path with
          | None => Ret None
          | Some content =>
              res ← mark_ranges (S (length content)) (parse_number_ranges content) ncpu node cpus;
              match res with
              | None => Ret None
              | Some cpus => read_nodes ids ncpu cpus
              end
          end
      end
  end.

Definition parse_numa_topology (ncpu : Z) (k : K) : outcome (option NumaTopology * K) :=
  match read_file_stack ONLINE_PATH with
  | None => Ret (single_node_topology ncpu k)
  | Some online_nodes =>
      res ← count_nodes (list_fuel online_nodes) (parse_number_list online_nodes) 0;
      match res with
      | None => Ret (None, k)
      | Some nnodes =>
          if nnodes =? 0 then Ret (single_node_topology ncpu k)
          else
            match mmap_array 0 2 ncpu k with
            | (None, k) => Ret (None, k)
            | (Some cpus, k) =>
                let cpus := init_cpu_to_node cpus ncpu INVALID_NODE in
                match mmap_array 0 2 nnodes k with
                | (None, k) => Ret (None, k)
                | (Some ids, k) =>
                    res ← fill_nodes (list_fuel online_nodes) (parse_number_list online_nodes) ids 0 0;
                    match res with
                    | None => Ret (None, k)
                    | Some (ids, max_node) =>
                        let nranges := max_node + 1 in
                        match mmap_array zero_range NumaCpuRange_SIZE nranges k with
                        | (None, k) => Ret (None, k)
                        | (Some ranges, k) =>
                            let ranges := imap (fun node _ => mkNumaCpuRange (wrap 16 (Z.of_nat node)) usize_max 0) ranges in
                            res ← read_nodes ids ncpu cpus;
                            match res with
                            | None => Ret (None, k)
                            | Some cpus =>
                                '(cpus, ranges) ← populate_cpu_ranges cpus ncpu ranges nranges;
                                Ret (Some (mkNumaTopology cpus ncpu ids nnodes ranges nranges), k)
                            end
                        end
                    end
                end
            end
      end
  end.
End Topology.
