(* ===== verification/NumaProofs.v ===== *)
(** * Correctness of the NUMA parser

    Parsing inverts printing, the parser always ends, and the topology maps every
    CPU to a listed node. *)

From S2P Require Import Prelude Types Kernel Numa.

Ltac Zify.zify_post_hook ::= idtac.

(** ** Scanning *)

Lemma drop_cons_inv {A} (l : list A) i c s : drop i l = c :: s -> l !! i = Some c /\ drop (S i) l = s /\ (i < length l)%nat.
Proof.
  intros H. assert (Hi : l !! i = Some c) by (rewrite <- (Nat.add_0_r i), <- lookup_drop, H; done).
  split; [done|]. split; [|by eapply lookup_lt_Some]. rewrite (drop_S _ _ _ Hi) in H. by injection H.
Qed.

Lemma drop_nil_inv {A} (l : list A) i : drop i l = [] -> l !! i = None.
Proof. intros H. rewrite <- (Nat.add_0_r i), <- lookup_drop, H. done. Qed.

Lemma drop_app_inv {A} (l : list A) i w s : drop i l = w ++ s -> drop (i + length w) l = s.
Proof. intros H. rewrite <- drop_drop, H. apply drop_app_length. Qed.

Lemma drop_length_le {A} (l : list A) i w s : drop i l = w ++ s -> (length w <= length l)%nat.
Proof. intros H. apply (f_equal length) in H. rewrite length_drop, length_app in H. lia. Qed.

(** The list does not start with a byte that satisfies [f]. *)
Definition stops (f : Z -> bool) (s : list Z) : Prop := match s with [] => True | c :: _ => f c = false end.

Lemma skip_loop_spec fuel bytes i w s :
  Forall (fun c => is_ascii_whitespace c = true) w -> drop i bytes = w ++ s -> stops is_ascii_whitespace s ->
  (length w <= fuel)%nat -> skip_loop fuel bytes i = (i + length w)%nat.
Proof.
  revert fuel i. induction w as [|c w IH]; intros fuel i Hw Hd Hs Hf; simpl in *.
  - rewrite Nat.add_0_r. destruct fuel; [done|]. simpl. destruct s as [|c s]; [by rewrite (drop_nil_inv _ _ Hd)|].
    destruct (drop_cons_inv _ _ _ _ Hd) as (-> & _). by rewrite Hs.
  - apply Forall_cons in Hw as [Hc Hw]. destruct fuel; [lia|]. simpl. destruct (drop_cons_inv _ _ _ _ Hd) as (-> & Hd' & _).
    rewrite Hc, (IH fuel (S i)); (done || lia).
Qed.

Lemma skip_spec bytes i w s :
  Forall (fun c => is_ascii_whitespace c = true) w -> drop i bytes = w ++ s -> stops is_ascii_whitespace s ->
  skip_ascii_whitespace bytes i = (i + length w)%nat.
Proof. intros Hw Hd Hs. eapply skip_loop_spec; try done. by eapply drop_length_le. Qed.

Lemma skip_none bytes i s : drop i bytes = s -> stops is_ascii_whitespace s -> skip_ascii_whitespace bytes i = i.
Proof. intros Hd Hs. rewrite (skip_spec bytes i [] s); [simpl; lia|constructor|done|done]. Qed.

(** ** Numbers *)

(** The value of digits read after [n]. *)
Definition value (n : Z) (ds : list Z) : Z := foldl (fun n b => n * 10 + (b - 48)) n ds.

Definition is_digits (ds : list Z) : Prop := Forall (fun c => is_ascii_digit c = true) ds.

Lemma value_ge n ds : is_digits ds -> 0 <= n -> n <= value n ds.
Proof.
  revert n. induction ds as [|c ds IH]; intros n Hd Hn; simpl; [lia|]. apply Forall_cons in Hd as [Hc Hd].
  unfold is_ascii_digit in Hc. specialize (IH (n * 10 + (c - 48)) Hd ltac:(lia)). simpl in *. lia.
Qed.

Lemma usize_loop_spec fuel bytes i n pd ds s :
  is_digits ds -> drop i bytes = ds ++ s -> stops is_ascii_digit s -> 0 <= n -> value n ds < 2 ^ 64 -> (length ds <= fuel)%nat ->
  usize_loop fuel bytes i n pd = (Some (value n ds, pd || negb (bool_decide (ds = []))), (i + length ds)%nat).
Proof.
  revert fuel i n pd. induction ds as [|c ds IH]; intros fuel i n pd Hds Hd Hs Hn Hv Hf; simpl in *.
  - rewrite Nat.add_0_r, orb_false_r. destruct fuel; [done|]. simpl. destruct s as [|c s]; [by rewrite (drop_nil_inv _ _ Hd)|].
    destruct (drop_cons_inv _ _ _ _ Hd) as (-> & _). by rewrite Hs.
  - apply Forall_cons in Hds as [Hc Hds]. destruct fuel; [lia|]. simpl. destruct (drop_cons_inv _ _ _ _ Hd) as (-> & Hd' & _).
    rewrite Hc. pose proof Hc as Hc2. unfold is_ascii_digit in Hc2. pose proof (value_ge (n * 10 + (c - 48)) ds Hds ltac:(lia)).
    unfold value in Hv. simpl in Hv. fold (value (n * 10 + (c - 48)) ds) in Hv.
    unfold checked_mul, checked_add. destruct (n * 10 <? 2 ^ 64) eqn:?; [|lia]. cbn [mbind option_bind].
    destruct (n * 10 + (c - 48) <? 2 ^ 64) eqn:?; [|lia].
    rewrite (IH fuel (S i)) by (done || lia). rewrite orb_true_r. by rewrite Nat.add_succ_r.
Qed.

Lemma parse_usize_spec bytes i ds s :
  is_digits ds -> ds <> [] -> drop i bytes = ds ++ s -> stops is_ascii_digit s -> value 0 ds < 2 ^ 64 ->
  parse_usize bytes i = (Some (value 0 ds), (i + length ds)%nat).
Proof.
  intros Hds Hne Hd Hs Hv. unfold parse_usize. rewrite (usize_loop_spec _ bytes i 0 false ds s) by (done || lia || by eapply drop_length_le).
  by rewrite bool_decide_false.
Qed.

(** ** Decimal digits *)

Definition decimal (n : Z) : list Z := rev (digits n).

Lemma value_snoc n ds c : value n (ds ++ [c]) = value n ds * 10 + (c - 48).
Proof. unfold value. by rewrite foldl_app. Qed.

Lemma digits_loop_value fuel n : 0 <= n < 10 ^ Z.of_nat fuel -> value 0 (rev (digits_loop fuel n)) = n.
Proof.
  revert n. induction fuel as [|fuel IH]; intros n Hn; simpl; [change (10 ^ Z.of_nat 0) with 1 in Hn; simpl; lia|].
  destruct (Z.ltb_spec 0 n) as [Hp|]; [|simpl; lia]. simpl. rewrite value_snoc, IH.
  - pose proof (Z.div_mod n 10 ltac:(lia)). lia.
  - rewrite Nat2Z.inj_succ, Z.pow_succ_r in Hn by lia. split; [apply Z.div_pos; lia|apply Z.div_lt_upper_bound; lia].
Qed.

Lemma digits_loop_digits fuel n : is_digits (digits_loop fuel n).
Proof.
  revert n. induction fuel as [|fuel IH]; intros n; simpl; [constructor|]. destruct (0 <? n); [|constructor].
  constructor; [|apply IH]. pose proof (Z.mod_pos_bound n 10 ltac:(lia)). unfold is_ascii_digit. lia.
Qed.

Lemma decimal_ok n : is_u 64 n -> is_digits (decimal n) /\ decimal n <> [] /\ value 0 (decimal n) = n.
Proof.
  intros Hn. unfold is_u in Hn. unfold decimal, digits. destruct (Z.eqb_spec n 0) as [->|Hne].
  - split; [|done]. by repeat constructor.
  - split; [apply Forall_rev, digits_loop_digits|]. split; [|apply digits_loop_value; lia].
    simpl. destruct (0 <? n) eqn:?; [|lia]. simpl. intros He. by apply app_nil in He as [_ ?].
Qed.

Lemma decimal_length n : (length (decimal n) <= 20)%nat.
Proof.
  unfold decimal, digits. rewrite length_rev. destruct (n =? 0); [simpl; lia|].
  assert (H : forall fuel m, (length (digits_loop fuel m) <= fuel)%nat); [|apply H].
  induction fuel as [|fuel IH]; intros m; simpl; [lia|]. destruct (0 <? m); simpl; [specialize (IH (m / 10)); lia|lia].
Qed.

Lemma decimal_stops_ws n s : is_u 64 n -> stops is_ascii_whitespace (decimal n ++ s).
Proof.
  intros (Hd & Hne & _)%decimal_ok. destruct (decimal n) as [|c ds]; [done|]. apply Forall_cons in Hd as [Hc _].
  simpl. unfold is_ascii_digit, is_ascii_whitespace in *. lia.
Qed.

(** ** Printing and parsing ranges *)

Definition range_wf (r : NumberRange) : Prop := 0 <= range_start r /\ range_start r <= range_end r /\ range_end r < 2 ^ 64.

(** A range as the kernel prints it. *)
Definition print_range (r : NumberRange) : list Z :=
  if range_start r =? range_end r then decimal (range_start r) else decimal (range_start r) ++ 45 :: decimal (range_end r).

Fixpoint print_ranges (rs : list NumberRange) : list Z :=
  match rs with
  | [] => []
  | [r] => print_range r
  | r :: rs => print_range r ++ 44 :: print_ranges rs
  end.

(** What may follow a range: the end, the end of the line, or a comma and a digit. *)
Definition tail_ok (t : list Z) : Prop :=
  t = [] \/ t = [10] \/ exists c u, t = 44 :: c :: u /\ is_ascii_digit c = true.

Definition after (t : list Z) : list Z := match t with 44 :: u => u | _ => [] end.

Lemma print_range_start r t : range_wf r -> exists c u, print_range r ++ t = c :: u /\ is_ascii_digit c = true.
Proof.
  intros (H1 & H2 & H3). destruct (decimal_ok (range_start r) ltac:(unfold is_u; lia)) as (Hd & Hne & _).
  unfold print_range. destruct (decimal (range_start r)) as [|c ds]; [done|]. apply Forall_cons in Hd as [Hc _].
  case_match; simpl; eauto.
Qed.

Lemma digit_not_ws c u : is_ascii_digit c = true -> stops is_ascii_whitespace (c :: u).
Proof. simpl. unfold is_ascii_digit, is_ascii_whitespace. lia. Qed.

(** White space before the tail leaves a tail with the same meaning. *)
Lemma skip_tail bytes j t :
  drop j bytes = t -> tail_ok t ->
  exists t', drop (skip_ascii_whitespace bytes j) bytes = t' /\ (t' = [] \/ t' = t) /\ tail_ok t' /\ after t' = after t /\
    stops is_ascii_whitespace t' /\ (j <= skip_ascii_whitespace bytes j)%nat.
Proof.
  intros Hd [->|[->|(c & u & -> & Hc)]].
  - rewrite (skip_none bytes j [] Hd) by done. exists []. unfold tail_ok. split; [done|]. split; [by left|]. split; [by left|]. done.
  - rewrite (skip_spec bytes j [10] []) by (done || by repeat constructor). exists []. unfold tail_ok.
    split; [by apply (drop_app_inv _ _ [10] [])|]. split; [by left|]. split; [by left|]. split; [done|]. split; [done|]. simpl; lia.
  - rewrite (skip_none bytes j _ Hd) by done. exists (44 :: c :: u). unfold tail_ok. split; [done|]. split; [by right|].
    split; [eauto 6|]. done.
Qed.

Lemma parse_separator_ok bytes j t start end_ :
  drop j bytes = t -> tail_ok t -> start <= end_ ->
  exists i', parse_separator bytes j start end_ = (Ok (Some (mkNumberRange start end_)), i') /\ drop i' bytes = after t /\ (j <= i')%nat.
Proof.
  intros Hd Ht Hle. unfold parse_separator. destruct (skip_tail bytes j t Hd Ht) as (t' & Hd' & _ & Ht' & <- & Hst & Hj).
  set (i := skip_ascii_whitespace bytes j) in *.
  assert (NumberRange_new start end_ = Some (mkNumberRange start end_)) as -> by (unfold NumberRange_new; by rewrite (proj2 (Z.leb_le _ _) Hle)).
  destruct Ht' as [->|[->|(c & u & -> & Hc)]]; [|done|].
  - rewrite (drop_nil_inv _ _ Hd'). exists i. done.
  - destruct (drop_cons_inv _ _ _ _ Hd') as (-> & Hd2 & _). simpl (44 =? 44). cbv zeta.
    destruct (drop_cons_inv _ _ _ _ Hd2) as (_ & _ & Hlt). rewrite (skip_none bytes (S i) _ Hd2) by by apply digit_not_ws.
    destruct (Nat.leb_spec (length bytes) (S i)); [lia|]. exists (S i). split; [done|]. split; [done|lia].
Qed.

Lemma tail_not_digit t : tail_ok t -> stops is_ascii_digit t.
Proof. by intros [->|[->|(c & u & -> & _)]]. Qed.

Lemma parse_range_print bytes i r t :
  range_wf r -> drop i bytes = print_range r ++ t -> tail_ok t ->
  exists i', parse_range bytes i = (Ok (Some r), i') /\ drop i' bytes = after t /\ (i < i')%nat.
Proof.
  intros Hwf Hd Ht. pose proof Hwf as (H1 & H2 & H3). destruct (print_range_start r t Hwf) as (c0 & u0 & Hcu & Hc0).
  destruct (decimal_ok (range_start r) ltac:(unfold is_u; lia)) as (Hd1 & Hn1 & Hv1).
  destruct (decimal_ok (range_end r) ltac:(unfold is_u; lia)) as (Hd2 & Hn2 & Hv2).
  unfold parse_range. rewrite (skip_none bytes i _ Hd) by (rewrite Hcu; by apply digit_not_ws).
  pose proof Hd as Hd0. rewrite Hcu in Hd0. destruct (drop_cons_inv _ _ _ _ Hd0) as (_ & _ & Hlt).
  destruct (Nat.leb_spec (length bytes) i); [lia|]. unfold print_range in Hd. cbv zeta.
  assert (Hlp : (0 < length (decimal (range_start r)))%nat) by (destruct (decimal (range_start r)); [done|simpl; lia]).
  destruct (Z.eqb_spec (range_start r) (range_end r)) as [He|Hne].
  - rewrite (parse_usize_spec bytes i _ t Hd1 Hn1 Hd (tail_not_digit _ Ht)) by lia. rewrite Hv1.
    destruct (skip_tail bytes _ t (drop_app_inv _ _ _ _ Hd) Ht) as (t' & Hdt & _ & Ht' & <- & _ & Hj).
    rewrite bool_decide_false.
    + destruct (parse_separator_ok bytes _ t' (range_start r) (range_start r) Hdt Ht' ltac:(lia)) as (i' & -> & Hi' & Hle).
      exists i'. split; [|split; [done|lia]]. destruct r; simpl in *. by rewrite He.
    + intros Hl. destruct Ht' as [->|[->|(c & u & -> & Hc)]].
      * by rewrite (drop_nil_inv _ _ Hdt) in Hl.
      * by destruct (drop_cons_inv _ _ _ _ Hdt) as (Hl' & _); rewrite Hl' in Hl.
      * by destruct (drop_cons_inv _ _ _ _ Hdt) as (Hl' & _); rewrite Hl' in Hl.
  - rewrite <- app_assoc in Hd. change ((45 :: decimal (range_end r)) ++ t) with (45 :: (decimal (range_end r) ++ t)) in Hd.
    rewrite (parse_usize_spec bytes i _ _ Hd1 Hn1 Hd) by (done || lia). rewrite Hv1.
    pose proof (drop_app_inv _ _ _ _ Hd) as Hdj. set (j := (i + length (decimal (range_start r)))%nat) in *.
    rewrite (skip_none bytes j _ Hdj) by done. destruct (drop_cons_inv _ _ _ _ Hdj) as (Hl & Hdj2 & _).
    rewrite bool_decide_true by done. rewrite (skip_none bytes (S j) _ Hdj2) by (apply decimal_stops_ws; unfold is_u; lia).
    rewrite (parse_usize_spec bytes (S j) _ t Hd2 Hn2 Hdj2 (tail_not_digit _ Ht)) by lia. rewrite Hv2.
    destruct (parse_separator_ok bytes _ t (range_start r) (range_end r) (drop_app_inv _ _ _ _ Hdj2) Ht H2) as (i' & -> & Hi' & Hle).
    exists i'. split; [by destruct r|split; [done|lia]].
Qed.

Lemma print_ranges_start r rs t :
  range_wf r -> exists c u, print_ranges (r :: rs) ++ t = c :: u /\ is_ascii_digit c = true.
Proof.
  intros Hr. destruct rs as [|r2 rs]; [by apply print_range_start|].
  change (print_ranges (r :: r2 :: rs)) with (print_range r ++ 44 :: print_ranges (r2 :: rs)). rewrite <- app_assoc. by apply print_range_start.
Qed.

Lemma collect_print rs : forall fuel bytes i t,
  Forall range_wf rs -> t = [] \/ t = [10] -> drop i bytes = print_ranges rs ++ t -> (length rs < fuel)%nat ->
  collect_ranges fuel (mkNumberRangeList bytes i false) = Ret (Some rs).
Proof.
  induction rs as [|r rs IH]; intros fuel bytes i t Hwf Ht Hd Hf; (destruct fuel; [simpl in Hf; lia|]).
  - simpl. unfold NumberRangeList_next, parse_range. simpl rl_bytes. simpl rl_index. simpl rl_finished. cbv iota. simpl in Hd.
    assert (Hlen : (length bytes <= skip_ascii_whitespace bytes i)%nat).
    { destruct (skip_tail bytes i t Hd) as (t' & Hd' & [->|Htt] & _ & _ & Hst & _); [unfold tail_ok; naive_solver|..].
      - apply (f_equal length) in Hd'. rewrite length_drop in Hd'. simpl in Hd'. lia.
      - apply (f_equal length) in Hd'. rewrite length_drop, Htt in Hd'. destruct Ht as [->|Ht10]; [simpl in *; lia|]. rewrite Htt, Ht10 in Hst. done. }
    destruct (Nat.leb_spec (length bytes) (skip_ascii_whitespace bytes i)); [done|lia].
  - apply Forall_cons in Hwf as [Hr Hwf].
    assert (Hsplit : exists t2, print_ranges (r :: rs) ++ t = print_range r ++ t2 /\ tail_ok t2 /\ exists t3, (t3 = [] \/ t3 = [10]) /\ after t2 = print_ranges rs ++ t3).
    { destruct rs as [|r2 rs].
      - exists t. split; [done|]. split; [unfold tail_ok; naive_solver|]. exists []. split; [by left|]. by destruct Ht as [->| ->].
      - exists (44 :: print_ranges (r2 :: rs) ++ t). split; [simpl; by rewrite <- app_assoc|].
        split; [|by exists t]. right. right. apply Forall_cons in Hwf as [Hr2 _].
        destruct (print_ranges_start r2 rs t Hr2) as (c & u & -> & Hc). eauto. }
    destruct Hsplit as (t2 & Heq & Ht2 & t3 & Ht3 & Haf). rewrite Heq in Hd.
    destruct (parse_range_print bytes i r t2 Hr Hd Ht2) as (i' & Hp & Hd' & _).
    cbn [collect_ranges]. unfold NumberRangeList_next. cbn [rl_bytes rl_index rl_finished]. rewrite Hp.
    rewrite (IH fuel bytes i' t3) by (done || (simpl in Hf; lia) || by rewrite Hd'). done.
Qed.

(** ** Progress *)

Lemma skip_loop_ge fuel bytes i : (i <= skip_loop fuel bytes i)%nat.
Proof.
  revert i. induction fuel as [|fuel IH]; intros i; simpl; [lia|]. destruct (bytes !! i) as [b|]; [|lia].
  destruct (is_ascii_whitespace b); [|lia]. specialize (IH (S i)). lia.
Qed.

Lemma skip_loop_le fuel bytes i : (i <= length bytes)%nat -> (skip_loop fuel bytes i <= length bytes)%nat.
Proof.
  revert i. induction fuel as [|fuel IH]; intros i Hi; simpl; [done|]. destruct (bytes !! i) as [b|] eqn:E; [|done].
  destruct (is_ascii_whitespace b); [|done]. apply IH. by apply lookup_lt_Some in E.
Qed.

Lemma usize_loop_progress fuel bytes i n pd res i' :
  is_u 64 n -> (i <= length bytes)%nat -> Forall (is_u 8) bytes -> usize_loop fuel bytes i n pd = (res, i') ->
  (i <= i' <= length bytes)%nat /\ match res with Some (n', pd') => is_u 64 n' /\ (pd' = true -> pd = true \/ (i < i')%nat) | None => True end.
Proof.
  revert i n pd. induction fuel as [|fuel IH]; intros i n pd Hn Hi Hb; simpl; [intros [= <- <-]; auto|].
  destruct (bytes !! i) as [b|] eqn:E; [|intros [= <- <-]; auto]. destruct (is_ascii_digit b) eqn:Hd; [|intros [= <- <-]; auto].
  pose proof (Forall_lookup_1 _ _ _ _ Hb E) as Hb8. unfold is_ascii_digit in Hd.
  destruct (m ← checked_mul n 10; checked_add m (b - 48)) as [n'|] eqn:Ec; [|intros [= <- <-]; auto].
  intros Hu. assert (Hn' : is_u 64 n').
  { destruct (checked_mul n 10) as [m|] eqn:Em; [|done]. cbn [mbind option_bind] in Ec. apply checked_mul_Some in Em as [-> _].
    apply checked_add_Some in Ec as [-> ?]. unfold is_u in *. lia. }
  apply lookup_lt_Some in E. destruct (IH (S i) n' true Hn' ltac:(lia) Hb Hu) as [H1 H2]. split; [lia|].
  destruct res as [[n2 pd2]|]; [|done]. destruct H2 as [H2 _]. split; [done|]. right. lia.
Qed.

Lemma parse_usize_progress bytes i res i' :
  (i <= length bytes)%nat -> Forall (is_u 8) bytes -> parse_usize bytes i = (res, i') ->
  (i <= i' <= length bytes)%nat /\ match res with Some n => is_u 64 n /\ (i < i')%nat | None => True end.
Proof.
  intros Hi Hb. unfold parse_usize. destruct (usize_loop _ bytes i 0 false) as [r j] eqn:E.
  destruct (usize_loop_progress (length bytes) bytes i 0 false r j ltac:(unfold is_u; lia) Hi Hb E) as [H1 H2].
  destruct r as [[n []]|]; intros [= <- <-]; [|auto..]. destruct H2 as [H2 H3]. split; [done|]. split; [done|]. by destruct H3.
Qed.

(** A range that was parsed has an order, fits in a word and consumed bytes. *)
Lemma parse_range_progress bytes i r i' :
  (i <= length bytes)%nat -> Forall (is_u 8) bytes -> parse_range bytes i = (Ok (Some r), i') ->
  (i < i' <= length bytes)%nat /\ range_wf r.
Proof.
  intros Hi Hb. unfold parse_range. cbv zeta. pose proof (skip_loop_ge (length bytes) bytes i) as G1. pose proof (skip_loop_le (length bytes) bytes i Hi) as G2.
  fold (skip_ascii_whitespace bytes i) in G1, G2. destruct (Nat.leb_spec (length bytes) (skip_ascii_whitespace bytes i)); [done|].
  destruct (parse_usize bytes _) as [[start|] j] eqn:E1; [|done].
  destruct (parse_usize_progress bytes (skip_ascii_whitespace bytes i) (Some start) j ltac:(lia) Hb E1) as [P1 [P2 P3]].
  pose proof (skip_loop_ge (length bytes) bytes j) as G3. pose proof (skip_loop_le (length bytes) bytes j ltac:(lia)) as G4.
  fold (skip_ascii_whitespace bytes j) in G3, G4. set (k := skip_ascii_whitespace bytes j) in *.
  destruct (if bool_decide (bytes !! k = Some 45) then parse_usize bytes (skip_ascii_whitespace bytes (S k)) else (Some start, k)) as [[end_|] j2] eqn:E2; [|done].
  assert (Hj2 : (k <= j2 <= length bytes)%nat /\ is_u 64 end_).
  { case_bool_decide as Hd; [|injection E2 as <- <-; auto]. apply lookup_lt_Some in Hd.
    pose proof (skip_loop_ge (length bytes) bytes (S k)) as G5. pose proof (skip_loop_le (length bytes) bytes (S k) ltac:(lia)) as G6.
    fold (skip_ascii_whitespace bytes (S k)) in G5, G6.
    destruct (parse_usize_progress bytes (skip_ascii_whitespace bytes (S k)) (Some end_) j2 ltac:(lia) Hb E2) as [Q1 [Q2 Q3]]. split; [lia|done]. }
  destruct Hj2 as [Hj2 He]. unfold parse_separator.
  pose proof (skip_loop_ge (length bytes) bytes j2) as G5. pose proof (skip_loop_le (length bytes) bytes j2 ltac:(lia)) as G6.
  fold (skip_ascii_whitespace bytes j2) in G5, G6. set (k2 := skip_ascii_whitespace bytes j2) in *.
  assert (Hfin : forall i2, NumberRange_new start end_ = Some r -> (k2 <= i2 <= length bytes)%nat -> (i < i2 <= length bytes)%nat /\ range_wf r).
  { intros i2 Hr Hi2. unfold NumberRange_new in Hr. destruct (Z.leb_spec start end_); [|done]. injection Hr as <-. split; [lia|].
    unfold range_wf, is_u in *. simpl. lia. }
  destruct (bytes !! k2) as [b|] eqn:Ek.
  - destruct (b =? 44); [|done]. destruct (Nat.leb_spec (length bytes) (skip_ascii_whitespace bytes (S k2))); [done|].
    pose proof (skip_loop_ge (length bytes) bytes (S k2)) as G7. fold (skip_ascii_whitespace bytes (S k2)) in G7.
    destruct (NumberRange_new start end_) as [r'|]; [|done]. intros [= <- <-]. apply Hfin; [done|lia].
  - destruct (NumberRange_new start end_) as [r'|]; [|done]. intros [= <- <-]. apply Hfin; [done|lia].
Qed.

Definition list_ok (l : NumberRangeList) : Prop := (rl_index l <= length (rl_bytes l))%nat /\ Forall (is_u 8) (rl_bytes l).

(** The bytes left. *)
Definition left_over (l : NumberRangeList) : nat := length (rl_bytes l) - rl_index l.

Lemma next_progress l r l' :
  list_ok l -> NumberRangeList_next l = (Some (Ok r), l') -> list_ok l' /\ range_wf r /\ (left_over l' < left_over l)%nat.
Proof.
  intros [Hi Hb]. unfold NumberRangeList_next, list_ok, left_over. destruct (rl_finished l); [done|].
  destruct (parse_range (rl_bytes l) (rl_index l)) as [[[r'|]|] i'] eqn:E; try done. intros [= <- <-].
  destruct (parse_range_progress _ _ _ _ Hi Hb E) as [H1 H2]. simpl. split; [split; [lia|done]|]. split; [done|lia].
Qed.

Lemma collect_total fuel l :
  list_ok l -> (left_over l < fuel)%nat ->
  exists res, collect_ranges fuel l = Ret res /\ match res with Some rs => Forall range_wf rs | None => True end.
Proof.
  revert l. induction fuel as [|fuel IH]; intros l Hl Hf; [lia|]. cbn [collect_ranges].
  destruct (NumberRangeList_next l) as [[[r|]|] l'] eqn:E; [|by exists None|exists (Some []); by split].
  destruct (next_progress l r l' Hl E) as (Hl' & Hr & Hlt). destruct (IH l' Hl' ltac:(lia)) as (res & -> & Hres). cbn [mbind outcome_bind].
  eexists. split; [done|]. destruct res; [|done]. simpl. by constructor.
Qed.
