(* ===== verification/NumaSpec.v ===== *)
(** * The topology the parser builds

    Whatever the files hold, the tables are in bounds and well formed. *)

From S2P Require Import Prelude Types Kernel Numa NumaProofs.

Ltac Zify.zify_post_hook ::= idtac.

(** ** CPUs of a node *)

Definition in_range (j : Z) (r : NumberRange) : bool := (range_start r <=? j) && (j <=? range_end r).

Lemma write_at_ok {A} (l : list A) i v : (i < length l)%nat -> write_at l i v = Ret (<[i := v]> l).
Proof. intros H. unfold write_at. by apply Nat.ltb_lt in H as ->. Qed.

Lemma mark_cpus_ok fuel a e node cpus :
  0 <= a <= e -> e < Z.of_nat (length cpus) -> e < 2 ^ 63 -> (Z.to_nat (e - a) + 1 < fuel)%nat ->
  exists cpus', mark_cpus fuel (mkNumberRangeIter a e false) node cpus = Ret cpus' /\ length cpus' = length cpus /\
    forall j : nat, cpus' !! j = if (a <=? Z.of_nat j) && (Z.of_nat j <=? e) then Some node else cpus !! j.
Proof.
  revert a cpus. induction fuel as [|fuel IH]; intros a cpus Ha He Hb Hf; [lia|].
  cbn [mark_cpus]. unfold NumberRangeIter_next. cbn [it_finished it_next it_end]. rewrite write_at_ok by lia. cbn [mbind outcome_bind].
  destruct (Z.eqb_spec a e) as [->|Hne]; cbn [negb].
  - destruct fuel; [lia|]. cbn [mark_cpus]. unfold NumberRangeIter_next. cbn [it_finished]. eexists. split; [done|].
    split; [apply length_insert|]. intros j. destruct (decide (j = Z.to_nat e)) as [->|Hj].
    + rewrite list_lookup_insert_eq by lia. rewrite Z2Nat.id by lia. destruct ((e <=? _) && _) eqn:?; [done|lia].
    + rewrite list_lookup_insert_ne by done. destruct ((e <=? _) && _) eqn:?; [lia|done].
  - rewrite wadd_small by lia. destruct (IH (a + 1) (<[Z.to_nat a := node]> cpus)) as (cpus' & -> & Hl & Hj); rewrite ?length_insert; try lia.
    exists cpus'. split; [done|]. split; [by rewrite Hl, length_insert|]. intros j. rewrite Hj. destruct (decide (j = Z.to_nat a)) as [->|Hja].
    + rewrite Z2Nat.id by lia. destruct ((a + 1 <=? _) && _) eqn:?; [lia|]. rewrite list_lookup_insert_eq by lia. destruct ((a <=? _) && _) eqn:?; [done|lia].
    + rewrite list_lookup_insert_ne by done. destruct ((a + 1 <=? _) && _) eqn:?, ((a <=? _) && _) eqn:?; (done || lia).
Qed.

(** The map after the CPUs of the ranges [rs] were given to [node]. *)
Definition marked (cpus cpus' : list Z) (node : Z) (rs : list NumberRange) : Prop :=
  length cpus' = length cpus /\
  forall j : nat, (j < length cpus)%nat -> cpus' !! j = if existsb (in_range (Z.of_nat j)) rs then Some node else cpus !! j.

Lemma mark_ranges_ok fuel l node cpus :
  list_ok l -> (left_over l < fuel)%nat -> Z.of_nat (length cpus) < 2 ^ 63 ->
  match collect_ranges fuel l with
  | Ret (Some rs) => exists cpus', mark_ranges fuel l (Z.of_nat (length cpus)) node cpus = Ret (Some cpus') /\ marked cpus cpus' node rs
  | Ret None => mark_ranges fuel l (Z.of_nat (length cpus)) node cpus = Ret None
  | _ => False
  end.
Proof.
  revert l cpus. induction fuel as [|fuel IH]; intros l cpus Hl Hf Hb; [lia|]. cbn [collect_ranges mark_ranges].
  destruct (NumberRangeList_next l) as [[[r|]|] l'] eqn:E; [|done|by exists cpus].
  destruct (next_progress l r l' Hl E) as (Hl' & (R1 & R2 & R3) & Hlt). unfold clipped_cpu_range.
  destruct ((Z.of_nat (length cpus) =? 0) || (Z.of_nat (length cpus) <=? range_start r)) eqn:Hclip.
  - specialize (IH l' cpus Hl' ltac:(lia) Hb). destruct (collect_ranges fuel l') as [[rs|]| |]; cbn [mbind outcome_bind option_bind]; try done.
    destruct IH as (cpus' & Hrun & Hlen & Hm). exists cpus'. split; [done|]. split; [done|]. intros j Hj. rewrite (Hm j Hj). simpl.
    destruct (in_range (Z.of_nat j) r) eqn:Hin; [unfold in_range in Hin; lia|done].
  - destruct (mark_cpus_ok (Z.to_nat (Z.of_nat (length cpus) + 1)) (range_start r) (Z.min (range_end r) (Z.of_nat (length cpus) - 1)) node cpus)
      as (c1 & Hrun1 & Hlen1 & Hm1); try lia. unfold range_iter. cbn [range_start range_end]. rewrite Hrun1. cbn [mbind outcome_bind].
    rewrite <- Hlen1 in *. specialize (IH l' c1 Hl' ltac:(lia) Hb).
    destruct (collect_ranges fuel l') as [[rs|]| |]; cbn [mbind outcome_bind option_bind]; try done.
    destruct IH as (cpus' & Hrun & Hlen & Hm). exists cpus'. split; [done|]. split; [congruence|]. intros j Hj. rewrite (Hm j) by lia. simpl.
    destruct (existsb (in_range (Z.of_nat j)) rs); [by rewrite orb_true_r|]. rewrite orb_false_r, Hm1. unfold in_range.
    destruct ((range_start r <=? Z.of_nat j) && (Z.of_nat j <=? Z.min _ _)) eqn:?, ((range_start r <=? Z.of_nat j) && (Z.of_nat j <=? range_end r)) eqn:?; (done || lia).
Qed.

(** ** The online nodes *)

Definition iter_ok (it : NumberRangeIter) : Prop := 0 <= it_next it <= it_end it /\ it_end it < 2 ^ 64.

Definition numbers_ok (l : NumberList) : Prop :=
  list_ok (nl_ranges l) /\ match nl_pending l with Some it => iter_ok it | None => True end.

(** Items left in the pending range. *)
Definition pending_left (l : NumberList) : nat :=
  match nl_pending l with
  | Some it => if it_finished it then 0 else Z.to_nat (it_end it - it_next it + 1)
  | None => 0
  end.

(** The numbers of ranges in their order, and those that are online: node numbers are
    16 bits wide. *)
Definition numbers (rs : list NumberRange) : list Z := rs ≫= fun r => seqZ (range_start r) (range_end r - range_start r + 1).

Definition online_ids (rs : list NumberRange) : list Z := filter (fun v => v < 65536) (numbers rs).

Definition pending_items (l : NumberList) : list Z :=
  match nl_pending l with
  | Some it => if it_finished it then [] else seqZ (it_next it) (it_end it - it_next it + 1)
  | None => []
  end.

(** What the iterator of numbers still gives, [None] if it comes to an error; [n] bounds
    the ranges to come. *)
Definition to_come (n : nat) (l : NumberList) : option (list Z) :=
  match collect_ranges n (nl_ranges l) with Ret (Some rs) => Some (pending_items l ++ numbers rs) | _ => None end.

(** Items left, given that [n] bounds the ranges to come. *)
Definition items_left (n : nat) (l : NumberList) : nat := pending_left l + items_bound n (nl_ranges l).

Lemma iter_next_ok it :
  iter_ok it ->
  match NumberRangeIter_next it with
  | (Some item, it') => it_finished it = false /\ item = it_next it /\ iter_ok it' /\ it_end it' = it_end it /\
      (if it_finished it' then item = it_end it else it_next it' = item + 1)
  | (None, it') => it_finished it = true /\ it' = it
  end.
Proof.
  intros [H1 H2]. unfold NumberRangeIter_next, iter_ok. destruct (it_finished it) eqn:Hf; [done|]. simpl.
  destruct (Z.eqb_spec (it_next it) (it_end it)); simpl; [done|]. rewrite wadd_small by lia. repeat split; lia.
Qed.

(** The numbers of a range from its first on. *)
Lemma iter_items a e it' : a <= e -> it_end it' = e -> (if it_finished it' then a = e else it_next it' = a + 1) ->
  seqZ a (e - a + 1) = a :: if it_finished it' then [] else seqZ (it_next it') (it_end it' - it_next it' + 1).
Proof.
  intros Ha -> Hn. rewrite seqZ_cons by lia. f_equal. change (Z.succ a) with (a + 1). destruct (it_finished it'); [subst; by rewrite seqZ_nil by lia|]. rewrite Hn. f_equal. lia.
Qed.

(** One step of the iterator of numbers. *)
Lemma number_next n l :
  numbers_ok l -> (left_over (nl_ranges l) < n)%nat ->
  exists item l', NumberList_next l = Ret (item, l') /\
    match item with
    | Some (Ok v) => 0 <= v /\ numbers_ok l' /\ exists n', (left_over (nl_ranges l') < n')%nat /\ (items_left n' l' < items_left n l)%nat /\ to_come n l = cons v <$> to_come n' l'
    | Some ParseListError => to_come n l = None
    | None => to_come n l = Some []
    end.
Proof.
  intros [Hl Hp] Hn. unfold NumberList_next, pending_next.
  assert (Hranges : forall l0, nl_ranges l0 = nl_ranges l -> pending_left l = 0%nat -> pending_items l = [] -> exists item l',
    match NumberRangeList_next (nl_ranges l0) with
    | (None, rs) => Ret (None, mkNumberList rs None)
    | (Some (Ok range), rs) =>
        match NumberRangeIter_next (range_iter range) with
        | (Some item, it) => Ret (Some (Ok item), mkNumberList rs (Some it))
        | (None, _) => Stuck
        end
    | (Some ParseListError, rs) => Ret (Some ParseListError, mkNumberList rs None)
    end = Ret (item, l') /\
    match item with
    | Some (Ok v) => 0 <= v /\ numbers_ok l' /\ exists n', (left_over (nl_ranges l') < n')%nat /\ (items_left n' l' < items_left n l)%nat /\ to_come n l = cons v <$> to_come n' l'
    | Some ParseListError => to_come n l = None
    | None => to_come n l = Some []
    end).
  { intros l0 -> Hp0 Hpi. destruct n as [|n]; [lia|]. destruct (NumberRangeList_next (nl_ranges l)) as [[[r|]|] rs] eqn:E; [|eexists _, _; (split; [done|]); unfold to_come; cbn [collect_ranges]; by rewrite E, ?Hpi..].
    destruct (next_progress _ _ _ Hl E) as (Hl' & (R1 & R2 & R3) & Hlt).
    pose proof (iter_next_ok (range_iter r) ltac:(unfold iter_ok; simpl; lia)) as Hit.
    destruct (NumberRangeIter_next (range_iter r)) as [[item|] it]; [|by destruct Hit].
    destruct Hit as (_ & -> & Hio & He & Hnx). simpl in He, Hnx. eexists _, _. split; [done|]. split; [done|]. split; [done|].
    exists n. simpl. split; [lia|]. split.
    - unfold items_left. rewrite Hp0. unfold pending_left. cbn [nl_pending nl_ranges items_bound]. rewrite E. destruct (it_finished it); lia.
    - unfold to_come. cbn [collect_ranges]. rewrite E, Hpi. cbn [nl_ranges]. destruct (collect_ranges n rs) as [[rg|]| |]; cbn [mbind outcome_bind option_bind]; [|done..]. cbn [fmap option_fmap option_map]. f_equal.
      unfold pending_items. cbn [nl_pending app]. unfold numbers. rewrite bind_cons. fold (numbers rg). rewrite app_comm_cons. f_equal. by apply iter_items. }
  destruct (nl_pending l) as [it|] eqn:Hpe; [|apply Hranges; [done|unfold pending_left; by rewrite Hpe|unfold pending_items; by rewrite Hpe]].
  pose proof (iter_next_ok it Hp) as Hit. destruct (NumberRangeIter_next it) as [[item|] it'].
  - destruct Hit as (Hf & -> & Hio & He & Hnx). eexists _, _. split; [done|]. split; [destruct Hp; lia|]. split; [done|].
    exists n. split; [done|]. split.
    + unfold items_left, pending_left. simpl. rewrite Hpe, Hf. destruct Hp. destruct (it_finished it'); lia.
    + unfold to_come, pending_items. cbn [nl_ranges nl_pending]. rewrite Hpe, Hf. destruct (collect_ranges n (nl_ranges l)) as [[rg|]| |]; [|done..]. cbn [fmap option_fmap option_map]. f_equal.
      rewrite app_comm_cons. f_equal. apply iter_items; [destruct Hp; lia|done|done].
  - destruct Hit as [Hf ->]. apply Hranges; [done| |]; [unfold pending_left|unfold pending_items]; by rewrite Hpe, Hf.
Qed.

Lemma items_left_pos n l : (0 < items_left n l)%nat.
Proof.
  unfold items_left. assert (0 < items_bound n (nl_ranges l))%nat; [|lia].
  generalize (nl_ranges l). induction n as [|n IH]; intros rs; simpl; [lia|].
  destruct (NumberRangeList_next rs) as [[[r|]|] rs']; [|lia..]. specialize (IH rs'). lia.
Qed.

(** The first pass counts the online nodes. *)
Lemma count_total fuel : forall n l c,
  numbers_ok l -> (left_over (nl_ranges l) < n)%nat -> (items_left n l <= fuel)%nat ->
  count_nodes fuel l c = Ret ((fun vs => c + Z.of_nat (length (filter (fun v => v < 65536) vs))) <$> to_come n l).
Proof.
  induction fuel as [|fuel IH]; intros n l c Hl Hn Hf; [pose proof (items_left_pos n l); lia|]. cbn [count_nodes].
  destruct (number_next n l Hl Hn) as (item & l' & -> & Hit). cbn [mbind outcome_bind]. destruct item as [[v|]|]; [|by rewrite Hit|rewrite Hit; cbn; f_equal; f_equal; lia].
  destruct Hit as (_ & Hl' & n' & Hn' & Hlt & ->). rewrite (IH n' l' _ Hl' Hn') by lia. destruct (to_come n' l') as [vs|]; [|done]. cbn [fmap option_fmap option_map]. f_equal. f_equal.
  rewrite filter_cons. destruct (Z.ltb_spec v 65536), (decide (v < 65536)); cbn [length]; lia.
Qed.

(** The second writes them down. *)
Lemma fill_total fuel : forall n l vs ids idx mx,
  numbers_ok l -> (left_over (nl_ranges l) < n)%nat -> (items_left n l <= fuel)%nat -> to_come n l = Some vs -> 0 <= mx < 65536 ->
  let new := filter (fun v => v < 65536) vs in
  (idx + length new = length ids)%nat ->
  exists mx', fill_nodes fuel l ids idx mx = Ret (Some (take idx ids ++ new, mx')) /\ mx <= mx' < 65536 /\ Forall (fun v => 0 <= v <= mx') new.
Proof.
  induction fuel as [|fuel IH]; intros n l vs ids idx mx Hl Hn Hf Hv Hmx; [pose proof (items_left_pos n l); lia|]. cbn [fill_nodes].
  destruct (number_next n l Hl Hn) as (item & l' & -> & Hit). cbn [mbind outcome_bind]. destruct item as [[v|]|].
  - destruct Hit as (Hv0 & Hl' & n' & Hn' & Hlt & E). rewrite Hv in E. destruct (to_come n' l') as [vs'|] eqn:Ev; [|done]. injection E as ->. rewrite filter_cons.
    destruct (Z.ltb_spec v 65536), (decide (v < 65536)); try lia; cbv zeta; cbn [length]; intros Hlen; [|by apply (IH n' l' vs' ids idx mx); (done || lia)].
    rewrite write_at_ok by lia. cbn [mbind outcome_bind]. destruct (IH n' l' vs' (<[idx := v]> ids) (S idx) (Z.max mx v) Hl' Hn' ltac:(lia) Ev ltac:(lia)) as (mx' & -> & H1 & H2); [rewrite length_insert; lia|].
    exists mx'. rewrite (take_S_r _ _ v) by (apply list_lookup_insert_eq; lia). rewrite take_insert_ge, <- app_assoc by lia. split_and!; [done|lia|lia|]. constructor; [lia|done].
  - congruence.
  - rewrite Hv in Hit. injection Hit as ->. cbn. intros Hlen. exists mx. rewrite app_nil_r, take_ge by lia. split_and!; try done; lia.
Qed.

(** ** Paths *)

Lemma put_bytes_ok bs pre rest :
  (length bs <= length rest)%nat ->
  put_bytes bs (pre ++ rest) (length pre) = Some (pre ++ bs ++ drop (length bs) rest, (length pre + length bs)%nat).
Proof.
  revert pre rest. induction bs as [|b bs IH]; intros pre rest Hl; simpl; [by rewrite Nat.add_0_r, drop_0|].
  destruct rest as [|c rest]; [simpl in Hl; lia|]. simpl in Hl. rewrite length_app. simpl.
  destruct (Nat.ltb_spec (length pre) (length pre + S (length rest))); [|lia].
  assert (<[length pre := b]> (pre ++ c :: rest) = (pre ++ [b]) ++ rest) as ->.
  { rewrite <- (Nat.add_0_r (length pre)), insert_app_r. simpl. by rewrite <- app_assoc. }
  assert (S (length pre) = length (pre ++ [b])) as -> by (rewrite length_app; simpl; lia).
  rewrite IH by lia. rewrite length_app, <- !app_assoc. simpl. f_equal. f_equal. lia.
Qed.

Lemma format_path_ok node :
  is_u 64 node -> format_node_cpulist_path node (replicate 128 0) = Some (PREFIX ++ decimal node ++ SUFFIX).
Proof.
  intros _. pose proof (decimal_length node) as Hlen. unfold format_node_cpulist_path. fold (decimal node).
  assert (HP : length PREFIX = 29%nat) by done. assert (HS : length SUFFIX = 8%nat) by done.
  change (replicate 128 0) with ([] ++ replicate 128 0). change 0%nat with (length (@nil Z)) at 1.
  rewrite put_bytes_ok by (rewrite length_replicate; lia). cbn [mbind option_bind]. rewrite app_nil_l, drop_replicate, HP.
  replace (length (@nil Z) + 29)%nat with (length PREFIX) by (simpl; lia).
  rewrite put_bytes_ok by (rewrite length_replicate; lia). cbn [mbind option_bind]. rewrite drop_replicate, app_assoc, <- length_app.
  rewrite put_bytes_ok by (rewrite length_replicate; lia). cbn [mbind option_bind].
  rewrite <- length_app. f_equal. rewrite app_assoc, take_app_length, <- app_assoc. done.
Qed.

(** ** Spans of CPUs *)

(** The node a CPU ends up with. *)
Definition norm (nranges c : Z) : Z := if (c =? INVALID_NODE) || (nranges <=? c) then 0 else c.

(** The span of node [m] among the CPUs below [k], [f] giving their nodes. *)
Definition span (f : nat -> Z) (k : nat) (m : Z) (r : NumaCpuRange) : Prop :=
  cr_node_id r = m /\
  ((forall j, (j < k)%nat -> f j <> m) /\ cr_start_cpu r = usize_max /\ cr_end_cpu r = 0 \/
   exists lo hi, (lo <= hi < k)%nat /\ f lo = m /\ f hi = m /\ (forall j, (j < k)%nat -> f j = m -> (lo <= j <= hi)%nat) /\
     cr_start_cpu r = Z.of_nat lo /\ cr_end_cpu r = Z.of_nat hi).

Lemma span_other f k m r : f k <> m -> span f k m r -> span f (S k) m r.
Proof.
  intros Hf [Hid [(H1 & H2 & H3)|(lo & hi & H1 & H2 & H3 & H4 & H5 & H6)]]; (split; [done|]); [left|right].
  - split; [|done]. intros j Hj. destruct (decide (j = k)) as [->|]; [done|]. apply H1. lia.
  - exists lo, hi. split; [lia|]. split; [done|]. split; [done|]. split; [|done]. intros j Hj Hfj.
    destruct (decide (j = k)) as [->|]; [done|]. apply H4; [lia|done].
Qed.

Lemma span_hit f k m r :
  f k = m -> Z.of_nat k < usize_max -> span f k m r ->
  span f (S k) m (mkNumaCpuRange (cr_node_id r) (if cr_start_cpu r =? usize_max then Z.of_nat k else cr_start_cpu r) (Z.of_nat k)).
Proof.
  intros Hf Hk [Hid [(H1 & H2 & H3)|(lo & hi & H1 & H2 & H3 & H4 & H5 & H6)]]; (split; [done|]); right; cbn [cr_start_cpu cr_end_cpu].
  - rewrite H2, Z.eqb_refl. exists k, k. split; [lia|]. split; [done|]. split; [done|]. split; [|done]. intros j Hj Hfj.
    destruct (decide (j = k)) as [->|]; [lia|]. exfalso. apply (H1 j); [lia|done].
  - destruct (Z.eqb_spec (cr_start_cpu r) usize_max); [lia|]. exists lo, k. split; [lia|]. split; [done|]. split; [done|]. split; [|done].
    intros j Hj Hfj. destruct (decide (j = k)) as [->|]; [lia|]. destruct (H4 j); [lia|done|lia].
Qed.

Lemma assign_cpus_ok n : forall k cpus0 cpus ranges nranges,
  let f j := norm nranges (default 0 (cpus0 !! j)) in
  Forall (fun c => 0 <= c) cpus0 -> length cpus = length cpus0 -> (k + n = length cpus0)%nat -> Z.of_nat (length cpus0) < 2 ^ 63 ->
  0 < nranges -> Z.of_nat (length ranges) = nranges ->
  (forall j, cpus !! j = if (j <? k)%nat then Some (f j) else cpus0 !! j) ->
  (forall m r, ranges !! m = Some r -> span f k (Z.of_nat m) r) ->
  exists cpus' ranges', assign_cpus n k cpus ranges nranges = Ret (cpus', ranges') /\ length cpus' = length cpus0 /\ length ranges' = length ranges /\
    (forall j, (j < length cpus0)%nat -> cpus' !! j = Some (f j)) /\ (forall m r, ranges' !! m = Some r -> span f (length cpus0) (Z.of_nat m) r).
Proof.
  induction n as [|n IH]; intros k cpus0 cpus ranges nranges f Hnn Hlc Hk Hb Hn0 Hlr Hcp Hsp; cbn [assign_cpus].
  { exists cpus, ranges. assert (k = length cpus0) as -> by lia. split; [done|]. split; [done|]. split; [done|]. split; [|done].
    intros j Hj. rewrite Hcp. by apply Nat.ltb_lt in Hj as ->. }
  destruct (lookup_lt_is_Some_2 cpus0 k ltac:(lia)) as [c Hc]. rewrite Hcp, Nat.ltb_irrefl, Hc. cbn [from_option mbind outcome_bind].
  fold (norm nranges c). assert (Hfk : f k = norm nranges c) by (unfold f; by rewrite Hc).
  pose proof (Forall_lookup_1 _ _ _ _ Hnn Hc) as Hc0. simpl in Hc0.
  assert (Hnr : 0 <= norm nranges c < nranges) by (unfold norm; destruct ((c =? INVALID_NODE) || (nranges <=? c)) eqn:?; lia).
  destruct (lookup_lt_is_Some_2 ranges (Z.to_nat (norm nranges c)) ltac:(lia)) as [r Hr]. rewrite Hr. cbn [from_option mbind outcome_bind].
  destruct (IH (S k) cpus0 (<[k := norm nranges c]> cpus) (<[Z.to_nat (norm nranges c) := mkNumaCpuRange (cr_node_id r)
      (if cr_start_cpu r =? usize_max then Z.of_nat k else cr_start_cpu r) (Z.of_nat k)]> ranges) nranges) as (cpus' & ranges' & -> & H1 & H2 & H3 & H4);
    rewrite ?length_insert; try done; try lia.
  - intros j. destruct (decide (j = k)) as [->|Hj].
    + rewrite list_lookup_insert_eq by lia. destruct (Nat.ltb_spec k (S k)); [|lia]. by rewrite <- Hfk.
    + rewrite list_lookup_insert_ne by done. rewrite Hcp. destruct (Nat.ltb_spec j k), (Nat.ltb_spec j (S k)); (done || lia).
  - intros m r' Hm. destruct (decide (m = Z.to_nat (norm nranges c))) as [->|Hne].
    + rewrite list_lookup_insert_eq in Hm by lia. injection Hm as <-. apply (span_hit f k _ r); [fold f; lia|unfold usize_max; lia|by apply Hsp].
    + rewrite list_lookup_insert_ne in Hm by done. apply span_other; [change (f k <> Z.of_nat m); rewrite Hfk; lia|by apply Hsp].
  - rewrite length_insert in H2. eauto 8.
Qed.

(** The final span of a node: empty as (1, 0). *)
Definition final_span (f : nat -> Z) (k : nat) (m : Z) (r : NumaCpuRange) : Prop :=
  cr_node_id r = m /\
  ((forall j, (j < k)%nat -> f j <> m) /\ cr_start_cpu r = 1 /\ cr_end_cpu r = 0 \/
   exists lo hi, (lo <= hi < k)%nat /\ f lo = m /\ f hi = m /\ (forall j, (j < k)%nat -> f j = m -> (lo <= j <= hi)%nat) /\
     cr_start_cpu r = Z.of_nat lo /\ cr_end_cpu r = Z.of_nat hi).

Lemma populate_ok cpus ranges nranges :
  let f j := norm nranges (default 0 (cpus !! j)) in
  Forall (fun c => 0 <= c) cpus -> Z.of_nat (length cpus) < 2 ^ 63 -> 0 < nranges -> Z.of_nat (length ranges) = nranges ->
  (forall m r, ranges !! m = Some r -> r = mkNumaCpuRange (Z.of_nat m) usize_max 0) ->
  exists cpus' ranges', populate_cpu_ranges cpus (Z.of_nat (length cpus)) ranges nranges = Ret (cpus', ranges') /\
    length cpus' = length cpus /\ length ranges' = length ranges /\
    (forall j, (j < length cpus)%nat -> cpus' !! j = Some (f j)) /\
    (forall m r, ranges' !! m = Some r -> final_span f (length cpus) (Z.of_nat m) r).
Proof.
  intros f Hnn Hb Hn0 Hlr Hr0. unfold populate_cpu_ranges. rewrite Nat2Z.id.
  destruct (assign_cpus_ok (length cpus) 0 cpus cpus ranges nranges Hnn eq_refl eq_refl Hb Hn0 Hlr) as (cpus' & ranges' & -> & H1 & H2 & H3 & H4).
  - intros j. by destruct (Nat.ltb_spec j 0); [lia|].
  - intros m r Hm. rewrite (Hr0 m r Hm). split; [done|]. left. split; [lia|done].
  - cbn [mbind outcome_bind]. eexists _, _. split; [done|]. split; [done|]. split; [by rewrite length_map|]. split; [done|].
    intros m r Hm. rewrite list_lookup_fmap in Hm. apply fmap_Some in Hm as (r0 & Hr & ->).
    destruct (H4 m r0 Hr) as [Hid [(S1 & S2 & S3)|(lo & hi & S1 & S2 & S3 & S4 & S5 & S6)]]; unfold close_range.
    + rewrite S2, Z.eqb_refl. split; [done|]. by left.
    + destruct (Z.eqb_spec (cr_start_cpu r0) usize_max) as [He|]; [unfold usize_max in He; lia|]. split; [done|]. right. eauto 10.
Qed.

(** ** The files of the nodes *)

Section Topology.
Context {K : Type} `{!Kernel K} (read : list Z -> option (list Z)).
Context (Hread : forall path content, read path = Some content -> Forall (is_u 8) content).

Definition cpulist_path (node : Z) : list Z := PREFIX ++ decimal node ++ SUFFIX.

(** The ranges in the CPU list of a node. *)
Definition cpus_of (node : Z) (rs : list NumberRange) : Prop :=
  exists content, read (cpulist_path node) = Some content /\ all_ranges content = Ret (Some rs).

(** The last node of the list that claims CPU [j], or [d]. *)
Definition last_node (d : Z) (claims : list (Z * list NumberRange)) (j : Z) : Z :=
  foldl (fun d '(node, rs) => if existsb (in_range j) rs then node else d) d claims.

Lemma list_ok_new content : Forall (is_u 8) content -> list_ok (parse_number_ranges content).
Proof. intros H. split; [simpl; lia|done]. Qed.

Lemma read_nodes_ok ids : forall cpus,
  Forall (fun v => 0 <= v < 65536) ids -> Z.of_nat (length cpus) < 2 ^ 63 ->
  exists res, read_nodes read ids (Z.of_nat (length cpus)) cpus = Ret res /\
    match res with
    | Some cpus' => length cpus' = length cpus /\ exists lists, Forall2 cpus_of ids lists /\
        forall j c, cpus !! j = Some c -> cpus' !! j = Some (last_node c (zip ids lists) (Z.of_nat j))
    | None => exists v, v ∈ ids /\ forall rs, ~ cpus_of v rs
    end.
Proof using Hread.
  induction ids as [|node ids IH]; intros cpus Hids Hb; cbn [read_nodes].
  { exists (Some cpus). split; [done|]. split; [done|]. exists []. split; [constructor|done]. }
  apply Forall_cons in Hids as [Hn Hids]. rewrite format_path_ok by (unfold is_u; lia). fold (cpulist_path node).
  destruct (read (cpulist_path node)) as [content|] eqn:Ec; [|exists None; split; [done|]; exists node; split; [by left|]; intros rs (content & Hc & _); congruence].
  pose proof (mark_ranges_ok (S (length content)) (parse_number_ranges content) node cpus (list_ok_new _ (Hread _ _ Ec)) ltac:(unfold left_over; simpl; lia) Hb) as Hm.
  fold (all_ranges content) in Hm. destruct (all_ranges content) as [[rs|]| |] eqn:Ea; [| |done..].
  - destruct Hm as (c1 & -> & Hlen & Hc1). cbn [mbind outcome_bind]. rewrite <- Hlen. destruct (IH c1 Hids ltac:(lia)) as (res & -> & Hres). exists res. split; [done|].
    destruct res as [cpus'|]; [|destruct Hres as (v & Hv & Hno); exists v; split; [by right|done]]. destruct Hres as (Hl & lists & Hls & Hj). split; [done|]. exists (rs :: lists).
    split; [constructor; [by exists content|done]|]. intros j c Hc. simpl. apply Hj. rewrite Hc1 by (by apply lookup_lt_Some in Hc). rewrite Hc. by case_match.
  - rewrite Hm. exists None. split; [done|]. exists node. split; [by left|]. intros rs (content' & Hc & Hr). congruence.
Qed.

(** ** The topology *)

Record topology_wf (t : NumaTopology) (n : Z) : Prop := {
  tw_ncpu : ncpu t = n /\ Z.of_nat (length (cpu_to_node t)) = n;
  tw_nodes : nnodes t = Z.of_nat (length (node_ids t)) /\ 0 < nnodes t;
  tw_ranges : nranges t = Z.of_nat (length (cpu_ranges t)) /\ 0 < nranges t <= 65536;
  tw_ids v : v ∈ node_ids t -> 0 <= v < nranges t;
  tw_cpu c : c ∈ cpu_to_node t -> 0 <= c < nranges t;
  tw_spans m r : cpu_ranges t !! m = Some r ->
    final_span (fun j => default 0 (cpu_to_node t !! j)) (length (cpu_to_node t)) (Z.of_nat m) r;
}.

(** The online nodes that the file lists, in its order. *)
Definition online_are (ids : list Z) : Prop :=
  exists content rs, read ONLINE_PATH = Some content /\ all_ranges content = Ret (Some rs) /\ ids = online_ids rs.

(** Where the nodes come from.  Without the file, or with a file that lists none, there
    is node 0 with all CPUs; otherwise the nodes are those of the file, and a CPU has
    the last of them whose list claims it. *)
Definition topology_source (t : NumaTopology) : Prop :=
  (read ONLINE_PATH = None \/ online_are []) /\ node_ids t = [0] /\ (forall c, c ∈ cpu_to_node t -> c = 0) \/
  online_are (node_ids t) /\ node_ids t <> [] /\
  exists lists, Forall2 cpus_of (node_ids t) lists /\
    forall j, (j < length (cpu_to_node t))%nat ->
      cpu_to_node t !! j = Some (norm (nranges t) (last_node INVALID_NODE (zip (node_ids t) lists) (Z.of_nat j))).

(** Why there is no topology: the file of the online nodes or a CPU list of theirs
    cannot be read or is malformed, or memory for the tables is refused. *)
Definition topology_missing : Prop :=
  (exists content, read ONLINE_PATH = Some content /\ all_ranges content = Ret None) \/
  (exists ids v, online_are ids /\ v ∈ ids /\ forall rs, ~ cpus_of v rs) \/
  (exists bytes (k : K), (mmap_anonymous bytes k).1 = None) \/
  exists ids, online_are ids /\ 2 ^ 63 <= Z.of_nat (length ids).

Definition topology_result (n : Z) (res : option NumaTopology) : Prop :=
  match res with Some t => topology_wf t n /\ topology_source t | None => topology_missing end.

Lemma mmap_array_none {A} (z : A) sz n k k' : mmap_array z sz n k = (None, k') -> (exists bytes (k : K), (mmap_anonymous bytes k).1 = None) \/ 2 ^ 64 <= n * sz.
Proof using.
  unfold mmap_array, checked_mul. destruct (n =? 0); [done|]. destruct (Z.ltb_spec (n * sz) (2 ^ 64)); [|by right]. destruct (mmap_anonymous _ k) as [[?|] ?] eqn:E; [done|]. intros _. left. eexists _, k. by rewrite E.
Qed.

Lemma mmap_array_ok {A} (z : A) sz n k l k' : mmap_array z sz n k = (Some l, k') -> 0 <= n -> l = replicate (Z.to_nat n) z.
Proof.
  unfold mmap_array. intros H Hn. destruct (Z.eqb_spec n 0) as [->|]; [by injection H as <- _|].
  destruct (checked_mul n sz); [|done]. destruct (mmap_anonymous _ k) as [[?|] ?]; [by injection H as <- _|done].
Qed.

Lemma init_cpus n v z : init_cpu_to_node (replicate n z) (Z.of_nat n) v = replicate n v.
Proof.
  unfold init_cpu_to_node. rewrite Nat2Z.id.
  assert (H : forall m i l, (i + m = length l)%nat -> foldl (fun cpus cpu => <[cpu := v]> cpus) l (seq i m) = take i l ++ replicate m v).
  { induction m as [|m IH]; intros i l Hl; simpl; [by rewrite app_nil_r, take_ge by lia|].
    rewrite IH by (rewrite length_insert; lia). rewrite (take_S_r _ _ v) by (apply list_lookup_insert_eq; lia).
    rewrite take_insert_ge by lia. by rewrite <- app_assoc. }
  rewrite H by (by rewrite length_replicate). by rewrite take_0.
Qed.

Lemma single_node_ok n k :
  1 <= n < 2 ^ 63 -> read ONLINE_PATH = None \/ online_are [] -> topology_result n (single_node_topology n k).1.
Proof.
  intros Hn Hon. unfold single_node_topology.
  destruct (mmap_array 0 2 n k) as [[cpus|] k1] eqn:E1; [|right; right; left; destruct (mmap_array_none _ _ _ _ _ E1); [done|lia]].
  rewrite (mmap_array_ok _ _ _ _ _ _ E1) by lia.
  destruct (mmap_array 0 2 1 k1) as [[ids|] k2] eqn:E2; [|right; right; left; destruct (mmap_array_none _ _ _ _ _ E2); [done|lia]]. rewrite (mmap_array_ok _ _ _ _ _ _ E2) by lia.
  destruct (mmap_array zero_range NumaCpuRange_SIZE 1 k2) as [[rg|] k3] eqn:E3; [|right; right; left; destruct (mmap_array_none _ _ _ _ _ E3); [done|change NumaCpuRange_SIZE with 24 in *; lia]]. rewrite (mmap_array_ok _ _ _ _ _ _ E3) by lia.
  pose proof (init_cpus (Z.to_nat n) 0 0) as Hi. rewrite Z2Nat.id in Hi by lia. rewrite Hi. cbn [fst].
  split; [|left; split_and!; [done|done|]; simpl; intros c Hc; by apply elem_of_replicate_inv in Hc].
  constructor; simpl; try done; try lia.
  - rewrite length_replicate. lia.
  - intros v Hv. apply list_elem_of_singleton in Hv. lia.
  - intros c Hc. apply elem_of_replicate_inv in Hc. lia.
  - intros m r Hm. destruct m as [|m]; [|done]. injection Hm as <-. split; [done|]. right. rewrite length_replicate.
    exists 0%nat, (Z.to_nat n - 1)%nat. cbn [cr_start_cpu cr_end_cpu]. unfold saturating_sub.
    rewrite !lookup_replicate_2 by lia. repeat split; simpl; try lia.
Qed.

Lemma last_node_nonneg ids lists d j : Forall (fun v => 0 <= v) ids -> 0 <= d -> 0 <= last_node d (zip ids lists) j.
Proof.
  clear Hread. revert lists d. induction ids as [|v ids IH]; intros lists d Hids Hd; [done|].
  destruct lists as [|rs lists]; [done|]. apply Forall_cons in Hids as [Hv Hids]. simpl. apply IH; [done|]. by case_match.
Qed.

(** The part of [parse_numa_topology] after the nodes are known. *)
Lemma build_ok n ids mx rg nn (k : K) :
  1 <= n < 2 ^ 63 -> 0 <= mx < 65536 -> Forall (fun v => 0 <= v <= mx) ids -> online_are ids -> nn = Z.of_nat (length ids) -> 0 < nn ->
  rg = imap (fun node _ => mkNumaCpuRange (wrap 16 (Z.of_nat node)) usize_max 0) (replicate (Z.to_nat (mx + 1)) zero_range) ->
  exists res, (res ← read_nodes read ids n (replicate (Z.to_nat n) INVALID_NODE);
    match res with
    | None => Ret (None, k)
    | Some cpus =>
        '(cpus, ranges) ← populate_cpu_ranges cpus n rg (mx + 1);
        Ret (Some (mkNumaTopology cpus n ids nn ranges (mx + 1)), k)
    end) = Ret (res, k) /\ topology_result n res.
Proof using Hread.
  intros Hn Hmx Hids Hon Hnn Hnn0 ->. set (cpus0 := replicate (Z.to_nat n) INVALID_NODE). assert (Hl0 : Z.of_nat (length cpus0) = n) by (unfold cpus0; rewrite length_replicate; lia).
  destruct (read_nodes_ok ids cpus0) as (res & Hrun & Hres); [eapply Forall_impl; [exact Hids|]; simpl; lia|lia|].
  rewrite Hl0 in Hrun. rewrite Hrun. cbn [mbind outcome_bind]. destruct res as [cpus|]; [|exists None; split; [done|]; right; left; destruct Hres as (v & Hv & Hno); by exists ids, v]. destruct Hres as (Hlen & lists & Hls & Hj).
  assert (Hcp : forall j c, cpus !! j = Some c -> c = last_node INVALID_NODE (zip ids lists) (Z.of_nat j)).
  { intros j c Hc. assert (Hlt : (j < length cpus0)%nat) by (apply lookup_lt_Some in Hc; lia).
    rewrite (Hj j INVALID_NODE) in Hc by (apply lookup_replicate_2; unfold cpus0 in Hlt; by rewrite length_replicate in Hlt). by injection Hc. }
  assert (Hln : forall j, 0 <= last_node INVALID_NODE (zip ids lists) j).
  { intros j. apply last_node_nonneg; [|by vm_compute]. eapply Forall_impl; [exact Hids|]. simpl; lia. }
  destruct (populate_ok cpus (imap (fun node _ => mkNumaCpuRange (wrap 16 (Z.of_nat node)) usize_max 0) (replicate (Z.to_nat (mx + 1)) zero_range)) (mx + 1))
    as (cpus' & rg' & Hpop & L1 & L2 & C1 & C2); try lia.
  - apply Forall_lookup. intros j c Hc. rewrite (Hcp j c Hc). apply Hln.
  - rewrite length_imap, length_replicate. lia.
  - intros m r Hm. rewrite list_lookup_imap in Hm. apply fmap_Some in Hm as (z & Hz & ->). apply lookup_lt_Some in Hz. rewrite length_replicate in Hz.
    rewrite wrap_small; [done|]. change (2 ^ 16) with 65536. lia.
  - rewrite Hlen, Hl0 in Hpop. rewrite Hpop. cbn [mbind outcome_bind]. eexists. split; [done|]. simpl.
    assert (Hf : forall j, (j < length cpus')%nat -> cpus' !! j = Some (norm (mx + 1) (last_node INVALID_NODE (zip ids lists) (Z.of_nat j)))).
    { intros j Hlt. rewrite C1 by lia. destruct (lookup_lt_is_Some_2 cpus j ltac:(lia)) as [c Hc]. rewrite Hc. simpl. by rewrite (Hcp j c Hc). }
    assert (Hnorm : forall j, 0 <= norm (mx + 1) (last_node INVALID_NODE (zip ids lists) j) < mx + 1).
    { intros j. specialize (Hln j). unfold norm. destruct ((_ =? INVALID_NODE) || _) eqn:?; lia. }
    split; [|right; split_and!; [done|simpl; intros ->; simpl in Hnn; lia|by exists lists]]. constructor; simpl; try done; try lia.
    + rewrite L2, length_imap, length_replicate. lia.
    + intros v (i & Hi)%list_elem_of_lookup. apply (Forall_lookup_1 _ _ _ _ Hids) in Hi. simpl in Hi. lia.
    + intros c (j & Hc)%list_elem_of_lookup. pose proof (lookup_lt_Some _ _ _ Hc) as Hlt. rewrite Hf in Hc by done. injection Hc as <-. apply Hnorm.
    + intros m r Hm. specialize (C2 m r Hm). rewrite <- L1 in C2. destruct C2 as [Hid Hs]. split; [done|].
      assert (He : forall j, (j < length cpus')%nat -> default 0 (cpus' !! j) = norm (mx + 1) (default 0 (cpus !! j))) by (intros j Hlt; rewrite C1 by lia; done).
      destruct Hs as [(S1 & S2)|(lo & hi & S1 & S2 & S3 & S4 & S5)]; [left|right].
      * split; [|done]. intros j Hlt. rewrite He by done. by apply S1.
      * exists lo, hi. rewrite !He by lia. split; [done|]. split; [done|]. split; [done|]. split; [|done]. intros j Hlt. rewrite He by done. by apply S4.
Qed.

Lemma topology_ok n (k : K) :
  1 <= n < 2 ^ 63 -> exists res k', parse_numa_topology read n k = Ret (res, k') /\ topology_result n res.
Proof using Hread.
  intros Hn. unfold parse_numa_topology.
  assert (Hsingle : read ONLINE_PATH = None \/ online_are [] -> exists res k', Ret (single_node_topology n k) = Ret (res, k') /\ topology_result n res).
  { intros Hon. pose proof (single_node_ok n k Hn Hon). destruct (single_node_topology n k) as [res k']. by exists res, k'. }
  destruct (read ONLINE_PATH) as [online|] eqn:Eo; [|apply Hsingle; by left].
  assert (Hok : numbers_ok (parse_number_list online)) by (split; [apply list_ok_new; by eapply Hread|done]).
  assert (Hleft : (left_over (nl_ranges (parse_number_list online)) < S (length online))%nat) by (unfold left_over; simpl; lia).
  assert (Hfuel : (items_left (S (length online)) (parse_number_list online) <= list_fuel online)%nat) by done.
  assert (Hcome : to_come (S (length online)) (parse_number_list online) = match all_ranges online with Ret (Some rs) => Some (numbers rs) | _ => None end) by done.
  rewrite (count_total _ _ _ 0 Hok Hleft Hfuel), Hcome. cbn [mbind outcome_bind].
  destruct (collect_total (S (length online)) (parse_number_ranges online)) as (res & Ea & _); [apply Hok|done|]. fold (all_ranges online) in Ea. rewrite Ea in *.
  destruct res as [rs|]; cbn [fmap option_fmap option_map]; [|eexists _, _; split; [done|]; left; by exists online]. fold (online_ids rs).
  assert (Hon : online_are (online_ids rs)) by (by exists online, rs). set (nn := 0 + Z.of_nat (length (online_ids rs))).
  destruct (Z.eqb_spec nn 0); [apply Hsingle; right; by rewrite (nil_length_inv (online_ids rs)) in Hon by lia|].
  destruct (mmap_array 0 2 n k) as [[cpus|] k1] eqn:E1; [|eexists _, _; split; [done|]; right; right; left; destruct (mmap_array_none _ _ _ _ _ E1); [done|lia]]. rewrite (mmap_array_ok _ _ _ _ _ _ E1) by lia.
  pose proof (init_cpus (Z.to_nat n) INVALID_NODE 0) as Hi. rewrite Z2Nat.id in Hi by lia. rewrite Hi.
  destruct (mmap_array 0 2 nn k1) as [[ids0|] k2] eqn:E2; [|eexists _, _; split; [done|]; right; right; destruct (mmap_array_none _ _ _ _ _ E2); [by left|right; exists (online_ids rs); split; [done|lia]]].
  rewrite (mmap_array_ok _ _ _ _ _ _ E2) by lia.
  destruct (fill_total _ _ _ _ (replicate (Z.to_nat nn) 0) 0 0 Hok Hleft Hfuel Hcome ltac:(lia)) as (mx & -> & Hmx & Hids); [rewrite length_replicate; fold (online_ids rs); lia|].
  fold (online_ids rs) in *. rewrite take_0, app_nil_l. cbn [mbind outcome_bind].
  destruct (mmap_array zero_range NumaCpuRange_SIZE (mx + 1) k2) as [[rg|] k3] eqn:E3; [|eexists _, _; split; [done|]; right; right; left; destruct (mmap_array_none _ _ _ _ _ E3); [done|change NumaCpuRange_SIZE with 24 in *; lia]].
  rewrite (mmap_array_ok _ _ _ _ _ _ E3) by lia.
  destruct (build_ok n (online_ids rs) mx _ nn k3 Hn Hmx Hids Hon ltac:(lia) ltac:(lia) eq_refl) as (res & Hrun & Hres).
  cbn [mbind outcome_bind] in Hrun. rewrite Hrun. by eexists _, _.
Qed.
End Topology.

(** ** Theorems *)

(** C27: the parser reads back every list of ranges that the kernel prints:
    comma-separated, single numbers and ranges, with a final line break. *)
Theorem parse_print_ranges (rs : list NumberRange) (Hwf : Forall range_wf rs) :
  all_ranges (print_ranges rs ++ [10]) = Ret (Some rs).
Proof.
  unfold all_ranges, parse_number_ranges, NumberRangeList_new. apply (collect_print rs _ _ _ [10]); [done|by right|done|].
  assert (H : forall l, Forall range_wf l -> (length l <= length (print_ranges l))%nat).
  { clear. induction l as [|r l IH]; intros Hl; [done|]. apply Forall_cons in Hl as [Hr Hl].
    destruct (print_range_start r [] Hr) as (c & u & Hcu & _). rewrite app_nil_r in Hcu. specialize (IH Hl).
    destruct l as [|r2 l]; [simpl; rewrite Hcu; simpl; lia|].
    change (print_ranges (r :: r2 :: l)) with (print_range r ++ 44 :: print_ranges (r2 :: l)). rewrite Hcu, length_app. simpl in *. lia. }
  specialize (H rs Hwf). rewrite length_app. simpl. lia.
Qed.

(** C28: on any input the range parser ends within one iteration per byte, and
    the ranges it accepts are ordered and fit in a machine word. *)
Theorem parse_ranges_total (bytes : list Z) (Hbytes : Forall (is_u 8) bytes) :
  exists res, all_ranges bytes = Ret res /\ match res with Some rs => Forall range_wf rs | None => True end.
Proof.
  apply collect_total; [by apply list_ok_new|]. unfold left_over. simpl. lia.
Qed.

(** The path of a node's CPU list is the prefix, the node in decimal and the
    suffix, and the decimal digits are read back as the node. *)
Theorem cpulist_path_exact (node : Z) (rest : list Z) (Hnode : is_u 64 node) (Hrest : stops is_ascii_digit rest) :
  format_node_cpulist_path node (replicate 128 0) = Some (PREFIX ++ decimal node ++ SUFFIX) /\
  parse_usize (decimal node ++ rest) 0 = (Some node, length (decimal node)).
Proof.
  split; [by apply format_path_ok|]. destruct (decimal_ok node Hnode) as (Hd & Hne & Hv).
  rewrite (parse_usize_spec _ 0 (decimal node) rest) by (rewrite ?Hv; unfold is_u in *; done || lia). by rewrite Hv.
Qed.


Lemma parse_print_ranges_witness :
  all_ranges (print_ranges [mkNumberRange 0 3; mkNumberRange 8 8; mkNumberRange 10 (2 ^ 64 - 1)] ++ [10])
  = Ret (Some [mkNumberRange 0 3; mkNumberRange 8 8; mkNumberRange 10 (2 ^ 64 - 1)]).
Proof. apply (parse_print_ranges [mkNumberRange 0 3; mkNumberRange 8 8; mkNumberRange 10 (2 ^ 64 - 1)]). repeat constructor; simpl; lia. Defined.

Lemma parse_ranges_total_witness : exists res, all_ranges [48; 44] = Ret res.
Proof.
  destruct (parse_ranges_total [48; 44] ltac:(repeat constructor; simpl; lia)) as (res & H & _). eauto.
Defined.

Lemma cpulist_path_exact_witness :
  format_node_cpulist_path 65535 (replicate 128 0) = Some (PREFIX ++ [54; 53; 53; 51; 53] ++ SUFFIX).
Proof. apply (cpulist_path_exact 65535 [] ltac:(unfold is_u; lia) I). Defined.

(** Two nodes: CPUs 0-1 and 2-3. *)
Definition demo_files (path : list Z) : option (list Z) :=
  if bool_decide (path = ONLINE_PATH) then Some [48; 45; 49; 10]
  else if bool_decide (path = cpulist_path 0) then Some [48; 45; 49; 10]
  else if bool_decide (path = cpulist_path 1) then Some [50; 44; 51; 10]
  else None.

Lemma demo_files_u8 path content : demo_files path = Some content -> Forall (is_u 8) content.
Proof. unfold demo_files. intros H. repeat (case_bool_decide; [injection H as <-; repeat constructor; simpl; lia|]). done. Qed.

