(* ===== verification/Env.v ===== *)
(** * Environment variables (src/internals/env.rs)

    The environment is a list of C strings, each a list of bytes without the
    terminating zero; reading past the end reads the zero. *)

From S2P Require Import Prelude Types.

(** [*p] at offset [i] of an entry. *)
Definition char_at (s : list Z) (i : nat) : Z := default 0 (s !! i).

(** The inner loop of [getenv_raw]: how many bytes match before it stops. *)
Fixpoint match_key (fuel : nat) (entry key : list Z) (i : nat) : nat :=
  match fuel with
  | O => i
  | S fuel' =>
      let c := char_at entry i in
      if negb (c =? 0) && negb (c =? 61) then
        match key !! i with
        | None => i
        | Some k => if negb (c =? k) then i else match_key fuel' entry key (S i)
        end
      else i
  end.

(** The value after the equals sign of the first entry for [key]. *)
Fixpoint getenv_raw (environ : list (list Z)) (key : list Z) : option (list Z) :=
  match environ with
  | [] => None
  | entry :: environ =>
      let i := match_key (S (length entry)) entry key 0 in
      if (i =? length key)%nat && (char_at entry i =? 61) then Some (drop (S i) entry)
      else getenv_raw environ key
  end.

(** The digits at the front of the value; the multiplication and the addition
    wrap. *)
Fixpoint usize_prefix (s : list Z) (out : Z) : Z :=
  match s with
  | c :: s => if (48 <=? c) && (c <=? 57) then usize_prefix s (wadd (wmul out 10) (c - 48)) else out
  | [] => out
  end.

Definition get_env_usize (environ : list (list Z)) (key : list Z) : option Z :=
  val ← getenv_raw environ key;
  Some (usize_prefix val 0).

(** ** Matching *)

(** Bytes of a C string. *)
Definition cstring (s : list Z) : Prop := Forall (fun c => 0 < c < 256) s.

Lemma match_key_spec fuel entry key i :
  (i <= length key)%nat -> cstring entry -> Forall (fun c => c <> 61) key -> (length entry < i + fuel)%nat ->
  take i entry = take i key -> (i <= length entry)%nat ->
  let j := match_key fuel entry key i in
  (i <= j)%nat /\ take j entry = take j key /\ (j <= length entry)%nat /\ (j <= length key)%nat /\
  (j = length key \/ forall rest, drop j entry <> drop j key ++ 61 :: rest).
Proof.
  intros Hi Hc Hk. revert i Hi. induction fuel as [|fuel IH]; intros i Hi Hf Ht Hl; [lia|]. cbn [match_key].
  unfold char_at. destruct (entry !! i) as [c|] eqn:Ec; cbn [default from_option id].
  - pose proof (Forall_lookup_1 _ _ _ _ Hc Ec) as Hc0. simpl in Hc0. destruct (Z.eqb_spec c 0); [lia|].
    pose proof (lookup_lt_Some _ _ _ Ec) as Hlt. cbn [negb andb].
    destruct (Z.eqb_spec c 61) as [->|Hne]; cbn [negb].
    + split; [lia|]. split; [done|]. split; [lia|]. split; [done|]. destruct (decide (i = length key)); [by left|right].
      intros rest. rewrite (drop_S _ _ _ Ec). destruct (lookup_lt_is_Some_2 key i ltac:(lia)) as [k Hki]. rewrite (drop_S _ _ _ Hki). simpl.
      intros [= He _]. apply (Forall_lookup_1 _ _ _ _ Hk Hki). done.
    + destruct (key !! i) as [k|] eqn:Ek.
      * destruct (Z.eqb_spec c k) as [->|Hck]; cbn [negb].
        -- apply lookup_lt_Some in Ek as Hlk. destruct (IH (S i)) as (H1 & H2); try lia; [by rewrite (take_S_r _ _ _ Ec), (take_S_r _ _ _ Ek), Ht|].
           split; [lia|done].
        -- split; [lia|]. split; [done|]. split; [lia|]. split; [done|]. right. intros rest. rewrite (drop_S _ _ _ Ec), (drop_S _ _ _ Ek). simpl. congruence.
      * apply lookup_ge_None_1 in Ek. split; [lia|]. split; [done|]. split; [lia|]. split; [done|]. left. lia.
  - apply lookup_ge_None_1 in Ec. simpl. split; [lia|]. split; [done|]. split; [done|]. split; [done|].
    destruct (decide (i = length key)); [by left|right]. intros rest. rewrite drop_ge by lia. intros He. destruct (drop i key); done.
Qed.

(** An entry matches exactly when it is the key, an equals sign and the value. *)
Lemma entry_match entry key :
  cstring entry -> Forall (fun c => c <> 61) key ->
  let i := match_key (S (length entry)) entry key 0 in
  ((i =? length key)%nat && (char_at entry i =? 61)) = true <-> exists v, entry = key ++ 61 :: v.
Proof.
  intros Hc Hk i. pose proof (match_key_spec (S (length entry)) entry key 0 ltac:(lia) Hc Hk ltac:(lia) ltac:(by rewrite !take_0) ltac:(lia)) as H.
  fold i in H. destruct H as (_ & Ht & Hle & Hlk & Hor). rewrite andb_true_iff, Nat.eqb_eq, Z.eqb_eq. split.
  - intros [He Hch]. exists (drop (S i) entry). unfold char_at in Hch. destruct (entry !! i) as [c|] eqn:Ec; [|done]. simpl in Hch. subst c.
    rewrite <- (take_drop i entry) at 1. rewrite Ht, (drop_S _ _ _ Ec), He. by rewrite firstn_all.
  - intros [v Hv]. destruct Hor as [He|Hno].
    + split; [done|]. unfold char_at. rewrite He, Hv, lookup_app_r, Nat.sub_diag by lia. done.
    + exfalso. apply (Hno v). rewrite Hv. rewrite drop_app_le by done. done.
Qed.

Lemma getenv_raw_spec environ key :
  Forall cstring environ -> Forall (fun c => c <> 61) key ->
  match getenv_raw environ key with
  | Some v => exists es1 es2, environ = es1 ++ (key ++ 61 :: v) :: es2 /\ forall e w, e ∈ es1 -> e <> key ++ 61 :: w
  | None => forall e w, e ∈ environ -> e <> key ++ 61 :: w
  end.
Proof.
  intros Hall Hk. induction environ as [|e es IH]; cbn [getenv_raw]; [by intros e w ?%not_elem_of_nil|].
  apply Forall_cons in Hall as [Hc Hall]. pose proof (entry_match e key Hc Hk) as Hm. cbv zeta in Hm.
  destruct ((match_key (S (length e)) e key 0 =? length key)%nat && (char_at e (match_key (S (length e)) e key 0) =? 61)) eqn:E.
  - destruct (proj1 Hm eq_refl) as [v Hv]. exists [], es. split; [|by intros e' w ?%not_elem_of_nil]. rewrite app_nil_l. f_equal.
    apply andb_true_iff in E as [Ei _]. apply Nat.eqb_eq in Ei. rewrite Ei. clear -Hv. subst e.
    rewrite drop_app_ge by lia. by replace (S (length key) - length key)%nat with 1%nat by lia.
  - assert (Hne : forall w, e <> key ++ 61 :: w) by (intros w Hw; discriminate (proj2 Hm (ex_intro _ w Hw))).
    specialize (IH Hall). destruct (getenv_raw es key) as [v|].
    + destruct IH as (es1 & es2 & -> & H). exists (e :: es1), es2. split; [done|]. intros e' w [->|He]%elem_of_cons; [apply Hne|by apply H].
    + intros e' w [->|He]%elem_of_cons; [apply Hne|by apply IH].
Qed.

(** The value of decimal digits. *)
Definition decimal_value (ds : list Z) : Z := foldl (fun n c => n * 10 + (c - 48)) 0 ds.

Lemma usize_prefix_spec ds s out :
  Forall (fun c => 48 <= c <= 57) ds -> (match s with c :: _ => c < 48 \/ 57 < c | [] => True end) ->
  usize_prefix (ds ++ s) (wrap 64 out) = wrap 64 (foldl (fun n c => n * 10 + (c - 48)) out ds).
Proof.
  revert out. induction ds as [|c ds IH]; intros out Hd Hs; simpl.
  - destruct s as [|c s]; [done|]. simpl. destruct ((48 <=? c) && (c <=? 57)) eqn:?; [lia|done].
  - apply Forall_cons in Hd as [Hc Hd]. destruct ((48 <=? c) && (c <=? 57)) eqn:?; [|lia].
    rewrite <- IH by done. f_equal. unfold wadd, wmul, wrap. rewrite Z.mul_mod_idemp_l, Z.add_mod_idemp_l by lia. done.
Qed.

(** C30: a numeric variable is looked up in the first entry that is the key, an
    equals sign and a value; the result is the decimal value of the leading
    digits modulo 2^64, and there is none exactly when no entry has the key. *)
Theorem get_env_usize_spec (environ : list (list Z)) (key : list Z)
    (Henv : Forall cstring environ) (Hkey : Forall (fun c => c <> 61) key) :
  match get_env_usize environ key with
  | Some n => exists es1 es2 ds s, environ = es1 ++ (key ++ 61 :: ds ++ s) :: es2 /\
      (forall e w, e ∈ es1 -> e <> key ++ 61 :: w) /\ Forall (fun c => 48 <= c <= 57) ds /\
      (match s with c :: _ => c < 48 \/ 57 < c | [] => True end) /\ n = wrap 64 (decimal_value ds)
  | None => forall e w, e ∈ environ -> e <> key ++ 61 :: w
  end.
Proof.
  unfold get_env_usize. pose proof (getenv_raw_spec environ key Henv Hkey) as H.
  destruct (getenv_raw environ key) as [v|]; [|done]. cbn [mbind option_bind]. destruct H as (es1 & es2 & He & Hno).
  assert (Hsplit : exists ds s, v = ds ++ s /\ Forall (fun c => 48 <= c <= 57) ds /\ match s with c :: _ => c < 48 \/ 57 < c | [] => True end).
  { clear. induction v as [|c v IH]; [by exists [], []|]. destruct (decide (48 <= c <= 57)) as [Hc|Hc]; [|exists [], (c :: v); split; [done|]; split; [constructor|lia]].
    destruct IH as (ds & s & -> & Hd & Hs). exists (c :: ds), s. split; [done|]. split; [by constructor|done]. }
  destruct Hsplit as (ds & s & -> & Hd & Hs). exists es1, es2, ds, s. split; [done|]. split; [done|]. split; [done|]. split; [done|].
  unfold decimal_value. rewrite <- (usize_prefix_spec ds s 0) by done. done.
Qed.

(** The environment "B=9", "A=12x", "A=7". *)
Lemma get_env_usize_spec_witness :
  get_env_usize [[66; 61; 57]; [65; 61; 49; 50; 120]; [65; 61; 55]] [65] = Some 12 /\
  exists es1 es2 ds s, [[66; 61; 57]; [65; 61; 49; 50; 120]; [65; 61; 55]] = es1 ++ ([65] ++ 61 :: ds ++ s) :: es2 /\ 12 = wrap 64 (decimal_value ds).
Proof.
  split; [done|].
  pose proof (get_env_usize_spec [[66; 61; 57]; [65; 61; 49; 50; 120]; [65; 61; 55]] [65] ltac:(repeat constructor; lia) ltac:(repeat constructor; lia)) as H.
  destruct H as (es1 & es2 & ds & s & He & _ & _ & _ & Hn). exists es1, es2, ds, s. done.
Defined.
