(* ===== verification/Predictor.v ===== *)
(** * Batch prediction and smoothing (src/core_prim/predictor.rs)

    [AdaptiveBatching] follows the demand for blocks; the exponential smoothing of
    trim times works on 32-bit floats, modelled by the specification floats of
    the Standard Library with 24 bits of precision. *)

From Stdlib Require Import SpecFloat.
From S2P Require Import Prelude Types SizeClasses.

Definition DEFAULT_BATCH : Z := 128.

(** The configurable initial batches, with their defaults. *)
Record PredictorConfig := mkPredictorConfig {
  PREDICTOR_INIT_BATCH : Z;
  BULK_FILL_PREDICTOR_INIT_BATCH : Z;
}.

Definition predictor_defaults : PredictorConfig := mkPredictorConfig DEFAULT_BATCH 384.

Record AdaptiveBatching := mkAdaptiveBatching {
  ab_batch : Z;
  ab_low_count : Z;
  ab_once : bool;
  ab_is_fill : bool;
}.

Definition AdaptiveBatching_new (fill : bool) : AdaptiveBatching := mkAdaptiveBatching 1 0 false fill.

Section Batching.
Context (cfg : PredictorConfig).

Definition update_global_batch_value (a : AdaptiveBatching) : AdaptiveBatching :=
  if ab_once a then a
  else
    let init_batch :=
      if ab_is_fill a then Z.max (BULK_FILL_PREDICTOR_INIT_BATCH cfg) 1 else Z.max (PREDICTOR_INIT_BATCH cfg) 1 in
    mkAdaptiveBatching init_batch 0 true (ab_is_fill a).

Definition update_refill (a : AdaptiveBatching) (demand max : Z) : AdaptiveBatching :=
  let a := update_global_batch_value a in
  let demand := Z.max demand 1 in
  let batch := ab_batch a in
  if batch <? demand then
    let grow := Z.max (wadd batch (Z.shiftr batch 1)) demand in
    mkAdaptiveBatching (Z.min grow max) 0 (ab_once a) (ab_is_fill a)
  else if wmul demand 4 <? batch then
    let low_count := wrap 8 (ab_low_count a + 1) in
    if low_count =? 4 then mkAdaptiveBatching (Z.max (Z.shiftr batch 1) 1) 0 (ab_once a) (ab_is_fill a)
    else mkAdaptiveBatching batch low_count (ab_once a) (ab_is_fill a)
  else mkAdaptiveBatching batch 0 (ab_once a) (ab_is_fill a).

(** The batch to use and the state after. *)
Definition batch (a : AdaptiveBatching) (fallback : Z) : Z * AdaptiveBatching :=
  let a := update_global_batch_value a in
  (Z.min (Z.max (ab_batch a) 1) fallback, a).

(** ** The batch follows the demand *)

(** [n] updates with the same demand. *)
Fixpoint updates (n : nat) (a : AdaptiveBatching) (demand max : Z) : AdaptiveBatching :=
  match n with
  | O => a
  | S n' => updates n' (update_refill a demand max) demand max
  end.

Lemma updates_add n m a d mx : updates (n + m) a d mx = updates m (updates n a d mx) d mx.
Proof. revert a. induction n as [|n IH]; intros a; simpl; [done|]. apply IH. Qed.

(** What [update_refill] does to an initialised predictor on each branch. *)
Lemma update_cases a d mx :
  ab_once a = true -> 1 <= d < 2 ^ 61 -> 1 <= ab_batch a < 2 ^ 61 -> 0 <= ab_low_count a < 4 ->
  update_refill a d mx =
    if ab_batch a <? d then mkAdaptiveBatching (Z.min (Z.max (ab_batch a + ab_batch a / 2) d) mx) 0 true (ab_is_fill a)
    else if d * 4 <? ab_batch a then
      if ab_low_count a =? 3 then mkAdaptiveBatching (ab_batch a / 2) 0 true (ab_is_fill a)
      else mkAdaptiveBatching (ab_batch a) (ab_low_count a + 1) true (ab_is_fill a)
    else mkAdaptiveBatching (ab_batch a) 0 true (ab_is_fill a).
Proof.
  intros Ho Hd Hb Hl. unfold update_refill, update_global_batch_value. rewrite Ho. rewrite Z.max_l by lia.
  rewrite Z.shiftr_div_pow2 by lia. change (2 ^ 1) with 2. pose proof (Z.div_mod (ab_batch a) 2 ltac:(lia)). pose proof (Z.mod_pos_bound (ab_batch a) 2 ltac:(lia)).
  rewrite wadd_small, wmul_small by lia. destruct (Z.ltb_spec (ab_batch a) d); [by rewrite Ho|].
  destruct (Z.ltb_spec (d * 4) (ab_batch a)); [|by rewrite Ho]. rewrite wrap_small by (change (2 ^ 8) with 256; lia).
  destruct (Z.eqb_spec (ab_low_count a + 1) 4), (Z.eqb_spec (ab_low_count a) 3); try lia; [|by rewrite Ho].
  rewrite Z.max_l by lia. by rewrite Ho.
Qed.

Definition settled (a : AdaptiveBatching) (d : Z) : Prop :=
  ab_once a = true /\ d <= ab_batch a <= 4 * d /\ 0 <= ab_low_count a < 4.

(** Once the batch is within four times the demand it stays as it is. *)
Lemma settled_stays n a d mx :
  1 <= d < 2 ^ 58 -> settled a d -> settled (updates n a d mx) d /\ ab_batch (updates n a d mx) = ab_batch a.
Proof.
  intros Hd. revert a. induction n as [|n IH]; intros a Hs; [done|]. simpl. destruct Hs as (H1 & H2 & H3).
  destruct (IH (update_refill a d mx)) as [Hs' Hb'].
  - rewrite update_cases by (done || lia). destruct (Z.ltb_spec (ab_batch a) d); [lia|]. destruct (Z.ltb_spec (d * 4) (ab_batch a)); [lia|].
    repeat split; simpl; lia.
  - split; [done|]. rewrite Hb'. rewrite update_cases by (done || lia). destruct (Z.ltb_spec (ab_batch a) d); [lia|]. destruct (Z.ltb_spec (d * 4) (ab_batch a)); [lia|done].
Qed.

(** A batch over four times the demand halves within four updates. *)
Lemma halves a d mx :
  1 <= d < 2 ^ 58 -> ab_once a = true -> 4 * d < ab_batch a < 2 ^ 61 -> 0 <= ab_low_count a < 4 ->
  exists n, (n <= 4)%nat /\ updates n a d mx = mkAdaptiveBatching (ab_batch a / 2) 0 true (ab_is_fill a).
Proof.
  intros Hd Ho Hb Hl. exists (Z.to_nat (4 - ab_low_count a)). split; [lia|].
  remember (Z.to_nat (4 - ab_low_count a)) as n eqn:Hn. revert a Ho Hb Hl Hn. induction n as [|n IH]; intros a Ho Hb Hl Hn; [lia|]. simpl.
  rewrite update_cases by (done || lia). destruct (Z.ltb_spec (ab_batch a) d); [lia|]. destruct (Z.ltb_spec (d * 4) (ab_batch a)); [|lia].
  destruct (Z.eqb_spec (ab_low_count a) 3) as [He|Hne].
  - assert (n = 0%nat) as -> by lia. done.
  - rewrite IH; [done|done|simpl; lia|simpl; lia|simpl; lia].
Qed.

Lemma shrinks k a d mx :
  1 <= d < 2 ^ 58 -> ab_once a = true -> d <= ab_batch a < 2 ^ 61 -> ab_batch a < 2 ^ Z.of_nat k -> 0 <= ab_low_count a < 4 ->
  exists n, (n <= 4 * k)%nat /\ settled (updates n a d mx) d /\ ab_batch (updates n a d mx) <= ab_batch a.
Proof.
  intros Hd. revert a. induction k as [|k IH]; intros a Ho Hb Hk Hl; [change (2 ^ Z.of_nat 0) with 1 in Hk; lia|].
  destruct (decide (ab_batch a <= 4 * d)) as [Hle|Hgt].
  { exists 0%nat. split; [lia|]. simpl. unfold settled. auto with lia. }
  destruct (halves a d mx Hd Ho ltac:(lia) Hl) as (n & Hn & Hu).
  rewrite Nat2Z.inj_succ, Z.pow_succ_r in Hk by lia. pose proof (Z.div_mod (ab_batch a) 2 ltac:(lia)). pose proof (Z.mod_pos_bound (ab_batch a) 2 ltac:(lia)).
  destruct (IH (updates n a d mx)) as (m & Hm & Hs & Hle); [rewrite Hu; simpl; (done || lia)..|].
  exists (n + m)%nat. split; [lia|]. rewrite updates_add. split; [done|]. rewrite Hu in *. simpl in Hle. lia.
Qed.

(** A demand above the maximum takes the batch to the maximum, where it stays. *)
Lemma capped_stays n a d mx :
  1 <= mx < d -> d < 2 ^ 58 -> ab_once a = true -> ab_batch a = mx -> ab_low_count a = 0 -> ab_batch (updates n a d mx) = mx.
Proof.
  intros Hm Hd. revert a. induction n as [|n IH]; intros a Ho Hb Hl; [done|]. simpl. rewrite update_cases by (done || lia).
  destruct (Z.ltb_spec (ab_batch a) d); [|lia]. apply IH; simpl; [done|lia|done].
Qed.

(** C31: under a steady demand [d] with the maximum [mx] of the class, the batch of a
    predictor in use (initialised, with its count of low demands below four, as every
    update leaves it) is within the smaller of [d] and [mx] and four times [d] after a
    number of updates logarithmic in it, and from then on it does not change.  It does
    not pass the maximum unless it started above it. *)
Theorem batch_follows_demand (a : AdaptiveBatching) (d mx : Z)
    (Honce : ab_once a = true) (Hd : 1 <= d < 2 ^ 58) (Hmax : 1 <= mx) (Hb : 1 <= ab_batch a < 2 ^ 60) (Hlow : 0 <= ab_low_count a < 4) :
  exists n, Z.of_nat n <= 4 * (Z.log2 (ab_batch a) + 1) + 1 /\
    forall m, (n <= m)%nat -> Z.min d mx <= ab_batch (updates m a d mx) <= 4 * d /\ ab_batch (updates m a d mx) <= Z.max (ab_batch a) mx /\
      ab_batch (updates m a d mx) = ab_batch (updates n a d mx).
Proof.
  pose proof (Z.log2_nonneg (ab_batch a)) as Hl0. destruct (Z.log2_spec (ab_batch a) ltac:(lia)) as [_ Hl2].
  pose proof (Z.div_mod (ab_batch a) 2 ltac:(lia)). pose proof (Z.mod_pos_bound (ab_batch a) 2 ltac:(lia)).
  assert (Hone : ab_batch a < d -> updates 1 a d mx = mkAdaptiveBatching (Z.min (Z.max (ab_batch a + ab_batch a / 2) d) mx) 0 true (ab_is_fill a)).
  { intros Hlt. simpl. rewrite update_cases by (done || lia). destruct (Z.ltb_spec (ab_batch a) d); [done|lia]. }
  destruct (decide (ab_batch a < d /\ mx < d)) as [[Hlt Hcap]|Hnot].
  { exists 1%nat. split; [lia|]. intros m Hm. assert (Hstay : forall u, ab_batch (updates (1 + u) a d mx) = mx).
    { intros u. rewrite updates_add, Hone by done. apply capped_stays; simpl; (done || lia). }
    replace m with (1 + (m - 1))%nat by lia. rewrite Hstay, <- (Nat.add_0_r 1), Hstay. lia. }
  assert (Hreach : exists n, Z.of_nat n <= 4 * (Z.log2 (ab_batch a) + 1) + 1 /\ settled (updates n a d mx) d /\ ab_batch (updates n a d mx) <= Z.max (ab_batch a) mx).
  { destruct (decide (ab_batch a < d)) as [Hlt|Hge].
    - exists 1%nat. split; [lia|]. rewrite Hone by done. repeat split; simpl; lia.
    - destruct (shrinks (Z.to_nat (Z.log2 (ab_batch a) + 1)) a d mx Hd Honce ltac:(lia)) as (n & Hn & Hs & Hle); [|done|].
      + rewrite Z2Nat.id by lia. by rewrite <- Z.add_1_r in Hl2.
      + exists n. split; [lia|]. split; [done|lia]. }
  destruct Hreach as (n & Hn & Hs & Hle). exists n. split; [done|]. intros m Hm. replace m with (n + (m - n))%nat by lia. rewrite updates_add.
  destruct (settled_stays (m - n) (updates n a d mx) d mx Hd Hs) as [(_ & Hr & _) He]. rewrite He. destruct Hs as (_ & ? & _). lia.
Qed.

End Batching.

Lemma batch_follows_demand_witness :
  (exists n, forall m, (n <= m)%nat -> 3 <= ab_batch (updates predictor_defaults m (mkAdaptiveBatching 1000 2 true false) 3 64) <= 12) /\
  exists n, forall m, (n <= m)%nat -> 64 <= ab_batch (updates predictor_defaults m (mkAdaptiveBatching 10 0 true false) 500 64) <= 64.
Proof.
  split.
  - destruct (batch_follows_demand predictor_defaults (mkAdaptiveBatching 1000 2 true false) 3 64 eq_refl ltac:(lia) ltac:(lia) ltac:(simpl; lia) ltac:(simpl; lia)) as (n & _ & H). exists n. intros m Hm. apply H, Hm.
  - destruct (batch_follows_demand predictor_defaults (mkAdaptiveBatching 10 0 true false) 500 64 eq_refl ltac:(lia) ltac:(lia) ltac:(simpl; lia) ltac:(simpl; lia)) as (n & _ & H). exists n. intros m Hm.
    destruct (H m Hm) as ((H1 & _) & H2 & _). split; [exact H1|exact H2].
Defined.
(** ** Exponential smoothing *)

Definition f32 : Set := spec_float.
Definition f32_of_Z (z : Z) : f32 := binary_normalize 24 128 z 0 false.
Definition f32_mul : f32 -> f32 -> f32 := SFmul 24 128.
Definition f32_add : f32 -> f32 -> f32 := SFadd 24 128.
Definition f32_sub : f32 -> f32 -> f32 := SFsub 24 128.

Definition EMA_ALPHA : f32 := binary_normalize 24 128 1 (-2) false.

(** [x.round()] of a float that is not negative, as an integer. *)
Definition f32_round (x : f32) : Z :=
  match x with
  | S754_finite false m e => if 0 <=? e then Z.shiftl (Zpos m) e else (Zpos m + 2 ^ (- e - 1)) / 2 ^ (- e)
  | _ => 0
  end.

(** [x.ceil() as usize]: the cast saturates. *)
Definition f32_ceil (x : f32) : Z :=
  match x with
  | S754_finite false m e => Z.min (if 0 <=? e then Z.shiftl (Zpos m) e else div_ceil (Zpos m) (2 ^ (- e))) usize_max
  | S754_infinity false => usize_max
  | _ => 0
  end.

(** The blended lifetime of the buddy trimmer. *)
Definition blend (new_avg avg_life : Z) : Z :=
  clamp (f32_round (f32_add (f32_mul EMA_ALPHA (f32_of_Z new_avg))
                            (f32_mul (f32_sub (f32_of_Z 1) EMA_ALPHA) (f32_of_Z avg_life)))) 10 600.

Record EmaSmoothing := mkEmaSmoothing { es_ema : f32; es_time : Z }.

Definition EmaSmoothing_new : EmaSmoothing := mkEmaSmoothing (f32_of_Z 10) 10.

Definition ema_update_refill (s : EmaSmoothing) (demand min max : Z) : EmaSmoothing :=
  let demand := Z.max demand 1 in
  let ema := f32_add (f32_mul EMA_ALPHA (f32_of_Z demand)) (f32_mul (f32_sub (f32_of_Z 1) EMA_ALPHA) (es_ema s)) in
  mkEmaSmoothing ema (clamp (f32_ceil ema) min max).

Definition ema_time (s : EmaSmoothing) (fallback : Z) : Z := Z.min (Z.max (es_time s) 1) fallback.

(** [x] is the exact value of [q] quarters, with an exponent of the range that
    lifetimes have. *)
Definition is_quarters (x : f32) (q : Z) : bool :=
  match x with
  | S754_finite false m e => (-22 <=? e) && (e <=? -15) && (Zpos m =? q * 2 ^ (-2 - e))
  | _ => false
  end.

Lemma new_quarters_check : forall_range 10 591 (fun a => is_quarters (f32_mul EMA_ALPHA (f32_of_Z a)) a) = true.
Proof. vm_compute. reflexivity. Qed.

Lemma old_quarters_check :
  forall_range 10 591 (fun b => is_quarters (f32_mul (f32_sub (f32_of_Z 1) EMA_ALPHA) (f32_of_Z b)) (3 * b)) = true.
Proof. vm_compute. reflexivity. Qed.

Lemma round_quarters_check :
  forall_range (-22) 8 (fun e => forall_range 40 2361 (fun q =>
    f32_round (binary_normalize 24 128 (q * 2 ^ (-2 - e)) e false) =? (q + 2) / 4)) = true.
Proof. vm_compute. reflexivity. Qed.

Lemma shl_align_eq m e ez : ez <= e -> Zpos (fst (shl_align m e ez)) = Zpos m * 2 ^ (e - ez).
Proof.
  intros He. unfold shl_align. destruct (ez - e) as [|d|d] eqn:Hd; [|lia|].
  - replace (e - ez) with 0 by lia. simpl. lia.
  - replace (e - ez) with (Zpos d) by lia. simpl fst. rewrite <- (Z.shiftl_mul_pow2 _ (Zpos d)) by lia. unfold Z.shiftl.
    clear Hd He. induction d as [|d IHd] using Pos.peano_ind; [done|]. rewrite !Pos.iter_succ. cbn [Z.mul Pos.mul]. by rewrite <- IHd.
Qed.

(** The sum of two amounts of quarters is rounded from the exact amount. *)
Lemma round_sum x y q r :
  is_quarters x q = true -> is_quarters y r = true -> 40 <= q + r <= 2400 -> f32_round (f32_add x y) = (q + r + 2) / 4.
Proof.
  destruct x as [| | |[] m e]; try done. destruct y as [| | |[] m' e']; try done. intros Hx Hy Hqr. unfold is_quarters in Hx, Hy.
  rewrite !andb_true_iff, !Z.leb_le, !Z.eqb_eq in Hx, Hy. destruct Hx as [[H1 H2] Hm], Hy as [[H3 H4] Hm'].
  unfold f32_add, SFadd, cond_Zopp. cbv zeta. rewrite !shl_align_eq by lia. rewrite Hm, Hm'.
  rewrite <- !Z.mul_assoc, <- !Z.pow_add_r by lia.
  replace (-2 - e + (e - e `min` e')) with (-2 - e `min` e') by lia. replace (-2 - e' + (e' - e `min` e')) with (-2 - e `min` e') by lia.
  rewrite <- Z.mul_add_distr_r. pose proof (forall_range_spec _ _ _ (e `min` e') round_quarters_check ltac:(lia)) as Hc. cbv beta in Hc.
  pose proof (forall_range_spec _ _ _ (q + r) Hc ltac:(lia)) as H. by apply Z.eqb_eq in H.
Qed.

(** C32: on lifetimes between 10 and 600 the floating-point smoothing is exact:
    the blended value is (new + 3 old) / 4 rounded to the nearest integer. *)
Theorem blend_exact (a b : Z) (Ha : 10 <= a <= 600) (Hb : 10 <= b <= 600) : blend a b = (a + 3 * b + 2) / 4.
Proof.
  unfold blend. rewrite (round_sum _ _ a (3 * b)); [| |by apply (forall_range_spec _ _ _ b old_quarters_check); lia|lia].
  - unfold clamp. pose proof (Z.div_le_mono (10 + 3 * 10 + 2) (a + 3 * b + 2) 4 ltac:(lia) ltac:(lia)) as Hlo.
    pose proof (Z.div_le_mono (a + 3 * b + 2) (600 + 3 * 600 + 2) 4 ltac:(lia) ltac:(lia)) as Hhi.
    change ((10 + 3 * 10 + 2) / 4) with 10 in Hlo. change ((600 + 3 * 600 + 2) / 4) with 600 in Hhi. lia.
  - by apply (forall_range_spec _ _ _ a new_quarters_check); lia.
Qed.

Lemma blend_exact_witness : blend 10 600 = 453.
Proof. apply (blend_exact 10 600); lia. Defined.
