(* ===== verification/SList.v ===== *)
(** * Singly linked lists in memory

    Intrusive stacks threaded through objects with one [next] pointer: the
    per-CPU caches and transfer lists of freed blocks and the queues of pending
    spans.  [chain] ties a memory to the list of addresses it holds, up to the
    pointer that follows the last of them. *)

From S2P Require Import Prelude.

(** Objects with one link field. *)
Class SLinked (B : Type) := {
  s_next : B -> Z;
  with_s_next : Z -> B -> B;
  s_next_with v b : s_next (with_s_next v b) = v;
}.

#[export] Hint Rewrite @s_next_with : links.

Section SList.
Context {B : Type} `{!SLinked B}.
Implicit Types (m : gmap Z B) (l : list Z) (b : B).

(** The list [l] from [h], with the address [q] after it; no address is null. *)
Fixpoint chain m (h : Z) l (q : Z) : Prop :=
  match l with
  | [] => h = q
  | a :: l' => h = a /\ a <> 0 /\ exists b, m !! a = Some b /\ chain m (s_next b) l' q
  end.

Lemma chain_app m h l1 l2 q : chain m h (l1 ++ l2) q <-> exists c, chain m h l1 c /\ chain m c l2 q.
Proof.
  revert h. induction l1 as [|a l1 IH]; intros h; simpl.
  - split; [intros H; by exists h|by intros (c & -> & H)].
  - split.
    + intros (-> & Ha & b & Hb & (c & H1 & H2)%IH). exists c. eauto 8.
    + intros (c & (-> & Ha & b & Hb & H1) & H2). split_and!; [done..|]. exists b. split; [done|]. apply IH. eauto.
Qed.

Lemma chain_frame m m' h l q : (forall a, a ∈ l -> m' !! a = m !! a) -> chain m h l q -> chain m' h l q.
Proof.
  revert h. induction l as [|a l IH]; intros h Hm; simpl; [done|]. intros (-> & Ha & b & Hb & Hs).
  split_and!; [done..|]. exists b. rewrite Hm by (apply elem_of_cons; by left). split; [done|].
  apply IH; [|done]. intros c Hc. apply Hm, elem_of_cons. by right.
Qed.

Lemma chain_insert m h l q a b : a ∉ l -> chain m h l q -> chain (<[a := b]> m) h l q.
Proof. intros Ha. apply chain_frame. intros c Hc. rewrite lookup_insert_ne; [done|]. by intros ->. Qed.

Lemma chain_in m h l q a : chain m h l q -> a ∈ l -> a <> 0 /\ is_Some (m !! a).
Proof.
  revert h. induction l as [|c l IH]; intros h; [by intros _ ?%not_elem_of_nil|]. simpl.
  intros (-> & Hc & b & Hb & Hs) [->|Ha]%elem_of_cons; [split; [done|by exists b]|eauto].
Qed.

(** A list that ends in null starts with null exactly when it is empty. *)
Lemma chain_null m h l : chain m h l 0 -> h = 0 <-> l = [].
Proof.
  destruct l as [|a l]; simpl; [done|]. intros (-> & Ha & _). split; [done|discriminate].
Qed.

Lemma chain_head m h l : chain m h l 0 -> h <> 0 ->
  exists l', l = h :: l' /\ exists b, m !! h = Some b /\ chain m (s_next b) l' 0.
Proof.
  destruct l as [|a l]; simpl; [done|]. intros (-> & Ha & b & Hb & Hs) _. eauto.
Qed.

(** Redirect the last node of a list. *)
Lemma chain_redirect m h l t b q v :
  chain m h (l ++ [t]) q -> t ∉ l -> m !! t = Some b -> chain (<[t := with_s_next v b]> m) h (l ++ [t]) v.
Proof.
  intros (c & Hl & Ht)%chain_app Hnt Hb. apply chain_app. exists c. split; [by apply chain_insert|].
  simpl in *. destruct Ht as (-> & H0 & _). split_and!; [done..|]. eexists. split; [apply lookup_insert_eq|]. apply s_next_with.
Qed.

(** Put the list [l ++ [t]] in front of another one. *)
Lemma chain_prepend m h l t b q h' l' :
  chain m h (l ++ [t]) q -> chain m h' l' 0 -> NoDup ((l ++ [t]) ++ l') -> m !! t = Some b ->
  chain (<[t := with_s_next h' b]> m) h ((l ++ [t]) ++ l') 0.
Proof.
  intros H1 H2 Hnd Hb. rewrite NoDup_app in Hnd. destruct Hnd as (Hn1 & Hd & _).
  rewrite NoDup_app in Hn1. destruct Hn1 as (_ & Hn1 & _).
  apply chain_app. exists h'. split.
  - eapply chain_redirect; [done| |done]. intros Ht. apply (Hn1 t Ht). by left.
  - apply chain_insert; [|done]. intros Ht. apply (Hd t); [|done]. apply elem_of_app. right. by left.
Qed.

Lemma chain_push m h l a b :
  chain m h l 0 -> a ∉ l -> a <> 0 -> m !! a = Some b -> chain (<[a := with_s_next h b]> m) a (a :: l) 0.
Proof.
  intros Hl Ha H0 Hb. simpl. split_and!; [done..|]. eexists. split; [apply lookup_insert_eq|].
  rewrite s_next_with. by apply chain_insert.
Qed.

Lemma chain_length m h l q (D : gset Z) : chain m h l q -> NoDup l -> dom m ⊆ D -> (length l <= size D)%nat.
Proof.
  intros Hc Hnd HD. rewrite <- (size_list_to_set (C := gset Z) l Hnd). apply subseteq_size. intros a Ha%elem_of_list_to_set.
  apply HD, elem_of_dom. by destruct (chain_in _ _ _ _ _ Hc Ha).
Qed.
End SList.
