(* ===== verification/PendingQueue.v ===== *)
(** * The queue of pending spans (src/rseq_core/pending_queue.rs)

    A span that a thread leaves behind when it exits goes to a stack of its node
    and size class, threaded through [MetaData.next_page], where the next thread
    of the node that refills the class finds it.  The state is the table of stack
    heads; the span metadata are objects of a memory [gmap Z MetaData].  Each
    operation runs under the slot's lock.  The theorem is the refinement of the
    table by one list per slot. *)

From S2P Require Import Prelude Types SizeClasses Kernel SList.

#[export] Instance MetaData_linked : SLinked MetaData.
Proof.
  refine {| s_next := md_next_page;
            with_s_next v m := mkMetaData v (md_start m) (md_end m) (md_next m) (md_node_id m) |}.
  done.
Defined.

(** [Slot { head, lock }]: [SpinLock] is 64-byte aligned, so a slot takes two
    cache lines.  The lock is not part of the sequential state. *)
Definition Slot_SIZE : Z := 128.

Definition class_count : nat := Z.to_nat NUM_SIZE_CLASSES.

Record ThreadQueue := mkThreadQueue {
  tq_nodes : option (list (list Z));
  tq_node_count : Z;
  tq_once : bool;
  tq_is_numa : bool;
}.

Definition ThreadQueue_new : ThreadQueue := mkThreadQueue None 0 false false.

Section Init.
Context {K} `{!Kernel K}.

(** [init]: the table is zeroed memory; without it the queue stays unusable. *)
Definition ThreadQueue_init (q : ThreadQueue) (node_count : Z) (is_numa : bool) (k : K) : ThreadQueue * K :=
  if tq_once q then (q, k)
  else
    let node_count := Z.max node_count 1 in
    let bytes := wmul (Slot_SIZE * NUM_SIZE_CLASSES) node_count in
    match mmap_anonymous bytes k with
    | (Some mem, k) =>
        (mkThreadQueue (Some (replicate (Z.to_nat node_count) (replicate class_count null)))
           node_count true is_numa, k)
    | (None, k) => (mkThreadQueue (tq_nodes q) (tq_node_count q) true (tq_is_numa q), k)
    end.
End Init.

(** The slot of a node and class: the node's row and the class, [None] when the
    code finds none. *)
Definition slot (q : ThreadQueue) (node_id : Z) (class : nat) : option (nat * nat) :=
  match tq_nodes q with
  | None => None
  | Some _ =>
      if negb (tq_is_numa q) then Some (O, class)
      else if tq_node_count q <=? node_id then None
      else Some (Z.to_nat node_id, class)
  end.

Definition get_head (q : ThreadQueue) (s : nat * nat) : outcome Z :=
  from_option (tq_nodes q ≫= fun t => t !! s.1 ≫= fun row => row !! s.2).

Definition set_head (q : ThreadQueue) (s : nat * nat) (v : Z) : ThreadQueue :=
  mkThreadQueue (alter (fun row => <[s.2 := v]> row) s.1 <$> tq_nodes q) (tq_node_count q) (tq_once q) (tq_is_numa q).

Abbreviation spans := (gmap Z MetaData) (only parsing).

(** [insert]: without a slot the span is dropped. *)
Definition queue_insert (q : ThreadQueue) (m : spans) (class : nat) (node : Z) : outcome (ThreadQueue * spans) :=
  x ← from_option (m !! node);
  match slot q (md_node_id x) class with
  | None => Ret (q, m)
  | Some s =>
      head ← get_head q s;
      Ret (set_head q s node, <[node := with_s_next head x]> m)
  end.

Definition queue_pop (q : ThreadQueue) (m : spans) (node_id : Z) (class : nat) : outcome (Z * (ThreadQueue * spans)) :=
  match slot q node_id class with
  | None => Ret (null, (q, m))
  | Some s =>
      node ← get_head q s;
      if node =? null then Ret (null, (q, m))
      else
        x ← from_option (m !! node);
        Ret (node, (set_head q s (md_next_page x), <[node := with_s_next null x]> m))
  end.

(** ** The abstract queue: one list of spans per slot *)

Definition stacks := nat * nat -> list Z.

(** The table [q] over the memory [m] holds the lists [Q]. *)
Record queue_rep (q : ThreadQueue) (m : spans) (Q : stacks) : Prop := {
  qr_table : forall n c, (c < class_count)%nat -> forall s, slot q n c = Some s -> exists h, get_head q s = Ret h;
  qr_chain : forall s h, get_head q s = Ret h -> chain m h (Q s) 0;
  qr_empty : forall s, get_head q s = Stuck -> Q s = [];
  qr_nodup : forall s, NoDup (Q s);
  qr_disjoint : forall s s' a, a ∈ Q s -> a ∈ Q s' -> s = s';
}.

Definition upd_stack (Q : stacks) (s : nat * nat) (l : list Z) : stacks :=
  fun s' => if decide (s' = s) then l else Q s'.

Lemma slot_set_head q s v n c : slot (set_head q s v) n c = slot q n c.
Proof. unfold slot, set_head. simpl. by destruct (tq_nodes q). Qed.

Lemma get_set_head q s s' v h :
  get_head q s = Ret h -> get_head (set_head q s v) s' = if decide (s' = s) then Ret v else get_head q s'.
Proof.
  unfold get_head, set_head. simpl. destruct (tq_nodes q) as [t|]; [|done]. simpl.
  destruct s as [i j], s' as [i' j']. simpl. destruct (t !! i) as [row|] eqn:Hi; [|done]. simpl.
  destruct (row !! j) as [h0|] eqn:Hj; [|done]. intros _. destruct (decide (i' = i)) as [->|Hne].
  - rewrite list_lookup_alter_eq, Hi. simpl. destruct (decide (j' = j)) as [->|Hne].
    + rewrite decide_True by done. rewrite list_lookup_insert_eq; [done|]. by eapply lookup_lt_Some.
    + rewrite decide_False by congruence. by rewrite list_lookup_insert_ne by done.
  - rewrite decide_False by congruence. by rewrite list_lookup_alter_ne by done.
Qed.

Lemma queue_live q m Q s a : queue_rep q m Q -> a ∈ Q s -> a <> 0 /\ exists x, m !! a = Some x.
Proof.
  intros HR Ha. destruct (get_head q s) as [h|e|] eqn:Hh.
  - exact (chain_in _ _ _ _ _ (qr_chain _ _ _ HR _ _ Hh) Ha).
  - unfold get_head in Hh. by destruct (_ : option Z) in Hh.
  - rewrite (qr_empty _ _ _ HR _ Hh) in Ha. by apply not_elem_of_nil in Ha.
Qed.

(** A new head of one slot, over a memory that differs on the span concerned. *)
Lemma rep_set_head q m Q s h v m' l a :
  queue_rep q m Q -> get_head q s = Ret h -> chain m' v l 0 -> NoDup l ->
  (forall b, b <> a -> m' !! b = m !! b) -> (forall s', s' <> s -> a ∉ Q s') ->
  (forall b, b ∈ l -> b = a \/ b ∈ Q s) -> queue_rep (set_head q s v) m' (upd_stack Q s l).
Proof.
  intros [R1 R2 R3 R4 R5] Hh Hc Hnd Hm Hout Hin. constructor; unfold upd_stack.
  - intros n c Hcl s' Hs. rewrite slot_set_head in Hs. rewrite (get_set_head _ _ _ _ _ Hh). case_decide; [eauto|]. by eapply R1.
  - intros s' h'. rewrite (get_set_head _ _ _ _ _ Hh). case_decide as Hs; [by intros [= <-]|]. intros Hh'.
    eapply chain_frame; [|by apply R2]. intros b Hb. apply Hm. intros ->. by apply (Hout s' Hs).
  - intros s'. rewrite (get_set_head _ _ _ _ _ Hh). case_decide; [done|]. apply R3.
  - intros s'. case_decide; [done|]. apply R4.
  - assert (Hx : forall s' b, s' <> s -> b ∈ l -> b ∉ Q s').
    { intros s' b Hne Hb Hb'. destruct (Hin b Hb) as [->|Hb2]; [by apply (Hout s' Hne)|]. by apply Hne, (R5 _ _ b). }
    intros s1 s2 b. repeat case_decide; subst; [done| | |apply R5].
    + intros Hb1 Hb2. by destruct (Hx s2 b).
    + intros Hb1 Hb2. by destruct (Hx s1 b).
Qed.

(** The same live spans, of the same nodes. *)
Definition same_nodes (m m' : spans) : Prop := forall a, md_node_id <$> m' !! a = md_node_id <$> m !! a.

Lemma same_nodes_insert m a x v : m !! a = Some x -> same_nodes m (<[a := with_s_next v x]> m).
Proof.
  intros Hx b. destruct (decide (b = a)) as [->|]; [by rewrite lookup_insert_eq, Hx|by rewrite lookup_insert_ne].
Qed.

Lemma same_nodes_lookup m m' a x : same_nodes m m' -> m !! a = Some x -> exists x', m' !! a = Some x' /\ md_node_id x' = md_node_id x.
Proof. intros H Hx. specialize (H a). rewrite Hx in H. destruct (m' !! a) as [x'|]; [|done]. injection H. eauto. Qed.

Lemma insert_rep q m Q class node x :
  queue_rep q m Q -> m !! node = Some x -> node <> 0 -> (class < class_count)%nat -> (forall s, node ∉ Q s) ->
  exists q' m', queue_insert q m class node = Ret (q', m') /\
    match slot q (md_node_id x) class with
    | None => q' = q /\ m' = m
    | Some s => queue_rep q' m' (upd_stack Q s (node :: Q s)) /\ same_nodes m m'
    end.
Proof.
  intros HR Hx H0 Hcl Hout. unfold queue_insert. rewrite Hx. cbn [from_option mbind outcome_bind].
  destruct (slot q (md_node_id x) class) as [s|] eqn:Hs; [|eauto].
  destruct (qr_table _ _ _ HR _ _ Hcl _ Hs) as [h Hh]. rewrite Hh. cbn [mbind outcome_bind].
  eexists _, _. split; [done|]. split.
  - pose proof (qr_chain _ _ _ HR _ _ Hh) as Hc. apply (rep_set_head _ _ _ _ _ _ _ _ node HR Hh).
    + by apply chain_push.
    + constructor; [done|apply HR].
    + intros b Hb. by rewrite lookup_insert_ne.
    + intros s' _. apply Hout.
    + intros b [->|Hb]%elem_of_cons; auto.
  - by apply same_nodes_insert.
Qed.

Lemma pop_rep q m Q node_id class :
  queue_rep q m Q -> (class < class_count)%nat ->
  match slot q node_id class with
  | None => queue_pop q m node_id class = Ret (null, (q, m))
  | Some s =>
      match Q s with
      | [] => queue_pop q m node_id class = Ret (null, (q, m))
      | a :: l => exists q' m', queue_pop q m node_id class = Ret (a, (q', m')) /\ queue_rep q' m' (upd_stack Q s l) /\ same_nodes m m'
      end
  end.
Proof.
  intros HR Hcl. unfold queue_pop. destruct (slot q node_id class) as [s|] eqn:Hs; [|done].
  destruct (qr_table _ _ _ HR _ _ Hcl _ Hs) as [h Hh]. pose proof (qr_chain _ _ _ HR _ _ Hh) as Hc. rewrite Hh. cbn [mbind outcome_bind].
  pose proof (qr_nodup _ _ _ HR s) as Hnd. destruct (Q s) as [|a l] eqn:HQ.
  - simpl in Hc. by subst h.
  - destruct Hc as (-> & H0 & x & Hx & Hl). destruct (Z.eqb_spec a null) as [|_]; [done|]. rewrite Hx. cbn [from_option mbind outcome_bind].
    eexists _, _. split; [done|]. apply NoDup_cons in Hnd as [Hal Hnd]. split.
    + apply (rep_set_head _ _ _ _ _ _ _ _ a HR Hh).
      * by apply chain_insert.
      * done.
      * intros b Hb. by rewrite lookup_insert_ne.
      * intros s' Hne Ha. apply Hne. eapply (qr_disjoint _ _ _ HR); [done|]. rewrite HQ. by left.
      * intros b Hb. right. rewrite HQ. by right.
    + by apply same_nodes_insert.
Qed.

(** ** Sequences of operations *)

Inductive queue_op := QInsert (class : nat) (node : Z) | QPop (node_id : Z) (class : nat).

(** An insertion returns nothing, shown as null. *)
Definition run_queue_op (q : ThreadQueue) (m : spans) (o : queue_op) : outcome (Z * (ThreadQueue * spans)) :=
  match o with
  | QInsert class node => pair null <$> queue_insert q m class node
  | QPop node_id class => queue_pop q m node_id class
  end.

Fixpoint run_queue (q : ThreadQueue) (m : spans) (ops : list queue_op) : outcome (list Z * (ThreadQueue * spans)) :=
  match ops with
  | [] => Ret ([], (q, m))
  | o :: ops => '(r, (q, m)) ← run_queue_op q m o; '(rs, st) ← run_queue q m ops; Ret (r :: rs, st)
  end.

Section Spec.
Context (table : ThreadQueue) (node_of : Z -> Z).

(** The lists and the spans the threads hold; an insertion gives up a span the
    thread holds. *)
Definition spec_queue_op (Q : stacks) (held : gset Z) (o : queue_op) : option (Z * (stacks * gset Z)) :=
  match o with
  | QInsert class node =>
      if decide (node ∈ held /\ (class < class_count)%nat) then
        match slot table (node_of node) class with
        | None => Some (null, (Q, held ∖ {[ node ]}))
        | Some s => Some (null, (upd_stack Q s (node :: Q s), held ∖ {[ node ]}))
        end
      else None
  | QPop node_id class =>
      if decide (class < class_count)%nat then
        match slot table node_id class with
        | None => Some (null, (Q, held))
        | Some s =>
            match Q s with
            | [] => Some (null, (Q, held))
            | a :: l => Some (a, (upd_stack Q s l, {[ a ]} ∪ held))
            end
        end
      else None
  end.

Fixpoint spec_queue (Q : stacks) (held : gset Z) (ops : list queue_op) : option (list Z * (stacks * gset Z)) :=
  match ops with
  | [] => Some ([], (Q, held))
  | o :: ops => '(r, (Q, held)) ← spec_queue_op Q held o; '(rs, st) ← spec_queue Q held ops; Some (r :: rs, st)
  end.

(** The implementation holds the lists, and the spans held are live and in none
    of them. *)
Record queue_sim (q : ThreadQueue) (m : spans) (Q : stacks) (held : gset Z) : Prop := {
  qs_rep : queue_rep q m Q;
  qs_slot : forall n c, slot q n c = slot table n c;
  qs_held : forall a, a ∈ held -> a <> 0 /\ (exists x, m !! a = Some x /\ md_node_id x = node_of a) /\ forall s, a ∉ Q s;
  qs_node : forall s a x, a ∈ Q s -> m !! a = Some x -> md_node_id x = node_of a;
}.

Lemma slot_kept q m (r : outcome (Z * (ThreadQueue * spans))) o v q' m' n c :
  run_queue_op q m o = r -> r = Ret (v, (q', m')) -> slot q' n c = slot q n c.
Proof.
  intros <-. destruct o as [cl a|ni cl]; simpl; unfold queue_insert, queue_pop.
  - destruct (m !! a); [|done]. cbn. destruct (slot q _ cl); cbn; [|by intros [= _ <- _]].
    destruct (get_head q p); cbn; [|done..]. intros [= _ <- _]. apply slot_set_head.
  - destruct (slot q ni cl); cbn; [|by intros [= _ <- _]]. destruct (get_head q p) as [h| |]; cbn; [|done..].
    case_match; [by intros [= _ <- _]|]. destruct (m !! h); cbn; [|done]. intros [= _ <- _]. apply slot_set_head.
Qed.

Lemma sim_step q m Q held o v Q' held' :
  queue_sim q m Q held -> spec_queue_op Q held o = Some (v, (Q', held')) ->
  exists q' m', run_queue_op q m o = Ret (v, (q', m')) /\ queue_sim q' m' Q' held'.
Proof.
  intros [HR Hsl Hh Hn] Hs. destruct o as [c a|n c]; simpl in Hs; case_decide as Hg; [|done| |done].
  - destruct Hg as [Ha Hc]. destruct (Hh a Ha) as (H0 & (x & Hx & Hxn) & Hout).
    destruct (insert_rep q m Q c a x HR Hx H0 Hc Hout) as (q' & m' & Hrun & Hcase). rewrite Hsl, Hxn in Hcase.
    assert (Hr : run_queue_op q m (QInsert c a) = Ret (null, (q', m'))) by (simpl; by rewrite Hrun).
    destruct (slot table (node_of a) c) as [s|]; simplify_eq.
    + destruct Hcase as [HR' Hsn]. exists q', m'. split; [done|]. constructor; [done| | |].
      * intros n' c'. rewrite <- Hsl. by eapply slot_kept.
      * intros b [Hb Hba]%elem_of_difference. destruct (Hh b Hb) as (Hb0 & (y & Hy & Hyn) & Hbo).
        destruct (same_nodes_lookup _ _ _ _ Hsn Hy) as (y' & Hy' & Hyn'). split; [done|]. split; [exists y'; split; congruence|].
        intros s'. unfold upd_stack. case_decide; [|apply Hbo]. intros [->|Hb']%elem_of_cons; [set_solver|by apply (Hbo s)].
      * intros s' b y Hb Hy. unfold same_nodes in Hsn. specialize (Hsn b). rewrite Hy in Hsn. destruct (m !! b) as [y0|] eqn:Hy0; [|done].
        injection Hsn as ->. unfold upd_stack in Hb. case_decide; [|by eapply Hn].
        apply elem_of_cons in Hb as [->|Hb]; [congruence|by eapply Hn].
    + destruct Hcase as [-> ->]. exists q, m. split; [done|]. constructor; [done..| |done]. intros b Hb. apply Hh. set_solver.
  - pose proof (pop_rep q m Q n c HR Hg) as Hp. rewrite Hsl in Hp. destruct (slot table n c) as [s|]; [|simplify_eq; by exists q, m].
    destruct (Q s) as [|a l] eqn:HQ; injection Hs as <- <- <-; [by exists q, m|]. destruct Hp as (q' & m' & Hrun & HR' & Hsn).
    exists q', m'. split; [done|]. assert (Hback : forall b y, m' !! b = Some y -> exists y0, m !! b = Some y0 /\ md_node_id y0 = md_node_id y).
    { intros b y Hy. specialize (Hsn b). rewrite Hy in Hsn. destruct (m !! b) as [y0|]; [|done]. injection Hsn. eauto. }
    assert (Has : a ∈ Q s) by (rewrite HQ; by left). pose proof (qr_nodup _ _ _ HR s) as Hnd. rewrite HQ in Hnd. apply NoDup_cons in Hnd as [Hal _].
    assert (Hsub : forall s' b, b ∈ upd_stack Q s l s' -> b ∈ Q s').
    { intros s' b. unfold upd_stack. case_decide; [subst; rewrite HQ; by right|done]. }
    constructor; [done| | |].
    + intros n' c'. rewrite <- Hsl. by eapply (slot_kept q m _ (QPop n c)).
    + intros b [->%elem_of_singleton|Hb]%elem_of_union.
      * destruct (queue_live _ _ _ _ _ HR Has) as (H0 & y & Hy). destruct (same_nodes_lookup _ _ _ _ Hsn Hy) as (y' & Hy' & Hyn).
        split; [done|]. split; [exists y'; split; [done|]; rewrite Hyn; by eapply Hn|]. intros s'. unfold upd_stack. case_decide; [done|].
        intros Ha. by apply (qr_disjoint _ _ _ HR s' s) in Ha.
      * destruct (Hh b Hb) as (Hb0 & (y & Hy & Hyn) & Hbo). destruct (same_nodes_lookup _ _ _ _ Hsn Hy) as (y' & Hy' & Hyn').
        split; [done|]. split; [exists y'; split; congruence|]. intros s' Hbs. by apply (Hbo s'), Hsub.
    + intros s' b y Hb Hy. destruct (Hback b y Hy) as (y0 & Hy0 & <-). by eapply Hn; [apply Hsub|].
Qed.

Lemma sim_run ops q m Q held rs Q' held' :
  queue_sim q m Q held -> spec_queue Q held ops = Some (rs, (Q', held')) ->
  exists q' m', run_queue q m ops = Ret (rs, (q', m')) /\ queue_sim q' m' Q' held'.
Proof.
  revert q m Q held rs. induction ops as [|o ops IH]; intros q m Q held rs Hsim Hs; cbn [spec_queue run_queue] in *.
  - simplify_eq. by exists q, m.
  - destruct (spec_queue_op Q held o) as [[v [Q1 h1]]|] eqn:Ho; [|done]. simpl in Hs.
    destruct (spec_queue Q1 h1 ops) as [[vs st]|] eqn:Hos; [|done]. simpl in Hs. simplify_eq.
    destruct (sim_step _ _ _ _ _ _ _ _ Hsim Ho) as (q1 & m1 & Hr1 & Hsim1). destruct (IH _ _ _ _ _ Hsim1 Hos) as (q2 & m2 & Hr2 & Hsim2).
    exists q2, m2. rewrite Hr1. cbn [mbind outcome_bind]. by rewrite Hr2.
Qed.
End Spec.

Lemma fresh_head n i j h :
  (replicate n (replicate class_count 0) !! i ≫= fun row => row !! j) = Some h -> h = 0.
Proof.
  destruct (_ !! i) as [row|] eqn:Hi; [|done]. apply lookup_replicate in Hi as [-> _]. cbn [mbind option_bind]. by intros [-> _]%lookup_replicate.
Qed.

(** A freshly initialised table holds empty lists. *)
Lemma init_rep {K} `{!Kernel K} node_count is_numa (k k' : K) q m :
  ThreadQueue_init ThreadQueue_new node_count is_numa k = (q, k') -> queue_rep q m (fun _ => []).
Proof.
  intros Hi. unfold ThreadQueue_init in Hi. cbn [ThreadQueue_new tq_once tq_nodes tq_node_count tq_is_numa] in Hi.
  assert (Hin : forall (s s' : nat * nat) (a : Z), a ∈ [] -> a ∈ [] -> s = s') by (by intros s s' a ?%not_elem_of_nil).
  destruct (mmap_anonymous _ k) as [[mem|] k1]; apply (inj2 pair) in Hi as [<- _].
  - split; [| |done|by constructor|done].
    + intros n c Hc s. unfold slot, get_head. cbn [tq_nodes tq_is_numa tq_node_count mbind option_bind]. intros Hs.
      assert (Hrow : (s.1 < Z.to_nat (node_count `max` 1))%nat /\ s.2 = c).
      { destruct is_numa; simpl in Hs; [case_match; [done|]|]; simplify_eq; bool_lia; simpl; lia. }
      destruct Hrow as [Hrow ->]. exists 0. rewrite (lookup_replicate_2 _ _ _ Hrow). cbn [mbind option_bind]. by rewrite (lookup_replicate_2 _ _ _ Hc).
    + intros s h. unfold get_head. cbn [tq_nodes mbind option_bind]. destruct (_ ≫= _) as [h0|] eqn:Hh; [|done]. intros [= <-]. simpl. by eapply fresh_head.
  - split; [|done..|by constructor|done]. intros n c _ s Hs. done.
Qed.

(** C33: from an initialised queue, any sequence of insertions of spans the
    threads hold and of pops runs to its end and returns what one LIFO list per
    slot, that is per node and class, returns: a span comes back at most once, to the
    node and class it was left for.  A span of a node without a slot, and every span
    when the table of slots could not be mapped, is dropped by both. *)
Theorem pending_queue_lifo {K} `{!Kernel K} (node_count : Z) (is_numa : bool) (k k' : K) (q : ThreadQueue) (m : spans)
    (held : gset Z) (ops : list queue_op) (rs : list Z) (Q : stacks) (held' : gset Z)
    (Hinit : ThreadQueue_init ThreadQueue_new node_count is_numa k = (q, k'))
    (Hheld : forall a, a ∈ held -> a <> 0 /\ a ∈ dom m)
    (Hspec : spec_queue q (fun a => default 0 (md_node_id <$> m !! a)) (fun _ => []) held ops = Some (rs, (Q, held'))) :
  exists q' m', run_queue q m ops = Ret (rs, (q', m')) /\ queue_rep q' m' Q.
Proof.
  destruct (sim_run q (fun a => default 0 (md_node_id <$> m !! a)) ops q m (fun _ => []) held rs Q held') as (q' & m' & Hr & Hs);
    [|done|exists q', m'; split; [done|apply Hs]].
  constructor; [by eapply init_rep|done| |by intros s a x ?%not_elem_of_nil].
  intros a Ha. destruct (Hheld a Ha) as [H0 [x Hx]%elem_of_dom]. split; [done|]. split; [|by intros s ?%not_elem_of_nil].
  exists x. by rewrite Hx.
Qed.

Definition pending_demo : spans :=
  <[8192 := mkMetaData 0 8192 12288 8240 1]> (<[4096 := mkMetaData 0 4096 8192 4144 0]> ∅).

Lemma pending_queue_lifo_witness :
  let q := (ThreadQueue_init ThreadQueue_new 2 true BumpKernel.empty).1 in
  exists q' m', run_queue q pending_demo [QInsert 3 4096; QInsert 3 8192; QPop 0 3; QPop 0 3; QPop 1 3; QInsert 7 8192; QPop 1 7] =
    Ret ([0; 0; 4096; 0; 8192; 0; 8192], (q', m')).
Proof.
  edestruct (pending_queue_lifo 2 true BumpKernel.empty (ThreadQueue_init ThreadQueue_new 2 true BumpKernel.empty).2
    (ThreadQueue_init ThreadQueue_new 2 true BumpKernel.empty).1 pending_demo {[ 4096; 8192 ]}
    [QInsert 3 4096; QInsert 3 8192; QPop 0 3; QPop 0 3; QPop 1 3; QInsert 7 8192; QPop 1 7])
    as (q' & m' & H & _); [reflexivity| |vm_compute; reflexivity|by exists q', m'].
  intros a [Ha|Ha]%elem_of_union; apply elem_of_singleton in Ha as ->; (split; [done|apply elem_of_dom; eexists; vm_compute; reflexivity]).
Defined.
