(* ===== verification/Rseq.v ===== *)
(** * Restartable sequences on the per-CPU lists (src/rseq_core/rseq_asm.rs)

    The three critical sections as the instruction sequences of the source, on a
    machine of threads that run on CPUs.  A thread can be preempted between any
    two instructions and resumed on any free CPU; the kernel then updates
    [cpu_id_start] and, as rseq(2) documents, moves a thread that is inside the
    critical section its [rseq_cs] describes to the abort handler, and clears
    [rseq_cs].  The machine is sequentially consistent.  Nothing but the code of
    this file touches the per-CPU lists. *)

From S2P Require Import Prelude Types SList.

#[export] Instance Header_linked : SLinked Header.
Proof.
  refine {| s_next := h_next;
            with_s_next v h := mkHeader v (h_flags h) (h_class h) (h_magic h) (h_life_time h) |}.
  done.
Defined.

(** ** Instructions *)

Inductive instr :=
  | LeaCs            (* lea tmp, [rip + 4b] *)
  | StoreCs          (* mov [cs_ptr], tmp *)
  | ClearCs          (* mov qword ptr [cs_ptr], 0 *)
  | CmpCpu           (* cmp [cpu_id_start], cpu_id *)
  | Jne (l : nat)
  | Jz (l : nat)
  | Jmp (l : nat)
  | LoadList         (* mov tmp, [list] *)
  | StoreTail        (* mov [tail], tmp *)
  | StoreHeader      (* mov [header], tmp *)
  | TestTmp          (* test tmp, tmp *)
  | TestNext         (* test next, next *)
  | LoadNext         (* mov next, [tmp] *)
  | Prefetch         (* prefetcht0 [next] *)
  | ListHeader       (* mov [list], header *)
  | ListNext         (* mov [list], next *)
  | LockAdd          (* lock add qword ptr [usage], batch_total *)
  | LockInc          (* lock inc qword ptr [usage] *)
  | LockDec          (* lock dec qword ptr [usage] *)
  | MovRes (z : Z)   (* mov res, z *)
  | MovResTmp        (* mov res, tmp *)
  | XorRes.          (* xor res, res *)

(** -1 as a 64-bit register. *)
Definition minus_one : Z := 2 ^ 64 - 1.

(** A section: its instructions, the half-open range of the descriptor at label
    4 (labels 1 and 2) and the abort handler (label 3). *)
Record section := mkSection { code : list instr; cs_start : nat; cs_end : nat; cs_abort : nat }.

Definition push_tailed : section := mkSection
  [LeaCs; StoreCs;
   (* 1: *) CmpCpu; Jne 11;
   LoadList; StoreTail; ListHeader;
   (* 2: *) ClearCs; LockAdd; MovRes 1; Jmp 13;
   (* 3: *) ClearCs; MovRes minus_one
   (* 5: *)] 2 7 11.

Definition push : section := mkSection
  [LeaCs; StoreCs;
   (* 1: *) CmpCpu; Jne 11;
   LoadList; StoreHeader; ListHeader;
   (* 2: *) ClearCs; LockInc; MovRes 1; Jmp 13;
   (* 3: *) ClearCs; MovRes minus_one
   (* 5: *)] 2 7 11.

Definition pop : section := mkSection
  [LeaCs; StoreCs;
   (* 1: *) CmpCpu; Jne 19;
   LoadList; TestTmp; Jz 16;
   LoadNext; TestNext; Jz 11; Prefetch;
   (* 7: *) ListNext;
   (* 2: *) ClearCs; LockDec; MovResTmp; Jmp 21;
   (* 6: *) ClearCs; XorRes; Jmp 21;
   (* 3: *) ClearCs; MovRes minus_one
   (* 5: *)] 2 12 19.

(** ** The machine *)

(** A per-CPU list: the CPU and the size class. *)
Definition slot : Set := Z * Z.

Inductive operation := PushTailed | Push | Pop.

#[export] Instance operation_eq_dec : EqDecision operation.
Proof. solve_decision. Defined.

Definition section_of (o : operation) : section :=
  match o with PushTailed => push_tailed | Push => push | Pop => pop end.

(** A call in progress: its arguments and the registers.  [c_blocks] lists the
    blocks a push hands over; the code does not see it. *)
Record call := mkCall {
  c_op : operation;
  c_cpu : Z;
  c_class : Z;
  c_header : Z;
  c_tail : Z;
  c_batch : Z;
  c_blocks : list Z;
  c_pc : nat;
  c_tmp : Z;
  c_next : Z;
  c_zf : bool;
  c_res : Z;
}.

Definition c_slot (c : call) : slot := (c_cpu c, c_class c).

(** A thread: whether it runs, its [rseq] area ([cpu_id_start], [rseq_cs]), the
    call it is in, and the blocks its program holds. *)
Record thread := mkThread {
  t_run : bool;
  t_cpu : Z;
  t_cs : Z;
  t_call : option call;
  t_owned : gset Z;
}.

Record machine := mkMachine {
  m_threads : list thread;
  m_heads : slot -> Z;
  m_usage : slot -> Z;
  m_mem : gmap Z Header;
}.

Definition upd {A} (f : slot -> A) (s : slot) (v : A) : slot -> A := fun s' => if decide (s' = s) then v else f s'.

Definition with_pc (c : call) (pc : nat) : call :=
  mkCall (c_op c) (c_cpu c) (c_class c) (c_header c) (c_tail c) (c_batch c) (c_blocks c) pc (c_tmp c) (c_next c) (c_zf c) (c_res c).

Definition with_tmp (c : call) (v : Z) : call :=
  mkCall (c_op c) (c_cpu c) (c_class c) (c_header c) (c_tail c) (c_batch c) (c_blocks c) (S (c_pc c)) v (c_next c) (c_zf c) (c_res c).

Definition with_next_reg (c : call) (v : Z) : call :=
  mkCall (c_op c) (c_cpu c) (c_class c) (c_header c) (c_tail c) (c_batch c) (c_blocks c) (S (c_pc c)) (c_tmp c) v (c_zf c) (c_res c).

Definition with_zf (c : call) (b : bool) : call :=
  mkCall (c_op c) (c_cpu c) (c_class c) (c_header c) (c_tail c) (c_batch c) (c_blocks c) (S (c_pc c)) (c_tmp c) (c_next c) b (c_res c).

Definition with_res (c : call) (v : Z) : call :=
  mkCall (c_op c) (c_cpu c) (c_class c) (c_header c) (c_tail c) (c_batch c) (c_blocks c) (S (c_pc c)) (c_tmp c) (c_next c) (c_zf c) v.

Definition with_call (th : thread) (c : call) : thread := mkThread (t_run th) (t_cpu th) (t_cs th) (Some c) (t_owned th).

Definition with_cs (th : thread) (v : Z) (c : call) : thread := mkThread (t_run th) (t_cpu th) v (Some c) (t_owned th).

Section Machine.
(** The address of the descriptor of the section. *)
Context (cs_addr : Z).

(** The shared memory the instructions act on. *)
Definition shared : Type := (slot -> Z) * (slot -> Z) * gmap Z Header.

(** A store to the first word of a header, its [next] field. *)
Definition store_next (mem : gmap Z Header) (a v : Z) : option (gmap Z Header) :=
  h ← mem !! a; Some (<[a := with_s_next v h]> mem).

(** One instruction of thread [th] in call [c]; [None] is a fault. *)
Definition exec (i : instr) (th : thread) (c : call) (sh : shared) : option (thread * shared) :=
  let '(heads, usage, mem) := sh in
  let next c := with_pc c (S (c_pc c)) in
  match i with
  | LeaCs => Some (with_call th (with_tmp c cs_addr), sh)
  | StoreCs => Some (with_cs th (c_tmp c) (next c), sh)
  | ClearCs => Some (with_cs th 0 (next c), sh)
  | CmpCpu => Some (with_call th (with_zf c (t_cpu th =? c_cpu c)), sh)
  | Jne l => Some (with_call th (if c_zf c then next c else with_pc c l), sh)
  | Jz l => Some (with_call th (if c_zf c then with_pc c l else next c), sh)
  | Jmp l => Some (with_call th (with_pc c l), sh)
  | LoadList => Some (with_call th (with_tmp c (heads (c_slot c))), sh)
  | StoreTail => mem ← store_next mem (c_tail c) (c_tmp c); Some (with_call th (next c), (heads, usage, mem))
  | StoreHeader => mem ← store_next mem (c_header c) (c_tmp c); Some (with_call th (next c), (heads, usage, mem))
  | TestTmp => Some (with_call th (with_zf c (c_tmp c =? 0)), sh)
  | TestNext => Some (with_call th (with_zf c (c_next c =? 0)), sh)
  | LoadNext => h ← mem !! c_tmp c; Some (with_call th (with_next_reg c (s_next h)), sh)
  | Prefetch => Some (with_call th (next c), sh)
  | ListHeader => Some (with_call th (next c), (upd heads (c_slot c) (c_header c), usage, mem))
  | ListNext => Some (with_call th (next c), (upd heads (c_slot c) (c_next c), usage, mem))
  | LockAdd => Some (with_call th (next c), (heads, upd usage (c_slot c) (wadd (usage (c_slot c)) (c_batch c)), mem))
  | LockInc => Some (with_call th (next c), (heads, upd usage (c_slot c) (wadd (usage (c_slot c)) 1), mem))
  | LockDec => Some (with_call th (next c), (heads, upd usage (c_slot c) (wsub (usage (c_slot c)) 1), mem))
  | MovRes z => Some (with_call th (with_res c z), sh)
  | MovResTmp => Some (with_call th (with_res c (c_tmp c)), sh)
  | XorRes => Some (with_call th (with_res c 0), sh)
  end.

(** What the kernel does to a thread it resumes on CPU [cpu]. *)
Definition resume (th : thread) (cpu : Z) : thread :=
  let call :=
    match t_call th with
    | Some c =>
        let s := section_of (c_op c) in
        if negb (t_cs th =? 0) && (cs_start s <=? c_pc c)%nat && (c_pc c <? cs_end s)%nat
        then Some (with_pc c (cs_abort s)) else Some c
    | None => None
    end in
  mkThread true cpu 0 call (t_owned th).

(** A call a program may make: a push hands over a chain of blocks it holds. *)
Definition call_ok (mem : gmap Z Header) (owned : gset Z) (c : call) : Prop :=
  c_pc c = O /\
  match c_op c with
  | Pop => c_blocks c = []
  | o =>
      (exists l q, c_blocks c = l ++ [c_tail c] /\ chain mem (c_header c) (c_blocks c) q) /\
      NoDup (c_blocks c) /\ list_to_set (c_blocks c) ⊆ owned /\ c_batch c = Z.of_nat (length (c_blocks c)) /\
      (o = Push -> c_blocks c = [c_header c])
  end.

(** The program's view of a call that ended: after a push that returned 1 the
    blocks are gone; a pop that returned a block got it. *)
Definition returned (th : thread) (c : call) : thread :=
  mkThread (t_run th) (t_cpu th) (t_cs th) None
    match c_op c with
    | Pop => if (c_res c =? 0) || (c_res c =? minus_one) then t_owned th else {[ c_res c ]} ∪ t_owned th
    | _ => if c_res c =? 1 then t_owned th ∖ list_to_set (c_blocks c) else t_owned th
    end.

Definition put_thread (m : machine) (t : nat) (th : thread) : machine :=
  mkMachine (<[t := th]> (m_threads m)) (m_heads m) (m_usage m) (m_mem m).

Inductive step (m : machine) : machine -> Prop :=
  | step_instr t th c i th' heads usage mem :
      m_threads m !! t = Some th -> t_run th = true -> t_call th = Some c ->
      code (section_of (c_op c)) !! c_pc c = Some i ->
      exec i th c (m_heads m, m_usage m, m_mem m) = Some (th', (heads, usage, mem)) ->
      step m (mkMachine (<[t := th']> (m_threads m)) heads usage mem)
  | step_preempt t th :
      m_threads m !! t = Some th -> t_run th = true ->
      step m (put_thread m t (mkThread false (t_cpu th) (t_cs th) (t_call th) (t_owned th)))
  | step_resume t th cpu :
      m_threads m !! t = Some th -> t_run th = false ->
      (forall t' th', m_threads m !! t' = Some th' -> t_run th' = true -> t_cpu th' <> cpu) ->
      step m (put_thread m t (resume th cpu))
  | step_call t th c :
      m_threads m !! t = Some th -> t_run th = true -> t_call th = None -> call_ok (m_mem m) (t_owned th) c ->
      step m (put_thread m t (with_call th c))
  | step_return t th c :
      m_threads m !! t = Some th -> t_run th = true -> t_call th = Some c ->
      c_pc c = length (code (section_of (c_op c))) ->
      step m (put_thread m t (returned th c))
  | step_write t th a h :
      m_threads m !! t = Some th -> t_run th = true -> t_call th = None -> a ∈ t_owned th ->
      step m (mkMachine (m_threads m) (m_heads m) (m_usage m) (<[a := h]> (m_mem m))).
End Machine.

(** ** A section without interruption *)

(** At most [n] instructions of one thread, until its section ends. *)
Fixpoint run_alone (cs_addr : Z) (n : nat) (th : thread) (sh : shared) : option (thread * shared) :=
  match n with
  | O => Some (th, sh)
  | S n' =>
      c ← t_call th;
      match code (section_of (c_op c)) !! c_pc c with
      | None => Some (th, sh)
      | Some i => '(th', sh') ← exec cs_addr i th c sh; run_alone cs_addr n' th' sh'
      end
  end.

(** The list operations the sections implement: the result and the new memory. *)
Definition list_push (s : slot) (header tail count : Z) (sh : shared) : option (Z * shared) :=
  let '(heads, usage, mem) := sh in
  mem ← store_next mem tail (heads s);
  Some (1, (upd heads s header, upd usage s (wadd (usage s) count), mem)).

Definition list_pop (s : slot) (sh : shared) : option (Z * shared) :=
  let '(heads, usage, mem) := sh in
  if heads s =? 0 then Some (0, sh)
  else h ← mem !! heads s; Some (heads s, (upd heads s (s_next h), upd usage s (wsub (usage s) 1), mem)).

(** The effect of a call on the CPU [cpu]: an abort when it is not the CPU the
    caller read. *)
Definition call_effect (cpu : Z) (c : call) (sh : shared) : option (Z * shared) :=
  if cpu =? c_cpu c then
    match c_op c with
    | PushTailed => list_push (c_slot c) (c_header c) (c_tail c) (c_batch c) sh
    | Push => list_push (c_slot c) (c_header c) (c_header c) 1 sh
    | Pop => list_pop (c_slot c) sh
    end
  else Some (minus_one, sh).
