(* ===== verification/RseqProofs.v ===== *)
(** * No block is lost or duplicated by the restartable sequences

    The invariant of the machine of [Rseq] and its preservation by every step:
    each block is in exactly one place, on one per-CPU list or with one thread,
    under every interleaving, preemption and migration. *)

From S2P Require Import Prelude Types SList Rseq.

(** ** Where a block is *)

Inductive place := InList (s : slot) | Held (t : nat).

(** The instruction that publishes the new head has been executed. *)
Definition committed (c : call) : bool :=
  let pc := c_pc c in
  match c_op c with
  | Pop => ((12 <=? pc)%nat && (pc <? 16)%nat) || ((pc =? 21)%nat && negb (c_res c =? 0) && negb (c_res c =? minus_one))
  | _ => ((7 <=? pc)%nat && (pc <? 11)%nat) || ((pc =? 13)%nat && (c_res c =? 1))
  end.

(** The blocks with a thread, a committed call counted as returned. *)
Definition held (th : thread) : gset Z :=
  match t_call th with
  | None => t_owned th
  | Some c =>
      if committed c
      then match c_op c with Pop => {[ c_tmp c ]} ∪ t_owned th | _ => t_owned th ∖ list_to_set (c_blocks c) end
      else t_owned th
  end.

(** The change of a list's usage counter that a committed call still owes. *)
Definition owed (s : slot) (th : thread) : Z :=
  match t_call th with
  | None => 0
  | Some c =>
      if decide (c_slot c = s) then
        match c_op c with
        | Pop => if ((12 <=? c_pc c)%nat && (c_pc c <? 14)%nat) then -1 else 0
        | _ => if ((7 <=? c_pc c)%nat && (c_pc c <? 9)%nat) then c_batch c else 0
        end
      else 0
  end.

Definition total (f : thread -> Z) (ths : list thread) : Z := foldr (fun th n => f th + n) 0 ths.

Lemma total_insert f ths t th th' : ths !! t = Some th -> total f (<[t := th']> ths) = total f ths - f th + f th'.
Proof.
  revert t. induction ths as [|x ths IH]; intros [|t] Ht; simpl in *; simplify_eq; [lia|]. rewrite (IH _ Ht). lia.
Qed.

Section Inv.
Context (cs_addr : Z) (Hcs : cs_addr <> 0).

(** ** What holds inside the sections *)

Record push_local (heads : slot -> Z) (mem : gmap Z Header) (th : thread) (c : call) : Prop := {
  pl_pc : (c_pc c <= 13)%nat;
  pl_lea : c_pc c = 1%nat -> c_tmp c = cs_addr;
  pl_armed : (2 <= c_pc c < 7)%nat -> t_cs th <> 0;
  pl_zf : t_run th = true -> c_pc c = 3%nat -> c_zf c = (t_cpu th =? c_cpu c);
  pl_cpu : t_run th = true -> (4 <= c_pc c <= 6)%nat -> t_cpu th = c_cpu c;
  pl_tmp : t_run th = true -> (5 <= c_pc c <= 6)%nat -> c_tmp c = heads (c_slot c);
  pl_blocks : (c_pc c <= 6)%nat -> exists l q, c_blocks c = l ++ [c_tail c] /\ chain mem (c_header c) (c_blocks c) q /\
    (c_pc c = 6%nat -> q = c_tmp c);
  pl_nodup : NoDup (c_blocks c);
  pl_owned : list_to_set (c_blocks c) ⊆ t_owned th;
  pl_batch : c_batch c = Z.of_nat (length (c_blocks c));
  pl_single : c_op c = Push -> c_tail c = c_header c /\ c_batch c = 1;
  pl_res10 : c_pc c = 10%nat -> c_res c = 1;
  pl_res13 : c_pc c = 13%nat -> c_res c = 1 \/ c_res c = minus_one;
}.

Record pop_local (heads : slot -> Z) (mem : gmap Z Header) (th : thread) (c : call) : Prop := {
  ol_pc : (c_pc c <= 21)%nat;
  ol_lea : c_pc c = 1%nat -> c_tmp c = cs_addr;
  ol_armed : (2 <= c_pc c < 12)%nat -> t_cs th <> 0;
  ol_zf : t_run th = true -> c_pc c = 3%nat -> c_zf c = (t_cpu th =? c_cpu c);
  ol_cpu : t_run th = true -> (4 <= c_pc c <= 11)%nat -> t_cpu th = c_cpu c;
  ol_tmp : t_run th = true -> (5 <= c_pc c <= 11)%nat -> c_tmp c = heads (c_slot c);
  ol_test : c_pc c = 6%nat -> c_zf c = (c_tmp c =? 0);
  ol_some : (7 <= c_pc c <= 11)%nat -> c_tmp c <> 0;
  ol_next : t_run th = true -> (8 <= c_pc c <= 11)%nat -> exists h, mem !! c_tmp c = Some h /\ c_next c = s_next h;
  ol_res15 : c_pc c = 15%nat -> c_res c = c_tmp c;
  ol_res18 : c_pc c = 18%nat -> c_res c = 0;
  ol_res21 : c_pc c = 21%nat -> c_res c = 0 \/ c_res c = minus_one \/ c_res c = c_tmp c;
}.

Definition local (heads : slot -> Z) (mem : gmap Z Header) (th : thread) (c : call) : Prop :=
  match c_op c with Pop => pop_local heads mem th c | _ => push_local heads mem th c end.

(** ** The machine *)

Context (U : gset Z).

Record minv (m : machine) (w : Z -> option place) (Q : slot -> list Z) : Prop := {
  mi_dom : forall a, a ∈ U <-> is_Some (w a);
  mi_addr : forall a, a ∈ U -> 0 < a < minus_one /\ is_Some (m_mem m !! a);
  mi_chain : forall s, chain (m_mem m) (m_heads m s) (Q s) 0;
  mi_nodup : forall s, NoDup (Q s);
  mi_list : forall s a, a ∈ Q s <-> w a = Some (InList s);
  mi_held : forall t th a, m_threads m !! t = Some th -> a ∈ held th <-> w a = Some (Held t);
  mi_cpus : forall t t' th th', m_threads m !! t = Some th -> m_threads m !! t' = Some th' ->
    t_run th = true -> t_run th' = true -> t_cpu th = t_cpu th' -> t = t';
  mi_local : forall t th c, m_threads m !! t = Some th -> t_call th = Some c -> local (m_heads m) (m_mem m) th c;
  mi_usage : forall s, m_usage m s = wrap 64 (Z.of_nat (length (Q s)) - total (owed s) (m_threads m));
}.

(** One thread takes a step: what is to be shown of the others is that the shared
    memory they rely on is unchanged. *)
Lemma minv_update m w Q t th th' heads' usage' mem' w' Q' :
  minv m w Q -> m_threads m !! t = Some th ->
  (t_run th' = true -> forall t2 th2, t2 <> t -> m_threads m !! t2 = Some th2 -> t_run th2 = true -> t_cpu th2 <> t_cpu th') ->
  (forall a, is_Some (w' a) <-> is_Some (w a)) -> (forall a, is_Some (m_mem m !! a) -> is_Some (mem' !! a)) ->
  (forall s, chain mem' (heads' s) (Q' s) 0 /\ NoDup (Q' s) /\ forall a, a ∈ Q' s <-> w' a = Some (InList s)) ->
  (forall a, a ∈ held th' <-> w' a = Some (Held t)) ->
  (forall a t2, t2 <> t -> w' a = Some (Held t2) <-> w a = Some (Held t2)) ->
  (forall c, t_call th' = Some c -> local heads' mem' th' c) ->
  (forall t2 th2 c2, t2 <> t -> m_threads m !! t2 = Some th2 -> t_call th2 = Some c2 ->
     local (m_heads m) (m_mem m) th2 c2 -> local heads' mem' th2 c2) ->
  (forall s, usage' s = wrap 64 (Z.of_nat (length (Q' s)) - (total (owed s) (m_threads m) - owed s th + owed s th'))) ->
  minv (mkMachine (<[t := th']> (m_threads m)) heads' usage' mem') w' Q'.
Proof.
  intros [D A C N L H P O S] Ht Hc Hd Hm HQ Hh Ho Hl Hlo Hu. pose proof (lookup_lt_Some _ _ _ Ht) as Hlt.
  constructor; simpl; try (intros s; by apply HQ).
  - intros a. by rewrite Hd.
  - intros a Ha. destruct (A a Ha). auto.
  - intros t2 th2 a. destruct (decide (t2 = t)) as [->|Hne]; [rewrite list_lookup_insert_eq by done; by intros [= <-]|].
    rewrite list_lookup_insert_ne by done. rewrite Ho by done. apply H.
  - intros t1 t2 th1 th2. destruct (decide (t1 = t)) as [->|H1], (decide (t2 = t)) as [->|H2]; [done| | |];
      rewrite ?list_lookup_insert_eq, ?list_lookup_insert_ne by done; [| |by apply P].
    + intros [= <-] H3 Hr1 Hr2 He. by destruct (Hc Hr1 t2 th2 H2 H3 Hr2).
    + intros H3 [= <-] Hr1 Hr2 He. by destruct (Hc Hr2 t1 th1 H1 H3 Hr1).
  - intros t2 th2 c. destruct (decide (t2 = t)) as [->|Hne]; [rewrite list_lookup_insert_eq by done; intros [= <-]; apply Hl|].
    rewrite list_lookup_insert_ne by done. intros H2 H3. by eapply Hlo, O.
  - intros s. by rewrite (total_insert _ _ _ _ _ Ht).
Qed.

Lemma minv_lists m w Q : minv m w Q -> forall s, chain (m_mem m) (m_heads m s) (Q s) 0 /\ NoDup (Q s) /\ forall a, a ∈ Q s <-> w a = Some (InList s).
Proof. intros HI s. split_and!; apply HI. Qed.

Lemma minv_others m w Q t th : minv m w Q -> m_threads m !! t = Some th -> t_run th = true ->
  forall t2 th2, t2 <> t -> m_threads m !! t2 = Some th2 -> t_run th2 = true -> t_cpu th2 <> t_cpu th.
Proof. intros HI Ht Hr t2 th2 Hne H2 Hr2 He. by apply Hne, (mi_cpus _ _ _ HI _ _ _ _ H2 Ht). Qed.

(** A thread that changed by itself: same holdings, no shared memory touched. *)
Lemma minv_thread m w Q t th th' :
  minv m w Q -> m_threads m !! t = Some th -> held th' = held th -> (forall s, owed s th' = owed s th) ->
  (t_run th' = true -> forall t2 th2, t2 <> t -> m_threads m !! t2 = Some th2 -> t_run th2 = true -> t_cpu th2 <> t_cpu th') ->
  (forall c, t_call th' = Some c -> local (m_heads m) (m_mem m) th' c) ->
  minv (put_thread m t th') w Q.
Proof.
  intros HI Ht Hh Hw Hc Hl. apply (minv_update m w Q t th); try done; [by apply minv_lists| |].
  - intros a. rewrite Hh. by apply (mi_held _ _ _ HI).
  - intros s. rewrite (mi_usage _ _ _ HI), Hw. f_equal. lia.
Qed.

(** What a call in progress relies on. *)
Lemma local_frame heads mem heads' mem' th c :
  local heads mem th c -> t_call th = Some c ->
  (t_run th = true -> t_cpu th = c_cpu c -> heads' (c_slot c) = heads (c_slot c) /\ mem' !! heads (c_slot c) = mem !! heads (c_slot c)) ->
  (forall a, a ∈ held th -> mem' !! a = mem !! a) -> local heads' mem' th c.
Proof.
  unfold local. intros Hl Hcall Hs Hm. destruct (decide (c_op c = Pop)) as [Hop|Hop].
  - rewrite Hop in Hl |- *. destruct Hl as [P1 P2 P3 P4 P5 P6 P7 P8 P9 P10 P11 P12]. constructor; try done.
    + intros Hr Hpc. rewrite (P6 Hr Hpc). symmetry. apply Hs; [done|]. apply P5; [done|lia].
    + intros Hr Hpc. rewrite (P6 Hr) by lia. destruct (Hs Hr) as [_ ->]; [apply P5; [done|lia]|]. rewrite <- (P6 Hr) by lia. by apply P9.
  - assert (Hl' : push_local heads mem th c) by (by destruct (c_op c)). clear Hl.
    assert (push_local heads' mem' th c); [|by destruct (c_op c)].
    destruct Hl' as [P1 P2 P3 P4 P5 P6 P7 P8 P9 P10 P11 P12 P13]. constructor; try done.
    + intros Hr Hpc. rewrite (P6 Hr Hpc). symmetry. apply Hs; [done|]. apply P5; [done|lia].
    + intros Hpc. destruct (P7 Hpc) as (l & q & Hb & Hch & Hq). exists l, q. split; [done|]. split; [|done].
      eapply chain_frame; [|done]. intros a Ha. apply Hm. unfold held. rewrite Hcall.
      assert (committed c = false) as ->.
      { unfold committed. destruct (c_op c); [| |done].
        all: destruct (Nat.leb_spec 7 (c_pc c)); [lia|]; destruct (Nat.eqb_spec (c_pc c) 13); [lia|done]. }
      apply P9. by apply elem_of_list_to_set.
Qed.

(** Instructions that touch no shared memory. *)
Definition private (i : instr) : bool :=
  match i with
  | StoreTail | StoreHeader | ListHeader | ListNext | LockAdd | LockInc | LockDec => false
  | _ => true
  end.

(** All positions below [n]. *)
Ltac pc_cases pc n :=
  let H := fresh "Hpc" in
  assert (H : pc ∈ seq 0 n) by (apply elem_of_seq; lia); cbn [seq] in H;
  repeat match type of H with _ ∈ _ :: _ => apply elem_of_cons in H as [->|H] end; try (by apply not_elem_of_nil in H).

Lemma push_private heads mem th c i th' sh' usage :
  push_local heads mem th c -> c_op c <> Pop -> t_run th = true -> t_call th = Some c ->
  code (section_of (c_op c)) !! c_pc c = Some i -> private i = true -> exec cs_addr i th c (heads, usage, mem) = Some (th', sh') ->
  sh' = (heads, usage, mem) /\ t_run th' = true /\ t_cpu th' = t_cpu th /\ held th' = held th /\ (forall s, owed s th' = owed s th) /\
  exists c', t_call th' = Some c' /\ c_op c' = c_op c /\ push_local heads mem th' c'.
Proof.
  intros [P1 P2 P3 P4 P5 P6 P7 P8 P9 P10 P11 P12 P13] Hop Hr Hcall Hi Hp He. unfold held, owed. rewrite Hcall. clear Hcall.
  destruct c as [op cpu class hd tl batch blocks pc tmp nx zf res]. unfold c_slot in *. simpl in *.
  assert (pc < 13)%nat by (apply lookup_lt_Some in Hi; by destruct op).
  destruct zf; (destruct op; [| |done]); pc_cases pc 13%nat; simpl in Hi; injection Hi as <-; try discriminate Hp; simpl in He;
  injection He as <- <-.
  all: split; [done|]; split; [done|]; split; [done|]; unfold committed; simpl.
  all: try rewrite (P12 eq_refl).
  all: split; [done|]; split; [done|].
  all: eexists; split; [done|]; split; [done|]. 
  all: constructor; simpl; intros; try done; try lia.
  all: try (destruct P7 as (l & q & ? & ? & _); [lia|]; exists l, q; split; [done|]; split; [done|lia]).
  all: try (rewrite P2; done).
  all: try (apply P3; lia). all: try (by apply P5; [|lia]). all: try (by apply P6; [|lia]). all: try done.
  all: try (by apply P11). all: apply Z.eqb_eq; symmetry; by apply P4.
Qed.

Lemma pop_private heads mem th c i th' sh' usage :
  pop_local heads mem th c -> c_op c = Pop -> t_run th = true -> t_call th = Some c -> (committed c = true -> 0 < c_tmp c < minus_one) ->
  code (section_of (c_op c)) !! c_pc c = Some i -> private i = true -> exec cs_addr i th c (heads, usage, mem) = Some (th', sh') ->
  sh' = (heads, usage, mem) /\ t_run th' = true /\ t_cpu th' = t_cpu th /\ held th' = held th /\ (forall s, owed s th' = owed s th) /\
  exists c', t_call th' = Some c' /\ c_op c' = c_op c /\ pop_local heads mem th' c'.
Proof.
  intros [P1 P2 P3 P4 P5 P6 P7 P8 P9 P10 P11 P12] Hop Hr Hcall Hc Hi Hp He. unfold held, owed. rewrite Hcall. clear Hcall.
  destruct c as [op cpu class hd tl batch blocks pc tmp nx zf res]. unfold c_slot, committed in *. simpl in *. subst op.
  assert (pc < 21)%nat by (apply lookup_lt_Some in Hi; done).
  destruct (mem !! tmp) as [h0|] eqn:Hmem;
  (destruct zf; pc_cases pc 21%nat; simpl in Hi; injection Hi as <-; try discriminate Hp; simpl in He; rewrite ?Hmem in He; simpl in He; try discriminate He;
  injection He as <- <-).
  all: split; [done|]; split; [done|]; split; [done|]; simpl.
  all: try (rewrite (P11 eq_refl)); try (rewrite (P10 eq_refl); specialize (Hc eq_refl)).
  all: split; [first [done|destruct (Z.eqb_spec tmp 0), (Z.eqb_spec tmp minus_one); [lia..|done]]|]; split; [done|].
  all: eexists; split; [done|]; split; [done|].
  all: constructor; simpl; intros; try done; try lia.
  all: try (rewrite P2; done).
  all: try (apply P3; lia). all: try (by apply P5; [|lia]). all: try (by apply P6; [|lia]). all: try (apply P8; lia). all: try (apply P9; [done|lia]).
  all: try (by exists h0). all: try (destruct P9 as (h & ? & ?); [done|lia|]; exists h; split; congruence).
  all: try (apply Z.eqb_neq; symmetry; by apply P7). all: try (apply Z.eqb_eq; symmetry; by apply P4). all: auto.
Qed.

Lemma held_place m w Q t th a : minv m w Q -> m_threads m !! t = Some th -> a ∈ held th -> w a = Some (Held t) /\ a ∈ U.
Proof.
  intros HI Ht Ha. assert (Hw : w a = Some (Held t)) by (by apply (mi_held _ _ _ HI _ _ _ Ht)).
  split; [done|]. apply (mi_dom _ _ _ HI). by rewrite Hw.
Qed.

Lemma head_place m w Q s : minv m w Q -> m_heads m s <> 0 ->
  exists l h, Q s = m_heads m s :: l /\ w (m_heads m s) = Some (InList s) /\ m_mem m !! m_heads m s = Some h /\ chain (m_mem m) (s_next h) l 0.
Proof.
  intros HI H0. destruct (chain_head _ _ _ (mi_chain _ _ _ HI s) H0) as (l & HQ & h & Hh & Hl).
  exists l, h. split_and!; [done| |done..]. apply (mi_list _ _ _ HI). rewrite HQ. by left.
Qed.

(** A thread writes a block it holds: nobody else relies on it. *)
Lemma others_mem m w Q t th a h :
  minv m w Q -> m_threads m !! t = Some th -> w a = Some (Held t) ->
  forall t2 th2 c2, t2 <> t -> m_threads m !! t2 = Some th2 -> t_call th2 = Some c2 ->
    local (m_heads m) (m_mem m) th2 c2 -> local (m_heads m) (<[a := h]> (m_mem m)) th2 c2.
Proof.
  intros HI Ht Ha t2 th2 c2 Hne H2 Hc2 Hl. eapply local_frame; [done..| |].
  - intros _ _. split; [done|]. destruct (decide (m_heads m (c_slot c2) = 0)) as [->|H0].
    + rewrite lookup_insert_ne; [done|]. intros ->. destruct (mi_addr _ _ _ HI 0) as [[? _] _]; [|lia]. apply (mi_dom _ _ _ HI). by rewrite Ha.
    + destruct (head_place _ _ _ _ HI H0) as (l & h' & _ & Hw & _). rewrite lookup_insert_ne; [done|]. intros ->. congruence.
  - intros b Hb. destruct (held_place _ _ _ _ _ _ HI H2 Hb) as [Hw _]. rewrite lookup_insert_ne; [done|]. intros ->. congruence.
Qed.

Lemma lists_mem m w Q t a h : minv m w Q -> w a = Some (Held t) ->
  forall s, chain (<[a := h]> (m_mem m)) (m_heads m s) (Q s) 0 /\ NoDup (Q s) /\ forall b, b ∈ Q s <-> w b = Some (InList s).
Proof.
  intros HI Ha s. split_and!; [|apply HI..]. apply chain_insert; [|apply HI]. intros Hs%(mi_list _ _ _ HI). congruence.
Qed.

Lemma insert_live (mem : gmap Z Header) a h b : is_Some (mem !! b) -> is_Some (<[a := h]> mem !! b).
Proof. intros Hb. destruct (decide (b = a)) as [->|]; [by rewrite lookup_insert_eq|by rewrite lookup_insert_ne]. Qed.

(** A new head for one list: the other running threads are on other CPUs. *)
Lemma others_heads m w Q t th s v :
  minv m w Q -> m_threads m !! t = Some th -> t_run th = true -> t_cpu th = s.1 ->
  forall t2 th2 c2, t2 <> t -> m_threads m !! t2 = Some th2 -> t_call th2 = Some c2 ->
    local (m_heads m) (m_mem m) th2 c2 -> local (upd (m_heads m) s v) (m_mem m) th2 c2.
Proof.
  intros HI Ht Hr Hs t2 th2 c2 Hne H2 Hc2 Hl. eapply local_frame; [done..| |done].
  intros Hr2 Hcpu2. split; [|done]. unfold upd. rewrite decide_False; [done|]. intros Heq.
  apply (minv_others _ _ _ _ _ HI Ht Hr t2 th2 Hne H2 Hr2). rewrite Hcpu2, Hs, <- Heq. done.
Qed.

Lemma store_step m w Q t th c h :
  minv m w Q -> m_threads m !! t = Some th -> t_run th = true -> t_call th = Some c -> c_op c <> Pop -> c_pc c = 5%nat ->
  push_local (m_heads m) (m_mem m) th c -> m_mem m !! c_tail c = Some h ->
  minv (mkMachine (<[t := with_call th (with_pc c 6)]> (m_threads m)) (m_heads m) (m_usage m)
          (<[c_tail c := with_s_next (c_tmp c) h]> (m_mem m))) w Q.
Proof.
  intros HI Ht Hr Hcall Hop Hpc Hl Hh. assert (Hcm : committed c = false) by (unfold committed; rewrite Hpc; by destruct (c_op c)).
  destruct (pl_blocks _ _ _ _ Hl ltac:(lia)) as (l & q & Hb & Hch & _).
  assert (Ha : w (c_tail c) = Some (Held t)).
  { eapply held_place; [done..|]. unfold held. rewrite Hcall, Hcm. apply (pl_owned _ _ _ _ Hl), elem_of_list_to_set. rewrite Hb. set_solver. }
  apply (minv_update m w Q t th); try done.
  - intros _. exact (minv_others _ _ _ _ _ HI Ht Hr).
  - intros a. apply insert_live.
  - by eapply lists_mem.
  - intros a. rewrite <- (mi_held _ _ _ HI _ _ a Ht). unfold held. simpl. rewrite Hcall, Hcm.
    assert (committed (with_pc c 6) = false) as -> by (unfold committed; simpl; by destruct (c_op c)). done.
  - intros c' [= <-]. assert (push_local (m_heads m) (<[c_tail c := with_s_next (c_tmp c) h]> (m_mem m)) (with_call th (with_pc c 6)) (with_pc c 6));
      [|unfold local; simpl; by destruct (c_op c)].
    destruct Hl as [P1 P2 P3 P4 P5 P6 P7 P8 P9 P10 P11 P12 P13]. constructor; simpl; try done; try lia.
    + intros _ _. by apply P5; [|lia].
    + intros _ _. by apply P6; [|lia].
    + intros _. exists l, (c_tmp c). split; [done|]. split; [|done]. assert (Hnl : c_tail c ∉ l).
      { rewrite Hb in P8. apply NoDup_app in P8 as (_ & Hd & _). intros Hin. apply (Hd _ Hin). by left. }
      rewrite Hb in Hch |- *. exact (chain_redirect _ _ _ _ _ _ (c_tmp c) Hch Hnl Hh).
  - by eapply others_mem.
  - intros s. rewrite (mi_usage _ _ _ HI). f_equal. assert (owed s (with_call th (with_pc c 6)) = owed s th); [|lia].
    unfold owed. simpl. rewrite Hcall, Hpc. by destruct (decide (c_slot c = s)), (decide (c_slot (with_pc c 6) = s)), (c_op c).
Qed.

Lemma publish_step m w Q t th c :
  minv m w Q -> m_threads m !! t = Some th -> t_run th = true -> t_call th = Some c -> c_op c <> Pop -> c_pc c = 6%nat ->
  push_local (m_heads m) (m_mem m) th c ->
  exists w' Q', minv (mkMachine (<[t := with_call th (with_pc c 7)]> (m_threads m)) (upd (m_heads m) (c_slot c) (c_header c)) (m_usage m) (m_mem m)) w' Q'.
Proof.
  intros HI Ht Hr Hcall Hop Hpc Hl. assert (Hcm : committed c = false) by (unfold committed; rewrite Hpc; by destruct (c_op c)).
  destruct (pl_blocks _ _ _ _ Hl ltac:(lia)) as (l & q & Hb & Hch & Hq). specialize (Hq Hpc). subst q.
  assert (Hheld : forall a, a ∈ held th <-> a ∈ t_owned th) by (intros a; unfold held; by rewrite Hcall, Hcm).
  assert (Hbl : forall a, a ∈ c_blocks c -> w a = Some (Held t)).
  { intros a Ha. eapply held_place; [done..|]. apply Hheld, (pl_owned _ _ _ _ Hl). by apply elem_of_list_to_set. }
  set (s := c_slot c) in *. exists (fun a => if decide (a ∈ c_blocks c) then Some (InList s) else w a), (upd Q s (c_blocks c ++ Q s)).
  apply (minv_update m w Q t th); try done.
  - intros _. exact (minv_others _ _ _ _ _ HI Ht Hr).
  - intros a. case_decide as Ha; [|done]. by rewrite (Hbl a Ha).
  - intros s'. unfold upd. case_decide as Hs; [subst s'|].
    + split_and!.
      * apply chain_app. exists (c_tmp c). split; [done|]. rewrite (pl_tmp _ _ _ _ Hl Hr) by lia. apply HI.
      * apply NoDup_app. split; [apply Hl|]. split; [|apply HI]. intros a Ha Ha'%(mi_list _ _ _ HI). rewrite (Hbl a Ha) in Ha'. done.
      * intros a. rewrite elem_of_app. case_decide; [naive_solver|]. rewrite (mi_list _ _ _ HI). naive_solver.
    + split_and!; [apply HI..|]. intros a. rewrite (mi_list _ _ _ HI). case_decide as Ha; [|done]. rewrite (Hbl a Ha). naive_solver.
  - intros a. unfold held. simpl. assert (committed (with_pc c 7) = true) as -> by (unfold committed; simpl; by destruct (c_op c)).
    assert (Hset : a ∈ t_owned th ∖ list_to_set (c_blocks c) <-> (if decide (a ∈ c_blocks c) then Some (InList s) else w a) = Some (Held t)).
    { rewrite elem_of_difference, elem_of_list_to_set, <- Hheld, (mi_held _ _ _ HI _ _ a Ht). case_decide; naive_solver. }
    by destruct (c_op c).
  - intros a t2 Hne. case_decide as Ha; [|done]. rewrite (Hbl a Ha). naive_solver.
  - intros c' [= <-]. assert (push_local (upd (m_heads m) s (c_header c)) (m_mem m) (with_call th (with_pc c 7)) (with_pc c 7));
      [|unfold local; simpl; by destruct (c_op c)].
    destruct Hl as [P1 P2 P3 P4 P5 P6 P7 P8 P9 P10 P11 P12 P13]. constructor; simpl; try done; lia.
  - eapply others_heads; [done..|]. apply Hl; [done|lia].
  - intros s'. rewrite (mi_usage _ _ _ HI). f_equal.
    assert (owed s' th = 0) as -> by (unfold owed; rewrite Hcall, Hpc; by destruct (decide (c_slot c = s')), (c_op c)).
    assert (owed s' (with_call th (with_pc c 7)) = if decide (s' = s) then c_batch c else 0) as ->.
    { unfold owed. simpl. change (c_slot (with_pc c 7)) with s. repeat case_decide; try congruence; by destruct (c_op c). }
    unfold upd. case_decide as Hs; [subst s'; rewrite length_app, (pl_batch _ _ _ _ Hl)|]; lia.
Qed.

Lemma take_step m w Q t th c :
  minv m w Q -> m_threads m !! t = Some th -> t_run th = true -> t_call th = Some c -> c_op c = Pop -> c_pc c = 11%nat ->
  pop_local (m_heads m) (m_mem m) th c ->
  exists w' Q', minv (mkMachine (<[t := with_call th (with_pc c 12)]> (m_threads m)) (upd (m_heads m) (c_slot c) (c_next c)) (m_usage m) (m_mem m)) w' Q'.
Proof.
  intros HI Ht Hr Hcall Hop Hpc Hl. assert (Hcm : committed c = false) by (unfold committed; by rewrite Hpc, Hop).
  pose proof (ol_tmp _ _ _ _ Hl Hr ltac:(lia)) as Htmp. destruct (head_place m w Q (c_slot c) HI) as (l & h & HQ & Hw & Hh & Hch).
  { rewrite <- Htmp. apply Hl. lia. }
  rewrite <- Htmp in HQ, Hw, Hh. destruct (ol_next _ _ _ _ Hl Hr ltac:(lia)) as (h' & Hh' & Hnx). simplify_eq.
  assert (Hheld : forall a, a ∈ t_owned th <-> w a = Some (Held t)).
  { intros a. rewrite <- (mi_held _ _ _ HI _ _ a Ht). unfold held. by rewrite Hcall, Hcm. }
  set (s := c_slot c) in *. exists (fun a => if decide (a = c_tmp c) then Some (Held t) else w a), (upd Q s l).
  apply (minv_update m w Q t th); try done.
  - intros _. exact (minv_others _ _ _ _ _ HI Ht Hr).
  - intros a. case_decide as Ha; [|done]. subst a. by rewrite Hw.
  - pose proof (mi_nodup _ _ _ HI s) as Hnd. rewrite HQ in Hnd. apply NoDup_cons in Hnd as [Hni Hnd].
    intros s'. unfold upd. case_decide as Hs; [subst s'|].
    + rewrite Hnx. split_and!; [done..|]. intros a. case_decide as Ha; [subst a; naive_solver|].
      rewrite <- (mi_list _ _ _ HI), HQ, elem_of_cons. naive_solver.
    + split_and!; [apply HI..|]. intros a. rewrite (mi_list _ _ _ HI). case_decide as Ha; [|done]. subst a. rewrite Hw. naive_solver.
  - intros a. unfold held. simpl. assert (committed (with_pc c 12) = true) as -> by (unfold committed; simpl; by rewrite Hop).
    rewrite Hop, elem_of_union, elem_of_singleton, Hheld. case_decide; naive_solver.
  - intros a t2 Hne. case_decide as Ha; [|done]. subst a. rewrite Hw. naive_solver.
  - intros c' [= <-]. unfold local. simpl. rewrite Hop.
    destruct Hl as [P1 P2 P3 P4 P5 P6 P7 P8 P9 P10 P11 P12]. constructor; simpl; try done; lia.
  - eapply others_heads; [done..|]. apply Hl; [done|lia].
  - intros s'. rewrite (mi_usage _ _ _ HI). f_equal.
    assert (owed s' th = 0) as -> by (unfold owed; rewrite Hcall, Hpc, Hop; by destruct (decide (c_slot c = s'))).
    assert (owed s' (with_call th (with_pc c 12)) = if decide (s' = s) then -1 else 0) as ->.
    { unfold owed. simpl. change (c_slot (with_pc c 12)) with s. rewrite Hop. repeat case_decide; congruence. }
    unfold upd. case_decide as Hs; [subst s'; rewrite HQ; simpl|]; lia.
Qed.

(** The usage counter catches up. *)
Lemma count_step m w Q t th c c' v :
  minv m w Q -> m_threads m !! t = Some th -> t_run th = true -> t_call th = Some c -> c' = with_pc c (S (c_pc c)) ->
  held (with_call th c') = held th -> owed (c_slot c) th = v ->
  (forall s, owed s (with_call th c') = 0) -> (forall s, s <> c_slot c -> owed s th = 0) ->
  local (m_heads m) (m_mem m) (with_call th c') c' ->
  minv (mkMachine (<[t := with_call th c']> (m_threads m)) (m_heads m)
          (upd (m_usage m) (c_slot c) (wrap 64 (m_usage m (c_slot c) + v))) (m_mem m)) w Q.
Proof.
  intros HI Ht Hr Hcall Hc' Hh Hv Ho1 Ho2 Hl. apply (minv_update m w Q t th); try done; [|by apply minv_lists| | |].
  - intros _. exact (minv_others _ _ _ _ _ HI Ht Hr).
  - intros a. rewrite Hh. by apply (mi_held _ _ _ HI).
  - by intros c'' [= <-].
  - intros s. rewrite Ho1. unfold upd. case_decide as Hs; [subst s|].
    + rewrite (mi_usage _ _ _ HI), Hv. unfold wrap. rewrite Zplus_mod_idemp_l. f_equal. lia.
    + rewrite (Ho2 s Hs), (mi_usage _ _ _ HI). f_equal. lia.
Qed.

Lemma push_count_step m w Q t th c :
  minv m w Q -> m_threads m !! t = Some th -> t_run th = true -> t_call th = Some c -> c_op c <> Pop -> c_pc c = 8%nat ->
  push_local (m_heads m) (m_mem m) th c ->
  minv (mkMachine (<[t := with_call th (with_pc c 9)]> (m_threads m)) (m_heads m)
          (upd (m_usage m) (c_slot c) (wadd (m_usage m (c_slot c)) (c_batch c))) (m_mem m)) w Q.
Proof.
  intros HI Ht Hr Hcall Hop Hpc Hl. apply (count_step m w Q t th c (with_pc c 9)); try done.
  - by rewrite Hpc.
  - unfold held. simpl. rewrite Hcall. unfold committed. simpl. rewrite Hpc. by destruct (c_op c).
  - unfold owed. rewrite Hcall, Hpc. rewrite decide_True by done. by destruct (c_op c).
  - intros s. unfold owed. simpl. case_decide; [|done]. by destruct (c_op c).
  - intros s Hs. unfold owed. rewrite Hcall. by rewrite decide_False.
  - assert (push_local (m_heads m) (m_mem m) (with_call th (with_pc c 9)) (with_pc c 9)); [|unfold local; simpl; by destruct (c_op c)].
    destruct Hl as [P1 P2 P3 P4 P5 P6 P7 P8 P9 P10 P11 P12 P13]. constructor; simpl; try done; lia.
Qed.

Lemma pop_count_step m w Q t th c :
  minv m w Q -> m_threads m !! t = Some th -> t_run th = true -> t_call th = Some c -> c_op c = Pop -> c_pc c = 13%nat ->
  pop_local (m_heads m) (m_mem m) th c ->
  minv (mkMachine (<[t := with_call th (with_pc c 14)]> (m_threads m)) (m_heads m)
          (upd (m_usage m) (c_slot c) (wsub (m_usage m (c_slot c)) 1)) (m_mem m)) w Q.
Proof.
  intros HI Ht Hr Hcall Hop Hpc Hl. apply (count_step m w Q t th c (with_pc c 14) (-1)); try done.
  - by rewrite Hpc.
  - unfold held. simpl. rewrite Hcall. unfold committed. simpl. by rewrite Hpc, Hop.
  - unfold owed. rewrite Hcall, Hpc, Hop. by rewrite decide_True.
  - intros s. unfold owed. simpl. rewrite Hop. by case_decide.
  - intros s Hs. unfold owed. rewrite Hcall. by rewrite decide_False.
  - unfold local. simpl. rewrite Hop. destruct Hl as [P1 P2 P3 P4 P5 P6 P7 P8 P9 P10 P11 P12]. constructor; simpl; try done; lia.
Qed.

(** Where the instructions that touch shared memory are. *)
Lemma shared_pc o pc i :
  code (section_of o) !! pc = Some i -> private i = false ->
  match o with
  | Pop => (pc = 11%nat /\ i = ListNext) \/ (pc = 13%nat /\ i = LockDec)
  | PushTailed => (pc = 5%nat /\ i = StoreTail) \/ (pc = 6%nat /\ i = ListHeader) \/ (pc = 8%nat /\ i = LockAdd)
  | Push => (pc = 5%nat /\ i = StoreHeader) \/ (pc = 6%nat /\ i = ListHeader) \/ (pc = 8%nat /\ i = LockInc)
  end.
Proof.
  intros Hi Hp. destruct o; (repeat (destruct pc as [|pc]; [simpl in Hi; injection Hi as <-; naive_solver|])); done.
Qed.

Lemma push_shared_step m w Q t th c i th' heads usage mem :
  minv m w Q -> m_threads m !! t = Some th -> t_run th = true -> t_call th = Some c -> c_op c <> Pop ->
  push_local (m_heads m) (m_mem m) th c -> code (section_of (c_op c)) !! c_pc c = Some i -> private i = false ->
  exec cs_addr i th c (m_heads m, m_usage m, m_mem m) = Some (th', (heads, usage, mem)) ->
  exists w' Q', minv (mkMachine (<[t := th']> (m_threads m)) heads usage mem) w' Q'.
Proof.
  intros HI Ht Hr Hcall Hop Hl Hi Hp He. pose proof (shared_pc _ _ _ Hi Hp) as Hpc.
  assert (Hcases : (c_pc c = 5%nat /\ exists h, m_mem m !! c_tail c = Some h /\ th' = with_call th (with_pc c 6) /\
                      heads = m_heads m /\ usage = m_usage m /\ mem = <[c_tail c := with_s_next (c_tmp c) h]> (m_mem m)) \/
                   (c_pc c = 6%nat /\ th' = with_call th (with_pc c 7) /\ heads = upd (m_heads m) (c_slot c) (c_header c) /\ usage = m_usage m /\ mem = m_mem m) \/
                   (c_pc c = 8%nat /\ th' = with_call th (with_pc c 9) /\ heads = m_heads m /\
                      usage = upd (m_usage m) (c_slot c) (wadd (m_usage m (c_slot c)) (c_batch c)) /\ mem = m_mem m)).
  { destruct (c_op c) eqn:Ho; [| |done].
    - destruct Hpc as [[Hpc ->]|[[Hpc ->]|[Hpc ->]]]; unfold exec in He; rewrite Hpc in He; [left|right; left|right; right]; (split; [done|]).
      + unfold store_next in He. destruct (m_mem m !! c_tail c) as [h|]; [|done]. simpl in He. simplify_eq. eauto 8.
      + by simplify_eq.
      + by simplify_eq.
    - destruct (pl_single _ _ _ _ Hl Ho) as [Hth Hb1]. destruct Hpc as [[Hpc ->]|[[Hpc ->]|[Hpc ->]]]; unfold exec in He; rewrite Hpc in He;
        [left|right; left|right; right]; (split; [done|]).
      + unfold store_next in He. rewrite <- Hth in He. destruct (m_mem m !! c_tail c) as [h|]; [|done]. simpl in He. simplify_eq. eauto 8.
      + by simplify_eq.
      + rewrite Hb1. by simplify_eq. }
  destruct Hcases as [(Hpc' & h & Hh & -> & -> & -> & ->)|[(Hpc' & -> & -> & -> & ->)|(Hpc' & -> & -> & -> & ->)]].
  - exists w, Q. by apply store_step.
  - by apply (publish_step m w Q).
  - exists w, Q. by apply push_count_step.
Qed.

Lemma instr_step m w Q t th c i th' heads usage mem :
  minv m w Q -> m_threads m !! t = Some th -> t_run th = true -> t_call th = Some c ->
  code (section_of (c_op c)) !! c_pc c = Some i ->
  exec cs_addr i th c (m_heads m, m_usage m, m_mem m) = Some (th', (heads, usage, mem)) ->
  exists w' Q', minv (mkMachine (<[t := th']> (m_threads m)) heads usage mem) w' Q'.
Proof.
  intros HI Ht Hr Hcall Hi He. pose proof (mi_local _ _ _ HI _ _ _ Ht Hcall) as Hl. unfold local in Hl.
  assert (Hpriv : (t_run th' = true /\ t_cpu th' = t_cpu th /\ held th' = held th /\ (forall s, owed s th' = owed s th) /\
      exists c', t_call th' = Some c' /\ local (m_heads m) (m_mem m) th' c') -> (heads, usage, mem) = (m_heads m, m_usage m, m_mem m) ->
      exists w' Q', minv (mkMachine (<[t := th']> (m_threads m)) heads usage mem) w' Q').
  { intros (H1 & H2 & H3 & H4 & c' & H5 & H6) Hsh. simplify_eq. exists w, Q. apply (minv_thread m w Q t th); try done.
    - rewrite H2. intros _. exact (minv_others _ _ _ _ _ HI Ht Hr).
    - intros c'' Hc''. by simplify_eq. }
  destruct (decide (c_op c = Pop)) as [Hop|Hop].
  - rewrite Hop in Hl. destruct (private i) eqn:Hp.
    + assert (Hc : committed c = true -> 0 < c_tmp c < minus_one).
      { intros Hc. assert (Htmp : c_tmp c ∈ held th) by (unfold held; rewrite Hcall, Hc, Hop; set_solver).
        destruct (held_place _ _ _ _ _ _ HI Ht Htmp) as [_ HU]. by destruct (mi_addr _ _ _ HI _ HU). }
      destruct (pop_private _ _ _ _ _ _ _ _ Hl Hop Hr Hcall Hc Hi Hp He) as (H1 & H2 & H3 & H4 & H5 & c' & H6 & H7 & H8).
      apply Hpriv; [|done]. split_and!; [done..|]. exists c'. split; [done|]. unfold local. by rewrite H7, Hop.
    + rewrite Hop in Hi. pose proof (shared_pc Pop _ _ Hi Hp) as [[Hpc ->]|[Hpc ->]]; unfold exec in He; rewrite Hpc in He; simplify_eq.
      * by apply (take_step m w Q).
      * exists w, Q. by apply pop_count_step.
  - assert (Hl' : push_local (m_heads m) (m_mem m) th c) by (by destruct (c_op c)). destruct (private i) eqn:Hp.
    + destruct (push_private _ _ _ _ _ _ _ _ Hl' Hop Hr Hcall Hi Hp He) as (H1 & H2 & H3 & H4 & H5 & c' & H6 & H7 & H8).
      apply Hpriv; [|done]. split_and!; [done..|]. exists c'. split; [done|]. unfold local. rewrite H7. by destruct (c_op c).
    + by eapply push_shared_step.
Qed.

Lemma resume_step m w Q t th cpu :
  minv m w Q -> m_threads m !! t = Some th -> t_run th = false ->
  (forall t' th', m_threads m !! t' = Some th' -> t_run th' = true -> t_cpu th' <> cpu) -> minv (put_thread m t (resume th cpu)) w Q.
Proof.
  intros HI Ht Hr Hfree. pose proof (mi_local _ _ _ HI t th) as Hl.
  assert (Hcpu : t_run (resume th cpu) = true -> forall t2 th2, t2 <> t -> m_threads m !! t2 = Some th2 -> t_run th2 = true -> t_cpu th2 <> cpu).
  { intros _ t2 th2 _. apply Hfree. }
  unfold resume in *. destruct (t_call th) as [c|] eqn:Hcall; [|by apply (minv_thread m w Q t th); try done; unfold held, owed; rewrite Hcall].
  specialize (Hl c Ht eq_refl). unfold local in Hl.
  destruct (negb (t_cs th =? 0) && (cs_start (section_of (c_op c)) <=? c_pc c)%nat && (c_pc c <? cs_end (section_of (c_op c)))%nat) eqn:Habort.
  - bool_lia. apply (minv_thread m w Q t th); try done; unfold held, owed; simpl; rewrite ?Hcall.
    + unfold committed. destruct (c_op c); simpl in *; repeat case_match; bool_lia; try done; lia.
    + intros s. change (c_slot (with_pc c (cs_abort (section_of (c_op c))))) with (c_slot c). case_decide; [|done].
      destruct (c_op c); simpl in *; repeat case_match; bool_lia; try done; lia.
    + intros c' [= <-]. unfold local. simpl. destruct (c_op c) eqn:Hop; simpl;
        destruct Hl; constructor; simpl; try done; try lia; rewrite ?Hop; try done; intros; lia.
  - apply (minv_thread m w Q t th); try done; unfold held, owed; simpl; rewrite ?Hcall; try done.
    intros c' [= <-]. unfold local.
    assert (Hout : ~ (cs_start (section_of (c_op c)) <= c_pc c < cs_end (section_of (c_op c)))%nat).
    { intros Hin. assert (t_cs th <> 0) by (destruct (c_op c); simpl in *; apply Hl; lia).
      destruct (Z.eqb_spec (t_cs th) 0), (Nat.leb_spec (cs_start (section_of (c_op c))) (c_pc c)),
        (Nat.ltb_spec (c_pc c) (cs_end (section_of (c_op c)))); simpl in Habort; try done; lia. }
    destruct (c_op c) eqn:Hop; simpl in Hout; destruct Hl; constructor; simpl; try done; intros; lia.
Qed.

Lemma call_step m w Q t th c :
  minv m w Q -> m_threads m !! t = Some th -> t_run th = true -> t_call th = None -> call_ok (m_mem m) (t_owned th) c ->
  minv (put_thread m t (with_call th c)) w Q.
Proof.
  intros HI Ht Hr Hcall [Hpc Hok]. assert (Hcm : committed c = false) by (unfold committed; rewrite Hpc; by destruct (c_op c)).
  apply (minv_thread m w Q t th); try done; unfold held, owed; simpl; rewrite ?Hcall, ?Hcm; try done.
  - intros s. case_decide; [|done]. rewrite Hpc. by destruct (c_op c).
  - intros _. exact (minv_others _ _ _ _ _ HI Ht Hr).
  - intros c' [= <-]. unfold local.
    assert (Hpush : c_op c <> Pop -> push_local (m_heads m) (m_mem m) (with_call th c) c).
    { intros Hop. assert (Hok' : (exists l q, c_blocks c = l ++ [c_tail c] /\ chain (m_mem m) (c_header c) (c_blocks c) q) /\
        NoDup (c_blocks c) /\ list_to_set (c_blocks c) ⊆ t_owned th /\ c_batch c = Z.of_nat (length (c_blocks c)) /\
        (c_op c = Push -> c_blocks c = [c_header c])) by (by destruct (c_op c)).
      destruct Hok' as ((l & q & Hb & Hch) & Hnd & Hown & Hbatch & Hsingle).
      constructor; simpl; rewrite ?Hpc; try done; try lia.
      - intros _. exists l, q. split_and!; [done..|]. lia.
      - intros Hp. specialize (Hsingle Hp). rewrite Hsingle in Hb, Hbatch. split; [|done]. destruct l as [|? [|]]; simpl in Hb; congruence. }
    destruct (c_op c) eqn:Hop; [by apply Hpush|by apply Hpush|]. constructor; simpl; rewrite ?Hpc; try done; lia.
Qed.

Lemma return_step m w Q t th c :
  minv m w Q -> m_threads m !! t = Some th -> t_run th = true -> t_call th = Some c ->
  c_pc c = length (code (section_of (c_op c))) -> minv (put_thread m t (returned th c)) w Q.
Proof.
  intros HI Ht Hr Hcall Hpc. pose proof (mi_local _ _ _ HI t th c Ht Hcall) as Hl. unfold local in Hl.
  apply (minv_thread m w Q t th); try done; unfold held, owed, returned; simpl; rewrite ?Hcall.
  - unfold committed. destruct (c_op c); simpl in Hpc; rewrite Hpc; simpl; [by destruct (c_res c =? 1)..|].
    destruct (ol_res21 _ _ _ _ Hl Hpc) as [Hre|[Hre|Hre]]; rewrite Hre; [done|done|].
    by destruct (c_tmp c =? 0), (c_tmp c =? minus_one).
  - intros s. rewrite Hpc. case_decide; [|done]. by destruct (c_op c).
  - intros _. exact (minv_others _ _ _ _ _ HI Ht Hr).
Qed.

Lemma write_step m w Q t th a h :
  minv m w Q -> m_threads m !! t = Some th -> t_call th = None -> a ∈ t_owned th ->
  minv (mkMachine (m_threads m) (m_heads m) (m_usage m) (<[a := h]> (m_mem m))) w Q.
Proof.
  intros HI Ht Hcall Ha. destruct (held_place _ _ _ _ _ a HI Ht) as [Hw _]; [unfold held; by rewrite Hcall|].
  rewrite <- (list_insert_id (m_threads m) t th Ht) at 1. apply (minv_update m w Q t th); try done.
  - intros Hr. exact (minv_others _ _ _ _ _ HI Ht Hr).
  - intros b. apply insert_live.
  - by eapply lists_mem.
  - intros b. by apply (mi_held _ _ _ HI).
  - intros c Hc. congruence.
  - by eapply others_mem.
  - intros s. rewrite (mi_usage _ _ _ HI). f_equal. lia.
Qed.

Lemma step_inv m w Q m' : minv m w Q -> step cs_addr m m' -> exists w' Q', minv m' w' Q'.
Proof.
  intros HI Hs. destruct Hs as [t th c i th' heads usage mem Ht Hr Hc Hi He|t th Ht Hr|t th cpu Ht Hr Hf|t th c Ht Hr Hc Hok|t th c Ht Hr Hc Hpc|t th a h Ht Hr Hc Ha].
  - by eapply instr_step.
  - exists w, Q. apply (minv_thread m w Q t th); try done. intros c Hc. pose proof (mi_local _ _ _ HI t th c Ht Hc) as Hl. unfold local in *. simpl in *.
    destruct (c_op c); destruct Hl; by constructor.
  - exists w, Q. by apply resume_step.
  - exists w, Q. by apply call_step.
  - exists w, Q. by apply return_step.
  - exists w, Q. by eapply write_step.
Qed.

(** The instructions that read or write a block. *)
Lemma block_pc o pc i :
  code (section_of o) !! pc = Some i ->
  match i with
  | StoreTail => o = PushTailed /\ pc = 5%nat
  | StoreHeader => o = Push /\ pc = 5%nat
  | LoadNext => o = Pop /\ pc = 7%nat
  | _ => True
  end.
Proof.
  intros Hi. destruct o; (repeat (destruct pc as [|pc]; [simpl in Hi; by injection Hi as <-|])); done.
Qed.

(** No instruction of the sections faults. *)
Lemma exec_total m w Q t th c i :
  minv m w Q -> m_threads m !! t = Some th -> t_run th = true -> t_call th = Some c ->
  code (section_of (c_op c)) !! c_pc c = Some i -> is_Some (exec cs_addr i th c (m_heads m, m_usage m, m_mem m)).
Proof.
  intros HI Ht Hr Hcall Hi. pose proof (mi_local _ _ _ HI _ _ _ Ht Hcall) as Hl. unfold local in Hl.
  assert (Htail : c_op c <> Pop -> (c_pc c <= 6)%nat -> is_Some (m_mem m !! c_tail c)).
  { intros Hop Hpc. assert (Hl' : push_local (m_heads m) (m_mem m) th c) by (by destruct (c_op c)).
    destruct (pl_blocks _ _ _ _ Hl' Hpc) as (l & q & Hb & Hch & _). eapply chain_in; [done|]. rewrite Hb. set_solver. }
  pose proof (block_pc _ _ _ Hi) as Hb. destruct i; try (by eexists); destruct Hb as [Hop Hpc].
  - destruct Htail as [h Hh]; [congruence|lia|]. simpl. unfold store_next. rewrite Hh. by eexists.
  - rewrite Hop in Hl. destruct Htail as [h Hh]; [congruence|lia|]. destruct (pl_single _ _ _ _ Hl Hop) as [Hth _].
    simpl. unfold store_next. rewrite <- Hth, Hh. by eexists.
  - rewrite Hop in Hl. pose proof (ol_tmp _ _ _ _ Hl Hr ltac:(lia)) as Htmp.
    destruct (head_place m w Q (c_slot c) HI) as (l & h & _ & _ & Hh & _); [rewrite <- Htmp; apply Hl; lia|].
    simpl. rewrite Htmp, Hh. by eexists.
Qed.
End Inv.
