(* ===== verification/RseqSpec.v ===== *)
(** * What the restartable sequences promise

    Two contracts: under every schedule no block is lost or handed out twice and
    no section faults, and a section that runs without interruption has the
    effect of the list operation it implements. *)

From S2P Require Import Prelude Types SList Rseq RseqProofs.

(** ** Conservation *)

(** Idle threads that hold disjoint sets of blocks, all lists empty. *)
Record machine_init (m : machine) : Prop := {
  in_idle : forall t th, m_threads m !! t = Some th -> t_call th = None;
  in_cpus : forall t t' th th', m_threads m !! t = Some th -> m_threads m !! t' = Some th' ->
    t_run th = true -> t_run th' = true -> t_cpu th = t_cpu th' -> t = t';
  in_heads : forall s, m_heads m s = 0 /\ m_usage m s = 0;
  in_blocks : forall t th a, m_threads m !! t = Some th -> a ∈ t_owned th -> 0 < a < minus_one /\ is_Some (m_mem m !! a);
  in_disjoint : forall t t' th th' a, m_threads m !! t = Some th -> m_threads m !! t' = Some th' ->
    a ∈ t_owned th -> a ∈ t_owned th' -> t = t';
}.

Definition blocks_of (m : machine) : gset Z := ⋃ (t_owned <$> m_threads m).

(** [w] tells where each block is and [Q] what each list holds: every block has
    exactly one place, the lists in memory are those of [Q], an idle thread holds
    what [w] says, and the usage counters are exact when all threads are idle. *)
Record places (U : gset Z) (m : machine) (w : Z -> option place) (Q : slot -> list Z) : Prop := {
  ps_all : forall a, a ∈ U <-> is_Some (w a);
  ps_list : forall s, chain (m_mem m) (m_heads m s) (Q s) 0 /\ NoDup (Q s) /\ forall a, a ∈ Q s <-> w a = Some (InList s);
  ps_held : forall t th a, m_threads m !! t = Some th -> t_call th = None -> a ∈ t_owned th <-> w a = Some (Held t);
  ps_usage : (forall t th, m_threads m !! t = Some th -> t_call th = None) ->
    forall s, m_usage m s = wrap 64 (Z.of_nat (length (Q s)));
}.

Lemma owed_idle s ths : (forall t th, ths !! t = Some th -> t_call th = None) -> total (owed s) ths = 0.
Proof.
  induction ths as [|th ths IH]; intros Hi; [done|]. simpl. rewrite IH by (intros t x Hx; by apply (Hi (S t))).
  unfold owed. by rewrite (Hi 0%nat th eq_refl).
Qed.

Lemma minv_places cs U m w Q : minv cs U m w Q -> places U m w Q.
Proof.
  intros HI. constructor.
  - apply HI.
  - by eapply minv_lists.
  - intros t th a Ht Hc. rewrite <- (mi_held _ _ _ _ _ HI _ _ a Ht). unfold held. by rewrite Hc.
  - intros Hi s. rewrite (mi_usage _ _ _ _ _ HI), owed_idle by done. f_equal. lia.
Qed.

Lemma init_minv cs m : machine_init m -> exists w, minv cs (blocks_of m) m w (fun _ => []).
Proof.
  intros [I1 I2 I3 I4 I5]. set (w := fun a => (fun p => Held p.1) <$> list_find (fun th => a ∈ t_owned th) (m_threads m)). exists w.
  assert (Hw : forall a t th, m_threads m !! t = Some th -> a ∈ t_owned th <-> w a = Some (Held t)).
  { intros a t th Ht. unfold w. destruct (list_find _ _) as [[t' th']|] eqn:Hf; simpl.
    - apply list_find_Some in Hf as (Ht' & Ha' & _). split; [intros Ha; do 2 f_equal; by eapply I5|]. intros [= ->]. congruence.
    - apply list_find_None in Hf. rewrite Forall_lookup in Hf. split; [intros Ha; by destruct (Hf t th Ht)|done]. }
  assert (HU : forall a, a ∈ blocks_of m <-> exists t th, m_threads m !! t = Some th /\ a ∈ t_owned th).
  { intros a. unfold blocks_of. rewrite elem_of_union_list. split.
    - intros (X & HX & Ha). apply list_elem_of_fmap in HX as (th & -> & [t Ht]%list_elem_of_lookup). eauto.
    - intros (t & th & Ht & Ha). exists (t_owned th). split; [|done]. apply list_elem_of_fmap. exists th. split; [done|]. by eapply list_elem_of_lookup_2. }
  constructor; try done.
  - intros a. rewrite HU. split; [intros (t & th & Ht & Ha); apply (Hw _ _ _ Ht) in Ha; by rewrite Ha|].
    intros [p Hp]. unfold w in Hp. destruct (list_find _ _) as [[t th]|] eqn:Hf; [|done]. apply list_find_Some in Hf as (Ht & Ha & _). eauto.
  - intros a (t & th & Ht & Ha)%HU. by eapply I4.
  - intros s. simpl. by destruct (I3 s).
  - intros s. constructor.
  - intros s a. split; [by intros ?%not_elem_of_nil|]. unfold w. by destruct (list_find _ _) as [[]|].
  - intros t th a Ht. unfold held. rewrite (I1 t th Ht). by apply Hw.
  - intros t th c Ht Hc. rewrite (I1 t th Ht) in Hc. done.
  - intros s. rewrite owed_idle by done. by destruct (I3 s).
Qed.

(** C12: whatever the interleaving, preemption and migration of the threads,
    every block the program started with is in exactly one place, on one per-CPU
    list or with one thread; the lists stay well linked, the usage counters count
    them, and no instruction of the sections faults. *)
Theorem rseq_blocks_conserved (cs_addr : Z) (m0 m : machine)
    (Hcs : cs_addr <> 0) (Hinit : machine_init m0) (Hreach : rtc (step cs_addr) m0 m) :
  (exists w Q, places (blocks_of m0) m w Q) /\
  (forall t th c i, m_threads m !! t = Some th -> t_run th = true -> t_call th = Some c ->
     code (section_of (c_op c)) !! c_pc c = Some i -> is_Some (exec cs_addr i th c (m_heads m, m_usage m, m_mem m))).
Proof.
  destruct (init_minv cs_addr m0 Hinit) as [w HI].
  assert (Hinv : exists w Q, minv cs_addr (blocks_of m0) m w Q).
  { generalize (blocks_of m0) as U, (fun _ : slot => @nil Z) as Q, w, HI. clear -Hreach Hcs. induction Hreach as [m|m m1 m2 Hs _ IH]; intros U Q w HI; [eauto|].
    destruct (step_inv cs_addr Hcs U _ _ _ _ HI Hs) as (w' & Q' & HI'). by eapply IH. }
  destruct Hinv as (w' & Q & HI'). split; [exists w', Q; by eapply minv_places|].
  intros t th c i Ht Hr Hc Hi. by eapply exec_total.
Qed.

(** ** Sequential effect *)

Lemma run_step cs n th c i th' sh sh' :
  t_call th = Some c -> code (section_of (c_op c)) !! c_pc c = Some i -> exec cs i th c sh = Some (th', sh') ->
  run_alone cs (S n) th sh = run_alone cs n th' sh'.
Proof. intros Hc Hi He. cbn [run_alone]. rewrite Hc. cbn [mbind option_bind]. rewrite Hi. by rewrite He. Qed.

(** One instruction in the goal [run_alone .. = ..]; [H] decides what it tests. *)
Ltac alone_with H :=
  eapply eq_trans; [eapply run_step; [reflexivity|reflexivity|cbn [exec c_pc c_op c_cpu c_class c_header c_tail c_batch c_blocks c_tmp c_next c_zf c_res t_cpu]; H; reflexivity]|];
  cbv [with_call with_cs with_pc with_tmp with_next_reg with_zf with_res];
  cbn [c_pc c_op c_cpu c_class c_header c_tail c_batch c_blocks c_tmp c_next c_zf c_res t_cpu t_run t_cs t_call t_owned].

Ltac alone := alone_with idtac.

(** C34: a section that is not interrupted ends within 17 instructions with the
    effect of its list operation, and with an abort and no effect when the thread
    is no longer on the CPU the caller read; [rseq_cs] is cleared. *)
Theorem rseq_section_effect (cs_addr : Z) (th : thread) (c : call) (sh sh' : shared) (res : Z)
    (Hcall : t_call th = Some c) (Hpc : c_pc c = O) (Heff : call_effect (t_cpu th) c sh = Some (res, sh')) :
  exists th' c', run_alone cs_addr 17 th sh = Some (th', sh') /\ t_call th' = Some c' /\
    c_pc c' = length (code (section_of (c_op c))) /\ c_op c' = c_op c /\ c_res c' = res /\
    t_cs th' = 0 /\ t_owned th' = t_owned th.
Proof.
  destruct th as [run cpu cs call owned]. simpl in Hcall. subst call.
  destruct c as [op ccpu class hd tl batch blocks pc tmp nx zf r]. simpl in Hpc. subst pc.
  destruct sh as [[heads usage] mem]. unfold call_effect in Heff. cbn [t_cpu c_cpu c_op] in *. unfold c_slot in Heff. cbn [c_cpu c_class c_header c_tail c_batch] in Heff.
  destruct (cpu =? ccpu) eqn:Hcpu.
  2:{ injection Heff as <- <-. destruct op; (eexists _, _; split; [alone; alone; alone_with ltac:(rewrite Hcpu); do 3 alone; reflexivity|done]). }
  destruct op; simpl in Heff.
  - unfold store_next in Heff. destruct (mem !! tl) as [h|] eqn:Hh; [|done]. simpl in Heff. injection Heff as <- <-.
    eexists _, _. split; [do 2 alone; alone_with ltac:(rewrite Hcpu); do 2 alone; alone_with ltac:(unfold store_next; rewrite Hh); do 5 alone; reflexivity|done].
  - unfold store_next in Heff. destruct (mem !! hd) as [h|] eqn:Hh; [|done]. simpl in Heff. injection Heff as <- <-.
    eexists _, _. split; [do 2 alone; alone_with ltac:(rewrite Hcpu); do 2 alone; alone_with ltac:(unfold store_next; rewrite Hh); do 5 alone; reflexivity|done].
  - destruct (heads (ccpu, class) =? 0) eqn:Hz.
    + injection Heff as <- <-. eexists _, _.
      split; [do 2 alone; alone_with ltac:(rewrite Hcpu); do 2 alone; alone_with ltac:(unfold c_slot; cbn [c_cpu c_class]; rewrite Hz); do 4 alone; reflexivity|done].
    + destruct (mem !! heads (ccpu, class)) as [h|] eqn:Hh; [|done]. simpl in Heff. injection Heff as <- <-.
      destruct (h_next h =? 0) eqn:Hn;
        (eexists _, _; split; [do 2 alone; alone_with ltac:(rewrite Hcpu); do 2 alone; alone_with ltac:(unfold c_slot; cbn [c_cpu c_class]; rewrite Hz); alone;
           alone_with ltac:(unfold c_slot; cbn [c_cpu c_class]; rewrite Hh); alone_with ltac:(cbn [s_next Header_linked]; rewrite Hn); do 2 alone; repeat alone; reflexivity|done]).
Qed.

(** ** Concrete schedules *)

Inductive event :=
  | EInstr (t : nat)
  | EPreempt (t : nat)
  | EResume (t : nat) (cpu : Z)
  | EPush (t : nat) (cpu class block : Z)
  | EPop (t : nat) (cpu class : Z)
  | EReturn (t : nat).

(** The step an event stands for, when it is one. *)
Definition event_step (cs : Z) (m : machine) (e : event) : option machine :=
  match e with
  | EInstr t =>
      th ← m_threads m !! t; c ← t_call th; i ← code (section_of (c_op c)) !! c_pc c;
      if t_run th then
        '(th', (heads, usage, mem)) ← exec cs i th c (m_heads m, m_usage m, m_mem m);
        Some (mkMachine (<[t := th']> (m_threads m)) heads usage mem)
      else None
  | EPreempt t =>
      th ← m_threads m !! t;
      if t_run th then Some (put_thread m t (mkThread false (t_cpu th) (t_cs th) (t_call th) (t_owned th))) else None
  | EResume t cpu =>
      th ← m_threads m !! t;
      if negb (t_run th) && forallb (fun th' => negb (t_run th') || negb (t_cpu th' =? cpu)) (m_threads m)
      then Some (put_thread m t (resume th cpu)) else None
  | EPush t cpu class a =>
      th ← m_threads m !! t;
      match t_run th, t_call th, m_mem m !! a with
      | true, None, Some _ =>
          if decide (a ∈ t_owned th /\ a <> 0)
          then Some (put_thread m t (with_call th (mkCall Push cpu class a a 1 [a] 0 0 0 false 0))) else None
      | _, _, _ => None
      end
  | EPop t cpu class =>
      th ← m_threads m !! t;
      match t_run th, t_call th with
      | true, None => Some (put_thread m t (with_call th (mkCall Pop cpu class 0 0 0 [] 0 0 0 false 0)))
      | _, _ => None
      end
  | EReturn t =>
      th ← m_threads m !! t; c ← t_call th;
      if t_run th && (c_pc c =? length (code (section_of (c_op c))))%nat then Some (put_thread m t (returned th c)) else None
  end.

Lemma event_step_sound cs m e m' : event_step cs m e = Some m' -> step cs m m'.
Proof.
  destruct e as [t|t|t cpu|t cpu class a|t cpu class|t]; cbn [event_step]; destruct (m_threads m !! t) as [th|] eqn:Ht; try done; cbn [mbind option_bind].
  - destruct (t_call th) as [c|] eqn:Hc; [|done]. cbn [mbind option_bind]. destruct (_ !! c_pc c) as [i|] eqn:Hi; [|done]. cbn [mbind option_bind].
    destruct (t_run th) eqn:Hr; [|done]. destruct (exec cs i th c (m_heads m, m_usage m, m_mem m)) as [[th' [[heads usage] mem]]|] eqn:He; cbn [mbind option_bind]; [|done].
    intros [= <-]. by eapply step_instr.
  - destruct (t_run th) eqn:Hr; [|done]. intros [= <-]. by apply step_preempt.
  - destruct (t_run th) eqn:Hr; [done|]. simpl. destruct (forallb _ _) eqn:Hf; [|done]. intros [= <-]. apply step_resume; [done..|].
    intros t' th' Ht' Hr'. rewrite forallb_forall in Hf. specialize (Hf th'). rewrite Hr' in Hf. simpl in Hf.
    assert (In th' (m_threads m)) by (by apply list_elem_of_In, list_elem_of_lookup; eauto). intros Heq. apply Hf in H. by rewrite Heq, Z.eqb_refl in H.
  - destruct (t_run th) eqn:Hr; [|done]. destruct (t_call th) eqn:Hc; [done|]. destruct (m_mem m !! a) as [h|] eqn:Hh; [|done].
    case_decide as Ha; [|done]. intros [= <-]. destruct Ha as [Ha H0]. apply step_call; [done..|]. split; [done|]. simpl. split_and!; [|apply NoDup_singleton|set_solver|done|done].
    exists [], (s_next h). split; [done|]. split_and!; [done..|]. by exists h.
  - destruct (t_run th) eqn:Hr; [|done]. destruct (t_call th) eqn:Hc; [done|]. intros [= <-]. by apply step_call.
  - destruct (t_call th) as [c|] eqn:Hc; [|done]. cbn [mbind option_bind]. destruct (t_run th) eqn:Hr; [|done]. simpl.
    destruct (Nat.eqb_spec (c_pc c) (length (code (section_of (c_op c))))); [|done]. intros [= <-]. by apply step_return.
Qed.

Fixpoint run_events (cs : Z) (m : machine) (es : list event) : option machine :=
  match es with
  | [] => Some m
  | e :: es => m ← event_step cs m e; run_events cs m es
  end.

Lemma run_events_sound cs es m m' : run_events cs m es = Some m' -> rtc (step cs) m m'.
Proof.
  revert m. induction es as [|e es IH]; intros m H; simpl in H; [injection H as ->; apply rtc_refl|].
  destruct (event_step cs m e) as [m1|] eqn:He; [|done]. eapply rtc_l; [by eapply event_step_sound|by apply IH].
Qed.

Definition demo_header : Header := mkHeader 0 0 2 0 0.

(** Two threads with a block each, on CPUs 3 and 5. *)
Definition demo_machine : machine :=
  mkMachine [mkThread true 3 0 None {[ 4096 ]}; mkThread true 5 0 None {[ 8192 ]}] (fun _ => 0) (fun _ => 0)
    (<[4096 := demo_header]> (<[8192 := demo_header]> ∅)).

(** Thread 0 is preempted before its commit and resumed on CPU 7, so it aborts;
    thread 1 pushes its block, and thread 0, moved to CPU 5, pops it. *)
Definition demo_events : list event :=
  [EPush 0 3 2 4096] ++ replicate 6 (EInstr 0) ++ [EPreempt 0; EResume 0 7] ++ replicate 2 (EInstr 0) ++ [EReturn 0] ++
  [EPush 1 5 2 8192] ++ replicate 11 (EInstr 1) ++ [EReturn 1; EPreempt 1] ++
  [EPreempt 0; EResume 0 5; EPop 0 5 2] ++ replicate 15 (EInstr 0) ++ [EReturn 0].

Lemma demo_machine_init : machine_init demo_machine.
Proof.
  constructor.
  - intros [|[|t]] th [= <-]; done.
  - intros [|[|t]] [|[|t']] th th' Ht Ht'; simpl in *; simplify_eq; done.
  - done.
  - intros [|[|t]] th a [= <-] Ha; simpl in Ha; apply elem_of_singleton in Ha as ->; (split; [done|eexists; reflexivity]).
  - intros [|[|t]] [|[|t']] th th' a Ht Ht'; simpl in *; simplify_eq; set_solver.
Qed.

Lemma rseq_blocks_conserved_witness :
  exists m, run_events 64 demo_machine demo_events = Some m /\ (t_owned <$> m_threads m !! 0%nat) = Some {[ 8192; 4096 ]} /\
    exists w Q, places (blocks_of demo_machine) m w Q.
Proof.
  destruct (run_events 64 demo_machine demo_events) as [m|] eqn:Hm; [|vm_compute in Hm; discriminate Hm].
  exists m. split; [done|]. split.
  - assert (Hx : (fun m => t_owned <$> m_threads m !! 0%nat) <$> run_events 64 demo_machine demo_events = Some (Some {[ 8192; 4096 ]})) by (vm_compute; reflexivity).
    rewrite Hm in Hx. simpl in Hx. congruence.
  - apply (rseq_blocks_conserved 64 demo_machine m); [done|apply demo_machine_init|by eapply run_events_sound].
Defined.

Lemma rseq_section_effect_witness :
  let th := mkThread true 5 0 (Some (mkCall Pop 5 2 0 0 0 [] 0 0 0 false 0)) ∅ in
  let mem : gmap Z Header := <[4096 := mkHeader 8192 0 2 0 0]> (<[8192 := demo_header]> ∅) in
  exists th' sh', run_alone 64 17 th (fun _ => 4096, fun _ => 2, mem) = Some (th', sh') /\ sh'.1.1 (5, 2) = 8192 /\ sh'.1.2 (5, 2) = 1.
Proof.
  set (mem := <[4096 := mkHeader 8192 0 2 0 0]> (<[8192 := demo_header]> ∅) : gmap Z Header). intros th m.
  destruct (rseq_section_effect 64 th (mkCall Pop 5 2 0 0 0 [] 0 0 0 false 0) (fun _ => 4096, fun _ => 2, mem)
    (upd (fun _ => 4096) (5, 2) 8192, upd (fun _ => 2) (5, 2) 1, mem) 4096) as (th' & c' & H & _); [reflexivity..|].
  eexists _, _. split; [exact H|]. split; reflexivity.
Defined.
