(* ===== verification/Bitmap.v ===== *)
(** * Per-class CPU bitmaps (src/rseq_core/mod.rs, module [bitmap])

    One bit per CPU and size class, [words] words per class, in an array of
    64-bit words.  Each atomic update is one step. *)

From S2P Require Import Prelude Types.

(** [arr[i]] and [arr[i] = v] through a pointer: out of range is no access. *)
Definition read {A} (l : list A) (i : Z) : outcome A :=
  if 0 <=? i then from_option (l !! Z.to_nat i) else Stuck.

Definition write {A} (l : list A) (i : Z) (v : A) : list A := <[Z.to_nat i := v]> l.

Definition cpu_word_bit (cpu_id : Z) : Z * Z :=
  let word := Z.shiftr cpu_id 6 in
  let bit := wshl 1 (Z.land cpu_id 63) in
  (word, bit).

(** [bitmap_word!]: the index of the word. *)
Definition bitmap_word (class word words : Z) : Z := wadd (wmul class words) word.

Definition cpu_bit_set (map : list Z) (class cpu_id words : Z) : outcome (list Z) :=
  let '(word, bit) := cpu_word_bit cpu_id in
  let ptr := bitmap_word class word words in
  v ← read map ptr;
  if Z.land v bit =? 0 then Ret (write map ptr (Z.lor v bit)) else Ret map.

Definition cpu_bit_clear (map : list Z) (class cpu_id words : Z) : outcome (list Z) :=
  let '(word, bit) := cpu_word_bit cpu_id in
  let ptr := bitmap_word class word words in
  v ← read map ptr;
  if negb (Z.land v bit =? 0) then Ret (write map ptr (Z.land v (wnot 64 bit))) else Ret map.

Definition cpu_is_empty (map : list Z) (class cpu_id words : Z) : outcome bool :=
  let '(word, bit) := cpu_word_bit cpu_id in
  let ptr := bitmap_word class word words in
  v ← read map ptr;
  Ret (Z.land v bit =? 0).

Definition cpu_try_marking (map : list Z) (class cpu_id words : Z) : outcome (bool * list Z) :=
  let '(word, bit) := cpu_word_bit cpu_id in
  let ptr := bitmap_word class word words in
  v ← read map ptr;
  if negb (Z.land v bit =? 0) then Ret (false, map)
  else Ret (true, write map ptr (Z.lor v bit)).

(** ** The bitmap as a set of CPUs per class *)

(** A map of [classes] rows of [words] 64-bit words. *)
Record bitmap_wf (map : list Z) (classes words : Z) : Prop := {
  bw_len : Z.of_nat (length map) = classes * words;
  bw_size : 0 <= classes < 2 ^ 16 /\ 0 <= words < 2 ^ 32;
  bw_words : Forall (is_u 64) map;
}.

Definition bit_of (map : list Z) (words class cpu : Z) : bool :=
  Z.testbit (default 0 (map !! Z.to_nat (class * words + cpu / 64))) (cpu mod 64).

Lemma read_ok {A} (l : list A) i x : l !! Z.to_nat i = Some x -> 0 <= i -> read l i = Ret x.
Proof. intros Hx Hi. unfold read. destruct (Z.leb_spec 0 i); [|lia]. by rewrite Hx. Qed.

Lemma read_lt {A} (l : list A) i : 0 <= i < Z.of_nat (length l) -> exists x, l !! Z.to_nat i = Some x /\ read l i = Ret x.
Proof.
  intros Hi. destruct (lookup_lt_is_Some_2 l (Z.to_nat i)) as [x Hx]; [lia|]. exists x. split; [done|]. apply read_ok; [done|lia].
Qed.

Section Bits.
Context (classes words : Z).

(** Class [c] and CPU [p] are in range. *)
Definition in_map (c p : Z) : Prop := 0 <= c < classes /\ 0 <= p < 64 * words.

Lemma locate map c p :
  bitmap_wf map classes words -> in_map c p ->
  exists v, cpu_word_bit p = (p / 64, 2 ^ (p mod 64)) /\ bitmap_word c (p / 64) words = c * words + p / 64 /\
    0 <= c * words + p / 64 < Z.of_nat (length map) /\
    map !! Z.to_nat (c * words + p / 64) = Some v /\ read map (c * words + p / 64) = Ret v /\ is_u 64 v /\
    bit_of map words c p = Z.testbit v (p mod 64) /\ 0 <= p mod 64 < 64.
Proof.
  intros [Hlen [Hc Hw] Hu] [Hc2 Hp]. pose proof (Z.mod_pos_bound p 64 ltac:(lia)) as Hm. pose proof (Z.div_mod p 64 ltac:(lia)) as Hd.
  assert (Hi : 0 <= p / 64 < words) by (split; [apply Z.div_pos|apply Z.div_lt_upper_bound]; lia).
  assert (Hidx : 0 <= c * words + p / 64 < classes * words) by nia.
  destruct (read_lt map (c * words + p / 64)) as (v & Hv & Hr); [lia|]. exists v. split_and!; try done; try lia.
  - unfold cpu_word_bit. rewrite Z.shiftr_div_pow2 by lia. change (2 ^ 6) with 64. f_equal.
    change 63 with (2 ^ 6 - 1). rewrite land_low by lia. change (2 ^ 6) with 64. unfold wshl. rewrite Z.shiftl_1_l, wrap_small; [done|].
    split; [lia|]. apply Z.pow_lt_mono_r; lia.
  - unfold bitmap_word. rewrite wmul_small, wadd_small by nia. done.
  - rewrite Forall_lookup in Hu. by apply (Hu _ _ Hv).
  - unfold bit_of. by rewrite Hv.
Qed.

Lemma land_bit v b : 0 <= b -> (Z.land v (2 ^ b) =? 0) = negb (Z.testbit v b).
Proof.
  intros Hb. destruct (Z.testbit v b) eqn:Hv.
  - destruct (Z.eqb_spec (Z.land v (2 ^ b)) 0) as [He|]; [|done].
    assert (H : Z.testbit (Z.land v (2 ^ b)) b = false) by (rewrite He; apply Z.bits_0).
    rewrite Z.land_spec, Hv, pow2_testbit, Z.eqb_refl in H by done. done.
  - apply Z.eqb_eq, Z.bits_inj'. intros n Hn. rewrite Z.land_spec, pow2_testbit, Z.bits_0 by done.
    destruct (Z.eqb_spec n b) as [->|]; [by rewrite Hv|by rewrite andb_false_r].
Qed.

(** A word replaced by one that differs from it in the bit of [p] only. *)
Lemma write_bit map c p v v' (b : bool) :
  bitmap_wf map classes words -> in_map c p -> map !! Z.to_nat (c * words + p / 64) = Some v -> is_u 64 v' ->
  (forall n, 0 <= n < 64 -> Z.testbit v' n = if n =? p mod 64 then b else Z.testbit v n) ->
  bitmap_wf (write map (c * words + p / 64) v') classes words /\
  forall c' p', in_map c' p' ->
    bit_of (write map (c * words + p / 64) v') words c' p' = if decide (c' = c /\ p' = p) then b else bit_of map words c' p'.
Proof.
  intros Hwf Hin Hv Hu Hbits. destruct (locate map c p Hwf Hin) as (v0 & _ & _ & Hidx & _ & _ & _ & _ & Hm). split.
  - destruct Hwf as [W1 W2 W3]. constructor; unfold write; [by rewrite length_insert|done|]. by apply Forall_insert.
  - intros c' p' Hin'. destruct (locate map c' p' Hwf Hin') as (v1 & _ & _ & Hidx' & Hv1 & _ & _ & Hb1 & Hm').
    destruct Hin as [Hc Hp], Hin' as [Hc' Hp']. pose proof (Z.div_mod p 64 ltac:(lia)). pose proof (Z.div_mod p' 64 ltac:(lia)).
    assert (Hrow : c' * words + p' / 64 = c * words + p / 64 -> c' = c /\ p' / 64 = p / 64).
    { assert (0 <= p / 64 < words) by (split; [apply Z.div_pos|apply Z.div_lt_upper_bound]; lia).
      assert (0 <= p' / 64 < words) by (split; [apply Z.div_pos|apply Z.div_lt_upper_bound]; lia).
      intros He. destruct (Z.lt_trichotomy c' c) as [Hlt|[->|Hlt]]; [nia|split; [done|lia]|nia]. }
    unfold write. unfold bit_of. destruct (decide (c' * words + p' / 64 = c * words + p / 64)) as [He|He].
    + destruct (Hrow He) as [-> Hq]. rewrite He, list_lookup_insert_eq by lia. simpl. rewrite Hbits by done. rewrite Hv. simpl.
      destruct (Z.eqb_spec (p' mod 64) (p mod 64)) as [Hmm|Hmm]; [rewrite decide_True by (split; [done|lia]); done|].
      rewrite decide_False; [done|]. intros [_ ->]. done.
    + rewrite list_lookup_insert_ne by lia. rewrite decide_False; [done|]. intros [-> ->]. done.
Qed.

Lemma bit_set_ok map c p :
  bitmap_wf map classes words -> in_map c p ->
  exists map', cpu_bit_set map c p words = Ret map' /\ bitmap_wf map' classes words /\
    forall c' p', in_map c' p' -> bit_of map' words c' p' = if decide (c' = c /\ p' = p) then true else bit_of map words c' p'.
Proof.
  intros Hwf Hin. destruct (locate map c p Hwf Hin) as (v & H1 & H2 & H3 & H4 & H5 & H6 & H7 & H8).
  unfold cpu_bit_set. rewrite H1, H2, H5. cbn [mbind outcome_bind]. rewrite land_bit by lia. destruct (Z.testbit v (p mod 64)) eqn:Hb; simpl.
  - exists map. split; [done|]. split; [done|]. intros c' p' _. case_decide as He; [destruct He as [-> ->]; congruence|done].
  - eexists. split; [done|]. apply (write_bit map c p v); try done.
    + apply lor_u; [lia|done|]. split; [lia|]. apply Z.pow_lt_mono_r; lia.
    + intros n Hn. rewrite Z.lor_spec, pow2_testbit by lia. destruct (n =? p mod 64); [by rewrite orb_true_r|by rewrite orb_false_r].
Qed.

Lemma bit_clear_ok map c p :
  bitmap_wf map classes words -> in_map c p ->
  exists map', cpu_bit_clear map c p words = Ret map' /\ bitmap_wf map' classes words /\
    forall c' p', in_map c' p' -> bit_of map' words c' p' = if decide (c' = c /\ p' = p) then false else bit_of map words c' p'.
Proof.
  intros Hwf Hin. destruct (locate map c p Hwf Hin) as (v & H1 & H2 & H3 & H4 & H5 & H6 & H7 & H8).
  unfold cpu_bit_clear. rewrite H1, H2, H5. cbn [mbind outcome_bind]. rewrite land_bit by lia. rewrite negb_involutive.
  destruct (Z.testbit v (p mod 64)) eqn:Hb; simpl.
  - eexists. split; [done|]. apply (write_bit map c p v); try done.
    + apply land_u; [lia|done].
    + intros n Hn. rewrite Z.land_spec, wnot_testbit, pow2_testbit by lia.
      destruct (n =? p mod 64), (n <? 64) eqn:?; simpl; rewrite ?andb_false_r, ?andb_true_r; try done; lia.
  - exists map. split; [done|]. split; [done|]. intros c' p' _. case_decide as He; [destruct He as [-> ->]; congruence|done].
Qed.

Lemma is_empty_ok map c p :
  bitmap_wf map classes words -> in_map c p -> cpu_is_empty map c p words = Ret (negb (bit_of map words c p)).
Proof.
  intros Hwf Hin. destruct (locate map c p Hwf Hin) as (v & H1 & H2 & H3 & H4 & H5 & H6 & H7 & H8).
  unfold cpu_is_empty. rewrite H1, H2, H5. cbn [mbind outcome_bind]. by rewrite land_bit, H7 by lia.
Qed.

Lemma try_marking_ok map c p :
  bitmap_wf map classes words -> in_map c p ->
  exists map', cpu_try_marking map c p words = Ret (negb (bit_of map words c p), map') /\ bitmap_wf map' classes words /\
    forall c' p', in_map c' p' -> bit_of map' words c' p' = if decide (c' = c /\ p' = p) then true else bit_of map words c' p'.
Proof.
  intros Hwf Hin. destruct (locate map c p Hwf Hin) as (v & H1 & H2 & H3 & H4 & H5 & H6 & H7 & H8).
  destruct (bit_set_ok map c p Hwf Hin) as (map' & Hs & Hwf' & Hb'). exists map'. split; [|done].
  unfold cpu_bit_set in Hs. unfold cpu_try_marking. rewrite H1, H2, H5 in *. cbn [mbind outcome_bind] in *. rewrite land_bit, H7 in * by lia.
  destruct (Z.testbit v (p mod 64)); simpl in *; congruence.
Qed.
End Bits.
