(* ===== verification/SlabCache.v ===== *)
(** * The per-CPU slab caches (src/rseq_core/slab_cache.rs)

    For each CPU and size class: the list the restartable sequences work on, with
    its usage counter, and two transfer lists (blocks given back by anyone, and
    blocks whose pages were trimmed), each a tagged head in one word.  A bitmap
    per class hints at the CPUs whose transfer lists may hold blocks, and a second
    one marks the lists being stolen from.

    The functions run one thread at a time: a compare-and-exchange loop then
    succeeds in its first round (the loops under interference are in
    [TransferList]).  What the thread cannot control is an argument: [env] lists, for
    each round of a loop around a restartable sequence, the CPU the thread
    reads and whether the sequence aborts; [RseqSpec] shows that a sequence either
    aborts without effect or has the effect used here. *)

From S2P Require Import Prelude Types SizeClasses Kernel Binder Numa SList Rseq Bitmap PendingQueue.

Record RseqCache := mkRseqCache { rc_list : Z; rc_usage : Z }.

Record TransferCache := mkTransferCache { tc_list : Z; tc_trimmed : Z }.

Record MainCache := mkMainCache { mc_cache : list RseqCache; mc_mail : list TransferCache }.

(** [repr(C, align(4096))]: two arrays of 16-byte entries. *)
Definition MainCache_SIZE : Z := round_up (2 * 16 * NUM_SIZE_CLASSES) 4096.

Record SlabCacheInner := mkSlabCacheInner {
  si_cache : list MainCache;
  si_numa : NumaTopology;
  si_is_numa : bool;
  si_bitmap_words : Z;
  si_nonempty : list Z;
  si_stolen : list Z;
}.

(** The cache and the headers of the blocks. *)
Record slab := mkSlab { sl_inner : SlabCacheInner; sl_mem : gmap Z Header }.

Definition get_max_cpu (get_nprocs_conf : Z) : Z := if 0 <? get_nprocs_conf then get_nprocs_conf else 256.

(** ** Tagged pointers *)

Definition TAG_SHIFT : Z := 56.
Definition TAG_STEP : Z := wshl 1 TAG_SHIFT.
Definition TAG_MASK : Z := wshl 255 TAG_SHIFT.
Definition PTR_MASK : Z := wnot 64 TAG_MASK.

Definition pack (ptr old_tag : Z) : Z := Z.lor (Z.land ptr PTR_MASK) (Z.land (wadd old_tag TAG_STEP) TAG_MASK).

Definition unpack_ptr (word : Z) : Z * Z := (Z.land word PTR_MASK, word).

(** ** Access *)

Definition get_main (i : SlabCacheInner) (cpu : Z) : outcome MainCache := Bitmap.read (si_cache i) cpu.

Definition get_cache (i : SlabCacheInner) (cpu class : Z) : outcome RseqCache :=
  m ← get_main i cpu; Bitmap.read (mc_cache m) class.

(** [get_list] *)
Definition get_list (i : SlabCacheInner) (cpu class : Z) : outcome TransferCache :=
  m ← get_main i cpu; Bitmap.read (mc_mail m) class.

Definition set_cache (i : SlabCacheInner) (cpu class : Z) (c : RseqCache) : outcome SlabCacheInner :=
  m ← get_main i cpu;
  Ret (mkSlabCacheInner (Bitmap.write (si_cache i) cpu (mkMainCache (Bitmap.write (mc_cache m) class c) (mc_mail m)))
         (si_numa i) (si_is_numa i) (si_bitmap_words i) (si_nonempty i) (si_stolen i)).

Definition set_list (i : SlabCacheInner) (cpu class : Z) (t : TransferCache) : outcome SlabCacheInner :=
  m ← get_main i cpu;
  Ret (mkSlabCacheInner (Bitmap.write (si_cache i) cpu (mkMainCache (mc_cache m) (Bitmap.write (mc_mail m) class t)))
         (si_numa i) (si_is_numa i) (si_bitmap_words i) (si_nonempty i) (si_stolen i)).

Definition with_nonempty (i : SlabCacheInner) (map : list Z) : SlabCacheInner :=
  mkSlabCacheInner (si_cache i) (si_numa i) (si_is_numa i) (si_bitmap_words i) map (si_stolen i).

Definition with_stolen (i : SlabCacheInner) (map : list Z) : SlabCacheInner :=
  mkSlabCacheInner (si_cache i) (si_numa i) (si_is_numa i) (si_bitmap_words i) (si_nonempty i) map.

Definition mark_class_nonempty (i : SlabCacheInner) (class cpu : Z) : outcome SlabCacheInner :=
  with_nonempty i <$> cpu_bit_set (si_nonempty i) class cpu (si_bitmap_words i).

Definition clear_class_hint (i : SlabCacheInner) (class cpu : Z) : outcome SlabCacheInner :=
  with_nonempty i <$> cpu_bit_clear (si_nonempty i) class cpu (si_bitmap_words i).

Definition is_empty (i : SlabCacheInner) (class cpu : Z) : outcome bool :=
  cpu_is_empty (si_nonempty i) class cpu (si_bitmap_words i).

Definition try_mark_being_stolen (i : SlabCacheInner) (class cpu : Z) : outcome (bool * SlabCacheInner) :=
  '(b, map) ← cpu_try_marking (si_stolen i) class cpu (si_bitmap_words i); Ret (b, with_stolen i map).

Definition clear_being_stolen (i : SlabCacheInner) (class cpu : Z) : outcome SlabCacheInner :=
  with_stolen i <$> cpu_bit_clear (si_stolen i) class cpu (si_bitmap_words i).

(** The word of the normal or of the trimmed list. *)
Definition word_of (trimmed : bool) (t : TransferCache) : Z := if trimmed then tc_trimmed t else tc_list t.

Definition with_word (trimmed : bool) (t : TransferCache) (w : Z) : TransferCache :=
  if trimmed then mkTransferCache (tc_list t) w else mkTransferCache w (tc_trimmed t).

(** A store to the [next] field of the header at [a]. *)
Definition set_header_next (mem : gmap Z Header) (a v : Z) : outcome (gmap Z Header) :=
  from_option (store_next mem a v).

(** ** Transfer lists *)

(** [transfer_push_batch], and with [start = tail] [transfer_push_single_to]. *)
Definition transfer_push_to (s : slab) (trimmed : bool) (class start tail cpu : Z) : outcome slab :=
  let i := sl_inner s in
  t ← get_list i cpu class;
  let old := word_of trimmed t in
  let '(old_head, tag) := unpack_ptr old in
  mem ← set_header_next (sl_mem s) tail old_head;
  i ← set_list i cpu class (with_word trimmed t (pack start tag));
  i ← (if old_head =? null then mark_class_nonempty i class cpu else Ret i);
  Ret (mkSlab i mem).

Definition transfer_push_batch (s : slab) (class start tail cpu : Z) : outcome slab :=
  transfer_push_to s false class start tail cpu.

Definition transfer_push_single_to (s : slab) (trimmed : bool) (class header cpu : Z) : outcome slab :=
  transfer_push_to s trimmed class header header cpu.

Definition transfer_push_single (s : slab) (class header cpu : Z) : outcome slab :=
  transfer_push_single_to s false class header cpu.

Definition transfer_push_single_trimmed (s : slab) (class header cpu : Z) : outcome slab :=
  transfer_push_single_to s true class header cpu.

(** [clear_hint], with the normal list as [ptr]. *)
Definition clear_hint (i : SlabCacheInner) (class cpu : Z) : outcome SlabCacheInner :=
  i ← clear_class_hint i class cpu;
  t ← get_list i cpu class;
  if negb ((unpack_ptr (tc_list t)).1 =? null) then mark_class_nonempty i class cpu else Ret i.

(** One list of [transfer_pop_single]. *)
Definition pop_single_from (s : slab) (trimmed : bool) (class cpu head tag : Z) : outcome (Z * slab) :=
  h ← from_option (sl_mem s !! head);
  let next := s_next h in
  t ← get_list (sl_inner s) cpu class;
  i ← set_list (sl_inner s) cpu class (with_word trimmed t (pack next tag));
  Ret (head, mkSlab i (sl_mem s)).

Definition transfer_pop_single (s : slab) (class cpu : Z) : outcome (Z * slab) :=
  t ← get_list (sl_inner s) cpu class;
  let '(head, tag) := unpack_ptr (tc_list t) in
  if head =? null then
    let '(head, tag) := unpack_ptr (tc_trimmed t) in
    if head =? null then
      i ← clear_hint (sl_inner s) class cpu;
      Ret (null, mkSlab i (sl_mem s))
    else pop_single_from s true class cpu head tag
  else pop_single_from s false class cpu head tag.

(** [while count < batch_size && !next.is_null()] *)
Fixpoint walk (fuel : nat) (mem : gmap Z Header) (batch_size tail next count : Z) : outcome (Z * Z * Z) :=
  match fuel with
  | O => Stuck
  | S fuel' =>
      if (count <? batch_size) && negb (next =? null) then
        h ← from_option (mem !! next);
        walk fuel' mem batch_size next (s_next h) (wadd count 1)
      else Ret (tail, next, count)
  end.

(** One list of [transfer_pop_batch]. *)
Definition pop_batch_from (s : slab) (trimmed : bool) (class cpu batch_size head tag : Z) : outcome (Z * Z * Z * slab) :=
  h ← from_option (sl_mem s !! head);
  '(tail, next, count) ← walk (S (size (sl_mem s))) (sl_mem s) batch_size head (s_next h) 1;
  t ← get_list (sl_inner s) cpu class;
  i ← set_list (sl_inner s) cpu class (with_word trimmed t (pack next tag));
  i ← (if negb (next =? null) then Ret i else clear_hint i class cpu);
  Ret (head, tail, count, mkSlab i (sl_mem s)).

Definition transfer_pop_batch (s : slab) (class cpu batch_size : Z) : outcome (option (Z * Z * Z) * slab) :=
  t ← get_list (sl_inner s) cpu class;
  let '(head, tag) := unpack_ptr (tc_list t) in
  if head =? null then
    let '(head, tag) := unpack_ptr (tc_trimmed t) in
    if head =? null then
      i ← clear_hint (sl_inner s) class cpu;
      Ret (None, mkSlab i (sl_mem s))
    else '(r, s) ← pop_batch_from s true class cpu batch_size head tag; Ret (Some r, s)
  else '(r, s) ← pop_batch_from s false class cpu batch_size head tag; Ret (Some r, s).

(** ** Stealing *)

(** [while bits != 0] over the victims of one word. *)
Fixpoint steal_bits (fuel : nat) (s : slab) (class cpu_id batch_size word_idx : Z) (force_steal : bool) (bits : Z) :
    outcome (option (Z * Z * Z) * slab) :=
  match fuel with
  | O => Stuck
  | S fuel' =>
      if bits =? 0 then Ret (None, s)
      else
        let bit := trailing_zeros bits in
        let bits := Z.land bits (wsub bits 1) in
        let victim := word_idx * 64 + bit in
        if victim =? cpu_id then steal_bits fuel' s class cpu_id batch_size word_idx force_steal bits
        else
          '(marked, i) ← try_mark_being_stolen (sl_inner s) class victim;
          let s := mkSlab i (sl_mem s) in
          if negb marked && negb force_steal then steal_bits fuel' s class cpu_id batch_size word_idx force_steal bits
          else
            '(result, s) ← transfer_pop_batch s class victim batch_size;
            i ← clear_being_stolen (sl_inner s) class victim;
            let s := mkSlab i (sl_mem s) in
            match result with
            | Some block => Ret (Some block, s)
            | None => steal_bits fuel' s class cpu_id batch_size word_idx force_steal bits
            end
  end.

(** The bits of a word that lie in [start, end_]. *)
Definition range_bits (bits word_idx start end_ : Z) : Z :=
  let bits := if word_idx =? Z.shiftr start 6 then Z.land bits (wshl usize_max (Z.land start 63)) else bits in
  if word_idx =? Z.shiftr end_ 6 then
    let last := Z.land end_ 63 in
    Z.land bits (if last =? 63 then usize_max else wsub (wshl 1 (last + 1)) 1)
  else bits.

(** One word and one value of [force_steal]. *)
Definition steal_word (s : slab) (class cpu_id batch_size start end_ word_idx : Z) (force_steal : bool) :
    outcome (option (Z * Z * Z) * slab) :=
  let base := wmul class (si_bitmap_words (sl_inner s)) in
  bits ← Bitmap.read (si_nonempty (sl_inner s)) (wadd base word_idx);
  if bits =? 0 then Ret (None, s)
  else steal_bits 65 s class cpu_id batch_size word_idx force_steal (range_bits bits word_idx start end_).

Fixpoint steal_words (n : nat) (s : slab) (class cpu_id batch_size start end_ word_idx : Z) :
    outcome (option (Z * Z * Z) * slab) :=
  match n with
  | O => Ret (None, s)
  | S n' =>
      '(r, s) ← steal_word s class cpu_id batch_size start end_ word_idx false;
      match r with
      | Some block => Ret (Some block, s)
      | None =>
          '(r, s) ← steal_word s class cpu_id batch_size start end_ word_idx true;
          match r with
          | Some block => Ret (Some block, s)
          | None => steal_words n' s class cpu_id batch_size start end_ (word_idx + 1)
          end
      end
  end.

Definition first_nonempty_cpu_in_range (s : slab) (class cpu_id batch_size start end_ : Z) :
    outcome (option (Z * Z * Z) * slab) :=
  let start_word := Z.shiftr start 6 in
  let end_word := Z.shiftr end_ 6 in
  steal_words (Z.to_nat (end_word - start_word + 1)) s class cpu_id batch_size start end_ start_word.

Definition node_for_cpu (i : SlabCacheInner) (cpu_id : Z) : outcome Z :=
  if negb (si_is_numa i) then Ret 0 else Bitmap.read (cpu_to_node (si_numa i)) cpu_id.

Definition numa_cpu (i : SlabCacheInner) (cpu_id : Z) : outcome (Z * Z * Z) :=
  numa_id ← Bitmap.read (cpu_to_node (si_numa i)) cpu_id;
  range ← Bitmap.read (cpu_ranges (si_numa i)) numa_id;
  Ret (cr_start_cpu range, cr_end_cpu range, numa_id).

Definition no_blocks : Z * Z * Z := (null, null, 0).

(** [for i in 1..nranges] *)
Fixpoint numa_steal_loop (n : nat) (s : slab) (class cpu_id node_id batch_size i : Z) : outcome (Z * Z * Z * slab) :=
  match n with
  | O => Ret (no_blocks, s)
  | S n' =>
      let node := (i + node_id) mod nranges (si_numa (sl_inner s)) in
      range ← Bitmap.read (cpu_ranges (si_numa (sl_inner s))) node;
      '(r, s) ← first_nonempty_cpu_in_range s class cpu_id batch_size (cr_start_cpu range) (cr_end_cpu range);
      match r with
      | Some block => Ret (block, s)
      | None => numa_steal_loop n' s class cpu_id node_id batch_size (i + 1)
      end
  end.

Definition slowest_numa_steal_path (s : slab) (class cpu_id node_id batch_size : Z) : outcome (Z * Z * Z * slab) :=
  numa_steal_loop (Z.to_nat (nranges (si_numa (sl_inner s)) - 1)) s class cpu_id node_id batch_size 1.

Definition pop_slow (s : slab) (class cpu_id batch_size : Z) : outcome (Z * Z * Z * slab) :=
  '(start, end_, node_id) ← (if si_is_numa (sl_inner s) then numa_cpu (sl_inner s) cpu_id
                             else Ret (0, ncpu (si_numa (sl_inner s)) - 1, 0));
  '(r, s) ← first_nonempty_cpu_in_range s class cpu_id batch_size start end_;
  match r with
  | Some block => Ret (block, s)
  | None =>
      if si_is_numa (sl_inner s) then
        '(pointer, s) ← slowest_numa_steal_path s class cpu_id node_id batch_size;
        if negb (pointer.1.1 =? null) then Ret (pointer, s) else Ret (no_blocks, s)
      else Ret (no_blocks, s)
  end.

Definition try_pop (s : slab) (class batch_size cpu_id : Z) : outcome (Z * Z * Z * slab) :=
  empty ← is_empty (sl_inner s) class cpu_id;
  if negb empty then
    '(r, s) ← transfer_pop_batch s class cpu_id batch_size;
    match r with
    | Some popped => Ret (popped, s)
    | None => pop_slow s class cpu_id batch_size
    end
  else pop_slow s class cpu_id batch_size.

(** ** The restartable sequences on the cache *)

(** A round of a loop: the CPU read and whether the sequence aborts. *)
Definition round : Type := Z * bool.

Definition rseq_push (s : slab) (cpu class header tail count : Z) : outcome slab :=
  c ← get_cache (sl_inner s) cpu class;
  mem ← set_header_next (sl_mem s) tail (rc_list c);
  i ← set_cache (sl_inner s) cpu class (mkRseqCache header (wadd (rc_usage c) count));
  Ret (mkSlab i mem).

Definition rseq_pop (s : slab) (cpu class : Z) : outcome (Z * slab) :=
  c ← get_cache (sl_inner s) cpu class;
  if rc_list c =? null then Ret (null, s)
  else
    h ← from_option (sl_mem s !! rc_list c);
    i ← set_cache (sl_inner s) cpu class (mkRseqCache (s_next h) (wsub (rc_usage c) 1));
    Ret (rc_list c, mkSlab i (sl_mem s)).

(** [CACHE_HIGH_BLOCKS[class]] *)
Definition high_blocks (class : Z) : outcome Z := Bitmap.read CACHE_HIGH_BLOCKS class.

Definition push_tailed (s : slab) (env : round) (class header tail batch_size : Z) : outcome slab :=
  let '(current_cpu, aborts) := env in
  c ← get_cache (sl_inner s) current_cpu class;
  high ← high_blocks class;
  if high <=? rc_usage c then transfer_push_batch s class header tail current_cpu
  else if negb aborts then rseq_push s current_cpu class header tail batch_size
  else transfer_push_batch s class header tail current_cpu.

Fixpoint push_loop (s : slab) (env : list round) (class header loop_count : Z) : outcome slab :=
  match env with
  | [] => Stuck
  | (current_cpu, aborts) :: env =>
      c ← get_cache (sl_inner s) current_cpu class;
      high ← high_blocks class;
      if high <=? rc_usage c then transfer_push_single s class header current_cpu
      else if negb aborts then rseq_push s current_cpu class header header 1
      else if 3 <? loop_count then transfer_push_single s class header current_cpu
      else push_loop s env class header (loop_count + 1)
  end.

Definition push (s : slab) (env : list round) (class header : Z) : outcome slab := push_loop s env class header 0.

Fixpoint pop_loop (s : slab) (env : list round) (class loop_count : Z) : outcome (Z * slab) :=
  match env with
  | [] => Stuck
  | (current_cpu, aborts) :: env =>
      if negb aborts then rseq_pop s current_cpu class
      else if loop_count =? 3 then
        '(mail, s) ← transfer_pop_single s class current_cpu;
        if negb (mail =? null) then Ret (mail, s) else pop_loop s env class 1
      else pop_loop s env class (loop_count + 1)
  end.

Definition pop (s : slab) (env : list round) (class : Z) : outcome (Z * slab) := pop_loop s env class 0.

(** ** [ensure_cache], the first time it is called *)

Section Init.
Context {K} `{!Kernel K} (read_file_stack : list Z -> option (list Z)).

Definition zero_main : MainCache :=
  mkMainCache (replicate class_count (mkRseqCache 0 0)) (replicate class_count (mkTransferCache 0 0)).

(** [for range in 0..nranges { .. bind_node(..) }] *)
Fixpoint bind_ranges (ranges : list NumaCpuRange) (cache ncpu : Z) (k : K) : K :=
  match ranges with
  | [] => k
  | r :: ranges =>
      let start := cr_start_cpu r in
      let end_ := Z.min (cr_end_cpu r) (saturating_sub ncpu 1) in
      let k := if start <=? end_ then
                 (bind_node (wadd cache (wmul start MainCache_SIZE)) (wmul MainCache_SIZE (end_ - start + 1)) (cr_node_id r) k).2
               else k in
      bind_ranges ranges cache ncpu k
  end.

Definition ensure_cache (get_nprocs_conf : Z) (k : K) : outcome (SlabCacheInner * ThreadQueue * K) :=
  let ncpu := get_max_cpu get_nprocs_conf in
  let alloc_size := ncpu + 1 in
  let cache_bytes := wmul MainCache_SIZE alloc_size in
  match mmap_anonymous cache_bytes k with
  | (None, _) => Fatal OutOfMemory
  | (Some cache, k) =>
      '(numa, k) ← parse_numa_topology read_file_stack ncpu k;
      let '(numa, is_numa) :=
        match numa with
        | Some numa => (numa, 1 <? nnodes numa)
        | None => (mkNumaTopology [] ncpu [] 1 [] 2, false)
        end in
      let k := if is_numa then bind_ranges (cpu_ranges numa) cache ncpu k else k in
      let bitmap_words := Z.max ((alloc_size + 63) / 64) 1 in
      let bitmap_bytes := 8 * bitmap_words * NUM_SIZE_CLASSES in
      let bitmaps_each := bitmap_bytes / 8 in
      match mmap_anonymous (wmul bitmap_bytes 2) k with
      | (None, _) => Fatal OutOfMemory
      | (Some _, k) =>
          let map := replicate (Z.to_nat bitmaps_each) 0 in
          let inner := mkSlabCacheInner (replicate (Z.to_nat alloc_size) zero_main) numa is_numa bitmap_words map map in
          let '(queue, k) := ThreadQueue_init ThreadQueue_new (nranges numa) is_numa k in
          Ret (inner, queue, k)
      end
  end.
End Init.
