(* ===== verification/SlabProofs.v ===== *)
(** * The slab caches hold one list per CPU, class and kind

    [slab_rep] ties the cache to the lists of blocks it stands for, and says what
    the hint bitmap promises.  Each operation of [SlabCache] is shown to run and to
    change one list at its head. *)

From S2P Require Import Prelude Types SizeClasses SList Rseq Bitmap PendingQueue Numa SlabCache.

(** ** Tagged pointers *)

Lemma PTR_MASK_eq : PTR_MASK = 2 ^ 56 - 1.
Proof. reflexivity. Qed.

Lemma unpack_eq w : (unpack_ptr w).1 = w mod 2 ^ 56.
Proof. unfold unpack_ptr. simpl. rewrite PTR_MASK_eq. by rewrite land_low. Qed.

Lemma tag_land w : is_u 64 w -> Z.land w TAG_MASK = w / 2 ^ 56 * 2 ^ 56.
Proof.
  intros Hw. apply (word_eq 64); [lia|apply land_u; [lia|done]| |].
  - assert (0 <= w / 2 ^ 56 < 2 ^ 8) by (split; [apply Z.div_pos; [apply Hw|lia]|apply Z.div_lt_upper_bound; [lia|]; apply Hw]).
    unfold is_u. change (2 ^ 64) with (2 ^ 8 * 2 ^ 56). nia.
  - intros n Hn. rewrite Z.land_spec. assert (HT : Z.testbit TAG_MASK n = (56 <=? n)).
    { change TAG_MASK with (Z.ones 8 * 2 ^ 56). destruct (Z.leb_spec 56 n).
      - rewrite Z.mul_pow2_bits by lia. apply Z.ones_spec_low. lia.
      - by rewrite Z.mul_pow2_bits_low. }
    rewrite HT. destruct (Z.leb_spec 56 n).
    + rewrite Z.mul_pow2_bits, Z.div_pow2_bits, andb_true_r by lia. f_equal. lia.
    + by rewrite Z.mul_pow2_bits_low, andb_false_r.
Qed.

(** The word that [pack] builds: the address below the next tag. *)
Lemma pack_eq p t : is_u 56 p -> is_u 64 t -> pack p t = p + ((t / 2 ^ 56 + 1) mod 256) * 2 ^ 56.
Proof.
  intros Hp Ht. unfold pack. rewrite PTR_MASK_eq, land_low by lia. rewrite Z.mod_small by apply Hp.
  rewrite tag_land by apply wrap_range, Z.leb_le, eq_refl.
  assert (Htag : wadd t TAG_STEP / 2 ^ 56 = (t / 2 ^ 56 + 1) mod 256).
  { unfold wadd, wrap, TAG_STEP. change (wshl 1 TAG_SHIFT) with (1 * 2 ^ 56). change (2 ^ 64) with (256 * 2 ^ 56).
    rewrite <- Z.div_add by lia.
    rewrite (Z.mul_comm 256). rewrite Z.rem_mul_r by lia. rewrite (Z.mul_comm (2 ^ 56) (_ mod 256)), Z.div_add by lia.
    rewrite Z.div_small by (apply Z.mod_pos_bound; lia). done. }
  rewrite Htag. set (g := (t / 2 ^ 56 + 1) mod 256). assert (0 <= g < 256) by (apply Z.mod_pos_bound; lia).
  assert (Hland : Z.land p (g * 2 ^ 56) = 0).
  { apply Z.bits_inj'. intros n Hn. rewrite Z.land_spec, Z.bits_0. destruct (Z.lt_ge_cases n 56).
    - by rewrite Z.mul_pow2_bits_low, andb_false_r by lia.
    - rewrite (testbit_high 56) by (done || lia). done. }
  by rewrite <- Z.lxor_lor, <- Z.add_nocarry_lxor.
Qed.

Lemma unpack_pack p t : is_u 56 p -> is_u 64 t -> (unpack_ptr (pack p t)).1 = p /\ is_u 64 (pack p t).
Proof.
  intros Hp Ht. rewrite unpack_eq, pack_eq by done. pose proof (Z.mod_pos_bound (t / 2 ^ 56 + 1) 256 ltac:(lia)). split.
  - rewrite Z.mod_add by lia. apply Z.mod_small, Hp.
  - unfold is_u in *. change (2 ^ 64) with (256 * 2 ^ 56). nia.
Qed.

(** Packing an address of at most 56 bits and unpacking it gives the address
    back, and the tag above it counts the updates modulo 256. *)
Theorem pack_roundtrip (ptr word : Z) (Hptr : is_u 56 ptr) (Hword : is_u 64 word) :
  (unpack_ptr (pack ptr word)).1 = ptr /\ pack ptr word / 2 ^ TAG_SHIFT = (word / 2 ^ TAG_SHIFT + 1) mod 256.
Proof.
  split; [by apply unpack_pack|]. rewrite pack_eq by done. change TAG_SHIFT with 56. rewrite Z.div_add by lia.
  rewrite Z.div_small by apply Hptr. done.
Qed.

Lemma pack_roundtrip_witness :
  (unpack_ptr (pack 0xabcdef12345670 (2 ^ 64 - 1))).1 = 0xabcdef12345670 /\
  pack 0xabcdef12345670 (2 ^ 64 - 1) / 2 ^ TAG_SHIFT = ((2 ^ 64 - 1) / 2 ^ TAG_SHIFT + 1) mod 256.
Proof. apply (pack_roundtrip 0xabcdef12345670 (2 ^ 64 - 1)); unfold is_u; lia. Defined.

(** ** The cells *)

Definition cellf (i : SlabCacheInner) (cpu class : Z) : RseqCache :=
  default (mkRseqCache 0 0) (si_cache i !! Z.to_nat cpu ≫= fun m => mc_cache m !! Z.to_nat class).

Definition mailf (i : SlabCacheInner) (cpu class : Z) : TransferCache :=
  default (mkTransferCache 0 0) (si_cache i !! Z.to_nat cpu ≫= fun m => mc_mail m !! Z.to_nat class).

(** The cache has [n] CPUs. *)
Record dims (n : Z) (i : SlabCacheInner) : Prop := {
  di_len : Z.of_nat (length (si_cache i)) = n;
  di_row : Forall (fun m => length (mc_cache m) = class_count /\ length (mc_mail m) = class_count) (si_cache i);
}.

Definition valid (n cpu class : Z) : Prop := 0 <= cpu < n /\ 0 <= class < NUM_SIZE_CLASSES.

(** Fields other than the cells. *)
Definition same_rest (i i' : SlabCacheInner) : Prop :=
  si_numa i' = si_numa i /\ si_is_numa i' = si_is_numa i /\ si_bitmap_words i' = si_bitmap_words i /\ si_nonempty i' = si_nonempty i /\ si_stolen i' = si_stolen i.

Lemma get_main_ok n i cpu class : dims n i -> valid n cpu class ->
  exists m, get_main i cpu = Ret m /\ si_cache i !! Z.to_nat cpu = Some m /\ length (mc_cache m) = class_count /\ length (mc_mail m) = class_count.
Proof.
  intros [Hl Hr] [Hc Hp]. destruct (read_lt (si_cache i) cpu) as (m & Hm & Hrd); [lia|]. rewrite Forall_lookup in Hr. exists m.
  split; [done|]. split; [done|]. by apply (Hr _ _ Hm).
Qed.

Lemma class_lt n cpu class : valid n cpu class -> (Z.to_nat class < class_count)%nat.
Proof. intros [_ H]. unfold class_count. lia. Qed.

Lemma get_cache_ok n i cpu class : dims n i -> valid n cpu class -> get_cache i cpu class = Ret (cellf i cpu class).
Proof.
  intros Hd Hv. destruct (get_main_ok n i cpu class Hd Hv) as (m & Hg & Hm & Hl & _). unfold get_cache, cellf. rewrite Hg, Hm. cbn [mbind outcome_bind option_bind].
  pose proof (class_lt _ _ _ Hv). destruct (lookup_lt_is_Some_2 (mc_cache m) (Z.to_nat class)) as [c Hc]; [lia|]. rewrite Hc.
  apply read_ok; [done|apply Hv].
Qed.

Lemma get_list_ok n i cpu class : dims n i -> valid n cpu class -> get_list i cpu class = Ret (mailf i cpu class).
Proof.
  intros Hd Hv. destruct (get_main_ok n i cpu class Hd Hv) as (m & Hg & Hm & _ & Hl). unfold get_list, mailf. rewrite Hg, Hm. cbn [mbind outcome_bind option_bind].
  pose proof (class_lt _ _ _ Hv). destruct (lookup_lt_is_Some_2 (mc_mail m) (Z.to_nat class)) as [c Hc]; [lia|]. rewrite Hc.
  apply read_ok; [done|apply Hv].
Qed.

Lemma set_cache_ok n i cpu class c :
  dims n i -> valid n cpu class ->
  exists i', set_cache i cpu class c = Ret i' /\ dims n i' /\ same_rest i i' /\
    (forall p k, valid n p k -> mailf i' p k = mailf i p k) /\
    (forall p k, valid n p k -> cellf i' p k = if decide (p = cpu /\ k = class) then c else cellf i p k).
Proof.
  intros Hd Hv. destruct (get_main_ok n i cpu class Hd Hv) as (m & Hg & Hm & Hl1 & Hl2). unfold set_cache. rewrite Hg. cbn [mbind outcome_bind].
  eexists. split; [done|]. pose proof (class_lt _ _ _ Hv) as Hcl. pose proof (lookup_lt_Some _ _ _ Hm) as Hlt. split; [|split; [done|]].
  - destruct Hd as [D1 D2]. constructor; simpl; unfold write; [by rewrite length_insert|]. apply Forall_insert; [done|]. simpl. by rewrite length_insert.
  - unfold mailf, cellf, write. cbn [si_cache]. split; intros p k [Hp Hk]; destruct (decide (p = cpu)) as [->|Hne].
    + by rewrite list_lookup_insert_eq, Hm.
    + rewrite list_lookup_insert_ne; [done|]. destruct Hv. lia.
    + rewrite list_lookup_insert_eq, Hm by done. cbn [mbind option_bind mc_cache]. destruct (decide (k = class)) as [->|Hnk].
      * rewrite list_lookup_insert_eq by lia. by rewrite decide_True.
      * rewrite list_lookup_insert_ne by (destruct Hv; lia). by rewrite decide_False by naive_solver.
    + rewrite list_lookup_insert_ne by (destruct Hv; lia). by rewrite decide_False by naive_solver.
Qed.

Lemma set_list_ok n i cpu class t :
  dims n i -> valid n cpu class ->
  exists i', set_list i cpu class t = Ret i' /\ dims n i' /\ same_rest i i' /\
    (forall p k, valid n p k -> cellf i' p k = cellf i p k) /\
    (forall p k, valid n p k -> mailf i' p k = if decide (p = cpu /\ k = class) then t else mailf i p k).
Proof.
  intros Hd Hv. destruct (get_main_ok n i cpu class Hd Hv) as (m & Hg & Hm & Hl1 & Hl2). unfold set_list. rewrite Hg. cbn [mbind outcome_bind].
  eexists. split; [done|]. pose proof (class_lt _ _ _ Hv) as Hcl. pose proof (lookup_lt_Some _ _ _ Hm) as Hlt. split; [|split; [done|]].
  - destruct Hd as [D1 D2]. constructor; simpl; unfold write; [by rewrite length_insert|]. apply Forall_insert; [done|]. simpl. by rewrite length_insert.
  - unfold mailf, cellf, write. cbn [si_cache]. split; intros p k [Hp Hk]; destruct (decide (p = cpu)) as [->|Hne].
    + by rewrite list_lookup_insert_eq, Hm.
    + rewrite list_lookup_insert_ne; [done|]. destruct Hv. lia.
    + rewrite list_lookup_insert_eq, Hm by done. cbn [mbind option_bind mc_mail]. destruct (decide (k = class)) as [->|Hnk].
      * rewrite list_lookup_insert_eq by lia. by rewrite decide_True.
      * rewrite list_lookup_insert_ne by (destruct Hv; lia). by rewrite decide_False by naive_solver.
    + rewrite list_lookup_insert_ne by (destruct Hv; lia). by rewrite decide_False by naive_solver.
Qed.

(** ** The abstract caches *)

Inductive kind := Local | Mail | Trim.

#[export] Instance kind_eq_dec : EqDecision kind.
Proof. solve_decision. Defined.

(** The blocks of a kind, CPU and class, the next to go first. *)
Definition lists : Type := kind -> Z -> Z -> list Z.

Definition upd_list (Q : lists) (k : kind) (cpu class : Z) (l : list Z) : lists :=
  fun k' p c => if decide (k' = k /\ p = cpu /\ c = class) then l else Q k' p c.

(** The head pointer of a list. *)
Definition head_of (k : kind) (i : SlabCacheInner) (cpu class : Z) : Z :=
  match k with
  | Local => rc_list (cellf i cpu class)
  | Mail => (unpack_ptr (tc_list (mailf i cpu class))).1
  | Trim => (unpack_ptr (tc_trimmed (mailf i cpu class))).1
  end.

Definition mail_u (i : SlabCacheInner) (cpu class : Z) : Prop :=
  is_u 64 (tc_list (mailf i cpu class)) /\ is_u 64 (tc_trimmed (mailf i cpu class)).

(** Where a thread may put a block: an address of at most 56 bits. *)
Definition block_addr (a : Z) : Prop := 0 < a < 2 ^ 56.

(** Fields that no operation changes. *)
Definition same_static (s s' : slab) : Prop :=
  si_numa (sl_inner s') = si_numa (sl_inner s) /\ si_is_numa (sl_inner s') = si_is_numa (sl_inner s) /\
  si_bitmap_words (sl_inner s') = si_bitmap_words (sl_inner s).

#[export] Instance same_static_preorder : PreOrder same_static.
Proof. split; [done|]. intros s1 s2 s3 (A & B & C) (A' & B' & C'). split_and!; congruence. Qed.

(** No header comes or goes, and nothing but links to blocks changes. *)
Definition live_kept (s s' : slab) : Prop :=
  (forall a (x : Header), sl_mem s !! a = Some x ->
    exists v, sl_mem s' !! a = Some (with_s_next v x) /\ (v = s_next x \/ 0 <= v < 2 ^ 56)) /\
  forall a, sl_mem s !! a = None -> sl_mem s' !! a = None.

Lemma with_own_next (x : Header) : with_s_next (s_next x) x = x.
Proof. by destruct x. Qed.

Lemma live_same s s' : sl_mem s' = sl_mem s -> live_kept s s'.
Proof. intros Hm. split; rewrite Hm; [|done]. intros a x Hx. exists (s_next x). rewrite with_own_next. auto. Qed.

Lemma live_insert s i a (x : Header) v : sl_mem s !! a = Some x -> 0 <= v < 2 ^ 56 -> live_kept s (mkSlab i (<[a := with_s_next v x]> (sl_mem s))).
Proof.
  intros Hx Hv. split; cbn [sl_mem].
  - intros b y Hy. destruct (decide (b = a)) as [->|]; [simplify_eq; exists v; rewrite lookup_insert_eq; auto|].
    exists (s_next y). rewrite with_own_next, lookup_insert_ne by done. auto.
  - intros b Hb. rewrite lookup_insert_ne; [done|]. intros ->. congruence.
Qed.

Lemma live_some s s' a : live_kept s s' -> is_Some (sl_mem s !! a) -> is_Some (sl_mem s' !! a).
Proof. intros [Hk _] [x Hx]. destruct (Hk a x Hx) as (v & Hv & _). eauto. Qed.

Section Rep.
(** The number of CPUs, and the lists being stolen from. *)
Context (n : Z) (S : Z -> Z -> bool).

Record slab_rep (s : slab) (Q : lists) : Prop := {
  sr_dims : dims n (sl_inner s);
  sr_map : bitmap_wf (si_nonempty (sl_inner s)) NUM_SIZE_CLASSES (si_bitmap_words (sl_inner s));
  sr_smap : bitmap_wf (si_stolen (sl_inner s)) NUM_SIZE_CLASSES (si_bitmap_words (sl_inner s));
  sr_words : n <= 64 * si_bitmap_words (sl_inner s);
  sr_chain : forall k cpu class, valid n cpu class -> chain (sl_mem s) (head_of k (sl_inner s) cpu class) (Q k cpu class) 0;
  sr_usage : forall cpu class, valid n cpu class -> rc_usage (cellf (sl_inner s) cpu class) = wrap 64 (Z.of_nat (length (Q Local cpu class)));
  sr_mail_u : forall cpu class, valid n cpu class -> mail_u (sl_inner s) cpu class;
  sr_out : forall k cpu class, ~ valid n cpu class -> Q k cpu class = [];
  sr_addr : forall k cpu class a, a ∈ Q k cpu class -> block_addr a;
  sr_nodup : forall k cpu class, NoDup (Q k cpu class);
  sr_disjoint : forall k k' cpu cpu' class class' a, a ∈ Q k cpu class -> a ∈ Q k' cpu' class' -> k' = k /\ cpu' = cpu /\ class' = class;
  (** A CPU with blocks on its transfer list has its hint set. *)
  sr_hint : forall cpu class, valid n cpu class -> Q Mail cpu class <> [] ->
    bit_of (si_nonempty (sl_inner s)) (si_bitmap_words (sl_inner s)) class cpu = true;
  sr_stolen : forall cpu class, valid n cpu class ->
    bit_of (si_stolen (sl_inner s)) (si_bitmap_words (sl_inner s)) class cpu = S cpu class;
}.

Lemma rep_in_map s Q cpu class : slab_rep s Q -> valid n cpu class -> in_map NUM_SIZE_CLASSES (si_bitmap_words (sl_inner s)) class cpu.
Proof. intros HR [Hc Hk]. pose proof (sr_words _ _ HR). split; lia. Qed.

(** One list changes at one head; the others and their blocks stay. *)
Lemma rep_update s Q k cpu class l i' mem' :
  slab_rep s Q -> valid n cpu class -> dims n i' ->
  si_bitmap_words i' = si_bitmap_words (sl_inner s) -> si_stolen i' = si_stolen (sl_inner s) ->
  bitmap_wf (si_nonempty i') NUM_SIZE_CLASSES (si_bitmap_words i') ->
  (forall k' p c, valid n p c -> ~ (k' = k /\ p = cpu /\ c = class) -> head_of k' i' p c = head_of k' (sl_inner s) p c) ->
  chain mem' (head_of k i' cpu class) l 0 ->
  (forall k' p c a, a ∈ Q k' p c -> ~ (k' = k /\ p = cpu /\ c = class) -> mem' !! a = sl_mem s !! a) ->
  (forall a, a ∈ l -> a ∈ Q k cpu class \/ block_addr a /\ forall k' p c, a ∉ Q k' p c) -> NoDup l ->
  (forall p c, valid n p c -> rc_usage (cellf i' p c) = wrap 64 (Z.of_nat (length (upd_list Q k cpu class l Local p c)))) ->
  (forall p c, valid n p c -> mail_u i' p c) ->
  (forall p c, valid n p c -> upd_list Q k cpu class l Mail p c <> [] -> bit_of (si_nonempty i') (si_bitmap_words i') c p = true) ->
  slab_rep (mkSlab i' mem') (upd_list Q k cpu class l).
Proof.
  intros HR Hv Hd Hw Hst Hwf Hh Hc Hm Hin Hnd Hu Hmu Hhint.
  assert (Hdis : forall k' p c a, ~ (k' = k /\ p = cpu /\ c = class) -> a ∈ l -> a ∉ Q k' p c).
  { intros k' p c a Hne Ha Ha'. destruct (Hin a Ha) as [Ha2|[_ Hout]]; [|by apply (Hout k' p c)]. by apply Hne, (sr_disjoint _ _ HR _ _ _ _ _ _ a). }
  constructor; cbn [sl_inner sl_mem]; try done; unfold upd_list.
  - rewrite Hw, Hst. apply HR.
  - rewrite Hw. apply HR.
  - intros k' p c Hv'. case_decide as He; [by destruct He as (-> & -> & ->)|]. rewrite Hh by done.
    eapply chain_frame; [|by apply (sr_chain _ _ HR)]. intros a Ha. by eapply Hm.
  - intros k' p c Hnv. case_decide as He; [by destruct He as (-> & -> & ->)|]. by apply (sr_out _ _ HR).
  - intros k' p c a. case_decide as He; [|apply (sr_addr _ _ HR)]. intros Ha. destruct (Hin a Ha) as [Ha2|[? _]]; [by eapply (sr_addr _ _ HR)|done].
  - intros k' p c. case_decide; [done|apply HR].
  - intros k1 k2 p1 p2 c1 c2 a. repeat case_decide; intros Ha1 Ha2; [naive_solver| | |by eapply (sr_disjoint _ _ HR)].
    + by destruct (Hdis k2 p2 c2 a).
    + by destruct (Hdis k1 p1 c1 a).
  - rewrite Hw, Hst. apply HR.
Qed.

(** The head of a transfer list after one of its words was replaced. *)
Lemma head_with_word i i' (trimmed : bool) cpu class w :
  valid n cpu class ->
  (forall p k, valid n p k -> cellf i' p k = cellf i p k) ->
  (forall p k, valid n p k -> mailf i' p k = if decide (p = cpu /\ k = class) then with_word trimmed (mailf i cpu class) w else mailf i p k) ->
  (head_of (if trimmed then Trim else Mail) i' cpu class = (unpack_ptr w).1) /\
  (forall k' p c, valid n p c -> ~ (k' = (if trimmed then Trim else Mail) /\ p = cpu /\ c = class) -> head_of k' i' p c = head_of k' i p c) /\
  (is_u 64 w -> (forall p c, valid n p c -> mail_u i p c) -> forall p c, valid n p c -> mail_u i' p c).
Proof.
  intros Hv Hc Hm. split_and!.
  - unfold head_of. destruct trimmed; by rewrite Hm, decide_True.
  - intros k' p c Hv' Hne. unfold head_of. destruct k'; [by rewrite Hc|..]; rewrite Hm by done; (case_decide as He; [|done]);
      destruct He as [-> ->], trimmed; naive_solver.
  - intros Hw Hu p c Hv'. unfold mail_u. rewrite Hm by done. destruct (Hu p c Hv'). case_decide as He; [destruct He as [-> ->]|done]. by destruct trimmed.
Qed.

(** The hints after [mark_class_nonempty]. *)
Lemma mark_ok s Q i cpu class :
  slab_rep s Q -> valid n cpu class -> si_bitmap_words i = si_bitmap_words (sl_inner s) -> si_nonempty i = si_nonempty (sl_inner s) ->
  exists map, mark_class_nonempty i class cpu = Ret (with_nonempty i map) /\ bitmap_wf map NUM_SIZE_CLASSES (si_bitmap_words i) /\
    forall p c, valid n p c -> bit_of map (si_bitmap_words i) c p = if decide (c = class /\ p = cpu) then true
                                 else bit_of (si_nonempty (sl_inner s)) (si_bitmap_words (sl_inner s)) c p.
Proof.
  intros HR Hv Hw Hn. pose proof (rep_in_map _ _ _ _ HR Hv) as Hin. rewrite <- Hw in Hin. unfold mark_class_nonempty. rewrite Hn.
  assert (Hwf0 : bitmap_wf (si_nonempty (sl_inner s)) NUM_SIZE_CLASSES (si_bitmap_words i)) by (rewrite Hw; apply HR).
  destruct (bit_set_ok _ _ _ class cpu Hwf0 Hin) as (map & Hr & Hwf & Hb).
  rewrite Hr. exists map. split; [done|]. split; [done|]. intros p c Hv'. rewrite Hb; [by rewrite Hw|]. rewrite Hw. by eapply rep_in_map.
Qed.

Lemma clear_ok s Q i cpu class :
  slab_rep s Q -> valid n cpu class -> si_bitmap_words i = si_bitmap_words (sl_inner s) -> si_nonempty i = si_nonempty (sl_inner s) ->
  exists map, clear_class_hint i class cpu = Ret (with_nonempty i map) /\ bitmap_wf map NUM_SIZE_CLASSES (si_bitmap_words i) /\
    forall p c, valid n p c -> bit_of map (si_bitmap_words i) c p = if decide (c = class /\ p = cpu) then false
                                 else bit_of (si_nonempty (sl_inner s)) (si_bitmap_words (sl_inner s)) c p.
Proof.
  intros HR Hv Hw Hn. pose proof (rep_in_map _ _ _ _ HR Hv) as Hin. rewrite <- Hw in Hin. unfold clear_class_hint. rewrite Hn.
  assert (Hwf0 : bitmap_wf (si_nonempty (sl_inner s)) NUM_SIZE_CLASSES (si_bitmap_words i)) by (rewrite Hw; apply HR).
  destruct (bit_clear_ok _ _ _ class cpu Hwf0 Hin) as (map & Hr & Hwf & Hb).
  rewrite Hr. exists map. split; [done|]. split; [done|]. intros p c Hv'. rewrite Hb; [by rewrite Hw|]. rewrite Hw. by eapply rep_in_map.
Qed.

(** A chain of blocks that a thread holds: none is on a list. *)
Record held_chain (s : slab) (Q : lists) (start : Z) (bs : list Z) (tail : Z) : Prop := {
  hc_last : exists l, bs = l ++ [tail];
  hc_chain : exists q, chain (sl_mem s) start bs q;
  hc_nodup : NoDup bs;
  hc_addr : forall a, a ∈ bs -> block_addr a;
  hc_fresh : forall a k p c, a ∈ bs -> a ∉ Q k p c;
}.

Lemma block_u a : block_addr a -> is_u 56 a.
Proof. unfold block_addr, is_u. lia. Qed.

(** The head pointer of a list of blocks. *)
Lemma head_u (mem : gmap Z Header) h l : chain mem h l 0 -> (forall a, a ∈ l -> block_addr a) -> is_u 56 h.
Proof.
  intros Hc Ha. destruct l as [|a l]; simpl in Hc; [subst; done|]. destruct Hc as (-> & _). apply block_u, Ha. by left.
Qed.

Lemma rep_head_u s Q k cpu class : slab_rep s Q -> valid n cpu class -> 0 <= head_of k (sl_inner s) cpu class < 2 ^ 56.
Proof. intros HR Hv. exact (head_u _ _ _ (sr_chain _ _ HR k cpu class Hv) (sr_addr _ _ HR k cpu class)). Qed.

(** Linking a held chain in front of a list. *)
Lemma held_link s Q start bs tail k cpu class :
  slab_rep s Q -> valid n cpu class -> held_chain s Q start bs tail ->
  exists h, sl_mem s !! tail = Some h /\ is_u 56 start /\
    let mem' := <[tail := with_s_next (head_of k (sl_inner s) cpu class) h]> (sl_mem s) in
    set_header_next (sl_mem s) tail (head_of k (sl_inner s) cpu class) = Ret mem' /\
    chain mem' start (bs ++ Q k cpu class) 0 /\ NoDup (bs ++ Q k cpu class) /\
    (forall k' p c a, a ∈ Q k' p c -> mem' !! a = sl_mem s !! a) /\
    (forall a, a ∈ bs ++ Q k cpu class -> a ∈ Q k cpu class \/ block_addr a /\ forall k' p c, a ∉ Q k' p c).
Proof.
  intros HR Hv [(l & ->) (q & Hq) Hnd Ha Hf]. assert (Htl : tail ∈ l ++ [tail]) by set_solver.
  destruct (chain_in _ _ _ _ _ Hq Htl) as (H0 & h & Hh). exists h. split; [done|]. split.
  { assert (start ∈ l ++ [tail]) as Hs by (destruct l; simpl in Hq; destruct Hq as [-> _]; set_solver).
    specialize (Ha _ Hs). unfold block_addr, is_u in *. lia. }
  cbn zeta. assert (Hnd2 : NoDup ((l ++ [tail]) ++ Q k cpu class)).
  { apply NoDup_app. split; [done|]. split; [|apply HR]. intros a Ha1. by apply Hf. }
  split_and!.
  - unfold set_header_next, store_next. by rewrite Hh.
  - by eapply chain_prepend; [|by apply (sr_chain _ _ HR)| |].
  - done.
  - intros k' p c a Ha'. rewrite lookup_insert_ne; [done|]. intros <-. by apply (Hf tail k' p c).
  - intros a [Hb|Hb]%elem_of_app; [right; split; [by apply Ha|]; intros k' p c; by apply Hf|by left].
Qed.

Lemma transfer_push_ok s Q (trimmed : bool) cpu class start bs tail :
  slab_rep s Q -> valid n cpu class -> held_chain s Q start bs tail ->
  let k := if trimmed then Trim else Mail in
  exists s', transfer_push_to s trimmed class start tail cpu = Ret s' /\ slab_rep s' (upd_list Q k cpu class (bs ++ Q k cpu class)) /\
    same_static s s' /\ live_kept s s'.
Proof.
  intros HR Hv Hh k. destruct (held_link s Q start bs tail k cpu class HR Hv Hh) as (h & Hlk & Hus & Hset & Hch & Hnd & Hm & Hin).
  set (mem' := <[tail := _]> _) in *. unfold transfer_push_to. rewrite (get_list_ok n) by (done || apply HR). cbn [mbind outcome_bind].
  set (t := mailf (sl_inner s) cpu class). assert (Hhead : (unpack_ptr (word_of trimmed t)).1 = head_of k (sl_inner s) cpu class) by (by destruct trimmed).
  assert (Hwu : is_u 64 (word_of trimmed t)) by (destruct (sr_mail_u _ _ HR cpu class Hv); by destruct trimmed).
  unfold unpack_ptr at 1. change (Z.land (word_of trimmed t) PTR_MASK) with (unpack_ptr (word_of trimmed t)).1. rewrite Hhead, Hset. cbn [mbind outcome_bind].
  destruct (unpack_pack start (word_of trimmed t) Hus Hwu) as [Hup Hpu].
  destruct (set_list_ok n (sl_inner s) cpu class (with_word trimmed t (pack start (word_of trimmed t)))) as (i1 & Hs1 & Hd1 & (E1 & E2 & E3 & E4 & E5) & Hc1 & Hm1); [apply HR|done|].
  rewrite Hs1. cbn [mbind outcome_bind]. destruct (head_with_word _ _ _ _ _ _ Hv Hc1 Hm1) as (Hw1 & Hw2 & Hw3).
  assert (Hrest : forall map, bitmap_wf map NUM_SIZE_CLASSES (si_bitmap_words i1) ->
    (forall p c, valid n p c -> upd_list Q k cpu class (bs ++ Q k cpu class) Mail p c <> [] -> bit_of map (si_bitmap_words i1) c p = true) ->
    slab_rep (mkSlab (with_nonempty i1 map) mem') (upd_list Q k cpu class (bs ++ Q k cpu class)) /\
    same_static s (mkSlab (with_nonempty i1 map) mem') /\ live_kept s (mkSlab (with_nonempty i1 map) mem')).
  { intros map Hwf Hb. split; [|split; [done|by apply live_insert, (rep_head_u s Q)]]. apply (rep_update s); try done.
    - destruct Hd1. by constructor.
    - change (head_of k (with_nonempty i1 map) cpu class) with (head_of k i1 cpu class). unfold k. rewrite Hw1, Hup. done.
    - intros k' p c a Ha _. by eapply Hm.
    - intros p c Hv'. change (cellf (with_nonempty i1 map) p c) with (cellf i1 p c). rewrite Hc1 by done. rewrite (sr_usage _ _ HR) by done.
      unfold upd_list. rewrite decide_False; [done|]. by destruct trimmed; intros [? _].
    - apply Hw3; [done|]. apply HR. }
  destruct (Z.eqb_spec (head_of k (sl_inner s) cpu class) null) as [Hz|Hz].
  - destruct (mark_ok s Q i1 cpu class HR Hv E3 E4) as (map & Hmk & Hwf & Hb). rewrite Hmk. cbn [mbind outcome_bind].
    eexists. split; [done|]. apply Hrest; [done|]. intros p c Hv' Hne. rewrite Hb by done. case_decide as He; [done|].
    apply HR; [done|]. unfold upd_list in Hne. rewrite decide_False in Hne; [done|]. naive_solver.
  - cbn [mbind outcome_bind]. eexists. split; [done|]. replace i1 with (with_nonempty i1 (si_nonempty i1)) by (by destruct i1).
    apply Hrest; [rewrite E3, E4; apply HR|]. intros p c Hv' Hne. rewrite E3, E4. apply HR; [done|]. unfold upd_list in Hne.
    case_decide as He; [|done]. destruct He as (Hk & -> & ->). intros HQ. destruct trimmed; [done|].
    apply Hz, (chain_null (sl_mem s) _ (Q Mail cpu class)); [by apply (sr_chain _ _ HR Mail)|done].
Qed.

Lemma clear_hint_ok s Q i cpu class :
  slab_rep s Q -> valid n cpu class -> dims n i -> si_bitmap_words i = si_bitmap_words (sl_inner s) -> si_nonempty i = si_nonempty (sl_inner s) ->
  exists map, clear_hint i class cpu = Ret (with_nonempty i map) /\ bitmap_wf map NUM_SIZE_CLASSES (si_bitmap_words i) /\
    forall p c, valid n p c -> bit_of map (si_bitmap_words i) c p = if decide (c = class /\ p = cpu) then negb (head_of Mail i cpu class =? 0)
                                 else bit_of (si_nonempty (sl_inner s)) (si_bitmap_words (sl_inner s)) c p.
Proof.
  intros HR Hv Hd Hw Hn. destruct (clear_ok s Q i cpu class HR Hv Hw Hn) as (map & Hr & Hwf & Hb).
  unfold clear_hint. rewrite Hr. cbn [mbind outcome_bind].
  assert (Hd' : dims n (with_nonempty i map)) by (destruct Hd; by constructor).
  rewrite (get_list_ok n) by done. cbn [mbind outcome_bind].
  change ((unpack_ptr (tc_list (mailf (with_nonempty i map) cpu class))).1) with (head_of Mail i cpu class).
  destruct (Z.eqb_spec (head_of Mail i cpu class) null) as [Hz|Hz]; cbn [negb].
  - exists map. split; [done|]. split; [done|]. intros p c Hv'. rewrite Hb by done. by case_decide.
  - pose proof (rep_in_map _ _ _ _ HR Hv) as Hin. rewrite <- Hw in Hin.
    destruct (bit_set_ok _ _ map class cpu Hwf Hin) as (map2 & Hr2 & Hwf2 & Hb2). unfold mark_class_nonempty. cbn [si_nonempty si_bitmap_words with_nonempty].
    rewrite Hr2. cbn [fmap outcome_fmap]. exists map2. split; [by destruct i|]. split; [done|]. intros p c Hv'. rewrite Hb2 by (rewrite Hw; by eapply rep_in_map).
    case_decide; [done|]. by rewrite Hb, decide_False.
Qed.

(** The word of a transfer list is moved past the blocks [bs]. *)
Lemma take_front_ok s Q (trimmed : bool) cpu class bs rest next :
  let k := if trimmed then Trim else Mail in let t := mailf (sl_inner s) cpu class in
  slab_rep s Q -> valid n cpu class -> Q k cpu class = bs ++ rest -> chain (sl_mem s) next rest 0 ->
  exists i, set_list (sl_inner s) cpu class (with_word trimmed t (pack next (word_of trimmed t))) = Ret i /\ dims n i /\
    same_rest (sl_inner s) i /\ head_of Mail i cpu class = (if trimmed then head_of Mail (sl_inner s) cpu class else next) /\
    forall map, bitmap_wf map NUM_SIZE_CLASSES (si_bitmap_words i) ->
      (forall p c, valid n p c -> upd_list Q k cpu class rest Mail p c <> [] -> bit_of map (si_bitmap_words i) c p = true) ->
      slab_rep (mkSlab (with_nonempty i map) (sl_mem s)) (upd_list Q k cpu class rest).
Proof.
  intros k t HR Hv HQ Hch. assert (Hin : forall a, a ∈ rest -> a ∈ Q k cpu class) by (intros a Ha; rewrite HQ; set_solver).
  assert (Hnd : NoDup rest) by (pose proof (sr_nodup _ _ HR k cpu class) as H; rewrite HQ in H; by apply NoDup_app in H as (_ & _ & ?)).
  assert (Hnu : is_u 56 next) by (eapply head_u; [done|]; intros a Ha; by eapply (sr_addr _ _ HR), Hin).
  assert (Hwu : is_u 64 (word_of trimmed t)) by (destruct (sr_mail_u _ _ HR cpu class Hv); by destruct trimmed).
  destruct (unpack_pack next (word_of trimmed t) Hnu Hwu) as [Hup Hpu].
  destruct (set_list_ok n (sl_inner s) cpu class (with_word trimmed t (pack next (word_of trimmed t)))) as (i & Hs1 & Hd1 & Hrest & Hc1 & Hm1); [apply HR|done|].
  destruct (head_with_word _ _ _ _ _ _ Hv Hc1 Hm1) as (Hw1 & Hw2 & Hw3). exists i. split; [done|]. split; [done|]. split; [done|].
  pose proof Hrest as (E1 & E2 & E3 & E4 & E5). split.
  { destruct trimmed; [|by rewrite Hw1]. apply Hw2; [done|]. by intros [? _]. }
  intros map Hwf Hb. apply (rep_update s); try done.
  - destruct Hd1. by constructor.
  - change (head_of k (with_nonempty i map) cpu class) with (head_of k i cpu class). unfold k. by rewrite Hw1, Hup.
  - intros a Ha. left. by apply Hin.
  - intros p c Hv'. change (cellf (with_nonempty i map) p c) with (cellf i p c). rewrite Hc1 by done. rewrite (sr_usage _ _ HR) by done.
    unfold upd_list. rewrite decide_False; [done|]. by destruct trimmed; intros [? _].
  - apply Hw3; [done|]. apply HR.
Qed.

(** A list that lost blocks needs its hint only if it still has some. *)
Lemma hint_kept s Q k cpu class l p c :
  slab_rep s Q -> valid n p c -> (forall a, a ∈ l -> a ∈ Q k cpu class) -> upd_list Q k cpu class l Mail p c <> [] ->
  bit_of (si_nonempty (sl_inner s)) (si_bitmap_words (sl_inner s)) c p = true.
Proof.
  intros HR Hv Hin Hne. apply HR; [done|]. unfold upd_list in Hne. case_decide as He; [|done]. destruct He as (<- & -> & ->).
  intros HQ. rewrite HQ in Hin. destruct l as [|a l]; [done|]. specialize (Hin a ltac:(by left)). by apply not_elem_of_nil in Hin.
Qed.

Lemma pop_single_from_ok s Q (trimmed : bool) cpu class :
  let k := if trimmed then Trim else Mail in
  slab_rep s Q -> valid n cpu class -> head_of k (sl_inner s) cpu class <> 0 ->
  exists a l s', Q k cpu class = a :: l /\
    pop_single_from s trimmed class cpu (head_of k (sl_inner s) cpu class) (word_of trimmed (mailf (sl_inner s) cpu class)) = Ret (a, s') /\
    slab_rep s' (upd_list Q k cpu class l) /\ sl_mem s' = sl_mem s /\ same_static s s'.
Proof.
  intros k HR Hv Hz. destruct (chain_head _ _ _ (sr_chain _ _ HR k cpu class Hv) Hz) as (l & HQ & h & Hh & Hl).
  exists (head_of k (sl_inner s) cpu class), l. unfold pop_single_from. rewrite Hh. cbn [from_option mbind outcome_bind].
  rewrite (get_list_ok n) by (done || apply HR). cbn [mbind outcome_bind].
  destruct (take_front_ok s Q trimmed cpu class [head_of k (sl_inner s) cpu class] l (s_next h) HR Hv HQ Hl) as (i & Hs & Hd & (E1 & E2 & E3 & E4 & E5) & Hhd & Hrep).
  rewrite Hs. cbn [mbind outcome_bind]. eexists. split; [done|]. split; [done|]. split; [|done].
  replace i with (with_nonempty i (si_nonempty i)) by (by destruct i). apply Hrep; [rewrite E3, E4; apply HR|].
  intros p c Hv' Hne. rewrite E3, E4. apply (hint_kept s Q k cpu class l); [done|done| |exact Hne]. intros a Ha. rewrite HQ. by right.
Qed.

Lemma walk_ok mem batch l : forall fuel tail next count,
  chain mem next l 0 -> (length l < fuel)%nat -> 0 <= count < 2 ^ 64 -> is_u 64 batch ->
  exists bs rest next', l = bs ++ rest /\ chain mem next bs next' /\ chain mem next' rest 0 /\
    walk fuel mem batch tail next count = Ret (default tail (last bs), next', count + Z.of_nat (length bs)) /\
    count + Z.of_nat (length bs) <= Z.max count batch.
Proof.
  induction l as [|a l IH]; intros fuel tail next count Hc Hf Hct Hb; (destruct fuel as [|fuel]; [simpl in Hf; lia|]); cbn [walk].
  - simpl in Hc. subst next. rewrite andb_false_r. exists [], [], 0. rewrite Z.add_0_r. split_and!; [done..|lia].
  - simpl in Hc. destruct Hc as (-> & Ha & h & Hh & Hl). destruct (Z.ltb_spec count batch) as [Hlt|Hge]; cbn [andb].
    + destruct (Z.eqb_spec a null) as [|_]; [done|]. cbn [negb]. rewrite Hh. cbn [from_option mbind outcome_bind].
      assert (Hwa : wadd count 1 = count + 1) by (apply wadd_small; unfold is_u in Hb; lia). rewrite Hwa.
      destruct (IH fuel a (s_next h) (count + 1)) as (bs & rest & nx & -> & Hb1 & Hb2 & Hr & Hle); [done|simpl in Hf; lia|unfold is_u in Hb; lia|done|].
      exists (a :: bs), rest, nx. split; [done|]. split; [simpl; eauto|]. split; [done|]. split; [|cbn [length]; lia]. rewrite Hr, last_cons.
      replace (count + Z.of_nat (length (a :: bs))) with (count + 1 + Z.of_nat (length bs)) by (cbn [length]; lia). by destruct (last bs).
    + exists [], (a :: l), a. rewrite Z.add_0_r. split; [done|]. split; [done|]. split; [simpl; eauto|]. split; [done|]. simpl. lia.
Qed.

(** The blocks [(head, tail, count)] come off the front of one list. *)
Record taken (s : slab) (Q : lists) (k : kind) (cpu class batch : Z) (r : Z * Z * Z) (s' : slab) (Q' : lists) : Prop := {
  tk_blocks : exists l rest q, Q k cpu class = (l ++ [r.1.2]) ++ rest /\ Q' = upd_list Q k cpu class rest /\
    chain (sl_mem s') r.1.1 (l ++ [r.1.2]) q /\ r.2 = Z.of_nat (length (l ++ [r.1.2])) /\ r.2 <= Z.max 1 batch;
  tk_rep : slab_rep s' Q';
  tk_mem : sl_mem s' = sl_mem s;
  tk_static : same_static s s';
}.

Lemma fuel_ok s Q k cpu class : slab_rep s Q -> valid n cpu class -> (length (Q k cpu class) <= size (sl_mem s))%nat.
Proof.
  intros HR Hv. rewrite <- size_dom. eapply (chain_length (sl_mem s)); [by apply (sr_chain _ _ HR)|apply HR|done].
Qed.

Lemma pop_batch_from_ok s Q (trimmed : bool) cpu class batch :
  let k := if trimmed then Trim else Mail in
  slab_rep s Q -> valid n cpu class -> is_u 64 batch -> head_of k (sl_inner s) cpu class <> 0 -> (trimmed = true -> Q Mail cpu class = []) ->
  exists r s' Q', pop_batch_from s trimmed class cpu batch (head_of k (sl_inner s) cpu class) (word_of trimmed (mailf (sl_inner s) cpu class)) = Ret (r, s') /\
    taken s Q k cpu class batch r s' Q'.
Proof.
  intros k HR Hv Hbt Hz Hord. destruct (chain_head _ _ _ (sr_chain _ _ HR k cpu class Hv) Hz) as (l & HQ & h & Hh & Hl).
  pose proof (fuel_ok s Q k cpu class HR Hv) as Hf. rewrite HQ in Hf. cbn [length] in Hf. set (a := head_of k (sl_inner s) cpu class) in *.
  destruct (walk_ok (sl_mem s) batch l (Datatypes.S (size (sl_mem s))) a (s_next h) 1 Hl) as (bs & rest & nx & Hsplit & Hb1 & Hb2 & Hrun & Hle); [lia|lia|done|].
  unfold pop_batch_from. rewrite Hh. cbn [from_option mbind outcome_bind]. rewrite Hrun. cbn [mbind outcome_bind].
  rewrite (get_list_ok n) by (done || apply HR). cbn [mbind outcome_bind]. assert (HQ2 : Q k cpu class = (a :: bs) ++ rest) by (by rewrite HQ, Hsplit).
  destruct (take_front_ok s Q trimmed cpu class (a :: bs) rest nx HR Hv HQ2 Hb2) as (i & Hs & Hd & (E1 & E2 & E3 & E4 & E5) & Hhd & Hrep).
  rewrite Hs. cbn [mbind outcome_bind].
  assert (Hlast : exists pre, a :: bs = pre ++ [default a (last bs)]).
  { destruct (last bs) as [b|] eqn:Hlb; [apply last_Some in Hlb as [pre ->]; by exists (a :: pre)|]. apply last_None in Hlb as ->. by exists []. }
  destruct Hlast as [pre Hpre].
  assert (Hfin : forall map, bitmap_wf map NUM_SIZE_CLASSES (si_bitmap_words i) ->
    (forall p c, valid n p c -> upd_list Q k cpu class rest Mail p c <> [] -> bit_of map (si_bitmap_words i) c p = true) ->
    taken s Q k cpu class batch (a, default a (last bs), 1 + Z.of_nat (length bs)) (mkSlab (with_nonempty i map) (sl_mem s)) (upd_list Q k cpu class rest)).
  { intros map Hwf Hbit. constructor; [|by apply Hrep|done|done]. exists pre, rest, nx. cbn [fst snd sl_mem]. rewrite <- Hpre. split_and!; [done|done| |cbn [length]; lia|lia].
    destruct (sr_addr _ _ HR k cpu class a) as [Ha0 _]; [rewrite HQ; by left|]. simpl. split; [done|]. split; [lia|]. eauto. }
  destruct (Z.eqb_spec nx null) as [Hnx|Hnx]; cbn [negb].
  - subst nx. assert (rest = []) as -> by (by apply (chain_null _ _ _ Hb2)).
    destruct (clear_hint_ok s Q i cpu class HR Hv Hd E3 E4) as (map & Hr & Hwf & Hbit). rewrite Hr. cbn [mbind outcome_bind].
    eexists _, _, _. split; [done|]. apply Hfin; [done|]. intros p c Hv' Hne. rewrite Hbit by done. case_decide as He.
    + destruct He as [-> ->]. exfalso. apply Hne. unfold upd_list. destruct trimmed; [|by rewrite decide_True]. rewrite decide_False by (by intros [? _]). by apply Hord.
    + apply HR; [done|]. unfold upd_list in Hne. rewrite decide_False in Hne; [done|]. naive_solver.
  - cbn [mbind outcome_bind]. eexists _, _, _. split; [done|]. replace i with (with_nonempty i (si_nonempty i)) by (by destruct i).
    apply Hfin; [rewrite E3, E4; apply HR|]. intros p c Hv' Hne. rewrite E3, E4. apply (hint_kept s Q k cpu class rest); [done|done| |exact Hne].
    intros b Hb. rewrite HQ2. set_solver.
Qed.

Lemma mail_word s cpu class : unpack_ptr (tc_list (mailf (sl_inner s) cpu class)) = (head_of Mail (sl_inner s) cpu class, word_of false (mailf (sl_inner s) cpu class)) /\
  unpack_ptr (tc_trimmed (mailf (sl_inner s) cpu class)) = (head_of Trim (sl_inner s) cpu class, word_of true (mailf (sl_inner s) cpu class)).
Proof. done. Qed.

Lemma head_null s Q k cpu class : slab_rep s Q -> valid n cpu class -> head_of k (sl_inner s) cpu class = 0 <-> Q k cpu class = [].
Proof. intros HR Hv. apply (chain_null (sl_mem s)), HR, Hv. Qed.

(** Dropping the hint of a CPU without blocks. *)
Lemma drop_hint s Q cpu class :
  slab_rep s Q -> valid n cpu class -> Q Mail cpu class = [] ->
  exists i, clear_hint (sl_inner s) class cpu = Ret i /\ slab_rep (mkSlab i (sl_mem s)) Q /\ same_static s (mkSlab i (sl_mem s)).
Proof.
  intros HR Hv HQ. destruct (clear_hint_ok s Q (sl_inner s) cpu class HR Hv (sr_dims _ _ HR) eq_refl eq_refl) as (map & Hr & Hwf & Hb).
  rewrite Hr. eexists. split; [done|]. split; [|done]. destruct HR as [R1 R2 R3 R4 R5 R6 R7 R8 R9 R10 R11 R12 R13]. constructor; try done.
  - destruct R1. by constructor.
  - intros p c Hv' Hne. cbn [sl_inner si_nonempty si_bitmap_words with_nonempty]. rewrite Hb by done. case_decide as He; [destruct He as [-> ->]; done|by apply R12].
Qed.

Lemma transfer_pop_batch_ok s Q cpu class batch :
  slab_rep s Q -> valid n cpu class -> is_u 64 batch ->
  exists r s', transfer_pop_batch s class cpu batch = Ret (r, s') /\
    match r with
    | None => Q Mail cpu class = [] /\ Q Trim cpu class = [] /\ slab_rep s' Q /\ sl_mem s' = sl_mem s /\ same_static s s'
    | Some b => exists k Q', (k = Mail \/ k = Trim /\ Q Mail cpu class = []) /\ taken s Q k cpu class batch b s' Q'
    end.
Proof.
  intros HR Hv Hbt. unfold transfer_pop_batch. rewrite (get_list_ok n) by (done || apply HR). cbn [mbind outcome_bind].
  destruct (mail_word s cpu class) as [H1 H2]. rewrite H1, H2. pose proof (head_null s Q Mail cpu class HR Hv) as HM. pose proof (head_null s Q Trim cpu class HR Hv) as HT.
  destruct (Z.eqb_spec (head_of Mail (sl_inner s) cpu class) null) as [Hm|Hm].
  - destruct (Z.eqb_spec (head_of Trim (sl_inner s) cpu class) null) as [Ht|Ht].
    + destruct (drop_hint s Q cpu class HR Hv (proj1 HM Hm)) as (i & Hr & HR' & Hst). rewrite Hr. cbn [mbind outcome_bind].
      eexists _, _. split; [done|]. split_and!; [by apply HM|by apply HT|done..].
    + destruct (pop_batch_from_ok s Q true cpu class batch HR Hv Hbt Ht) as (r & s' & Q' & Hr & Htk); [intros _; by apply HM|]. rewrite Hr. cbn [mbind outcome_bind].
      eexists _, _. split; [done|]. exists Trim, Q'. split; [right; split; [done|by apply HM]|done].
  - destruct (pop_batch_from_ok s Q false cpu class batch HR Hv Hbt Hm) as (r & s' & Q' & Hr & Htk); [done|]. rewrite Hr. cbn [mbind outcome_bind].
    eexists _, _. split; [done|]. exists Mail, Q'. split; [by left|done].
Qed.

Lemma transfer_pop_single_ok s Q cpu class :
  slab_rep s Q -> valid n cpu class ->
  exists a s', transfer_pop_single s class cpu = Ret (a, s') /\ (sl_mem s' = sl_mem s /\ same_static s s') /\
    ((a = 0 /\ Q Mail cpu class = [] /\ Q Trim cpu class = [] /\ slab_rep s' Q) \/
     exists k l, (k = Mail \/ k = Trim) /\ Q k cpu class = a :: l /\ slab_rep s' (upd_list Q k cpu class l)).
Proof.
  intros HR Hv. unfold transfer_pop_single. rewrite (get_list_ok n) by (done || apply HR). cbn [mbind outcome_bind].
  destruct (mail_word s cpu class) as [H1 H2]. rewrite H1, H2. pose proof (head_null s Q Mail cpu class HR Hv) as HM. pose proof (head_null s Q Trim cpu class HR Hv) as HT.
  destruct (Z.eqb_spec (head_of Mail (sl_inner s) cpu class) null) as [Hm|Hm].
  - destruct (Z.eqb_spec (head_of Trim (sl_inner s) cpu class) null) as [Ht|Ht].
    + destruct (drop_hint s Q cpu class HR Hv (proj1 HM Hm)) as (i & Hr & HR' & Hst). rewrite Hr. cbn [mbind outcome_bind].
      eexists _, _. split; [done|]. split; [done|]. left. split_and!; [done|by apply HM|by apply HT|done].
    + destruct (pop_single_from_ok s Q true cpu class HR Hv Ht) as (a & l & s' & HQ & Hr & HR' & Hmem). rewrite Hr.
      eexists _, _. split; [done|]. split; [done|]. right. exists Trim, l. auto.
  - destruct (pop_single_from_ok s Q false cpu class HR Hv Hm) as (a & l & s' & HQ & Hr & HR' & Hmem). rewrite Hr.
    eexists _, _. split; [done|]. split; [done|]. right. exists Mail, l. auto.
Qed.

(** ** The per-CPU lists *)

(** The heads after one cell was replaced. *)
Lemma head_with_cell i i' cpu class c :
  valid n cpu class ->
  (forall p k, valid n p k -> mailf i' p k = mailf i p k) ->
  (forall p k, valid n p k -> cellf i' p k = if decide (p = cpu /\ k = class) then c else cellf i p k) ->
  head_of Local i' cpu class = rc_list c /\
  (forall k' p c', valid n p c' -> ~ (k' = Local /\ p = cpu /\ c' = class) -> head_of k' i' p c' = head_of k' i p c') /\
  ((forall p c', valid n p c' -> mail_u i p c') -> forall p c', valid n p c' -> mail_u i' p c').
Proof.
  intros Hv Hm Hc. split_and!.
  - unfold head_of. by rewrite Hc, decide_True.
  - intros k' p c' Hv' Hne. unfold head_of. destruct k'; [|by rewrite Hm..]. rewrite Hc, decide_False by (done || naive_solver). done.
  - intros Hu p c' Hv'. unfold mail_u. rewrite Hm by done. by apply Hu.
Qed.

(** A new head and usage for one per-CPU list. *)
Lemma cell_update s Q cpu class l mem' v u :
  slab_rep s Q -> valid n cpu class -> chain mem' v l 0 -> NoDup l ->
  (forall k p c a, a ∈ Q k p c -> ~ (k = Local /\ p = cpu /\ c = class) -> mem' !! a = sl_mem s !! a) ->
  (forall a, a ∈ l -> a ∈ Q Local cpu class \/ block_addr a /\ forall k' p c, a ∉ Q k' p c) ->
  u = wrap 64 (Z.of_nat (length l)) ->
  exists i, set_cache (sl_inner s) cpu class (mkRseqCache v u) = Ret i /\
    slab_rep (mkSlab i mem') (upd_list Q Local cpu class l) /\ same_static s (mkSlab i mem').
Proof.
  intros HR Hv Hch Hnd Hm Hin ->.
  destruct (set_cache_ok n (sl_inner s) cpu class (mkRseqCache v (wrap 64 (Z.of_nat (length l))))) as (i & Hs & Hd & (E1 & E2 & E3 & E4 & E5) & Hm1 & Hc1); [apply HR|done|].
  exists i. split; [done|]. split; [|done]. destruct (head_with_cell _ _ _ _ _ Hv Hm1 Hc1) as (H1 & H2 & H3).
  apply (rep_update s); try done.
  - rewrite E3, E4. apply HR.
  - by rewrite H1.
  - intros p c Hv'. rewrite Hc1 by done. unfold upd_list. destruct (decide (p = cpu /\ c = class)) as [Hd1|Hd1].
    + by rewrite decide_True.
    + rewrite (decide_False (P := Local = Local /\ _)) by naive_solver. by apply HR.
  - apply H3, HR.
  - intros p c Hv' Hne. rewrite E3, E4. apply HR; [done|]. unfold upd_list in Hne. by rewrite decide_False in Hne by (by intros [? _]).
Qed.

Lemma rseq_push_ok s Q cpu class start bs tail :
  slab_rep s Q -> valid n cpu class -> held_chain s Q start bs tail ->
  exists s', rseq_push s cpu class start tail (Z.of_nat (length bs)) = Ret s' /\
    slab_rep s' (upd_list Q Local cpu class (bs ++ Q Local cpu class)) /\ same_static s s' /\ live_kept s s'.
Proof.
  intros HR Hv Hh. destruct (held_link s Q start bs tail Local cpu class HR Hv Hh) as (h & Hlk & Hus & Hset & Hch & Hnd & Hm & Hin).
  unfold rseq_push. rewrite (get_cache_ok n) by (done || apply HR). cbn [mbind outcome_bind].
  change (rc_list (cellf (sl_inner s) cpu class)) with (head_of Local (sl_inner s) cpu class). rewrite Hset. cbn [mbind outcome_bind].
  destruct (cell_update s Q cpu class (bs ++ Q Local cpu class) (<[tail := with_s_next (head_of Local (sl_inner s) cpu class) h]> (sl_mem s)) start
    (wadd (rc_usage (cellf (sl_inner s) cpu class)) (Z.of_nat (length bs)))) as (i & Hs & HR' & Hst); try done.
  - intros k p c a Ha _. by eapply Hm.
  - rewrite (sr_usage _ _ HR) by done. unfold wadd, wrap. rewrite Zplus_mod_idemp_l, length_app. f_equal. lia.
  - rewrite Hs. cbn [mbind outcome_bind]. eexists. split; [done|]. split; [done|]. split; [done|by apply live_insert, (rep_head_u s Q)].
Qed.

Lemma rseq_pop_ok s Q cpu class :
  slab_rep s Q -> valid n cpu class ->
  exists a s', rseq_pop s cpu class = Ret (a, s') /\ (sl_mem s' = sl_mem s /\ same_static s s') /\
    ((a = 0 /\ Q Local cpu class = [] /\ s' = s) \/
     exists l, Q Local cpu class = a :: l /\ slab_rep s' (upd_list Q Local cpu class l)).
Proof.
  intros HR Hv. unfold rseq_pop. rewrite (get_cache_ok n) by (done || apply HR). cbn [mbind outcome_bind].
  change (rc_list (cellf (sl_inner s) cpu class)) with (head_of Local (sl_inner s) cpu class).
  destruct (Z.eqb_spec (head_of Local (sl_inner s) cpu class) null) as [Hz|Hz].
  - eexists _, _. split; [done|]. split; [done|]. left. split; [done|]. split; [by apply (head_null s Q)|done].
  - destruct (chain_head _ _ _ (sr_chain _ _ HR Local cpu class Hv) Hz) as (l & HQ & h & Hh & Hl). rewrite Hh. cbn [from_option mbind outcome_bind].
    pose proof (sr_nodup _ _ HR Local cpu class) as Hnd. rewrite HQ in Hnd. apply NoDup_cons in Hnd as [_ Hnd].
    destruct (cell_update s Q cpu class l (sl_mem s) (s_next h) (wsub (rc_usage (cellf (sl_inner s) cpu class)) 1)) as (i & Hs & HR' & Hst); try done.
    + intros a Ha. left. rewrite HQ. by right.
    + rewrite (sr_usage _ _ HR), HQ by done. unfold wsub, wrap. rewrite Zminus_mod_idemp_l. f_equal. cbn [length]. lia.
    + rewrite Hs. cbn [mbind outcome_bind]. eexists _, _. split; [done|]. split; [done|]. right. exists l. done.
Qed.

(** ** Pushing and popping *)

(** Blocks went in front of the local or of the transfer list of a CPU. *)
Definition added (s : slab) (Q : lists) (class : Z) (bs : list Z) (cpus : list Z) (r : outcome slab) : Prop :=
  exists s' k cpu, r = Ret s' /\ cpu ∈ cpus /\ (k = Local \/ k = Mail) /\ slab_rep s' (upd_list Q k cpu class (bs ++ Q k cpu class)) /\
    same_static s s' /\ live_kept s s'.

Lemma high_ok n' cpu class : valid n' cpu class -> exists h, high_blocks class = Ret h /\ 0 < h.
Proof.
  intros [_ Hc]. destruct (read_lt CACHE_HIGH_BLOCKS class) as (h & Hh & Hr); [exact Hc|]. exists h. split; [done|].
  assert (HF : Forall (fun h => 0 < h) CACHE_HIGH_BLOCKS) by (apply Forall_forall; intros x Hx; revert x Hx; apply Forall_forall; vm_compute; repeat constructor).
  rewrite Forall_lookup in HF. by eapply HF.
Qed.

Lemma push_tailed_ok s Q cpu aborts class start bs tail :
  slab_rep s Q -> valid n cpu class -> held_chain s Q start bs tail ->
  added s Q class bs [cpu] (push_tailed s (cpu, aborts) class start tail (Z.of_nat (length bs))).
Proof.
  intros HR Hv Hh. unfold push_tailed. rewrite (get_cache_ok n) by (done || apply HR). cbn [mbind outcome_bind].
  destruct (high_ok _ _ _ Hv) as (h & Hhi & _). rewrite Hhi. cbn [mbind outcome_bind].
  destruct (transfer_push_ok s Q false cpu class start bs tail HR Hv Hh) as (s1 & Hr1 & HR1).
  destruct (rseq_push_ok s Q cpu class start bs tail HR Hv Hh) as (s2 & Hr2 & HR2). unfold transfer_push_batch, added.
  destruct (h <=? rc_usage (cellf (sl_inner s) cpu class)); [|destruct aborts]; cbn [negb].
  - exists s1, Mail, cpu. split; [done|]; split; [by left|]; split; [by right|done].
  - exists s1, Mail, cpu. split; [done|]; split; [by left|]; split; [by right|done].
  - exists s2, Local, cpu. split; [done|]; split; [by left|]; split; [by left|done].
Qed.

(** The loop around a push ends after five aborts at the latest. *)
Lemma push_loop_ok s Q env class a count :
  slab_rep s Q -> Forall (fun r => valid n r.1 class) env -> held_chain s Q a [a] a -> 0 <= count <= 4 ->
  5 - count <= Z.of_nat (length env) \/ Exists (fun r => r.2 = false) env ->
  added s Q class [a] (env.*1) (push_loop s env class a count).
Proof.
  revert count. induction env as [|[cpu ab] env IH]; intros count HR Hvs Hh Hc Hend.
  { exfalso. destruct Hend as [Hl|He]; [simpl in Hl; lia|by apply Exists_nil in He]. }
  apply Forall_cons in Hvs as [Hv Hvs]. cbn [fst] in Hv. cbn [push_loop].
  rewrite (get_cache_ok n) by (done || apply HR). cbn [mbind outcome_bind]. destruct (high_ok _ _ _ Hv) as (h & Hhi & _). rewrite Hhi. cbn [mbind outcome_bind].
  destruct (transfer_push_ok s Q false cpu class a [a] a HR Hv Hh) as (s1 & Hr1 & HR1).
  assert (Hmail : added s Q class [a] (((cpu, ab) :: env).*1) (transfer_push_single s class a cpu)).
  { exists s1, Mail, cpu. split; [done|]; split; [by left|]; split; [by right|done]. }
  destruct (h <=? rc_usage (cellf (sl_inner s) cpu class)); [done|]. destruct ab; cbn [negb].
  - destruct (Z.ltb_spec 3 count) as [|Hlt]; [done|].
    destruct (IH (count + 1) HR Hvs Hh ltac:(lia)) as (s' & k & p & Hr & Hp & Hk & HR').
    { destruct Hend as [Hl|He]; [left; cbn [length] in Hl; lia|right]. apply Exists_cons in He as [He|He]; [done|done]. }
    exists s', k, p. split; [done|]; split; [by right|done].
  - destruct (rseq_push_ok s Q cpu class a [a] a HR Hv Hh) as (s2 & Hr2 & HR2).
    exists s2, Local, cpu. split; [done|]; split; [by left|]; split; [by left|done].
Qed.

Lemma pop_loop_ok s Q env class count :
  slab_rep s Q -> Forall (fun r => valid n r.1 class) env -> Exists (fun r => r.2 = false) env ->
  exists a s', pop_loop s env class count = Ret (a, s') /\ (sl_mem s' = sl_mem s /\ same_static s s') /\
    ((a = 0 /\ slab_rep s' Q /\ exists cpu, cpu ∈ env.*1 /\ Q Local cpu class = []) \/
     exists k cpu l, cpu ∈ env.*1 /\ Q k cpu class = a :: l /\ slab_rep s' (upd_list Q k cpu class l)).
Proof.
  revert s count. induction env as [|[cpu ab] env IH]; intros s count HR Hvs He; [by apply Exists_nil in He|].
  apply Forall_cons in Hvs as [Hv Hvs]. cbn [fst] in Hv. cbn [pop_loop]. destruct ab; cbn [negb].
  - apply Exists_cons in He as [He|He]; [done|].
    assert (Hnext : forall s1 c, slab_rep s1 Q -> sl_mem s1 = sl_mem s -> same_static s s1 -> exists a s', pop_loop s1 env class c = Ret (a, s') /\ (sl_mem s' = sl_mem s /\ same_static s s') /\
      ((a = 0 /\ slab_rep s' Q /\ exists p, p ∈ (((cpu, true) :: env).*1) /\ Q Local p class = []) \/
       exists k p l, p ∈ (((cpu, true) :: env).*1) /\ Q k p class = a :: l /\ slab_rep s' (upd_list Q k p class l))).
    { intros s1 c HR1 Hm1 Hst1. destruct (IH s1 c HR1 Hvs He) as (a & s' & Hr & [Hm Hst] & Hcase). exists a, s'. split; [done|]. split; [split; [congruence|by etrans]|].
      destruct Hcase as [(-> & HR' & p & Hp & HQ)|(k & p & l & Hp & HQ & HR')]; [left|right].
      - split; [done|]. split; [done|]. exists p. split; [by right|done].
      - exists k, p, l. split; [by right|done]. }
    destruct (count =? 3); [|by apply Hnext].
    destruct (transfer_pop_single_ok s Q cpu class HR Hv) as (a & s1 & Hr & [Hm1 Hst1] & Hcase). rewrite Hr. cbn [mbind outcome_bind].
    destruct Hcase as [(-> & _ & _ & HR1)|(k & l & Hk & HQ & HR1)]; [by apply Hnext|].
    destruct (Z.eqb_spec a null) as [Ha|Ha].
    { exfalso. destruct (sr_addr _ _ HR k cpu class a) as [? _]; [rewrite HQ; by left|]. lia. }
    cbn [negb]. exists a, s1. split; [done|]. split; [done|]. right. exists k, cpu, l. split; [by left|done].
  - destruct (rseq_pop_ok s Q cpu class HR Hv) as (a & s' & Hr & Hms & Hcase). exists a, s'. split; [done|]. split; [done|].
    destruct Hcase as [(-> & HQ & ->)|(l & HQ & HR')].
    + left. split; [done|]. split; [done|]. exists cpu. split; [by left|done].
    + right. exists Local, cpu, l. split; [by left|done].
Qed.
End Rep.
