(* ===== verification/SlabSteal.v ===== *)
(** * Stealing from other CPUs

    The scan of the hint bitmap: every CPU of the range whose hint is set is
    tried, and a scan that finds nothing shows that the transfer lists of all of
    them are empty. *)

From S2P Require Import Prelude Types SizeClasses SList Rseq Bitmap PendingQueue Numa SlabCache SlabProofs.

(** ** Words *)

(** [bits &= bits - 1] drops the lowest set bit, the one [trailing_zeros] found. *)
Lemma drop_lowest b :
  0 < b < 2 ^ 64 ->
  let z := trailing_zeros b in
  0 <= z < 64 /\ Z.testbit b z = true /\ (forall m, 0 <= m < z -> Z.testbit b m = false) /\
  (forall m, 0 <= m -> Z.testbit (Z.land b (wsub b 1)) m = Z.testbit b m && negb (m =? z)).
Proof.
  intros Hb z. destruct (trailing_zeros_spec b ltac:(lia)) as (Hz0 & Hmod & Hbit). fold z in Hz0, Hmod, Hbit.
  pose proof (Z.pow_pos_nonneg 2 z ltac:(lia) Hz0) as Hp.
  assert (Hlow : forall m, 0 <= m < z -> Z.testbit b m = false).
  { intros m Hm. rewrite <- (Z.mod_pow2_bits_low b z m) by lia. rewrite Hmod. apply Z.bits_0. }
  split; [|split; [done|split; [done|]]].
  - split; [done|]. destruct (Z.lt_ge_cases z 64) as [|Hge]; [done|]. rewrite (testbit_high 64) in Hbit; [done| |lia]. unfold is_u. lia.
  - intros m Hm. rewrite wsub_small by lia. rewrite Z.land_spec. destruct (Z.eqb_spec m z) as [->|Hne]; cbn [negb].
    + rewrite andb_false_r. rewrite (testbit_div z b) in * by done.
      assert (b = 2 ^ z * (b / 2 ^ z)) as Hb2 by (pose proof (Z.div_mod b (2 ^ z)); lia).
      assert (Hq : (b - 1) / 2 ^ z = b / 2 ^ z - 1).
      { symmetry. apply (Z.div_unique_pos _ _ _ (2 ^ z - 1)); nia. }
      by rewrite (testbit_div z (b - 1)), Hq, Z.odd_sub, Hbit by done.
    + rewrite andb_true_r. destruct (Z.lt_ge_cases m z) as [Hlt|Hge]; [by rewrite Hlow by lia|].
      assert (Hhi : forall x, Z.testbit x m = Z.testbit (x / 2 ^ (z + 1)) (m - (z + 1))) by (intros x; rewrite Z.div_pow2_bits by lia; f_equal; lia).
      rewrite (Hhi (b - 1)), (Hhi b). replace ((b - 1) / 2 ^ (z + 1)) with (b / 2 ^ (z + 1)); [by rewrite andb_diag|].
      rewrite Z.pow_add_r by lia. change (2 ^ 1) with 2. apply (Z.div_unique_pos _ _ _ (b mod (2 ^ z * 2) - 1)).
      * pose proof (Z.mod_pos_bound b (2 ^ z * 2) ltac:(lia)). assert (b mod (2 ^ z * 2) <> 0); [|lia].
        intros H0. rewrite Z.rem_mul_r, Hmod in H0 by lia. rewrite testbit_div, Zodd_mod in Hbit by done. apply Zeq_bool_eq in Hbit. nia.
      * pose proof (Z.div_mod b (2 ^ z * 2)). lia.
Qed.

Lemma zero_bits b : is_u 64 b -> (forall j, 0 <= j < 64 -> Z.testbit b j = false) -> b = 0.
Proof.
  intros Hb H. apply (word_eq 64); [lia|done|unfold is_u; lia|]. intros j Hj. rewrite Z.bits_0. by apply H.
Qed.

(** The bits of [range_bits]. *)
Lemma range_bits_ok bits w start end_ m :
  is_u 64 bits -> 0 <= start -> 0 <= end_ -> 0 <= m < 64 -> start / 64 <= w <= end_ / 64 ->
  Z.testbit (range_bits bits w start end_) m = Z.testbit bits m && ((start <=? w * 64 + m) && (w * 64 + m <=? end_)).
Proof.
  intros Hb Hs He Hm Hw. unfold range_bits. rewrite !Z.shiftr_div_pow2 by lia. change (2 ^ 6) with 64. change 63 with (2 ^ 6 - 1). rewrite !land_low by lia. change (2 ^ 6) with 64.
  pose proof (Z.div_mod start 64 ltac:(lia)). pose proof (Z.mod_pos_bound start 64 ltac:(lia)).
  pose proof (Z.div_mod end_ 64 ltac:(lia)). pose proof (Z.mod_pos_bound end_ 64 ltac:(lia)).
  assert (Hlo : Z.testbit (if w =? start / 64 then Z.land bits (wshl usize_max (start mod 64)) else bits) m = Z.testbit bits m && (start <=? w * 64 + m)).
  { destruct (Z.eqb_spec w (start / 64)) as [->|Hne].
    - rewrite Z.land_spec, wshl_testbit by lia. f_equal. change usize_max with (Z.ones 64).
      destruct (Z.leb_spec start (start / 64 * 64 + m)).
      + rewrite Z.ones_spec_low by lia. destruct (m <? 64) eqn:?, (start mod 64 <=? m) eqn:?; try done; lia.
      + destruct (start mod 64 <=? m) eqn:?; [lia|]. by rewrite ?andb_false_r.
    - destruct (Z.leb_spec start (w * 64 + m)); [by rewrite andb_true_r|lia]. }
  destruct (Z.eqb_spec w (end_ / 64)) as [->|Hne].
  - rewrite Z.land_spec, Hlo, <- andb_assoc. do 2 f_equal. destruct (Z.eqb_spec (end_ mod 64) (64 - 1)) as [Hl|Hl].
    + change usize_max with (Z.ones 64). rewrite Z.ones_spec_low by lia. destruct (Z.leb_spec (end_ / 64 * 64 + m) end_); [done|lia].
    + assert (Hsh : wshl 1 (end_ mod 64 + 1) = 2 ^ (end_ mod 64 + 1)).
      { unfold wshl. rewrite Z.shiftl_1_l. apply wrap_small. split; [lia|]. apply Z.pow_lt_mono_r; lia. }
      rewrite Hsh. pose proof (Z.pow_pos_nonneg 2 (end_ mod 64 + 1) ltac:(lia) ltac:(lia)).
      assert (2 ^ (end_ mod 64 + 1) < 2 ^ 64) by (apply Z.pow_lt_mono_r; lia).
      rewrite wsub_small by lia. rewrite ones_testbit by lia. destruct (Z.leb_spec (end_ / 64 * 64 + m) end_), (m <? end_ mod 64 + 1) eqn:?; simpl; try done; try lia.
      all: destruct (0 <=? m) eqn:?; try done; lia.
  - rewrite Hlo. destruct (Z.leb_spec (w * 64 + m) end_); [by rewrite andb_true_r|lia].
Qed.

(** ** Victims *)

Section Steal.
Context (n : Z).

Definition calm : Z -> Z -> bool := fun _ _ => false.

Definition stealing (cpu class : Z) : Z -> Z -> bool := fun p c => bool_decide (p = cpu /\ c = class).

(** Another stolen bitmap over the same lists. *)
Lemma rep_stolen S S' s Q map :
  slab_rep n S s Q -> bitmap_wf map NUM_SIZE_CLASSES (si_bitmap_words (sl_inner s)) ->
  (forall p c, valid n p c -> bit_of map (si_bitmap_words (sl_inner s)) c p = S' p c) ->
  slab_rep n S' (mkSlab (with_stolen (sl_inner s) map) (sl_mem s)) Q.
Proof.
  intros [R1 R2 R3 R4 R5 R6 R7 R8 R9 R10 R11 R12 R13] Hwf Hb. constructor; try done. destruct R1. by constructor.
Qed.

Lemma try_mark_ok s Q cpu class :
  slab_rep n calm s Q -> valid n cpu class ->
  exists i, try_mark_being_stolen (sl_inner s) class cpu = Ret (true, i) /\
    slab_rep n (stealing cpu class) (mkSlab i (sl_mem s)) Q /\ same_static s (mkSlab i (sl_mem s)).
Proof.
  intros HR Hv. destruct (try_marking_ok _ _ _ class cpu (sr_smap _ _ _ _ HR) (rep_in_map _ _ _ _ _ _ HR Hv)) as (map & Hr & Hwf & Hb).
  unfold try_mark_being_stolen. rewrite Hr, (sr_stolen _ _ _ _ HR) by done. cbn [mbind outcome_bind]. eexists. split; [done|]. split; [|done].
  apply (rep_stolen calm); [done..|]. intros p c Hv'. rewrite Hb by (by eapply rep_in_map). unfold stealing. case_decide as He.
  - rewrite bool_decide_eq_true_2; [done|naive_solver].
  - rewrite (sr_stolen _ _ _ _ HR) by done. rewrite bool_decide_eq_false_2; [done|naive_solver].
Qed.

Lemma clear_stolen_ok s Q cpu class :
  slab_rep n (stealing cpu class) s Q -> valid n cpu class ->
  exists i, clear_being_stolen (sl_inner s) class cpu = Ret i /\ slab_rep n calm (mkSlab i (sl_mem s)) Q /\ same_static s (mkSlab i (sl_mem s)).
Proof.
  intros HR Hv. destruct (bit_clear_ok _ _ _ class cpu (sr_smap _ _ _ _ HR) (rep_in_map _ _ _ _ _ _ HR Hv)) as (map & Hr & Hwf & Hb).
  unfold clear_being_stolen. rewrite Hr. eexists. split; [done|]. split; [|done].
  apply (rep_stolen (stealing cpu class)); [done..|]. intros p c Hv'. rewrite Hb by (by eapply rep_in_map). case_decide as He; [done|].
  rewrite (sr_stolen _ _ _ _ HR) by done. unfold stealing, calm. apply bool_decide_eq_false_2. naive_solver.
Qed.

(** What a search may return: blocks off the front of a transfer list of some
    CPU, or nothing, and then the normal lists of the CPUs in [searched] are empty. *)
Definition search (s : slab) (Q : lists) (class cpu_id batch : Z) (searched : Z -> Prop) (r : outcome (option (Z * Z * Z) * slab)) : Prop :=
  exists b s', r = Ret (b, s') /\
    match b with
    | Some b => exists victim k Q', valid n victim class /\ k <> Local /\ taken n calm s Q k victim class batch b s' Q'
    | None => slab_rep n calm s' Q /\ sl_mem s' = sl_mem s /\ same_static s s' /\
        forall v, searched v -> v <> cpu_id -> Q Mail v class = []
    end.

(** A search continued after one that found nothing. *)
Lemma search_next s s1 Q class cpu_id batch (P P' : Z -> Prop) r :
  search s1 Q class cpu_id batch P' r -> sl_mem s1 = sl_mem s -> same_static s s1 ->
  (forall v, P v -> P' v \/ (v <> cpu_id -> Q Mail v class = [])) -> search s Q class cpu_id batch P r.
Proof.
  intros (b & s' & Hr & Hb) Hm Hst HP. exists b, s'. split; [done|]. destruct b as [b|].
  - destruct Hb as (v & k & Q' & Hv & Hk & [T1 T2 T3 T4]). exists v, k, Q'. split; [done|]. split; [done|]. constructor; [done|done|congruence|by etrans].
  - destruct Hb as (HR & Hm' & Hst' & Hall). split; [done|]. split; [congruence|]. split; [by etrans|]. intros v Hv Hne.
    destruct (HP v Hv) as [Hv'|H]; [by apply Hall|by apply H].
Qed.

(** One victim. *)
Lemma victim_ok s Q victim class batch :
  slab_rep n calm s Q -> valid n victim class -> is_u 64 batch ->
  exists i b s2 i2, try_mark_being_stolen (sl_inner s) class victim = Ret (true, i) /\
    transfer_pop_batch (mkSlab i (sl_mem s)) class victim batch = Ret (b, s2) /\
    clear_being_stolen (sl_inner s2) class victim = Ret i2 /\
    match b with
    | Some b => exists k Q', k <> Local /\ taken n calm s Q k victim class batch b (mkSlab i2 (sl_mem s2)) Q'
    | None => slab_rep n calm (mkSlab i2 (sl_mem s2)) Q /\ sl_mem s2 = sl_mem s /\ same_static s (mkSlab i2 (sl_mem s2)) /\
        Q Mail victim class = [] /\ Q Trim victim class = []
    end.
Proof.
  intros HR Hv Hb. destruct (try_mark_ok s Q victim class HR Hv) as (i & Hmk & HR1 & Hst1). exists i.
  destruct (transfer_pop_batch_ok n _ _ Q victim class batch HR1 Hv Hb) as (b & s2 & Hpop & Hcase). exists b, s2.
  destruct b as [b|].
  - destruct Hcase as (k & Q' & Hk & [T1 T2 T3 T4]). destruct (clear_stolen_ok s2 Q' victim class T2 Hv) as (i2 & Hc & HR2 & Hst2).
    exists i2. split; [done|]. split; [done|]. split; [done|]. exists k, Q'. split; [by destruct Hk as [->|[-> _]]|].
    constructor; [done|done|done|]. etrans; [exact Hst1|]. etrans; [exact T4|]. exact Hst2.
  - destruct Hcase as (HM & HT & HR2 & Hm & Hst). destruct (clear_stolen_ok s2 Q victim class HR2 Hv) as (i2 & Hc & HR3 & Hst2).
    exists i2. split; [done|]. split; [done|]. split; [done|]. split; [done|]. split; [done|]. split; [|done]. etrans; [exact Hst1|]. etrans; [exact Hst|]. exact Hst2.
Qed.

Lemma steal_bits_ok fuel : forall s Q class cpu_id batch w (force : bool) bits lo,
  slab_rep n calm s Q -> is_u 64 batch -> is_u 64 bits -> 0 <= lo <= 64 -> 65 <= lo + Z.of_nat fuel ->
  (forall m, 0 <= m < lo -> Z.testbit bits m = false) ->
  (forall m, 0 <= m < 64 -> Z.testbit bits m = true -> valid n (w * 64 + m) class) ->
  search s Q class cpu_id batch (fun v => exists m, 0 <= m < 64 /\ Z.testbit bits m = true /\ v = w * 64 + m)
    (steal_bits fuel s class cpu_id batch w force bits).
Proof.
  induction fuel as [|fuel IH]; intros s Q class cpu_id batch w force bits lo HR Hbt Hbu Hlo Hf Hlow Hval; [lia|]. cbn [steal_bits].
  destruct (Z.eqb_spec bits 0) as [->|Hnz].
  { exists None, s. split; [done|]. split; [done|]. split; [done|]. split; [done|]. intros v (m & _ & Hm & _). by rewrite Z.bits_0 in Hm. }
  assert (Hpos : 0 < bits < 2 ^ 64) by (unfold is_u in Hbu; lia). destruct (drop_lowest bits Hpos) as (Hz & Hzb & Hzl & Hdrop).
  set (z := trailing_zeros bits) in *. set (bits' := Z.land bits (wsub bits 1)) in *.
  assert (Hzlo : lo <= z). { destruct (Z.lt_ge_cases z lo); [|done]. rewrite Hlow in Hzb by lia. done. }
  assert (Hrest : forall s1, slab_rep n calm s1 Q -> sl_mem s1 = sl_mem s -> same_static s s1 ->
      (w * 64 + z <> cpu_id -> Q Mail (w * 64 + z) class = []) ->
      search s Q class cpu_id batch (fun v => exists m, 0 <= m < 64 /\ Z.testbit bits m = true /\ v = w * 64 + m)
        (steal_bits fuel s1 class cpu_id batch w force bits')).
  { intros s1 HR1 Hm1 Hst1 Hv1. eapply search_next; [apply (IH s1 Q class cpu_id batch w force bits' (z + 1)); try done|done|done|].
    - apply land_u; [lia|done].
    - lia.
    - lia.
    - intros m Hm. rewrite Hdrop by lia. destruct (Z.eqb_spec m z) as [->|]; [by rewrite andb_false_r|]. rewrite Hzl by lia. done.
    - intros m Hm Hb. rewrite Hdrop in Hb by lia. apply andb_true_iff in Hb as [Hb _]. by apply Hval.
    - intros v (m & Hm & Hb & ->). destruct (Z.eq_dec m z) as [->|Hne]; [by right|]. left. exists m. split; [done|]. split; [|done].
      rewrite Hdrop by lia. destruct (Z.eqb_spec m z); [done|]. by rewrite Hb. }
  destruct (Z.eqb_spec (w * 64 + z) cpu_id) as [Heq|Hne].
  - apply Hrest; try done.
  - destruct (victim_ok s Q (w * 64 + z) class batch HR (Hval z Hz Hzb) Hbt) as (i & b & s2 & i2 & H1 & H2 & H3 & Hcase).
    rewrite H1. cbn [mbind outcome_bind negb andb]. rewrite H2. cbn [mbind outcome_bind]. rewrite H3. cbn [mbind outcome_bind]. destruct b as [b|].
    + destruct Hcase as (k & Q' & Hk & Htk). exists (Some b), (mkSlab i2 (sl_mem s2)). split; [done|]. exists (w * 64 + z), k, Q'. split; [by apply Hval|done].
    + destruct Hcase as (HR2 & Hm2 & Hst2 & HM & HT). by apply Hrest.
Qed.

Lemma steal_word_ok s Q class cpu_id batch start end_ w (force : bool) :
  slab_rep n calm s Q -> is_u 64 batch -> 0 <= class < NUM_SIZE_CLASSES -> 0 <= start -> 0 <= end_ < n -> start / 64 <= w <= end_ / 64 ->
  search s Q class cpu_id batch (fun v => start <= v <= end_ /\ v / 64 = w) (steal_word s class cpu_id batch start end_ w force).
Proof.
  intros HR Hbt Hc Hs He Hw. assert (Hw0 : 0 <= w) by (pose proof (Z.div_pos start 64); lia).
  assert (Hw1 : w * 64 <= end_) by (pose proof (Z.mul_div_le end_ 64); lia).
  assert (Hv0 : valid n (w * 64) class) by (split; lia). pose proof (rep_in_map _ _ _ _ _ _ HR Hv0) as Hin.
  destruct (locate _ _ _ _ _ (sr_map _ _ _ _ HR) Hin) as (bits & _ & Hidx & _ & _ & Hrd & Hbu & _ & _).
  assert (Hq : w * 64 / 64 = w) by (by rewrite Z.div_mul). rewrite Hq in Hidx, Hrd. unfold bitmap_word in Hidx.
  unfold steal_word. rewrite Hidx, Hrd. cbn [mbind outcome_bind].
  assert (Hbit : forall m, 0 <= m < 64 -> valid n (w * 64 + m) class ->
    bit_of (si_nonempty (sl_inner s)) (si_bitmap_words (sl_inner s)) class (w * 64 + m) = Z.testbit bits m).
  { intros m Hm Hv. destruct (locate _ _ _ _ _ (sr_map _ _ _ _ HR) (rep_in_map _ _ _ _ _ _ HR Hv)) as (v & _ & _ & _ & _ & Hrd2 & _ & Hb & _).
    replace ((w * 64 + m) / 64) with w in Hrd2 by (rewrite Z.add_comm, Z.div_add, Z.div_small; lia).
    replace ((w * 64 + m) mod 64) with m in Hb by (rewrite Z.add_comm, Z.mod_add, Z.mod_small; lia). rewrite Hb. congruence. }
  assert (Hmod : forall v, 0 <= v -> v / 64 = w -> exists m, 0 <= m < 64 /\ v = w * 64 + m).
  { intros v Hv <-. exists (v mod 64). pose proof (Z.mod_pos_bound v 64 ltac:(lia)). pose proof (Z.div_mod v 64 ltac:(lia)). lia. }
  assert (Hclear : forall v, start <= v <= end_ /\ v / 64 = w -> Z.testbit bits (v - w * 64) = false -> Q Mail v class = []).
  { intros v [Hr Hvw] Hb. destruct (Hmod v ltac:(lia) Hvw) as (m & Hm & ->). replace (w * 64 + m - w * 64) with m in Hb by lia.
    assert (Hv : valid n (w * 64 + m) class) by (split; lia). destruct (Q Mail (w * 64 + m) class) as [|a l] eqn:HQ; [done|].
    assert (Hne : Q Mail (w * 64 + m) class <> []) by (by rewrite HQ). apply (sr_hint _ _ _ _ HR) in Hne; [|done]. rewrite Hbit in Hne by done. congruence. }
  destruct (Z.eqb_spec bits 0) as [Hz|Hnz].
  - subst bits. exists None, s. split; [done|]. split; [done|]. split; [done|]. split; [done|]. intros v Hv _. apply Hclear; [done|]. apply Z.bits_0.
  - pose proof (range_bits_ok bits w start end_) as Hrb.
    eapply search_next; [apply (steal_bits_ok 65 s Q class cpu_id batch w force _ 0); try done; try lia| done|done|].
    + unfold range_bits. repeat case_match; try done; repeat (apply land_u; [lia|]); done.
    + intros m Hm Hb. rewrite Hrb in Hb by (done || lia). apply andb_true_iff in Hb as [_ Hb]. bool_lia. split; lia.
    + intros v Hv. destruct (Hmod v ltac:(lia) ltac:(apply Hv)) as (m & Hm & Heq). destruct (Z.testbit bits m) eqn:Hb.
      * left. exists m. split; [done|]. split; [|done]. rewrite Hrb by (done || lia). rewrite Hb. subst v. destruct Hv as [Hv _]. cbn [andb].
        apply andb_true_iff. split; apply Z.leb_le; lia.
      * right. intros _. apply Hclear; [done|]. subst v. by replace (w * 64 + m - w * 64) with m by lia.
Qed.

Lemma steal_words_ok cnt : forall s Q class cpu_id batch start end_ w,
  slab_rep n calm s Q -> is_u 64 batch -> 0 <= class < NUM_SIZE_CLASSES -> 0 <= start -> 0 <= end_ < n -> start / 64 <= w ->
  w + Z.of_nat cnt = end_ / 64 + 1 ->
  search s Q class cpu_id batch (fun v => start <= v <= end_ /\ w <= v / 64) (steal_words cnt s class cpu_id batch start end_ w).
Proof.
  induction cnt as [|cnt IH]; intros s Q class cpu_id batch start end_ w HR Hbt Hc Hs He Hw Hcnt; cbn [steal_words].
  - exists None, s. split; [done|]. split; [done|]. split; [done|]. split; [done|]. intros v [Hv1 Hv2] _. pose proof (Z.div_le_mono v end_ 64 ltac:(lia) ltac:(lia)). lia.
  - destruct (steal_word_ok s Q class cpu_id batch start end_ w false HR Hbt Hc Hs He ltac:(lia)) as (b & s1 & Hr & Hcase). rewrite Hr. cbn [mbind outcome_bind].
    destruct b as [b|]; [by exists (Some b), s1|]. destruct Hcase as (HR1 & Hm1 & Hst1 & Hall1).
    destruct (steal_word_ok s1 Q class cpu_id batch start end_ w true HR1 Hbt Hc Hs He ltac:(lia)) as (b & s2 & Hr2 & Hcase2). rewrite Hr2. cbn [mbind outcome_bind].
    destruct b as [b|].
    + exists (Some b), s2. split; [done|]. destruct Hcase2 as (v & k & Q' & Hv & Hk & [T1 T2 T3 T4]). exists v, k, Q'. split; [done|]. split; [done|].
      constructor; [done|done|congruence|by etrans].
    + destruct Hcase2 as (HR2 & Hm2 & Hst2 & Hall2). eapply search_next; [apply (IH s2 Q class cpu_id batch start end_ (w + 1)); try done; lia|congruence|by etrans|].
      intros v [Hv1 Hv2]. destruct (decide (v / 64 = w)) as [Hvw|Hvw]; [right; intros Hne; by apply Hall1|left; split; [done|lia]].
Qed.

(** The scan of a range: nothing found means no blocks there. *)
Lemma first_nonempty_ok s Q class cpu_id batch start end_ :
  slab_rep n calm s Q -> is_u 64 batch -> 0 <= class < NUM_SIZE_CLASSES -> 0 <= start -> 0 <= end_ < n -> start / 64 <= end_ / 64 ->
  search s Q class cpu_id batch (fun v => start <= v <= end_) (first_nonempty_cpu_in_range s class cpu_id batch start end_).
Proof.
  intros HR Hbt Hc Hs He Hse. unfold first_nonempty_cpu_in_range. rewrite !Z.shiftr_div_pow2 by lia. change (2 ^ 6) with 64.
  eapply search_next; [apply (steal_words_ok _ s Q class cpu_id batch start end_ (start / 64)); try done; lia|done|done|].
  intros v Hv. left. split; [done|]. apply Z.div_le_mono; lia.
Qed.
End Steal.
