(* ===== verification/SlabSpec.v ===== *)
(** * What the slab caches promise

    Conservation of the blocks over any sequence of operations, the completeness
    of a refill from the transfer lists, and the exception: trimmed blocks that no
    refill finds. *)

From S2P Require Import Prelude Types SizeClasses Kernel SList Rseq Bitmap PendingQueue Numa NumaSpec SlabCache SlabProofs SlabSteal.

Section Spec.
Context (cpus : Z).

(** Room for one CPU more than there are. *)
Abbreviation n := (cpus + 1).

Abbreviation rep := (slab_rep n calm).

(** The topology the cache was set up with. *)
Record topo_ok (s : slab) : Prop := {
  to_cpus : 1 <= cpus;
  to_ncpu : ncpu (si_numa (sl_inner s)) = cpus;
  to_numa : si_is_numa (sl_inner s) = true -> topology_wf (si_numa (sl_inner s)) cpus;
  to_ranges : nranges (si_numa (sl_inner s)) <= 2 ^ 16;
}.

Lemma topo_static s s' : topo_ok s -> same_static s s' -> topo_ok s'.
Proof. intros [T1 T2 T3 T4] (E1 & E2 & _). constructor; rewrite ?E1, ?E2; done. Qed.

(** A search that returns its blocks, or the null triple when the normal
    transfer lists of the CPUs in [searched] are empty. *)
Definition refill (s : slab) (Q : lists) (class batch : Z) (searched : Z -> Prop) (r : outcome (Z * Z * Z * slab)) : Prop :=
  exists b s', r = Ret (b, s') /\
    ((b = no_blocks /\ rep s' Q /\ sl_mem s' = sl_mem s /\ same_static s s' /\ forall v, searched v -> Q Mail v class = []) \/
     exists victim k Q', valid n victim class /\ k <> Local /\ b.1.1 <> 0 /\ taken n calm s Q k victim class batch b s' Q').

Lemma taken_nonnull s Q k cpu class batch b s' Q' : rep s Q -> taken n calm s Q k cpu class batch b s' Q' -> b.1.1 <> 0.
Proof.
  intros HR [(l & rest & q & HQ & _ & Hc & _) _ _ _] H0. destruct b as [[hd tl] ct]. cbn [fst snd] in *.
  assert (hd ∈ l ++ [tl]) as Hin by (destruct l; simpl in Hc; destruct Hc as [-> _]; set_solver).
  destruct (sr_addr _ _ _ _ HR k cpu class hd) as [? _]; [rewrite HQ; set_solver|]. lia.
Qed.

(** A refill after a search that found nothing. *)
Lemma refill_next s s1 Q class batch (P P' : Z -> Prop) r :
  refill s1 Q class batch P' r -> sl_mem s1 = sl_mem s -> same_static s s1 -> (forall v, P v -> P' v \/ Q Mail v class = []) ->
  refill s Q class batch P r.
Proof.
  intros (b & s' & Hr & Hb) Hm Hst HP. exists b, s'. split; [done|]. destruct Hb as [(-> & HR & Hm' & Hst' & Hall)|(v & k & Q' & Hv & Hk & H0 & [T1 T2 T3 T4])].
  - left. split; [done|]. split; [done|]. split; [congruence|]. split; [by etrans|]. intros v Hv. destruct (HP v Hv); [by apply Hall|done].
  - right. exists v, k, Q'. split_and!; [done..|]. constructor; [done|done|congruence|by etrans].
Qed.

(** A CPU range of the topology. *)
Lemma range_ok t j r :
  1 <= cpus -> topology_wf t cpus -> cpu_ranges t !! j = Some r ->
  0 <= cr_start_cpu r /\ 0 <= cr_end_cpu r < n /\ cr_start_cpu r / 64 <= cr_end_cpu r / 64 /\
  forall v, 0 <= v < cpus -> cpu_to_node t !! Z.to_nat v = Some (Z.of_nat j) -> cr_start_cpu r <= v <= cr_end_cpu r.
Proof.
  intros Hc Hwf Hj. pose proof (tw_ncpu _ _ Hwf) as [_ Hlen]. destruct (tw_spans _ _ Hwf j r Hj) as [_ [(Hno & H1 & H2)|(lo & hi & Hlh & _ & _ & Hcov & H1 & H2)]]; rewrite H1, H2.
  - split_and!; [lia|lia|lia|done|]. intros v Hv Hvj. exfalso. apply (Hno (Z.to_nat v)); [lia|]. by rewrite Hvj.
  - split_and!; [lia|lia|lia|apply Z.div_le_mono; lia|]. intros v Hv Hvj. specialize (Hcov (Z.to_nat v) ltac:(lia)). rewrite Hvj in Hcov. specialize (Hcov eq_refl). lia.
Qed.

Lemma cpu_node t v : topology_wf t cpus -> 0 <= v < cpus -> exists m r, cpu_to_node t !! Z.to_nat v = Some m /\ 0 <= m < nranges t /\ cpu_ranges t !! Z.to_nat m = Some r.
Proof.
  intros Hwf Hv. pose proof (tw_ncpu _ _ Hwf) as [_ Hlen]. pose proof (tw_ranges _ _ Hwf) as [Hr _].
  destruct (lookup_lt_is_Some_2 (cpu_to_node t) (Z.to_nat v)) as [m Hm]; [lia|].
  assert (Hm2 : 0 <= m < nranges t) by (apply (tw_cpu _ _ Hwf); by eapply list_elem_of_lookup_2).
  destruct (lookup_lt_is_Some_2 (cpu_ranges t) (Z.to_nat m)) as [r Hr2]; [lia|]. eauto 8.
Qed.

Lemma numa_loop_ok cnt : forall s Q class cpu node batch i,
  rep s Q -> topo_ok s -> si_is_numa (sl_inner s) = true -> is_u 64 batch -> 0 <= class < NUM_SIZE_CLASSES -> 0 <= i -> 0 <= node ->
  refill s Q class batch (fun v => 0 <= v < cpus /\ v <> cpu /\
      exists j, i <= j < i + Z.of_nat cnt /\ cpu_to_node (si_numa (sl_inner s)) !! Z.to_nat v = Some ((j + node) mod nranges (si_numa (sl_inner s))))
    (numa_steal_loop cnt s class cpu node batch i).
Proof.
  induction cnt as [|cnt IH]; intros s Q class cpu node batch i HR Ht Hn Hb Hc Hi Hnode; cbn [numa_steal_loop].
  - exists no_blocks, s. split; [done|]. left. split_and!; [done..|]. intros v (_ & _ & j & Hj & _). lia.
  - pose proof (to_numa _ Ht Hn) as Hwf. set (t := si_numa (sl_inner s)) in *. set (m := (i + node) mod nranges t).
    pose proof (tw_ranges _ _ Hwf) as [Hlr Hr0]. assert (Hm : 0 <= m < nranges t) by (apply Z.mod_pos_bound; lia).
    destruct (read_lt (cpu_ranges t) m) as (r & Hr & Hrd); [lia|]. rewrite Hrd. cbn [mbind outcome_bind].
    destruct (range_ok t _ r (to_cpus _ Ht) Hwf Hr) as (R1 & R2 & R3 & Rcov).
    destruct (first_nonempty_ok n s Q class cpu batch (cr_start_cpu r) (cr_end_cpu r) HR Hb Hc R1 R2 R3) as (b & s1 & Hrun & Hcase). rewrite Hrun. cbn [mbind outcome_bind].
    destruct b as [b|].
    + destruct Hcase as (v & k & Q' & Hv & Hk & Htk). exists b, s1. split; [done|]. right. exists v, k, Q'. split_and!; [done..| |done]. by eapply taken_nonnull.
    + destruct Hcase as (HR1 & Hm1 & Hst1 & Hall). pose proof Hst1 as (E1 & E2 & _).
      eapply refill_next; [apply (IH s1 Q class cpu node batch (i + 1)); try done; [by eapply topo_static|congruence|lia]|done|done|].
      intros v (Hv & Hne & j & Hj & Hvj). rewrite E1. fold t. destruct (decide (j = i)) as [->|Hji].
      * right. apply Hall; [|done]. apply Rcov; [done|]. rewrite Hvj. f_equal. fold m. lia.
      * left. split; [done|]. split; [done|]. exists j. split; [lia|done].
Qed.

Lemma pop_slow_ok s Q class cpu batch :
  rep s Q -> topo_ok s -> is_u 64 batch -> 0 <= class < NUM_SIZE_CLASSES -> 0 <= cpu < cpus ->
  refill s Q class batch (fun v => 0 <= v < cpus /\ v <> cpu) (pop_slow s class cpu batch).
Proof.
  intros HR Ht Hb Hc Hcpu. pose proof (to_cpus _ Ht) as Hc1. unfold pop_slow. destruct (si_is_numa (sl_inner s)) eqn:Hn.
  - pose proof (to_numa _ Ht Hn) as Hwf. set (t := si_numa (sl_inner s)) in *. destruct (cpu_node t cpu Hwf Hcpu) as (m & r & Hm & Hmr & Hr).
    unfold numa_cpu. fold t. rewrite (read_ok _ _ _ Hm) by lia. cbn [mbind outcome_bind]. rewrite (read_ok _ _ _ Hr) by lia. cbn [mbind outcome_bind].
    destruct (range_ok t _ r Hc1 Hwf Hr) as (R1 & R2 & R3 & Rcov).
    destruct (first_nonempty_ok n s Q class cpu batch (cr_start_cpu r) (cr_end_cpu r) HR Hb Hc R1 R2 R3) as (b & s1 & Hrun & Hcase). rewrite Hrun. cbn [mbind outcome_bind].
    destruct b as [b|].
    + destruct Hcase as (v & k & Q' & Hv & Hk & Htk). exists b, s1. split; [done|]. right. exists v, k, Q'. split_and!; [done..| |done]. by eapply taken_nonnull.
    + destruct Hcase as (HR1 & Hm1 & Hst1 & Hall). pose proof Hst1 as (E1 & E2 & _). rewrite E2, Hn. unfold slowest_numa_steal_path.
      destruct (numa_loop_ok (Z.to_nat (nranges t - 1)) s1 Q class cpu m batch 1) as (b & s2 & Hrun2 & Hcase2); try done; try lia; [by eapply topo_static|congruence|].
      rewrite E1. fold t. rewrite Hrun2. cbn [mbind outcome_bind]. destruct Hcase2 as [(-> & HR2 & Hm2 & Hst2 & Hall2)|(v & k & Q' & Hv & Hk & H0 & Htk)].
      * cbn [no_blocks fst Z.eqb negb]. exists no_blocks, s2. split; [done|]. left. split; [done|]. split; [done|]. split; [congruence|]. split; [by etrans|].
        intros v [Hv Hne]. destruct (cpu_node t v Hwf Hv) as (mv & rv & Hmv & Hmvr & _). destruct (decide (mv = m)) as [->|Hmm].
        -- apply Hall; [|done]. apply Rcov; [done|]. rewrite Hmv. f_equal. lia.
        -- apply Hall2. split; [done|]. split; [done|]. rewrite E1. fold t. exists ((mv - m) mod nranges t).
           pose proof (Z.mod_pos_bound (mv - m) (nranges t) ltac:(lia)). split.
           ++ rewrite Z2Nat.id by lia. assert ((mv - m) mod nranges t <> 0); [|lia]. intros H0.
              destruct (Z.lt_ge_cases mv m); [rewrite <- (Z.mod_add _ 1), Z.mod_small in H0 by lia|rewrite Z.mod_small in H0 by lia]; lia.
           ++ rewrite Hmv. f_equal. rewrite Zplus_mod_idemp_l. replace (mv - m + m) with mv by lia. by rewrite Z.mod_small.
      * destruct (Z.eqb_spec b.1.1 null); [done|]. cbn [negb]. exists b, s2. split; [done|]. right. exists v, k, Q'. split_and!; [done..|].
        destruct Htk as [T1 T2 T3 T4]. constructor; [done|done|congruence|by etrans].
  - cbn [mbind outcome_bind]. rewrite (to_ncpu _ Ht).
    destruct (first_nonempty_ok n s Q class cpu batch 0 (cpus - 1) HR Hb Hc) as (b & s1 & Hrun & Hcase); [lia|lia|apply Z.div_le_mono; lia|].
    rewrite Hrun. cbn [mbind outcome_bind]. destruct b as [b|].
    + destruct Hcase as (v & k & Q' & Hv & Hk & Htk). exists b, s1. split; [done|]. right. exists v, k, Q'. split_and!; [done..| |done]. by eapply taken_nonnull.
    + destruct Hcase as (HR1 & Hm1 & Hst1 & Hall). pose proof Hst1 as (_ & E2 & _). rewrite E2, Hn. exists no_blocks, s1. split; [done|]. left.
      split_and!; [done..|]. intros v [Hv Hne]. apply Hall; [lia|done].
Qed.

Lemma try_pop_ok s Q class cpu batch :
  rep s Q -> topo_ok s -> is_u 64 batch -> 0 <= class < NUM_SIZE_CLASSES -> 0 <= cpu < cpus ->
  refill s Q class batch (fun v => 0 <= v < cpus) (try_pop s class batch cpu).
Proof.
  intros HR Ht Hb Hc Hcpu. assert (Hv : valid n cpu class) by (split; lia). unfold try_pop, is_empty.
  rewrite (is_empty_ok _ _ _ _ _ (sr_map _ _ _ _ HR) (rep_in_map _ _ _ _ _ _ HR Hv)). cbn [mbind outcome_bind]. rewrite negb_involutive.
  destruct (bit_of _ _ class cpu) eqn:Hbit.
  - destruct (transfer_pop_batch_ok n _ s Q cpu class batch HR Hv Hb) as (b & s1 & Hr & Hcase). rewrite Hr. cbn [mbind outcome_bind]. destruct b as [b|].
    + destruct Hcase as (k & Q' & Hk & Htk). exists b, s1. split; [done|]. right. exists cpu, k, Q'. split_and!; [done|by destruct Hk as [->|[-> _]]|by eapply taken_nonnull|done].
    + destruct Hcase as (HM & _ & HR1 & Hm1 & Hst1). eapply refill_next; [apply pop_slow_ok; try done; by eapply topo_static|done|done|].
      intros v Hv'. destruct (decide (v = cpu)) as [->|]; [by right|by left].
  - eapply refill_next; [by apply pop_slow_ok|done|done|]. intros v Hv'. destruct (decide (v = cpu)) as [->|]; [right|by left].
    destruct (Q Mail cpu class) as [|a l] eqn:HQ; [done|]. assert (Hne : Q Mail cpu class <> []) by (by rewrite HQ). apply (sr_hint _ _ _ _ HR) in Hne; [congruence|done].
Qed.
End Spec.

(** ** The fresh cache *)

Lemma zero_cells nc cpu class i :
  si_cache i = replicate nc zero_main -> cellf i cpu class = mkRseqCache 0 0 /\ mailf i cpu class = mkTransferCache 0 0.
Proof.
  intros Hi. unfold cellf, mailf. rewrite Hi. destruct (replicate nc zero_main !! Z.to_nat cpu) as [m|] eqn:Hm; [|done].
  apply lookup_replicate in Hm as [-> _]. cbn [mbind option_bind zero_main mc_cache mc_mail].
  destruct (replicate class_count (mkRseqCache 0 0) !! Z.to_nat class) as [c|] eqn:Hc; [apply lookup_replicate in Hc as [-> _]|];
  (destruct (replicate class_count (mkTransferCache 0 0) !! Z.to_nat class) as [d|] eqn:Hd; [apply lookup_replicate in Hd as [-> _]|]; done).
Qed.

Lemma zero_bit cnt words class cpu : bit_of (replicate cnt 0) words class cpu = false.
Proof.
  unfold bit_of. destruct (replicate cnt 0 !! _) as [v|] eqn:Hv; [apply lookup_replicate in Hv as [-> _]|]; apply Z.bits_0.
Qed.

Lemma ensure_cache_ok {K} `{!Kernel K} (rd : list Z -> option (list Z)) nprocs (k : K) mem :
  (forall path content, rd path = Some content -> Forall (is_u 8) content) -> - 2 ^ 31 <= nprocs < 2 ^ 31 ->
  match ensure_cache rd nprocs k with
  | Ret (i, _, _) => slab_rep (get_max_cpu nprocs + 1) calm (mkSlab i mem) (fun _ _ _ => []) /\ topo_ok (get_max_cpu nprocs) (mkSlab i mem)
  | Fatal e => e = OutOfMemory
  | Stuck => False
  end.
Proof.
  intros Hrd Hnp. unfold ensure_cache. set (cpus := get_max_cpu nprocs).
  assert (Hcp : 1 <= cpus < 2 ^ 31) by (unfold cpus, get_max_cpu; destruct (Z.ltb_spec 0 nprocs); lia).
  destruct (mmap_anonymous _ k) as [[cache|] k1]; [|done]. destruct (topology_ok rd Hrd cpus k1 ltac:(lia)) as (numa & k2 & -> & Htop). cbn [mbind outcome_bind].
  assert (Hnuma : exists numa' isn, match numa with Some numa => (numa, 1 <? nnodes numa) | None => (mkNumaTopology [] cpus [] 1 [] 2, false) end = (numa', isn) /\
     ncpu numa' = cpus /\ (isn = true -> topology_wf numa' cpus) /\ nranges numa' <= 2 ^ 16).
  { destruct numa as [t|]; eexists _, _; (split; [done|]); [|done]. destruct Htop as [Hwf _]. split; [by apply (tw_ncpu _ _ Hwf)|]. split; [done|]. apply (tw_ranges _ _ Hwf). }
  destruct Hnuma as (numa' & isn & -> & Hnc & Hwf & Hnr). set (k3 := if isn then _ else k2).
  set (words := Z.max ((cpus + 1 + 63) / 64) 1).
  destruct (mmap_anonymous _ k3) as [[bm|] k4]; [|done]. destruct (ThreadQueue_init _ _ _ k4) as [queue k5].
  pose proof (Z.div_mod (cpus + 1 + 63) 64 ltac:(lia)) as Hdm. pose proof (Z.mod_pos_bound (cpus + 1 + 63) 64 ltac:(lia)) as Hmb.
  assert (Hwords : 1 <= words < 2 ^ 32 /\ cpus + 1 <= 64 * words) by (unfold words; lia).
  assert (Heach : 8 * words * NUM_SIZE_CLASSES / 8 = words * NUM_SIZE_CLASSES) by (rewrite <- Z.mul_assoc, Z.mul_comm; by apply Z.div_mul).
  rewrite Heach. split; [|constructor; [lia|done|done|done]].
  set (i := mkSlabCacheInner _ _ _ _ _ _). pose proof (fun cpu class => zero_cells (Z.to_nat (cpus + 1)) cpu class i eq_refl) as Hz.
  assert (Hmap : bitmap_wf (replicate (Z.to_nat (words * NUM_SIZE_CLASSES)) 0) NUM_SIZE_CLASSES words).
  { constructor; [rewrite length_replicate; change NUM_SIZE_CLASSES with 34; lia|change NUM_SIZE_CLASSES with 34; lia|].
    apply Forall_replicate. unfold is_u. lia. }
  constructor; cbn [sl_inner sl_mem]; try done.
  - constructor; cbn [i si_cache]; [rewrite length_replicate; lia|]. apply Forall_replicate. unfold zero_main. cbn [mc_cache mc_mail]. by rewrite !length_replicate.
  - unfold i. cbn [si_bitmap_words]. lia.
  - intros kd cpu class _. destruct (Hz cpu class) as [H1 H2]. unfold head_of. destruct kd; rewrite ?H1, ?H2; done.
  - intros cpu class _. destruct (Hz cpu class) as [H1 _]. by rewrite H1.
  - intros cpu class _. destruct (Hz cpu class) as [_ H2]. unfold mail_u. rewrite H2. split; unfold is_u; simpl; lia.
  - by intros kd cpu class a ?%not_elem_of_nil.
  - intros. constructor.
  - by intros kd kd' cpu cpu' class class' a ?%not_elem_of_nil.
  - intros cpu class _. unfold i. cbn [si_stolen si_bitmap_words]. apply zero_bit.
Qed.

(** ** Sequences of operations *)

Inductive slab_op :=
  | OPush (env : list round) (class a : Z)
  | OPushTailed (env : round) (class start tail : Z) (bs : list Z)
  | OPushMail (class a cpu : Z)
  | OPushTrim (class a cpu : Z)
  | OPop (env : list round) (class : Z)
  | OTryPop (class batch cpu : Z).

(** The blocks an operation gives to the cache. *)
Definition given (o : slab_op) : list Z :=
  match o with
  | OPush _ _ a | OPushMail _ a _ | OPushTrim _ a _ => [a]
  | OPushTailed _ _ _ _ bs => bs
  | _ => []
  end.

Definition op_class (o : slab_op) : Z :=
  match o with
  | OPush _ class _ | OPushTailed _ class _ _ _ | OPushMail class _ _ | OPushTrim class _ _ | OPop _ class | OTryPop class _ _ => class
  end.

(** The state and the blocks received: first, last and count. *)
Definition run_slab (s : slab) (o : slab_op) : outcome (Z * Z * Z * slab) :=
  match o with
  | OPush env class a => pair no_blocks <$> push s env class a
  | OPushTailed env class start tail bs => pair no_blocks <$> push_tailed s env class start tail (Z.of_nat (length bs))
  | OPushMail class a cpu => pair no_blocks <$> transfer_push_single s class a cpu
  | OPushTrim class a cpu => pair no_blocks <$> transfer_push_single_trimmed s class a cpu
  | OPop env class => '(a, s) ← pop s env class; Ret (if a =? null then no_blocks else (a, a, 1), s)
  | OTryPop class batch cpu => try_pop s class batch cpu
  end.

(** The result hands out the blocks [bs]. *)
Definition received (s : slab) (r : Z * Z * Z) (bs : list Z) : Prop :=
  r = no_blocks /\ bs = [] \/
  exists l q, bs = l ++ [r.1.2] /\ chain (sl_mem s) r.1.1 bs q /\ r.2 = Z.of_nat (length bs) /\ r.1.1 <> 0.

Lemma chain_unique (mem : gmap Z Header) h l l' q q' : chain mem h l q -> chain mem h l' q' -> length l = length l' -> l = l'.
Proof.
  revert h l'. induction l as [|a l IH]; intros h [|a' l'] H1 H2 Hl; try done. simpl in *.
  destruct H1 as (-> & _ & b & Hb & H1), H2 as (-> & _ & b' & Hb' & H2). simplify_eq. f_equal. eapply IH; [done..|lia].
Qed.

Lemma received_unique s r bs bs' : received s r bs -> received s r bs' -> bs = bs'.
Proof.
  intros [[-> ->]|(l & q & Hl & Hc & Hn & H0)] [[Hr ->]|(l' & q' & Hl' & Hc' & Hn' & H0')]; [done|done|by subst r|].
  eapply chain_unique; [done..|lia].
Qed.

Section Trace.
(** [P c a]: the block [a] may be on the lists of the class [c]. *)
Context (cpus : Z) (P : Z -> Z -> Prop).

Definition on_cpus (env : list round) : Prop := Forall (fun r => 0 <= r.1 < cpus) env.

(** What a thread that holds the blocks [held] may do: it gives blocks it holds,
    runs on CPUs there are, and is not aborted for ever. *)
Definition legal (s : slab) (held : gset Z) (o : slab_op) : Prop :=
  match o with
  | OPush env class a => a ∈ held /\ 0 <= class < NUM_SIZE_CLASSES /\ on_cpus env /\ ((5 <= length env)%nat \/ Exists (fun r => r.2 = false) env)
  | OPushTailed env class start tail bs =>
      0 <= class < NUM_SIZE_CLASSES /\ 0 <= env.1 < cpus /\ NoDup bs /\ list_to_set bs ⊆ held /\
      exists l q, bs = l ++ [tail] /\ chain (sl_mem s) start bs q
  | OPushMail class a cpu | OPushTrim class a cpu => a ∈ held /\ 0 <= class < NUM_SIZE_CLASSES /\ 0 <= cpu < cpus
  | OPop env class => 0 <= class < NUM_SIZE_CLASSES /\ on_cpus env /\ Exists (fun r => r.2 = false) env
  | OTryPop class batch cpu => 0 <= class < NUM_SIZE_CLASSES /\ is_u 64 batch /\ 0 <= cpu < cpus
  end.

(** An operation, or a write to a block the thread holds. *)
Inductive slab_step : slab * gset Z -> slab * gset Z -> Prop :=
  | slab_step_op s held o r s' bs :
      legal s held o -> run_slab s o = Ret (r, s') -> received s' r bs ->
      slab_step (s, held) (s', held ∖ list_to_set (given o) ∪ list_to_set bs)
  | slab_step_write s held a h : a ∈ held -> slab_step (s, held) (mkSlab (sl_inner s) (<[a := h]> (sl_mem s)), held).

(** The blocks of [U] are on the lists [Q] or held. *)
Record spread (U : gset Z) (s : slab) (held : gset Z) (Q : lists) : Prop := {
  sp_rep : slab_rep (cpus + 1) calm s Q;
  sp_topo : topo_ok cpus s;
  sp_all : forall a, a ∈ U <-> a ∈ held \/ exists k p c, a ∈ Q k p c;
  sp_held : forall a, a ∈ held -> block_addr a /\ is_Some (sl_mem s !! a) /\ forall k p c, a ∉ Q k p c;
  sp_class : forall k p c a, a ∈ Q k p c -> P c a;
}.

Lemma spread_chain U s held Q start bs tail l q :
  spread U s held Q -> list_to_set bs ⊆ held -> NoDup bs -> bs = l ++ [tail] -> chain (sl_mem s) start bs q -> held_chain s Q start bs tail.
Proof.
  intros HS Hsub Hnd Hl Hc. assert (Hin : forall a, a ∈ bs -> a ∈ held) by (intros a Ha; apply Hsub; by apply elem_of_list_to_set).
  constructor; [by exists l|by exists q|done| |]; intros a; [intros Ha|intros k p c Ha]; by apply (sp_held _ _ _ _ HS), Hin.
Qed.

Lemma spread_single U s held Q a : spread U s held Q -> a ∈ held -> held_chain s Q a [a] a.
Proof.
  intros HS Ha. destruct (sp_held _ _ _ _ HS a Ha) as (Hb & [h Hh] & _).
  apply (spread_chain U s held Q a [a] a [] (s_next h)); try done; [set_solver|apply NoDup_singleton|]. simpl. unfold block_addr in Hb. split; [done|]. split; [lia|]. eauto.
Qed.

(** Blocks given to the front of a list. *)
Lemma spread_give U s held Q k cpu class bs s' :
  spread U s held Q -> list_to_set bs ⊆ held -> slab_rep (cpus + 1) calm s' (upd_list Q k cpu class (bs ++ Q k cpu class)) -> topo_ok cpus s' ->
  live_kept s s' -> (forall a, a ∈ bs -> P class a) ->
  spread U s' (held ∖ list_to_set bs) (upd_list Q k cpu class (bs ++ Q k cpu class)).
Proof.
  intros [S1 S2 S3 S4 S5] Hsub HR Ht Hm HP. assert (Hin : forall a, a ∈ bs -> a ∈ held) by (intros a Ha; apply Hsub; by apply elem_of_list_to_set).
  assert (HQ : forall k' p c a, a ∈ upd_list Q k cpu class (bs ++ Q k cpu class) k' p c -> a ∈ bs \/ a ∈ Q k' p c).
  { intros k' p c a. unfold upd_list. case_decide as He; [destruct He as (-> & -> & ->); by rewrite elem_of_app|by right]. }
  constructor; [done|done| | |].
  - intros a. rewrite S3, elem_of_difference, elem_of_list_to_set. split.
    + intros [Ha|(k' & p & c & Ha)].
      * destruct (decide (a ∈ bs)); [right|by left]. exists k, cpu, class. unfold upd_list. rewrite decide_True by done. apply elem_of_app. by left.
      * right. exists k', p, c. unfold upd_list. case_decide as He; [destruct He as (-> & -> & ->); apply elem_of_app; by right|done].
    + intros [[Ha _]|(k' & p & c & Ha)]; [by left|]. destruct (HQ _ _ _ _ Ha); [left; by apply Hin|right; eauto].
  - intros a [Ha Hna]%elem_of_difference. rewrite elem_of_list_to_set in Hna. destruct (S4 a Ha) as (H1 & H2 & H3). split; [done|]. split; [by eapply live_some|].
    intros k' p c [|]%HQ; [done|by eapply H3].
  - intros k' p c a. unfold upd_list. case_decide as He; [|apply S5]. destruct He as (-> & -> & ->). intros [Ha|Ha]%elem_of_app; [by apply HP|by eapply S5].
Qed.

(** Blocks taken from the front of a list. *)
Lemma spread_take U s held Q k cpu class bs rest s' :
  spread U s held Q -> Q k cpu class = bs ++ rest -> slab_rep (cpus + 1) calm s' (upd_list Q k cpu class rest) -> topo_ok cpus s' ->
  sl_mem s' = sl_mem s -> valid (cpus + 1) cpu class -> spread U s' (held ∪ list_to_set bs) (upd_list Q k cpu class rest).
Proof.
  intros [S1 S2 S3 S4 S5] HQ HR Ht Hm Hv. assert (HQ2 : forall k' p c a, a ∈ upd_list Q k cpu class rest k' p c -> a ∈ Q k' p c).
  { intros k' p c a. unfold upd_list. case_decide as He; [destruct He as (-> & -> & ->); rewrite HQ; set_solver|done]. }
  pose proof (sr_nodup _ _ _ _ S1 k cpu class) as Hnd. rewrite HQ in Hnd. apply NoDup_app in Hnd as (_ & Hd & _). constructor; [done|done| | |intros k' p c a Ha; by eapply S5, HQ2].
  - intros a. rewrite S3, elem_of_union, elem_of_list_to_set. split.
    + intros [Ha|(k' & p & c & Ha)]; [by left; left|]. destruct (decide (k' = k /\ p = cpu /\ c = class)) as [He|He].
      * destruct He as (-> & -> & ->). rewrite HQ in Ha. apply elem_of_app in Ha as [Ha|Ha]; [left; by right|].
        right. exists k, cpu, class. unfold upd_list. by rewrite decide_True.
      * right. exists k', p, c. unfold upd_list. by rewrite decide_False.
    + intros [[Ha|Ha]|(k' & p & c & Ha)]; [by left| |right; by eauto]. right. exists k, cpu, class. rewrite HQ. set_solver.
  - intros a. rewrite elem_of_union, elem_of_list_to_set. rewrite Hm. intros [Ha|Ha].
    + destruct (S4 a Ha) as (H1 & H2 & H3). split; [done|]. split; [done|]. intros k' p c Hq%HQ2. by eapply H3.
    + assert (HaQ : a ∈ Q k cpu class) by (rewrite HQ; set_solver). split; [by eapply (sr_addr _ _ _ _ S1)|]. split.
      * by destruct (chain_in _ _ _ _ _ (sr_chain _ _ _ _ S1 k cpu class Hv) HaQ).
      * intros k' p c Hin. pose proof (HQ2 _ _ _ _ Hin) as HaQ'. destruct (sr_disjoint _ _ _ _ S1 _ _ _ _ _ _ a HaQ HaQ') as (-> & -> & ->).
        unfold upd_list in Hin. rewrite decide_True in Hin by done. by apply (Hd a).
Qed.

Lemma spread_added U s held Q class bs ps r :
  spread U s held Q -> list_to_set bs ⊆ held -> added (cpus + 1) calm s Q class bs ps r -> (forall a, a ∈ bs -> P class a) ->
  exists s' Q', r = Ret s' /\ live_kept s s' /\ spread U s' (held ∖ list_to_set bs) Q'.
Proof.
  intros HS Hsub (s' & k & cpu & Hr & _ & _ & HR & Hst & Hlv) HP. exists s'. eexists. split; [done|]. split; [done|].
  apply (spread_give U s held Q k cpu class bs s'); try done. by eapply topo_static, Hst; apply HS.
Qed.

Lemma spread_transfer U s held Q (trimmed : bool) class a cpu :
  spread U s held Q -> a ∈ held -> 0 <= class < NUM_SIZE_CLASSES -> 0 <= cpu < cpus -> P class a ->
  exists s' Q', transfer_push_single_to s trimmed class a cpu = Ret s' /\ spread U s' (held ∖ list_to_set [a]) Q'.
Proof.
  intros HS Ha Hc Hcpu HP. pose proof (sp_rep _ _ _ _ HS) as HR. assert (Hv : valid (cpus + 1) cpu class) by (split; lia).
  destruct (transfer_push_ok _ _ s Q trimmed cpu class a [a] a HR Hv (spread_single _ _ _ _ _ HS Ha)) as (s' & Hr & HR' & Hst & Hlv).
  exists s'. eexists. split; [exact Hr|]. apply (spread_give U s held Q (if trimmed then Trim else Mail) cpu class [a] s'); try done; [set_solver| |].
  - by eapply topo_static, Hst; apply HS.
  - intros b Hb. by apply list_elem_of_singleton in Hb as ->.
Qed.

(** The state changed, the blocks did not move. *)
Lemma spread_same U s s' held Q : spread U s held Q -> slab_rep (cpus + 1) calm s' Q -> sl_mem s' = sl_mem s -> same_static s s' -> spread U s' held Q.
Proof. intros [S1 S2 S3 S4 S5] HR Hm Hst. constructor; [done|by eapply topo_static, Hst|done| |done]. by rewrite Hm. Qed.

Lemma spread_pop U s held Q env class :
  spread U s held Q -> 0 <= class < NUM_SIZE_CLASSES -> on_cpus env -> Exists (fun r => r.2 = false) env ->
  exists a s' bs Q', pop s env class = Ret (a, s') /\ received s' (if a =? null then no_blocks else (a, a, 1)) bs /\ (forall b, b ∈ bs -> b ∉ held /\ P class b) /\ sl_mem s' = sl_mem s /\ spread U s' (held ∪ list_to_set bs) Q'.
Proof.
  intros HS Hc Hon Hex. pose proof (sp_rep _ _ _ _ HS) as HR.
  assert (HF : Forall (fun r => valid (cpus + 1) r.1 class) env) by (eapply Forall_impl; [exact Hon|]; intros r Hr; split; [simpl in Hr; lia|done]).
  destruct (pop_loop_ok _ _ s Q env class 0 HR HF Hex) as (a & s' & Hr & [Hm Hst] & Hcase). exists a, s'.
  destruct Hcase as [(-> & HR' & _)|(k & cpu & l & Hcpu & HQ & HR')].
  - exists [], Q. split; [done|]. split; [by left|]. split; [by intros b ?%not_elem_of_nil|]. split; [done|]. cbn [list_to_set]. rewrite (right_id_L ∅ (∪)). by eapply spread_same.
  - assert (Hv : valid (cpus + 1) cpu class).
    { apply list_elem_of_fmap in Hcpu as ((p & b) & -> & Hin). rewrite Forall_forall in HF. by apply (HF _ Hin). }
    destruct (sr_addr _ _ _ _ HR k cpu class a) as [Ha0 _]; [rewrite HQ; by left|]. destruct (Z.eqb_spec a null) as [|_]; [lia|].
    exists [a]. eexists. split; [done|]. split; [|split; [|split; [done|]]].
    + right. destruct (chain_in _ _ _ _ a (sr_chain _ _ _ _ HR k cpu class Hv)) as (_ & h & Hh); [rewrite HQ; by left|].
      exists [], (s_next h). cbn [fst snd]. split_and!; [done| |done|lia]. rewrite Hm. simpl. split; [done|]. split; [lia|]. eauto.
    + intros b Hb. assert (Hin : b ∈ Q k cpu class) by (rewrite HQ; set_solver). split; [|by eapply HS].
      intros Hh. by apply (proj2 (proj2 (sp_held _ _ _ _ HS b Hh)) k cpu class).
    + apply (spread_take U s held Q k cpu class [a] l s'); try done. by eapply topo_static, Hst; apply HS.
Qed.

Lemma spread_try_pop U s held Q class batch cpu :
  spread U s held Q -> 0 <= class < NUM_SIZE_CLASSES -> is_u 64 batch -> 0 <= cpu < cpus ->
  exists r s' bs Q', try_pop s class batch cpu = Ret (r, s') /\ received s' r bs /\ (forall b, b ∈ bs -> b ∉ held /\ P class b) /\ (NoDup bs /\ Z.of_nat (length bs) <= Z.max 1 batch) /\ sl_mem s' = sl_mem s /\ spread U s' (held ∪ list_to_set bs) Q'.
Proof.
  intros HS Hc Hb Hcpu. destruct (try_pop_ok cpus s Q class cpu batch (sp_rep _ _ _ _ HS) (sp_topo _ _ _ _ HS) Hb Hc Hcpu) as (b & s' & Hr & Hcase).
  exists b, s'. destruct Hcase as [(-> & HR' & Hm & Hst & _)|(v & k & Q' & Hv & Hk & H0 & [T1 T2 T3 T4])].
  - exists [], Q. split; [done|]. split; [by left|]. split; [by intros b ?%not_elem_of_nil|]. split; [split; [constructor|cbn; lia]|]. split; [done|]. cbn [list_to_set]. rewrite (right_id_L ∅ (∪)). by eapply spread_same.
  - destruct T1 as (l & rest & q & HQ & -> & Hch & Hct & Hle). exists (l ++ [b.1.2]). eexists. split; [done|]. split; [right; exists l, q; done|]. split.
    { intros a Ha. assert (Hin : a ∈ Q k v class) by (rewrite HQ; set_solver). split; [|by eapply HS].
      intros Hh. by apply (proj2 (proj2 (sp_held _ _ _ _ HS a Hh)) k v class). }
    split; [split; [pose proof (sr_nodup _ _ _ _ (sp_rep _ _ _ _ HS) k v class) as Hnd; rewrite HQ in Hnd; by apply NoDup_app in Hnd as [Hnd _]|lia]|]. split; [done|].
    apply (spread_take U s held Q k v class _ rest s'); try done. by eapply topo_static, T4; apply HS.
Qed.

(** A legal operation runs, and the blocks stay accounted for. *)
Lemma run_ok U s held Q o :
  spread U s held Q -> legal s held o -> (forall a, a ∈ given o -> P (op_class o) a) ->
  exists r s' bs Q', run_slab s o = Ret (r, s') /\ received s' r bs /\ (forall b, b ∈ bs -> b ∉ held) /\ spread U s' (held ∖ list_to_set (given o) ∪ list_to_set bs) Q'.
Proof.
  intros HS Hl HP. pose proof (sp_rep _ _ _ _ HS) as HR.
  assert (Hgive : forall s' Q' r, spread U s' (held ∖ list_to_set (given o)) Q' -> r = Ret s' ->
    exists r' s' bs' Q', pair no_blocks <$> r = Ret (r', s') /\ received s' r' bs' /\ (forall b, b ∈ bs' -> b ∉ held) /\ spread U s' (held ∖ list_to_set (given o) ∪ list_to_set bs') Q').
  { intros s' Q' r HS' ->. exists no_blocks, s', [], Q'. split; [done|]. split; [by left|]. split; [by intros b ?%not_elem_of_nil|]. cbn [list_to_set]. by rewrite (right_id_L ∅ (∪)). }
  destruct o as [env class a|env class start tail bs|class a cpu|class a cpu|env class|class batch cpu]; cbn [legal run_slab given op_class] in *.
  - destruct Hl as (Ha & Hc & Hon & Hend). destruct (spread_added U s held Q class [a] (env.*1) (push s env class a) HS) as (s' & Q' & Hr & _ & HS'); [set_solver| |done|by apply (Hgive s' Q')].
    apply push_loop_ok; [done| |by eapply spread_single|lia|destruct Hend; [left; unfold round in *; lia|by right]].
    eapply Forall_impl; [exact Hon|]. intros r Hr. split; [simpl in Hr; lia|done].
  - destruct env as [cpu ab]. destruct Hl as (Hc & Hcpu & Hnd & Hsub & l & q & Hbl & Hch).
    destruct (spread_added U s held Q class bs [cpu] (push_tailed s (cpu, ab) class start tail (Z.of_nat (length bs))) HS) as (s' & Q' & Hr & _ & HS'); [done| |done|by apply (Hgive s' Q')].
    apply push_tailed_ok; [done|split; [simpl in Hcpu; lia|done]|]. by eapply spread_chain.
  - destruct Hl as (Ha & Hc & Hcpu). destruct (spread_transfer _ _ _ _ false _ _ _ HS Ha Hc Hcpu (HP a ltac:(by left))) as (s' & Q' & Hr & HS'). by apply (Hgive s' Q').
  - destruct Hl as (Ha & Hc & Hcpu). destruct (spread_transfer _ _ _ _ true _ _ _ HS Ha Hc Hcpu (HP a ltac:(by left))) as (s' & Q' & Hr & HS'). by apply (Hgive s' Q').
  - destruct Hl as (Hc & Hon & Hex). destruct (spread_pop _ _ _ _ _ _ HS Hc Hon Hex) as (a & s' & bs & Q' & Hr & Hrec & Hnew & _ & HS'). rewrite Hr. cbn [mbind outcome_bind].
    eexists _, s', bs, Q'. split; [done|]. split; [done|]. split; [intros b ?; by apply Hnew|]. cbn [given list_to_set]. by rewrite difference_empty_L.
  - destruct Hl as (Hc & Hb & Hcpu). destruct (spread_try_pop _ _ _ _ _ _ _ HS Hc Hb Hcpu) as (r & s' & bs & Q' & Hr & Hrec & Hnew & _ & _ & HS').
    exists r, s', bs, Q'. split; [done|]. split; [done|]. split; [intros b ?; by apply Hnew|]. cbn [given list_to_set]. by rewrite difference_empty_L.
Qed.

Lemma spread_write U s held Q a h :
  spread U s held Q -> a ∈ held -> spread U (mkSlab (sl_inner s) (<[a := h]> (sl_mem s))) held Q.
Proof.
  intros [S1 S2 S3 S4 S5] Ha. destruct (S4 a Ha) as (_ & _ & Hout). constructor; [| |done| |done].
  - destruct S1 as [R1 R2 R3 R4 R5 R6 R7 R8 R9 R10 R11 R12 R13]. constructor; try done. intros k p c Hv. apply chain_insert; [apply Hout|by apply R5].
  - destruct S2. by constructor.
  - intros b Hb. destruct (S4 b Hb) as (H1 & H2 & H3). split; [done|]. split; [|done]. cbn [sl_mem]. apply lookup_insert_is_Some. destruct (decide (a = b)); auto.
Qed.

Lemma spread_steps U st st' :
  (forall c a, P c a) -> rtc slab_step st st' -> (exists Q, spread U st.1 st.2 Q) -> exists Q, spread U st'.1 st'.2 Q.
Proof.
  intros HP. induction 1 as [st|st1 st2 st3 Hstep _ IH]; [done|]. intros [Q HS]. apply IH. destruct Hstep as [s held o r s' bs Hl Hr Hrec|s held a h Ha]; cbn [fst snd] in *.
  - destruct (run_ok U s held Q o HS Hl ltac:(by intros)) as (r' & s1 & bs' & Q' & Hr' & Hrec' & _ & HS').
    assert (E : Ret (r, s') = Ret (r', s1)) by congruence. simplify_eq.
    rewrite (received_unique _ _ _ _ Hrec Hrec'). eauto.
  - exists Q. by apply spread_write.
Qed.
End Trace.

(** ** The properties *)

Lemma init_spread {K} `{!Kernel K} (P : Z -> Z -> Prop) (rd : list Z -> option (list Z)) nprocs (k : K) i queue k' mem held :
  (forall path content, rd path = Some content -> Forall (is_u 8) content) -> - 2 ^ 31 <= nprocs < 2 ^ 31 ->
  ensure_cache rd nprocs k = Ret (i, queue, k') -> (forall a, a ∈ held -> block_addr a /\ is_Some (mem !! a)) ->
  spread (get_max_cpu nprocs) P held (mkSlab i mem) held (fun _ _ _ => []).
Proof.
  intros Hrd Hnp Hi Hheld. pose proof (ensure_cache_ok rd nprocs k mem Hrd Hnp) as HR. rewrite Hi in HR. destruct HR as [HR Ht].
  constructor; [done|done| | |by intros kd p c a ?%not_elem_of_nil].
  - intros a. split; [by left|]. intros [Ha|(kd & p & c & Ha)]; [done|by apply not_elem_of_nil in Ha].
  - intros a Ha. destruct (Hheld a Ha) as [H1 H2]. split; [done|]. split; [done|]. intros kd p c. apply not_elem_of_nil.
Qed.

(** C11. The slab caches neither lose nor duplicate a block.  Start from the cache
    that [ensure_cache] set up, with a thread that holds the blocks [held0], and run
    any sequence of operations ([push], [push_tailed], both transfer pushes, [pop]
    and [try_pop], on any CPUs, with any aborts of the restartable sequences, mixed
    with writes to the blocks held).  Then the lists reached from the words of the
    cache are well formed ([slab_rep]: tagged heads, usage counters, hint bits),
    every block of [held0] is either held or on a list, never both, and every
    further legal operation runs to its end and hands out blocks that were on a
    list. *)
Theorem slab_blocks_conserved {K} `{!Kernel K} (rd : list Z -> option (list Z)) nprocs (k : K) i queue k' mem (held0 : gset Z) s held :
  (forall path content, rd path = Some content -> Forall (is_u 8) content) -> - 2 ^ 31 <= nprocs < 2 ^ 31 ->
  ensure_cache rd nprocs k = Ret (i, queue, k') ->
  (forall a, a ∈ held0 -> block_addr a /\ is_Some (mem !! a)) ->
  rtc (slab_step (get_max_cpu nprocs)) (mkSlab i mem, held0) (s, held) ->
  exists Q, slab_rep (get_max_cpu nprocs + 1) calm s Q /\
    (forall a, a ∈ held0 <-> a ∈ held \/ exists kd p c, a ∈ Q kd p c) /\
    (forall a kd p c, a ∈ held -> a ∉ Q kd p c) /\
    (forall o, legal (get_max_cpu nprocs) s held o ->
       exists r s' bs, run_slab s o = Ret (r, s') /\ received s' r bs /\
         forall a, a ∈ bs -> a ∈ held0 /\ a ∉ held).
Proof.
  intros Hrd Hnp Hi Hheld Hsteps. destruct (spread_steps _ (fun _ _ => True) held0 _ _ ltac:(done) Hsteps) as [Q HS]; [eexists; by eapply init_spread|]. cbn [fst snd] in HS.
  exists Q. split; [apply HS|]. split; [apply HS|]. split; [intros a kd p c Ha; by apply (sp_held _ _ _ _ _ _ HS)|].
  intros o Hl. destruct (run_ok _ _ held0 s held Q o HS Hl ltac:(done)) as (r & s' & bs & Q' & Hr & Hrec & Hnew & HS'). exists r, s', bs. split; [done|]. split; [done|].
  intros a Ha. split; [|by apply Hnew]. apply (sp_all _ _ _ _ _ _ HS'). left. set_solver.
Qed.

(** A cache for two CPUs, three blocks of class 3, and three operations: two
    blocks go to CPU 0, of which one is trimmed, and CPU 1 steals. *)
Definition example_blocks : gset Z := {[4096; 8192; 12288]}.
Definition example_mem : gmap Z Header := set_to_map (fun a => (a, mkHeader 0 3 0 0 0)) example_blocks.
Definition example_inner : SlabCacheInner :=
  match ensure_cache (fun _ => None) 2 (BumpKernel.mkState []) with
  | Ret (i, _, _) => i
  | _ => mkSlabCacheInner [] (mkNumaTopology [] 0 [] 0 [] 0) false 0 [] []
  end.
Definition then_do (s : slab) (o : slab_op) : slab := match run_slab s o with Ret (_, s') => s' | _ => s end.
Definition example_ops : list slab_op := [OPushTrim 3 4096 0; OPushMail 3 8192 0; OTryPop 3 1 1].
Definition example_end : slab := fold_left then_do example_ops (mkSlab example_inner example_mem).

Lemma example_init : exists queue k', ensure_cache (fun _ => None) 2 (BumpKernel.mkState []) = Ret (example_inner, queue, k').
Proof. eexists _, _. reflexivity. Qed.

Lemma example_held a : a ∈ example_blocks -> block_addr a /\ is_Some (example_mem !! a).
Proof.
  unfold example_blocks. rewrite !elem_of_union, !elem_of_singleton. unfold block_addr.
  intros [[H|H]|H]; rewrite H; (split; [lia|eexists; reflexivity]).
Qed.

(** One operation that hands out at most one block. *)
Lemma example_step s held o r bs : legal 2 s held o -> run_slab s o = Ret (r, then_do s o) -> received (then_do s o) r bs ->
  slab_step 2 (s, held) (then_do s o, held ∖ list_to_set (given o) ∪ list_to_set bs).
Proof. intros. by eapply slab_step_op. Qed.

Lemma example_run : rtc (slab_step 2) (mkSlab example_inner example_mem, example_blocks) (example_end, {[8192; 12288]}).
Proof.
  unfold example_end, example_ops. cbn [fold_left].
  eapply rtc_l; [apply (example_step _ _ (OPushTrim 3 4096 0) no_blocks []); [split; [set_solver|done]|reflexivity|by left]|].
  eapply rtc_l; [apply (example_step _ _ (OPushMail 3 8192 0) no_blocks []); [split; [set_solver|done]|reflexivity|by left]|].
  eapply rtc_l; [apply (example_step _ _ (OTryPop 3 1 1) (8192, 8192, 1) [8192]); [done|reflexivity|]|].
  { right. exists [], 0. split_and!; [done| |done|done]. cbn [chain fst]. split; [done|]. split; [done|]. exists (mkHeader 0 3 0 0 0). split; [vm_compute; reflexivity|reflexivity]. }
  match goal with |- rtc _ (_, ?h) _ => assert (h = {[8192; 12288]}) as -> by (vm_compute; reflexivity) end. done.
Qed.

Lemma slab_blocks_conserved_witness : exists Q, slab_rep (get_max_cpu 2 + 1) calm example_end Q /\
  forall a, a ∈ example_blocks <-> a ∈ ({[8192; 12288]} : gset Z) \/ exists kd p c, a ∈ Q kd p c.
Proof.
  destruct example_init as (queue & k' & Hi).
  destruct (slab_blocks_conserved (fun _ => None) 2 (BumpKernel.mkState []) example_inner queue k' example_mem example_blocks example_end {[8192; 12288]}
    ltac:(discriminate) ltac:(lia) Hi example_held example_run) as (Q & HR & Hall & _). exists Q. split; assumption.
Defined.

(** C35. What a refill does.  [try_pop] ends on every well-formed cache.  Either it
    returns the null triple, and then the normal transfer lists of the class are
    empty on every CPU; or it returns a front part of one transfer list, as a chain
    from the first to the last block with their number, at most [batch_size]
    of them (one when [batch_size] is 0), and that list keeps the rest. *)
Theorem try_pop_complete cpus s Q class cpu batch :
  slab_rep (cpus + 1) calm s Q -> topo_ok cpus s -> is_u 64 batch -> 0 <= class < NUM_SIZE_CLASSES -> 0 <= cpu < cpus ->
  exists b s', try_pop s class batch cpu = Ret (b, s') /\
    ((b = no_blocks /\ slab_rep (cpus + 1) calm s' Q /\ forall v, 0 <= v < cpus -> Q Mail v class = []) \/
     exists v kd l rest q, kd <> Local /\ Q kd v class = (l ++ [b.1.2]) ++ rest /\ chain (sl_mem s') b.1.1 (l ++ [b.1.2]) q /\
       b.2 = Z.of_nat (length (l ++ [b.1.2])) /\ b.2 <= Z.max 1 batch /\ slab_rep (cpus + 1) calm s' (upd_list Q kd v class rest)).
Proof.
  intros HR Ht Hb Hc Hcpu. destruct (try_pop_ok cpus s Q class cpu batch HR Ht Hb Hc Hcpu) as (b & s' & Hr & Hcase). exists b, s'. split; [done|].
  destruct Hcase as [(-> & HR' & _ & _ & Hall)|(v & kd & Q' & _ & Hk & _ & [T1 T2 _ _])]; [by left|right].
  destruct T1 as (l & rest & q & HQ & -> & Hch & Hct & Hle). exists v, kd, l, rest, q. done.
Qed.

Lemma try_pop_complete_witness : exists b s', try_pop (mkSlab example_inner example_mem) 3 8 1 = Ret (b, s') /\ b = no_blocks.
Proof.
  pose proof (ensure_cache_ok (fun _ => None) 2 (BumpKernel.mkState []) example_mem ltac:(discriminate) ltac:(lia)) as Hinit.
  destruct example_init as (queue & k' & Hi). rewrite Hi in Hinit. change (get_max_cpu 2) with 2 in Hinit. destruct Hinit as [HR Ht].
  destruct (try_pop_complete 2 (mkSlab example_inner example_mem) (fun _ _ _ => []) 3 1 8 HR Ht ltac:(unfold is_u; lia) ltac:(change NUM_SIZE_CLASSES with 34; lia) ltac:(lia)) as (b & s' & Hr & Hcase).
  exists b, s'. split; [assumption|]. destruct Hcase as [[Hb _]|(v & kd & l & rest & q & _ & HQ & _)]; [assumption|]. by destruct l.
Defined.

(** C36. Trimmed blocks can be out of reach.  After a trimmed block and a normal
    block went to CPU 0 and CPU 1 stole the normal one, the thread on CPU 0, CPU 1
    or any other CPU that asks for blocks of the class gets none, although the
    trimmed one is on the list of CPU 0: taking the last normal block cleared the
    hint of CPU 0, and [clear_hint] looks only at the normal list. *)
Theorem trimmed_block_stranded :
  exists i queue k' s held,
    ensure_cache (fun _ => None) 2 (BumpKernel.mkState []) = Ret (i, queue, k') /\
    rtc (slab_step 2) (mkSlab i example_mem, example_blocks) (s, held) /\
    option_map (fun m => tc_trimmed <$> mc_mail m !! 3%nat) (si_cache (sl_inner s) !! 0%nat) = Some (Some (pack 4096 0)) /\
    forall cpu batch, 0 <= cpu < 2 -> fst <$> try_pop s 3 batch cpu = Ret no_blocks.
Proof.
  destruct example_init as (queue & k' & Hi). exists example_inner, queue, k', example_end, {[8192; 12288]}. split; [done|]. split; [apply example_run|]. split; [reflexivity|].
  intros cpu batch Hcpu. assert (cpu = 0 \/ cpu = 1) as [H|H] by lia; rewrite H; reflexivity.
Qed.
