(* ===== verification/Heap.v ===== *)
(** * The state of the whole allocator

    The statics of the crate gathered in one record: the slab caches with the
    headers of all blocks, the pending spans, the page allocator with the kernel,
    the ownership map, the buddy allocator, the map of big allocations and the
    accounting; the thread-local state; and the configuration set up once at
    start. *)

From S2P Require Import Prelude Types SizeClasses Kernel Radix RBTree Buddy PageAllocator Predictor PendingQueue SlabCache.

(** The configuration; [Buddy.BuddyEnv] is read off it and the clock. *)
Record config := mkConfig {
  MAGIC : Z;
  FREED_MAGIC : Z;
  BIG_MAGIC : Z;
  ALIGN_TAG : Z;
  ARENA_SIZE : Z;
  MAX_REFILL_RETRIES : Z;
  RS_DISABLE_THP : bool;
  FOREIGN_POINTER_ABORT : bool;
  TRIM_THRESHOLD : Z;
  predictor_config : PredictorConfig;
}.

(** The spans a thread has not used up, one per class ([ThreadBulk]). *)
Record ThreadBulk := mkThreadBulk {
  tb_free : list Z;
  tb_init : bool;
}.

Definition ThreadBulk_new : ThreadBulk := mkThreadBulk (replicate class_count null) false.

(** The thread-local statics. *)
Record tls := mkTls {
  THREAD_BULK : ThreadBulk;
  TRANSFER_BATCHING : list AdaptiveBatching;
  BULK_FILL_BATCHING : list AdaptiveBatching;
}.

Definition tls_new : tls :=
  mkTls ThreadBulk_new (replicate class_count (AdaptiveBatching_new false)) (replicate class_count (AdaptiveBatching_new true)).

Definition set_bulk (th : tls) (b : ThreadBulk) : tls := mkTls b (TRANSFER_BATCHING th) (BULK_FILL_BATCHING th).

(** What an operation meets outside the allocator: the CPU the thread runs on
    when it reads it, the rounds of the restartable sequences (see [SlabCache]),
    whether a thread destructor can be registered and the trim thread started. *)
Record env := mkEnv {
  e_cpu : Z;
  e_pop : list round;
  e_push : list round;
  e_batch : round;
  e_atexit : bool;
  e_spawn : bool;
}.

Section Heap.
Context {K : Type} `{!Kernel K}.

Record heap := mkHeap {
  hp_slab : slab;
  hp_queue : ThreadQueue;
  hp_spans : gmap Z MetaData;
  hp_pages : PageAllocator K;
  hp_pages_once : bool;
  hp_root : Z;
  hp_words : words;
  hp_buddy : Buddy;
  hp_big : RBTree;
  (** 64-bit words written to payloads by the allocator. *)
  hp_raw : gmap Z Z;
  (** [TOTAL_CACHED_VA], [CURRENT_STAMP], [TRIM_GUARD], [DISABLE_BUDDY] *)
  hp_cached_va : Z;
  hp_stamp : Z;
  hp_trim_guard : bool;
  hp_disable_buddy : bool;
}.

Definition hp_kern (h : heap) : K := pg_kern (hp_pages h).

(** [RADIX], over the one kernel. *)
Definition hp_radix (h : heap) : RadixTree K := mkRadixTree (hp_root h) (hp_words h) (hp_kern h).

Definition set_slab (h : heap) (s : slab) : heap :=
  mkHeap s (hp_queue h) (hp_spans h) (hp_pages h) (hp_pages_once h) (hp_root h) (hp_words h) (hp_buddy h) (hp_big h) (hp_raw h)
    (hp_cached_va h) (hp_stamp h) (hp_trim_guard h) (hp_disable_buddy h).

Definition set_headers (h : heap) (m : gmap Z Header) : heap := set_slab h (mkSlab (sl_inner (hp_slab h)) m).

Definition set_spans (h : heap) (q : ThreadQueue) (m : gmap Z MetaData) : heap :=
  mkHeap (hp_slab h) q m (hp_pages h) (hp_pages_once h) (hp_root h) (hp_words h) (hp_buddy h) (hp_big h) (hp_raw h)
    (hp_cached_va h) (hp_stamp h) (hp_trim_guard h) (hp_disable_buddy h).

Definition set_pages (h : heap) (p : PageAllocator K) (once : bool) : heap :=
  mkHeap (hp_slab h) (hp_queue h) (hp_spans h) p once (hp_root h) (hp_words h) (hp_buddy h) (hp_big h) (hp_raw h)
    (hp_cached_va h) (hp_stamp h) (hp_trim_guard h) (hp_disable_buddy h).

Definition set_kern (h : heap) (k : K) : heap :=
  set_pages h (mkPageAllocator (pg_inner (hp_pages h)) (pg_mem (hp_pages h)) k) (hp_pages_once h).

Definition set_radix (h : heap) (t : RadixTree K) : heap :=
  set_kern (mkHeap (hp_slab h) (hp_queue h) (hp_spans h) (hp_pages h) (hp_pages_once h) (l0 t) (mem t) (hp_buddy h) (hp_big h) (hp_raw h)
    (hp_cached_va h) (hp_stamp h) (hp_trim_guard h) (hp_disable_buddy h)) (kern t).

Definition set_buddy (h : heap) (b : Buddy) : heap :=
  mkHeap (hp_slab h) (hp_queue h) (hp_spans h) (hp_pages h) (hp_pages_once h) (hp_root h) (hp_words h) b (hp_big h) (hp_raw h)
    (hp_cached_va h) (hp_stamp h) (hp_trim_guard h) (hp_disable_buddy h).

Definition set_big (h : heap) (t : RBTree) : heap :=
  mkHeap (hp_slab h) (hp_queue h) (hp_spans h) (hp_pages h) (hp_pages_once h) (hp_root h) (hp_words h) (hp_buddy h) t (hp_raw h)
    (hp_cached_va h) (hp_stamp h) (hp_trim_guard h) (hp_disable_buddy h).

Definition set_raw (h : heap) (m : gmap Z Z) : heap :=
  mkHeap (hp_slab h) (hp_queue h) (hp_spans h) (hp_pages h) (hp_pages_once h) (hp_root h) (hp_words h) (hp_buddy h) (hp_big h) m
    (hp_cached_va h) (hp_stamp h) (hp_trim_guard h) (hp_disable_buddy h).

Definition set_cached (h : heap) (v : Z) (guard : bool) : heap :=
  mkHeap (hp_slab h) (hp_queue h) (hp_spans h) (hp_pages h) (hp_pages_once h) (hp_root h) (hp_words h) (hp_buddy h) (hp_big h) (hp_raw h)
    v (hp_stamp h) guard (hp_disable_buddy h).

(** A field of the header at [a]. *)
Definition get_header (h : heap) (a : Z) : outcome Header := from_option (sl_mem (hp_slab h) !! a).

Definition put_header (h : heap) (a : Z) (x : Header) : heap := set_headers h (<[a := x]> (sl_mem (hp_slab h))).
End Heap.
Arguments heap K : clear implicits.
