(* ===== verification/BulkFill.v ===== *)
(** * Carving blocks out of spans (src/rseq_core/bulk_fill.rs)

    A span is a piece of the page allocator that starts with its [MetaData]; its
    blocks are initialised lazily, a batch at a time, from [next] towards [end].
    A thread keeps the unfinished span of each class in [THREAD_BULK] and leaves
    it to the queue of pending spans when it exits. *)

From S2P Require Import Prelude Types SizeClasses Kernel Radix RBTree Buddy PageAllocator Predictor SList PendingQueue Rseq SlabCache Heap.

(** [ITERATIONS[class]]; every caller's index is in range. *)
Definition iterations (class : Z) : Z := ITERATIONS !!! Z.to_nat class.

(** [align_to(SIZE_CLASSES[class] + Header::SIZE, 16)] *)
Definition block_size_of (class : Z) : Z := align_to (class_size class + Header_SIZE) 16.

Definition remaining_blocks (x : MetaData) (block_size : Z) : Z := saturating_sub (md_end x) (md_next x) / block_size.

Definition with_cursor (x : MetaData) (v : Z) : MetaData :=
  mkMetaData (md_next_page x) (md_start x) (md_end x) v (md_node_id x).

(** [touch_tls] registers the destructor of the thread's spans; when it cannot,
    the flag is reset and the next call tries again. *)
Definition get_or_init (b : ThreadBulk) (class : Z) (atexit : bool) : outcome (Z * ThreadBulk) :=
  let b := if negb (tb_init b) then mkThreadBulk (tb_free b) atexit else b in
  p ← from_option (tb_free b !! Z.to_nat class);
  Ret (p, b).

Definition set_free (b : ThreadBulk) (class v : Z) : ThreadBulk := mkThreadBulk (<[Z.to_nat class := v]> (tb_free b)) (tb_init b).

Section BulkFill.
Context {K : Type} `{!Kernel K} (cfg : config).
Implicit Types (h : heap K).

(** [for i in (0..count).rev()]: the headers of the blocks [0 .. n - 1]. *)
Fixpoint write_blocks (n : nat) (m : gmap Z Header) (class base block_size stamp head tail : Z) : gmap Z Header * Z * Z :=
  match n with
  | O => (m, head, tail)
  | S i =>
      let current_header := wadd base (wmul (Z.of_nat i) block_size) in
      let m := <[current_header := mkHeader head ZERO_FLAG class (FREED_MAGIC cfg) stamp]> m in
      let tail := if head =? null then current_header else tail in
      write_blocks i m class base block_size stamp current_header tail
  end.

Definition init_blocks h (class metadata block_size max_blocks current_stamp : Z) : outcome (Z * Z * Z * heap K) :=
  x ← from_option (hp_spans h !! metadata);
  let remaining := remaining_blocks x block_size in
  if remaining =? 0 then Ret (null, null, 0, h)
  else
    let count := Z.min remaining max_blocks in
    let base := md_next x in
    let '(m, head, tail) := write_blocks (Z.to_nat count) (sl_mem (hp_slab h)) class base block_size current_stamp null null in
    let x := with_cursor x (wadd base (wmul count block_size)) in
    Ret (head, tail, count, set_spans (set_headers h m) (hp_queue h) (<[metadata := x]> (hp_spans h))).

(** [PAGE_ALLOCATOR.init], guarded by its [Once]. *)
Definition pages_init h (nranges : Z) : heap K :=
  if hp_pages_once h then h else set_pages h (PageAllocator.init (hp_pages h) nranges) true.

(** The bytes of a new span. *)
Definition span_total (class block_size : Z) : Z :=
  let num_blocks := iterations class in
  let total := MetaData_SIZE + block_size * num_blocks in
  let pages := (total + 4095) / 4096 in
  let available_bytes := pages * 4096 - MetaData_SIZE in
  let max_blocks_in_pages := available_bytes / block_size in
  if num_blocks <? max_blocks_in_pages then MetaData_SIZE + block_size * max_blocks_in_pages else total.

Definition alloc_metadata h (class block_size cpu_id : Z) : outcome ((Z + Err) * heap K) :=
  let inner := sl_inner (hp_slab h) in
  node_id ← node_for_cpu inner cpu_id;
  '(pending, (q, spans)) ← queue_pop (hp_queue h) (hp_spans h) node_id (Z.to_nat class);
  let h := set_spans h q spans in
  if negb (pending =? null) then Ret (inl pending, h)
  else
    let total := span_total class block_size in
    let h := pages_init h (Numa.nranges (si_numa inner)) in
    '(mem, p) ← PageAllocator.alloc (ARENA_SIZE cfg) (hp_pages h) node_id total;
    let h := set_pages h p (hp_pages_once h) in
    match mem with
    | None => Ret (inr Err_OutOfMemory, h)
    | Some mem =>
        let h := set_cached h (add_slab_cached_va (hp_cached_va h) total) (hp_trim_guard h) in
        t ← Radix.set_range (hp_radix h) mem total true;
        let h := set_radix h t in
        let x := mkMetaData null mem (wadd mem total) (wadd mem MetaData_SIZE) node_id in
        Ret (inl mem, set_spans h (hp_queue h) (<[mem := x]> (hp_spans h)))
    end.

(** The span with blocks left goes to the thread's slot. *)
Definition keep_span h (th : tls) (class metadata block_size : Z) : outcome tls :=
  x ← from_option (hp_spans h !! metadata);
  Ret (if 0 <? remaining_blocks x block_size then set_bulk th (set_free (THREAD_BULK th) class metadata) else th).

(** [bulk_fill] without a span of the thread. *)
Definition bulk_fill_new (th : tls) h (class cpu_id max_init current_stamp : Z) : outcome ((Z * Z * Z + Err) * tls * heap K) :=
  let block_size := block_size_of class in
  '(metadata, h) ← alloc_metadata h class block_size cpu_id;
  match metadata with
  | inr e => Ret (inr e, th, h)
  | inl metadata =>
      '(head, tail, count, h) ← init_blocks h class metadata block_size max_init current_stamp;
      if count =? 0 then Ret (inr Err_OutOfMemory, th, h)
      else
        th ← keep_span h th class metadata block_size;
        Ret (inl (head, tail, count), th, h)
  end.

Definition bulk_fill (th : tls) h (atexit : bool) (class cpu_id max_init : Z) : outcome ((Z * Z * Z + Err) * tls * heap K) :=
  let block_size := block_size_of class in
  let current_stamp := hp_stamp h in
  '(pending, b) ← get_or_init (THREAD_BULK th) class atexit;
  let th := set_bulk th b in
  '(r, th, h) ←
    (if negb (pending =? null) then
       let th := set_bulk th (set_free (THREAD_BULK th) class null) in
       '(head, tail, count, h) ← init_blocks h class pending block_size max_init current_stamp;
       if 0 <? count then
         th ← keep_span h th class pending block_size;
         Ret (Some (head, tail, count), th, h)
       else Ret (None, th, h)
     else Ret (None, th, h));
  match r with
  | Some b => Ret (inl b, th, h)
  | None => bulk_fill_new th h class cpu_id max_init current_stamp
  end.

Definition drain_pending (th : tls) h (class : Z) : outcome (tls * heap K) :=
  pending ← from_option (tb_free (THREAD_BULK th) !! Z.to_nat class);
  if pending =? null then Ret (th, h)
  else
    let th := set_bulk th (set_free (THREAD_BULK th) class null) in
    '(q, spans) ← queue_insert (hp_queue h) (hp_spans h) (Z.to_nat class) pending;
    Ret (th, set_spans h q spans).

(** [for class in 0..NUM_SIZE_CLASSES] *)
Fixpoint drain_classes (n : nat) (th : tls) h (class : Z) : outcome (tls * heap K) :=
  match n with
  | O => Ret (th, h)
  | S n' => '(th, h) ← drain_pending th h class; drain_classes n' th h (class + 1)
  end.

(** Runs when the thread exits, if its destructor was registered. *)
Definition cleanup_thread_bulk (th : tls) h : outcome (tls * heap K) := drain_classes class_count th h 0.
End BulkFill.
