(* ===== verification/Alloc.v ===== *)
(** * Allocation and release (src/inner/alloc.rs, src/inner/free.rs,
      src/inner/align.rs, src/big_allocations/big_allocation.rs)

    The entry points behind the C and Rust interfaces, without the [preload],
    [debug] and [check-owned-on-alloc] features.  A small request takes a block of
    its class from the slab caches, refilled from the transfer lists or by carving
    a span; a big one comes from the buddy allocator or from its own mapping. *)

From S2P Require Import Prelude Types SizeClasses Kernel Radix RBTree Binder Buddy PageAllocator Numa Predictor SList PendingQueue Rseq SlabCache Heap BulkFill.

(** [UnsafePointer<Header>::walk_header] and [get_actual_header] *)
Definition walk_header (p : Z) : Z := wadd p Header_SIZE.
Definition get_actual_header (p : Z) : Z := wsub p Header_SIZE.

Section Alloc.
Context {K : Type} `{!Kernel K} (cfg : config).
Implicit Types (h : heap K) (th : tls).

(** ** Refill *)

Definition take_one_from_batch h (e : env) (class start tail count : Z) : outcome (Z * heap K) :=
  h ← (if 1 <? count then
         x ← get_header h start;
         let rest := h_next x in
         if negb (rest =? null) then set_slab h <$> push_tailed (hp_slab h) (e_batch e) class rest tail (count - 1) else Ret h
       else Ret h);
  x ← get_header h start;
  Ret (start, put_header h start (mkHeader null (h_flags x) (h_class x) (h_magic x) (h_life_time x))).

(** [refill!] and [bulk_refill!]: the batch to ask for. *)
Definition next_batch (l : list AdaptiveBatching) (class : Z) : outcome (Z * list AdaptiveBatching) :=
  a ← from_option (l !! Z.to_nat class);
  let '(n, a) := batch (predictor_config cfg) a (iterations class) in
  Ret (n, <[Z.to_nat class := a]> l).

(** What a predictor is told about a refill of [count] blocks. *)
Definition observed_demand (count batch class : Z) : Z :=
  if (count =? batch) && (batch <? iterations class) then saturating_add 64 batch (Z.max (batch / 4) 1) else count.

Definition observe (l : list AdaptiveBatching) (class count batch : Z) : outcome (list AdaptiveBatching) :=
  a ← from_option (l !! Z.to_nat class);
  Ret (<[Z.to_nat class := update_refill (predictor_config cfg) a (observed_demand count batch class) (iterations class)]> l).

(** The trim thread is started once, when enough memory is cached. *)
Definition maybe_start_trimmer h (spawned : bool) : heap K :=
  if (hp_cached_va h <? TRIM_THRESHOLD cfg) || hp_trim_guard h then h else set_cached h (hp_cached_va h) spawned.

(** [for _ in 0..MAX_REFILL_RETRIES] *)
Fixpoint refill_loop (n : nat) th h (e : env) (class cpu_id : Z) : outcome (option Z * tls * heap K) :=
  match n with
  | O => Ret (None, th, h)
  | S n' =>
      '(bulk_batch, l) ← next_batch (BULK_FILL_BATCHING th) class;
      let th := mkTls (THREAD_BULK th) (TRANSFER_BATCHING th) l in
      '(r, th, h) ← bulk_fill cfg th h (e_atexit e) class cpu_id bulk_batch;
      match r with
      | inl (start, tail, count) =>
          l ← observe (BULK_FILL_BATCHING th) class count bulk_batch;
          let th := mkTls (THREAD_BULK th) (TRANSFER_BATCHING th) l in
          '(result, h) ← take_one_from_batch h e class start tail count;
          Ret (Some result, th, maybe_start_trimmer h (e_spawn e))
      | inr _ => refill_loop n' th h e class cpu_id
      end
  end.

Definition refill th h (e : env) (class cpu_id : Z) : outcome (Z * tls * heap K) :=
  '(r, th, h) ← refill_loop (Z.to_nat (MAX_REFILL_RETRIES cfg)) th h e class cpu_id;
  match r with
  | Some result => Ret (result, th, h)
  | None =>
      '(b, s) ← try_pop (hp_slab h) class 1 cpu_id;
      Ret (b.1.1, th, set_slab h s)
  end.

Definition fill th h (e : env) (class : Z) : outcome (Z * tls * heap K) :=
  '(cache_batch, l) ← next_batch (TRANSFER_BATCHING th) class;
  let th := mkTls (THREAD_BULK th) l (BULK_FILL_BATCHING th) in
  let cpu_id := e_cpu e in
  '(start, tail, count, s) ← try_pop (hp_slab h) class cache_batch cpu_id;
  let h := set_slab h s in
  if negb (start =? null) then
    l ← observe (TRANSFER_BATCHING th) class count cache_batch;
    let th := mkTls (THREAD_BULK th) l (BULK_FILL_BATCHING th) in
    '(result, h) ← take_one_from_batch h e class start tail count;
    Ret (result, th, h)
  else refill th h e class cpu_id.

(** ** Big allocations *)

Definition TWO_MB : Z := 1024 * 1024 * 2.

Definition estimate_and_align_2mb (size : Z) : Z :=
  let remainder := size mod TWO_MB in
  if (0 <? remainder) && (TWO_MB - remainder <=? 1024 * 64) && negb (RS_DISABLE_THP cfg) then align_to size TWO_MB
  else align_to size 4096.

Definition buddy_env h : BuddyEnv := mkBuddyEnv (MAX_REFILL_RETRIES cfg) (hp_stamp h).

(** The buddy block for the request, if one is taken: address, order, trim state
    and region. *)
Definition big_from_buddy h (size aligned_total node_id : Z) : outcome (option (Z * Z * Z * Z) * heap K) :=
  if (size <=? 1024 * 1024 * 64) && bd_init (hp_buddy h) && negb (hp_disable_buddy h) then
    let inner := sl_inner (hp_slab h) in
    '(r, b, t) ← Buddy.alloc (buddy_env h) (hp_buddy h) (hp_radix h) aligned_total node_id (nranges (si_numa inner)) (si_is_numa inner);
    Ret (r, set_radix (set_buddy h b) t)
  else Ret (None, h).

Definition trim_flag (trim_state : Z) : Z :=
  if trim_state =? BUDDY_TRIM_NOT_ALLOCATED then ZERO_FLAG
  else if trim_state =? BUDDY_TRIM_TRIMMED then TRIMMED_FLAG
  else ALLOCATED_FLAG.

(** The end of [big_malloc]: the header, the ownership and the metadata. *)
Definition big_register h (actual_ptr mapped_total buddy_region flag size : Z) (registered aligned : bool) : outcome (Z * heap K) :=
  let h := put_header h actual_ptr (mkHeader null flag 100 (BIG_MAGIC cfg) 0) in
  let payload_ptr := wadd actual_ptr Header_SIZE in
  h ← (if registered then Ret h
       else if negb registered && negb aligned then set_radix h <$> Radix.set_single_big (hp_radix h) actual_ptr true
       else set_radix h <$> Radix.set_range (hp_radix h) actual_ptr mapped_total true);
  let meta := mkBigAllocMeta null size (trailing_zeros (next_power_of_two mapped_total)) buddy_region aligned in
  '(t, k) ← RBTree.insert (hp_big h) (hp_kern h) payload_ptr meta;
  Ret (walk_header actual_ptr, set_kern (set_big h t) k).

Definition big_malloc h (cpu_id size : Z) (aligned : bool) : outcome (Z * heap K) :=
  match checked_add size Header_SIZE with
  | None => Ret (null, h)
  | Some requested_total =>
      let aligned_total := estimate_and_align_2mb requested_total in
      let inner := sl_inner (hp_slab h) in
      node_id ← node_for_cpu inner cpu_id;
      '(r, h) ← big_from_buddy h size aligned_total node_id;
      match r with
      | Some (addr, order, trim_state, region) => big_register h addr (wshl 1 order) region (trim_flag trim_state) size true aligned
      | None =>
          match mmap_anonymous aligned_total (hp_kern h) with
          | (None, k) => Ret (null, set_kern h k)
          | (Some pointer, k) =>
              let k := if si_is_numa inner then (prefer_node pointer aligned_total node_id k).2 else k in
              let k := if (aligned_total mod TWO_MB =? 0) && negb (RS_DISABLE_THP cfg) then (madvise pointer aligned_total LinuxHugepage k).2 else k in
              big_register (set_kern h k) pointer aligned_total 0 ZERO_FLAG size false aligned
          end
      end
  end.

(** What was written to the bytes from [a] on is lost with them. *)
Definition forget h (a len : Z) : heap K :=
  let kept := fun y => ~ a <= y < a + len in
  set_raw (set_headers h (filter (fun x => kept x.1) (sl_mem (hp_slab h)))) (filter (fun x => kept x.1) (hp_raw h)).

(** The header of a block that goes back to the buddy allocator stays in the map of the
    headers.  In memory the links of the free list take its place if the block does not
    coalesce with a lower one; only a second release of the same pointer would read
    it, and no property is about that. *)
Definition big_free h (ptr : Z) : outcome (heap K) :=
  '(meta, t) ← RBTree.remove (hp_big h) ptr;
  let h := set_big h t in
  match meta with
  | None => Fatal MemoryCorruption
  | Some header =>
      let mapping_base := wsub ptr Header_SIZE in
      let payload_size := estimate_and_align_2mb (wadd (bm_size header) Header_SIZE) in
      if negb (bm_buddy_region header =? 0) then
        set_buddy h <$> Buddy.free (hp_buddy h) (hp_stamp h) (bm_buddy_region header) mapping_base (bm_order header)
      else
        t ← (if bm_aligned header then Radix.set_range (hp_radix h) mapping_base payload_size false
             else Radix.set_single_big (hp_radix h) mapping_base false);
        let h := set_radix h t in
        Ret (forget (set_kern h (munmap mapping_base payload_size (hp_kern h))) mapping_base payload_size)
  end.

(** ** The entry points *)

Definition rs_alloc th h (e : env) (size : Z) (aligned : bool) : outcome (Z * tls * heap K) :=
  match match_size_class size with
  | Some class =>
      '(cache, s) ← pop (hp_slab h) (e_pop e) class;
      let h := set_slab h s in
      '(cache, th, h) ← (if cache =? null then fill th h e class else Ret (cache, th, h));
      if cache =? null then Ret (null, th, h)
      else
        x ← get_header h cache;
        let h := put_header h cache (mkHeader (h_next x) ALLOCATED_FLAG (h_class x) (MAGIC cfg) (h_life_time x)) in
        Ret (walk_header cache, th, h)
  | None =>
      '(p, h) ← big_malloc h (e_cpu e) size aligned;
      Ret (p, th, h)
  end.

(** The 64-bit word at [a]: the first field of a header, or what was written to
    a payload. *)
Definition read_word h (a : Z) : Z :=
  match sl_mem (hp_slab h) !! a with
  | Some x => h_next x
  | None => default 0 (hp_raw h !! a)
  end.

(** Writes the 64-bit word [v] at [a]; headers it overlaps are gone. *)
Definition write_word h (a v : Z) : heap K :=
  set_raw (set_headers h (delete a (delete (a - 8) (sl_mem (hp_slab h))))) (<[a := v]> (hp_raw h)).

Definition find_original_ptr h (ptr : Z) : outcome Z :=
  if read_word h (wsub ptr TAG_SIZE) =? ALIGN_TAG cfg then
    let presumed_original_ptr := read_word h (wsub ptr OFFSET_SIZE) in
    owned ← Radix.is_owned (hp_radix h) presumed_original_ptr;
    if negb owned then Fatal AttackOrCorruption else Ret presumed_original_ptr
  else Ret ptr.

Definition rs_free h (e : env) (ptr : Z) : outcome (heap K) :=
  if ptr =? null then Ret h
  else
    owned ← Radix.is_owned (hp_radix h) ptr;
    if negb owned then (if FOREIGN_POINTER_ABORT cfg then Fatal ForeignPointer else Ret h)
    else
      searched ← find_original_ptr h ptr;
      let header := get_actual_header searched in
      x ← get_header h header;
      if h_magic x =? MAGIC cfg then
        let h := put_header h header (mkHeader (h_next x) (h_flags x) (h_class x) (FREED_MAGIC cfg) (hp_stamp h)) in
        set_slab h <$> push (hp_slab h) (e_push e) (h_class x) header
      else if h_magic x =? BIG_MAGIC cfg then big_free h searched
      else if h_magic x =? FREED_MAGIC cfg then Fatal DoubleFree
      else Fatal AttackOrCorruption.

Definition usable_size h (ptr : Z) : outcome Z :=
  owned ← Radix.is_owned (hp_radix h) ptr;
  if owned : bool then
    original_payload ← find_original_ptr h ptr;
    let offset := wsub ptr original_payload in
    x ← get_header h (get_actual_header original_payload);
    if h_magic x =? BIG_MAGIC cfg then
      meta ← RBTree.get (hp_big h) original_payload;
      match meta with
      | None => Fatal MemoryCorruption
      | Some meta => Ret (saturating_sub (bm_size meta) offset)
      end
    else
      total_payload ← from_option (SIZE_CLASSES !! Z.to_nat (h_class x));
      Ret (saturating_sub total_payload offset)
  else Ret 0.

(** ** Aligned allocation *)

Inductive errno := EINVAL | ENOMEM.

(** [memptr] is not null; on success the address stored there. *)
Definition posix_align_inner th h (e : env) (alignment size : Z) : outcome ((Z + errno) * tls * heap K) :=
  if (alignment <? 8) || negb (is_power_of_two alignment) then Ret (inr EINVAL, th, h)
  else
    match (v ← checked_add size alignment; checked_add v TAG_SIZE) with
    | None => Ret (inr ENOMEM, th, h)
    | Some total_requested =>
        '(raw, th, h) ← rs_alloc th h e total_requested true;
        if raw =? null then Ret (inr ENOMEM, th, h)
        else
          let start_search := saturating_add 64 raw TAG_SIZE in
          let aligned := Z.land (wsub (wadd start_search alignment) 1) (wnot 64 (alignment - 1)) in
          let tag_location := saturating_sub aligned TAG_SIZE in
          let original_ptr_location := saturating_sub aligned OFFSET_SIZE in
          Ret (inl aligned, th, write_word (write_word h tag_location (ALIGN_TAG cfg)) original_ptr_location raw)
    end.

Definition memalign_inner th h (e : env) (alignment size : Z) : outcome (Z * tls * heap K) :=
  let adjusted_alignment := Z.max alignment 8 in
  if negb (is_power_of_two adjusted_alignment) then Ret (null, th, h)
  else
    '(r, th, h) ← posix_align_inner th h e adjusted_alignment size;
    Ret (match r with inl ptr => ptr | inr _ => null end, th, h).
End Alloc.
