(* ===== verification/HeapFrame.v ===== *)
(** * What the operations on small blocks leave alone

    Serving a small request touches neither the words written to payloads nor the
    state of the big allocations. *)

From S2P Require Import Prelude Types SizeClasses Kernel Radix RBTree Buddy PageAllocator Predictor PendingQueue SlabCache Heap BulkFill Alloc.

(** ** Runs that return *)

Lemma bind_Ret {A B} (m : outcome A) (f : A -> outcome B) r : (m ≫= f) = Ret r -> exists x, m = Ret x /\ f x = Ret r.
Proof. destruct m; [eauto|done..]. Qed.

Lemma fmap_Ret {A B} (m : outcome A) (f : A -> B) r : f <$> m = Ret r -> exists x, m = Ret x /\ r = f x.
Proof. destruct m; [|done..]. intros [= <-]. eauto. Qed.

(** Splits a run that returned into its steps. *)
Ltac split_run H :=
  cbv beta zeta in H;
  lazymatch type of H with
  | _ ≫= _ = Ret _ => let x := fresh "x" in let E := fresh "Hrun" in apply bind_Ret in H as (x & E & H); split_run E; split_run H
  | _ <$> _ = Ret _ => let x := fresh "x" in let E := fresh "Hrun" in apply fmap_Ret in H as (x & E & H); split_run E
  | match ?x with _ => _ end = Ret _ => destruct x eqn:?; split_run H
  | _ => idtac
  end.

(** ** The words in payloads and the big allocations *)

Section Frame.
Context {K : Type} `{!Kernel K} (cfg : config).
Implicit Types (h : heap K) (th : tls).

Definition same_big h h' : Prop := hp_raw h' = hp_raw h /\ hp_big h' = hp_big h /\ hp_buddy h' = hp_buddy h.

#[local] Instance same_big_refl : Reflexive same_big.
Proof. by intros h. Qed.

#[local] Instance same_big_trans : Transitive same_big.
Proof. intros h1 h2 h3 (H1 & H2 & H3) (E1 & E2 & E3). unfold same_big. by rewrite E1, E2, E3. Qed.

Lemma maybe_start_trimmer_big h b : same_big h (maybe_start_trimmer cfg h b).
Proof. unfold maybe_start_trimmer. by case_match. Qed.

Create HintDb heap_frame.

(** Runs the step lemmas of the database on every step. *)
Ltac frame H :=
  split_run H; simplify_eq;
  repeat match goal with E : _ = Ret (_, ?h') |- _ => lazymatch type of h' with heap _ => eassert (same_big _ h') by (eauto with heap_frame); clear E end end;
  unfold same_big in *; try match goal with |- context [maybe_start_trimmer _ ?h0 ?b] => destruct (maybe_start_trimmer_big h0 b) as (-> & -> & ->) end;
  destruct_and?; cbn in *; split_and!; congruence.

Lemma init_blocks_big h c m bs max stamp r h' : init_blocks cfg h c m bs max stamp = Ret (r, h') -> same_big h h'.
Proof. unfold init_blocks. intros H. frame H. Qed.

Lemma pages_init_big h n : same_big h (pages_init h n).
Proof. unfold pages_init. by case_match. Qed.

Lemma alloc_metadata_big h c bs cpu r h' : alloc_metadata cfg h c bs cpu = Ret (r, h') -> same_big h h'.
Proof.
  unfold alloc_metadata. intros H. split_run H; simplify_eq; unfold same_big; cbn; [done|..];
    match goal with |- context [pages_init ?h0 ?n] => destruct (pages_init_big h0 n) as (-> & -> & ->) end; done.
Qed.

Lemma take_one_big h e c hd tl n r h' : take_one_from_batch h e c hd tl n = Ret (r, h') -> same_big h h'.
Proof. unfold take_one_from_batch. intros H. frame H. Qed.
#[local] Hint Resolve init_blocks_big alloc_metadata_big take_one_big : heap_frame.

Lemma bulk_fill_new_big th h c cpu max stamp r th' h' : bulk_fill_new cfg th h c cpu max stamp = Ret (r, th', h') -> same_big h h'.
Proof. unfold bulk_fill_new. intros H. frame H. Qed.
#[local] Hint Resolve bulk_fill_new_big : heap_frame.

Lemma bulk_fill_big th h at' c cpu max r th' h' : bulk_fill cfg th h at' c cpu max = Ret (r, th', h') -> same_big h h'.
Proof. unfold bulk_fill. intros H. frame H. Qed.
#[local] Hint Resolve bulk_fill_big : heap_frame.

Lemma refill_loop_big n : forall th h e c cpu r th' h', refill_loop cfg n th h e c cpu = Ret (r, th', h') -> same_big h h'.
Proof.
  induction n as [|n IH]; intros th h e c cpu r th' h' H; cbn [refill_loop] in H; [by simplify_eq|].
  frame H.
Qed.
#[local] Hint Resolve refill_loop_big : heap_frame.

Lemma refill_big th h e c cpu r th' h' : refill cfg th h e c cpu = Ret (r, th', h') -> same_big h h'.
Proof. unfold refill. intros H. frame H. Qed.
#[local] Hint Resolve refill_big : heap_frame.

Lemma fill_big th h e c r th' h' : fill cfg th h e c = Ret (r, th', h') -> same_big h h'.
Proof. unfold fill. intros H. frame H. Qed.
#[local] Hint Resolve fill_big : heap_frame.

Lemma small_alloc_big th h e size al c r th' h' : match_size_class size = Some c -> rs_alloc cfg th h e size al = Ret (r, th', h') -> same_big h h'.
Proof. intros Hc H. unfold rs_alloc in H. rewrite Hc in H. frame H. Qed.

Lemma drain_pending_big th h c th' h' : drain_pending th h c = Ret (th', h') -> same_big h h'.
Proof. unfold drain_pending. intros H. frame H. Qed.
#[local] Hint Resolve drain_pending_big : heap_frame.

Lemma cleanup_big n : forall th h c th' h', drain_classes n th h c = Ret (th', h') -> same_big h h'.
Proof. induction n as [|n IH]; intros th h c th' h' H; cbn [drain_classes] in H; [by simplify_eq|]. frame H. Qed.
End Frame.
