(* ===== verification/HeapInv.v ===== *)
(** * The invariant of the small-block heap

    Spans, the blocks carved from them, and where each block and span is; the
    lemmas that each piece of [BulkFill] and [Alloc] keeps it. *)

From S2P Require Import Prelude Types SizeClasses Kernel Radix RadixProofs RBTree Buddy BuddyGrow PageAllocator PageProofs PageSpec Numa NumaSpec Predictor SList PendingQueue Rseq Bitmap SlabCache SlabProofs SlabSteal SlabSpec Heap BulkFill Alloc.

(** ** Sizes of blocks and spans *)

(** The blocks a span of the class has room for. *)
Definition span_blocks (class : Z) : Z := (span_total class (block_size_of class) - MetaData_SIZE) / block_size_of class.

Definition class_facts_ok (c : Z) : bool :=
  let bs := block_size_of c in let total := span_total c bs in
  (bs =? class_size c + 16) && (bs mod 16 =? 0) && (16 <=? class_size c) && (total =? 48 + span_blocks c * bs) && (1 <=? span_blocks c) && (total <=? 2 ^ 22) &&
  (1 <=? iterations c) && (iterations c <=? 2 ^ 12) && (class_size c <=? 2097152).

Lemma class_facts_check : forallb class_facts_ok (seqZ 0 NUM_SIZE_CLASSES) = true.
Proof. by vm_compute. Qed.

Record class_facts (c : Z) : Prop := {
  cf_block : block_size_of c = class_size c + 16;
  cf_align : block_size_of c mod 16 = 0;
  cf_min : 16 <= class_size c <= 2097152;
  cf_total : span_total c (block_size_of c) = 48 + span_blocks c * block_size_of c;
  cf_blocks : 1 <= span_blocks c;
  cf_bound : span_total c (block_size_of c) <= 2 ^ 22;
  cf_iter : 1 <= iterations c <= 2 ^ 12;
}.

Lemma class_facts_of c : 0 <= c < NUM_SIZE_CLASSES -> class_facts c.
Proof.
  intros Hc. pose proof class_facts_check as Hall. rewrite forallb_forall in Hall.
  assert (Hin : In c (seqZ 0 NUM_SIZE_CLASSES)) by (apply list_elem_of_In, elem_of_seqZ; lia).
  specialize (Hall c Hin). unfold class_facts_ok in Hall. rewrite !andb_true_iff, !Z.leb_le, !Z.eqb_eq in Hall. constructor; lia.
Qed.

(** ** Writing the headers of a batch *)

(** Blocks [i .. i + n - 1] of a row that starts at [base]. *)
Definition row (base bs i : Z) (n : nat) : list Z := (fun j => base + j * bs) <$> seqZ i (Z.of_nat n).

Lemma elem_of_row base bs i n a : a ∈ row base bs i n <-> exists j, i <= j < i + Z.of_nat n /\ a = base + j * bs.
Proof. unfold row. rewrite list_elem_of_fmap. split; intros (j & H1 & H2); exists j; rewrite elem_of_seqZ in *; split; done || lia. Qed.

Lemma row_length base bs i n : length (row base bs i n) = n.
Proof. unfold row. rewrite length_fmap, length_seqZ. lia. Qed.

Lemma row_cons base bs n : row base bs 0 (S n) = row base bs 0 n ++ [base + Z.of_nat n * bs].
Proof.
  unfold row. replace (Z.of_nat (S n)) with (Z.of_nat n + 1) by lia. rewrite seqZ_app by lia. by rewrite fmap_app.
Qed.

Lemma row_nodup base bs i n : 0 < bs -> NoDup (row base bs i n).
Proof. intros Hb. unfold row. apply NoDup_fmap_2_strong; [|apply NoDup_seqZ]. intros x y _ _ H. nia. Qed.

Lemma row_head base bs n : exists l, row base bs 0 (S n) = base :: l.
Proof. unfold row. rewrite seqZ_cons by lia. cbn [fmap list_fmap]. eexists. f_equal. lia. Qed.

Section Blocks.
Context (cfg : config).

Lemma write_blocks_ok n : forall m class base bs stamp head tail l,
  0 < bs -> 0 < base -> base + Z.of_nat n * bs < 2 ^ 56 -> 0 <= head < 2 ^ 56 ->
  chain m head l 0 -> (forall a, a ∈ row base bs 0 n -> a ∉ l) ->
  exists m', write_blocks cfg n m class base bs stamp head tail =
      (m', match n with O => head | _ => base end, if head =? null then match n with O => tail | S i => base + Z.of_nat i * bs end else tail) /\
    chain m' (match n with O => head | _ => base end) (row base bs 0 n ++ l) 0 /\
    (forall a, a ∉ row base bs 0 n -> m' !! a = m !! a) /\
    (forall a, a ∈ row base bs 0 n -> exists v, 0 <= v < 2 ^ 56 /\ m' !! a = Some (mkHeader v ZERO_FLAG class (FREED_MAGIC cfg) stamp)).
Proof.
  induction n as [|n IH]; intros m class base bs stamp head tail l Hbs Hb0 Hend Hh Hc Hd; cbn [write_blocks].
  - exists m. split; [by case_match|]. split; [done|]. split; [done|]. by intros a ?%not_elem_of_nil.
  - rewrite wmul_small, wadd_small by nia. set (cur := base + Z.of_nat n * bs). rewrite row_cons. fold cur.
    assert (Hcur : cur ∉ row base bs 0 n) by (rewrite elem_of_row; unfold cur; intros (j & Hj & He); nia).
    set (hd := mkHeader head ZERO_FLAG class (FREED_MAGIC cfg) stamp).
    destruct (IH (<[cur := hd]> m) class base bs stamp cur (if head =? null then cur else tail) (cur :: l)) as (m' & Hr & Hch & Hout & Hin); try done.
    + lia.
    + unfold cur. nia.
    + cbn [chain]. split; [done|]. split; [unfold cur; nia|]. exists hd. rewrite lookup_insert_eq. split; [done|]. apply chain_insert; [|done].
      apply Hd. rewrite row_cons. apply elem_of_app. right. by left.
    + intros a Ha. rewrite elem_of_cons. intros [->|Hal]; [done|]. revert Hal. apply Hd. rewrite row_cons. apply elem_of_app. by left.
    + exists m'. rewrite Hr. destruct (Z.eqb_spec cur null) as [|_]; [unfold cur in *; nia|]. split.
      { destruct n; [|done]. do 2 f_equal; unfold cur; lia. }
      split; [rewrite <- app_assoc; destruct n; [unfold cur in *; cbn [app] in *|]; [replace base with (base + Z.of_nat 0 * bs) at 1 by lia|]; exact Hch|]. split.
      * intros a Ha. rewrite elem_of_app, list_elem_of_singleton in Ha. rewrite Hout by tauto. apply lookup_insert_ne. intros ->. tauto.
      * intros a [Ha|Ha%list_elem_of_singleton]%elem_of_app; [by apply Hin|]. subst a. exists head. split; [done|]. rewrite Hout by done. by rewrite lookup_insert_eq.
Qed.
End Blocks.

(** ** The invariant *)

(** What the rest of the allocator asks of the operations on small blocks: to keep
    apart from its bytes, to leave the headers and the words in them, to keep what is
    mapped and what is owned, and not to touch the big allocations. *)
Class frame := mkFrame {
  fr_bytes : Z -> Prop;
  fr_heads : gset Z;
  fr_mapped : Z -> Prop;
  fr_owned : Z -> Prop;
  fr_raw : gmap Z Z;
  fr_same : RBTree -> Buddy -> Prop;
}.

Section Inv.
Context {K : Type} `{!Kernel K} `{!KernelSpec K} {Fr : frame} (cfg : config) (cpus : Z).
Implicit Types (h : heap K) (ts : gmap nat tls) (C B : gmap Z Z) (A M W : gset Z).

Abbreviation bsz := block_size_of.
Abbreviation total c := (span_total c (block_size_of c)).

(** The span at [m] of class [c], with [j] blocks carved. *)
Record span_at (spans : gmap Z MetaData) (m c : Z) (x : MetaData) (j : Z) : Prop := {
  sa_class : 0 <= c < NUM_SIZE_CLASSES;
  sa_addr : 0 < m /\ (4096 | m) /\ m + page_bytes (total c) <= 2 ^ 47;
  sa_live : spans !! m = Some x;
  sa_fields : md_start x = m /\ md_end x = m + total c /\ 0 <= md_node_id x;
  sa_next : md_next x = m + 48 + j * bsz c;
  sa_cursor : 0 <= j <= span_blocks c;
}.

(** The spans [C] with their classes and the blocks [B] carved from them. *)
Record spans_inv h C B : Prop := {
  si_span m c : C !! m = Some c -> exists x j, span_at (hp_spans h) m c x j;
  si_apart m m' c c' y : C !! m = Some c -> C !! m' = Some c' -> m <= y < m + total c -> m' <= y < m' + total c' -> m = m';
  si_block a c : B !! a = Some c <-> exists m x j i, C !! m = Some c /\ span_at (hp_spans h) m c x j /\ 0 <= i < j /\ a = m + 48 + i * bsz c;
}.

(** The bytes of the spans belong to them and are owned. *)
Record pages_inv h C (L : nat -> list Z) : Prop := {
  pv_pages : hp_pages_once h = true /\ page_inv (hp_pages h) L \/ hp_pages h = PageAllocator_new (hp_kern h);
  pv_bytes m c y : C !! m = Some c -> m <= y < m + page_bytes (total c) -> mapped (hp_kern h) y /\ ~ page_avail (hp_pages h) L y;
  pv_radix : radix_wf (hp_radix h);
  pv_owned m c y : C !! m = Some c -> m <= y < m + total c -> Radix.get (hp_radix h) (y / CHUNK_SIZE) = true;
  pv_apart y : fr_bytes y -> (forall k : K, ~ mapped k y) \/
    mapped (hp_kern h) y /\ ~ page_avail (hp_pages h) L y /\ forall m c, C !! m = Some c -> ~ m <= y < m + page_bytes (total c);
  pv_mapped y : fr_mapped y -> mapped (hp_kern h) y;
  pv_kept j : 0 <= j < 2 ^ 44 -> fr_owned j -> Radix.get (hp_radix h) j = true;
}.

(** The thread [t] has the span [m] in its slot for the class [c]. *)
Definition in_slot ts (m : Z) (t : nat) (c : nat) : Prop := exists th, ts !! t = Some th /\ tb_free (THREAD_BULK th) !! c = Some m.

Record tls_ok (th : tls) : Prop := {
  tk_free : length (tb_free (THREAD_BULK th)) = class_count;
  tk_transfer : length (TRANSFER_BATCHING th) = class_count;
  tk_fill : length (BULK_FILL_BATCHING th) = class_count;
}.

(** The span at [m] has blocks left. *)
Definition open_span (spans : gmap Z MetaData) (m : Z) : Prop := exists x, spans !! m = Some x /\ md_next x <> md_end x.

(** The span [m] is in the queue or in a slot. *)
Definition waiting ts (S : stacks) (m : Z) : Prop := (exists s, m ∈ S s) \/ m <> 0 /\ exists t c, in_slot ts m t c.

(** Unfinished spans: each in the queue, in one slot, or in hand ([W]). *)
Record queue_inv h ts C W (S : stacks) : Prop := {
  qv_rep : queue_rep (hp_queue h) (hp_spans h) S;
  qv_class s a : a ∈ S s -> C !! a = Some (Z.of_nat s.2);
  qv_slot m t c : in_slot ts m t c -> m <> 0 -> C !! m = Some (Z.of_nat c) /\ (forall s, m ∉ S s) /\ forall t' c', in_slot ts m t' c' -> t' = t;
  qv_hand m : m ∈ W -> m <> 0 /\ is_Some (C !! m) /\ (forall s, m ∉ S s) /\ forall t c, ~ in_slot ts m t c;
  qv_tls t th : ts !! t = Some th -> tls_ok th;
  qv_open m : waiting ts S m -> open_span (hp_spans h) m;
}.

(** The header of a block of class [c]; the blocks of [M] are allocated. *)
Definition header_ok M (a c : Z) (x : Header) : Prop :=
  h_class x = c /\ h_magic x = (if decide (a ∈ M) then MAGIC cfg else FREED_MAGIC cfg) /\ 0 <= h_next x < 2 ^ 56.

Definition big_header (x : Header) : Prop := h_magic x = BIG_MAGIC cfg /\ 0 <= h_next x < 2 ^ 56.

(** The blocks, of which those of [A] are on no list, and the headers of the rest
    of the allocator. *)
Record blocks_inv h B A M : Prop := {
  bv_slab : exists Q, spread cpus (fun c a => B !! a = Some c) (dom B) (hp_slab h) A Q;
  bv_dom a : is_Some (sl_mem (hp_slab h) !! a) -> is_Some (B !! a) \/ a ∈ fr_heads;
  bv_header a c x : B !! a = Some c -> sl_mem (hp_slab h) !! a = Some x -> header_ok M a c x;
  bv_big a : a ∈ fr_heads -> fr_bytes a /\ exists x, sl_mem (hp_slab h) !! a = Some x /\ big_header x;
}.

Record heap_inv h ts C B A M W : Prop := {
  hi_spans : spans_inv h C B;
  hi_pages : exists L, pages_inv h C L;
  hi_queue : exists S, queue_inv h ts C W S;
  hi_blocks : blocks_inv h B A M;
}.

Lemma spread_mono cs (P P' : Z -> Z -> Prop) U s held Q : (forall c a, P c a -> P' c a) -> spread cs P U s held Q -> spread cs P' U s held Q.
Proof. intros HP [S1 S2 S3 S4 S5]. constructor; try done. intros k p c a Ha. by eapply HP, S5. Qed.

(** New blocks, held by whoever carved them. *)
Lemma spread_carve P U s held Q bs (mem' : gmap Z Header) :
  spread cpus P U s held Q -> (forall a, a ∈ bs -> a ∉ U /\ block_addr a /\ is_Some (mem' !! a)) ->
  (forall a, a ∈ U -> mem' !! a = sl_mem s !! a) ->
  spread cpus P (U ∪ list_to_set bs) (mkSlab (sl_inner s) mem') (held ∪ list_to_set bs) Q.
Proof.
  intros [S1 S2 S3 S4 S5] Hbs Hm. assert (HU : forall k p c a, a ∈ Q k p c -> a ∈ U) by (intros; apply S3; right; eauto).
  constructor; [|by destruct S2| | |done].
  - destruct S1 as [R1 R2 R3 R4 R5 R6 R7 R8 R9 R10 R11 R12 R13]. constructor; try done. intros k p c Hv.
    eapply chain_frame; [|by apply R5]. intros a Ha. by eapply Hm, HU.
  - intros a. rewrite !elem_of_union, S3, !elem_of_list_to_set. tauto.
  - intros a. rewrite elem_of_union, elem_of_list_to_set. cbn [sl_mem]. intros [Ha|Ha].
    + destruct (S4 a Ha) as (H1 & H2 & H3). rewrite Hm; [done|]. apply S3. by left.
    + destruct (Hbs a Ha) as (H1 & H2 & H3). split; [done|]. split; [done|]. intros k p c Hq. by eapply H1, HU.
Qed.

(** ** Geometry *)

Lemma span_at_unique spans m c x x' j j' : span_at spans m c x j -> span_at spans m c x' j' -> x' = x /\ j' = j.
Proof.
  intros [H1 _ H2 _ H3 _] [_ _ H2' _ H3' _]. simplify_eq. split; [done|]. destruct (class_facts_of c H1) as [F1 _ F3 _ _ _ _].
  rewrite H3 in H3'. nia.
Qed.

Lemma block_inside m c i : 0 <= c < NUM_SIZE_CLASSES -> 0 <= i < span_blocks c ->
  m + 48 <= m + 48 + i * bsz c /\ m + 48 + i * bsz c + bsz c <= m + total c.
Proof. intros Hc Hi. destruct (class_facts_of c Hc) as [F1 _ F3 F4 _ _ _]. rewrite F4. nia. Qed.

(** A block lies in its span. *)
Lemma block_inside_span h C B a c :
  spans_inv h C B -> B !! a = Some c -> exists m, C !! m = Some c /\ 0 <= c < NUM_SIZE_CLASSES /\ forall y, a <= y < a + bsz c -> m <= y < m + total c.
Proof.
  intros HS (m & x & j & i & Hm & Hs & Hi & ->)%(si_block _ _ _ HS). pose proof (sa_cursor _ _ _ _ _ Hs). pose proof (sa_class _ _ _ _ _ Hs) as Hc.
  exists m. split; [done|]. split; [done|]. intros y Hy. pose proof (block_inside m c i Hc ltac:(lia)). lia.
Qed.

(** Different blocks do not overlap. *)
Lemma blocks_apart h C B a a' c c' y :
  spans_inv h C B -> B !! a = Some c -> B !! a' = Some c' -> a <= y < a + bsz c -> a' <= y < a' + bsz c' -> a = a'.
Proof.
  intros [S1 S2 S3] (m & x & j & i & Hm & Hs & Hi & ->)%S3 (m' & x' & j' & i' & Hm' & Hs' & Hi' & ->)%S3 Hy Hy'.
  pose proof (sa_cursor _ _ _ _ _ Hs). pose proof (sa_cursor _ _ _ _ _ Hs'). pose proof (sa_class _ _ _ _ _ Hs) as Hc. pose proof (sa_class _ _ _ _ _ Hs') as Hc'.
  pose proof (block_inside m c i Hc ltac:(lia)). pose proof (block_inside m' c' i' Hc' ltac:(lia)).
  assert (m' = m) as -> by (symmetry; eapply (S2 m m' c c' y); done || lia). simplify_eq. assert (i = i'); [|congruence]. nia.
Qed.

Lemma not_carved h C B m c x j i :
  spans_inv h C B -> C !! m = Some c -> span_at (hp_spans h) m c x j -> j <= i < span_blocks c -> B !! (m + 48 + i * bsz c) = None.
Proof.
  intros HS Hm Hs Hi. destruct (B !! (m + 48 + i * bsz c)) as [c'|] eqn:HB; [|done]. exfalso.
  apply (si_block _ _ _ HS) in HB as (m' & x' & j' & i' & Hm' & Hs' & Hi' & He).
  pose proof (sa_cursor _ _ _ _ _ Hs). pose proof (sa_cursor _ _ _ _ _ Hs'). pose proof (sa_class _ _ _ _ _ Hs) as Hc. pose proof (sa_class _ _ _ _ _ Hs') as Hc'.
  pose proof (block_inside m c i Hc ltac:(lia)). pose proof (block_inside m' c' i' Hc' ltac:(lia)).
  destruct (class_facts_of c Hc) as [F1 _ F3 _ _ _ _]. destruct (class_facts_of c' Hc') as [F1' _ F3' _ _ _ _].
  assert (m' = m) as -> by (symmetry; eapply (si_apart _ _ _ HS m m' c c' (m + 48 + i * bsz c)); done || lia). simplify_eq.
  destruct (span_at_unique _ _ _ _ _ _ _ Hs Hs') as [-> ->]. nia.
Qed.

(** Blocks added to the map of blocks. *)
Definition add_blocks (bs : list Z) (c : Z) B : gmap Z Z := foldr (fun a B => <[a := c]> B) B bs.

Lemma add_blocks_lookup bs c B a : add_blocks bs c B !! a = if decide (a ∈ bs) then Some c else B !! a.
Proof.
  induction bs as [|b bs IH]; [done|]. cbn [add_blocks foldr]. destruct (decide (a = b)) as [->|Hne].
  - rewrite lookup_insert_eq, decide_True; [done|by left].
  - rewrite lookup_insert_ne by done. fold (add_blocks bs c B). rewrite IH. apply decide_ext. rewrite elem_of_cons. tauto.
Qed.

Lemma add_blocks_dom bs c B : dom (add_blocks bs c B) = dom B ∪ list_to_set bs.
Proof. induction bs as [|b bs IH]; cbn [add_blocks foldr list_to_set]; [set_solver|]. rewrite dom_insert_L. fold (add_blocks bs c B). rewrite IH. set_solver. Qed.

(** The next [n] blocks of a span. *)
Definition next_blocks (m c j : Z) (n : nat) : list Z := row (m + 48 + j * bsz c) (bsz c) 0 n.

Lemma elem_of_next m c j n a : a ∈ next_blocks m c j n <-> exists i, j <= i < j + Z.of_nat n /\ a = m + 48 + i * bsz c.
Proof.
  unfold next_blocks. rewrite elem_of_row. split; intros (i & Hi & ->); [exists (i + j)|exists (i - j)]; split; lia.
Qed.

Lemma carve_span_at spans m c x j n :
  span_at spans m c x j -> j + Z.of_nat n <= span_blocks c ->
  span_at (<[m := with_cursor x (m + 48 + (j + Z.of_nat n) * bsz c)]> spans) m c (with_cursor x (m + 48 + (j + Z.of_nat n) * bsz c)) (j + Z.of_nat n).
Proof. intros [H1 H2 H3 H4 H5 H6] Hn. constructor; try done; [by rewrite lookup_insert_eq|lia]. Qed.

Lemma span_at_other spans m x' m' c x j : m' <> m -> span_at (<[m := x']> spans) m' c x j <-> span_at spans m' c x j.
Proof. intros Hne. split; intros [H1 H2 H3 H4 H5 H6]; constructor; try done; [by rewrite lookup_insert_ne in H3|by rewrite lookup_insert_ne]. Qed.

Lemma carve_spans h h' C B m c x j n :
  spans_inv h C B -> C !! m = Some c -> span_at (hp_spans h) m c x j -> j + Z.of_nat n <= span_blocks c ->
  hp_spans h' = <[m := with_cursor x (m + 48 + (j + Z.of_nat n) * bsz c)]> (hp_spans h) ->
  spans_inv h' C (add_blocks (next_blocks m c j n) c B).
Proof.
  intros HS Hm Hs Hn Hh. pose proof (carve_span_at _ _ _ _ _ n Hs Hn) as Hs'. rewrite <- Hh in Hs'. constructor; [|apply (si_apart _ _ _ HS)|].
  - intros m' c' Hm'. destruct (decide (m' = m)) as [->|Hne]; [simplify_eq; eauto|]. destruct (si_span _ _ _ HS m' c' Hm') as (x' & j' & Hx). exists x', j'. rewrite Hh. by apply span_at_other.
  - intros a c'. rewrite add_blocks_lookup. case_decide as Ha.
    + split.
      * intros [= <-]. apply elem_of_next in Ha as (i & Hi & ->). pose proof (sa_cursor _ _ _ _ _ Hs). eexists m, _, _, i. split; [done|]. split; [done|]. split; [lia|done].
      * intros (m' & x' & j' & i' & Hm' & Hsm & Hi' & ->). apply elem_of_next in Ha as (i & Hi & He).
        destruct (decide (m' = m)) as [->|Hne]; [congruence|]. exfalso. apply Hne. rewrite Hh in Hsm. apply span_at_other in Hsm; [|done].
        pose proof (sa_cursor _ _ _ _ _ Hs). pose proof (sa_cursor _ _ _ _ _ Hsm). pose proof (sa_class _ _ _ _ _ Hs) as Hc. pose proof (sa_class _ _ _ _ _ Hsm) as Hc'.
        pose proof (block_inside m c i Hc ltac:(lia)). pose proof (block_inside m' c' i' Hc' ltac:(lia)). destruct (class_facts_of c Hc) as [F1 _ F3 _ _ _ _]. destruct (class_facts_of c' Hc') as [F1' _ F3' _ _ _ _].
        eapply (si_apart _ _ _ HS m' m c' c (m + 48 + i * bsz c)); done || lia.
    + rewrite (si_block _ _ _ HS). split.
      * intros (m' & x' & j' & i & Hm' & Hsm & Hi & ->). destruct (decide (m' = m)) as [->|Hne].
        -- simplify_eq. destruct (span_at_unique _ _ _ _ _ _ _ Hs Hsm) as [-> ->]. eexists m, _, _, i. split; [done|]. split; [done|]. split; [lia|done].
        -- exists m', x', j', i. split; [done|]. split; [|done]. rewrite Hh. by apply span_at_other.
      * intros (m' & x' & j' & i & Hm' & Hsm & Hi & ->). destruct (decide (m' = m)) as [->|Hne].
        -- simplify_eq. destruct (span_at_unique _ _ _ _ _ _ _ Hs' Hsm) as [-> ->]. exists m, x, j, i. split; [done|]. split; [done|]. split; [|done].
           destruct (decide (i < j)); [lia|]. destruct Ha. apply elem_of_next. exists i. split; [lia|done].
        -- rewrite Hh in Hsm. apply span_at_other in Hsm; [|done]. eauto 10.
Qed.

(** ** Carving a batch *)

Lemma chain_links {T} `{!SLinked T} (m m' : gmap Z T) hd l q :
  (forall a x, a ∈ l -> m !! a = Some x -> exists x', m' !! a = Some x' /\ s_next x' = s_next x) -> chain m hd l q -> chain m' hd l q.
Proof.
  revert hd. induction l as [|a l IH]; intros hd Hm; [done|]. cbn [chain]. intros (-> & H0 & x & Hx & Hc).
  destruct (Hm a x ltac:(by left) Hx) as (x' & Hx' & Hn). split; [done|]. split; [done|]. exists x'. split; [done|]. rewrite Hn. apply IH; [|done].
  intros b y Hb. apply Hm. by right.
Qed.

Lemma queue_rep_links q (m m' : gmap Z MetaData) S :
  (forall a x, m !! a = Some x -> exists x', m' !! a = Some x' /\ md_next_page x' = md_next_page x) -> queue_rep q m S -> queue_rep q m' S.
Proof. intros Hm [Q1 Q2 Q3 Q4 Q5]. constructor; try done. intros s hd Hh. eapply chain_links; [|by apply Q2]. intros a x _. apply Hm. Qed.

(** A span in hand is not waiting. *)
Lemma hand_not_waiting h ts C W S m : queue_inv h ts C W S -> m ∈ W -> ~ waiting ts S m.
Proof. intros HQ Hm. destruct (qv_hand _ _ _ _ _ HQ m Hm) as (_ & _ & H1 & H2). intros [[s Hs]|(_ & t & c & Hs)]; [by apply (H1 s)|by apply (H2 t c)]. Qed.

(** The invariant of the spans in the queue does not see the cursors of the spans
    in hand. *)
Lemma queue_inv_links h h' ts C W S :
  hp_queue h' = hp_queue h ->
  (forall a x, hp_spans h !! a = Some x -> exists x', hp_spans h' !! a = Some x' /\ md_next_page x' = md_next_page x /\ (a ∈ W \/ md_next x' = md_next x /\ md_end x' = md_end x)) ->
  queue_inv h ts C W S -> queue_inv h' ts C W S.
Proof.
  intros Hq Hm HQ. pose proof HQ as [Q1 Q2 Q3 Q4 Q5 Q6]. constructor; try done.
  - rewrite Hq. eapply queue_rep_links; [|done]. intros a x (x' & H1 & H2 & _)%Hm. eauto.
  - intros m Hw. destruct (Q6 m Hw) as (x & Hx & Hne). destruct (Hm m x Hx) as (x' & Hx' & _ & [Hin|[E1 E2]]); [by destruct (hand_not_waiting _ _ _ _ _ _ HQ Hin)|].
    exists x'. split; [done|]. congruence.
Qed.

Lemma pages_inv_frame h h' C L :
  hp_pages h' = hp_pages h -> hp_pages_once h' = hp_pages_once h -> hp_root h' = hp_root h -> hp_words h' = hp_words h -> pages_inv h C L -> pages_inv h' C L.
Proof.
  intros E1 E2 E3 E4 [P1 P2 P3 P4 P5 P6 P7]. assert (Ek : hp_kern h' = hp_kern h) by (unfold hp_kern; by rewrite E1).
  assert (Er : hp_radix h' = hp_radix h) by (unfold hp_radix; congruence). constructor; rewrite ?E1, ?E2, ?Ek, ?Er; done.
Qed.

(** The blocks [bs] a call hands out, as a chain from [hd] to [tl]. *)
Record batch_ok h (hd tl n : Z) (bs : list Z) : Prop := {
  bo_chain : exists q, chain (sl_mem (hp_slab h)) hd bs q;
  bo_last : exists l, bs = l ++ [tl];
  bo_count : n = Z.of_nat (length bs);
  bo_nodup : NoDup bs;
}.

Lemma header_ok_new M B a c v stamp : a ∉ M -> 0 <= v < 2 ^ 56 -> header_ok M a c (mkHeader v ZERO_FLAG c (FREED_MAGIC cfg) stamp).
Proof. intros Ha Hv. split; [done|]. cbn. rewrite decide_False by done. done. Qed.

Lemma remaining_ok spans m c x j : span_at spans m c x j -> remaining_blocks x (bsz c) = span_blocks c - j.
Proof.
  intros [H1 H2 H3 H4 H5 H6]. destruct H4 as (_ & He & _). destruct (class_facts_of c H1) as [F1 _ F3 F4 _ _ _].
  unfold remaining_blocks, saturating_sub. rewrite He, H5, F4. rewrite Z.max_r by nia.
  replace (m + (48 + span_blocks c * bsz c) - (m + 48 + j * bsz c)) with ((span_blocks c - j) * bsz c) by lia. apply Z.div_mul. lia.
Qed.

Lemma block_address h C B m c x j i :
  spans_inv h C B -> C !! m = Some c -> span_at (hp_spans h) m c x j -> 0 <= i < span_blocks c ->
  0 < m + 48 + i * bsz c /\ m + 48 + i * bsz c + bsz c <= 2 ^ 47.
Proof.
  intros HS Hm Hs Hi. pose proof (sa_class _ _ _ _ _ Hs) as Hc. destruct (sa_addr _ _ _ _ _ Hs) as (H0 & _ & Hend).
  pose proof (block_inside m c i Hc Hi). pose proof (class_facts_of c Hc) as [F1 _ F3 F4 F5 F6 _].
  destruct (page_bytes_ok (total c)) as (Hp & _); [lia|]. lia.
Qed.

Lemma held_blocks h B A M a : blocks_inv h B A M -> a ∈ A -> is_Some (B !! a) /\ block_addr a /\ is_Some (sl_mem (hp_slab h) !! a).
Proof.
  intros [[Q HS] _ _ _] Ha. destruct (sp_held _ _ _ _ _ _ HS a Ha) as (H1 & H3 & _). split; [|done].
  apply elem_of_dom. apply (sp_all _ _ _ _ _ _ HS). by left.
Qed.

(** The pages of a span are nobody else's. *)
Lemma pages_not_framed h C L m c y : pages_inv h C L -> C !! m = Some c -> m <= y < m + page_bytes (total c) -> ~ fr_bytes y.
Proof.
  intros HP Hm Hy Hf. destruct (pv_apart _ _ _ HP y Hf) as [Hno|(_ & _ & Hno)]; [|by apply (Hno m c Hm)]. destruct (pv_bytes _ _ _ HP m c y Hm Hy) as [Hy' _]. by apply (Hno _ Hy').
Qed.

Lemma span_not_framed h C L m c y : pages_inv h C L -> C !! m = Some c -> 0 <= c < NUM_SIZE_CLASSES -> m <= y < m + total c -> ~ fr_bytes y.
Proof.
  intros HP Hm Hc Hy. apply (pages_not_framed h C L m c y HP Hm). destruct (class_facts_of c Hc) as [F1 _ F3 F4 _ F6 _].
  destruct (page_bytes_ok (total c)) as (Hp & _); [nia|]. lia.
Qed.

Lemma init_blocks_ok h ts C B A M W m c max stamp :
  heap_inv h ts C B A M W -> M ⊆ A -> C !! m = Some c -> m ∈ W -> 1 <= max ->
  (exists x, span_at (hp_spans h) m c x (span_blocks c) /\ init_blocks cfg h c m (bsz c) max stamp = Ret (null, null, 0, h)) \/
  exists hd tl n h' bs B', init_blocks cfg h c m (bsz c) max stamp = Ret (hd, tl, n, h') /\ batch_ok h' hd tl n bs /\ 1 <= n <= max /\
    heap_inv h' ts C B' (A ∪ list_to_set bs) M W /\ B ⊆ B' /\ (forall a, a ∈ bs -> B !! a = None /\ B' !! a = Some c).
Proof.
  intros [HS [L HP] [S HQ] HB] HMA Hm HmW Hmax. destruct (si_span _ _ _ HS m c Hm) as (x & j & Hs). unfold init_blocks. rewrite (sa_live _ _ _ _ _ Hs). cbn [from_option mbind outcome_bind].
  rewrite (remaining_ok _ _ _ _ _ Hs). pose proof (sa_cursor _ _ _ _ _ Hs) as Hj. destruct (Z.eqb_spec (span_blocks c - j) 0) as [H0|H0].
  { left. exists x. assert (j = span_blocks c) as -> by lia. done. }
  right. set (n := Z.min (span_blocks c - j) max). assert (Hn : 1 <= n <= max /\ j + n <= span_blocks c) by (unfold n; lia). rewrite (sa_next _ _ _ _ _ Hs). pose proof (sa_class _ _ _ _ _ Hs) as Hc. pose proof (class_facts_of c Hc) as [F1 F2 F3 F4 F5 F6 _].
  destruct (sa_addr _ _ _ _ _ Hs) as (Hm0 & _ & Hend). set (base := m + 48 + j * bsz c). destruct (Z.to_nat n) as [|N'] eqn:HN'; [lia|]. set (N := Datatypes.S N'). assert (HN : Z.of_nat N = n) by (unfold N; lia).
  pose proof (block_address _ _ _ _ _ _ _ (j + n - 1) HS Hm Hs ltac:(lia)) as [_ Hlast]. set (bs := next_blocks m c j N).
  destruct (write_blocks_ok cfg N (sl_mem (hp_slab h)) c base (bsz c) stamp 0 0 []) as (mem' & Hw & Hch & Hout & Hin); [lia|nia|unfold base; nia|lia|done|by intros a _ ?%not_elem_of_nil|].
  rewrite app_nil_r in Hch. change (row base (bsz c) 0 N) with bs in Hch, Hout, Hin.
  assert (Hfresh : forall a, a ∈ bs -> B !! a = None /\ block_addr a).
  { intros a (i & Hi & ->)%elem_of_next. split; [apply (not_carved h C B m c x j i HS Hm Hs); lia|]. destruct (block_address _ _ _ _ _ _ _ i HS Hm Hs ltac:(lia)). unfold block_addr. lia. }
  rewrite Hw. cbn [Z.eqb]. rewrite wmul_small, wadd_small by nia.
  replace (base + n * bsz c) with (m + 48 + (j + Z.of_nat N) * bsz c) by (unfold base; rewrite HN; lia).
  eexists base, _, n, _, bs, (add_blocks bs c B). split; [done|]. split; [|split; [lia|split]].
  - constructor; cbn; [by exists 0| |unfold bs, next_blocks; by rewrite row_length|apply row_nodup; lia].
    exists (row base (bsz c) 0 N'). unfold bs, next_blocks, N. by rewrite row_cons.
  - constructor.
    + apply (carve_spans h _ C B m c x j N HS Hm Hs); [lia|done].
    + exists L. by apply (pages_inv_frame h).
    + exists S. apply (queue_inv_links h); [done| |exact HQ]. cbn. intros a y Hy. destruct (decide (a = m)) as [->|]; [|exists y; rewrite lookup_insert_ne by done; auto].
      rewrite (sa_live _ _ _ _ _ Hs) in Hy. simplify_eq. eexists. rewrite lookup_insert_eq. auto.
    + destruct HB as [[Q HQs] B2 B3 B4]. constructor; cbn.
      * exists Q. rewrite add_blocks_dom. apply spread_carve.
        -- eapply spread_mono; [|exact HQs]. intros c' a Ha. cbn in Ha |- *. rewrite add_blocks_lookup. rewrite decide_False; [done|]. intros Hbs%Hfresh. destruct Hbs. congruence.
        -- intros a Ha. destruct (Hfresh a Ha) as [H1 H2]. split; [by apply not_elem_of_dom|]. split; [done|]. destruct (Hin a Ha) as (v & _ & Hv). eauto.
        -- intros a [c' Ha]%elem_of_dom. apply Hout. intros Hbs%Hfresh. destruct Hbs. congruence.
      * intros a Ha. rewrite add_blocks_lookup. case_decide as Hab; [by left|]. rewrite Hout in Ha by done. by apply B2.
      * intros a c' y. rewrite add_blocks_lookup. case_decide as Hab.
        -- intros [= <-] Hy. destruct (Hin a Hab) as (v & Hv & Hy'). rewrite Hy in Hy'. simplify_eq. apply (header_ok_new M B); [|done].
           intros HaM. destruct (held_blocks h B A M a) as [[c' Hc'] _]; [by constructor; [exists Q|..]|set_solver|]. destruct (Hfresh a Hab). congruence.
        -- intros Ha Hy. rewrite Hout in Hy by done. by apply B3.
      * intros a Ha. destruct (B4 a Ha) as [Hf Hx]. split; [done|]. rewrite Hout; [done|]. intros (i & Hi & ->)%elem_of_next.
        pose proof (block_inside m c i Hc ltac:(lia)). apply (span_not_framed h C L m c (m + 48 + i * bsz c) HP Hm Hc); [lia|done].
  - split.
    + apply map_subseteq_spec. intros a c' Ha. rewrite add_blocks_lookup, decide_False; [done|]. intros Hbs%Hfresh. destruct Hbs. congruence.
    + intros a Ha. split; [by apply Hfresh|]. by rewrite add_blocks_lookup, decide_True.
Qed.
End Inv.
