(* ===== verification/HeapFill.v ===== *)
(** * Filling the caches keeps the invariant

    New spans, spans of the queue and of the thread's slots, and a whole
    [bulk_fill]. *)

From S2P Require Import Prelude Types SizeClasses Kernel Radix RadixProofs RBTree Buddy BuddyGrow PageAllocator PageProofs PageSpec Numa NumaSpec Predictor SList PendingQueue Rseq Bitmap SlabCache SlabProofs SlabSteal SlabSpec Heap BulkFill Alloc HeapInv.

Section Fill.
Context {K : Type} `{!Kernel K} `{!KernelSpec K} {Fr : frame} (cfg : config) (cpus : Z) (Harena : 0 <= ARENA_SIZE cfg <= 2 ^ 62).
Implicit Types (h : heap K) (ts : gmap nat tls) (C B : gmap Z Z) (A M W : gset Z).

Abbreviation bsz := block_size_of.
Abbreviation total c := (span_total c (block_size_of c)).
Abbreviation inv := (heap_inv cfg cpus).

(** ** The queue of pending spans *)

(** Only the link of a span changes. *)
Definition same_body (m m' : gmap Z MetaData) : Prop := forall a x, m !! a = Some x -> exists v, m' !! a = Some (with_s_next v x).

Lemma same_body_insert (m : gmap Z MetaData) a x v : m !! a = Some x -> same_body m (<[a := with_s_next v x]> m).
Proof.
  intros Hx b y Hy. destruct (decide (b = a)) as [->|]; [simplify_eq; exists v; by rewrite lookup_insert_eq|].
  exists (s_next y). rewrite lookup_insert_ne by done. by destruct y.
Qed.

Lemma same_body_refl (m : gmap Z MetaData) : same_body m m.
Proof. intros a x Hx. exists (s_next x). by destruct x. Qed.

Lemma queue_pop_body q m n c a q' m' : queue_pop q m n c = Ret (a, (q', m')) -> same_body m m'.
Proof.
  unfold queue_pop. destruct (PendingQueue.slot q n c) as [s|]; [|intros [= _ _ <-]; apply same_body_refl]. destruct (PendingQueue.get_head q s) as [hd| |]; [|done..]. cbn [mbind outcome_bind].
  case_match; [intros [= _ _ <-]; apply same_body_refl|]. destruct (m !! hd) as [x|] eqn:Hx; [|done]. intros [= _ _ <-]. by apply same_body_insert.
Qed.

Lemma queue_insert_body q m c a q' m' : queue_insert q m c a = Ret (q', m') -> same_body m m'.
Proof.
  unfold queue_insert. destruct (m !! a) as [x|] eqn:Hx; [|done]. cbn [from_option mbind outcome_bind]. destruct (PendingQueue.slot q _ c) as [s|]; [|intros [= _ <-]; apply same_body_refl].
  destruct (PendingQueue.get_head q s) as [hd| |]; [|done..]. intros [= _ <-]. by apply same_body_insert.
Qed.

Lemma span_at_body spans spans' m c x j : same_body spans spans' -> span_at spans m c x j -> exists x', span_at spans' m c x' j.
Proof. intros Hb [H1 H2 H3 H4 H5 H6]. destruct (Hb m x H3) as [v Hv]. exists (with_s_next v x). by constructor. Qed.

Lemma span_at_body_inv h C B spans' m c x' j :
  spans_inv h C B -> C !! m = Some c -> same_body (hp_spans h) spans' -> span_at spans' m c x' j -> exists x, span_at (hp_spans h) m c x j.
Proof.
  intros HS Hm Hb Hs. destruct (si_span _ _ _ HS m c Hm) as (x & i & Hx). destruct (span_at_body _ _ _ _ _ _ Hb Hx) as [x2 Hx2].
  destruct (span_at_unique _ _ _ _ _ _ _ Hx2 Hs) as [_ ->]. eauto.
Qed.

Lemma spans_inv_body h h' C B : same_body (hp_spans h) (hp_spans h') -> spans_inv h C B -> spans_inv h' C B.
Proof.
  intros Hb HS. constructor; [|apply HS|].
  - intros m c Hm. destruct (si_span _ _ _ HS m c Hm) as (x & j & Hx). destruct (span_at_body _ _ _ _ _ _ Hb Hx) as [x' Hx']. eauto.
  - intros a c. rewrite (si_block _ _ _ HS). split; intros (m & x & j & i & Hm & Hs & Hi).
    + destruct (span_at_body _ _ _ _ _ _ Hb Hs) as [x' Hx']. eauto 10.
    + destruct (span_at_body_inv _ _ _ _ _ _ _ _ HS Hm Hb Hs) as [x' Hx']. eauto 10.
Qed.

Lemma open_body spans spans' m : same_body spans spans' -> open_span spans m -> open_span spans' m.
Proof. intros Hb (x & Hx & Hne). destruct (Hb m x Hx) as [v Hv]. exists (with_s_next v x). split; [done|]. by destruct x. Qed.

(** A change of the queue and the spans alone. *)
Lemma inv_respan h q spans ts ts' C B A M W W' S' :
  inv h ts C B A M W -> same_body (hp_spans h) spans -> queue_inv (set_spans h q spans) ts' C W' S' -> inv (set_spans h q spans) ts' C B A M W'.
Proof.
  intros [HS [L HP] _ HB] Hb HQ. constructor; [by apply (spans_inv_body h)|exists L; by apply (pages_inv_frame h)|by exists S'|by destruct HB].
Qed.

Lemma class_nat c : 0 <= c < NUM_SIZE_CLASSES -> (Z.to_nat c < class_count)%nat /\ Z.of_nat (Z.to_nat c) = c.
Proof. unfold class_count. lia. Qed.

Lemma upd_stack_sub Q s l s' a : (forall b, b ∈ l -> b ∈ Q s) -> a ∈ upd_stack Q s l s' -> a ∈ Q s'.
Proof. intros Hl. unfold upd_stack. case_decide; [subst; apply Hl|done]. Qed.

(** Taking a span from the queue: it is in hand then. *)
Lemma queue_pop_ok h ts C B A M node c :
  inv h ts C B A M ∅ -> 0 <= c < NUM_SIZE_CLASSES ->
  exists m q spans, queue_pop (hp_queue h) (hp_spans h) node (Z.to_nat c) = Ret (m, (q, spans)) /\
    (m = 0 /\ inv (set_spans h q spans) ts C B A M ∅ \/ m <> 0 /\ C !! m = Some c /\ inv (set_spans h q spans) ts C B A M {[m]}).
Proof.
  intros HI Hc. destruct (class_nat c Hc) as [Hn Hz]. destruct (hi_queue _ _ _ _ _ _ _ _ _ HI) as [S HQ].
  pose proof (pop_rep _ _ _ node (Z.to_nat c) (qv_rep _ _ _ _ _ HQ) Hn) as Hp.
  assert (Hsame : inv (set_spans h (hp_queue h) (hp_spans h)) ts C B A M ∅) by (eapply inv_respan; [done|apply same_body_refl|]; destruct HQ; by constructor).
  destruct (PendingQueue.slot (hp_queue h) node (Z.to_nat c)) as [s|] eqn:Hs; [|eexists 0, _, _; split; [exact Hp|by left]].
  destruct (S s) as [|m l] eqn:HSs; [eexists 0, _, _; split; [exact Hp|by left]|]. destruct Hp as (q & spans & Hr & HR & _).
  exists m, q, spans. split; [done|]. right. assert (Hin : m ∈ S s) by (rewrite HSs; by left). assert (Hs2 : s.2 = Z.to_nat c) by (unfold PendingQueue.slot in Hs; repeat case_match; by simplify_eq).
  destruct (queue_live _ _ _ _ _ (qv_rep _ _ _ _ _ HQ) Hin) as [H0 _]. split; [done|]. pose proof (qv_class _ _ _ _ _ HQ s m Hin) as HC. rewrite Hs2, Hz in HC. split; [done|].
  pose proof (qr_nodup _ _ _ (qv_rep _ _ _ _ _ HQ) s) as Hnd. rewrite HSs in Hnd. apply NoDup_cons in Hnd as [Hnl _].
  assert (Hsub : forall s' a, a ∈ upd_stack S s l s' -> a ∈ S s') by (intros s' a; apply upd_stack_sub; intros b Hb; rewrite HSs; by right).
  eapply (inv_respan h q spans ts ts _ _ _ _ ∅ {[m]} (upd_stack S s l)); [done|by eapply queue_pop_body|]. constructor; cbn; [done| | | |apply HQ|].
  - intros s' a Ha. by eapply qv_class, Hsub.
  - intros a t c' Hsl Ha. destruct (qv_slot _ _ _ _ _ HQ a t c' Hsl Ha) as (H1 & H2 & H3). split; [done|]. split; [|done]. intros s' Hs'. by eapply H2, Hsub.
  - intros a Ha%elem_of_singleton. subst a. split; [done|]. split; [by rewrite HC|]. split.
    + intros s'. unfold upd_stack. case_decide; [done|]. intros Hs'. by pose proof (qr_disjoint _ _ _ (qv_rep _ _ _ _ _ HQ) _ _ _ Hin Hs').
    + intros t c' Hsl. by apply (qv_slot _ _ _ _ _ HQ m t c' Hsl H0) in Hin.
  - intros a Hw. eapply open_body; [by eapply queue_pop_body|]. apply (qv_open _ _ _ _ _ HQ). destruct Hw as [[s' Hs']|Hw]; [left; exists s'; by apply Hsub|by right].
Qed.

(** ** New spans *)

Lemma pages_inv_kern h C L k :
  pages_inv h C L -> (forall y, mapped (hp_kern h) y -> mapped k y) -> pages_inv (set_kern h k) C L.
Proof.
  intros [P1 P2 P3 P4 P5 P6 P7] Hk. constructor; cbn.
  - destruct P1 as [[H1 H2]|H1]; [left; split; [done|by apply page_kernel]|right]. rewrite H1. done.
  - intros m c y Hm Hy. destruct (P2 m c y Hm Hy). auto.
  - by apply (radix_wf_mono (hp_radix h)).
  - done.
  - intros y Hy. destruct (P5 y Hy) as [?|(? & ?)]; auto.
  - auto.
  - done.
Qed.

(** [init] of a page allocator without a table. *)
Lemma init_new k n :
  mapped k VSYSCALL -> n <= 2 ^ 16 -> let p := PageAllocator.init (PageAllocator_new k) n in
  (forall y, mapped k y -> mapped (pg_kern p) y) /\ (page_inv p (fun _ => []) \/ p = PageAllocator_new (pg_kern p)).
Proof.
  intros Hv Hn p. pose proof (PageSpec.init_ok k n Hv Hn) as Hi. fold p in Hi. cbv zeta in Hi. unfold p, PageAllocator.init in *.
  destruct (mmap_anonymous _ _) as [[mem|] k1] eqn:Hm; cbn [pg_kern PageAllocator_new] in *; (split; [intros y; by apply (mmap_kept _ _ _ _ _ Hm)|]).
  - left. destruct Hi as [[Hi _]|Hi]; [exact Hi|done].
  - by right.
Qed.

Lemma pages_init_ok h ts C B A M n : inv h ts C B A M ∅ -> n <= 2 ^ 16 -> inv (pages_init h n) ts C B A M ∅.
Proof.
  intros [HS [L HP] [S HQ] HB] Hn. unfold pages_init. destruct (hp_pages_once h) eqn:Ho; [by constructor; eauto|].
  constructor; [by destruct HS| |exists S; by destruct HQ|by destruct HB]. destruct HP as [P1 P2 P3 P4 P5 P6 P7]. destruct P1 as [[? _]|P1]; [congruence|]. rewrite P1.
  destruct (init_new (hp_kern h) n (radix_process _ P3) Hn) as [Hmap Hcase]. set (p := PageAllocator.init _ _) in *.
  assert (Hno : forall L y, p = PageAllocator_new (pg_kern p) -> ~ page_avail p L y).
  { intros L0 y Hp (a & b & e & cur & _ & He & _). rewrite Hp in He. done. }
  assert (Hna : forall y, ~ page_avail p (fun _ => []) y).
  { intros y. destruct Hcase as [Hi|Hp]; [|by apply Hno]. intros (a & b & e & cur & (i & _ & Ha) & _). by apply not_elem_of_nil in Ha. }
  exists (fun _ => []). constructor; cbn.
  - destruct Hcase; [by left|by right].
  - intros m c y Hm Hy. destruct (P2 m c y Hm Hy) as [Hy1 _]. split; [by apply Hmap|done].
  - by apply (radix_wf_mono (hp_radix h)).
  - done.
  - intros y Hy. destruct (P5 y Hy) as [?|(Hy1 & _ & Hy2)]; [by left|right]. split; [by apply Hmap|done].
  - intros y Hy. by apply Hmap, P6.
  - done.
Qed.

(** The bytes taken were nobody's. *)
Lemma new_span_pages h C L p L' lo hi :
  pages_inv h C L -> hp_pages_once h = true -> page_inv p L' -> page_taken (hp_pages h) L p L' lo hi ->
  pages_inv (set_pages h p (hp_pages_once h)) C L' /\
  (forall m c y, C !! m = Some c -> m <= y < m + page_bytes (total c) -> ~ lo <= y < hi) /\
  (forall y, fr_bytes y -> ~ lo <= y < hi).
Proof.
  intros [P1 P2 P3 P4 P5 P6 P7] Ho Hp [T1 T2 T3]. split_and!.
  - assert (Hna : forall y, mapped (hp_kern h) y -> ~ page_avail (hp_pages h) L y -> ~ page_avail p L' y).
    { intros y H1 H2 Ha. destruct (T2 y Ha) as [?|[Hn _]]; [done|]. by apply Hn. }
    constructor; cbn; [by left| |by apply (radix_wf_mono (hp_radix h))|done| |by intros y Hy; apply T3, P6|done].
    + intros m c y Hm Hy. destruct (P2 m c y Hm Hy) as [H1 H2]. split; [by apply T3|by apply Hna].
    + intros y Hy. destruct (P5 y Hy) as [?|(H1 & H2 & H3)]; [by left|right]. split; [by apply T3|]. split; [by apply Hna|done].
  - intros m c y Hm Hy Hn. destruct (P2 m c y Hm Hy) as [H1 H2]. destruct (T1 y Hn) as [[?|?] _]; done.
  - intros y Hy Hn. destruct (T1 y Hn) as (Hor & Hy' & _). destruct (P5 y Hy) as [Hno|(H1 & H2 & _)]; [by apply (Hno _ Hy')|]. by destruct Hor.
Qed.

Lemma mul_total c : 0 <= c < NUM_SIZE_CLASSES -> 0 < total c <= page_bytes (total c) /\ total c <= 2 ^ 22.
Proof.
  intros Hc. destruct (class_facts_of c Hc) as [F1 _ F3 F4 F5 F6 _]. destruct (page_bytes_ok (total c)) as (H1 & _); [nia|]. nia.
Qed.

(** The bytes of the span [m] of class [c] become owned. *)
Lemma pages_owned h h0 C B L m c size :
  pages_inv h C L -> hp_pages_once h = true -> page_inv (hp_pages h) L -> spans_inv h0 C B -> 0 <= c < NUM_SIZE_CLASSES -> 0 < m -> total c <= size <= page_bytes (total c) -> m + page_bytes (total c) <= 2 ^ 47 ->
  (forall y, m <= y < m + page_bytes (total c) -> mapped (hp_kern h) y /\ ~ page_avail (hp_pages h) L y /\ ~ fr_bytes y) ->
  match Radix.set_range (hp_radix h) m size true with
  | Ret t => pages_inv (set_radix h t) (<[m := c]> C) L
  | Fatal e => e = VAIinitFailed
  | Stuck => False
  end.
Proof.
  intros [P1 P2 P3 P4 P5 P6 P7] Ho Hp HS Hc H0 Hsize Hend Hnew. destruct (mul_total c Hc) as [Htot _].
  pose proof (set_range_updated (hp_radix h) m size true P3 ltac:(lia) ltac:(lia) ltac:(change MAX_ADDR with (2 ^ 56); lia)) as Hu.
  pose proof (set_range_mapped (hp_radix h) m size true) as Hmap. destruct (Radix.set_range (hp_radix h) m size true) as [t| |]; [|done..].
  destruct Hu as (Hwf & Hl0 & Hget). specialize (Hmap t). assert (Hk : forall y, mapped (hp_kern h) y -> mapped (kern t) y) by (intros y; by apply (Hmap y)). constructor; cbn.
  - left. split; [done|]. by apply (page_kernel (hp_pages h)).
  - intros m' c' y [[<- <-]|[Hne Hm]]%lookup_insert_Some Hy; [destruct (Hnew y Hy) as (? & ? & _)|destruct (P2 m' c' y Hm Hy)]; (split; [by apply Hk|done]).
  - by destruct t.
  - intros m' c' y Hm Hy. destruct t as [r w k]. change (Radix.get (mkRadixTree r w k) (y / CHUNK_SIZE) = true).
    assert (Hy56 : 0 <= y / CHUNK_SIZE < 2 ^ 44).
    { change CHUNK_SIZE with 4096. assert (0 <= y < 2 ^ 47); [|split; [apply Z.div_pos; lia|apply Z.div_lt_upper_bound; lia]]. apply lookup_insert_Some in Hm as [[<- <-]|[Hne Hm]]; [lia|].
      destruct (si_span _ _ _ HS m' c' Hm) as (x & j & [Hc' (? & _ & ?) _ _ _ _]). destruct (mul_total c' Hc'). lia. }
    rewrite Hget by done. apply lookup_insert_Some in Hm as [[<- <-]|[Hne Hm]]; [|rewrite (P4 m' c' y Hm Hy); by case_match].
    assert ((m / CHUNK_SIZE <=? y / CHUNK_SIZE) && (y / CHUNK_SIZE <=? (m + size - 1) / CHUNK_SIZE) = true) as ->; [|done].
    rewrite andb_true_iff, !Z.leb_le. change CHUNK_SIZE with 4096. split; apply Z.div_le_mono; lia.
  - intros y Hy. destruct (P5 y Hy) as [?|(H1 & H2 & H3)]; [by left|right]. split; [by apply Hk|]. split; [done|]. intros m' c' [[<- <-]|[Hne Hm]]%lookup_insert_Some Hy'; [by apply (Hnew y Hy')|by apply (H3 m' c' Hm)].
  - intros y Hy. by apply Hk, P6.
  - intros j Hj Hjo. destruct t as [r w k]. change (Radix.get (mkRadixTree r w k) j = true). rewrite Hget by done. rewrite (P7 j Hj Hjo). by case_match.
Qed.

Lemma new_span_ok h ts C B A M c node mem p L L' :
  spans_inv h C B -> pages_inv h C L -> (exists S, queue_inv h ts C ∅ S) -> blocks_inv cfg cpus h B A M ->
  hp_pages_once h = true -> page_inv p L' -> page_taken (hp_pages h) L p L' mem (mem + page_bytes (total c)) ->
  0 <= c < NUM_SIZE_CLASSES -> 0 <= node -> 0 < mem -> (4096 | mem) -> mem + page_bytes (total c) <= 2 ^ 47 ->
  match (t ← Radix.set_range (hp_radix (set_cached (set_pages h p (hp_pages_once h)) (add_slab_cached_va (hp_cached_va (set_pages h p (hp_pages_once h))) (total c)) (hp_trim_guard (set_pages h p (hp_pages_once h))))) mem (total c) true;
         let h1 := set_radix (set_cached (set_pages h p (hp_pages_once h)) (add_slab_cached_va (hp_cached_va (set_pages h p (hp_pages_once h))) (total c)) (hp_trim_guard (set_pages h p (hp_pages_once h)))) t in
         Ret (set_spans h1 (hp_queue h1) (<[mem := mkMetaData null mem (wadd mem (total c)) (wadd mem MetaData_SIZE) node]> (hp_spans h1)))) with
  | Ret h' => C !! mem = None /\ inv h' ts (<[mem := c]> C) B A M {[mem]}
  | Fatal e => e = VAIinitFailed
  | Stuck => False
  end.
Proof.
  intros HS HP [S HQ] HB Ho Hp Ht Hc Hnode H0 Hal Hend. destruct (new_span_pages h C L p L' _ _ HP Ho Hp Ht) as (HP1 & Hnew & Hfr).
  destruct (mul_total c Hc) as [Htot Hb22]. set (h0 := set_cached _ _ _).
  assert (HPh0 : pages_inv h0 C L') by (by apply (pages_inv_frame (set_pages h p (hp_pages_once h)))).
  pose proof (pages_owned h0 h C B L' mem c (total c) HPh0 Ho Hp HS Hc H0 ltac:(lia) Hend) as Hown. lapply Hown; [clear Hown; intros Hown|intros y Hy; destruct (pt_bytes _ _ _ _ _ _ Ht y Hy) as (_ & ? & ?); split_and!; [done|done|intros Hf; by apply (Hfr y Hf)]].
  destruct (Radix.set_range (hp_radix h0) mem (total c) true) as [t| |]; cbn [mbind outcome_bind]; [|done..].
  assert (HCn : C !! mem = None).
  { destruct (C !! mem) as [c'|] eqn:HC; [|done]. exfalso. destruct (si_span _ _ _ HS mem c' HC) as (x & j & [Hc' _ _ _ _ _]). destruct (mul_total c' Hc'). apply (Hnew mem c' mem HC); lia. }
  split; [done|]. rewrite !wadd_small by (change MetaData_SIZE with 48; lia). constructor.
  - constructor; cbn.
    + intros m c' Hm. apply lookup_insert_Some in Hm as [[<- <-]|[Hne Hm]].
      * eexists _, 0. constructor; [done|done|by rewrite lookup_insert_eq|done|cbn [md_next]; change MetaData_SIZE with 48; lia|]. destruct (class_facts_of c Hc). lia.
      * destruct (si_span _ _ _ HS m c' Hm) as (x & j & Hx). exists x, j. by apply span_at_other.
    + assert (Hcross : forall m c' y, C !! m = Some c' -> m <= y < m + total c' -> mem <= y < mem + total c -> False).
      { intros m c' y Hm Hy Hy'. destruct (si_span _ _ _ HS m c' Hm) as (x & j & [Hc' _ _ _ _ _]). destruct (mul_total c' Hc'). apply (Hnew m c' y Hm); lia. }
      intros m m' c1 c2 y [[<- <-]|[Hne Hm]]%lookup_insert_Some [[<- <-]|[Hne' Hm']]%lookup_insert_Some Hy Hy'; [done|..].
      * exfalso. by eapply (Hcross m' c2 y).
      * exfalso. by eapply (Hcross m c1 y).
      * by eapply (si_apart _ _ _ HS m m' c1 c2 y).
    + intros a c'. rewrite (si_block _ _ _ HS). split; intros (m & x & j & i & Hm & Hs & Hi & ->).
      * assert (m <> mem) by congruence. exists m, x, j, i. split; [by rewrite lookup_insert_ne|]. split; [by apply span_at_other|done].
      * apply lookup_insert_Some in Hm as [[<- <-]|[Hne Hm]].
        -- exfalso. pose proof (sa_live _ _ _ _ _ Hs) as Hl. rewrite lookup_insert_eq in Hl. simplify_eq. pose proof (sa_next _ _ _ _ _ Hs) as Hn. cbn in Hn.
           change MetaData_SIZE with 48 in Hn. destruct (class_facts_of c Hc). nia.
        -- exists m, x, j, i. split; [done|]. split; [by apply span_at_other in Hs|done].
  - exists L'. by apply (pages_inv_frame (set_radix h0 t)).
  - exists S. destruct HQ as [Q1 Q2 Q3 Q4 Q5 Q6]. assert (HnS : forall s, mem ∉ S s) by (intros s Hs%Q2; congruence). constructor; cbn; [| | | |done|].
    + destruct Q1 as [R1 R2 R3 R4 R5]. constructor; try done. intros s hd Hh. apply chain_insert; [apply HnS|by apply R2].
    + intros s a Ha. rewrite lookup_insert_ne; [by apply Q2|]. intros <-. by apply (HnS s).
    + intros m t' c' Hsl Hm. destruct (Q3 m t' c' Hsl Hm) as (H1 & H2 & H3). split; [rewrite lookup_insert_ne; [done|congruence]|done].
    + intros m Hm%elem_of_singleton. subst m. split; [lia|]. split; [by rewrite lookup_insert_eq|]. split; [done|]. intros t' c' Hsl. destruct (Q3 mem t' c' Hsl ltac:(lia)). congruence.
    + intros m Hw. destruct (Q6 m Hw) as (x & Hx & Hne). exists x. split; [|done]. rewrite lookup_insert_ne; [done|]. intros <-.
      destruct Hw as [[s Hs]|(Hm0 & t' & c' & Hsl)]; [by apply (HnS s)|]. destruct (Q3 mem t' c' Hsl Hm0). congruence.
  - by destruct HB.
Qed.

(** ** The thread's slots *)

(** New slots of a thread: each entry is null, an entry it had, or [m]. *)
Lemma queue_inv_slots h ts C W W' S t th th' m (c : nat) :
  queue_inv h (<[t := th]> ts) C W S -> tls_ok th' -> W' ⊆ W -> m ∉ W' ->
  (forall c' v, tb_free (THREAD_BULK th') !! c' = Some v -> v = 0 \/ tb_free (THREAD_BULK th) !! c' = Some v \/ c' = c /\ v = m /\ m ∈ W /\ C !! m = Some (Z.of_nat c) /\ open_span (hp_spans h) m) ->
  queue_inv h (<[t := th']> ts) C W' S.
Proof.
  intros [Q1 Q2 Q3 Q4 Q5 Q6] Hok HW HmW Hfree.
  assert (Hold : forall v t' c', v <> 0 -> in_slot (<[t := th']> ts) v t' c' -> in_slot (<[t := th]> ts) v t' c' \/ t' = t /\ c' = c /\ v = m /\ m ∈ W /\ C !! m = Some (Z.of_nat c) /\ open_span (hp_spans h) m).
  { intros v t' c' Hv (x & Hx & Hs). destruct (decide (t' = t)) as [->|Hne].
    - rewrite lookup_insert_eq in Hx. injection Hx as <-. destruct (Hfree c' v Hs) as [?|[Ho|Ho]]; [done|left; exists th; by rewrite lookup_insert_eq|right; tauto].
    - rewrite lookup_insert_ne in Hx by done. left. exists x. by rewrite lookup_insert_ne. }
  constructor; [done|done| | | |].
  - intros v t' c' Hs Hv. destruct (Hold v t' c' Hv Hs) as [Ho|(-> & -> & -> & Hm & HC & _)].
    + destruct (Q3 v t' c' Ho Hv) as (H1 & H2 & H3). split; [done|]. split; [done|]. intros t2 c2 Hs2. destruct (Hold v t2 c2 Hv Hs2) as [Ho2|(-> & -> & -> & Hm & HC)]; [by eapply H3|].
      exfalso. destruct (Q4 m Hm) as (_ & _ & _ & Hn). by apply (Hn t' c').
    + destruct (Q4 m Hm) as (_ & _ & H2 & Hn). split; [done|]. split; [done|]. intros t2 c2 Hs2. destruct (Hold m t2 c2 Hv Hs2) as [Ho2|(-> & _)]; [|done]. by destruct (Hn t2 c2).
  - intros v Hv. destruct (Q4 v (HW v Hv)) as (H0 & H1 & H2 & H3). split; [done|]. split; [done|]. split; [done|]. intros t' c' Hs.
    destruct (Hold v t' c' H0 Hs) as [Ho|(_ & _ & -> & _)]; [by apply (H3 t' c')|done].
  - intros t' x. destruct (decide (t' = t)) as [->|Hne]; [rewrite lookup_insert_eq; by intros [= <-]|]. rewrite lookup_insert_ne by done. intros Hx. apply (Q5 t'). by rewrite lookup_insert_ne.
  - intros v [Hv|(Hv & t' & c' & Hs)]; [apply Q6; by left|]. destruct (Hold v t' c' Hv Hs) as [Ho|(_ & _ & -> & _ & _ & Hopen)]; [apply Q6; right; eauto|done].
Qed.

Lemma inv_slots h ts C B A M W W' t th th' m (c : nat) :
  inv h (<[t := th]> ts) C B A M W -> tls_ok th' -> W' ⊆ W -> m ∉ W' ->
  (forall c' v, tb_free (THREAD_BULK th') !! c' = Some v -> v = 0 \/ tb_free (THREAD_BULK th) !! c' = Some v \/ c' = c /\ v = m /\ m ∈ W /\ C !! m = Some (Z.of_nat c) /\ open_span (hp_spans h) m) ->
  inv h (<[t := th']> ts) C B A M W'.
Proof. intros [HS HP [S HQ] HB] Hok HW Hm Hf. constructor; [done|done|exists S; by eapply queue_inv_slots|done]. Qed.

Lemma inv_tls_ok h ts C B A M W t th : inv h (<[t := th]> ts) C B A M W -> tls_ok th.
Proof. intros [_ _ [S HQ] _]. apply (qv_tls _ _ _ _ _ HQ t). apply lookup_insert_eq. Qed.

(** A change of a thread that leaves its slots alone. *)
Lemma inv_tls h ts C B A M W t th th' :
  inv h (<[t := th]> ts) C B A M W -> tls_ok th' -> 0 ∉ W -> tb_free (THREAD_BULK th') = tb_free (THREAD_BULK th) -> inv h (<[t := th']> ts) C B A M W.
Proof. intros HI Hok H0 He. eapply (inv_slots _ _ _ _ _ _ W W t th th' 0 O); [done|done|done|done|]. intros c' v. rewrite He. auto. Qed.

Lemma remaining_open spans m c x j : span_at spans m c x j -> (0 <? remaining_blocks x (bsz c)) = true -> md_next x <> md_end x.
Proof.
  intros Hs Hr E. unfold remaining_blocks, saturating_sub in Hr. rewrite E, Z.sub_diag in Hr. destruct (class_facts_of c (sa_class _ _ _ _ _ Hs)) as [F1 _ F3 _ _ _ _].
  rewrite Z.max_id, Z.div_0_l in Hr by lia. done.
Qed.

Lemma keep_span_ok h ts C B A M t th m c :
  inv h (<[t := th]> ts) C B A M {[m]} -> C !! m = Some c ->
  exists th', keep_span h th c m (bsz c) = Ret th' /\ inv h (<[t := th']> ts) C B A M ∅ /\
    TRANSFER_BATCHING th' = TRANSFER_BATCHING th /\ BULK_FILL_BATCHING th' = BULK_FILL_BATCHING th.
Proof.
  intros HI Hm. pose proof (hi_spans _ _ _ _ _ _ _ _ _ HI) as HS. pose proof (inv_tls_ok _ _ _ _ _ _ _ _ _ HI) as [Hk1 Hk2 Hk3].
  destruct (si_span _ _ _ HS m c Hm) as (x & j & Hs). unfold keep_span. rewrite (sa_live _ _ _ _ _ Hs). cbn [from_option mbind outcome_bind].
  pose proof (sa_class _ _ _ _ _ Hs) as Hc. destruct (class_nat c Hc) as [Hn Hz].
  eexists. split; [done|]. split; [|by case_match]. case_match eqn:Hrem.
  - eapply (inv_slots _ _ _ _ _ _ {[m]} ∅ t th _ m (Z.to_nat c)); [done| |set_solver|set_solver|].
    + constructor; [|done|done]. cbn. by rewrite length_insert.
    + cbn. intros c' v Hv. apply list_lookup_insert_Some in Hv as [(<- & <- & _)|[_ Hv]]; [right; right|by auto]. rewrite Hz. split_and!; [done|done|set_solver|done|]. exists x. split; [by apply Hs|]. by eapply remaining_open.
  - eapply (inv_slots _ _ _ _ _ _ {[m]} ∅ t th _ 0 O); [done|by constructor|set_solver|set_solver|]. auto.
Qed.

(** Taking the span out of a slot. *)
Lemma take_slot_ok h ts C B A M t th c m :
  inv h (<[t := th]> ts) C B A M ∅ -> 0 <= c < NUM_SIZE_CLASSES -> tb_free (THREAD_BULK th) !! Z.to_nat c = Some m -> m <> 0 ->
  C !! m = Some c /\ open_span (hp_spans h) m /\ inv h (<[t := set_bulk th (set_free (THREAD_BULK th) c null)]> ts) C B A M {[m]}.
Proof.
  intros HI Hc Hm H0. destruct (class_nat c Hc) as [Hn Hz]. pose proof (inv_tls_ok _ _ _ _ _ _ _ _ _ HI) as [Hk1 Hk2 Hk3]. set (th' := set_bulk _ _).
  assert (Hin : in_slot (<[t := th]> ts) m t (Z.to_nat c)) by (exists th; by rewrite lookup_insert_eq).
  assert (Hsl : forall v t' c', v <> 0 -> in_slot (<[t := th']> ts) v t' c' -> in_slot (<[t := th]> ts) v t' c' /\ (t' = t -> c' <> Z.to_nat c)).
  { intros v t' c' Hv (x & Hx & Hs). destruct (decide (t' = t)) as [->|Hne].
    - rewrite lookup_insert_eq in Hx. injection Hx as <-. cbn in Hs. apply list_lookup_insert_Some in Hs as [(_ & <- & _)|[Hcc Hs]]; [done|].
      split; [exists th; by rewrite lookup_insert_eq|]. intros _. congruence.
    - rewrite lookup_insert_ne in Hx by done. split; [exists x; by rewrite lookup_insert_ne|done]. }
  destruct HI as [HS HP [S HQ] HB]. destruct (qv_slot _ _ _ _ _ HQ m t _ Hin H0) as (HC & HnS & Huniq). rewrite Hz in HC. split; [done|].
  split; [apply (qv_open _ _ _ _ _ HQ); right; eauto|]. constructor; [done|done| |done]. exists S. destruct HQ as [Q1 Q2 Q3 Q4 Q5 Q6]. constructor; [done|done| | | |].
  - intros v t' c' Hs Hv. destruct (Hsl v t' c' Hv Hs) as [Ho _]. destruct (Q3 v t' c' Ho Hv) as (H1 & H2 & H3). split; [done|]. split; [done|].
    intros t2 c2 Hs2. destruct (Hsl v t2 c2 Hv Hs2). by eapply H3.
  - intros v Hv%elem_of_singleton. subst v. split; [done|]. split; [by rewrite HC|]. split; [done|]. intros t' c' Hs. destruct (Hsl m t' c' H0 Hs) as [Ho Hne].
    apply Hne; [by eapply Huniq|]. destruct (Q3 m t' c' Ho H0) as (H1 & _). rewrite HC in H1. simplify_eq. lia.
  - intros t' x. destruct (decide (t' = t)) as [->|Hne]; [rewrite lookup_insert_eq; intros [= <-]; constructor; [cbn; by rewrite length_insert|done|done]|].
    rewrite lookup_insert_ne by done. intros Hx. apply (Q5 t'). by rewrite lookup_insert_ne.
  - intros v [Hv|(Hv & t' & c' & Hs)]; apply Q6; [by left|right]. destruct (Hsl v t' c' Hv Hs) as [Ho _]. eauto.
Qed.

(** ** [bulk_fill] *)

Lemma node_ok h B A M cpu : blocks_inv cfg cpus h B A M -> 0 <= cpu < cpus ->
  (exists node, node_for_cpu (sl_inner (hp_slab h)) cpu = Ret node /\ 0 <= node) /\ nranges (si_numa (sl_inner (hp_slab h))) <= 2 ^ 16.
Proof.
  intros [[Q HS] _ _ _] Hcpu. pose proof (sp_topo _ _ _ _ _ _ HS) as Ht. split; [|exact (to_ranges _ _ Ht)]. unfold node_for_cpu.
  destruct (si_is_numa (sl_inner (hp_slab h))) eqn:Hn; cbn [negb]; [|by exists 0].
  destruct (cpu_node cpus _ cpu (to_numa _ _ Ht Hn) Hcpu) as (m & r & Hm & Hmr & _). exists m. rewrite (read_ok _ _ _ Hm) by lia. split; [done|lia].
Qed.

Lemma alloc_metadata_ok h ts C B A M c cpu :
  inv h ts C B A M ∅ -> 0 <= c < NUM_SIZE_CLASSES -> 0 <= cpu < cpus ->
  match alloc_metadata cfg h c (bsz c) cpu with
  | Ret (inl m, h') => exists C', C ⊆ C' /\ C' !! m = Some c /\ inv h' ts C' B A M {[m]}
  | Ret (inr _, h') => inv h' ts C B A M ∅
  | Fatal e => e = VAIinitFailed
  | Stuck => False
  end.
Proof using All.
  intros HI Hc Hcpu. destruct (node_ok h B A M cpu (hi_blocks _ _ _ _ _ _ _ _ _ HI) Hcpu) as [(node & Hnode & Hn0) Hnr]. unfold alloc_metadata. rewrite Hnode. cbn [mbind outcome_bind].
  destruct (queue_pop_ok h ts C B A M node c HI Hc) as (m & q & spans & Hq & Hcase). rewrite Hq. cbn [mbind outcome_bind].
  destruct Hcase as [[-> HI1]|(Hm0 & HC & HI1)]; [cbn [Z.eqb negb]|destruct (Z.eqb_spec m null) as [|_]; [done|]; cbn [negb]; by exists C].
  pose proof (pages_init_ok _ _ _ _ _ _ _ HI1 Hnr) as HI2. set (h2 := pages_init _ _) in *. destruct (mul_total c Hc) as [Htot Hb22].
  assert (Hslab : hp_slab h2 = hp_slab h) by (unfold h2, pages_init; by case_match).
  destruct (hi_pages _ _ _ _ _ _ _ _ _ HI2) as [L HP]. destruct (pv_pages _ _ _ HP) as [[Ho Hpi]|Hnew].
  - destruct (PageSpec.alloc_ok (ARENA_SIZE cfg) Harena (hp_pages h2) L node (total c) Hpi Hn0 ltac:(lia)) as
      [(ptr & p & L' & Hr & Hpi' & H0 & Hal & Hend & Ht)|(p & Hr & Hpi' & He1 & He2 & Hmap)]; rewrite Hr; cbn [mbind outcome_bind].
    + pose proof (new_span_ok h2 ts C B A M c node ptr p L L' (hi_spans _ _ _ _ _ _ _ _ _ HI2) HP (hi_queue _ _ _ _ _ _ _ _ _ HI2) (hi_blocks _ _ _ _ _ _ _ _ _ HI2)
        Ho Hpi' Ht Hc Hn0 H0 Hal Hend) as Hns.
      destruct (Radix.set_range _ ptr (total c) true) as [tr|e|]; cbn [mbind outcome_bind] in Hns |- *; [|done..].
      destruct Hns as [HCn HI3]. exists (<[ptr := c]> C). split; [by apply insert_subseteq|]. split; [by rewrite lookup_insert_eq|]. exact HI3.
    + destruct HI2 as [S1 _ [S S3] S4]. constructor; [by destruct S1| |exists S; by destruct S3|by destruct S4].
      exists L. pose proof (pages_inv_kern _ _ _ (pg_kern p) HP Hmap) as HP'. destruct p as [pi pm pk]. cbn in He1, He2. subst pi pm. by apply (pages_inv_frame (set_kern h2 pk)).
  - rewrite Hnew. unfold PageAllocator.alloc, with_node. cbn [PageAllocator_new pg_inner it_arenas mbind outcome_bind].
    replace (set_pages h2 _ (hp_pages_once h2)) with h2; [done|]. rewrite <- Hnew. by destruct h2.
Qed.

(** What a call that carves blocks of class [c] leaves behind. *)
Definition carved h' ts C B A M (t : nat) (th' : tls) (c max hd tl n : Z) : Prop :=
  exists C' B' bs, C ⊆ C' /\ B ⊆ B' /\ batch_ok h' hd tl n bs /\ 1 <= n <= max /\ (forall a, a ∈ bs -> B !! a = None /\ B' !! a = Some c) /\
    inv h' (<[t := th']> ts) C' B' (A ∪ list_to_set bs) M ∅.

Lemma inv_drop_hand h ts C B A M W : inv h ts C B A M W -> inv h ts C B A M ∅.
Proof. intros [HS HP [S [Q1 Q2 Q3 Q4 Q5 Q6]] HB]. constructor; [done|done| |done]. exists S. by constructor. Qed.

Lemma carve_and_keep h ts C B A M t th m c max stamp :
  inv h (<[t := th]> ts) C B A M {[m]} -> M ⊆ A -> C !! m = Some c -> 1 <= max ->
  init_blocks cfg h c m (bsz c) max stamp = Ret (null, null, 0, h) \/
  exists hd tl n h' th', init_blocks cfg h c m (bsz c) max stamp = Ret (hd, tl, n, h') /\ 0 < n /\ keep_span h' th c m (bsz c) = Ret th' /\
    carved h' ts C B A M t th' c max hd tl n /\ TRANSFER_BATCHING th' = TRANSFER_BATCHING th /\ BULK_FILL_BATCHING th' = BULK_FILL_BATCHING th.
Proof.
  intros HI HM Hm Hmax. destruct (init_blocks_ok cfg cpus h _ C B A M {[m]} m c max stamp HI HM Hm ltac:(set_solver) Hmax) as [(x & _ & Hr)|(hd & tl & n & h' & bs & B' & Hr & Hb & Hn & HI' & Hsub & Hnew)]; [by left|right].
  destruct (keep_span_ok h' ts C B' _ M t th m c HI' Hm) as (th' & Hk & HI2 & E1 & E2). exists hd, tl, n, h', th'. split; [done|]. split; [lia|]. split; [done|].
  split; [|done]. exists C, B', bs. done.
Qed.

(** The result of a carving call, with the predictors left alone. *)
Definition fill_result h ts C B A M (t : nat) (th : tls) (c max : Z) (r : outcome ((Z * Z * Z + Err) * tls * heap K)) : Prop :=
  match r with
  | Ret (b, th', h') =>
      match b with
      | inl (hd, tl, n) => carved h' ts C B A M t th' c max hd tl n
      | inr _ => exists C', C ⊆ C' /\ inv h' (<[t := th']> ts) C' B A M ∅
      end /\ TRANSFER_BATCHING th' = TRANSFER_BATCHING th /\ BULK_FILL_BATCHING th' = BULK_FILL_BATCHING th
  | Fatal e => e = VAIinitFailed
  | Stuck => False
  end.

Lemma bulk_fill_new_ok h ts C B A M t th c cpu max stamp :
  inv h (<[t := th]> ts) C B A M ∅ -> M ⊆ A -> 0 <= c < NUM_SIZE_CLASSES -> 0 <= cpu < cpus -> 1 <= max ->
  fill_result h ts C B A M t th c max (bulk_fill_new cfg th h c cpu max stamp).
Proof using All.
  intros HI HM Hc Hcpu Hmax. unfold bulk_fill_new. pose proof (alloc_metadata_ok h _ C B A M c cpu HI Hc Hcpu) as Ha.
  destruct (alloc_metadata cfg h c (bsz c) cpu) as [[[m|e] h1]| |]; cbn [mbind outcome_bind]; [| |done..].
  - destruct Ha as (C' & Hsub & Hm & HI1).
    destruct (carve_and_keep h1 ts C' B A M t th m c max stamp HI1 HM Hm Hmax) as [Hr|(hd & tl & n & h' & th' & Hr & Hn & Hk & (C2 & B2 & bs & Hs2 & Hrest) & E)]; rewrite Hr; cbn [mbind outcome_bind].
    + cbn. split; [|done]. exists C'. split; [done|]. by eapply inv_drop_hand.
    + destruct (Z.eqb_spec n 0) as [|_]; [lia|]. rewrite Hk. cbn [mbind outcome_bind]. split; [|done]. exists C2, B2, bs. split; [by etrans|done].
  - cbn. split; [|done]. by exists C.
Qed.

Lemma bulk_fill_ok h ts C B A M t th atexit c cpu max :
  inv h (<[t := th]> ts) C B A M ∅ -> M ⊆ A -> 0 <= c < NUM_SIZE_CLASSES -> 0 <= cpu < cpus -> 1 <= max ->
  fill_result h ts C B A M t th c max (bulk_fill cfg th h atexit c cpu max).
Proof using All.
  intros HI HM Hc Hcpu Hmax. pose proof (inv_tls_ok _ _ _ _ _ _ _ _ _ HI) as [Hk1 Hk2 Hk3]. destruct (class_nat c Hc) as [Hn Hz]. unfold bulk_fill, get_or_init.
  set (b := if negb (tb_init _) then _ else _). assert (Hb : tb_free b = tb_free (THREAD_BULK th)) by (unfold b; by case_match). rewrite Hb.
  destruct (lookup_lt_is_Some_2 (tb_free (THREAD_BULK th)) (Z.to_nat c)) as [m Hm]; [lia|]. rewrite Hm. cbn [from_option mbind outcome_bind].
  set (th1 := set_bulk th b). assert (HI1 : inv h (<[t := th1]> ts) C B A M ∅) by (apply (inv_tls h ts C B A M ∅ t th); [done|constructor; [cbn; by rewrite Hb|done|done]|set_solver|done]).
  destruct (Z.eqb_spec m null) as [->|Hm0]; cbn [negb mbind outcome_bind]; [by apply (bulk_fill_new_ok h ts C B A M t th1)|].
  destruct (take_slot_ok h ts C B A M t th1 c m HI1 Hc ltac:(cbn; by rewrite Hb) Hm0) as (HC & _ & HI2). set (th2 := set_bulk th1 _) in *. fold th2.
  destruct (carve_and_keep h ts C B A M t th2 m c max (hp_stamp h) HI2 HM HC Hmax) as [Hr|(hd & tl & n & h' & th' & Hr & Hn0 & Hk & Hcv & E)]; rewrite Hr; cbn [mbind outcome_bind].
  - cbn [Z.ltb Z.compare mbind outcome_bind]. apply (bulk_fill_new_ok h ts C B A M t th2); try done. by eapply inv_drop_hand.
  - destruct (Z.ltb_spec 0 n) as [_|]; [|lia]. rewrite Hk. cbn [mbind outcome_bind]. done.
Qed.

(** ** Thread exit *)

Lemma drain_pending_ok h ts C B A M t th c :
  inv h (<[t := th]> ts) C B A M ∅ -> 0 <= c < NUM_SIZE_CLASSES ->
  exists th' h', drain_pending th h c = Ret (th', h') /\ inv h' (<[t := th']> ts) C B A M ∅.
Proof.
  intros HI Hc. pose proof (inv_tls_ok _ _ _ _ _ _ _ _ _ HI) as [Hk1 Hk2 Hk3]. destruct (class_nat c Hc) as [Hn Hz]. unfold drain_pending.
  destruct (lookup_lt_is_Some_2 (tb_free (THREAD_BULK th)) (Z.to_nat c)) as [m Hm]; [lia|]. rewrite Hm. cbn [from_option mbind outcome_bind].
  destruct (Z.eqb_spec m null) as [->|Hm0]; [by exists th, h|].
  destruct (take_slot_ok h ts C B A M t th c m HI Hc Hm Hm0) as (HC & Hopen & HI2). set (th' := set_bulk _ _) in *.
  destruct (hi_queue _ _ _ _ _ _ _ _ _ HI2) as [S HQ]. destruct (qv_hand _ _ _ _ _ HQ m ltac:(set_solver)) as (_ & _ & HnS & Hnsl).
  destruct (si_span _ _ _ (hi_spans _ _ _ _ _ _ _ _ _ HI2) m c HC) as (x & j & Hs). pose proof (sa_live _ _ _ _ _ Hs) as Hx.
  destruct (insert_rep _ _ _ (Z.to_nat c) m x (qv_rep _ _ _ _ _ HQ) Hx Hm0 Hn HnS) as (q' & spans' & Hr & Hcase). rewrite Hr. cbn [mbind outcome_bind].
  exists th', (set_spans h q' spans'). split; [done|]. destruct (PendingQueue.slot (hp_queue h) (md_node_id x) (Z.to_nat c)) as [s|] eqn:Hsl.
  - destruct Hcase as [HR _]. assert (Hs2 : s.2 = Z.to_nat c) by (unfold PendingQueue.slot in Hsl; repeat case_match; by simplify_eq).
    eapply (inv_respan h q' spans' _ _ C B A M {[m]} ∅ (upd_stack S s (m :: S s))); [done|by eapply queue_insert_body|].
    assert (HSin : forall s' a, a ∈ upd_stack S s (m :: S s) s' -> a = m /\ s' = s \/ a ∈ S s').
    { intros s' a. unfold upd_stack. case_decide; [subst; rewrite elem_of_cons; tauto|by right]. }
    destruct HQ as [Q1 Q2 Q3 Q4 Q5 Q6]. constructor; cbn; [done| | |set_solver|done|].
    + intros s' a [[-> ->]|Ha]%HSin; [by rewrite Hs2, Hz|by apply Q2].
    + intros v t' c' Hv Hv0. destruct (Q3 v t' c' Hv Hv0) as (H1 & H2 & H3). split; [done|]. split; [|done]. intros s' [[-> _]|Ha]%HSin; [by apply (Hnsl t' c')|by apply (H2 s')].
    + intros v Hw. eapply open_body; [by eapply queue_insert_body|]. destruct Hw as [[s' [[-> _]|Ha]%HSin]|Hw]; [done|apply Q6; left; eauto|apply Q6; by right].
  - destruct Hcase as [-> ->]. apply inv_drop_hand in HI2. destruct HI2 as [HS2 [L2 HP2] [S2 HQ2] HB2].
    constructor; [by destruct HS2|exists L2; by apply (pages_inv_frame h)|exists S2; by destruct HQ2|by destruct HB2].
Qed.

Lemma drain_classes_ok n : forall h ts C B A M t th c,
  inv h (<[t := th]> ts) C B A M ∅ -> 0 <= c -> c + Z.of_nat n <= NUM_SIZE_CLASSES ->
  exists th' h', drain_classes n th h c = Ret (th', h') /\ inv h' (<[t := th']> ts) C B A M ∅.
Proof.
  induction n as [|n IH]; intros h ts C B A M t th c HI Hc Hn; cbn [drain_classes]; [by exists th, h|].
  destruct (drain_pending_ok h ts C B A M t th c HI ltac:(lia)) as (th1 & h1 & Hr & HI1). rewrite Hr. cbn [mbind outcome_bind]. apply (IH h1 ts C B A M t th1); [done|lia..].
Qed.

(** A thread that exits leaves its spans to the queue. *)
Lemma exit_ok h ts C B A M t th :
  inv h (<[t := th]> ts) C B A M ∅ -> exists th' h', cleanup_thread_bulk th h = Ret (th', h') /\ inv h' (delete t ts) C B A M ∅.
Proof.
  intros HI. destruct (drain_classes_ok class_count h ts C B A M t th 0 HI) as (th' & h' & Hr & [HS HP [S HQ] HB]); [lia|by vm_compute|].
  exists th', h'. split; [done|]. constructor; [done|done| |done]. exists S. destruct HQ as [Q1 Q2 Q3 Q4 Q5 Q6].
  assert (Hsl : forall m t' c, in_slot (delete t ts) m t' c -> in_slot (<[t := th']> ts) m t' c).
  { intros m t' c (x & Hx & Hs). apply lookup_delete_Some in Hx as [Hne Hx]. exists x. by rewrite lookup_insert_ne. }
  constructor; [done|done| |set_solver| |].
  - intros m t' c Hs Hm. destruct (Q3 m t' c (Hsl _ _ _ Hs) Hm) as (H1 & H2 & H3). split; [done|]. split; [done|]. intros t2 c2 Hs2. by eapply H3, Hsl.
  - intros t' x Hx. apply lookup_delete_Some in Hx as [Hne Hx]. apply (Q5 t'). by rewrite lookup_insert_ne.
  - intros v [Hv|(Hv & t' & c' & Hs)]; apply Q6; [by left|right; split; [done|]; exists t', c'; by apply Hsl].
Qed.
End Fill.
