(* ===== verification/HeapOps.v ===== *)
(** * Small allocations and their release keep the invariant

    [fill], [rs_alloc] of a class, the first and the second release of a small block
    and its usable size, under an environment [env_ok]. *)

From S2P Require Import Prelude Types SizeClasses Kernel Radix RadixProofs RBTree Buddy BuddyGrow PageAllocator PageProofs PageSpec Numa NumaSpec Predictor SList PendingQueue Rseq Bitmap SlabCache SlabProofs SlabSteal SlabSpec Heap BulkFill Alloc HeapFrame HeapInv HeapFill.

Section Ops.
Context {K : Type} `{!Kernel K} `{!KernelSpec K} {Fr : frame} (cfg : config) (cpus : Z) (Harena : 0 <= ARENA_SIZE cfg <= 2 ^ 62).
Implicit Types (h : heap K) (ts : gmap nat tls) (C B : gmap Z Z) (A M W : gset Z).

Abbreviation bsz := block_size_of.
Abbreviation inv := (heap_inv cfg cpus).

(** The thread runs on CPUs there are, and is not aborted for ever. *)
Record env_ok (e : env) : Prop := {
  eo_cpu : 0 <= e_cpu e < cpus;
  eo_pop : on_cpus cpus (e_pop e) /\ Exists (fun r => r.2 = false) (e_pop e);
  eo_push : on_cpus cpus (e_push e) /\ ((5 <= length (e_push e))%nat \/ Exists (fun r => r.2 = false) (e_push e));
  eo_batch : 0 <= (e_batch e).1 < cpus;
}.

(** ** The slab caches in the heap *)

Abbreviation sp B := (spread cpus (fun c a => B !! a = Some c) (dom B)).

(** A new state of the caches that changes nothing but links. *)
Lemma inv_slab h s' ts C B A A' M W Q :
  inv h ts C B A M W -> sp B s' A' Q -> live_kept (hp_slab h) s' -> inv (set_slab h s') ts C B A' M W.
Proof.
  intros [HS [L HP] [S HQ] [B1 B2 B3 B4]] HQ' [Hk Hn]. constructor; [by destruct HS|exists L; by apply (pages_inv_frame h)|exists S; by destruct HQ|].
  constructor; cbn; [by exists Q| | |].
  - intros a Ha. apply B2. destruct (sl_mem (hp_slab h) !! a) as [x|] eqn:Hx; [done|]. rewrite (Hn a Hx) in Ha. by destruct Ha.
  - intros a c x HB Hx. destruct (sl_mem (hp_slab h) !! a) as [y|] eqn:Hy; [|rewrite (Hn a Hy) in Hx; done].
    destruct (Hk a y Hy) as (v & Hv & Hvn). rewrite Hv in Hx. injection Hx as <-. destruct (B3 a c y HB Hy) as (H1 & H2 & H3). split; [done|]. split; [done|].
    destruct Hvn as [->|]; [exact H3|done].
  - intros a Ha. destruct (B4 a Ha) as (Hf & y & Hy & Hm & Hnx). split; [done|]. destruct (Hk a y Hy) as (v & Hv & Hvn). exists (with_s_next v y). split; [done|]. split; [done|].
    destruct Hvn as [->|]; [exact Hnx|done].
Qed.

(** A block keeps apart from the rest of the allocator. *)
Lemma block_not_framed h ts C B A M W a c y : inv h ts C B A M W -> B !! a = Some c -> a <= y < a + bsz c -> ~ fr_bytes y.
Proof.
  intros [HS [L HP] _ _] HB Hy. destruct (block_inside_span h C B a c HS HB) as (m & Hm & Hc & Hin). by apply (span_not_framed h C L m c y HP Hm Hc), Hin.
Qed.

(** A header of a block somebody holds is rewritten. *)
Lemma inv_header h a c x ts C B A M M' W :
  inv h ts C B A M W -> a ∈ A -> B !! a = Some c -> header_ok cfg M' a c x -> (forall b, b <> a -> b ∈ M' <-> b ∈ M) ->
  inv (put_header h a x) ts C B A M' W.
Proof.
  intros HI Ha HB Hx HM. pose proof HI as [HS [L HP] [S HQ] [[Q B1] B2 B3 B4]]. constructor; [by destruct HS|exists L; by apply (pages_inv_frame h)|exists S; by destruct HQ|].
  constructor; cbn.
  - exists Q. by apply spread_write.
  - intros b Hb. destruct (decide (b = a)) as [->|]; [left; by rewrite HB|]. rewrite lookup_insert_ne in Hb by done. by apply B2.
  - intros b c' y HBb Hy. destruct (decide (b = a)) as [->|Hne]; [rewrite lookup_insert_eq in Hy; by simplify_eq|]. rewrite lookup_insert_ne in Hy by done.
    destruct (B3 b c' y HBb Hy) as (H1 & H2 & H3). split; [done|]. split; [|done]. rewrite H2. by rewrite (decide_ext (b ∈ M') (b ∈ M)) by (by apply HM).
  - intros b Hb. destruct (B4 b Hb) as [Hf Hbx]. split; [done|]. rewrite lookup_insert_ne; [done|]. intros <-. apply (block_not_framed _ _ _ _ _ _ _ a c a HI HB); [|done].
    destruct HS as [_ _ HS3]. apply HS3 in HB as (m & z & j & i & _ & Hs & _). destruct (class_facts_of c (sa_class _ _ _ _ _ Hs)) as [F1 _ F3 _ _ _ _]. lia.
Qed.

Lemma held_class h ts C B A M W a : inv h ts C B A M W -> a ∈ A -> exists c x, B !! a = Some c /\ sl_mem (hp_slab h) !! a = Some x /\ header_ok cfg M a c x /\ 0 <= c < NUM_SIZE_CLASSES.
Proof.
  intros HI Ha. destruct (held_blocks cfg cpus h B A M a (hi_blocks _ _ _ _ _ _ _ _ _ HI) Ha) as ([c Hc] & _ & [x Hx]). exists c, x. split; [done|]. split; [done|].
  split; [by eapply (bv_header _ _ _ _ _ _ (hi_blocks _ _ _ _ _ _ _ _ _ HI))|].
  apply (si_block _ _ _ (hi_spans _ _ _ _ _ _ _ _ _ HI)) in Hc as (m & y & j & i & _ & Hs & _). by eapply sa_class.
Qed.

(** Received blocks are a batch. *)
Lemma received_batch h s r bs : received s r bs -> bs <> [] -> NoDup bs -> batch_ok (set_slab h s) r.1.1 r.1.2 r.2 bs.
Proof.
  intros [[_ ->]|(l & q & Hl & Hc & Hn & H0)] Hne Hnd; [done|]. constructor; cbn; [by exists q|by exists l|done|done].
Qed.

(** Blocks taken from the lists are held. *)
Record got h ts C B A M W (c hd tl n : Z) (bs : list Z) : Prop := {
  go_inv : inv h ts C B (A ∪ list_to_set bs) M W;
  go_batch : batch_ok h hd tl n bs;
  go_class a : a ∈ bs -> B !! a = Some c /\ a ∉ A;
}.

Lemma pop_ok h ts C B A M W e c :
  inv h ts C B A M W -> env_ok e -> 0 <= c < NUM_SIZE_CLASSES ->
  exists a s', pop (hp_slab h) (e_pop e) c = Ret (a, s') /\
    (a = 0 /\ inv (set_slab h s') ts C B A M W \/ got (set_slab h s') ts C B A M W c a a 1 [a]).
Proof.
  intros HI He Hc. destruct (bv_slab _ _ _ _ _ _ (hi_blocks _ _ _ _ _ _ _ _ _ HI)) as [Q HQ]. destruct (eo_pop _ He) as [Hon Hex].
  destruct (spread_pop cpus _ _ _ _ _ (e_pop e) c HQ Hc Hon Hex) as (a & s' & bs & Q' & Hr & Hrec & Hnew & Hm & HS). exists a, s'. split; [done|].
  pose proof (inv_slab h s' ts C B A _ M W Q' HI HS (live_same _ _ Hm)) as HI'. destruct (Z.eqb_spec a null) as [->|Ha].
  - left. split; [done|]. destruct Hrec as [[_ ->]|(l & q & _ & _ & _ & H0)]; [|done]. cbn [list_to_set] in HI'. by rewrite (right_id_L ∅ (∪)) in HI'.
  - right. destruct Hrec as [[Hx _]|(l & q & Hl & Hch & Hn & H0)]; [by simplify_eq|]. cbn [fst snd] in *. assert (bs = [a]) as ->.
    { destruct l; [done|]. rewrite Hl in Hn. cbn [length app] in Hn. rewrite length_app in Hn. cbn [length] in Hn. lia. }
    constructor; [done| |intros b Hb; by destruct (Hnew b Hb)]. constructor; cbn; [by exists q|by exists []|done|apply NoDup_singleton].
Qed.

Lemma heap_try_pop_ok h ts C B A M W c batch cpu :
  inv h ts C B A M W -> is_u 64 batch -> 0 <= c < NUM_SIZE_CLASSES -> 0 <= cpu < cpus ->
  exists r s', try_pop (hp_slab h) c batch cpu = Ret (r, s') /\
    (r = no_blocks /\ inv (set_slab h s') ts C B A M W \/ r.1.1 <> 0 /\ exists bs, got (set_slab h s') ts C B A M W c r.1.1 r.1.2 r.2 bs /\ Z.of_nat (length bs) <= Z.max 1 batch).
Proof.
  intros HI Hb Hc Hcpu. destruct (bv_slab _ _ _ _ _ _ (hi_blocks _ _ _ _ _ _ _ _ _ HI)) as [Q HQ].
  destruct (spread_try_pop cpus _ _ _ _ _ c batch cpu HQ Hc Hb Hcpu) as (r & s' & bs & Q' & Hr & Hrec & Hnew & [Hnd Hle] & Hm & HS). exists r, s'. split; [done|].
  pose proof (inv_slab h s' ts C B A _ M W Q' HI HS (live_same _ _ Hm)) as HI'. pose proof Hrec as [[-> ->]|(l & q & Hl & Hch & Hn & H0)].
  - left. split; [done|]. cbn [list_to_set] in HI'. by rewrite (right_id_L ∅ (∪)) in HI'.
  - right. split; [done|]. exists bs. split; [|done]. constructor; [done| |intros b Hbs; by destruct (Hnew b Hbs)]. apply received_batch; [done| |done]. rewrite Hl. by destruct l.
Qed.

(** ** Keeping one block of a batch *)

(** Giving a chain of blocks to the list of a CPU. *)
Lemma heap_push_tailed_ok h ts C B A M W e c start tail bs :
  inv h ts C B A M W -> env_ok e -> 0 <= c < NUM_SIZE_CLASSES -> batch_ok h start tail (Z.of_nat (length bs)) bs ->
  (forall a, a ∈ bs -> B !! a = Some c /\ a ∈ A) ->
  exists s', push_tailed (hp_slab h) (e_batch e) c start tail (Z.of_nat (length bs)) = Ret s' /\ live_kept (hp_slab h) s' /\
    inv (set_slab h s') ts C B (A ∖ list_to_set bs) M W.
Proof.
  intros HI He Hc [[q Hch] [l Hl] _ Hnd] Hbs. destruct (bv_slab _ _ _ _ _ _ (hi_blocks _ _ _ _ _ _ _ _ _ HI)) as [Q HQ]. destruct (e_batch e) as [cpu ab] eqn:Heb.
  pose proof (eo_batch _ He) as Hcpu. rewrite Heb in Hcpu. cbn [fst] in Hcpu. assert (Hsub : list_to_set bs ⊆ A) by (intros a Ha%elem_of_list_to_set; by apply Hbs).
  assert (Hadd : added (cpus + 1) calm (hp_slab h) Q c bs [cpu] (push_tailed (hp_slab h) (cpu, ab) c start tail (Z.of_nat (length bs)))).
  { apply push_tailed_ok; [apply HQ|split; [lia|done]|by eapply spread_chain]. }
  destruct (spread_added cpus _ _ _ _ _ _ _ _ _ HQ Hsub Hadd) as (s' & Q' & Hr & Hlv & HS); [intros a Ha; by apply Hbs|]. exists s'. split; [done|]. split; [done|]. by eapply inv_slab.
Qed.

Lemma take_one_ok h ts C B A M W e c hd tl n bs :
  env_ok e -> 0 <= c < NUM_SIZE_CLASSES -> M ⊆ A -> got h ts C B A M W c hd tl n bs ->
  exists h', take_one_from_batch h e c hd tl n = Ret (hd, h') /\ inv h' ts C B (A ∪ {[hd]}) M W /\ hd ∉ A /\ B !! hd = Some c /\ hd <> 0.
Proof.
  intros He Hc HMA [HI [[q Hch] [l Hl] Hn Hnd] Hcl]. unfold take_one_from_batch.
  destruct bs as [|hd' rest]; [by destruct l|]. cbn [chain] in Hch. destruct Hch as (-> & H0 & x & Hx & Hrest). apply NoDup_cons in Hnd as [Hnin Hnd].
  destruct (Hcl hd' ltac:(by left)) as [HB HnA].
  assert (Hin : hd' ∈ A ∪ list_to_set (hd' :: rest)) by set_solver.
  assert (Hfin : forall h2, inv h2 ts C B (A ∪ {[hd']}) M W -> exists h', (x ← get_header h2 hd'; Ret (hd', put_header h2 hd' (mkHeader null (h_flags x) (h_class x) (h_magic x) (h_life_time x)))) = Ret (hd', h') /\
     inv h' ts C B (A ∪ {[hd']}) M W /\ hd' ∉ A /\ B !! hd' = Some c /\ hd' <> 0).
  { intros h2 HI2. destruct (held_class _ _ _ _ _ _ _ hd' HI2 ltac:(set_solver)) as (c' & y & HB' & Hy & (H1 & H2 & H3) & _). simplify_eq.
    unfold get_header. rewrite Hy. cbn [from_option mbind outcome_bind]. eexists. split; [done|]. split; [|done].
    apply (inv_header h2 hd' (h_class y) _ ts C B _ M M W); [done|set_solver|done|by split|done]. }
  destruct (Z.ltb_spec 1 n) as [Hn1|Hn1].
  - assert (Hg : get_header h hd' = Ret x) by (unfold get_header; by rewrite Hx). rewrite Hg. cbn [from_option mbind outcome_bind]. cbn [length] in Hn. destruct rest as [|r0 rest']; [cbn in Hn; lia|].
    change (h_next x) with (s_next x). cbn [chain] in Hrest. destruct Hrest as (Hr0 & Hr00 & Hr1). rewrite Hr0. destruct (Z.eqb_spec r0 null) as [|_]; [done|]. cbn [negb].
    destruct (heap_push_tailed_ok h ts C B _ M W e c r0 tl (r0 :: rest') HI He Hc) as (s' & Hr & Hlv & HI').
    + constructor; [exists q; cbn [chain]; done| |done|done]. destruct l as [|l0 l]; [done|]. injection Hl as _ Hl. by exists l.
    + intros a Ha. split; [apply Hcl; by right|set_solver].
    + replace (n - 1) with (Z.of_nat (length (r0 :: rest'))) by (cbn [length] in *; lia). rewrite Hr. cbn [fmap outcome_fmap mbind outcome_bind]. apply Hfin.
      assert ((A ∪ list_to_set (hd' :: r0 :: rest')) ∖ list_to_set (r0 :: rest') = A ∪ {[hd']}) as Heq; [|by rewrite Heq in HI'].
      apply set_eq. intros a. rewrite elem_of_difference, !elem_of_union, !elem_of_list_to_set, elem_of_singleton, elem_of_cons. split; [tauto|].
      intros [Ha| ->]; [|tauto]. split; [tauto|]. intros Hb. destruct (Hcl a ltac:(by right)). done.
  - cbn [mbind outcome_bind]. apply Hfin. cbn [length] in Hn. destruct rest; [|cbn [length] in Hn; lia]. cbn [list_to_set] in HI. by rewrite (right_id_L ∅ (∪)) in HI.
Qed.

(** ** Batches asked for *)

Lemma next_batch_ok l c : length l = class_count -> 0 <= c < NUM_SIZE_CLASSES ->
  exists n l', next_batch cfg l c = Ret (n, l') /\ 1 <= n <= 2 ^ 12 /\ length l' = class_count.
Proof.
  intros Hl Hc. destruct (class_nat c Hc) as [Hn Hz]. destruct (lookup_lt_is_Some_2 l (Z.to_nat c)) as [a Ha]; [lia|]. unfold next_batch. rewrite Ha. cbn [from_option mbind outcome_bind].
  unfold batch. eexists _, _. split; [done|]. destruct (class_facts_of c Hc) as [_ _ _ _ _ _ Hi]. split; [lia|by rewrite length_insert].
Qed.

Lemma observe_ok l c count batch : length l = class_count -> 0 <= c < NUM_SIZE_CLASSES -> exists l', observe cfg l c count batch = Ret l' /\ length l' = class_count.
Proof.
  intros Hl Hc. destruct (class_nat c Hc) as [Hn Hz]. destruct (lookup_lt_is_Some_2 l (Z.to_nat c)) as [a Ha]; [lia|]. unfold observe. rewrite Ha. cbn [from_option mbind outcome_bind].
  eexists. split; [done|by rewrite length_insert].
Qed.

Lemma inv_trimmer h ts C B A M W b : inv h ts C B A M W -> inv (maybe_start_trimmer cfg h b) ts C B A M W.
Proof.
  intros [HS [L HP] [S HQ] HB]. unfold maybe_start_trimmer. case_match; [by constructor; eauto|].
  constructor; [by destruct HS|exists L; by apply (pages_inv_frame h)|exists S; by destruct HQ|by destruct HB].
Qed.

(** ** Refills *)

(** A call that returned a block of class [c], or null. *)
Definition filled ts C B A M (t : nat) (c : Z) (r : outcome (Z * tls * heap K)) : Prop :=
  match r with
  | Ret (p, th', h') =>
      exists C' B', C ⊆ C' /\ B ⊆ B' /\
        (p = 0 /\ inv h' (<[t := th']> ts) C' B' A M ∅ \/
         p <> 0 /\ p ∉ A /\ B' !! p = Some c /\ inv h' (<[t := th']> ts) C' B' (A ∪ {[p]}) M ∅)
  | Fatal e => e = VAIinitFailed
  | Stuck => False
  end.

Lemma filled_grow ts C B C1 B1 A M t c r : C ⊆ C1 -> B ⊆ B1 -> filled ts C1 B1 A M t c r -> filled ts C B A M t c r.
Proof. intros HC HB. destruct r as [[[p th] h]| |]; [|done..]. intros (C' & B' & H1 & H2 & H3). exists C', B'. split; [by etrans|]. split; [by etrans|done]. Qed.

Lemma inv_batching h ts C B A M W t th l1 l2 :
  inv h (<[t := th]> ts) C B A M W -> 0 ∉ W -> length l1 = class_count -> length l2 = class_count ->
  inv h (<[t := mkTls (THREAD_BULK th) l1 l2]> ts) C B A M W.
Proof. intros HI H0 H1 H2. apply (inv_tls cfg cpus Harena h ts C B A M W t th); [done| |done|done]. constructor; [apply (inv_tls_ok cfg cpus h ts C B A M W t th HI)|done|done]. Qed.

Lemma refill_loop_ok n : forall h ts C B A M t th e c cpu,
  inv h (<[t := th]> ts) C B A M ∅ -> M ⊆ A -> env_ok e -> 0 <= c < NUM_SIZE_CLASSES -> 0 <= cpu < cpus ->
  match refill_loop cfg n th h e c cpu with
  | Ret (None, th', h') => exists C', C ⊆ C' /\ inv h' (<[t := th']> ts) C' B A M ∅
  | Ret (Some p, th', h') => p <> 0 /\ filled ts C B A M t c (Ret (p, th', h'))
  | Fatal e => e = VAIinitFailed
  | Stuck => False
  end.
Proof using All.
  induction n as [|n IH]; intros h ts C B A M t th e c cpu HI HM He Hc Hcpu; cbn [refill_loop]; [by exists C|].
  pose proof (inv_tls_ok cfg cpus h ts C B A M ∅ t th HI) as [Hk1 Hk2 Hk3].
  destruct (next_batch_ok (BULK_FILL_BATCHING th) c Hk3 Hc) as (bb & l & Hb & Hbb & Hl). rewrite Hb. cbn [mbind outcome_bind].
  pose proof (inv_batching h ts C B A M ∅ t th (TRANSFER_BATCHING th) l HI ltac:(set_solver) Hk2 Hl) as HI1. set (th1 := mkTls (THREAD_BULK th) (TRANSFER_BATCHING th) l) in *.
  pose proof (bulk_fill_ok cfg cpus Harena h ts C B A M t th1 (e_atexit e) c cpu bb HI1 HM Hc Hcpu ltac:(lia)) as Hf.
  destruct (bulk_fill cfg th1 h (e_atexit e) c cpu bb) as [[[[[[hd tl] cnt]|er] th2] h2]| |]; cbn [mbind outcome_bind]; [| |done..]; destruct Hf as (Hf & E1 & E2).
  - destruct Hf as (C' & B' & bs & HC & HB & Hbat & Hn & Hnew & HI2). destruct (observe_ok (BULK_FILL_BATCHING th2) c cnt bb) as (l2 & Ho & Hl2); [by rewrite E2|done|].
    rewrite Ho. cbn [mbind outcome_bind].
    pose proof (inv_batching h2 ts C' B' _ M ∅ t th2 (TRANSFER_BATCHING th2) l2 HI2 ltac:(set_solver) ltac:(by rewrite E1) Hl2) as HI3. set (th3 := mkTls (THREAD_BULK th2) (TRANSFER_BATCHING th2) l2) in *.
    assert (HAB : forall a, a ∈ A -> is_Some (B !! a)) by (intros a Ha; by destruct (held_blocks cfg cpus h B A M a (hi_blocks _ _ _ _ _ _ _ _ _ HI) Ha)).
    destruct (take_one_ok h2 (<[t := th3]> ts) C' B' A M ∅ e c hd tl cnt bs He Hc HM) as (h4 & Hr & HI4 & HnA & HB4 & H0).
    { constructor; [done|done|]. intros a Ha. destruct (Hnew a Ha) as [H1 H2]. split; [done|]. intros HaA. destruct (HAB a HaA). congruence. }
    rewrite Hr. cbn [mbind outcome_bind]. split; [done|]. exists C', B'. split; [done|]. split; [done|]. right. split; [done|]. split; [done|]. split; [done|]. by apply inv_trimmer.
  - destruct Hf as (C' & HC & HI2). pose proof (IH h2 ts C' B A M t th2 e c cpu HI2 HM He Hc Hcpu) as Hrec.
    destruct (refill_loop cfg n th2 h2 e c cpu) as [[[[p|] th'] h']| |]; [| |done..].
    + destruct Hrec as [H0 Hfill]. split; [done|]. by eapply filled_grow.
    + destruct Hrec as (C2 & HC2 & HI3). exists C2. split; [by etrans|done].
Qed.

Lemma refill_ok h ts C B A M t th e c cpu :
  inv h (<[t := th]> ts) C B A M ∅ -> M ⊆ A -> env_ok e -> 0 <= c < NUM_SIZE_CLASSES -> 0 <= cpu < cpus ->
  filled ts C B A M t c (refill cfg th h e c cpu).
Proof using All.
  intros HI HM He Hc Hcpu. unfold refill. pose proof (refill_loop_ok (Z.to_nat (MAX_REFILL_RETRIES cfg)) h ts C B A M t th e c cpu HI HM He Hc Hcpu) as Hl.
  destruct (refill_loop _ _ _ _ _ _ _) as [[[[p|] th1] h1]| |]; cbn [mbind outcome_bind]; [apply Hl| |done..]. destruct Hl as (C' & HC & HI1).
  destruct (heap_try_pop_ok h1 _ C' B A M ∅ c 1 cpu HI1 ltac:(done) Hc Hcpu) as (r & s' & Hr & Hcase). rewrite Hr. cbn [mbind outcome_bind].
  exists C', B. split; [done|]. split; [done|]. destruct Hcase as [[-> HI2]|(H0 & bs & [HI2 [[q Hch] [l Hl] Hn _] Hcl] & Hle)]; [by left|right]. split; [done|].
  assert (bs = [r.1.1]) as ->.
  { destruct bs as [|b0 [|b1 bs]]; [by destruct l| |cbn [length] in Hle; lia]. cbn [chain] in Hch. destruct Hch as (-> & _). done. }
  destruct (Hcl r.1.1 ltac:(by left)). split; [done|]. split; [done|]. cbn [list_to_set] in HI2. by rewrite (right_id_L ∅ (∪)) in HI2.
Qed.

Lemma heap_fill_ok h ts C B A M t th e c :
  inv h (<[t := th]> ts) C B A M ∅ -> M ⊆ A -> env_ok e -> 0 <= c < NUM_SIZE_CLASSES -> filled ts C B A M t c (fill cfg th h e c).
Proof using All.
  intros HI HM He Hc. unfold fill. pose proof (inv_tls_ok cfg cpus h ts C B A M ∅ t th HI) as [Hk1 Hk2 Hk3].
  destruct (next_batch_ok (TRANSFER_BATCHING th) c Hk2 Hc) as (n & l & Hb & Hn & Hl). rewrite Hb. cbn [mbind outcome_bind].
  pose proof (inv_batching h ts C B A M ∅ t th l (BULK_FILL_BATCHING th) HI ltac:(set_solver) Hl Hk3) as HI1. set (th1 := mkTls (THREAD_BULK th) l (BULK_FILL_BATCHING th)) in *.
  destruct (heap_try_pop_ok h _ C B A M ∅ c n (e_cpu e) HI1) as (r & s' & Hr & Hcase); [unfold is_u; lia|done|apply He|]. rewrite Hr. destruct r as [[hd tl] cnt]. cbn [mbind outcome_bind fst snd] in *.
  destruct Hcase as [[[= -> -> ->] HI2]|(H0 & bs & Hgot & _)]; [by apply refill_ok; [..|apply He]|].
  destruct (Z.eqb_spec hd null) as [|_]; [done|]. cbn [negb]. destruct (observe_ok l c cnt n Hl Hc) as (l2 & Ho & Hl2). cbn [TRANSFER_BATCHING th1]. rewrite Ho. cbn [mbind outcome_bind].
  destruct (take_one_ok _ _ C B A M ∅ e c hd tl cnt bs He Hc HM Hgot) as (h4 & Hr4 & HI4 & HnA & HB4 & _). rewrite Hr4. cbn [mbind outcome_bind].
  exists C, B. split; [done|]. split; [done|]. right. split; [done|]. split; [done|]. split; [done|].
  apply (inv_batching h4 ts C B _ M ∅ t th1 l2 (BULK_FILL_BATCHING th)); [done|set_solver|done|done].
Qed.

(** ** Small allocations *)

(** A call that returned the payload of a new block of class [c], or null. *)
Definition allotted ts C B A M (t : nat) (c : Z) (r : outcome (Z * tls * heap K)) : Prop :=
  match r with
  | Ret (p, th', h') =>
      exists C' B', C ⊆ C' /\ B ⊆ B' /\
        (p = 0 /\ inv h' (<[t := th']> ts) C' B' A M ∅ \/
         exists a, p = a + 16 /\ a ∉ A /\ B' !! a = Some c /\ inv h' (<[t := th']> ts) C' B' (A ∪ {[a]}) (M ∪ {[a]}) ∅)
  | Fatal e => e = VAIinitFailed
  | Stuck => False
  end.

Lemma small_alloc_ok h ts C B A M t th e size c al :
  inv h (<[t := th]> ts) C B A M ∅ -> M ⊆ A -> env_ok e -> match_size_class size = Some c -> 0 <= c < NUM_SIZE_CLASSES ->
  allotted ts C B A M t c (rs_alloc cfg th h e size al).
Proof using All.
  intros HI HM He Hs Hc. unfold rs_alloc. rewrite Hs. destruct (pop_ok h _ C B A M ∅ e c HI He Hc) as (a & s' & Hp & Hcase). rewrite Hp. cbn [mbind outcome_bind].
  assert (Hf : filled ts C B A M t c (if a =? null then fill cfg th (set_slab h s') e c else Ret (a, th, set_slab h s'))).
  { destruct Hcase as [[-> HI1]|[HI1 [[q Hch] _ _ _] Hcl]]; [by apply heap_fill_ok|]. cbn [chain] in Hch. destruct (Z.eqb_spec a null) as [->|]; [by destruct Hch as (_ & ? & _)|].
    exists C, B. split; [done|]. split; [done|]. right. destruct (Hcl a ltac:(by left)) as [HB HA]. split; [done|]. split; [done|]. split; [done|].
    cbn [list_to_set] in HI1. by rewrite (right_id_L ∅ (∪)) in HI1. }
  destruct (if a =? null then _ else _) as [[[p th'] h']| |]; cbn [mbind outcome_bind]; [|done..]. destruct Hf as (C' & B' & HC & HB & [[-> HI2]|(H0 & HnA & HBp & HI2)]).
  - exists C', B'. split; [done|]. split; [done|]. by left.
  - destruct (Z.eqb_spec p null) as [|_]; [done|]. destruct (held_class _ _ _ _ _ _ _ p HI2 ltac:(set_solver)) as (c' & x & HB' & Hx & (H1 & H2 & H3) & _).
    assert (Hg : get_header h' p = Ret x) by (unfold get_header; by rewrite Hx). rewrite Hg. cbn [mbind outcome_bind].
    destruct (held_blocks cfg cpus h' B' _ M p (hi_blocks _ _ _ _ _ _ _ _ _ HI2) ltac:(set_solver)) as (_ & Hba & _). unfold block_addr in Hba.
    exists C', B'. split; [done|]. split; [done|]. right. exists p. change (walk_header p) with (wadd p 16). rewrite wadd_small by lia. split; [done|]. split; [done|]. split; [done|].
    eapply inv_header; [exact HI2|set_solver|exact HB'| |set_solver]. split; [done|]. cbn. rewrite decide_True by set_solver. done.
Qed.

(** ** Releasing a small block *)

Lemma heap_push_ok h ts C B A M W e c a :
  inv h ts C B A M W -> env_ok e -> 0 <= c < NUM_SIZE_CLASSES -> B !! a = Some c -> a ∈ A ->
  exists s', push (hp_slab h) (e_push e) c a = Ret s' /\ inv (set_slab h s') ts C B (A ∖ {[a]}) M W.
Proof.
  intros HI He Hc HB Ha. destruct (bv_slab _ _ _ _ _ _ (hi_blocks _ _ _ _ _ _ _ _ _ HI)) as [Q HQ]. destruct (eo_push _ He) as [Hon Hend].
  destruct (spread_added cpus _ _ _ _ _ c [a] ((e_push e).*1) (push (hp_slab h) (e_push e) c a) HQ) as (s' & Q' & Hr & Hlv & HS).
  - set_solver.
  - apply push_loop_ok; [apply HQ| |by eapply spread_single|lia|destruct Hend; [left; unfold round in *; lia|by right]].
    eapply Forall_impl; [exact Hon|]. intros r Hr. split; [simpl in Hr; lia|done].
  - by intros b ->%list_elem_of_singleton.
  - exists s'. split; [done|]. cbn [list_to_set] in HS. rewrite (right_id_L ∅ (∪)) in HS. by eapply inv_slab.
Qed.

(** The bytes of blocks are user addresses, owned and apart from other headers. *)
Lemma block_bytes h ts C B A M W a c y :
  inv h ts C B A M W -> B !! a = Some c -> a <= y < a + bsz c ->
  0 < a /\ (16 | a) /\ a + bsz c <= 2 ^ 47 /\ is_owned (hp_radix h) y = Ret true /\ (y <> a -> sl_mem (hp_slab h) !! y = None).
Proof.
  intros HI HB Hy. pose proof HI as [HS [L HP] _ HBl]. pose proof HB as (m & x & j & i & Hm & Hs & Hi & ->)%(si_block _ _ _ HS).
  pose proof (sa_cursor _ _ _ _ _ Hs) as Hj. pose proof (sa_class _ _ _ _ _ Hs) as Hc. destruct (sa_addr _ _ _ _ _ Hs) as (Hm0 & Hdiv & _).
  destruct (block_address h C B m c x j i HS Hm Hs ltac:(lia)) as [Ha Hend]. pose proof (block_inside m c i Hc ltac:(lia)) as [Hlo Hhi].
  destruct (class_facts_of c Hc) as [F1 F2 F3 _ _ _ _]. split; [done|]. split; [|split; [done|split]].
  - apply Z.divide_add_r; [apply Z.divide_add_r; [destruct Hdiv as [k ->]; exists (k * 256); lia|exists 3; lia]|]. apply Z.divide_mul_r. apply Z.mod_divide; [lia|done].
  - rewrite is_owned_get; [|apply HP|change MAX_ADDR with (2 ^ 56); lia]. f_equal. apply (pv_owned _ _ _ HP m c y Hm). lia.
  - intros Hne. destruct (sl_mem (hp_slab h) !! y) as [z|] eqn:Hz; [|done]. exfalso. destruct (bv_dom _ _ _ _ _ _ HBl y ltac:(eauto)) as [[c' HB']|Hh]; [|destruct (bv_big _ _ _ _ _ _ HBl y Hh) as [Hf _]; by apply (block_not_framed _ _ _ _ _ _ _ _ _ y HI HB)].
    apply Hne. symmetry. apply (blocks_apart h C B _ y c c' y HS HB HB'); [done|].
    apply (si_block _ _ _ HS) in HB' as (m' & x' & j' & i' & _ & Hs' & _). destruct (class_facts_of c' (sa_class _ _ _ _ _ Hs')) as [F1' _ F3' _ _ _ _]. lia.
Qed.

(** ** Pointers handed out *)

(** [p] is the payload of the block [a] of class [c], or was aligned inside it and
    is preceded by the tag and the address of the payload. *)
Definition points_into (raw : gmap Z Z) (a c p : Z) : Prop :=
  p = a + 16 \/ a + 32 <= p < a + bsz c /\ raw !! (p - 16) = Some (ALIGN_TAG cfg) /\ raw !! (p - 8) = Some (a + 16).

Lemma points_inside raw a c p : 0 <= c < NUM_SIZE_CLASSES -> points_into raw a c p -> a + 16 <= p < a + bsz c.
Proof. intros Hc. destruct (class_facts_of c Hc) as [F1 _ F3 _ _ _ _]. intros [->|(Hp & _)]; lia. Qed.

Lemma block_class h ts C B A M W a c : inv h ts C B A M W -> B !! a = Some c -> 0 <= c < NUM_SIZE_CLASSES.
Proof. intros HI (m & x & j & i & _ & Hs & _)%(si_block _ _ _ (hi_spans _ _ _ _ _ _ _ _ _ HI)). by eapply sa_class. Qed.

(** Every block has a header. *)
Lemma block_header h ts C B A M W a c :
  inv h ts C B A M W -> B !! a = Some c -> exists x, sl_mem (hp_slab h) !! a = Some x /\ header_ok cfg M a c x.
Proof.
  intros HI HB. destruct (hi_blocks _ _ _ _ _ _ _ _ _ HI) as [[Q HS] H2 H3 _]. assert (Hs : is_Some (sl_mem (hp_slab h) !! a)).
  { assert (Ha : a ∈ dom B) by (by apply elem_of_dom_2 in HB). apply (sp_all _ _ _ _ _ _ HS) in Ha as [Ha|(k & p & c' & Ha)]; [by apply (sp_held _ _ _ _ _ _ HS)|].
    pose proof (sp_rep _ _ _ _ _ _ HS) as HR. destruct (decide (valid (cpus + 1) p c')) as [Hv|Hv]; [|rewrite (sr_out _ _ _ _ HR) in Ha by done; by apply not_elem_of_nil in Ha].
    by destruct (chain_in _ _ _ _ _ (sr_chain _ _ _ _ HR k p c' Hv) Ha). }
  destruct Hs as [x Hx]. exists x. split; [done|]. by eapply H3.
Qed.

Lemma find_original_ok h ts C B A M W a c p :
  2 ^ 56 <= ALIGN_TAG cfg -> inv h ts C B A M W -> B !! a = Some c -> points_into (hp_raw h) a c p ->
  is_owned (hp_radix h) p = Ret true /\ find_original_ptr cfg h p = Ret (a + 16) /\ get_actual_header (a + 16) = a /\ 0 < a /\ a + bsz c <= 2 ^ 47.
Proof.
  intros Htag HI HB Hp. pose proof (block_class _ _ _ _ _ _ _ _ _ HI HB) as Hc. pose proof (points_inside _ _ _ _ Hc Hp) as Hin.
  destruct (block_bytes _ _ _ _ _ _ _ _ _ p HI HB ltac:(lia)) as (H0 & _ & Hend & Ho & _). split; [done|].
  assert (Hg : get_actual_header (a + 16) = a) by (change (get_actual_header (a + 16)) with (wsub (a + 16) 16); rewrite wsub_small; lia). split; [|done].
  unfold find_original_ptr. change TAG_SIZE with 16. change OFFSET_SIZE with 8. rewrite !wsub_small by lia. destruct Hp as [->|(Hp & Htg & Hor)].
  - replace (a + 16 - 16) with a by lia. destruct (block_header _ _ _ _ _ _ _ _ _ HI HB) as (x & Hx & (_ & _ & Hn)). unfold read_word. rewrite Hx.
    destruct (Z.eqb_spec (h_next x) (ALIGN_TAG cfg)); [lia|done].
  - destruct (block_bytes _ _ _ _ _ _ _ _ _ (p - 16) HI HB ltac:(lia)) as (_ & _ & _ & _ & E1). destruct (block_bytes _ _ _ _ _ _ _ _ _ (p - 8) HI HB ltac:(lia)) as (_ & _ & _ & _ & E2).
    unfold read_word. rewrite E1, E2 by lia. rewrite Htg, Hor. change (default 0 (Some (ALIGN_TAG cfg))) with (ALIGN_TAG cfg). change (default 0 (Some (a + 16))) with (a + 16). rewrite Z.eqb_refl.
    destruct (block_bytes _ _ _ _ _ _ _ _ _ (a + 16) HI HB ltac:(lia)) as (_ & _ & _ & -> & _). done.
Qed.

(** Releasing a pointer to an allocated block gives the block back. *)
Lemma small_free_ok h ts C B A M e a c p :
  2 ^ 56 <= ALIGN_TAG cfg -> inv h ts C B A M ∅ -> env_ok e -> B !! a = Some c -> a ∈ A -> a ∈ M -> points_into (hp_raw h) a c p ->
  exists h', rs_free cfg h e p = Ret h' /\ inv h' ts C B (A ∖ {[a]}) (M ∖ {[a]}) ∅ /\ same_big h h'.
Proof.
  intros Htag HI He HB Ha HM Hp. destruct (find_original_ok _ _ _ _ _ _ _ _ _ _ Htag HI HB Hp) as (Ho & Hf & Hg & H0 & _).
  pose proof (block_class _ _ _ _ _ _ _ _ _ HI HB) as Hc. pose proof (points_inside _ _ _ _ Hc Hp) as Hin.
  unfold rs_free. destruct (Z.eqb_spec p null) as [|_]; [lia|]. rewrite Ho. cbn [mbind outcome_bind negb]. rewrite Hf. cbn [mbind outcome_bind]. rewrite Hg.
  destruct (block_header _ _ _ _ _ _ _ _ _ HI HB) as (x & Hx & (H1 & H2 & H3)). assert (Hget : get_header h a = Ret x) by (unfold get_header; by rewrite Hx). rewrite Hget. cbn [mbind outcome_bind].
  rewrite decide_True in H2 by done. rewrite H2, Z.eqb_refl, H1. set (x' := mkHeader _ _ _ _ _).
  assert (HI' : inv (put_header h a x') ts C B A (M ∖ {[a]}) ∅).
  { eapply inv_header; [exact HI|done|done| |set_solver]. split; [done|]. cbn. rewrite decide_False by set_solver. done. }
  destruct (heap_push_ok _ _ _ _ _ _ _ e c a HI' He Hc HB Ha) as (s' & Hr & HI2). rewrite Hr. eexists. split; [done|]. done.
Qed.

(** Releasing a block that is not allocated is refused. *)
Lemma freed_again h ts C B A M e a c p :
  2 ^ 56 <= ALIGN_TAG cfg -> FREED_MAGIC cfg <> MAGIC cfg -> BIG_MAGIC cfg <> FREED_MAGIC cfg ->
  inv h ts C B A M ∅ -> B !! a = Some c -> a ∉ M -> points_into (hp_raw h) a c p -> rs_free cfg h e p = Fatal DoubleFree.
Proof.
  intros Htag Hm1 Hm2 HI HB HM Hp. destruct (find_original_ok _ _ _ _ _ _ _ _ _ p Htag HI HB Hp) as (Ho & Hf & Hg & H0 & _).
  pose proof (points_inside _ _ _ _ (block_class _ _ _ _ _ _ _ _ _ HI HB) Hp) as Hin.
  unfold rs_free. destruct (Z.eqb_spec p null) as [|_]; [lia|]. rewrite Ho. cbn [mbind outcome_bind negb]. rewrite Hf. cbn [mbind outcome_bind]. rewrite Hg.
  destruct (block_header _ _ _ _ _ _ _ _ _ HI HB) as (x & Hx & (_ & H2 & _)). assert (Hget : get_header h a = Ret x) by (unfold get_header; by rewrite Hx). rewrite Hget. cbn [mbind outcome_bind].
  rewrite decide_False in H2 by done. rewrite H2. destruct (Z.eqb_spec (FREED_MAGIC cfg) (MAGIC cfg)); [done|]. destruct (Z.eqb_spec (FREED_MAGIC cfg) (BIG_MAGIC cfg)); [by symmetry in e0|].
  by rewrite Z.eqb_refl.
Qed.

Lemma usable_size_ok h ts C B A M a c p :
  2 ^ 56 <= ALIGN_TAG cfg -> BIG_MAGIC cfg <> FREED_MAGIC cfg -> BIG_MAGIC cfg <> MAGIC cfg ->
  inv h ts C B A M ∅ -> B !! a = Some c -> points_into (hp_raw h) a c p -> usable_size cfg h p = Ret (a + bsz c - p).
Proof.
  intros Htag Hm1 Hm2 HI HB Hp. destruct (find_original_ok _ _ _ _ _ _ _ _ _ p Htag HI HB Hp) as (Ho & Hf & Hg & H0 & Hend).
  pose proof (block_class _ _ _ _ _ _ _ _ _ HI HB) as Hc. pose proof (points_inside _ _ _ _ Hc Hp) as Hin. destruct (class_facts_of c Hc) as [F1 _ F3 _ _ _ _].
  unfold usable_size. rewrite Ho. cbn [mbind outcome_bind]. rewrite Hf. cbn [mbind outcome_bind]. rewrite Hg, wsub_small by lia.
  destruct (block_header _ _ _ _ _ _ _ _ _ HI HB) as (x & Hx & (H1 & H2 & _)). assert (Hget : get_header h a = Ret x) by (unfold get_header; by rewrite Hx). rewrite Hget. cbn [mbind outcome_bind].
  destruct (Z.eqb_spec (h_magic x) (BIG_MAGIC cfg)) as [He|_]; [rewrite H2 in He; by case_decide|]. rewrite H1.
  destruct (class_nat c Hc) as [Hn _]. destruct (lookup_lt_is_Some_2 SIZE_CLASSES (Z.to_nat c)) as [v Hv]; [exact Hn|]. rewrite Hv. cbn [from_option mbind outcome_bind].
  assert (Hcs : class_size c = v) by (unfold class_size; by apply list_lookup_total_correct). unfold saturating_sub. f_equal. lia.
Qed.

(** ** Aligned allocations *)

Lemma aligned_up x alignment :
  8 <= alignment -> is_power_of_two alignment = true -> 0 <= x -> x + alignment < 2 ^ 64 ->
  let r := Z.land (wsub (wadd x alignment) 1) (wnot 64 (alignment - 1)) in x <= r < x + alignment /\ (alignment | r).
Proof using.
  intros Ha Hp Hx Hb. unfold is_power_of_two in Hp. pose proof (Z.log2_nonneg alignment) as Hk. remember (Z.log2 alignment) as k. assert (Hal : alignment = 2 ^ k) by lia. clear Heqk Hp. subst alignment.
  assert (k < 64) by (apply (Z.pow_lt_mono_r_iff 2); lia).
  rewrite wadd_small, wsub_small by lia. cbv zeta. rewrite land_wnot_low by (unfold is_u; lia).
  pose proof (Z.div_mod (x + 2 ^ k - 1) (2 ^ k) ltac:(lia)). pose proof (Z.mod_pos_bound (x + 2 ^ k - 1) (2 ^ k) ltac:(lia)).
  split; [lia|]. by apply Z.divide_factor_r.
Qed.

(** ** Requests served and refused *)

(** [p] is a new pointer to [size] bytes, aligned to [align]; outside its block no
    word of a payload was written. *)
Definition served h ts C B A M (t : nat) (align size p : Z) (th' : tls) (h' : heap K) : Prop :=
  exists C' B' a c, C ⊆ C' /\ B ⊆ B' /\ a ∉ A /\ B' !! a = Some c /\ inv h' (<[t := th']> ts) C' B' (A ∪ {[a]}) (M ∪ {[a]}) ∅ /\
    points_into (hp_raw h') a c p /\ (align | p) /\ p + size <= a + bsz c /\ ((align | 16) \/ p <> a + 16) /\ (forall y, ~ a <= y < a + bsz c -> hp_raw h' !! y = hp_raw h !! y) /\
    hp_big h' = hp_big h /\ hp_buddy h' = hp_buddy h.

Definition refused h ts C B A M (t : nat) (th' : tls) (h' : heap K) : Prop :=
  exists C' B', C ⊆ C' /\ B ⊆ B' /\ inv h' (<[t := th']> ts) C' B' A M ∅ /\ same_big h h'.

Lemma small_class size : 0 <= size <= 2097152 -> exists c, match_size_class size = Some c /\ 0 <= c < NUM_SIZE_CLASSES /\ size <= class_size c.
Proof using.
  clear Harena. intros Hs. destruct (match_size_class size) as [c|] eqn:Hm; [exists c; by destruct (match_size_class_Some size c ltac:(lia) Hm) as (? & ? & _)|].
  exfalso. rewrite match_size_class_eq in Hm by lia. unfold reference_match in Hm. destruct (size =? 0); [done|].
  pose proof (position_None _ _ Hm 2097152 ltac:(apply list_elem_of_In; vm_compute; tauto)) as Hp. cbv beta in Hp. lia.
Qed.

(** What a small request returns. *)
Lemma rs_alloc_small h ts C B A M t th e size al :
  inv h (<[t := th]> ts) C B A M ∅ -> M ⊆ A -> env_ok e -> 0 <= size <= 2097152 ->
  match rs_alloc cfg th h e size al with
  | Ret (p, th', h') =>
      same_big h h' /\ exists C' B', C ⊆ C' /\ B ⊆ B' /\
        (p = 0 /\ inv h' (<[t := th']> ts) C' B' A M ∅ \/
         exists a c, p = a + 16 /\ p <> 0 /\ a ∉ A /\ B' !! a = Some c /\ size + 16 <= bsz c /\ inv h' (<[t := th']> ts) C' B' (A ∪ {[a]}) (M ∪ {[a]}) ∅)
  | Fatal e => e = VAIinitFailed
  | Stuck => False
  end.
Proof using All.
  intros HI HM He Hs. destruct (small_class size Hs) as (c & Hm & Hc & Hle). pose proof (small_alloc_ok h ts C B A M t th e size c al HI HM He Hm Hc) as Ha.
  destruct (rs_alloc cfg th h e size al) as [[[p th'] h']| |] eqn:Hr; [|done..]. pose proof (small_alloc_big cfg th h e size al c p th' h' Hm Hr) as Hsame. split; [done|].
  destruct Ha as (C' & B' & HC & HB & Hcase). exists C', B'. split; [done|]. split; [done|]. destruct Hcase as [Hn|(a & -> & HnA & HBa & HI')]; [by left|right].
  destruct (class_facts_of c Hc) as [F1 _ F3 _ _ _ _]. destruct (block_bytes _ _ _ _ _ _ _ _ _ a HI' HBa ltac:(lia)) as (H0 & _). exists a, c. split; [done|]. split; [lia|]. split; [done|]. split; [done|]. split; [lia|done].
Qed.

Lemma inv_raw h raw ts C B A M W : inv h ts C B A M W -> inv (set_raw h raw) ts C B A M W.
Proof. intros [HS [L HP] [S HQ] HB]. constructor; [by destruct HS|exists L; by apply (pages_inv_frame h)|exists S; by destruct HQ|by destruct HB]. Qed.

(** A word written inside a block meets no header. *)
Lemma write_word_inside h ts C B A M W a c y v :
  inv h ts C B A M W -> B !! a = Some c -> a + 16 <= y < a + bsz c -> write_word h y v = set_raw h (<[y := v]> (hp_raw h)).
Proof.
  intros HI HB Hy. destruct (block_bytes _ _ _ _ _ _ _ _ _ y HI HB ltac:(lia)) as (_ & _ & _ & _ & E1). destruct (block_bytes _ _ _ _ _ _ _ _ _ (y - 8) HI HB ltac:(lia)) as (_ & _ & _ & _ & E2).
  unfold write_word, set_headers. rewrite (delete_id _ (y - 8)), delete_id by (rewrite ?E1, ?E2 by lia; done). by destruct (hp_slab h) eqn:Hs; destruct h; cbn in *; subst.
Qed.

Lemma posix_align_served h ts C B A M t th e alignment size :
  inv h (<[t := th]> ts) C B A M ∅ -> M ⊆ A -> env_ok e -> 0 <= size -> 0 <= alignment -> size + alignment + 16 <= 2097152 ->
  match posix_align_inner cfg th h e alignment size with
  | Ret (inl p, th', h') => 8 <= alignment /\ is_power_of_two alignment = true /\ served h ts C B A M t alignment size p th' h'
  | Ret (inr er, th', h') => refused h ts C B A M t th' h' /\ (er = EINVAL <-> ~ (8 <= alignment /\ is_power_of_two alignment = true))
  | Fatal e => e = VAIinitFailed
  | Stuck => False
  end.
Proof using All.
  intros HI HM He Hs Hal Hsum. unfold posix_align_inner. destruct (Z.ltb_spec alignment 8) as [H8|H8]; [split; [by exists C, B|split; [lia|done]]|].
  destruct (is_power_of_two alignment) eqn:Hp; [|split; [by exists C, B|split; [by intros _ [? ?]|done]]]. cbn [orb negb].
  unfold checked_add. destruct (Z.ltb_spec (size + alignment) (2 ^ 64)); [|lia]. cbn [mbind option_bind]. change TAG_SIZE with 16. change OFFSET_SIZE with 8.
  destruct (Z.ltb_spec (size + alignment + 16) (2 ^ 64)); [|lia]. pose proof (rs_alloc_small h ts C B A M t th e (size + alignment + 16) true HI HM He ltac:(lia)) as Hr.
  destruct (rs_alloc cfg th h e (size + alignment + 16) true) as [[[raw th'] h']| |]; cbn [mbind outcome_bind]; [|done..].
  destruct Hr as ((Hraw & Hbg & Hbd) & C' & B' & HC & HB & [[-> HI']|(a & c & -> & Hp0 & HnA & HBa & Hfit & HI')]).
  { split; [by exists C', B'|]. split; [done|]. intros []. done. }
  destruct (Z.eqb_spec (a + 16) null) as [|_]; [done|]. split; [done|]. split; [done|]. destruct (block_bytes _ _ _ _ _ _ _ _ _ a HI' HBa ltac:(lia)) as (Ha & _ & Hend & _).
  unfold saturating_add, saturating_sub. rewrite (Z.min_l (a + 16 + 16)) by lia. destruct (aligned_up (a + 16 + 16) alignment H8 Hp ltac:(lia) ltac:(lia)) as [Hb Hd].
  cbv zeta in Hb, Hd. set (p := Z.land _ _) in *. rewrite !Z.max_r by lia. rewrite (write_word_inside h' _ C' B' _ _ _ a c _ _ HI' HBa) by lia. rewrite (write_word_inside _ _ C' B' _ _ _ a c _ _ (inv_raw _ _ _ _ _ _ _ _ HI') HBa) by lia.
  exists C', B', a, c. split; [done|]. split; [done|]. split; [done|]. split; [done|]. split; [by apply inv_raw, inv_raw|].
  cbn [hp_raw set_raw]. split; [right; split; [lia|]; rewrite lookup_insert_eq; rewrite lookup_insert_ne, lookup_insert_eq by lia; done|]. split; [done|]. split; [lia|]. split; [right; lia|].
  split; [|done]. intros y Hy. rewrite !lookup_insert_ne by lia. by rewrite Hraw.
Qed.
End Ops.
