(* ===== verification/Random.v ===== *)
(** * Random magic values (src/core_prim/random.rs)

    The calls to [getrandom] are a list: what each call fills its buffer with, as
    a little-endian number, or [None] when it fails.  The buffers are two bytes
    wide for the magic values (without the [extended-header] feature) and eight
    for the tag of aligned pointers. *)

From S2P Require Import Prelude Types.

Definition draws : Type := list (option Z).

(** [getrandom(&mut buf, ..)] into [w] bits. *)
Definition getrandom (w : Z) (rs : draws) : outcome (Z * draws) :=
  match rs with
  | [] => Stuck
  | None :: _ => Fatal SecurityViolation
  | Some v :: rs => Ret (wrap w v, rs)
  end.

(** [while bad(v) { getrandom(&mut v) }] *)
Fixpoint redraw (w : Z) (bad : Z -> bool) (v : Z) (rs : draws) : outcome (Z * draws) :=
  if bad v then
    match rs with
    | [] => Stuck
    | None :: _ => Fatal SecurityViolation
    | Some v :: rs => redraw w bad (wrap w v) rs
    end
  else Ret (v, rs).

(** [MAGIC], [FREED_MAGIC] and [BIG_MAGIC] *)
Definition init_magic (rs : draws) : outcome (Z * Z * Z * draws) :=
  '(main, rs) ← getrandom 16 rs;
  '(freed, rs) ← getrandom 16 rs;
  '(big, rs) ← getrandom 16 rs;
  '(freed, rs) ← redraw 16 (fun freed => freed =? main) freed rs;
  '(big, rs) ← redraw 16 (fun big => (big =? freed) || (big =? main)) big rs;
  Ret (main, freed, big, rs).

(** [ALIGN_TAG] *)
Definition init_align (rs : draws) : outcome (Z * draws) := getrandom 64 rs.

(** ** Rejection sampling *)

(** The draws left are a rest of the draws there were. *)
Lemma redraw_ok w bad v rs :
  0 <= w -> is_u w v ->
  match redraw w bad v rs with
  | Ret (v', rs') => bad v' = false /\ is_u w v' /\ exists used, rs = used ++ rs' /\ Forall (fun r => exists x, r = Some x) used /\
      (v' = v /\ used = [] \/ bad v = true /\ exists l x, used = l ++ [Some x] /\ wrap w x = v' /\ Forall (fun r => forall x, r = Some x -> bad (wrap w x) = true) l)
  | Fatal e => e = SecurityViolation /\ None ∈ rs
  | Stuck => bad v = true /\ Forall (fun r => exists x, r = Some x /\ bad (wrap w x) = true) rs
  end.
Proof.
  intros Hw. revert v. induction rs as [|r rs IH]; intros v Hv; cbn [redraw]; destruct (bad v) eqn:Hb.
  - by split.
  - split; [done|]. split; [done|]. exists []. split; [done|]. split; [done|]. by left.
  - destruct r as [x|]; [|split; [done|by left]]. specialize (IH (wrap w x) (wrap_range w x Hw)). destruct (redraw w bad (wrap w x) rs) as [[v' rs']|e|].
    + destruct IH as (H1 & H2 & used & -> & H3 & H4). split; [done|]. split; [done|]. exists (Some x :: used). split; [done|]. split; [constructor; eauto|]. right. split; [done|].
      destruct H4 as [[-> ->]|(Hbx & l & y & -> & Hy & Hl)]; [exists [], x; done|]. exists (Some x :: l), y. split; [done|]. split; [done|]. constructor; [by intros z [= <-]|done].
    + destruct IH as [-> IH]. split; [done|by right].
    + destruct IH as [H1 H2]. split; [done|]. constructor; [eauto|done].
  - split; [done|]. split; [done|]. exists []. split; [done|]. split; [done|]. by left.
Qed.

Lemma init_magic_ok (rs : draws) :
  match init_magic rs with
  | Ret (main, freed, big, _) =>
      is_u 16 main /\ is_u 16 freed /\ is_u 16 big /\ main <> freed /\ main <> big /\ freed <> big
  | Fatal e => e = SecurityViolation /\ None ∈ rs
  | Stuck => (length rs < 3)%nat \/ exists u v, Forall (fun r => exists x, r = Some x /\ (wrap 16 x = u \/ wrap 16 x = v)) (drop 3 rs)
  end.
Proof.
  unfold init_magic, getrandom. destruct rs as [|[m|] [|[f|] [|[b|] rs]]]; cbn [mbind outcome_bind drop length]; try (by left; lia); try (split; [done|set_solver]).
  pose proof (redraw_ok 16 (fun v => v =? wrap 16 m) (wrap 16 f) rs ltac:(lia) (wrap_range 16 f ltac:(lia))) as H1.
  destruct (redraw 16 _ (wrap 16 f) rs) as [[f' rs1]|e|]; cbn [mbind outcome_bind].
  - destruct H1 as (Hf1 & Hf2 & used & -> & Hu & Hcase).
    pose proof (redraw_ok 16 (fun v => (v =? f') || (v =? wrap 16 m)) (wrap 16 b) rs1 ltac:(lia) (wrap_range 16 b ltac:(lia))) as H2.
    destruct (redraw 16 _ (wrap 16 b) rs1) as [[b' rs2]|e|]; cbn [mbind outcome_bind].
    + destruct H2 as (Hb1 & Hb2 & _). split; [by apply wrap_range|]. split; [done|]. split; [done|]. apply orb_false_iff in Hb1 as [Hb1 Hb3]. lia.
    + destruct H2 as [-> H2]. split; [done|]. do 3 right. apply elem_of_app. by right.
    + right. exists (wrap 16 m), f'. destruct H2 as [_ H2]. apply Forall_app. split.
      * destruct Hcase as [[_ ->]|(_ & l & x & -> & Hx & Hl)]; [done|]. apply Forall_app in Hu as [Hu _]. apply Forall_app. split; [|constructor; [eauto|done]].
        rewrite Forall_forall in Hu, Hl |- *. intros r Hr. destruct (Hu r Hr) as [y ->]. exists y. split; [done|]. left. specialize (Hl _ Hr y eq_refl). cbv beta in Hl. lia.
      * eapply Forall_impl; [exact H2|]. intros r (x & -> & Hx). exists x. split; [done|]. cbv beta in Hx. lia.
  - destruct H1 as [-> H1]. split; [done|]. by do 3 right.
  - right. exists (wrap 16 m), (wrap 16 m). destruct H1 as [_ H1]. eapply Forall_impl; [exact H1|]. intros r (x & -> & Hx). exists x. split; [done|]. cbv beta in Hx. lia.
Qed.

(** C37. The magic values.  [init_magic] either sets three pairwise different
    16-bit values, or aborts because a call to [getrandom] failed, or has used up
    the draws; and in the last case, when there were three draws, none failed and
    every later one was one of the two values already taken.  So it ends as soon as
    the source yields a third value. *)
Theorem init_magic_distinct (rs : draws) :
  match init_magic rs with
  | Ret (main, freed, big, _) =>
      is_u 16 main /\ is_u 16 freed /\ is_u 16 big /\ main <> freed /\ main <> big /\ freed <> big
  | Fatal e => e = SecurityViolation /\ None ∈ rs
  | Stuck => (length rs < 3)%nat \/ exists u v, Forall (fun r => exists x, r = Some x /\ (wrap 16 x = u \/ wrap 16 x = v)) (drop 3 rs)
  end.
Proof. apply init_magic_ok. Qed.
