(* ===== verification/GlobalAlloc.v ===== *)
(** * The Rust interface (src/global_alloc.rs)

    The configuration of the crate, its one-time initialisation and the
    [GlobalAlloc] entry points over [Alloc]. *)

From S2P Require Import Prelude Types SizeClasses Kernel Radix RBTree Buddy PageAllocator Numa Predictor PendingQueue SlabCache Heap BulkFill Alloc Random.

(** ** Configuration *)

Inductive THP := THP_Enabled | THP_Disabled.
Inductive BuddyTHP := BuddyTHP_Disabled | BuddyTHP_Force.
Inductive MagicSafety := MagicRandomization | FixedMagic.
Inductive ForeignPointerPolicy := Ignore | Abort_.
Inductive PerCacheLimit := PerCacheBytes (n : Z) | PerCacheDefault.
Inductive TrimThread := TrimThread_Enabled | TrimThread_Disabled.
Inductive ReliefState := Relief_Enabled | Relief_Disabled.

Definition THP_enabled (x : THP) : bool := match x with THP_Enabled => true | _ => false end.
Definition BuddyTHP_enabled (x : BuddyTHP) : bool := match x with BuddyTHP_Force => true | _ => false end.
Definition is_fixed (x : MagicSafety) : bool := match x with FixedMagic => true | _ => false end.
Definition is_abort (x : ForeignPointerPolicy) : bool := match x with Abort_ => true | _ => false end.
Definition get_size (x : PerCacheLimit) : Z := match x with PerCacheBytes n => n | PerCacheDefault => 1024 * 1024 * 64 end.
Definition TrimThread_is_disabled (x : TrimThread) : bool := match x with TrimThread_Disabled => true | _ => false end.
Definition Relief_is_disabled (x : ReliefState) : bool := match x with Relief_Disabled => true | _ => false end.

(** [RSMallocConfig], with its settings structs spread out. *)
Record RSMallocConfig := mkRSMallocConfig {
  rc_thp : THP;
  rc_buddy_use_thp : BuddyTHP;
  rc_init_batch : Z;
  rc_magic_safety : MagicSafety;
  rc_foreign_pointer : ForeignPointerPolicy;
  rc_max_refill_retries : Z;
  rc_max_per_buddy_cache : PerCacheLimit;
  rc_background_worker : TrimThread;
  rc_threshold : Z;
  rc_relief : ReliefState;
  rc_buddy_disable_percentage : Z;
  rc_buddy_enable_percentage : Z;
  rc_arena_min_size : Z;
}.

Definition RSMallocConfig_DEFAULT : RSMallocConfig :=
  mkRSMallocConfig THP_Enabled BuddyTHP_Disabled DEFAULT_BATCH MagicRandomization Abort_ 3 PerCacheDefault
    TrimThread_Disabled (1024 * 1024 * 10) Relief_Disabled 85 80 (1024 * 1024 * 256).

(** The builders; a settings struct is passed field by field. *)
Definition with_relief_settings (c : RSMallocConfig) (relief : ReliefState) (buddy_disable_percentage buddy_enable_percentage : Z) : RSMallocConfig :=
  mkRSMallocConfig (rc_thp c) (rc_buddy_use_thp c) (rc_init_batch c) (rc_magic_safety c) (rc_foreign_pointer c) (rc_max_refill_retries c) (rc_max_per_buddy_cache c) (rc_background_worker c) (rc_threshold c) relief buddy_disable_percentage buddy_enable_percentage (rc_arena_min_size c).

Definition with_thp_settings (c : RSMallocConfig) (thp : THP) (buddy_use_thp : BuddyTHP) : RSMallocConfig :=
  mkRSMallocConfig thp buddy_use_thp (rc_init_batch c) (rc_magic_safety c) (rc_foreign_pointer c) (rc_max_refill_retries c) (rc_max_per_buddy_cache c) (rc_background_worker c) (rc_threshold c) (rc_relief c) (rc_buddy_disable_percentage c) (rc_buddy_enable_percentage c) (rc_arena_min_size c).

Definition with_refill_predictor_settings (c : RSMallocConfig) (init_batch : Z) : RSMallocConfig :=
  mkRSMallocConfig (rc_thp c) (rc_buddy_use_thp c) init_batch (rc_magic_safety c) (rc_foreign_pointer c) (rc_max_refill_retries c) (rc_max_per_buddy_cache c) (rc_background_worker c) (rc_threshold c) (rc_relief c) (rc_buddy_disable_percentage c) (rc_buddy_enable_percentage c) (rc_arena_min_size c).

Definition with_magic_safety (c : RSMallocConfig) (safety : MagicSafety) : RSMallocConfig :=
  mkRSMallocConfig (rc_thp c) (rc_buddy_use_thp c) (rc_init_batch c) safety (rc_foreign_pointer c) (rc_max_refill_retries c) (rc_max_per_buddy_cache c) (rc_background_worker c) (rc_threshold c) (rc_relief c) (rc_buddy_disable_percentage c) (rc_buddy_enable_percentage c) (rc_arena_min_size c).

Definition with_max_refill_retries (c : RSMallocConfig) (retries : Z) : RSMallocConfig :=
  mkRSMallocConfig (rc_thp c) (rc_buddy_use_thp c) (rc_init_batch c) (rc_magic_safety c) (rc_foreign_pointer c) retries (rc_max_per_buddy_cache c) (rc_background_worker c) (rc_threshold c) (rc_relief c) (rc_buddy_disable_percentage c) (rc_buddy_enable_percentage c) (rc_arena_min_size c).

Definition with_max_per_buddy_cache (c : RSMallocConfig) (cache : PerCacheLimit) : RSMallocConfig :=
  mkRSMallocConfig (rc_thp c) (rc_buddy_use_thp c) (rc_init_batch c) (rc_magic_safety c) (rc_foreign_pointer c) (rc_max_refill_retries c) cache (rc_background_worker c) (rc_threshold c) (rc_relief c) (rc_buddy_disable_percentage c) (rc_buddy_enable_percentage c) (rc_arena_min_size c).

Definition with_foreign_pointer (c : RSMallocConfig) (policy : ForeignPointerPolicy) : RSMallocConfig :=
  mkRSMallocConfig (rc_thp c) (rc_buddy_use_thp c) (rc_init_batch c) (rc_magic_safety c) policy (rc_max_refill_retries c) (rc_max_per_buddy_cache c) (rc_background_worker c) (rc_threshold c) (rc_relief c) (rc_buddy_disable_percentage c) (rc_buddy_enable_percentage c) (rc_arena_min_size c).

Definition with_trim_thread (c : RSMallocConfig) (background_worker : TrimThread) (threshold : Z) : RSMallocConfig :=
  mkRSMallocConfig (rc_thp c) (rc_buddy_use_thp c) (rc_init_batch c) (rc_magic_safety c) (rc_foreign_pointer c) (rc_max_refill_retries c) (rc_max_per_buddy_cache c) background_worker threshold (rc_relief c) (rc_buddy_disable_percentage c) (rc_buddy_enable_percentage c) (rc_arena_min_size c).

(** ** The statics of the crate set from it *)

Definition from_le_bytes (bs : list Z) : Z := foldr (fun b v => b + 256 * v) 0 bs.

(** [b"RS"], [b"RM"], [b"RB"] and [b"RSMALIGN"] *)
Definition MAGIC_fixed : Z := from_le_bytes [82; 83].
Definition FREED_MAGIC_fixed : Z := from_le_bytes [82; 77].
Definition BIG_MAGIC_fixed : Z := from_le_bytes [82; 66].
Definition ALIGN_TAG_fixed : Z := from_le_bytes [82; 83; 77; 65; 76; 73; 71; 78].

Record globals := mkGlobals {
  g_config : config;
  BUDDY_MAX_CACHE : Z;
  BUDDY_ATTEMPT_HUGE : bool;
  DISABLE_TRIM_THREAD : bool;
  DISABLE_RELIEF : bool;
  BUDDY_DISABLE_PERCENTAGE : Z;
  BUDDY_ENABLE_PERCENTAGE : Z;
}.

(** The machine the process starts on: glibc's restartable-sequence area, the
    sysfs files, the number of configured CPUs, the CPU the thread is on, the
    stamp of the clock and the draws of [getrandom]. *)
Record machine := mkMachine {
  rseq_size : Z;
  rseq_offset : Z;
  read_file_stack : list Z -> option (list Z);
  get_nprocs_conf : Z;
  sched_getcpu : Z;
  first_stamp : Z;
  random : draws;
}.

(** Magic values and tag. *)
Definition init_tags (safety : MagicSafety) (rs : draws) : outcome (Z * Z * Z * Z) :=
  if negb (is_fixed safety) then
    '(magic, freed, big, rs) ← init_magic rs;
    '(tag, rs) ← init_align rs;
    '(tag, _) ← redraw 64 (fun tag => tag =? 0) tag rs;
    Ret (magic, freed, big, tag)
  else Ret (MAGIC_fixed, FREED_MAGIC_fixed, BIG_MAGIC_fixed, ALIGN_TAG_fixed).

Section Init.
Context {K : Type} `{!Kernel K}.

(** [RADIX], [SLAB_CACHE] and [BUDDY_BACKEND]; every other static is as it was
    linked. *)
Definition init_heap (m : machine) (retries buddy_max_cache : Z) (huge : bool) (k : K) : outcome (heap K) :=
  t ← Radix_new k;
  '(inner, queue, k) ← ensure_cache (read_file_stack m) (get_nprocs_conf m) (kern t);
  node_id ← node_for_cpu inner (sched_getcpu m);
  '(b, t) ← Buddy.init (mkBuddyEnv retries (first_stamp m)) BuddyAllocator_new (mkRadixTree (l0 t) (mem t) k) buddy_max_cache huge node_id (si_is_numa inner);
  Ret (mkHeap (mkSlab inner ∅) queue ∅ (PageAllocator_new (kern t)) false (l0 t) (mem t) b RBTree_new ∅ 0 (first_stamp m) false false).

Definition init (m : machine) (rc : RSMallocConfig) (k : K) : outcome (globals * heap K) :=
  if (rseq_size m =? 0) || (rseq_offset m =? 0) then Fatal RSEQRegFailed
  else
    let disable_thp := negb (THP_enabled (rc_thp rc)) in
    let buddy_max_cache := get_size (rc_max_per_buddy_cache rc) in
    let attempt_huge := BuddyTHP_enabled (rc_buddy_use_thp rc) in
    h ← init_heap m (rc_max_refill_retries rc) buddy_max_cache (attempt_huge && negb disable_thp) k;
    let disable_percentage := Z.min (rc_buddy_disable_percentage rc) 100 in
    '(magic, freed, big, tag) ← init_tags (rc_magic_safety rc) (random m);
    let cfg := mkConfig magic freed big tag (Z.max (rc_arena_min_size rc) (256 * 1024)) (rc_max_refill_retries rc) disable_thp
                 (is_abort (rc_foreign_pointer rc)) (rc_threshold rc) (mkPredictorConfig (rc_init_batch rc) 384) in
    Ret (mkGlobals cfg buddy_max_cache attempt_huge (TrimThread_is_disabled (rc_background_worker rc)) (Relief_is_disabled (rc_relief rc))
           disable_percentage (Z.min (rc_buddy_enable_percentage rc) disable_percentage), h).

(** ** [GlobalAlloc] *)

Definition alloc (cfg : config) (th : tls) (h : heap K) (e : env) (size align : Z) : outcome (Z * tls * heap K) :=
  if align <=? 16 then rs_alloc cfg th h e size false else memalign_inner cfg th h e align size.

Definition dealloc (cfg : config) (h : heap K) (e : env) (ptr : Z) : outcome (heap K) := rs_free cfg h e ptr.

(** [Size::RS(n)] is [Some n], [Size::NotRS] is [None]. *)
Definition rs_usable_size (cfg : config) (h : heap K) (ptr : Z) : outcome (option Z) :=
  size ← usable_size cfg h ptr;
  Ret (if size =? 0 then None else Some size).
End Init.
