(* ===== verification/Trim.v ===== *)
(** * Giving memory back (src/trim.rs)

    The trim thread: its clock, the relief of the buddy allocator under memory
    pressure, and the trimming of cold small blocks, without the features [debug],
    [lazy-page-trim] and [trim-aggressively].  [rs_trim] of the Rust interface
    (src/global_alloc.rs) is here too. *)

From S2P Require Import Prelude Types SizeClasses Kernel Radix RBTree Buddy PageAllocator Numa Predictor SList PendingQueue Rseq SlabCache Heap Random GlobalAlloc.

(** ** Memory pressure *)

(** What sysinfo(2) reports. *)
Record Sysinfo := mkSysinfo { mem_unit : Z; totalram : Z; freeram : Z; totalswap : Z; freeswap : Z }.

Definition check_memory_pressure (info : Sysinfo) : Z :=
  let unit := mem_unit info in
  let total_ram := saturating_mul (totalram info) unit in
  let free_ram := saturating_mul (freeram info) unit in
  let total_swap := saturating_mul (totalswap info) unit in
  let free_swap := saturating_mul (freeswap info) unit in
  let total_available := wadd free_ram free_swap in
  let total_memory := wadd total_ram total_swap in
  if total_memory =? 0 then 50
  else
    let used := saturating_sub total_memory total_available in
    wmul used 100 / total_memory.

Definition ENABLE_AFTER : Z := 2.
Definition TRIM_REPUSH_BATCH : Z := 16.

(** ** One transfer list *)

(** The normal list of a CPU is taken as a whole; null when it is empty. *)
Definition take_all (s : slab) (cpu class : Z) : outcome (Z * slab) :=
  t ← get_list (sl_inner s) cpu class;
  let '(unpacked, tag) := unpack_ptr (tc_list t) in
  if unpacked =? null then Ret (null, s)
  else
    i ← set_list (sl_inner s) cpu class (with_word false t (pack null tag));
    Ret (unpacked, mkSlab i (sl_mem s)).

(** The blocks set aside for trimming; those to be pushed back, from the last seen
    to the first, with their number; the ages and the number of blocks seen. *)
Record Scan := mkScan {
  sc_trim_list : Z;
  sc_push_list : Z;
  sc_push_list_start : Z;
  sc_total_push : Z;
  sc_avg : Z;
  sc_total : Z;
}.

Definition Scan_new : Scan := mkScan null null null 0 0 0.

Definition put_mem (s : slab) (a : Z) (x : Header) : slab := mkSlab (sl_inner s) (<[a := x]> (sl_mem s)).

(** The body of [while !next.is_null()]; the next block is returned. *)
Definition scan_block (s : slab) (class cpu stamp avg_life next : Z) (v : Scan) : outcome (Z * slab * Scan) :=
  x ← from_option (sl_mem s !! next);
  let old_next := h_next x in
  let life_time := h_life_time x in
  let is_push := negb ((avg_life <? saturating_sub stamp life_time) && (h_flags x =? ALLOCATED_FLAG)) in
  let '(s, v) :=
    if negb is_push then
      (put_mem s next (with_s_next (sc_trim_list v) x),
       mkScan next (sc_push_list v) (sc_push_list_start v) (sc_total_push v) (sc_avg v) (sc_total v))
    else
      (put_mem s next (with_s_next (sc_push_list v) x),
       mkScan (sc_trim_list v) next (if sc_total_push v =? 0 then next else sc_push_list_start v) (sc_total_push v + 1) (sc_avg v) (sc_total v)) in
  let v :=
    if negb (life_time =? 0) then
      mkScan (sc_trim_list v) (sc_push_list v) (sc_push_list_start v) (sc_total_push v)
        (saturating_add 32 (sc_avg v) (saturating_sub stamp life_time)) (wrap 32 (sc_total v + 1))
    else v in
  if (sc_total_push v =? TRIM_REPUSH_BATCH) && is_push then
    s ← transfer_push_batch s class (sc_push_list v) (sc_push_list_start v) cpu;
    Ret (old_next, s, mkScan (sc_trim_list v) null null 0 (sc_avg v) (sc_total v))
  else Ret (old_next, s, v).

Fixpoint scan_loop (fuel : nat) (s : slab) (class cpu stamp avg_life next : Z) (v : Scan) : outcome (slab * Scan) :=
  match fuel with
  | O => Stuck
  | S fuel' =>
      if next =? null then Ret (s, v)
      else
        '(next, s, v) ← scan_block s class cpu stamp avg_life next v;
        scan_loop fuel' s class cpu stamp avg_life next v
  end.

(** ** Releasing the pages of a block *)

(** The whole pages of the payload: start and length. *)
Definition release_range (header size : Z) : option (Z * Z) :=
  let user_start := wadd header Header_SIZE in
  let user_end := wadd user_start size in
  let page_mask := wnot 64 (4096 - 1) in
  let page_start := Z.land (wsub (wadd user_start 4096) 1) page_mask in
  let page_end := Z.land user_end page_mask in
  if page_end <=? page_start then None else Some (page_start, page_end - page_start).

Section Trim.
Context {K : Type} `{!Kernel K}.
Implicit Types (k : K).

Definition release_memory (header size : Z) k : bool * K :=
  match release_range header size with
  | None => (false, k)
  | Some (page_start, length) => madvise page_start length LinuxDontNeed k
  end.

(** [while !trim_list.is_null()] *)
Fixpoint release_loop (fuel : nat) (s : slab) k (class cpu stamp requested_size total_trimmed trim_list : Z) : outcome (Z * slab * K) :=
  match fuel with
  | O => Stuck
  | S fuel' =>
      if trim_list =? null then Ret (total_trimmed, s, k)
      else
        x ← from_option (sl_mem s !! trim_list);
        let next := h_next x in
        let '(did_trim, k) :=
          if (requested_size =? 0) || (total_trimmed <? requested_size) then release_memory trim_list (class_size class) k
          else (false, k) in
        let flags := if did_trim : bool then TRIMMED_FLAG else h_flags x in
        let total_trimmed := if did_trim then wadd total_trimmed (class_size class) else total_trimmed in
        let s := put_mem s trim_list (mkHeader (h_next x) flags (h_class x) (h_magic x) stamp) in
        s ← (if did_trim then transfer_push_single_trimmed s class trim_list cpu else transfer_push_single s class trim_list cpu);
        release_loop fuel' s k class cpu stamp requested_size total_trimmed next
  end.

(** ** All lists *)

(** The slab caches, the kernel and the averages of the classes. *)
Record Trimmer := mkTrimmer { tr_slab : slab; tr_kern : K; tr_smoothing : list EmaSmoothing; tr_total : Z }.

(** [TRIM_SMOOTHING[class].update_refill(demand, 1, 100)] *)
Definition smooth (l : list EmaSmoothing) (class demand : Z) : outcome (list EmaSmoothing) :=
  e ← from_option (l !! Z.to_nat class);
  Ret (<[Z.to_nat class := ema_update_refill e demand 1 100]> l).

Definition trim_cpu_list (st : Trimmer) (stamp requested_size cpu class : Z) : outcome Trimmer :=
  '(output, s) ← take_all (tr_slab st) cpu class;
  if output =? null then
    l ← smooth (tr_smoothing st) class 100;
    Ret (mkTrimmer s (tr_kern st) l (tr_total st))
  else
    e ← from_option (tr_smoothing st !! Z.to_nat class);
    let avg_life := ema_time e 100 in
    '(s, v) ← scan_loop (S (size (sl_mem s))) s class cpu stamp avg_life output Scan_new;
    l ← (if 0 <? sc_total v then smooth (tr_smoothing st) class (clamp (sc_avg v / sc_total v) 1 100) else Ret (tr_smoothing st));
    s ← (if 0 <? sc_total_push v then transfer_push_batch s class (sc_push_list v) (sc_push_list_start v) cpu else Ret s);
    '(total, s, k) ← release_loop (S (size (sl_mem s))) s (tr_kern st) class cpu stamp requested_size (tr_total st) (sc_trim_list v);
    Ret (mkTrimmer s k l total).

(** [for class in get_size_4096_class()..NUM_SIZE_CLASSES] *)
Fixpoint trim_classes (n : nat) (st : Trimmer) (stamp requested_size cpu class : Z) : outcome Trimmer :=
  match n with
  | O => Ret st
  | S n' => st ← trim_cpu_list st stamp requested_size cpu class; trim_classes n' st stamp requested_size cpu (class + 1)
  end.

(** [for cpu in 0..NCPU] *)
Fixpoint trim_cpus (n : nat) (st : Trimmer) (stamp requested_size cpu : Z) : outcome Trimmer :=
  match n with
  | O => Ret st
  | S n' =>
      st ← trim_classes (Z.to_nat (NUM_SIZE_CLASSES - get_size_4096_class)) st stamp requested_size cpu get_size_4096_class;
      trim_cpus n' st stamp requested_size (cpu + 1)
  end.

(** [AVERAGE_BLOCK_TIMES] *)
Definition average_times (l : list EmaSmoothing) (average : Z) : Z :=
  let ages := (fun e => ema_time e 100) <$> drop (Z.to_nat get_size_4096_class) l in
  if (0 <? length ages)%nat then wrap 32 (foldl Z.add 0 ages / Z.of_nat (length ages)) else average.

(** [trim_small]; [free] says whether the trim lock was free. *)
Definition trim_small (s : slab) k (l : list EmaSmoothing) (average stamp requested_size : Z) (free : bool) :
    outcome (Z * slab * K * list EmaSmoothing * Z) :=
  if negb free then Ret (0, s, k, l, average)
  else
    st ← trim_cpus (Z.to_nat (ncpu (si_numa (sl_inner s)))) (mkTrimmer s k l 0) stamp requested_size 0;
    Ret (tr_total st, tr_slab st, tr_kern st, tr_smoothing st, average_times (tr_smoothing st) average).

(** ** The trim thread *)

(** The statics of the thread and its two local variables. *)
Record TrimmerThread := mkTrimmerThread {
  tt_heap : heap K;
  tt_smoothing : list EmaSmoothing;
  AVERAGE_BLOCK_TIMES : Z;
  BUDDY_AVERAGE_BLOCK_TIMES : Z;
  UNDER_AFTER : Z;
  latest_stamp : Z;
  total_elapsed : Z;
}.

Definition with_stamp (h : heap K) (stamp : Z) : heap K :=
  mkHeap (hp_slab h) (hp_queue h) (hp_spans h) (hp_pages h) (hp_pages_once h) (hp_root h) (hp_words h) (hp_buddy h) (hp_big h) (hp_raw h)
    (hp_cached_va h) stamp (hp_trim_guard h) (hp_disable_buddy h).

Definition with_disable_buddy (h : heap K) (b : bool) : heap K :=
  mkHeap (hp_slab h) (hp_queue h) (hp_spans h) (hp_pages h) (hp_pages_once h) (hp_root h) (hp_words h) (hp_buddy h) (hp_big h) (hp_raw h)
    (hp_cached_va h) (hp_stamp h) (hp_trim_guard h) b.

(** [BUDDY_BACKEND.trim] and [trim_old], with the trim lock free: the bytes
    trimmed, the new average and the heap. *)
Definition buddy_trim (g : globals) (h : heap K) (average requested_size : Z) (force_trim : bool) : outcome (Z * Z * heap K) :=
  '(n, average, b, k) ← trim_inner (mkBuddyEnv (MAX_REFILL_RETRIES (g_config g)) (hp_stamp h)) blend (hp_buddy h) (hp_kern h) average requested_size force_trim;
  Ret (n, average, set_kern (set_buddy h b) k).

Definition relief_paths (g : globals) (st : TrimmerThread) (pressure : Z) : outcome TrimmerThread :=
  let h := tt_heap st in
  if (BUDDY_DISABLE_PERCENTAGE g <=? pressure) && negb (hp_disable_buddy h) then
    '(_, average, h) ← buddy_trim g (with_disable_buddy h true) (BUDDY_AVERAGE_BLOCK_TIMES st) 0 true;
    Ret (mkTrimmerThread h (tt_smoothing st) (AVERAGE_BLOCK_TIMES st) average 0 (latest_stamp st) (total_elapsed st))
  else
    let '(h, under) :=
      if hp_disable_buddy h && (pressure <=? BUDDY_ENABLE_PERCENTAGE g) then
        let under := wadd (UNDER_AFTER st) 1 in
        if ENABLE_AFTER <=? under then (with_disable_buddy h false, 0) else (h, under)
      else (h, 0) in
    Ret (mkTrimmerThread h (tt_smoothing st) (AVERAGE_BLOCK_TIMES st) (BUDDY_AVERAGE_BLOCK_TIMES st) under (latest_stamp st) (total_elapsed st)).

(** A signed 32-bit addition of a build without overflow checks. *)
Definition add_i32 (a b : Z) : Z := (a + b + 2 ^ 31) mod 2 ^ 32 - 2 ^ 31.

(** Whether this round of the loop looks at the memory pressure. *)
Definition relief_due (elapsed : Z) : bool := Z.rem elapsed 300 =? 0.

(** One round of the loop of [trimmer_main]: [info] and [stamp] are what sysinfo
    and the clock say, and the trim lock is free. *)
Definition trimmer_round (g : globals) (st : TrimmerThread) (info : Sysinfo) (stamp : Z) : outcome TrimmerThread :=
  let elapsed := add_i32 (total_elapsed st) 100 in
  let st := mkTrimmerThread (tt_heap st) (tt_smoothing st) (AVERAGE_BLOCK_TIMES st) (BUDDY_AVERAGE_BLOCK_TIMES st) (UNDER_AFTER st) (latest_stamp st) elapsed in
  st ← (if relief_due elapsed && negb (DISABLE_RELIEF g) then relief_paths g st (check_memory_pressure info) else Ret st);
  let h := with_stamp (tt_heap st) stamp in
  if (Z.max (AVERAGE_BLOCK_TIMES st) 30 <? saturating_sub stamp (latest_stamp st)) && negb (DISABLE_TRIM_THREAD g) then
    '(_, s, k, l, average) ← trim_small (hp_slab h) (hp_kern h) (tt_smoothing st) (AVERAGE_BLOCK_TIMES st) stamp 0 true;
    let h := set_kern (set_slab h s) k in
    '(_, buddy_average, h) ← buddy_trim g h (BUDDY_AVERAGE_BLOCK_TIMES st) 0 false;
    Ret (mkTrimmerThread h l average buddy_average (UNDER_AFTER st) stamp elapsed)
  else Ret (mkTrimmerThread h (tt_smoothing st) (AVERAGE_BLOCK_TIMES st) (BUDDY_AVERAGE_BLOCK_TIMES st) (UNDER_AFTER st) (latest_stamp st) elapsed).

(** ** The request of the Rust interface *)

Inductive RSMallocTrim := TrimAll | TrimRequest (size : Z).
Inductive RSTrimStatus := TrimDisabled | Trimmed (size : Z) | NothingToTrim.

Definition get_request_size (r : RSMallocTrim) : Z := match r with TrimAll => 0 | TrimRequest size => size end.

Definition get_trim_size (x : RSTrimStatus) : Z := match x with TrimDisabled => 0 | NothingToTrim => 0 | Trimmed size => size end.
Definition succeeded (x : RSTrimStatus) : bool := match x with Trimmed _ => true | _ => false end.
Definition disabled (x : RSTrimStatus) : bool := match x with TrimDisabled => true | _ => false end.

(** [rs_trim], with the trim lock free. *)
Definition rs_trim (g : globals) (st : TrimmerThread) (r : RSMallocTrim) : outcome (RSTrimStatus * TrimmerThread) :=
  let requested := get_request_size r in
  '(size, buddy_average, h) ← buddy_trim g (tt_heap st) (BUDDY_AVERAGE_BLOCK_TIMES st) requested true;
  let st := mkTrimmerThread h (tt_smoothing st) (AVERAGE_BLOCK_TIMES st) buddy_average (UNDER_AFTER st) (latest_stamp st) (total_elapsed st) in
  if (size <? requested) && negb (requested =? 0) then
    '(small, s, k, l, average) ← trim_small (hp_slab h) (hp_kern h) (tt_smoothing st) (AVERAGE_BLOCK_TIMES st) (hp_stamp h) (saturating_sub requested size) true;
    let st := mkTrimmerThread (set_kern (set_slab h s) k) l average buddy_average (UNDER_AFTER st) (latest_stamp st) (total_elapsed st) in
    Ret (Trimmed (if 0 <? small then wadd size small else size), st)
  else Ret (Trimmed size, st).

(** [malloc_trim] of the C interface (src/abi/malloc.rs): 1 when something was
    trimmed, with the trim lock free. *)
Definition malloc_trim (g : globals) (st : TrimmerThread) (requested_size : Z) : outcome (Z * TrimmerThread) :=
  '(buddy, buddy_average, h) ← buddy_trim g (tt_heap st) (BUDDY_AVERAGE_BLOCK_TIMES st) requested_size false;
  let st := mkTrimmerThread h (tt_smoothing st) (AVERAGE_BLOCK_TIMES st) buddy_average (UNDER_AFTER st) (latest_stamp st) (total_elapsed st) in
  '(small, st) ← (if negb (saturating_sub requested_size buddy =? 0) || (requested_size =? 0) then
      '(small, s, k, l, average) ← trim_small (hp_slab h) (hp_kern h) (tt_smoothing st) (AVERAGE_BLOCK_TIMES st) (hp_stamp h) (saturating_sub requested_size buddy) true;
      Ret (small, mkTrimmerThread (set_kern (set_slab h s) k) l average buddy_average (UNDER_AFTER st) (latest_stamp st) (total_elapsed st))
    else Ret (0, st));
  Ret (if negb (saturating_add 64 buddy small =? 0) then 1 else 0, st).
End Trim.
