(* ===== verification/TrimProofs.v ===== *)
(** * Trimming loses no block

    [trim_small] takes the normal transfer lists apart and pushes every block
    back; the pages it gives to the kernel are whole pages of the payloads of
    blocks that were on a list. *)

From S2P Require Import Prelude Types SizeClasses Kernel Radix RBTree Buddy PageAllocator Numa NumaSpec Predictor SList PendingQueue Rseq Bitmap SlabCache SlabProofs SlabSteal SlabSpec Heap BulkFill HeapFrame HeapInv HeapFill HeapOps Random GlobalAlloc Trim.

(** Headers keep their class and magic value, links stay addresses, and the
    blocks of [held] are left alone. *)
Definition headers_kept (held : gset Z) (s s' : slab) : Prop :=
  (forall a (x : Header), sl_mem s !! a = Some x -> exists x', sl_mem s' !! a = Some x' /\ h_class x' = h_class x /\ h_magic x' = h_magic x /\
     (h_next x' = h_next x \/ 0 <= h_next x' < 2 ^ 56)) /\
  (forall a, sl_mem s !! a = None -> sl_mem s' !! a = None) /\
  forall a, a ∈ held -> sl_mem s' !! a = sl_mem s !! a.

#[export] Instance headers_kept_preorder held : PreOrder (headers_kept held).
Proof.
  split.
  - intros s. split; [|done]. intros a x Hx. exists x. auto.
  - intros s1 s2 s3 (H1 & N1 & L1) (H2 & N2 & L2). split; [|split; [by intros a Ha%N1%N2|intros a Ha; by rewrite L2, L1]]. intros a x Hx. destruct (H1 a x Hx) as (y & Hy & E1 & E2 & E3).
    destruct (H2 a y Hy) as (z & Hz & F1 & F2 & F3). exists z. split; [done|]. split; [congruence|]. split; [congruence|]. destruct F3 as [->|]; [done|by right].
Qed.

Lemma headers_same held s s' : sl_mem s' = sl_mem s -> headers_kept held s s'.
Proof. intros E. unfold headers_kept. rewrite E. apply (reflexivity (R := headers_kept held) s). Qed.

Lemma headers_links held s s' : live_kept s s' -> (forall a, a ∈ held -> sl_mem s' !! a = sl_mem s !! a) -> headers_kept held s s'.
Proof. intros [H N] Hh. split; [|done]. intros a x Hx. destruct (H a x Hx) as (v & Hv & Hd). exists (with_s_next v x). split; [done|]. by destruct x. Qed.

Lemma headers_put held s a x x' :
  sl_mem s !! a = Some x -> a ∉ held -> h_class x' = h_class x -> h_magic x' = h_magic x -> (h_next x' = h_next x \/ 0 <= h_next x' < 2 ^ 56) -> headers_kept held s (put_mem s a x').
Proof.
  intros Hx Hh E1 E2 E3. split; [|split]; cbn; intros b; [intros y Hy|intros Hb|intros Hb]; (destruct (decide (b = a)) as [->|Hne]; [simplify_eq|rewrite lookup_insert_ne by done]); [|eauto 6|done..].
  exists x'. by rewrite lookup_insert_eq.
Qed.

Section Trim.
Context (cpus : Z) (P : Z -> Z -> Prop) (U : gset Z).

Abbreviation sp := (spread cpus P U).

(** Only the last block of a batch is written. *)
Lemma push_frame s tr class start tail cpu s' : transfer_push_to s tr class start tail cpu = Ret s' -> forall a, a <> tail -> sl_mem s' !! a = sl_mem s !! a.
Proof.
  unfold transfer_push_to, set_header_next, store_next. intros H a Ha. destruct (get_list _ _ _) as [t| |]; cbn [mbind outcome_bind] in H; [|done..].
  destruct (unpack_ptr (word_of tr t)) as [oh tag]. destruct (sl_mem s !! tail) as [x|]; cbn [mbind option_bind outcome_bind from_option] in H; [|done].
  split_run H; simplify_eq; cbn [sl_mem]; by rewrite lookup_insert_ne.
Qed.

Lemma take_all_ok s held Q cpu class :
  sp s held Q -> 0 <= cpu < cpus -> 0 <= class < NUM_SIZE_CLASSES ->
  exists a s' l Q', take_all s cpu class = Ret (a, s') /\ sl_mem s' = sl_mem s /\ chain (sl_mem s') a l 0 /\ NoDup l /\
    (forall b, b ∈ l -> P class b /\ b ∉ held) /\ sp s' (held ∪ list_to_set l) Q'.
Proof.
  intros HS Hcpu Hc. pose proof (sp_rep _ _ _ _ _ _ HS) as HR. assert (Hv : valid (cpus + 1) cpu class) by (split; lia). pose proof (sr_chain _ _ _ _ HR Mail cpu class Hv) as Hch.
  unfold take_all. rewrite (get_list_ok (cpus + 1)) by (done || apply HR). cbn [mbind outcome_bind]. unfold unpack_ptr at 1.
  change (Z.land (tc_list (mailf (sl_inner s) cpu class)) PTR_MASK) with (head_of Mail (sl_inner s) cpu class).
  destruct (Z.eqb_spec (head_of Mail (sl_inner s) cpu class) null) as [E|E].
  - exists 0, s, [], Q. split; [done|]. split; [done|]. split; [done|]. split; [constructor|]. split; [by intros b ?%not_elem_of_nil|]. cbn [list_to_set]. by rewrite (right_id_L ∅ (∪)).
  - destruct (take_front_ok (cpus + 1) calm s Q false cpu class (Q Mail cpu class) [] 0 HR Hv ltac:(by rewrite app_nil_r) ltac:(done)) as (i & Hs & Hd & Hrest & _ & Hrep).
    cbn [word_of] in Hs. rewrite Hs. cbn [mbind outcome_bind]. eexists _, _, (Q Mail cpu class), _. split; [done|]. split; [done|]. split; [done|]. split; [apply HR|]. split.
    { intros b Hb. split; [by eapply (sp_class _ _ _ _ _ _ HS)|]. intros Hh. by apply (proj2 (proj2 (sp_held _ _ _ _ _ _ HS b Hh)) Mail cpu class). }
    apply (spread_take cpus P U s held Q Mail cpu class (Q Mail cpu class) [] _ HS ltac:(by rewrite app_nil_r)); [|eapply topo_static; [apply HS|]; by destruct Hrest as (E1 & E2 & E3 & _)|done|done].
    destruct Hrest as (E1 & E2 & E3 & E4 & E5). specialize (Hrep (si_nonempty i)). assert (Hid : with_nonempty i (si_nonempty i) = i) by (by destruct i). rewrite Hid in Hrep. apply Hrep.
    + rewrite E3, E4. apply HR.
    + intros p c Hvp Hne. rewrite E3, E4. eapply (hint_kept (cpus + 1) calm s Q Mail cpu class []); [done|done|by intros a ?%not_elem_of_nil|done].
Qed.

(** ** Scanning a list *)

Section Scan.
Context (held : gset Z) (class cpu stamp avg_life : Z) (Hcpu : 0 <= cpu < cpus) (Hclass : 0 <= class < NUM_SIZE_CLASSES).

(** The blocks still to be seen, set aside, and to be pushed back. *)
Record scanning (s : slab) (next : Z) (v : Scan) (rest tl pl : list Z) : Prop := {
  sn_spread : exists Q, sp s (held ∪ list_to_set (rest ++ tl ++ pl)) Q;
  sn_rest : chain (sl_mem s) next rest 0;
  sn_trim : chain (sl_mem s) (sc_trim_list v) tl 0;
  sn_push : chain (sl_mem s) (sc_push_list v) pl 0;
  sn_last : sc_total_push v = Z.of_nat (length pl) /\ (pl <> [] -> exists l, pl = l ++ [sc_push_list_start v]);
  sn_nodup : NoDup (rest ++ tl ++ pl);
  sn_class b : b ∈ rest ++ tl ++ pl -> P class b /\ b ∉ held;
}.

(** A held batch goes to the normal list. *)
Lemma push_batch_ok s held' Q start tail bs :
  sp s held' Q -> list_to_set bs ⊆ held' -> NoDup bs -> (forall b, b ∈ bs -> b ∉ held) -> (exists l, bs = l ++ [tail]) -> chain (sl_mem s) start bs 0 -> (forall b, b ∈ bs -> P class b) ->
  exists s' Q', transfer_push_batch s class start tail cpu = Ret s' /\ sp s' (held' ∖ list_to_set bs) Q' /\ headers_kept held s s' /\
    forall a, a ∉ bs -> sl_mem s' !! a = sl_mem s !! a.
Proof.
  intros HS Hsub Hnd Hno [l Hl] Hch HP. pose proof (sp_rep _ _ _ _ _ _ HS) as HR. assert (Hv : valid (cpus + 1) cpu class) by (split; lia).
  pose proof (spread_chain cpus P U s held' Q start bs tail l 0 HS Hsub Hnd Hl Hch) as Hh.
  destruct (transfer_push_ok (cpus + 1) calm s Q false cpu class start bs tail HR Hv Hh) as (s' & Hr & HR' & Hst & Hlv). exists s'. eexists. split; [done|]. split.
  - apply (spread_give cpus P U s held' Q Mail cpu class bs s'); try done. by eapply topo_static, Hst; apply HS.
  - assert (Hf : forall a, a ∉ bs -> sl_mem s' !! a = sl_mem s !! a) by (intros a Ha; eapply push_frame; [exact Hr|]; intros ->; apply Ha; rewrite Hl; apply elem_of_app; right; by left).
    split; [|done]. apply headers_links; [done|]. intros a Ha. apply Hf. intros Hb. by destruct (Hno a Hb).
Qed.

Lemma chain_cons (m : gmap Z Header) a x hd l : a <> 0 -> a ∉ l -> chain m hd l 0 -> chain (<[a := with_s_next hd x]> m) a (a :: l) 0.
Proof.
  intros Ha Hl Hc. cbn [chain]. split; [done|]. split; [done|]. eexists. split; [by rewrite lookup_insert_eq|]. rewrite s_next_with. by apply chain_insert.
Qed.

Lemma list_head_bound s held' Q hd l : sp s held' Q -> chain (sl_mem s) hd l 0 -> list_to_set l ⊆ held' -> 0 <= hd < 2 ^ 56.
Proof.
  intros HS Hc Hl. destruct l as [|a l]; [cbn in Hc; lia|]. destruct Hc as (-> & _). destruct (sp_held _ _ _ _ _ _ HS a) as [Hb _]; [set_solver|]. unfold block_addr in Hb. lia.
Qed.

(** The first block goes to one of the two lists. *)
Lemma block_moved s v rest tl pl next x tl' pl' hd v' :
  scanning s next v (next :: rest) tl pl -> sl_mem s !! next = Some x ->
  (tl' = next :: tl /\ pl' = pl /\ hd = sc_trim_list v /\ sc_trim_list v' = next /\ sc_push_list v' = sc_push_list v /\
     sc_push_list_start v' = sc_push_list_start v /\ sc_total_push v' = sc_total_push v \/
   tl' = tl /\ pl' = next :: pl /\ hd = sc_push_list v /\ sc_trim_list v' = sc_trim_list v /\ sc_push_list v' = next /\
     sc_push_list_start v' = (if sc_total_push v =? 0 then next else sc_push_list_start v) /\ sc_total_push v' = sc_total_push v + 1) ->
  scanning (put_mem s next (with_s_next hd x)) (h_next x) v' rest tl' pl' /\ headers_kept held s (put_mem s next (with_s_next hd x)).
Proof.
  intros [[Q S1] S2 S3 S4 [S5 S6] S7 S8] Hx Hcase. cbn [chain] in S2. destruct S2 as (_ & H0 & y & Hy & S2). assert (y = x) as -> by congruence.
  cbn [app] in S7. apply NoDup_cons in S7 as [Hnin Hnd]. rewrite !elem_of_app in Hnin.
  assert (Hperm : rest ++ tl' ++ pl' ≡ₚ next :: rest ++ tl ++ pl).
  { destruct Hcase as [(-> & -> & _)|(-> & -> & _)]; [by rewrite <- app_comm_cons, <- Permutation_middle|by rewrite !app_assoc, <- Permutation_middle]. }
  assert (Hset : (list_to_set (rest ++ tl' ++ pl') : gset Z) = list_to_set (next :: rest ++ tl ++ pl)) by (by rewrite Hperm).
  assert (Hhd : 0 <= hd < 2 ^ 56) by (destruct Hcase as [(_ & _ & -> & _)|(_ & _ & -> & _)]; [apply (list_head_bound s _ Q _ tl S1 S3)|apply (list_head_bound s _ Q _ pl S1 S4)]; set_solver).
  split; [|apply (headers_put held s next x); [done|by apply S8; left|by destruct x..|right; by destruct x]]. constructor; cbn [put_mem sl_mem].
  - exists Q. rewrite Hset. apply spread_write; [done|set_solver].
  - apply chain_insert; [tauto|exact S2].
  - destruct Hcase as [(-> & -> & -> & -> & _)|(-> & -> & -> & -> & _)]; [apply chain_cons; [done|tauto|done]|apply chain_insert; [tauto|done]].
  - destruct Hcase as [(-> & -> & -> & _ & -> & _)|(-> & -> & -> & _ & -> & _)]; [apply chain_insert; [tauto|done]|apply chain_cons; [done|tauto|done]].
  - destruct Hcase as [(-> & -> & _ & _ & _ & -> & ->)|(-> & -> & _ & _ & _ & -> & ->)]; [done|]. cbn [length]. split; [lia|]. intros _. destruct (Z.eqb_spec (sc_total_push v) 0) as [E|E].
    + destruct pl; [by exists []|cbn [length] in S5; lia].
    + destruct S6 as [l Hl]; [intros ->; cbn in S5; lia|]. exists (next :: l). by rewrite Hl at 1.
  - rewrite Hperm. apply NoDup_cons; split; [|done]; rewrite !elem_of_app; tauto.
  - intros b Hb. apply S8. rewrite Hperm in Hb. exact Hb.
Qed.

(** The averages do not matter to the lists. *)
Lemma scanning_avg s next v v' rest tl pl :
  sc_trim_list v' = sc_trim_list v -> sc_push_list v' = sc_push_list v -> sc_push_list_start v' = sc_push_list_start v -> sc_total_push v' = sc_total_push v ->
  scanning s next v rest tl pl -> scanning s next v' rest tl pl.
Proof. intros E1 E2 E3 E4 [S1 S2 S3 S4 S5 S6 S7]. constructor; rewrite ?E1, ?E2, ?E3, ?E4; done. Qed.

(** The blocks to be pushed back are pushed back. *)
Lemma flush_ok s next v rest tl pl :
  scanning s next v rest tl pl -> pl <> [] ->
  exists s', transfer_push_batch s class (sc_push_list v) (sc_push_list_start v) cpu = Ret s' /\ headers_kept held s s' /\
    forall v', sc_trim_list v' = sc_trim_list v -> sc_push_list v' = null -> sc_total_push v' = 0 -> scanning s' next v' rest tl [].
Proof.
  intros [[Q S1] S2 S3 S4 [S5 S6] S7 S8] Hne. pose proof S7 as Hnd. rewrite app_assoc in Hnd. apply NoDup_app in Hnd as (Hnd1 & Hdis & Hnd2).
  destruct (push_batch_ok s _ Q (sc_push_list v) (sc_push_list_start v) pl S1) as (s' & Q' & Hr & HS' & Hk & Hf); [set_solver|done|intros b Hb; apply S8; set_solver|by apply S6|done|intros b Hb; apply S8; set_solver|].
  exists s'. split; [done|]. split; [done|]. intros v' E1 E2 E3. assert (Hout : forall b, b ∈ rest ++ tl -> sl_mem s' !! b = sl_mem s !! b) by (intros b Hb; apply Hf; by apply Hdis).
  constructor; rewrite ?E1, ?E2, ?E3, ?app_nil_r.
  - exists Q'. assert ((held ∪ list_to_set (rest ++ tl ++ pl)) ∖ list_to_set pl = held ∪ list_to_set (rest ++ tl)) as <-; [|done].
    apply set_eq. intros b. rewrite elem_of_difference, !elem_of_union, !elem_of_list_to_set, (app_assoc rest), (elem_of_app (rest ++ tl)). split; [tauto|].
    intros [Hb|Hb]; (split; [tauto|]); [intros Hp; by destruct (S8 b ltac:(set_solver))|by apply Hdis].
  - eapply chain_frame; [|exact S2]. intros b Hb. apply Hout. set_solver.
  - eapply chain_frame; [|exact S3]. intros b Hb. apply Hout. set_solver.
  - done.
  - done.
  - done.
  - intros b Hb. apply S8. set_solver.
Qed.

Lemma scan_block_ok s next v rest tl pl :
  scanning s next v (next :: rest) tl pl ->
  exists next' s' v' tl' pl', scan_block s class cpu stamp avg_life next v = Ret (next', s', v') /\ scanning s' next' v' rest tl' pl' /\ headers_kept held s s'.
Proof.
  intros HSc. destruct (sn_rest _ _ _ _ _ _ HSc) as (_ & H0 & x & Hx & _). unfold scan_block. rewrite Hx. cbn [from_option mbind outcome_bind].
  destruct ((avg_life <? _) && _); cbn [negb andb]; rewrite ?andb_false_r, ?andb_true_r.
  - set (v1 := mkScan next _ _ _ _ _). destruct (block_moved s v rest tl pl next x (next :: tl) pl (sc_trim_list v) v1 HSc Hx ltac:(by left)) as [Hm Hk].
    eexists _, _, _, (next :: tl), pl. split; [done|]. split; [|done]. case_match; [|done]. by apply (scanning_avg _ _ v1).
  - set (v1 := mkScan (sc_trim_list v) next _ _ _ _). destruct (block_moved s v rest tl pl next x tl (next :: pl) (sc_push_list v) v1 HSc Hx ltac:(by right)) as [Hm Hk].
    set (v2 := if negb (h_life_time x =? 0) then _ else v1). assert (Hm2 : scanning (put_mem s next (with_s_next (sc_push_list v) x)) (h_next x) v2 rest tl (next :: pl)).
    { unfold v2. case_match; [|done]. by apply (scanning_avg _ _ v1). }
    case_match.
    + destruct (flush_ok _ _ _ _ _ _ Hm2 ltac:(done)) as (s' & Hr & Hk2 & Hfl). rewrite Hr. cbn [mbind outcome_bind]. eexists _, s', _, tl, []. split; [done|]. split; [by apply Hfl|by etrans].
    + eexists _, _, v2, tl, (next :: pl). done.
Qed.

Lemma scan_loop_ok fuel : forall s next v rest tl pl,
  scanning s next v rest tl pl -> (length rest < fuel)%nat ->
  exists s' v' tl' pl', scan_loop fuel s class cpu stamp avg_life next v = Ret (s', v') /\ scanning s' null v' [] tl' pl' /\ headers_kept held s s'.
Proof.
  induction fuel as [|fuel IH]; intros s next v rest tl pl HSc Hf; [lia|]. cbn [scan_loop]. destruct (Z.eqb_spec next null) as [->|Hn].
  - exists s, v, tl, pl. split; [done|]. split; [|done]. destruct rest as [|a rest]; [done|]. by destruct (sn_rest _ _ _ _ _ _ HSc) as (<- & ? & _).
  - destruct rest as [|a rest]; [by destruct Hn, (sn_rest _ _ _ _ _ _ HSc)|]. assert (a = next) as -> by (by destruct (sn_rest _ _ _ _ _ _ HSc) as (-> & _)).
    destruct (scan_block_ok _ _ _ _ _ _ HSc) as (next' & s' & v' & tl' & pl' & Hr & HSc' & Hk). rewrite Hr. cbn [mbind outcome_bind].
    destruct (IH s' next' v' rest tl' pl' HSc' ltac:(cbn [length] in Hf; lia)) as (s2 & v2 & tl2 & pl2 & Hr2 & HSc2 & Hk2). exists s2, v2, tl2, pl2. split; [done|]. split; [done|by etrans].
Qed.
(** A held block goes to one of the two transfer lists. *)
Lemma push_one_ok s held' Q (trimmed : bool) a :
  sp s held' Q -> a ∈ held' -> a ∉ held -> P class a ->
  exists s' Q', transfer_push_single_to s trimmed class a cpu = Ret s' /\ sp s' (held' ∖ {[a]}) Q' /\ headers_kept held s s' /\ forall b, b <> a -> sl_mem s' !! b = sl_mem s !! b.
Proof.
  intros HS Ha Hh HP. pose proof (sp_rep _ _ _ _ _ _ HS) as HRep. assert (Hv : valid (cpus + 1) cpu class) by (split; lia).
  destruct (transfer_push_ok (cpus + 1) calm s Q trimmed cpu class a [a] a HRep Hv (spread_single _ _ _ _ _ _ _ HS Ha)) as (s' & Hr & HR' & Hst & Hlv).
  assert (Hf : forall b, b <> a -> sl_mem s' !! b = sl_mem s !! b) by (by eapply push_frame).
  exists s'. eexists. split; [exact Hr|]. split; [|split; [apply headers_links; [done|]; intros b Hb; apply Hf; by intros ->|done]].
  replace ({[a]} : gset Z) with (list_to_set [a] : gset Z) by (cbn; set_solver).
  apply (spread_give cpus P U s held' Q (if trimmed then Trim else Mail) cpu class [a] s'); try done; [set_solver|by eapply topo_static, Hst; apply HS|].
  intros b Hb. by apply list_elem_of_singleton in Hb as ->.
Qed.

End Scan.

(** ** Releasing pages *)

Section Release.
Context {K : Type} `{!Kernel K} (held : gset Z) (class cpu stamp requested : Z) (Hcpu : 0 <= cpu < cpus) (Hclass : 0 <= class < NUM_SIZE_CLASSES).
Context (R : relation K) `{!PreOrder R}.
Context (HR : forall c a start len k, P c a -> a ∉ held -> 0 <= c < NUM_SIZE_CLASSES -> release_range a (class_size c) = Some (start, len) -> R k (madvise start len LinuxDontNeed k).2).

Lemma release_memory_kept a k : P class a -> a ∉ held -> R k (release_memory a (class_size class) k).2.
Proof using HR Hclass PreOrder0. intros HP Hh. unfold release_memory. destruct (release_range a (class_size class)) as [[start len]|] eqn:E; [by eapply HR|done]. Qed.

(** Every block set aside is back on a list. *)
Lemma release_loop_ok fuel : forall s k total hd l Q,
  sp s (held ∪ list_to_set l) Q -> chain (sl_mem s) hd l 0 -> NoDup l -> (forall b, b ∈ l -> P class b /\ b ∉ held) -> (length l < fuel)%nat ->
  exists total' s' k' Q', release_loop fuel s k class cpu stamp requested total hd = Ret (total', s', k') /\ sp s' held Q' /\ headers_kept held s s' /\ R k k'.
Proof using All.
  induction fuel as [|fuel IH]; intros s k total hd l Q HS Hch Hnd Hl Hf; [lia|]. cbn [release_loop]. destruct l as [|a l]; cbn [chain] in Hch.
  { subst hd. exists total, s, k, Q. cbn [list_to_set] in HS. by rewrite (right_id_L ∅ (∪)) in HS. }
  destruct Hch as (-> & H0 & x & Hx & Hch). apply NoDup_cons in Hnd as [Hal Hnd]. destruct (Hl a ltac:(by left)) as [HP Hh]. destruct (Z.eqb_spec a null) as [|_]; [done|].
  rewrite Hx. cbn [from_option mbind outcome_bind]. pose proof (release_memory_kept a k HP Hh) as HRk.
  set (r := if (requested =? 0) || (total <? requested) then _ else _). assert (Hrk : R k r.2) by (unfold r; case_match; done). destruct r as [did k1]. cbn [snd] in Hrk.
  set (x' := mkHeader _ _ _ _ _). set (s1 := put_mem s a x').
  assert (Hput : headers_kept held s s1) by (apply (headers_put held s a x); [done..|by left]).
  assert (HS1 : sp s1 (held ∪ list_to_set (a :: l)) Q) by (apply spread_write; [done|set_solver]).
  destruct (push_one_ok held class cpu Hcpu Hclass s1 _ Q did a HS1 ltac:(set_solver) Hh HP) as (s2 & Q2 & Hr & HS2 & Hk2 & Hf2).
  replace (if did then transfer_push_single_trimmed s1 class a cpu else transfer_push_single s1 class a cpu) with (transfer_push_single_to s1 did class a cpu) by (by destruct did).
  rewrite Hr. cbn [mbind outcome_bind].
  assert (Hset : (held ∪ list_to_set (a :: l)) ∖ {[a]} = held ∪ list_to_set l).
  { apply set_eq. intros b. cbn [list_to_set]. rewrite elem_of_difference, !elem_of_union, elem_of_singleton, elem_of_list_to_set. destruct (decide (b = a)) as [->|]; tauto. }
  rewrite Hset in HS2. destruct (IH s2 k1 (if did then wadd total (class_size class) else total) (h_next x) l Q2 HS2) as (t3 & s3 & k3 & Q3 & Hr3 & HS3 & Hk3 & HR3); [|done|intros b Hb; apply Hl; by right|cbn [length] in Hf; lia|].
  { eapply chain_frame; [|exact Hch]. intros b Hb. rewrite Hf2 by (by intros ->). cbn. by rewrite lookup_insert_ne by (by intros ->). }
  exists t3, s3, k3, Q3. split; [done|]. split; [done|]. split; [etrans; [exact Hput|]; by etrans|by etrans].
Qed.

(** ** All lists *)

(** The blocks are where they were or on another list, and only pages of blocks
    that are not held went to the kernel. *)
Record trimmed (st st' : Trimmer) : Prop := {
  td_spread : exists Q, sp (tr_slab st') held Q;
  td_kept : headers_kept held (tr_slab st) (tr_slab st');
  td_kern : R (tr_kern st) (tr_kern st');
  td_smoothing : length (tr_smoothing st') = length (tr_smoothing st);
}.

Lemma trimmed_trans st1 st2 st3 : trimmed st1 st2 -> trimmed st2 st3 -> trimmed st1 st3.
Proof using PreOrder0. intros [A1 A2 A3 A4] [B1 B2 B3 B4]. constructor; [done|by etrans|by etrans|congruence]. Qed.

Lemma smooth_ok l c demand : 0 <= c < NUM_SIZE_CLASSES -> length l = class_count -> exists l', smooth l c demand = Ret l' /\ length l' = length l.
Proof using. 
  intros Hc Hl. destruct (class_nat c Hc) as [Hn _]. unfold smooth. destruct (lookup_lt_is_Some_2 l (Z.to_nat c)) as [e He]; [lia|]. rewrite He. cbn [from_option mbind outcome_bind].
  eexists. split; [done|]. apply length_insert.
Qed.

(** The blocks seen and not set aside are pushed back at the end. *)
Lemma rest_pushed s v tl pl :
  scanning held class s null v [] tl pl ->
  exists s', (if 0 <? sc_total_push v then transfer_push_batch s class (sc_push_list v) (sc_push_list_start v) cpu else Ret s) = Ret s' /\ headers_kept held s s' /\
    exists v', sc_trim_list v' = sc_trim_list v /\ scanning held class s' null v' [] tl [].
Proof using Hcpu Hclass.
  intros HSc. pose proof (sn_last _ _ _ _ _ _ _ _ HSc) as [Hn _]. destruct pl as [|b pl].
  - rewrite Hn. cbn. exists s. split; [done|]. split; [done|]. by exists v.
  - rewrite Hn. cbn [length]. destruct (Z.ltb_spec 0 (Z.of_nat (S (length pl)))); [|lia]. destruct (flush_ok held class cpu Hcpu Hclass _ _ _ _ _ _ HSc ltac:(done)) as (s' & Hr & Hk & Hfl).
    exists s'. split; [done|]. split; [done|]. exists (mkScan (sc_trim_list v) null null 0 0 0). split; [done|]. by apply Hfl.
Qed.

Lemma chain_fuel (m : gmap Z Header) hd l : chain m hd l 0 -> NoDup l -> (length l < S (size m))%nat.
Proof using. intros Hc Hnd. pose proof (chain_length m hd l 0 (dom m) Hc Hnd ltac:(done)). rewrite size_dom in *. lia. Qed.
End Release.

Section Lists.
Context {K : Type} `{!Kernel K} (held : gset Z) (stamp requested : Z) (R : relation K) `{!PreOrder R}.
Context (HR : forall c a start len k, P c a -> a ∉ held -> 0 <= c < NUM_SIZE_CLASSES -> release_range a (class_size c) = Some (start, len) -> R k (madvise start len LinuxDontNeed k).2).

Abbreviation ready st := ((exists Q, sp (tr_slab st) held Q) /\ length (tr_smoothing st) = class_count).

Lemma trimmed_ready (st st' : Trimmer) : ready st -> trimmed held R st st' -> ready st'.
Proof using. intros [_ Hl] [T1 _ _ T4]. split; [done|congruence]. Qed.

Lemma trimmed_refl (st : Trimmer) : ready st -> trimmed held R st st.
Proof using PreOrder0. intros [H _]. by constructor. Qed.

Lemma trim_cpu_list_ok (st : Trimmer) cpu class :
  ready st -> 0 <= cpu < cpus -> 0 <= class < NUM_SIZE_CLASSES -> exists st', trim_cpu_list st stamp requested cpu class = Ret st' /\ trimmed held R st st'.
Proof using All.
  intros [[Q HS] Hlen] Hcpu Hclass. unfold trim_cpu_list. destruct (take_all_ok (tr_slab st) held Q cpu class HS Hcpu Hclass) as (a & s & l & Q1 & Hr & Hm & Hch & Hnd & Hl & HS1).
  rewrite Hr. cbn [mbind outcome_bind]. pose proof (headers_same held _ _ Hm) as Hk0. destruct (Z.eqb_spec a null) as [->|Ha].
  - destruct (smooth_ok (tr_smoothing st) class 100 Hclass Hlen) as (l' & Hs & Hl'). rewrite Hs. cbn [mbind outcome_bind]. eexists. split; [done|].
    assert (l = []) as -> by (by destruct l as [|b l]; [|destruct Hch as (<- & ? & _)]). constructor; cbn; [|done..]. exists Q1. cbn [list_to_set] in HS1. by rewrite (right_id_L ∅ (∪)) in HS1.
  - destruct (class_nat class Hclass) as [Hn _]. destruct (lookup_lt_is_Some_2 (tr_smoothing st) (Z.to_nat class)) as [e He]; [lia|]. rewrite He. cbn [from_option mbind outcome_bind].
    assert (HSc : scanning held class s a Scan_new l [] []).
    { constructor; rewrite ?app_nil_r; try done. by exists Q1. }
    destruct (scan_loop_ok held class cpu stamp (ema_time e 100) Hcpu Hclass (S (size (sl_mem s))) s a Scan_new l [] [] HSc (chain_fuel _ _ _ Hch Hnd)) as (s2 & v & tl & pl & Hr2 & HSc2 & Hk2).
    rewrite Hr2. cbn [mbind outcome_bind]. set (sm := if 0 <? sc_total v then _ else _).
    assert (Hsm : exists l', sm = Ret l' /\ length l' = length (tr_smoothing st)) by (unfold sm; case_match; [by apply smooth_ok|eauto]). destruct Hsm as (l' & -> & Hl'). cbn [mbind outcome_bind].
    destruct (rest_pushed held class cpu Hcpu Hclass s2 v tl pl HSc2) as (s3 & Hr3 & Hk3 & v3 & Hv3 & [[Q3 S1] _ S3 _ _ S6 S7]). rewrite Hr3. cbn [mbind outcome_bind]. cbn [app] in S1, S6, S7. rewrite app_nil_r in S1, S6, S7.
    destruct (release_loop_ok held class cpu stamp requested Hcpu Hclass R HR (S (size (sl_mem s3))) s3 (tr_kern st) (tr_total st) (sc_trim_list v) tl Q3 S1 ltac:(by rewrite <- Hv3) S6 S7) as (t4 & s4 & k4 & Q4 & Hr4 & HS4 & Hk4 & HR4); [by eapply chain_fuel|].
    rewrite Hr4. cbn [mbind outcome_bind]. eexists. split; [done|]. constructor; cbn; [by exists Q4| |done|done]. do 3 (etrans; [done|]). done.
Qed.

Lemma trim_classes_ok n : forall (st : Trimmer) cpu class,
  ready st -> 0 <= cpu < cpus -> 0 <= class -> class + Z.of_nat n <= NUM_SIZE_CLASSES ->
  exists st', trim_classes n st stamp requested cpu class = Ret st' /\ trimmed held R st st'.
Proof using All.
  induction n as [|n IH]; intros st cpu class Hst Hcpu Hc Hn; cbn [trim_classes]; [exists st; split; [done|by apply trimmed_refl]|].
  destruct (trim_cpu_list_ok st cpu class Hst Hcpu ltac:(lia)) as (st1 & Hr1 & Ht1). rewrite Hr1. cbn [mbind outcome_bind].
  destruct (IH st1 cpu (class + 1)) as (st2 & Hr2 & Ht2); [by eapply trimmed_ready|lia..|]. exists st2. split; [done|]. by eapply trimmed_trans.
Qed.

Lemma trim_cpus_ok n : forall (st : Trimmer) cpu,
  ready st -> 0 <= cpu -> cpu + Z.of_nat n <= cpus -> exists st', trim_cpus n st stamp requested cpu = Ret st' /\ trimmed held R st st'.
Proof using All.
  induction n as [|n IH]; intros st cpu Hst Hcpu Hn; [exists st; split; [done|by apply trimmed_refl]|]. unfold trim_cpus; fold (@trim_cpus K _).
  destruct (trim_classes_ok (Z.to_nat (NUM_SIZE_CLASSES - get_size_4096_class)) st cpu get_size_4096_class Hst) as (st1 & Hr1 & Ht1); [lia|by vm_compute|by vm_compute|]. rewrite Hr1. cbn [mbind outcome_bind].
  destruct (IH st1 (cpu + 1)) as (st2 & Hr2 & Ht2); [by eapply trimmed_ready|lia..|]. exists st2. split; [done|]. by eapply trimmed_trans.
Qed.

Lemma trim_small_ok s k l average free Q :
  sp s held Q -> length l = class_count ->
  exists n s' k' l' average', trim_small s k l average stamp requested free = Ret (n, s', k', l', average') /\
    (exists Q', sp s' held Q') /\ headers_kept held s s' /\ R k k' /\ length l' = class_count.
Proof using All.
  intros HS Hl. unfold trim_small. destruct free; cbn [negb]; [|eexists _, s, k, l, _; split; [done|]; by split_and!; [eauto|..]].
  assert (Hn : ncpu (si_numa (sl_inner s)) = cpus) by apply (sp_topo _ _ _ _ _ _ HS). pose proof (to_cpus _ _ (sp_topo _ _ _ _ _ _ HS)) as Hcp.
  destruct (trim_cpus_ok (Z.to_nat (ncpu (si_numa (sl_inner s)))) (mkTrimmer s k l 0) 0) as (st & Hr & [T1 T2 T3 T4]); [by eauto|done|lia|]. rewrite Hr. cbn [mbind outcome_bind].
  eexists _, _, _, _, _. split; [done|]. split; [done|]. split; [done|]. split; [done|]. by rewrite T4.
Qed.
End Lists.
End Trim.

(** The pages released are whole pages of the payload. *)
Lemma release_range_inside a size start len :
  0 <= a -> 0 <= size -> a + 16 + size <= 2 ^ 47 -> release_range a size = Some (start, len) ->
  (4096 | start) /\ (4096 | len) /\ 0 < len /\ a + 16 <= start /\ start + len <= a + 16 + size.
Proof.
  intros Ha Hs Hb. unfold release_range. change Header_SIZE with 16. rewrite (wadd_small a 16) by lia. rewrite !wadd_small by (unfold is_u; lia). rewrite wsub_small by lia.
  change (4096 - 1) with (2 ^ 12 - 1). rewrite !land_wnot_low by (unfold is_u; lia). change (2 ^ 12) with 4096.
  pose proof (Z.div_mod (a + 16 + 4096 - 1) 4096 ltac:(lia)). pose proof (Z.mod_pos_bound (a + 16 + 4096 - 1) 4096 ltac:(lia)).
  pose proof (Z.div_mod (a + 16 + size) 4096 ltac:(lia)). pose proof (Z.mod_pos_bound (a + 16 + size) 4096 ltac:(lia)).
  case_match eqn:E; [done|]. intros [= <- <-]. split_and!; [apply Z.divide_factor_r| |lia|lia|lia]. apply Z.divide_sub_r; apply Z.divide_factor_r.
Qed.

(** ** The heap *)

Section Heap.
Context {K : Type} `{!Kernel K} `{!KernelSpec K} {Fr : frame} (cfg : config) (cpus : Z).
Implicit Types (h : heap K) (ts : gmap nat tls) (C B : gmap Z Z) (A M W : gset Z).

(** A range of whole pages inside the payload of a block that is not in [A]. *)
Definition spare_pages B A (start len : Z) : Prop :=
  (4096 | start) /\ (4096 | len) /\ exists a c, B !! a = Some c /\ a ∉ A /\ a + 16 <= start /\ start + len <= a + block_size_of c.

Lemma heap_trimmed h ts C B A M W (R : relation K) `{!PreOrder R} l average stamp requested free :
  heap_inv cfg cpus h ts C B A M W -> length l = class_count ->
  (forall start len k, spare_pages B A start len -> R k (madvise start len LinuxDontNeed k).2) -> (forall k k', R k k' -> forall y, mapped k y -> mapped k' y) ->
  exists n s k l' average', trim_small (hp_slab h) (hp_kern h) l average stamp requested free = Ret (n, s, k, l', average') /\
    heap_inv cfg cpus (set_kern (set_slab h s) k) ts C B A M W /\ R (hp_kern h) k /\ length l' = class_count /\ headers_kept A (hp_slab h) s.
Proof.
  intros HI Hl HR Hmap. pose proof HI as [HS [L HP] HQ [[Q HB1] HB2 HB3 HB4]].
  destruct (trim_small_ok cpus (fun c a => B !! a = Some c) (dom B) A stamp requested R) with (s := hp_slab h) (k := hp_kern h) (l := l) (average := average) (free := free) (Q := Q) as (n & s & k & l' & av & Hr & HS' & (Hk1 & Hk2 & Hk3) & HRk & Hl'); [|done|done|].
  { intros c a start len k HBa Ha Hc Hrel. apply HR. destruct (class_facts_of c Hc) as [F1 _ F3 _ _ _ _]. destruct (block_bytes _ _ _ _ _ _ _ _ _ _ _ a HI HBa ltac:(lia)) as (Ha0 & _ & Hend & _).
    destruct (release_range_inside a (class_size c) start len) as (H1 & H2 & _ & H3 & H4); [lia..|done|]. split; [done|]. split; [done|]. exists a, c. split_and!; [done|done|lia|lia]. }
  exists n, s, k, l', av. split; [done|]. split; [|done]. constructor; [by destruct HS|exists L; apply (pages_inv_kern (set_slab h s)); [by apply (pages_inv_frame h)|by apply Hmap]|destruct HQ as [Sk []]; exists Sk; by constructor|]. constructor; cbn.
  - exact HS'.
  - intros a [x Hx]. apply HB2. destruct (sl_mem (hp_slab h) !! a) eqn:E; [eauto|]. by rewrite (Hk2 a E) in Hx.
  - intros a c x HBa Hx. destruct (sl_mem (hp_slab h) !! a) as [y|] eqn:E; [|by rewrite (Hk2 a E) in Hx]. destruct (Hk1 a y E) as (x' & Hx' & E1 & E2 & E3). assert (x' = x) as -> by congruence.
    destruct (HB3 a c y HBa E) as (F1 & F2 & F3). split; [congruence|]. split; [congruence|]. destruct E3 as [->|]; done.
  - intros a Ha. destruct (HB4 a Ha) as (Hf & y & E & F2 & F3). split; [done|]. destruct (Hk1 a y E) as (x & Hx & _ & E2 & E3). exists x. split; [done|]. split; [congruence|]. destruct E3 as [->|]; done.
Qed.
End Heap.
