(* ===== verification/Realloc.v ===== *)
(** * Zeroed and resized allocations (src/inner/calloc.rs, src/inner/realloc.rs)

    These two look at the contents of payloads, so they carry the bytes of the
    memory outside the allocator's own structures.  Without the features [preload]
    and [explicit-zero]; [alloc_zeroed] and [realloc] of [GlobalAlloc]
    (src/global_alloc.rs) are here too. *)

From S2P Require Import Prelude Types SizeClasses Kernel Radix RBTree Buddy PageAllocator Predictor SList PendingQueue Rseq SlabCache Heap BulkFill Alloc GlobalAlloc.

(** The byte at each address. *)
Abbreviation bytes := (Z -> Z).

Definition zero (m : bytes) (pointer len : Z) : bytes :=
  fun y => if (pointer <=? y) && (y <? pointer + len) then 0 else m y.

Definition copy_nonoverlapping (m : bytes) (src dst count : Z) : bytes :=
  fun y => if (dst <=? y) && (y <? dst + count) then m (src + (y - dst)) else m y.

(** [1usize << addr.trailing_zeros()] *)
Definition observed_alignment (addr : Z) : Z := wshl 1 (trailing_zeros addr).

(** [Layout::array::<u8>] refuses more than [isize::MAX] bytes. *)
Definition layout_array (size : Z) : option Z := if size <=? 2 ^ 63 - 1 then Some size else None.

Section Realloc.
Context {K : Type} `{!Kernel K} (cfg : config).
Implicit Types (h : heap K) (th : tls) (m : bytes).

(** ** calloc *)

(** [calloc_zero!] *)
Definition calloc_zero h m (header ptr actual_size effective_size : Z) : outcome bytes :=
  x ← get_header h header;
  let flags := h_flags x in
  Ret (if (flags =? ALLOCATED_FLAG) || (flags =? TRIMMED_FLAG) then zero m ptr (Z.min actual_size effective_size) else m).

Definition calc_and_get th h (e : env) (size nmem : Z) : outcome (option (Z * Z) * tls * heap K) :=
  match checked_mul nmem size with
  | None => Ret (None, th, h)
  | Some total_size =>
      let effective_size := Z.max total_size 1 in
      '(ptr, th, h) ← rs_alloc cfg th h e effective_size false;
      Ret (if ptr =? null then None else Some (ptr, effective_size), th, h)
  end.

Definition rs_calloc th h (e : env) m (size zero_size : Z) : outcome (Z * tls * heap K * bytes) :=
  match layout_array size with
  | None => Ret (null, th, h, m)
  | Some layout =>
      '(r, th, h) ← calc_and_get th h e layout zero_size;
      match r with
      | None => Ret (null, th, h, m)
      | Some (ptr, effective_size) =>
          let header := get_actual_header ptr in
          match match_size_class effective_size with
          | Some class =>
              actual_size ← from_option (SIZE_CLASSES !! Z.to_nat class);
              m ← calloc_zero h m header ptr actual_size effective_size;
              Ret (ptr, th, h, m)
          | None =>
              meta ← RBTree.get (hp_big h) ptr;
              match meta with
              | None => Fatal AttackOrCorruption
              | Some meta =>
                  m ← calloc_zero h m header ptr (bm_size meta) effective_size;
                  Ret (ptr, th, h, m)
              end
          end
      end
  end.

(** [alloc_zeroed] *)
Definition alloc_zeroed th h (e : env) m (size align : Z) : outcome (Z * tls * heap K * bytes) :=
  if align <=? 16 then rs_calloc th h e m 1 size
  else
    '(ptr, th, h) ← GlobalAlloc.alloc cfg th h e size align;
    Ret (ptr, th, h, if negb (ptr =? null) then zero m ptr size else m).

(** ** realloc *)

(** A new block, the copy of the old contents and the release of the old block. *)
Definition move_block th h (e : env) m (old old_size new_size : Z) : outcome (Z * tls * heap K * bytes) :=
  '(new, th, h) ← rs_alloc cfg th h e new_size false;
  if new =? null then Ret (null, th, h, m)
  else
    let m := copy_nonoverlapping m old new (Z.min old_size new_size) in
    h ← rs_free cfg h e old;
    Ret (new, th, h, m).

(** The span of a class with one block per span grows in its arena: whether it
    did. *)
Definition grow_span h (header old_class new_class : Z) : outcome (bool * heap K) :=
  let metadata_size := MetaData_SIZE in
  let block_size := align_to (class_size old_class + Header_SIZE) 16 in
  let new_block_size := align_to (class_size new_class + Header_SIZE) 16 in
  let mapping_base := wsub header metadata_size in
  if negb (Z.land mapping_base 4095 =? 0) then Ret (false, h)
  else
    x ← from_option (hp_spans h !! mapping_base);
    if (md_start x =? mapping_base) && negb (md_node_id x =? 2 ^ 16 - 1) && (header =? wadd mapping_base metadata_size) then
      let old_total := metadata_size + block_size in
      let new_logical_total := metadata_size + new_block_size in
      let old_page_total := align_to old_total 4096 in
      let new_page_total := align_to new_logical_total 4096 in
      '(grown, p) ← try_grow_inplace (ARENA_SIZE cfg) (hp_pages h) (md_node_id x) mapping_base old_page_total new_page_total;
      let h := set_pages h p (hp_pages_once h) in
      if grown : bool then
        let e := wadd mapping_base new_logical_total in
        let h := set_spans h (hp_queue h) (<[mapping_base := mkMetaData (md_next_page x) (md_start x) e e (md_node_id x)]> (hp_spans h)) in
        t ← Radix.set_range (hp_radix h) mapping_base new_page_total true;
        let h := set_radix h t in
        let h := set_cached h (add_slab_cached_va (hp_cached_va h) (saturating_sub new_page_total old_page_total)) (hp_trim_guard h) in
        y ← get_header h header;
        Ret (true, put_header h header (mkHeader (h_next y) (h_flags y) new_class (h_magic y) (h_life_time y)))
      else Ret (false, h)
    else Ret (false, h).

Definition small_realloc th h (e : env) m (ptr new_size : Z) : outcome (Z * tls * heap K * bytes) :=
  let header := get_actual_header ptr in
  x ← get_header h header;
  let old_class := h_class x in
  old_payload_size ← from_option (SIZE_CLASSES !! Z.to_nat old_class);
  if new_size <=? old_payload_size then Ret (ptr, th, h, m)
  else
    match match_size_class new_size with
    | None => move_block th h e m ptr old_payload_size new_size
    | Some new_class =>
        if old_class =? new_class then Ret (ptr, th, h, m)
        else
          '(grown, h) ← (if (iterations old_class =? 1) && (iterations new_class =? 1) then grow_span h header old_class new_class else Ret (false, h));
          if grown : bool then Ret (walk_header header, th, h, m)
          else move_block th h e m ptr old_payload_size new_size
    end.

(** [while current_order < BIG_BUDDY_MAX_ORDER]: the address when the block is
    large enough. *)
Fixpoint grow_buddy (n : nat) h (old_ptr current_addr current_order aligned_new new_size : Z) (meta : BigAllocMeta) : outcome (option Z * heap K) :=
  match n with
  | O => Ret (None, h)
  | S n' =>
      if negb (current_order <? BIG_BUDDY_MAX_ORDER) then Ret (None, h)
      else if BIG_BUDDY_MAX_ORDER <? trailing_zeros (next_power_of_two aligned_new) then Ret (None, h)
      else
        '(r, b) ← Buddy.try_grow_inplace (hp_buddy h) (bm_buddy_region meta) current_addr current_order;
        let h := set_buddy h b in
        match r with
        | None => Ret (None, h)
        | Some (new_addr, new_order) =>
            '(_, t) ← RBTree.replace (hp_big h) old_ptr (mkBigAllocMeta null (bm_size meta) new_order (bm_buddy_region meta) (bm_aligned meta));
            let h := set_big h t in
            if aligned_new <=? wshl 1 new_order then
              '(_, t) ← RBTree.replace (hp_big h) old_ptr (mkBigAllocMeta null new_size new_order (bm_buddy_region meta) (bm_aligned meta));
              Ret (Some (walk_header new_addr), set_big h t)
            else grow_buddy n' h old_ptr new_addr new_order aligned_new new_size meta
        end
  end.

(** In place, by [mremap] or in the buddy allocator; else by a copy. *)
Definition big_realloc_grow th h (e : env) m (ptr new_size new_total : Z) (meta : BigAllocMeta) : outcome (Z * tls * heap K * bytes) :=
  let old_mapping := wsub ptr Header_SIZE in
  let is_in_buddy := negb (bm_buddy_region meta =? 0) in
  let old_mapped_size := if is_in_buddy then wshl 1 (bm_order meta) else estimate_and_align_2mb cfg (wadd (bm_size meta) Header_SIZE) in
  let aligned_new := estimate_and_align_2mb cfg new_total in
  if is_in_buddy && (aligned_new <=? old_mapped_size) then
    '(_, t) ← RBTree.replace (hp_big h) ptr (mkBigAllocMeta null new_size (bm_order meta) (bm_buddy_region meta) (bm_aligned meta));
    Ret (ptr, th, set_big h t, m)
  else
    '(r, h) ← (if negb is_in_buddy then
       match mremap old_mapping old_mapped_size aligned_new (hp_kern h) with
       | (Some new_addr, k) =>
           let h := set_kern h k in
           '(_, t) ← RBTree.replace (hp_big h) ptr (mkBigAllocMeta null new_size (trailing_zeros (next_power_of_two aligned_new)) 0 false);
           Ret (Some (walk_header new_addr), set_big h t)
       | (None, k) => Ret (None, set_kern h k)
       end
     else grow_buddy (Z.to_nat BIG_BUDDY_MAX_ORDER) h ptr old_mapping (bm_order meta) aligned_new new_size meta);
    match r with
    | Some p => Ret (p, th, h, m)
    | None => move_block th h e m ptr (bm_size meta) new_size
    end.

Definition big_realloc th h (e : env) m (ptr new_size : Z) : outcome (Z * tls * heap K * bytes) :=
  old_meta ← RBTree.get (hp_big h) ptr;
  match old_meta with
  | None => Ret (null, th, h, m)
  | Some meta =>
      if new_size <=? bm_size meta then Ret (ptr, th, h, m)
      else
        match match_size_class new_size with
        | Some _ => move_block th h e m ptr (bm_size meta) new_size
        | None =>
            match checked_add new_size Header_SIZE with
            | None => Ret (null, th, h, m)
            | Some new_total => big_realloc_grow th h e m ptr new_size new_total meta
            end
        end
  end.

(** A pointer inside its block: as aligned as it is. *)
Definition aligned_realloc th h (e : env) m (ptr new_size : Z) : outcome (Z * tls * heap K * bytes) :=
  old_usable ← usable_size cfg h ptr;
  if new_size <=? old_usable then Ret (ptr, th, h, m)
  else
    '(new_ptr, th, h) ← memalign_inner cfg th h e (observed_alignment ptr) new_size;
    if new_ptr =? null then Ret (null, th, h, m)
    else
      let m := copy_nonoverlapping m ptr new_ptr (Z.min old_usable new_size) in
      h ← rs_free cfg h e ptr;
      Ret (new_ptr, th, h, m).

Definition rs_realloc th h (e : env) m (ptr new_size : Z) : outcome (Z * tls * heap K * bytes) :=
  if ptr =? null then
    '(p, th, h) ← rs_alloc cfg th h e (Z.max new_size 1) false;
    Ret (p, th, h, m)
  else if new_size =? 0 then
    h ← rs_free cfg h e ptr;
    Ret (null, th, h, m)
  else
    owned ← Radix.is_owned (hp_radix h) ptr;
    if owned : bool then
      searched ← find_original_ptr cfg h ptr;
      if negb (searched =? ptr) then aligned_realloc th h e m ptr new_size
      else
        x ← get_header h (get_actual_header searched);
        if h_magic x =? BIG_MAGIC cfg then big_realloc th h e m searched new_size else small_realloc th h e m searched new_size
    else if FOREIGN_POINTER_ABORT cfg then Fatal ForeignPointer
    else Ret (null, th, h, m).
End Realloc.
