(* ===== verification/ReallocProofs.v ===== *)
(** * Resizing keeps the heap

    The growth of a span in its arena and the move to another block keep the
    invariant of the heap; the contents follow the pointer. *)

From S2P Require Import Prelude Types SizeClasses Kernel Radix RadixProofs RBTree Buddy BuddyGrow PageAllocator PageProofs PageSpec Numa NumaSpec Predictor SList PendingQueue Rseq Bitmap SlabCache SlabProofs SlabSteal SlabSpec Heap BulkFill Alloc HeapFrame HeapInv HeapFill HeapOps Random GlobalAlloc Realloc.

Ltac Zify.zify_post_hook ::= idtac.

(** ** Classes with one block per span *)

Lemma single_check : forallb (fun c => negb (iterations c =? 1) || (span_blocks c =? 1)) (seqZ 0 NUM_SIZE_CLASSES) = true.
Proof. by vm_compute. Qed.

Lemma single_block c : 0 <= c < NUM_SIZE_CLASSES -> iterations c = 1 -> span_blocks c = 1.
Proof.
  intros Hc Hi. pose proof single_check as Hall. rewrite forallb_forall in Hall. assert (Hin : In c (seqZ 0 NUM_SIZE_CLASSES)) by (apply list_elem_of_In, elem_of_seqZ; lia).
  specialize (Hall c Hin). cbv beta in Hall. rewrite Hi in Hall. cbn [Z.eqb negb orb] in Hall. by apply Z.eqb_eq.
Qed.

Section Grow.
Context {K : Type} `{!Kernel K} `{!KernelSpec K} {Fr : frame} (cfg : config) (cpus : Z).
Implicit Types (h : heap K) (ts : gmap nat tls) (C B : gmap Z Z) (A M W : gset Z).

Abbreviation inv := (heap_inv cfg cpus).
Abbreviation bsz := block_size_of.
Abbreviation total c := (span_total c (block_size_of c)).

Lemma single_span h C B a c :
  spans_inv h C B -> B !! a = Some c -> iterations c = 1 ->
  exists x, C !! (a - 48) = Some c /\ span_at (hp_spans h) (a - 48) c x 1 /\ total c = 48 + bsz c /\ md_next x = md_end x.
Proof.
  intros HS (m & x & j & i & Hm & Hs & Hi & ->)%(si_block _ _ _ HS) Hit. pose proof (sa_class _ _ _ _ _ Hs) as Hc. pose proof (single_block c Hc Hit) as Hb.
  pose proof (sa_cursor _ _ _ _ _ Hs) as Hj. assert (j = 1) as -> by lia. assert (i = 0) as -> by lia. destruct (class_facts_of c Hc) as [F1 _ F3 F4 _ _ _]. rewrite Hb in F4.
  replace (m + 48 + 0 * bsz c - 48) with m by lia. exists x. split; [done|]. split; [done|]. split; [lia|]. destruct (sa_fields _ _ _ _ _ Hs) as (_ & -> & _). rewrite (sa_next _ _ _ _ _ Hs). lia.
Qed.

Lemma page_total c : 0 <= c < NUM_SIZE_CLASSES -> total c = 48 + bsz c ->
  align_to (48 + bsz c) 4096 = page_bytes (total c) /\ page_bytes (align_to (48 + bsz c) 4096) = page_bytes (total c).
Proof.
  intros Hc Ht. destruct (class_facts_of c Hc) as [F1 _ F3 _ _ _ _]. assert (E : align_to (48 + bsz c) 4096 = page_bytes (total c)).
  { unfold page_bytes. rewrite Ht, Z.max_l by lia. done. }
  split; [done|]. rewrite E. destruct (page_bytes_ok (total c)) as (H1 & H2 & [q H3]); [lia|]. unfold page_bytes at 1. rewrite Z.max_l by lia. rewrite H3. change PAGE_SIZE with (2 ^ 12).
  rewrite align_to_pow2 by lia. change (2 ^ 12) with 4096. replace (q * 4096 + 4096 - 1) with (4095 + q * 4096) by lia. rewrite Z.div_add by lia. change (4095 / 4096) with 0. lia.
Qed.

(** ** The span of a block changes its class *)

Section Regrow.
Context (h h' : heap K) (ts : gmap nat tls) (C B : gmap Z Z) (m c c' : Z) (x x' : MetaData).
Context (HC : C !! m = Some c) (Hx : span_at (hp_spans h) m c x 1) (Hx' : span_at (hp_spans h') m c' x' 1).
Context (Hspans : hp_spans h' = <[m := x']> (hp_spans h)) (HS : spans_inv h C B).

Lemma regrown_span m' k y j : m' <> m -> span_at (hp_spans h') m' k y j <-> span_at (hp_spans h) m' k y j.
Proof using Hspans. clear HC Hx Hx' HS. intros Hne. rewrite Hspans. split; [by apply span_at_other|by apply span_at_other]. Qed.

Lemma regrown_spans :
  (forall m' k y, m' <> m -> C !! m' = Some k -> m' <= y < m' + total k -> ~ m <= y < m + total c') ->
  spans_inv h' (<[m := c']> C) (<[m + 48 := c']> B).
Proof using HC Hx Hx' Hspans HS.
  intros Hap. assert (Hown : B !! (m + 48) = Some c) by (apply (si_block _ _ _ HS); exists m, x, 1, 0; split; [done|]; split; [done|]; split; lia). constructor.
  - intros m' k [[<- <-]|[Hne Hm]]%lookup_insert_Some; [by exists x', 1|]. destruct (si_span _ _ _ HS m' k Hm) as (y & j & Hy). exists y, j. by apply regrown_span.
  - intros m1 m2 c1 c2 y [[<- <-]|[Hn1 H1]]%lookup_insert_Some [[<- <-]|[Hn2 H2]]%lookup_insert_Some Hy1 Hy2; [done|..].
    + by destruct (Hap m2 c2 y (not_eq_sym Hn2) H2 Hy2).
    + by destruct (Hap m1 c1 y (not_eq_sym Hn1) H1 Hy1).
    + by eapply (si_apart _ _ _ HS m1 m2 c1 c2 y).
  - intros b k. split.
    + intros [[<- <-]|[Hne Hb]]%lookup_insert_Some; [exists m, x', 1, 0; rewrite lookup_insert_eq; split; [done|]; split; [done|]; split; lia|].
      apply (si_block _ _ _ HS) in Hb as (m' & y & j & i & Hm & Hy & Hi & ->). assert (m' <> m).
      { intros ->. assert (k = c) as -> by congruence. destruct (span_at_unique _ _ _ _ _ _ _ Hx Hy) as [_ ->]. apply Hne. replace i with 0 by lia. lia. }
      exists m', y, j, i. split; [by rewrite lookup_insert_ne|]. split; [by apply regrown_span|done].
    + intros (m' & y & j & i & [[<- <-]|[Hne Hm]]%lookup_insert_Some & Hy & Hi & ->).
      * destruct (span_at_unique _ _ _ _ _ _ _ Hx' Hy) as [_ ->]. replace (m + 48 + i * bsz c') with (m + 48) by (replace i with 0 by lia; lia). by rewrite lookup_insert_eq.
      * apply regrown_span in Hy; [|done]. assert (Hb : B !! (m' + 48 + i * bsz k) = Some k) by (apply (si_block _ _ _ HS); eauto 10). rewrite lookup_insert_ne; [done|]. intros E.
        rewrite <- E, Hown in Hb. simplify_eq. apply Hne. assert (Hbk : forall n, n = m -> n <= m + 48 < n + total k) by (intros n ->; destruct (class_facts_of k (sa_class _ _ _ _ _ Hx)) as [F1 _ F3 F4 F5 _ _]; nia).
        apply (si_apart _ _ _ HS m m' k k (m + 48) HC Hm); [by apply Hbk|]. pose proof (sa_cursor _ _ _ _ _ Hy). pose proof (block_inside m' k i (sa_class _ _ _ _ _ Hy) ltac:(lia)).
        destruct (class_facts_of k (sa_class _ _ _ _ _ Hy)) as [F1 _ F3 _ _ _ _]. lia.
Qed.

Lemma regrown_queue W S :
  hp_queue h' = hp_queue h -> md_next x = md_end x -> m ∉ W -> m <> 0 -> queue_inv h ts C W S -> queue_inv h' ts (<[m := c']> C) W S.
Proof using Hspans Hx.
  clear HC Hx' HS. intros Hq Hfull HmW Hm0 HQ. assert (Hnw : ~ waiting ts S m).
  { intros (y & Hy & Hne)%(qv_open _ _ _ _ _ HQ). rewrite (sa_live _ _ _ _ _ Hx) in Hy. by simplify_eq. }
  destruct HQ as [Q1 Q2 Q3 Q4 Q5 Q6]. assert (HnS : forall s, m ∉ S s) by (intros s Hs; apply Hnw; left; eauto). constructor.
  - rewrite Hq, Hspans. destruct Q1 as [R1 R2 R3 R4 R5]. constructor; try done. intros s hd Hh. apply chain_insert; [apply HnS|by apply R2].
  - intros s a Ha. rewrite lookup_insert_ne; [by apply Q2|]. intros <-. by apply (HnS s).
  - intros a t k Hs Ha. destruct (Q3 a t k Hs Ha) as (H1 & H2). rewrite lookup_insert_ne; [done|]. intros <-. apply Hnw. right. eauto.
  - intros a Ha. destruct (Q4 a Ha) as (H1 & H2 & H3). split; [done|]. split; [|done]. rewrite lookup_insert_ne; [done|]. by intros <-.
  - done.
  - intros a Hw. rewrite Hspans. destruct (Q6 a Hw) as (y & Hy & Hne). exists y. split; [|done]. rewrite lookup_insert_ne; [done|]. by intros <-.
Qed.
End Regrow.

Lemma regrown_blocks h h' B A M a c c' y :
  blocks_inv cfg cpus h B A M -> a ∈ A -> B !! a = Some c -> sl_mem (hp_slab h) !! a = Some y ->
  hp_slab h' = mkSlab (sl_inner (hp_slab h)) (<[a := mkHeader (h_next y) (h_flags y) c' (h_magic y) (h_life_time y)]> (sl_mem (hp_slab h))) -> ~ fr_bytes a -> blocks_inv cfg cpus h' (<[a := c']> B) A M.
Proof.
  intros [[Q B1] B2 B3 B4] Ha HB Hy Hs Hf. constructor; rewrite Hs; cbn [sl_mem].
  - exists Q. assert (dom (<[a := c']> B) = dom B) as -> by (rewrite dom_insert_L; apply elem_of_dom_2 in HB; set_solver). apply spread_write; [|done].
    destruct B1 as [S1 S2 S3 S4 S5]. constructor; try done. intros k p q b Hb. destruct (decide (b = a)) as [->|Hne]; [|rewrite lookup_insert_ne by done; by eapply S5].
    destruct (S4 a Ha) as (_ & _ & Hno). by apply Hno in Hb.
  - intros b. rewrite !lookup_insert_is_Some. intros [->|[Hne Hb]]; [by left; left|]. destruct (B2 b Hb); [left; by right|by right].
  - intros b k x [[<- <-]|[Hne Hb]]%lookup_insert_Some [[E <-]|[Hne' Hx]]%lookup_insert_Some; [|done|done|by eapply B3].
    destruct (B3 a c y HB Hy) as (_ & H2 & H3). split; [done|]. split; done.
  - intros b Hb. destruct (B4 b Hb) as [Hfb Hx]. split; [done|]. rewrite lookup_insert_ne; [done|]. by intros <-.
Qed.

(** ** Growing in place *)

Lemma avail_bound p L y : page_inv p L -> page_avail p L y -> y < 2 ^ 47.
Proof.
  intros HP (a & b & e & cur & Ha & He & Hy). destruct (as_ok _ _ _ (pi_arenas _ _ HP) a Ha) as (b' & e' & cur' & He' & Hok). rewrite He in He'. simplify_eq. pose proof (ao_end _ _ _ _ _ Hok). lia.
Qed.

(** Growing an arena maps nothing. *)
Lemma advance_mapped (n : NodeMem K) a x next n' y : advance (ARENA_SIZE cfg) n a x next = Ret n' -> mapped (nm_kern n') y -> mapped (nm_kern n) y.
Proof.
  unfold advance, remove_arena, set_next, set_prev. intros H. split_run H; simplify_eq; cbn [nm_kern set_cursor put_arena set_arenas set_current]; try done;
    try (lazymatch goal with E : madvise ?a ?l ?v ?k = _ |- _ => pose proof (madvise_mapped a l v k y) as Hm; rewrite E in Hm; cbn [snd] in Hm; rewrite Hm end); by repeat case_match.
Qed.

Lemma grow_loop_mapped fuel : forall (n : NodeMem K) arena addr osz nsz b n' y, grow_loop (ARENA_SIZE cfg) fuel n arena addr osz nsz = Ret (b, n') -> mapped (nm_kern n') y -> mapped (nm_kern n) y.
Proof.
  induction fuel as [|fuel IH]; intros n arena addr osz nsz b n' y H; [done|]. cbn [grow_loop] in H. split_run H; simplify_eq; try done; [by eapply advance_mapped|by eapply IH].
Qed.

Lemma try_grow_mapped (p : PageAllocator K) node ptr osz nsz b p' y : try_grow_inplace (ARENA_SIZE cfg) p node ptr osz nsz = Ret (b, p') -> mapped (pg_kern p') y -> mapped (pg_kern p) y.
Proof. unfold try_grow_inplace, with_node. intros H. split_run H; simplify_eq; try done. cbn. by eapply (grow_loop_mapped _ _ _ _ _ _ _ _ y Hrun0). Qed.

(** The last page of a span is no other span's. *)
Lemma page_bytes_last c : 0 <= c < NUM_SIZE_CLASSES -> page_bytes (total c) < total c + 4096.
Proof.
  intros Hc. destruct (mul_total c Hc) as [Ht Ht22]. unfold page_bytes. change PAGE_SIZE with (2 ^ 12). rewrite Z.max_l by lia. destruct (align_to_spec (total c) 12); lia.
Qed.

Lemma pages_apart h C B m m' c k z :
  spans_inv h C B -> C !! m = Some c -> C !! m' = Some k -> m <= z < m + page_bytes (total c) -> m' <= z < m' + total k -> m' = m.
Proof.
  intros HS Hm Hm' Hz Hz'. destruct (si_span _ _ _ HS m c Hm) as (x & j & Hx). destruct (si_span _ _ _ HS m' k Hm') as (x' & j' & Hx'). destruct (sa_addr _ _ _ _ _ Hx) as (_ & [q Hq] & _).
  destruct (sa_addr _ _ _ _ _ Hx') as (_ & [q' Hq'] & _). destruct (mul_total c (sa_class _ _ _ _ _ Hx)) as [Ht Ht22]. destruct (page_bytes_ok (total c)) as (_ & _ & [r Hr]); [lia|].
  pose proof (page_bytes_last c (sa_class _ _ _ _ _ Hx)) as Hlast.
  destruct (Z.ltb_spec z (m + total c)); [apply (si_apart _ _ _ HS m' m k c z); [done|done|lia|lia]|]. destruct (Z.ltb_spec m' m); [apply (si_apart _ _ _ HS m' m k c m); [done|done|lia|lia]|].
  apply (si_apart _ _ _ HS m' m k c m'); [done|done|lia|]. split; [lia|]. destruct (Z.ltb_spec m' (m + total c)); [done|]. exfalso. assert (q' < q + r) by nia. nia.
Qed.

(** What a growth in the arena leaves behind. *)
Definition regrown h ts C B A M (a c' : Z) (r : outcome (bool * heap K)) : Prop :=
  match r with
  | Ret (grown, h') => same_big h h' /\ if grown then exists C', inv h' ts C' (<[a := c']> B) A M ∅ else inv h' ts C B A M ∅
  | Fatal e => e = VAIinitFailed
  | Stuck => False
  end.

(** The arena has grown by the bytes between the two sizes. *)
Lemma grown_ok h ts C B A M m c c' x y L p L' :
  inv h ts C B A M ∅ -> pages_inv h C L -> hp_pages_once h = true -> C !! m = Some c -> span_at (hp_spans h) m c x 1 -> md_next x = md_end x -> m + 48 ∈ A -> B !! (m + 48) = Some c ->
  0 <= c' < NUM_SIZE_CLASSES -> total c' = 48 + bsz c' -> span_blocks c' = 1 -> sl_mem (hp_slab h) !! (m + 48) = Some y ->
  page_inv p L' -> page_taken (hp_pages h) L p L' (m + page_bytes (total c)) (m + page_bytes (total c')) -> m + page_bytes (total c') <= 2 ^ 47 ->
  regrown h ts C B A M (m + 48) c'
    (let h1 := set_pages h p (hp_pages_once h) in
     let h2 := set_spans h1 (hp_queue h1) (<[m := mkMetaData (md_next_page x) (md_start x) (m + total c') (m + total c') (md_node_id x)]> (hp_spans h1)) in
     t ← Radix.set_range (hp_radix h2) m (page_bytes (total c')) true;
     let h3 := set_cached (set_radix h2 t) (add_slab_cached_va (hp_cached_va (set_radix h2 t)) (saturating_sub (page_bytes (total c')) (page_bytes (total c)))) (hp_trim_guard (set_radix h2 t)) in
     y ← get_header h3 (m + 48);
     Ret (true, put_header h3 (m + 48) (mkHeader (h_next y) (h_flags y) c' (h_magic y) (h_life_time y)))).
Proof.
  intros [HS _ [S HQ] HBl] HP Ho HC Hx Hfull Ha HB Hc' Ht' Hb1 Hy Hp Htk Hend. cbv zeta. set (x2 := mkMetaData (md_next_page x) _ _ _ _). set (h2 := set_spans _ _ _). destruct (sa_addr _ _ _ _ _ Hx) as (Hm0 & Hal & _).
  destruct (new_span_pages h C L p L' _ _ HP Ho Hp Htk) as (HP1 & Hnew & Hfr). destruct (mul_total c' Hc') as [Htot _].
  assert (HP2 : pages_inv h2 C L') by (by apply (pages_inv_frame (set_pages h p (hp_pages_once h)))).
  assert (Hbytes : forall z, m <= z < m + page_bytes (total c') -> mapped (hp_kern h2) z /\ ~ page_avail (hp_pages h2) L' z /\ ~ fr_bytes z).
  { intros z Hz. destruct (Z.ltb_spec z (m + page_bytes (total c))).
    - destruct (pv_bytes _ _ _ HP2 m c z HC ltac:(lia)). split_and!; [done|done|]. apply (pages_not_framed h2 C L' m c z HP2 HC). lia.
    - destruct (pt_bytes _ _ _ _ _ _ Htk z ltac:(lia)) as (_ & ? & ?). split_and!; [done|done|]. intros Hf. apply (Hfr z Hf). lia. }
  assert (Hx2 : span_at (hp_spans h2) m c' x2 1).
  { destruct (sa_fields _ _ _ _ _ Hx) as (E1 & _ & E3). constructor; cbn; [done|done|by rewrite lookup_insert_eq|done|lia|lia]. }
  assert (HS2 : spans_inv h2 (<[m := c']> C) (<[m + 48 := c']> B)).
  { eapply (regrown_spans h h2 C B m c c' x _ HC Hx Hx2 ltac:(done) HS). intros m' k z Hne Hm' Hz Hz'. destruct (si_span _ _ _ HS m' k Hm') as (x1 & j1 & Hx1). destruct (mul_total k (sa_class _ _ _ _ _ Hx1)) as [Htk1 _].
    destruct (Z.ltb_spec z (m + page_bytes (total c))) as [Hlt|Hge]; [apply Hne, (pages_apart h C B m m' c k z HS HC Hm'); [lia|done]|]. apply (Hnew m' k z Hm'); lia. }
  pose proof (pages_owned h2 h C B L' m c' (page_bytes (total c')) HP2 Ho Hp HS Hc' Hm0 ltac:(lia) Hend Hbytes) as Hown.
  destruct (Radix.set_range (hp_radix h2) m (page_bytes (total c')) true) as [t|e|]; cbn [mbind outcome_bind]; [|done..].
  set (h3 := set_cached (set_radix h2 t) _ _). assert (Hget : get_header h3 (m + 48) = Ret y) by (unfold get_header; cbn; by rewrite Hy). rewrite Hget. cbn [mbind outcome_bind regrown].
  split; [done|]. exists (<[m := c']> C). constructor.
  - by destruct HS2.
  - exists L'. by apply (pages_inv_frame (set_radix h2 t)).
  - exists S. eapply (regrown_queue h _ ts C m c c' x x2 Hx); [reflexivity|done|done|set_solver|lia|done].
  - apply (regrown_blocks h _ B A M (m + 48) c c' y); try done. intros Hf. destruct (Hbytes (m + 48)) as (_ & _ & Hno); [|done]. destruct (class_facts_of c' Hc'). nia.
Qed.

Lemma grow_span_ok h ts C B A M a c c' :
  inv h ts C B A M ∅ -> B !! a = Some c -> a ∈ A -> iterations c = 1 -> 0 <= c' < NUM_SIZE_CLASSES -> iterations c' = 1 -> regrown h ts C B A M a c' (grow_span cfg h a c c').
Proof.
  intros HI HB Ha Hi Hc' Hi'. destruct (single_span h C B a c (hi_spans _ _ _ _ _ _ _ _ _ HI) HB Hi) as (x & HC & Hx & Ht & Hfull). pose proof (sa_class _ _ _ _ _ Hx) as Hc.
  destruct (sa_addr _ _ _ _ _ Hx) as (Hm0 & [q Hq] & Hend). destruct (mul_total c Hc) as [Htot _]. set (m := a - 48) in *. assert (Ea : a = m + 48) by (unfold m; lia). clearbody m. subst a.
  assert (Hsame : regrown h ts C B A M (m + 48) c' (Ret (false, h))) by done. assert (Ht' : total c' = 48 + bsz c') by (destruct (class_facts_of c' Hc') as [_ _ _ F4 _ _ _]; rewrite (single_block c' Hc' Hi') in F4; lia).
  destruct (page_total c Hc Ht) as [E1 E2]. destruct (page_total c' Hc' Ht') as [E3 E4]. destruct (mul_total c' Hc') as [Htot' Hb22].
  unfold grow_span. fold (bsz c) (bsz c'). change MetaData_SIZE with 48. rewrite (wsub_small (m + 48) 48) by lia. replace (m + 48 - 48) with m by lia.
  destruct (Z.land m 4095 =? 0); cbn [negb]; [|exact Hsame]. rewrite (sa_live _ _ _ _ _ Hx). cbn [from_option mbind outcome_bind]. case_match; [|exact Hsame].
  rewrite E1, E3. destruct (block_header cfg cpus h ts C B A M ∅ (m + 48) c HI HB) as (y & Hy & _). destruct (hi_pages _ _ _ _ _ _ _ _ _ HI) as [L HP]. destruct (sa_fields _ _ _ _ _ Hx) as (_ & _ & Hnode).
  pose proof (page_bytes_last c Hc). pose proof (page_bytes_last c' Hc'). destruct (mul_total c Hc) as [_ Hb22'].
  destruct (pv_pages _ _ _ HP) as [[Ho Hpi]|Hnew].
  - destruct (grow_inplace_ok (ARENA_SIZE cfg) (hp_pages h) L (md_node_id x) m (page_bytes (total c)) (page_bytes (total c')) Hpi Hnode ltac:(lia) ltac:(lia)) as [(p & L' & Hr & Hp & Htk)|Hr];
      rewrite Hr; cbn [mbind outcome_bind].
    + rewrite <- E1, <- E3, E2, E4 in Htk. rewrite wadd_small by lia. rewrite <- Ht'.
      apply (grown_ok h ts C B A M m c c' x y L p L'); try done; [by apply single_block|].
      destruct (Z.leb_spec (page_bytes (total c')) (page_bytes (total c))); [lia|]. destruct (pt_bytes _ _ _ _ _ _ Htk (m + page_bytes (total c') - 1) ltac:(lia)) as ([Hav|Hn] & Hm & _).
      * apply (avail_bound _ _ _ Hpi) in Hav. lia.
      * destruct Hn. by eapply try_grow_mapped.
    + replace (set_pages h (hp_pages h) (hp_pages_once h)) with h by (by destruct h). exact Hsame.
  - assert (Hr : try_grow_inplace (ARENA_SIZE cfg) (hp_pages h) (md_node_id x) m (page_bytes (total c)) (page_bytes (total c')) = Ret (false, hp_pages h)).
    { unfold try_grow_inplace. fold (page_bytes (page_bytes (total c))) (page_bytes (page_bytes (total c'))). rewrite E1 in E2. rewrite E3 in E4. rewrite E2, E4.
      destruct (page_bytes (total c') <=? page_bytes (total c)); [by rewrite orb_true_r|]. rewrite orb_false_r. case_match; [done|]. by rewrite Hnew. }
    rewrite Hr. cbn [mbind outcome_bind]. replace (set_pages h (hp_pages h) (hp_pages_once h)) with h by (by destruct h). exact Hsame.
Qed.
End Grow.
