(* ===== verification/HeapLive.v ===== *)
(** * The live pointers

    The pointers handed out and not yet released, with the size and the alignment
    they were asked with; every call of the allocator keeps what they promise. *)

From S2P Require Import Prelude Types SizeClasses Kernel Radix RadixProofs RBTree Buddy BuddyGrow PageAllocator PageProofs PageSpec Numa NumaSpec Predictor SList PendingQueue Rseq Bitmap SlabCache SlabProofs SlabSteal SlabSpec Heap BulkFill Alloc HeapFrame HeapInv HeapFill HeapOps Random GlobalAlloc Trim TrimProofs Realloc ReallocProofs.

Section Spec.
Context {K : Type} `{!Kernel K} `{!KernelSpec K} {Fr : frame} (cfg : config) (cpus : Z).
Implicit Types (h : heap K) (ts : gmap nat tls) (C B D : gmap Z Z) (A M W : gset Z).

(** A layout of the Rust interface that a size class serves. *)
Definition small_layout (size align : Z) : Prop :=
  0 <= size /\ 0 < align /\ is_power_of_two align = true /\ (align <= 16 /\ size <= 2097152 \/ size + align + 16 <= 2097152).

(** The live pointers with the size and the alignment they were asked with. *)
Abbreviation live_map := (gmap Z (Z * Z)).
Implicit Types (V : live_map).

(** What runs when the thread [th] exits. *)
Definition thread_exit (th : tls) h : outcome (tls * heap K) :=
  if tb_init (THREAD_BULK th) then cleanup_thread_bulk th h else Ret (th, h).

(** ** The invariant of the live pointers *)

(** [p] points to [size] bytes of the block [a]; a pointer behind the header is
    aligned as any block is. *)
Record placed (raw : gmap Z Z) B (a p size align : Z) : Prop := {
  pl_size : 0 <= size;
  pl_align : (align | p);
  pl_pow : 0 < align /\ is_power_of_two align = true;
  pl_plain : p = a + 16 -> (align | 16);
  pl_block : exists c, B !! a = Some c /\ points_into cfg raw a c p /\ p + size <= a + block_size_of c;
}.

(** The block of each live pointer ([D]) is allocated, and no other is. *)
Record live_inv h ts V B D A : Prop := {
  lv_blocks a : a ∈ A <-> exists p, D !! p = Some a;
  lv_dom : dom D = dom V;
  lv_one p p' a : D !! p = Some a -> D !! p' = Some a -> p = p';
  lv_place p a size align : D !! p = Some a -> V !! p = Some (size, align) -> placed (hp_raw h) B a p size align;
  lv_raw y : fr_bytes y -> hp_raw h !! y = fr_raw !! y;
  lv_same : fr_same (hp_big h) (hp_buddy h);
}.

Definition heap_ok h ts V : Prop :=
  exists C B D A, heap_inv cfg cpus h ts C B A A ∅ /\ live_inv h ts V B D A.

Lemma live_placed h ts V B D A p size align :
  live_inv h ts V B D A -> V !! p = Some (size, align) -> exists a, D !! p = Some a /\ a ∈ A /\ placed (hp_raw h) B a p size align.
Proof.
  intros [L1 L2 L3 L4 _ _] Hp. assert (Hd : is_Some (D !! p)) by (apply elem_of_dom; rewrite L2; by apply elem_of_dom_2 in Hp). destruct Hd as [a Ha]. exists a. split; [done|]. split; [apply L1; eauto|by apply L4].
Qed.

Lemma live_block h ts V C B D A p size align :
  heap_inv cfg cpus h ts C B A A ∅ -> live_inv h ts V B D A -> V !! p = Some (size, align) ->
  exists a c, D !! p = Some a /\ a ∈ A /\ B !! a = Some c /\ points_into cfg (hp_raw h) a c p /\ 0 <= size /\ (align | p) /\ a + 16 <= p < a + block_size_of c /\ p + size <= a + block_size_of c.
Proof.
  intros HI HL Hp. destruct (live_placed _ _ _ _ _ _ _ _ _ HL Hp) as (a & Ha & HA & [P1 P2 _ _ (c & P3 & P4 & P5)]). exists a, c. split_and!; try done; by eapply (points_inside cfg); [eapply block_class|].
Qed.

(** Two live pointers share no byte. *)
Lemma live_apart h ts V p p' size size' align align' y :
  heap_ok h ts V -> V !! p = Some (size, align) -> V !! p' = Some (size', align') -> p <= y < p + size -> p' <= y < p' + size' -> p = p'.
Proof.
  intros (C & B & D & A & HI & HL) Hp Hp' Hy Hy'. destruct (live_block _ _ _ _ _ _ _ _ _ _ HI HL Hp) as (a & c & Hd & _ & HB & _ & _ & _ & Hin & Hfit).
  destruct (live_block _ _ _ _ _ _ _ _ _ _ HI HL Hp') as (a' & c' & Hd' & _ & HB' & _ & _ & _ & Hin' & Hfit').
  apply (lv_one _ _ _ _ _ _ HL p p' a); [done|]. rewrite Hd'. f_equal. symmetry. eapply (blocks_apart h C B a a' c c' y); [apply HI|done|done|lia|lia].
Qed.

(** Words written inside another block do not matter. *)
Lemma points_frame raw raw' a c p :
  0 <= c < NUM_SIZE_CLASSES -> points_into cfg raw a c p -> (forall y, a <= y < a + block_size_of c -> raw' !! y = raw !! y) -> points_into cfg raw' a c p.
Proof. intros Hc [->|(H1 & H2 & H3)] Hr; [by left|right]. split; [done|]. rewrite !Hr by lia. done. Qed.

Lemma placed_weaken raw B B' a p size align : B ⊆ B' -> placed raw B a p size align -> placed raw B' a p size align.
Proof. intros HB [P1 P2 P3 P4 (c & P5 & P6)]. constructor; try done. exists c. split; [by eapply lookup_weaken|done]. Qed.

(** A block that is not held has none of the bytes of a live pointer. *)
Lemma new_apart h h' ts ts' V C C' B B' D A A' a c q b sz al y :
  heap_inv cfg cpus h' ts' C' B' A' A' ∅ -> live_inv h ts V B D A -> B ⊆ B' -> a ∉ A -> B' !! a = Some c -> heap_inv cfg cpus h ts C B A A ∅ ->
  V !! q = Some (sz, al) -> D !! q = Some b -> a <= y < a + block_size_of c -> forall c', B !! b = Some c' -> ~ b <= y < b + block_size_of c'.
Proof.
  intros HI' HL HB HnA HBa HI Hq Hb Hy c' HBb Hy'. apply HnA. apply (lv_blocks _ _ _ _ _ _ HL). exists q. rewrite Hb. f_equal. symmetry.
  eapply (blocks_apart h' C' B' a b c c' y); [apply HI'|done|by eapply lookup_weaken|done|done].
Qed.

(** A pointer served extends the live ones. *)
Lemma live_served h ts V C B D A t align align' size p th' h' :
  heap_inv cfg cpus h ts C B A A ∅ -> live_inv h ts V B D A -> 0 <= size -> (align' | align) -> 0 < align' -> is_power_of_two align' = true ->
  served cfg cpus h ts C B A A t align size p th' h' -> V !! p = None /\ heap_ok h' (<[t := th']> ts) (<[p := (size, align')]> V).
Proof.
  intros HI HL Hs Hdiv H0 Hpow (C' & B' & a & c & HC & HB & HnA & HBa & HI' & Hpt & Hal & Hfit & Hpl & Hraw & Hbg & Hbd). pose proof HL as [L1 L2 L3 L4 L5 L6].
  pose proof (block_class _ _ _ _ _ _ _ _ _ _ _ HI' HBa) as Hc. pose proof (points_inside _ _ _ _ _ Hc Hpt) as Hin.
  pose proof (fun q b sz al y => new_apart h h' ts _ V C C' B B' D A _ a c q b sz al y HI' HL HB HnA HBa HI) as Happart.
  assert (HV : V !! p = None).
  { destruct (V !! p) as [[sz al]|] eqn:Hv; [|done]. exfalso. destruct (live_block _ _ _ _ _ _ _ _ _ _ HI HL Hv) as (b & c' & Hb & _ & HBb & _ & _ & _ & Hp & _). eapply (Happart p b sz al p Hv Hb); [lia|done|lia]. }
  assert (Hfresh : D !! p = None) by (apply not_elem_of_dom; rewrite L2; by apply not_elem_of_dom).
  split; [done|]. exists C', B', (<[p := a]> D), (A ∪ {[a]}). split; [done|]. constructor.
  - intros b. rewrite elem_of_union, elem_of_singleton, L1. split.
    + intros [[q Hq]| ->]; [exists q; rewrite lookup_insert_ne; [done|congruence]|exists p; by rewrite lookup_insert_eq].
    + intros [q Hq]. destruct (decide (q = p)) as [->|Hne]; [rewrite lookup_insert_eq in Hq; right; congruence|rewrite lookup_insert_ne in Hq by done; left; eauto].
  - rewrite !dom_insert_L. by rewrite L2.
  - intros q q' b [[<- <-]|[Hne Hq]]%lookup_insert_Some [[<- He]|[Hne' Hq']]%lookup_insert_Some; [done| | |by eapply L3].
    + destruct HnA. apply L1. eauto.
    + simplify_eq. destruct HnA. apply L1. eauto.
  - intros q b sz al [[<- <-]|[Hne Hq]]%lookup_insert_Some [[He [= <- <-]]|[Hne' Hv]]%lookup_insert_Some; [|done|done|].
    + constructor; [done|by etrans|done| |by exists c]. intros ->. destruct Hpl as [Hpl|]; [by etrans|done].
    + destruct (L4 q b sz al Hq Hv) as [P1 P2 P3 P4 (c' & P5 & P6 & P7)]. constructor; [done..|]. exists c'. split; [by eapply lookup_weaken|]. split; [|done].
      eapply points_frame; [exact (block_class _ _ _ _ _ _ _ _ _ _ _ HI P5)|exact P6|]. intros y Hy. apply Hraw. intros Hya. by eapply (Happart q b sz al y Hv Hq).
  - intros y Hy. rewrite Hraw; [by apply L5|]. intros Hya. by apply (block_not_framed _ _ _ _ _ _ _ _ _ _ _ y HI' HBa).
  - by rewrite Hbg, Hbd.
Qed.

(** A request refused leaves them alone. *)
Lemma live_refused h ts V C B D A t th' h' :
  live_inv h ts V B D A -> refused cfg cpus h ts C B A A t th' h' -> heap_ok h' (<[t := th']> ts) V.
Proof.
  intros [L1 L2 L3 L4 L5 L6] (C' & B' & HC & HB & HI' & (Hraw & Hbg & Hbd)). exists C', B', D, A. split; [done|]. constructor; rewrite ?Hraw, ?Hbg, ?Hbd; [done..| |done|done].
  intros p a size align Ha Hp. eapply placed_weaken; [exact HB|by apply L4].
Qed.

Lemma live_delete h h' ts V B D A p a :
  live_inv h ts V B D A -> D !! p = Some a -> same_big h h' -> live_inv h' ts (delete p V) B (delete p D) (A ∖ {[a]}).
Proof.
  intros [L1 L2 L3 L4 L5 L6] Ha (Hraw & Hbg & Hbd). constructor; [| | | |by rewrite Hraw|by rewrite Hbg, Hbd].
  - intros b. rewrite elem_of_difference, elem_of_singleton, L1. split.
    + intros [[q Hq] Hne]. exists q. rewrite lookup_delete_ne; [done|]. intros ->. congruence.
    + intros [q [Hne Hq]%lookup_delete_Some]. split; [eauto|]. intros ->. by apply Hne, (L3 _ _ a).
  - rewrite !dom_delete_L. by rewrite L2.
  - intros q q' b [_ Hq]%lookup_delete_Some [_ Hq']%lookup_delete_Some. by eapply L3.
  - intros q b sz al [_ Hq]%lookup_delete_Some [_ Hv]%lookup_delete_Some. rewrite Hraw. by eapply L4.
Qed.

(** Threads do not matter to the live pointers. *)
Lemma live_heap h h' ts ts' V B D A : live_inv h ts V B D A -> same_big h h' -> live_inv h' ts' V B D A.
Proof. intros [L1 L2 L3 L4 L5 L6] (Hraw & Hbg & Hbd). by constructor; rewrite ?Hraw, ?Hbg, ?Hbd. Qed.

(** A pointer whose block changes in place. *)
Lemma live_resize h h' ts ts' V B B' D A p a size align n :
  live_inv h ts V B D A -> D !! p = Some a -> V !! p = Some (size, align) -> same_big h h' -> (forall b, b <> a -> B' !! b = B !! b) -> placed (hp_raw h) B' a p n align ->
  live_inv h' ts' (<[p := (n, align)]> V) B' D A.
Proof.
  intros [L1 L2 L3 L4 L5 L6] Ha Hp (Hraw & Hbg & Hbd) HB Hpl. constructor; [done| |done| |by rewrite Hraw|by rewrite Hbg, Hbd].
  - rewrite dom_insert_L, L2. apply elem_of_dom_2 in Hp. set_solver.
  - intros q b sz al Hq [[<- [= <- <-]]|[Hne Hv]]%lookup_insert_Some; rewrite Hraw; [by simplify_eq|]. destruct (L4 q b sz al Hq Hv) as [P1 P2 P3 P4 P5]. constructor; [done..|].
    rewrite HB; [done|]. intros ->. apply Hne. by apply (L3 _ _ a).
Qed.

(** The bytes of a block. *)
Lemma block_mapped h ts C B A M W a c y :
  heap_inv cfg cpus h ts C B A M W -> B !! a = Some c -> a <= y < a + block_size_of c -> mapped (hp_kern h) y.
Proof.
  intros [HS [L HP] _ _] (n & x & j & i & Hn & Hs & Hi & ->)%(si_block _ _ _ HS) Hy. pose proof (sa_cursor _ _ _ _ _ Hs). pose proof (sa_class _ _ _ _ _ Hs) as Hc.
  pose proof (block_inside n c i Hc ltac:(lia)). destruct (class_facts_of c Hc) as [_ _ _ _ _ F6 _]. destruct (page_bytes_ok (span_total c (block_size_of c))) as (Hp & _); [lia|].
  apply (pv_bytes _ _ _ HP n c y Hn). lia.
Qed.

(** ** Every call keeps it *)

Section Calls.
Context (Harena : 0 <= ARENA_SIZE cfg <= 2 ^ 62) (Htag : 2 ^ 56 <= ALIGN_TAG cfg).

Lemma small_align align : 0 < align <= 16 -> is_power_of_two align = true -> (align | 16).
Proof using.
  clear Harena Htag. intros Ha Hp. unfold is_power_of_two in Hp. assert (Hl : 0 <= Z.log2 align < 5) by (split; [apply Z.log2_nonneg|apply Z.log2_lt_pow2; lia]).
  assert (He : align = 2 ^ Z.log2 align) by lia. rewrite He. exists (2 ^ (4 - Z.log2 align)). rewrite <- Z.pow_add_r by lia. by replace (4 - Z.log2 align + Z.log2 align) with 4 by lia.
Qed.

(** What a request for [size] bytes leaves behind. *)
Definition allocated (ts : gmap nat tls) V (t : nat) (size align : Z) (r : outcome (Z * tls * heap K)) : Prop :=
  match r with
  | Ret (p, th', h') => if p =? null then heap_ok h' (<[t := th']> ts) V else V !! p = None /\ heap_ok h' (<[t := th']> ts) (<[p := (size, align)]> V)
  | Fatal e => e = VAIinitFailed
  | Stuck => False
  end.

Lemma rs_alloc_live h ts V t th e size align :
  heap_ok h ts V -> ts !! t = Some th -> env_ok cpus e -> 0 <= size <= 2097152 -> (align | 16) -> 0 < align -> is_power_of_two align = true -> allocated ts V t size align (rs_alloc cfg th h e size false).
Proof using Harena.
  clear Htag. intros (C & B & D & A & HI & HL) Ht He Hs Ha16 Ha Hp. assert (HI1 : heap_inv cfg cpus h (<[t := th]> ts) C B A A ∅) by (by rewrite insert_id).
  pose proof (rs_alloc_small cfg cpus Harena h ts C B A A t th e size false HI1 ltac:(done) He Hs) as Hr. unfold allocated.
  destruct (rs_alloc cfg th h e size false) as [[[p th'] h']| |]; [|done..]. destruct Hr as ((Hraw & Hbg & Hbd) & C' & B' & HC & HB & [[-> HI']|(a & c & -> & H0 & HnA & HBa & Hfit & HI')]).
  - cbn [Z.eqb]. by eapply (live_refused h ts V C B D A); [|exists C', B'].
  - destruct (Z.eqb_spec (a + 16) null) as [|_]; [done|]. destruct (block_bytes _ _ _ _ _ _ _ _ _ _ _ a HI' HBa ltac:(lia)) as (_ & Hd & _).
    eapply (live_served h ts V C B D A t 16); try done; [lia|]. exists C', B', a, c.
    split_and!; [done|done|done|done|done|by left|by apply Z.divide_add_r|lia|by left|intros y _; by rewrite Hraw|done|done].
Qed.

Lemma memalign_live h ts V t th e al size align :
  heap_ok h ts V -> ts !! t = Some th -> env_ok cpus e -> 0 <= size -> size + Z.max al 8 + 16 <= 2097152 -> is_power_of_two (Z.max al 8) = true ->
  (align | Z.max al 8) -> 0 < align -> is_power_of_two align = true -> allocated ts V t size align (memalign_inner cfg th h e al size).
Proof using Harena.
  clear Htag. intros (C & B & D & A & HI & HL) Ht He Hs Hsum Hpal Hdiv Ha Hp. assert (HI1 : heap_inv cfg cpus h (<[t := th]> ts) C B A A ∅) by (by rewrite insert_id).
  unfold memalign_inner. cbv zeta. rewrite Hpal. cbn [negb].
  pose proof (posix_align_served cfg cpus Harena h ts C B A A t th e (Z.max al 8) size HI1 ltac:(done) He Hs ltac:(lia) ltac:(lia)) as Hr.
  destruct (posix_align_inner cfg th h e (Z.max al 8) size) as [[[[p|er] th'] h']| |]; cbn [mbind outcome_bind allocated]; [| |done..].
  - destruct Hr as (_ & _ & Hsv). destruct (Z.eqb_spec p null) as [->|_]; [|by eapply live_served].
    exfalso. destruct Hsv as (C' & B' & a & c & _ & _ & _ & HBa & HI' & Hpt & _). pose proof (points_inside _ _ _ _ _ (block_class _ _ _ _ _ _ _ _ _ _ _ HI' HBa) Hpt).
    destruct (block_bytes _ _ _ _ _ _ _ _ _ _ _ a HI' HBa ltac:(lia)) as (H0 & _). lia.
  - destruct Hr as [Href _]. cbn [Z.eqb]. by eapply (live_refused h ts V C B D A).
Qed.

Lemma alloc_live h ts V t th e size align :
  heap_ok h ts V -> ts !! t = Some th -> env_ok cpus e -> small_layout size align -> allocated ts V t size align (GlobalAlloc.alloc cfg th h e size align).
Proof using Harena.
  clear Htag. intros Hok Ht He (Hs & Ha & Hp & Hsum). unfold GlobalAlloc.alloc. destruct (Z.leb_spec align 16) as [Hle|Hgt].
  - apply rs_alloc_live; try done; [lia|]. apply small_align; [lia|done].
  - apply memalign_live; rewrite ?Z.max_l by lia; try done. lia.
Qed.

Lemma dealloc_live h ts V e p :
  heap_ok h ts V -> is_Some (V !! p) -> env_ok cpus e -> exists h', dealloc cfg h e p = Ret h' /\ heap_ok h' ts (delete p V) /\
    (FREED_MAGIC cfg <> MAGIC cfg -> BIG_MAGIC cfg <> FREED_MAGIC cfg -> forall e', dealloc cfg h' e' p = Fatal DoubleFree).
Proof using All.
  intros (C & B & D & A & HI & HL) [[size align] Hp] He. destruct (live_block _ _ _ _ _ _ _ _ _ _ HI HL Hp) as (a & c & Ha & HA & HB & Hpt & _).
  destruct (small_free_ok cfg cpus Harena h ts C B A A e a c p Htag HI He HB HA HA Hpt) as (h' & Hr & HI' & Hsame). exists h'. split; [done|]. split.
  - exists C, B, (delete p D), (A ∖ {[a]}). split; [done|]. by eapply live_delete.
  - intros Hm1 Hm2 e'. eapply (freed_again cfg cpus h' ts C B _ _ e' a c p Htag Hm1 Hm2 HI' HB); [set_solver|by destruct Hsame as (-> & _)].
Qed.

(** A thread whose destructor was not registered drops its spans. *)
Lemma forget_thread h ts C B A M t : heap_inv cfg cpus h ts C B A M ∅ -> heap_inv cfg cpus h (delete t ts) C B A M ∅.
Proof using.
  clear Harena Htag. intros [HS HP [S HQ] HB]. constructor; [done|done| |done]. exists S. destruct HQ as [Q1 Q2 Q3 Q4 Q5 Q6].
  assert (Hsl : forall m t' c, in_slot (delete t ts) m t' c -> in_slot ts m t' c) by (intros m t' c (x & [_ Hx]%lookup_delete_Some & Hs); by exists x).
  constructor; [done|done| |set_solver| |].
  - intros m t' c Hs Hm. destruct (Q3 m t' c (Hsl _ _ _ Hs) Hm) as (H1 & H2 & H3). split; [done|]. split; [done|]. intros t2 c2 Hs2. by eapply H3, Hsl.
  - intros t' x [_ Hx]%lookup_delete_Some. by apply (Q5 t').
  - intros v [Hv|(Hv & t' & c' & Hs)]; apply Q6; [by left|right; split; [done|]; exists t', c'; by apply Hsl].
Qed.

Lemma exit_live h ts V t th : heap_ok h ts V -> ts !! t = Some th -> exists th' h', thread_exit th h = Ret (th', h') /\ heap_ok h' (delete t ts) V.
Proof using Harena.
  clear Htag. intros (C & B & D & A & HI & HL) Ht. unfold thread_exit. destruct (tb_init (THREAD_BULK th)).
  - destruct (exit_ok cfg cpus Harena h ts C B A A t th) as (th' & h' & Hr & HI'); [by rewrite insert_id|]. exists th', h'. split; [done|]. exists C, B, D, A. split; [done|].
    eapply live_heap; [done|]. by apply cleanup_big in Hr.
  - exists th, h. split; [done|]. exists C, B, D, A. split; [by apply forget_thread|]. by eapply live_heap.
Qed.

Lemma start_live h ts V t : heap_ok h ts V -> ts !! t = None -> heap_ok h (<[t := tls_new]> ts) V.
Proof using.
  clear Harena Htag. intros (C & B & D & A & HI & HL) Ht. exists C, B, D, A. split; [|by eapply live_heap]. destruct HI as [HS HP [S HQ] HB]. constructor; [done|done| |done]. exists S.
  destruct HQ as [Q1 Q2 Q3 Q4 Q5 Q6]. assert (Hsl : forall m t' c, in_slot (<[t := tls_new]> ts) m t' c -> m <> 0 -> in_slot ts m t' c).
  { intros m t' c (x & [[<- <-]|[_ Hx]]%lookup_insert_Some & Hs) Hm; [|by exists x]. cbn in Hs. by apply lookup_replicate in Hs as [-> _]. }
  constructor; [done|done| |set_solver| |].
  - intros m t' c Hs Hm. destruct (Q3 m t' c (Hsl _ _ _ Hs Hm) Hm) as (H1 & H2 & H3). split; [done|]. split; [done|]. intros t2 c2 Hs2. by eapply H3, Hsl.
  - intros t' x [[<- <-]|[_ Hx]]%lookup_insert_Some; [|by apply (Q5 t')]. constructor; apply length_replicate.
  - intros v [Hv|(Hv & t' & c' & Hs)]; apply Q6; [by left|right; split; [done|]; exists t', c'; by apply Hsl].
Qed.

(** Nor do the clock, the counters and the flags. *)
Lemma flags_live h ts V va stamp guard disable :
  heap_ok h ts V -> heap_ok (mkHeap (hp_slab h) (hp_queue h) (hp_spans h) (hp_pages h) (hp_pages_once h) (hp_root h) (hp_words h) (hp_buddy h) (hp_big h) (hp_raw h) va stamp guard disable) ts V.
Proof using.
  clear Harena Htag. intros (C & B & D & A & [HS [L HP] [S HQ] HB] & HL). exists C, B, D, A. split; [|by eapply live_heap]. constructor; [by destruct HS| | |by destruct HB].
  - exists L. by apply (pages_inv_frame h).
  - exists S. by destruct HQ.
Qed.

Lemma tick_live h ts V stamp : heap_ok h ts V -> heap_ok (with_stamp h stamp) ts V.
Proof using. apply flags_live. Qed.

(** Trimming: only pages of blocks behind no live pointer go to the kernel. *)
Lemma trim_live h ts V (R : relation K) `{!PreOrder R} l average stamp requested free :
  heap_ok h ts V -> length l = class_count -> (forall k k', R k k' -> forall y, mapped k y -> mapped k' y) ->
  (forall start len k, (4096 | start) -> (4096 | len) -> (forall p size align y, V !! p = Some (size, align) -> p <= y < p + size -> ~ start <= y < start + len) -> (forall y, start <= y < start + len -> ~ fr_bytes y) -> R k (madvise start len LinuxDontNeed k).2) ->
  exists n s k l' average', trim_small (hp_slab h) (hp_kern h) l average stamp requested free = Ret (n, s, k, l', average') /\
    heap_ok (set_kern (set_slab h s) k) ts V /\ R (hp_kern h) k /\ length l' = class_count.
Proof using.
  clear Harena Htag. intros (C & B & D & A & HI & HL) Hl Hm HR.
  destruct (heap_trimmed cfg cpus h ts C B A A ∅ R l average stamp requested free HI Hl) as (n & s & k & l' & av & Hr & HI' & HRk & Hl' & _); [|done|].
  - intros start len k (H1 & H2 & a & c & HBa & Ha & H3 & H4). apply HR; [done|done| |intros y Hy; apply (block_not_framed cfg cpus h ts C B A A ∅ a c y HI HBa); lia]. intros p size align y Hp Hy Hy'.
    destruct (live_block _ _ _ _ _ _ _ _ _ _ HI HL Hp) as (a' & c' & _ & HA' & HB' & _ & _ & _ & Hin & Hfit). apply Ha.
    assert (a = a') as ->; [|done]. eapply (blocks_apart h C B a a' c c' y); [apply HI|done|done|lia|lia].
  - exists n, s, k, l', av. split; [done|]. split; [|done]. exists C, B, D, A. split; [done|]. by eapply live_heap.
Qed.

End Calls.
End Spec.
