(* ===== verification/HeapStart.v ===== *)
(** * The heap at start

    [init] sets up a heap that satisfies the invariant, with nothing allocated. *)

From S2P Require Import Prelude Types SizeClasses Kernel Binder Radix RadixProofs RBTree Buddy BuddyGrow BuddySpec BuddyWhole PageAllocator PageProofs PageSpec Numa NumaSpec Predictor SList PendingQueue Rseq Bitmap SlabCache SlabProofs SlabSteal SlabSpec Heap BulkFill Alloc HeapInv Random GlobalAlloc HeapLive.

Section Start.
Context {K : Type} `{!Kernel K} `{!KernelSpec K}.
Implicit Types (k : K).

(** ** The caches map memory and unmap none *)

Definition grows k k' : Prop := forall x, mapped k x -> mapped k' x.

#[local] Instance grows_refl : Reflexive grows.
Proof. by intros k x. Qed.

#[local] Instance grows_trans : Transitive grows.
Proof. intros k1 k2 k3 H1 H2 x Hx. by apply H2, H1. Qed.

Ltac grow := unfold grows in *; eauto 8.

Lemma mmap_grows size k r k' : mmap_anonymous size k = (r, k') -> grows k k'.
Proof. intros E x. by apply (mmap_kept _ _ _ _ _ E). Qed.

Lemma mmap_array_grows {A} (z : A) sz n k r k' : mmap_array z sz n k = (r, k') -> grows k k'.
Proof.
  unfold mmap_array. case_match; [by intros [= _ <-]|]. case_match; [|by intros [= _ <-]].
  destruct (mmap_anonymous _ k) as [[a|] k1] eqn:E; intros [= _ <-]; by eapply mmap_grows.
Qed.

Lemma single_node_grows n k r k' : single_node_topology n k = (r, k') -> grows k k'.
Proof.
  unfold single_node_topology. intros H.
  repeat match type of H with context [mmap_array ?z ?s ?n ?k] => let E := fresh "E" in destruct (mmap_array z s n k) as [[?|] ?] eqn:E; apply mmap_array_grows in E end;
    simplify_eq; by grow.
Qed.

Lemma parse_grows rd n k r k' : parse_numa_topology rd n k = Ret (r, k') -> grows k k'.
Proof.
  unfold parse_numa_topology. intros H. destruct (rd ONLINE_PATH); [|injection H as H; by eapply single_node_grows].
  destruct (count_nodes _ _ _) as [[c|]| |]; cbn [mbind outcome_bind] in H; [|simplify_eq; by grow..]. case_match; [injection H as H; by eapply single_node_grows|].
  destruct (mmap_array 0 2 n k) as [[cpus|] k1] eqn:E1; apply mmap_array_grows in E1; [|simplify_eq; by grow].
  destruct (mmap_array 0 2 c k1) as [[ids|] k2] eqn:E2; apply mmap_array_grows in E2; [|simplify_eq; by grow].
  destruct (fill_nodes _ _ _ _ _) as [[[ids' mx]|]| |]; cbn [mbind outcome_bind] in H; [|simplify_eq; by grow|done..].
  destruct (mmap_array zero_range NumaCpuRange_SIZE (mx + 1) k2) as [[rg|] k3] eqn:E3; apply mmap_array_grows in E3; [|simplify_eq; by grow].
  destruct (read_nodes _ _ _) as [[cp|]| |]; cbn [mbind outcome_bind] in H; [|simplify_eq; by grow|done..].
  destruct (populate_cpu_ranges _ _ _ _) as [[cp' rg']| |]; cbn [mbind outcome_bind] in H; [|done..]. simplify_eq. by grow.
Qed.

Lemma bind_ranges_grows rs cache n k : grows k (bind_ranges rs cache n k).
Proof.
  revert k. induction rs as [|r rs IH]; intros k; cbn [bind_ranges]; [done|]. etrans; [|apply IH]. case_match; [|done].
  intros x Hx. by apply mbind_node_mapped.
Qed.

Lemma queue_init_grows q n b k q' k' : ThreadQueue_init q n b k = (q', k') -> grows k k'.
Proof.
  unfold ThreadQueue_init. case_match; [by intros [= _ <-]|]. destruct (mmap_anonymous _ k) as [[m|] k1] eqn:E; apply mmap_grows in E; intros [= _ <-]; done.
Qed.

Lemma ensure_cache_grows rd n k i q k' : ensure_cache rd n k = Ret (i, q, k') -> grows k k' /\ queue_rep q ∅ (fun _ => []).
Proof.
  unfold ensure_cache. intros H. destruct (mmap_anonymous _ k) as [[c|] k1] eqn:E1; [|done]. apply mmap_grows in E1.
  destruct (parse_numa_topology rd _ k1) as [[numa k2]| |] eqn:E2; cbn [mbind outcome_bind] in H; [|done..]. apply parse_grows in E2.
  destruct (match numa with Some _ => _ | None => _ end) as [numa' isn].
  assert (E3 : grows k2 (if isn then bind_ranges (cpu_ranges numa') c (get_max_cpu n) k2 else k2)) by (destruct isn; [apply bind_ranges_grows|done]).
  destruct (mmap_anonymous _ (if isn then _ else k2)) as [[bm|] k4] eqn:E4; [|done]. apply mmap_grows in E4.
  destruct (ThreadQueue_init _ _ _ k4) as [q' k5] eqn:E5. simplify_eq. split; [|by eapply PendingQueue.init_rep]. apply queue_init_grows in E5. by grow.
Qed.

(** ** The heap set up by [init] *)

Section Heap.
Context (cfg : config) (m : machine).
Let cpus : Z := get_max_cpu (get_nprocs_conf m).

(** The sysfs files hold bytes, and the thread is on a CPU there is. *)
Record machine_ok : Prop := {
  mo_files path content : read_file_stack m path = Some content -> Forall (is_u 8) content;
  mo_nprocs : - 2 ^ 31 <= get_nprocs_conf m < 2 ^ 31;
  mo_cpu : 0 <= sched_getcpu m < cpus;
}.

(** The heap as it is linked and set up: no spans, no blocks, no big allocations,
    and the regions of the buddy allocator all free. *)
Record fresh_heap (h : heap K) : Prop := {
  fh_mem : sl_mem (hp_slab h) = ∅ /\ hp_raw h = ∅;
  fh_slab : slab_rep (cpus + 1) calm (hp_slab h) (fun _ _ _ => []);
  fh_topo : topo_ok cpus (hp_slab h);
  fh_queue : queue_rep (hp_queue h) (hp_spans h) (fun _ => []);
  fh_pages : hp_pages h = PageAllocator_new (hp_kern h);
  fh_big : hp_big h = RBTree_new;
  fh_buddy : exists rs, whole (hp_buddy h) (hp_radix h) rs (fun _ => ∅);
}.

(** It satisfies the invariant in any view of the kernel and next to any bytes. *)
Lemma fresh_heap_inv (S : KernelSpec K) (Fr : frame) (h : heap K) :
  fresh_heap h -> radix_wf (KernelSpec0 := S) (hp_radix h) -> @fr_heads Fr = ∅ -> (forall y, @fr_bytes Fr y -> @mapped K _ S (hp_kern h) y) ->
  (forall y, @fr_mapped Fr y -> @mapped K _ S (hp_kern h) y) -> (forall j, @fr_owned Fr j -> Radix.get (hp_radix h) j = true) ->
  heap_inv (KernelSpec0 := S) (Fr := Fr) cfg cpus h ∅ ∅ ∅ ∅ ∅ ∅.
Proof.
  intros [[Hm _] HR Ht HQ HP _ _] Hx Hh Hb Hfm Hfo. constructor.
  - constructor; [by intros ? ? ?|by intros ? ? ? ? ? ?|]. intros a c. split; [done|]. by intros (m' & x & j & i & Hm' & _).
  - exists (fun _ => []). constructor; [by right|by intros ? ? ?|done|by intros ? ? ?| |done|auto].
    intros y Hy. right. split; [by apply Hb|]. split; [|by intros m' c]. rewrite HP. intros (a & b & e & cur & _ & He & _). done.
  - exists (fun _ => []). constructor; [done|by intros s a ?%not_elem_of_nil| | |by intros t th|].
    + intros a t c (th & Hth & _). done.
    + intros a Ha. by apply not_elem_of_empty in Ha.
    + intros a [[s Hs]|(_ & t & c & th & Hth & _)]; [by apply not_elem_of_nil in Hs|done].
  - constructor; [|intros a; rewrite Hm; by intros []|by intros a c x|intros a; rewrite Hh; by intros ?%not_elem_of_empty].
    exists (fun _ _ _ => []). constructor; [done|done| | |by intros k p c a ?%not_elem_of_nil].
    + intros a. split; [by intros [? ?]%elem_of_dom|]. intros [Ha|(k & p & c & Ha)]; [by apply not_elem_of_empty in Ha|by apply not_elem_of_nil in Ha].
    + intros a Ha. by apply not_elem_of_empty in Ha.
Qed.

(** Nothing is live in it. *)
Lemma fresh_heap_ok (S : KernelSpec K) (Fr : frame) (h : heap K) :
  fresh_heap h -> radix_wf (KernelSpec0 := S) (hp_radix h) -> @fr_heads Fr = ∅ -> (forall y, @fr_bytes Fr y -> @mapped K _ S (hp_kern h) y) ->
  (forall y, @fr_mapped Fr y -> @mapped K _ S (hp_kern h) y) -> (forall j, @fr_owned Fr j -> Radix.get (hp_radix h) j = true) ->
  (forall y, @fr_bytes Fr y -> @fr_raw Fr !! y = None) -> @fr_same Fr (hp_big h) (hp_buddy h) -> heap_ok (KernelSpec0 := S) (Fr := Fr) cfg cpus h ∅ ∅.
Proof.
  intros Hf Hx Hh Hb Hfm Hfo Hr Hs. exists ∅, ∅, ∅, ∅. split; [by apply fresh_heap_inv|]. constructor; [|done|by intros ? ? ?|by intros ? ? ? ?| |done].
  - intros a. split; [by intros ?%not_elem_of_empty|by intros [q Hq]].
  - intros y Hy. destruct (fh_mem _ Hf) as [_ ->]. by rewrite Hr.
Qed.

Lemma start_node inner : topo_ok cpus (mkSlab inner ∅) -> 0 <= sched_getcpu m < cpus -> exists n, node_for_cpu inner (sched_getcpu m) = Ret n.
Proof.
  intros Ht Hc. unfold node_for_cpu. destruct (si_is_numa inner) eqn:Hn; cbn [negb]; [|by exists 0].
  destruct (cpu_node cpus _ _ (to_numa _ _ Ht Hn) Hc) as (n & r & Hl & Hr & _). exists n. cbn [sl_inner] in Hl. by rewrite (read_ok _ _ _ Hl) by lia.
Qed.

Lemma init_heap_ok retries size huge k :
  machine_ok -> is_u 64 size -> mapped k VSYSCALL ->
  match init_heap m retries size huge k with
  | Ret h => fresh_heap h
  | Fatal e => e = VAIinitFailed \/ e = OutOfMemory
  | Stuck => False
  end.
Proof.
  intros [Hrd Hnp Hcpu] Hsize Hv. unfold init_heap. pose proof (Radix_new_ok k Hv) as Hx. destruct (Radix_new k) as [t|e|]; cbn [mbind outcome_bind]; [|by left|done]. destruct Hx as [Hwf _].
  pose proof (ensure_cache_ok (read_file_stack m) (get_nprocs_conf m) (kern t) ∅ Hrd Hnp) as Hc.
  destruct (ensure_cache _ _ (kern t)) as [[[i q] k1]|e|] eqn:E; cbn [mbind outcome_bind]; [|by right|done]. destruct Hc as [HR Ht]. apply ensure_cache_grows in E as [Hg HQ].
  destruct (start_node i Ht Hcpu) as [n Hn]. rewrite Hn. cbn [mbind outcome_bind]. set (rx0 := mkRadixTree _ _ _).
  pose proof (init_whole (mkBuddyEnv retries (first_stamp m)) rx0 size huge n (si_is_numa i) (radix_wf_mono t k1 Hwf Hg) Hsize) as Ha.
  destruct (Buddy.init _ _ rx0 _ _ _ _) as [[bd rx']|e|]; cbn [mbind outcome_bind]; [|by left|done]. destruct Ha as [rs HW]. constructor; try done. exists rs. by destruct rx'.
Qed.
End Heap.
End Start.
