(* ===== verification/HeapResize.v ===== *)
(** * Zeroed and resized live pointers

    [rs_calloc] hands out zeroed bytes and [rs_realloc] moves a live pointer with
    its contents; neither touches the contents of another live pointer. *)

From S2P Require Import Prelude Types SizeClasses Kernel Radix RadixProofs RBTree Buddy BuddyGrow PageAllocator PageProofs PageSpec Numa NumaSpec Predictor SList PendingQueue Rseq Bitmap SlabCache SlabProofs SlabSteal SlabSpec Heap BulkFill Alloc HeapFrame HeapInv HeapFill HeapOps Random GlobalAlloc Realloc ReallocProofs HeapLive.

(** ** Alignments *)

Lemma pow2_divide_trailing k p : 0 <= k -> 0 < p -> (2 ^ k | p) -> k <= trailing_zeros p.
Proof.
  intros Hk Hp [q Hq]. destruct (trailing_zeros_spec p) as (H1 & H2 & H3); [lia|]. destruct (Z.leb_spec k (trailing_zeros p)); [done|]. exfalso.
  set (t := trailing_zeros p) in *. clearbody t. rewrite Hq, Z.mul_pow2_bits_low in H3 by lia. done.
Qed.

Lemma power_of_two_exp a : is_power_of_two a = true -> exists k, 0 <= k /\ a = 2 ^ k.
Proof. unfold is_power_of_two. intros H. exists (Z.log2 a). split; [apply Z.log2_nonneg|lia]. Qed.

Lemma pow2_is_power k : 0 <= k -> is_power_of_two (2 ^ k) = true.
Proof. intros Hk. unfold is_power_of_two. rewrite Z.log2_pow2 by done. lia. Qed.

(** The observed alignment is a power of two that every alignment of the address
    divides. *)
Lemma observed_alignment_ok p align :
  0 < p < 2 ^ 64 -> 0 < align -> is_power_of_two align = true -> (align | p) ->
  is_power_of_two (Z.max (observed_alignment p) 8) = true /\ (align | Z.max (observed_alignment p) 8).
Proof.
  intros Hp Ha Hpow Hd. destruct (power_of_two_exp align Hpow) as (k & Hk & ->). pose proof (pow2_divide_trailing k p Hk ltac:(lia) Hd) as Hle.
  destruct (trailing_zeros_spec p) as (H1 & H2 & H3); [lia|]. set (t := trailing_zeros p) in *.
  assert (Ht : t < 64). { destruct (Z.ltb_spec t 64); [done|]. exfalso. rewrite Z.bits_above_log2 in H3; [done|lia|]. apply Z.log2_lt_pow2; [lia|]. eapply Z.lt_le_trans; [apply Hp|]. by apply Z.pow_le_mono_r. }
  assert (Ho : observed_alignment p = 2 ^ t). { unfold observed_alignment, wshl. fold t. rewrite Z.shiftl_1_l. apply wrap_small. split; [lia|]. by apply Z.pow_lt_mono_r. }
  rewrite Ho. assert (Hm : Z.max (2 ^ t) 8 = 2 ^ Z.max t 3).
  { change 8 with (2 ^ 3). destruct (Z.le_ge_cases t 3); [rewrite !Z.max_r by (done || by apply Z.pow_le_mono_r); done|rewrite !Z.max_l by (lia || by apply Z.pow_le_mono_r; lia); done]. }
  rewrite Hm. split; [apply pow2_is_power; lia|]. exists (2 ^ (Z.max t 3 - k)). rewrite <- Z.pow_add_r by lia. f_equal. lia.
Qed.

(** ** Live pointers *)

Section Resize.
Context {K : Type} `{!Kernel K} `{!KernelSpec K} {Fr : frame} (cfg : config) (cpus : Z).
Context (Harena : 0 <= ARENA_SIZE cfg <= 2 ^ 62) (Htag : 2 ^ 56 <= ALIGN_TAG cfg) (Hmagic : MAGIC cfg <> BIG_MAGIC cfg) (Hfreed : FREED_MAGIC cfg <> BIG_MAGIC cfg).
Implicit Types (h : heap K) (ts : gmap nat tls) (V : gmap Z (Z * Z)) (m : Z -> Z).

Abbreviation ok := (heap_ok cfg cpus).

(** The live pointer [p] of [size] bytes has become one of [n] bytes, with its
    contents, or the request was refused; the other pointers keep theirs. *)
Definition resized ts V (t : nat) m (p size align n : Z) (r : outcome (Z * tls * heap K * (Z -> Z))) : Prop :=
  match r with
  | Ret (p', th', h', m') =>
      if p' =? null then ok h' (<[t := th']> ts) V /\ m' = m
      else ok h' (<[t := th']> ts) (<[p' := (n, align)]> (delete p V)) /\ (p' = p \/ V !! p' = None) /\
        (forall i, 0 <= i < Z.min size n -> m' (p' + i) = m (p + i)) /\
        (forall y, ~ p' <= y < p' + n -> m' y = m y) /\
        forall q sz al y, q <> p -> V !! q = Some (sz, al) -> q <= y < q + sz -> m' y = m y
  | Fatal e => e = VAIinitFailed
  | Stuck => False
  end.

(** The block of the pointer is large enough. *)
Lemma resized_in_place h h' ts V t th m p size align n C B B' D A a :
  heap_inv cfg cpus h' (<[t := th]> ts) C B' A A ∅ -> live_inv cfg h ts V B D A -> D !! p = Some a -> V !! p = Some (size, align) -> same_big h h' ->
  (forall b, b <> a -> B' !! b = B !! b) -> placed cfg (hp_raw h) B' a p n align -> 0 < p -> resized ts V t m p size align n (Ret (p, th, h', m)).
Proof using.
  clear Harena Htag Hmagic Hfreed. intros HI HL Ha Hp Hraw HB Hpl H0. cbn [resized]. destruct (Z.eqb_spec p null) as [->|_]; [done|]. rewrite insert_delete_eq. split; [|by auto].
  exists C, B', D, A. split; [done|]. by eapply live_resize.
Qed.

(** A new pointer takes the contents over and the old one is released. *)
Lemma resized_by_move h ts V t e m p size align n old r :
  V !! p = Some (size, align) -> env_ok cpus e -> allocated cfg cpus ts V t n align r -> size <= old ->
  resized ts V t m p size align n
    ('(new, th, h) ← r;
     if new =? null then Ret (null, th, h, m)
     else
       let m := copy_nonoverlapping m p new (Z.min old n) in
       h ← rs_free cfg h e p;
       Ret (new, th, h, m)).
Proof using Harena Htag.
  clear Hmagic Hfreed. intros Hp He Hr Hold. destruct r as [[[new th1] h1]| |]; cbn [mbind outcome_bind allocated] in *; [|done..].
  destruct (Z.eqb_spec new null) as [->|Hnew]; [done|]. destruct Hr as [Hfresh Hok1]. assert (Hne : p <> new) by congruence. cbv zeta.
  assert (Hp1 : (<[new := (n, align)]> V : gmap Z (Z * Z)) !! p = Some (size, align)) by (by rewrite lookup_insert_ne).
  destruct (dealloc_live cfg cpus Harena Htag h1 _ _ e p Hok1 ltac:(eauto) He) as (h2 & Hf & Hok2 & _). unfold dealloc in Hf. rewrite Hf. cbn [mbind outcome_bind resized].
  destruct (Z.eqb_spec new null) as [|_]; [done|]. rewrite delete_insert_ne in Hok2 by done. split; [done|]. split; [by right|]. unfold copy_nonoverlapping. split.
  - intros i Hi. destruct (Z.leb_spec new (new + i)); [|lia]. destruct (Z.ltb_spec (new + i) (new + Z.min old n)); [|lia]. cbn [andb]. f_equal. lia.
  - split; [intros y Hy; destruct (Z.leb_spec new y); [|done]; by destruct (Z.ltb_spec y (new + Z.min old n)); [lia|]|]. intros q sz al y Hq HV Hy. destruct (Z.leb_spec new y); [|done]. destruct (Z.ltb_spec y (new + Z.min old n)); [|done]. exfalso.
    assert (q <> new) by congruence. assert (q = new); [|done]. eapply (live_apart cfg cpus h1 _ _ q new sz n al align y Hok1); [by rewrite lookup_insert_ne|by rewrite lookup_insert_eq|lia|lia].
Qed.

(** The class of a block is an index of the table. *)
Lemma class_entry c : 0 <= c < NUM_SIZE_CLASSES -> SIZE_CLASSES !! Z.to_nat c = Some (class_size c).
Proof using.
  clear Harena Htag Hmagic Hfreed. intros Hc. destruct (class_nat c Hc) as [Hn _]. destruct (lookup_lt_is_Some_2 SIZE_CLASSES (Z.to_nat c)) as [v Hv]; [exact Hn|]. rewrite Hv. f_equal. symmetry. by apply list_lookup_total_correct.
Qed.

Lemma small_realloc_live h ts V t th e m p size align n C B D A a c :
  heap_inv cfg cpus h ts C B A A ∅ -> live_inv cfg h ts V B D A -> ts !! t = Some th -> env_ok cpus e -> V !! p = Some (size, align) -> D !! p = Some a -> B !! a = Some c ->
  p = a + 16 -> a ∈ A -> 0 < n <= 2097152 -> resized ts V t m p size align n (small_realloc cfg th h e m p n).
Proof using Harena Htag.
  clear Hmagic Hfreed. intros HI HL Ht He Hp Ha HB -> HA Hn. pose proof (lv_place _ _ _ _ _ _ _ HL _ _ _ _ Ha Hp) as [P1 P2 P3 P4 (c1 & P5 & P6 & P7)]. assert (c1 = c) as -> by congruence. specialize (P4 eq_refl).
  pose proof (block_class _ _ _ _ _ _ _ _ _ _ _ HI HB) as Hc. destruct (class_facts_of c Hc) as [F1 _ F3 _ _ _ _]. destruct (block_bytes _ _ _ _ _ _ _ _ _ _ _ a HI HB ltac:(lia)) as (H0 & _ & Hend & _).
  assert (HIt : heap_inv cfg cpus h (<[t := th]> ts) C B A A ∅) by (by rewrite insert_id).
  assert (Hsame : forall k, n <= class_size k -> k = c -> resized ts V t m (a + 16) size align n (Ret (a + 16, th, h, m))).
  { intros k Hk ->. eapply (resized_in_place h h); try done; [|lia]. constructor; [lia|done|done|done|]. exists c. split; [done|]. split; [by left|lia]. }
  assert (Hmove : forall h1, ok h1 ts V -> resized ts V t m (a + 16) size align n (move_block cfg th h1 e m (a + 16) (class_size c) n)).
  { intros h1 Hok1. apply (resized_by_move h1); [done|done| |lia]. destruct P3. apply rs_alloc_live; try done. lia. }
  unfold small_realloc. assert (Hg : get_actual_header (a + 16) = a) by (change (get_actual_header (a + 16)) with (wsub (a + 16) 16); rewrite wsub_small; lia). rewrite Hg.
  destruct (block_header _ _ _ _ _ _ _ _ _ _ _ HI HB) as (x & Hx & (Hxc & _)). assert (Hget : get_header h a = Ret x) by (unfold get_header; by rewrite Hx). rewrite Hget. cbn [mbind outcome_bind]. rewrite Hxc.
  rewrite (class_entry c Hc). cbn [from_option mbind outcome_bind]. destruct (Z.leb_spec n (class_size c)) as [Hle|Hgt]; [by apply (Hsame c)|].
  destruct (small_class n ltac:(lia)) as (c' & Hm & Hc' & Hle'). rewrite Hm. destruct (Z.eqb_spec c c') as [<-|Hcc]; [by apply (Hsame c)|].
  destruct ((iterations c =? 1) && (iterations c' =? 1)) eqn:Hit; [|cbn [mbind outcome_bind]; apply Hmove; by exists C, B, D, A].
  pose proof (grow_span_ok cfg cpus h _ C B A A a c c' HIt HB HA ltac:(lia) Hc' ltac:(lia)) as Hgr. destruct (grow_span cfg h a c c') as [[[|] h1]| |]; cbn [mbind outcome_bind regrown] in *; [| |done..].
  - destruct Hgr as (Hraw & C' & HI1). change (walk_header a) with (wadd a 16). rewrite wadd_small by lia.
    eapply (resized_in_place h h1); try done; [intros b Hb; by rewrite lookup_insert_ne| |lia]. destruct (class_facts_of c' Hc') as [F1' _ F3' _ _ _ _].
    constructor; [lia|done|done|done|]. exists c'. split; [by rewrite lookup_insert_eq|]. split; [by left|lia].
  - destruct Hgr as (Hraw & HI1). apply Hmove. exists C, B, D, A. rewrite insert_id in HI1 by done. split; [done|]. by eapply live_heap.
Qed.

(** A pointer inside its block. *)
Lemma aligned_realloc_live h ts V t th e m p size align n C B D A a c :
  heap_inv cfg cpus h ts C B A A ∅ -> live_inv cfg h ts V B D A -> ts !! t = Some th -> env_ok cpus e -> V !! p = Some (size, align) -> D !! p = Some a -> B !! a = Some c ->
  a ∈ A -> 0 < n -> n + Z.max (observed_alignment p) 8 + 16 <= 2097152 -> resized ts V t m p size align n (aligned_realloc cfg th h e m p n).
Proof using All.
  intros HI HL Ht He Hp Ha HB HA Hn Hsum. pose proof (lv_place _ _ _ _ _ _ _ HL _ _ _ _ Ha Hp) as [P1 P2 [P3 P3'] P4 (c1 & P5 & P6 & P7)]. assert (c1 = c) as -> by congruence.
  pose proof (block_class _ _ _ _ _ _ _ _ _ _ _ HI HB) as Hc. pose proof (points_inside _ _ _ _ _ Hc P6) as Hin. destruct (block_bytes _ _ _ _ _ _ _ _ _ _ _ a HI HB ltac:(lia)) as (H0 & _ & Hend & _).
  unfold aligned_realloc. rewrite (usable_size_ok cfg cpus h ts C B A A a c p Htag ltac:(congruence) ltac:(congruence) HI HB P6). cbn [mbind outcome_bind]. destruct (Z.leb_spec n (a + block_size_of c - p)) as [Hle|Hgt].
  - eapply (resized_in_place h h); try done; [by rewrite insert_id| |lia]. constructor; [lia|done|done|done|]. exists c. split; [done|]. split; [done|lia].
  - destruct (observed_alignment_ok p align) as [Hpow Hdiv]; [lia|done|done|done|]. apply (resized_by_move h); [done|done| |lia]. apply memalign_live; try done; [|lia]. by exists C, B, D, A.
Qed.

(** A request to resize that a size class serves. *)
Definition resizable h (p n : Z) : Prop :=
  0 < n <= 2097152 /\ (find_original_ptr cfg h p = Ret p \/ n + Z.max (observed_alignment p) 8 + 16 <= 2097152).

Lemma rs_realloc_live h ts V t th e m p size align n :
  ok h ts V -> ts !! t = Some th -> env_ok cpus e -> V !! p = Some (size, align) -> resizable h p n -> resized ts V t m p size align n (rs_realloc cfg th h e m p n).
Proof using All.
  intros (C & B & D & A & HI & HL) Ht He Hp [Hn Hbig]. destruct (live_block _ _ _ _ _ _ _ _ _ _ _ _ HI HL Hp) as (a & c & Ha & HA & HB & Hpt & Hs & Hal & Hin & Hfit).
  destruct (find_original_ok _ _ _ _ _ _ _ _ _ _ _ _ Htag HI HB Hpt) as (Ho & Hf & Hg & H0 & Hend). unfold rs_realloc.
  destruct (Z.eqb_spec p null) as [|_]; [lia|]. destruct (Z.eqb_spec n 0) as [|_]; [lia|]. rewrite Ho. cbn [mbind outcome_bind]. rewrite Hf. cbn [mbind outcome_bind]. rewrite Hf in Hbig.
  destruct (Z.eqb_spec (a + 16) p) as [E|E]; cbn [negb].
  - rewrite Hg. destruct (block_header _ _ _ _ _ _ _ _ _ _ _ HI HB) as (x & Hx & (_ & Hmg & _)). assert (Hget : get_header h a = Ret x) by (unfold get_header; by rewrite Hx). rewrite Hget. cbn [mbind outcome_bind].
    rewrite decide_True in Hmg by done. rewrite Hmg. destruct (Z.eqb_spec (MAGIC cfg) (BIG_MAGIC cfg)); [done|]. rewrite E. by eapply small_realloc_live.
  - eapply aligned_realloc_live; try done; [lia|]. destruct Hbig as [[= Hx]|]; [done|lia].
Qed.

(** ** Zeroed requests *)

(** A small block is handed out with the flag that calls for zeroing. *)
Lemma rs_alloc_flag th h e size c p th' h' :
  match_size_class size = Some c -> rs_alloc cfg th h e size false = Ret (p, th', h') -> p <> null ->
  exists a x, p = walk_header a /\ sl_mem (hp_slab h') !! a = Some x /\ h_flags x = ALLOCATED_FLAG /\ h_magic x = MAGIC cfg.
Proof using.
  clear Harena Htag Hmagic Hfreed. intros Hc Hr Hp. unfold rs_alloc in Hr. rewrite Hc in Hr. apply bind_Ret in Hr as ([cache s] & _ & Hr). apply bind_Ret in Hr as ([[cache' th1] h1] & _ & Hr).
  destruct (cache' =? null); [by simplify_eq|]. apply bind_Ret in Hr as (x & _ & Hr). simplify_eq. eexists cache', _. split; [done|]. cbn. by rewrite lookup_insert_eq.
Qed.

Lemma header_flag h ts V p a x : ok h ts V -> p = walk_header a -> sl_mem (hp_slab h) !! a = Some x -> h_magic x = MAGIC cfg -> get_header h (get_actual_header p) = Ret x.
Proof using Hmagic.
  clear Harena Htag Hfreed. intros (C & B & D & A & HI & _) -> Hx Hmg. destruct (hi_blocks _ _ _ _ _ _ _ _ _ HI) as [_ HB2 _ HB4].
  destruct (HB2 a ltac:(eauto)) as [[c HB]|Hh]; [|destruct (HB4 a Hh) as (_ & y & Hy & Hby & _); rewrite Hx in Hy; injection Hy as <-; congruence].
  destruct (class_facts_of c (block_class _ _ _ _ _ _ _ _ _ _ _ HI HB)) as [F1 _ F3 _ _ _ _]. destruct (block_bytes _ _ _ _ _ _ _ _ _ _ _ a HI HB ltac:(lia)) as (H0 & _ & Hend & _).
  change (get_actual_header (walk_header a)) with (wsub (wadd a 16) 16). rewrite wadd_small, wsub_small by lia. replace (a + 16 - 16) with a by lia. unfold get_header. by rewrite Hx.
Qed.

Lemma rs_calloc_live h ts V t th e m size nmemb align :
  ok h ts V -> ts !! t = Some th -> env_ok cpus e -> 0 <= size -> 0 <= nmemb -> nmemb * size <= 2097152 -> (align | 16) -> 0 < align -> is_power_of_two align = true ->
  match rs_calloc cfg th h e m size nmemb with
  | Ret (p, th', h', m') =>
      if p =? null then ok h' (<[t := th']> ts) V /\ m' = m
      else V !! p = None /\ ok h' (<[t := th']> ts) (<[p := (Z.max (nmemb * size) 1, align)]> V) /\
        (forall y, p <= y < p + Z.max (nmemb * size) 1 -> m' y = 0) /\ (forall y, ~ p <= y < p + Z.max (nmemb * size) 1 -> m' y = m y) /\ forall q sz al y, V !! q = Some (sz, al) -> q <= y < q + sz -> m' y = m y
  | Fatal e => e = VAIinitFailed
  | Stuck => False
  end.
Proof using Harena Hmagic.
  clear Htag Hfreed. intros Hok Ht He Hs Hn Hsum Ha16 Ha Hp. unfold rs_calloc, layout_array. destruct (Z.leb_spec size (2 ^ 63 - 1)); [|cbn [Z.eqb]; rewrite insert_id by done; done].
  unfold calc_and_get, checked_mul. destruct (Z.ltb_spec (nmemb * size) (2 ^ 64)); [|lia]. cbv zeta. set (n := Z.max (nmemb * size) 1).
  pose proof (rs_alloc_live cfg cpus Harena h ts V t th e n align Hok Ht He ltac:(lia) Ha16 Ha Hp) as Hr. destruct (rs_alloc cfg th h e n false) as [[[p th'] h']| |] eqn:Halloc; cbn [mbind outcome_bind allocated] in *; [|done..].
  destruct (Z.eqb_spec p null) as [->|Hp0]; [done|]. destruct Hr as [Hfresh Hok']. destruct (small_class n ltac:(lia)) as (c & Hc & Hcr & Hle). rewrite Hc, (class_entry c Hcr). cbn [from_option mbind outcome_bind].
  destruct (rs_alloc_flag th h e n c p th' h' Hc Halloc Hp0) as (a & x & Hpa & Hx & Hfl & Hmg). unfold calloc_zero. rewrite (header_flag _ _ _ _ _ _ Hok' Hpa Hx Hmg). cbn [mbind outcome_bind]. rewrite Hfl. cbn [orb].
  rewrite Z.eqb_refl, (Z.min_r (class_size c)) by lia. cbn [orb mbind outcome_bind]. destruct (Z.eqb_spec p null) as [|_]; [done|]. split; [done|]. split; [done|]. unfold zero. split; [|split; [intros y Hy; destruct (Z.leb_spec p y); [|done]; destruct (Z.ltb_spec y (p + n)); [lia|done]|]].
  - intros y Hy. destruct (Z.leb_spec p y); [|lia]. by destruct (Z.ltb_spec y (p + n)); [|lia].
  - intros q sz al y Hq Hy. destruct (Z.leb_spec p y); [|done]. destruct (Z.ltb_spec y (p + n)); [|done]. exfalso. assert (q <> p) by congruence. assert (q = p); [|done].
    eapply (live_apart cfg cpus h' _ _ q p sz n al align y Hok'); [by rewrite lookup_insert_ne|by rewrite lookup_insert_eq|lia|lia].
Qed.
End Resize.
