(* ===== verification/HeapSpec.v ===== *)
(** * The start of the allocator

    What [init] sets up, for every machine and configuration. *)

From S2P Require Import Prelude Types SizeClasses Kernel Radix RadixProofs RBTree Buddy BuddyGrow BuddyWhole PageAllocator PageProofs PageSpec Numa NumaSpec Predictor SList PendingQueue Rseq Bitmap SlabCache SlabProofs SlabSteal SlabSpec Heap BulkFill Alloc HeapFrame HeapInv HeapFill HeapOps Random GlobalAlloc Trim TrimProofs Realloc ReallocProofs HeapLive HeapStart HeapResize.

Section Start.
Context {K : Type} `{!Kernel K} `{!KernelSpec K} (m : machine) (rc : RSMallocConfig).
Implicit Types (k : K) (h : heap K) (ts : gmap nat tls) (V : gmap Z (Z * Z)).

Abbreviation cpus := (get_max_cpu (get_nprocs_conf m)).

(** The configuration is one a program can hold: [usize] values, and an arena
    size that leaves room in the address space. *)
Record config_ok : Prop := {
  co_cache : is_u 64 (get_size (rc_max_per_buddy_cache rc));
  co_arena : rc_arena_min_size rc <= 2 ^ 62;
}.

Lemma init_tags_ok safety rs :
  match init_tags safety rs with
  | Ret (magic, freed, big, tag) => magic <> freed /\ magic <> big /\ freed <> big /\ tag <> 0
  | Fatal e => e = SecurityViolation
  | Stuck => safety = MagicRandomization
  end.
Proof.
  unfold init_tags. destruct safety; cbn [is_fixed negb]; [|by vm_compute].
  pose proof (init_magic_ok rs) as Hm. destruct (init_magic rs) as [[[[mg fr] bg] rs1]|e|]; cbn [mbind outcome_bind].
  - assert (Hd : mg <> fr /\ mg <> bg /\ fr <> bg) by tauto. unfold init_align, getrandom. destruct rs1 as [|[v|] rs1]; cbn [mbind outcome_bind]; [done| |done].
    pose proof (redraw_ok 64 (fun tag => tag =? 0) (wrap 64 v) rs1 ltac:(lia) (wrap_range 64 v ltac:(lia))) as Hr.
    destruct (redraw 64 _ _ rs1) as [[tag rs2]|e|]; cbn [mbind outcome_bind]; [|by destruct Hr|done]. destruct Hr as (Hz & _). split; [tauto|]. split; [tauto|]. split; [tauto|lia].
  - by destruct Hm.
  - done.
Qed.

Lemma start_fresh k :
  machine_ok m -> config_ok -> mapped k VSYSCALL ->
  match init m rc k with
  | Ret (g, h) => let cfg := g_config g in
      262144 <= ARENA_SIZE cfg <= 2 ^ 62 /\ MAGIC cfg <> FREED_MAGIC cfg /\ MAGIC cfg <> BIG_MAGIC cfg /\ FREED_MAGIC cfg <> BIG_MAGIC cfg /\ ALIGN_TAG cfg <> 0 /\
      BUDDY_ENABLE_PERCENTAGE g <= BUDDY_DISABLE_PERCENTAGE g <= 100 /\ fresh_heap m h
  | Fatal e => e = RSEQRegFailed \/ e = VAIinitFailed \/ e = OutOfMemory \/ e = SecurityViolation
  | Stuck => rc_magic_safety rc = MagicRandomization
  end.
Proof.
  intros Hm [Hc Ha] Hv. unfold init. destruct ((rseq_size m =? 0) || (rseq_offset m =? 0)); [by left|]. set (huge := BuddyTHP_enabled _ && _).
  pose proof (init_heap_ok m (rc_max_refill_retries rc) (get_size (rc_max_per_buddy_cache rc)) huge k Hm Hc Hv) as Hh.
  destruct (init_heap m _ _ huge k) as [h|e|]; cbn [mbind outcome_bind]; [|tauto|done].
  pose proof (init_tags_ok (rc_magic_safety rc) (random m)) as Ht. destruct (init_tags _ _) as [[[[mg fr] bg] tag]|e|]; cbn [mbind outcome_bind]; [|tauto|done].
  cbn [g_config ARENA_SIZE MAGIC FREED_MAGIC BIG_MAGIC ALIGN_TAG BUDDY_ENABLE_PERCENTAGE BUDDY_DISABLE_PERCENTAGE]. cbv zeta. destruct Ht as (T1 & T2 & T3 & T4).
  split; [lia|]. do 4 (split; [done|]). split; [lia|done].
Qed.
End Start.
