(* ===== verification/HeapView.v ===== *)
(** * The heap seen without some of the memory of the process

    The mappings of single big allocations come and go.  [view S O] is the kernel
    specification [S] without the bytes [O]: they are never mapped, and in a process
    they stay mapped underneath.  The invariants of the components, proved for any
    kernel specification, hold in the view; [heap_moved] carries the invariant of
    the small-block heap from one view and one frame to another. *)

From stdpp Require Import functions.
From S2P Require Import Prelude Types SizeClasses Kernel Radix RadixProofs RBTree RBTreeProofs Buddy BuddyRep BuddyProofs BuddyGrow BuddySpec BuddyWhole PageAllocator PageProofs PageSpec Numa NumaSpec Predictor SList PendingQueue Rseq Bitmap SlabCache SlabProofs SlabSteal SlabSpec Heap BulkFill Alloc HeapFrame HeapInv HeapFill HeapOps HeapLive.

(** ** Views of the kernel *)

Section View.
Context {K : Type} `{!Kernel K} (S : KernelSpec K) (O : Z -> Prop).
Implicit Types (k : K).

Definition view_mapped k (x : Z) : Prop := mapped k x /\ ~ O x /\ (x = VSYSCALL -> forall y, O y -> mapped k y).

#[program] Definition view : KernelSpec K := {| mapped := view_mapped |}.
Next Obligation.
  intros size k a k' Hs (Hv & HnO & HO) Hm. specialize (HO eq_refl). destruct (mmap_some size k a k' Hs Hv Hm) as (H1 & H2 & H3 & H4 & H5).
  split; [done|]. split; [done|]. split; [done|]. split; [intros x Hx (Hx' & _); by apply (H4 x)|]. intros x. unfold view_mapped. rewrite H5. split.
  - intros ([Hx|Hx] & Hn & _); [left|by right]. by split_and!.
  - intros [(Hx & Hn & _)|Hx]; (split; [by auto|]; split; [|intros _ y Hy; apply H5; by auto]); [done|]. intros Hxo. by apply (H4 x Hx), HO.
Qed.
Next Obligation. intros size k k' x Hm. unfold view_mapped. setoid_rewrite (fun y => mmap_none size k k' y Hm). done. Qed.
Next Obligation. intros size k x (H1 & H2 & H3). split_and!; [by apply mmap_keeps|done|]. intros He y Hy. by apply mmap_keeps, H3. Qed.
Next Obligation. intros a len k x (H1 & H2 & H3). split_and!; [by eapply munmap_mapped|done|]. intros He y Hy. by eapply munmap_mapped, H3. Qed.
Next Obligation.
  intros a len k x (H1 & H2 & H3) Hr Hx. assert (Hr' : forall y, a <= y < a + round_up len 4096 -> mapped k y) by (intros y Hy; by apply Hr).
  split_and!; [by apply munmap_other|done|]. intros He y Hy. apply munmap_other; [by apply H3|done|]. intros Hy'. by destruct (Hr y Hy') as (_ & ? & _).
Qed.
Next Obligation. intros a len adv k x. unfold view_mapped. by setoid_rewrite madvise_mapped. Qed.
Next Obligation. intros a len mode mask maxnode flags k x. unfold view_mapped. by setoid_rewrite mbind_mapped. Qed.
Next Obligation. intros. by apply mbind_einval. Qed.
Next Obligation.
  intros old osz nsz k a k' Hs H1 H2 H3 (Hv & HnO & HO) Hold Hm. specialize (HO eq_refl). destruct (mremap_some old osz nsz k a k' Hs H1 H2 H3 Hv ltac:(intros x Hx; by apply Hold) Hm) as (-> & H4 & H5 & H6).
  split; [done|]. split; [done|]. split; [intros x Hx (Hx' & _); by apply (H5 x)|]. intros x. unfold view_mapped. rewrite H6. split.
  - intros ([Hx|Hx] & Hn & _); [left|by right]. by split_and!.
  - intros [(Hx & Hn & _)|Hx]; (split; [by auto|]; split; [|intros _ y Hy; apply H6; by auto]); [done|]. intros Hxo.
    destruct (Z.ltb_spec x (old + osz)); [by destruct (Hold x ltac:(lia)) as (_ & ? & _)|]. by apply (H5 x ltac:(lia)), HO.
Qed.
Next Obligation. intros old osz nsz k k' x Hm. unfold view_mapped. setoid_rewrite (fun y => mremap_none old osz nsz k k' y Hm). done. Qed.
End View.

Section Tree.
Context {K : Type} `{!Kernel K} `{!KernelSpec K}.
Implicit Types (k : K).

(** ** New nodes of the tree unmap nothing *)

Lemma alloc_node_mapped s k ky v z s' k' x : alloc_node s k ky v = Ret (z, s', k') -> mapped k x -> mapped k' x.
Proof.
  unfold alloc_node, alloc_chunk. intros H Hx. apply bind_Ret in H as ([s1 k1] & H1 & H). assert (Hk : mapped k1 x).
  { case_match; [|by simplify_eq]. pose proof (mmap_keeps (NODE_CHUNK * Node_SIZE) k x Hx) as Hm. destruct (mmap_anonymous (NODE_CHUNK * Node_SIZE) k) as [[ptr|] k2]; [|done].
    apply bind_Ret in H1 as (s2 & _ & H1). apply bind_Ret in H1 as (s3 & _ & H1). by simplify_eq. }
  do 7 (apply bind_Ret in H as (? & _ & H)). by simplify_eq.
Qed.

Lemma insert_mapped s k ky v s' k' x : RBTree.insert s k ky v = Ret (s', k') -> mapped k x -> mapped k' x.
Proof.
  unfold RBTree.insert, tree_insert. intros H Hx. apply bind_Ret in H as ([s1|y] & _ & H); [by simplify_eq|]. apply bind_Ret in H as ([[z s2] k2] & Ha & H).
  do 3 (apply bind_Ret in H as (? & _ & H)). simplify_eq. by eapply alloc_node_mapped.
Qed.

End Tree.

(** ** From one specification to another *)

Section Transfer.
Context {K : Type} `{!Kernel K} (S1 S2 : KernelSpec K).
Implicit Types (k : K) (rx : RadixTree K).
Abbreviation mapped1 := (@mapped K _ S1).
Abbreviation mapped2 := (@mapped K _ S2).

Lemma radix_wf_view rx k :
  radix_wf (KernelSpec0 := S1) rx -> (forall x, mapped1 (kern rx) x -> mapped2 k x) -> radix_wf (KernelSpec0 := S2) (mkRadixTree (l0 rx) (mem rx) k).
Proof. intros [tabs Hi] Hm. exists tabs. destruct Hi. constructor; eauto. Qed.

Lemma tree_ok_view s k k' M : tree_ok (KernelSpec0 := S1) s k M -> (forall x, mapped1 k x -> mapped2 k' x) -> tree_ok (KernelSpec0 := S2) s k' M.
Proof. intros (t & fl & H1 & [P1 P2 P3 P4 P5] & H3) Hm. exists t, fl. split; [done|]. split; [|done]. constructor; auto. Qed.

Lemma page_inv_view (p : PageAllocator K) L k :
  page_inv (KernelSpec0 := S1) p L -> (forall y, mapped1 (pg_kern p) y -> mapped2 k y) -> page_inv (KernelSpec0 := S2) (mkPageAllocator (pg_inner p) (pg_mem p) k) L.
Proof.
  intros [H1 H2 H3 H4] Hm. constructor; try done. destruct H4 as [A1 A2 A3]. constructor; [|done|by apply Hm].
  intros a Ha. destruct (A1 a Ha) as (b & e & cur & He & []). exists b, e, cur. split; [done|]. constructor; auto.
Qed.

Lemma whole_view s rx rx' rs A :
  whole (KernelSpec0 := S1) s rx rs A -> radix_wf (KernelSpec0 := S2) rx' -> (forall x, mapped1 (kern rx) x -> mapped2 (kern rx') x) ->
  (forall a, 0 <= a < 2 ^ 47 -> mapped1 (kern rx) a -> is_owned rx a = Ret true -> is_owned rx' a = Ret true) -> whole (KernelSpec0 := S2) s rx' rs A.
Proof.
  intros [W1 W2 W3 W4 W5 W6 W7 W8] Hwf Hm Ho. constructor; try done.
  - intros r b t Hin. destruct (W3 r b t Hin) as [P1 P2 P3 P4 P5]. constructor; [done|done| |intros x w Hx Hw; by eapply Hm, P4|by apply Hm].
    intros a Ha. destruct (P3 a Ha) as [Ha1 Ha2]. split; [by apply Hm|]. destruct P1 as [(? & ? & ? & _) _]. apply Ho; [lia|done|done].
  - intros w Hw. apply W7. intros Hx. by apply Hw, Hm.
Qed.
End Transfer.

(** ** Moving the small-block heap *)

Section Moved.
Context {K : Type} `{!Kernel K} (S1 S2 : KernelSpec K) (F1 F2 : frame) (cfg : config) (cpus : Z).
Implicit Types (h : heap K) (ts : gmap nat tls) (C B D : gmap Z Z) (A M W : gset Z).
Abbreviation mapped1 := (@mapped K _ S1).
Abbreviation mapped2 := (@mapped K _ S2).
Abbreviation bytes1 := (@fr_bytes F1).
Abbreviation bytes2 := (@fr_bytes F2).

(** [h'] differs from [h] in what the big allocations are made of. *)
Record moved h h' : Prop := {
  mv_inner : sl_inner (hp_slab h') = sl_inner (hp_slab h);
  mv_spans : hp_queue h' = hp_queue h /\ hp_spans h' = hp_spans h;
  mv_pages : pg_inner (hp_pages h') = pg_inner (hp_pages h) /\ pg_mem (hp_pages h') = pg_mem (hp_pages h) /\ hp_pages_once h' = hp_pages_once h;
  mv_mapped x : mapped1 (hp_kern h) x -> mapped2 (hp_kern h') x;
  mv_radix : radix_wf (KernelSpec0 := S2) (hp_radix h');
  mv_owned y : 0 <= y < 2 ^ 47 -> mapped1 (hp_kern h) y -> Radix.get (hp_radix h) (y / CHUNK_SIZE) = true -> Radix.get (hp_radix h') (y / CHUNK_SIZE) = true;
  mv_bytes y : bytes2 y -> (forall k, ~ mapped2 k y) \/ mapped2 (hp_kern h') y /\ (bytes1 y \/ ~ mapped1 (hp_kern h) y);
  mv_kept : (forall y, @fr_mapped F2 y -> mapped2 (hp_kern h') y) /\ (forall j, 0 <= j < 2 ^ 44 -> @fr_owned F2 j -> Radix.get (hp_radix h') j = true);
  mv_headers a : ~ bytes1 a -> ~ bytes2 a -> sl_mem (hp_slab h') !! a = sl_mem (hp_slab h) !! a;
  mv_dom a : is_Some (sl_mem (hp_slab h') !! a) -> a ∈ @fr_heads F2 \/ is_Some (sl_mem (hp_slab h) !! a) /\ a ∉ @fr_heads F1;
  mv_heads a : a ∈ @fr_heads F2 -> bytes2 a /\ exists x, sl_mem (hp_slab h') !! a = Some x /\ big_header cfg x;
  mv_raw y : ~ bytes1 y -> ~ bytes2 y -> hp_raw h' !! y = hp_raw h !! y;
  mv_rest : (forall y, bytes2 y -> hp_raw h' !! y = @fr_raw F2 !! y) /\ @fr_same F2 (hp_big h') (hp_buddy h');
}.

(** What is not mapped is no page of the heap. *)
Lemma unmapped_apart h C L y :
  pages_inv (KernelSpec0 := S1) (Fr := F1) h C L -> ~ mapped1 (hp_kern h) y ->
  ~ page_avail (hp_pages h) L y /\ forall m c, C !! m = Some c -> ~ m <= y < m + page_bytes (span_total c (block_size_of c)).
Proof.
  intros HP Hy. split; [|intros m c Hm Hr; by apply Hy, (pv_bytes _ _ _ HP m c y)]. intros Ha. apply Hy. destruct (pv_pages _ _ _ HP) as [[_ Hi]|Hn].
  - by eapply avail_mapped; [apply Hi|].
  - rewrite Hn in Ha. by destruct Ha as (a & b & e & cur & _ & He & _).
Qed.

Lemma pages_moved h h' C L :
  moved h h' -> (forall m c, C !! m = Some c -> exists x j, span_at (hp_spans h) m c x j) ->
  pages_inv (KernelSpec0 := S1) (Fr := F1) h C L -> pages_inv (KernelSpec0 := S2) (Fr := F2) h' C L.
Proof.
  intros HM Hsp HP. destruct (mv_pages _ _ HM) as (E1 & E2 & E3). pose proof HP as [P1 P2 P3 P4 P5 P6 P7].
  assert (Hav : forall y, page_avail (hp_pages h') L y -> page_avail (hp_pages h) L y) by (intros y; unfold page_avail, listed, nodes; by rewrite E1, E2).
  assert (Hpg : hp_pages h' = mkPageAllocator (pg_inner (hp_pages h)) (pg_mem (hp_pages h)) (hp_kern h')) by (rewrite <- E1, <- E2; unfold hp_kern; by destruct (hp_pages h')).
  constructor.
  - rewrite E3. destruct P1 as [[Ho Hi]|Hn]; [left; split; [done|]; rewrite Hpg; apply (page_inv_view S1 S2 _ _ _ Hi), HM|right]. rewrite Hpg, Hn. done.
  - intros m c y Hm Hy. destruct (P2 m c y Hm Hy) as [H1 H2]. split; [by apply HM|]. intros Ha. by apply H2, Hav.
  - apply HM.
  - intros m c y Hm Hy. destruct (Hsp m c Hm) as (x & j & [Hc (H0 & _ & H1) _ _ _ _]). destruct (mul_total c Hc) as [Ht _]. apply (mv_owned _ _ HM); [lia| |by eapply P4]. apply (P2 m c y Hm). lia.
  - intros y Hy. destruct (mv_bytes _ _ HM y Hy) as [?|[Hm Hor]]; [by left|right]. split; [done|].
    assert (Hap : ~ page_avail (hp_pages h) L y /\ forall m c, C !! m = Some c -> ~ m <= y < m + page_bytes (span_total c (block_size_of c))).
    { destruct Hor as [Hb|Hn]; [|by apply (unmapped_apart h)]. destruct (P5 y Hb) as [Hno|(_ & H1 & H2)]; [apply (unmapped_apart h); [done|apply Hno]|done]. }
    destruct Hap as [H1 H2]. split; [intros Ha; by apply H1, Hav|done].
  - apply HM.
  - apply HM.
Qed.

Lemma blocks_moved h h' C B A M L :
  moved h h' -> spans_inv h C B -> pages_inv (KernelSpec0 := S1) (Fr := F1) h C L -> pages_inv (KernelSpec0 := S2) (Fr := F2) h' C L ->
  blocks_inv (Fr := F1) cfg cpus h B A M -> blocks_inv (Fr := F2) cfg cpus h' B A M.
Proof.
  intros HM HS HP1 HP2 [[Q B1] B2 B3 B4].
  assert (Hsame : forall a, is_Some (B !! a) -> sl_mem (hp_slab h') !! a = sl_mem (hp_slab h) !! a).
  { intros a [c HB]. pose proof (block_inside_span h C B a c HS HB) as (m & Hm & Hc & Hin). destruct (class_facts_of c Hc) as [F1' _ F3' _ _ _ _].
    apply (mv_headers _ _ HM); [eapply (span_not_framed (KernelSpec0 := S1) (Fr := F1) h); [exact HP1|done..|]|eapply (span_not_framed (KernelSpec0 := S2) (Fr := F2) h'); [exact HP2|done..|]]; apply Hin; lia. }
  constructor.
  - exists Q. replace (hp_slab h') with (mkSlab (sl_inner (hp_slab h)) (sl_mem (hp_slab h'))) by (rewrite <- (mv_inner _ _ HM); by destruct (hp_slab h')).
    pose proof (spread_carve cpus _ (dom B) (hp_slab h) A Q [] (sl_mem (hp_slab h')) B1 ltac:(by intros a ?%not_elem_of_nil)) as Hs. cbn [list_to_set foldr] in Hs. rewrite !union_empty_r_L in Hs. apply Hs.
    intros a Ha. by apply Hsame, elem_of_dom.
  - intros a Ha. destruct (mv_dom _ _ HM a Ha) as [?|[Ha' Hn]]; [by right|]. destruct (B2 a Ha'); [by left|done].
  - intros a c x HB Hx. rewrite Hsame in Hx by eauto. by eapply B3.
  - apply HM.
Qed.

Lemma heap_moved h h' ts V :
  moved h h' -> heap_ok (KernelSpec0 := S1) (Fr := F1) cfg cpus h ts V -> heap_ok (KernelSpec0 := S2) (Fr := F2) cfg cpus h' ts V.
Proof.
  intros HM (C & B & D & A & [HS [L HP] [St HQ] HB] & HL). destruct (mv_spans _ _ HM) as [Eq Es]. pose proof (pages_moved h h' C L HM (si_span _ _ _ HS) HP) as HP'.
  assert (HI' : heap_inv (KernelSpec0 := S2) (Fr := F2) cfg cpus h' ts C B A A ∅).
  { constructor; [|by exists L|exists St|by eapply blocks_moved].
    - destruct HS as [H1 H2 H3]. constructor; rewrite ?Es; done.
    - destruct HQ as [Q1 Q2 Q3 Q4 Q5 Q6]. constructor; rewrite ?Es, ?Eq; done. }
  exists C, B, D, A. split; [done|]. destruct HL as [L1 L2 L3 L4 L5 L6]. constructor; [done|done|done| |apply HM|apply HM].
  intros p a size align Hp HV. destruct (L4 p a size align Hp HV) as [P1 P2 P3 P4 (c & P5 & P6 & P7)]. constructor; try done. exists c. split; [done|]. split; [|done].
  pose proof (block_inside_span h C B a c HS P5) as (m & Hm & Hc & Hin). eapply points_frame; [exact Hc|exact P6|]. intros y Hy.
  apply (mv_raw _ _ HM); [eapply (span_not_framed (KernelSpec0 := S1) (Fr := F1) h); [exact HP|done..|]|eapply (span_not_framed (KernelSpec0 := S2) (Fr := F2) h'); [exact HP'|done..|]]; by apply Hin.
Qed.
End Moved.
