(* ===== verification/BigInv.v ===== *)
(** * The invariant of the whole heap

    Small blocks, buddy regions and single mappings side by side.  A big allocation
    is a block of the buddy allocator or a mapping of its own; the red-black tree
    knows it by its payload.  The mappings are left out of the view of the kernel
    the rest of the heap has, and all the bytes of big allocations are the frame of
    the operations on small blocks. *)

From stdpp Require Import functions.
From S2P Require Import Prelude Types SizeClasses Kernel Radix RadixProofs RBTree RBTreeProofs Buddy BuddyRep BuddyProofs BuddyGrow BuddySpec BuddyWhole PageAllocator PageProofs PageSpec Numa NumaSpec Predictor SList PendingQueue Rseq Bitmap SlabCache SlabProofs SlabSteal SlabSpec Heap BulkFill Alloc HeapFrame HeapInv HeapFill HeapOps HeapLive HeapView.

Ltac Zify.zify_post_hook ::= idtac.

Section Big.
Context {K : Type} `{!Kernel K} {S : KernelSpec K} (cfg : config) (cpus : Z).
Implicit Types (h : heap K) (ts : gmap nat tls) (own : gmap Z Z) (rs : regions) (Ab : Z -> gset (Z * Z)) (M : gmap Z BigAllocMeta) (G : gset Z)
  (Vs Vb : gmap Z (Z * Z)) (Db : gmap Z Z).

(** ** The bytes of big allocations *)

(** The mappings of their own, by their first bytes, with their lengths. *)
Definition own_bytes own (y : Z) : Prop := exists b l, own !! b = Some l /\ b <= y < b + l.
Definition region_bytes rs (y : Z) : Prop := exists r b t, (r, (b, t)) ∈ rs /\ b <= y < b + t.
Definition big_bytes own rs (y : Z) : Prop := own_bytes own y \/ region_bytes rs y.

Abbreviation seen own := (view S (own_bytes own)).
Abbreviation smapped own := (@mapped K _ (view S (own_bytes own))).

(** What the operations on small blocks must keep in the state [h]. *)
Definition big_frame h own rs G : frame :=
  mkFrame (big_bytes own rs) G (smapped own (hp_kern h)) (fun j => Radix.get (hp_radix h) j = true) (hp_raw h) (fun t b => t = hp_big h /\ b = hp_buddy h).

Abbreviation mapping_size size := (estimate_and_align_2mb cfg (size + 16)).

(** The bytes of a block, from its header on. *)
Definition block_len (meta : BigAllocMeta) : Z := if bm_buddy_region meta =? 0 then mapping_size (bm_size meta) else 2 ^ bm_order meta.

(** The block at [a] with the metadata [meta]. *)
Record entry h own Ab (a : Z) (meta : BigAllocMeta) : Prop := {
  en_size : 0 <= bm_size meta /\ bm_size meta + 16 <= block_len meta;
  en_home : if bm_buddy_region meta =? 0 then own !! a = Some (block_len meta) else (bm_order meta, a) ∈ Ab (bm_buddy_region meta);
  en_first : Radix.get (hp_radix h) (a / CHUNK_SIZE) = true;
  en_aligned y : bm_aligned meta = true -> a <= y < a + block_len meta -> Radix.get (hp_radix h) (y / CHUNK_SIZE) = true;
}.

Record big_inv h own rs Ab M G : Prop := {
  bi_own b l : own !! b = Some l -> 0 < b /\ (4096 | b) /\ (4096 | l) /\ 0 < l /\ b + l <= 2 ^ 47;
  bi_apart b l b' l' y : own !! b = Some l -> own !! b' = Some l' -> b <= y < b + l -> b' <= y < b' + l' -> b = b';
  bi_whole : whole (KernelSpec0 := seen own) (hp_buddy h) (hp_radix h) rs Ab;
  bi_tree : tree_ok (KernelSpec0 := seen own) (hp_big h) (hp_kern h) M;
  bi_entry p meta : M !! p = Some meta -> entry h own Ab (p - 16) meta /\ p - 16 ∈ G;
}.

(** The pointer [p] is the payload [q], or aligned in it behind the tag. *)
Definition tagged h G (p q : Z) : Prop :=
  p = q \/ q + 16 <= p /\ hp_raw h !! (p - 16) = Some (ALIGN_TAG cfg) /\ hp_raw h !! (p - 8) = Some q /\ p - 16 ∉ G /\ p - 8 ∉ G.

(** A pointer behind the header is aligned as any block is. *)
Definition aligned_at (p q align : Z) : Prop := (align | p) /\ 0 < align /\ is_power_of_two align = true /\ (p = q -> (align | 16)).

(** The live pointers to big allocations and their payloads. *)
Record big_live h M G Vb Db : Prop := {
  bl_dom : dom Db = dom Vb;
  bl_one p p' q : Db !! p = Some q -> Db !! p' = Some q -> p = p';
  bl_place p q size align : Db !! p = Some q -> Vb !! p = Some (size, align) ->
    exists meta, M !! q = Some meta /\ 0 <= size /\ aligned_at p q align /\ Radix.get (hp_radix h) (p / CHUNK_SIZE) = true /\ tagged h G p q /\ p < q + bm_size meta /\ p + size <= q + bm_size meta;
}.

(** The whole heap, with the live small pointers [Vs] and the big ones [Vb]. *)
Record big_ok h ts Vs Vb own rs Ab M G Db : Prop := {
  bo_small : heap_ok (KernelSpec0 := seen own) (Fr := big_frame h own rs G) cfg cpus h ts Vs;
  bo_big : big_inv h own rs Ab M G;
  bo_live : big_live h M G Vb Db;
}.

(** ** Where a big block is *)

Section Where.
Context (h : heap K) (own : gmap Z Z) (rs : regions) (Ab : Z -> gset (Z * Z)) (M : gmap Z BigAllocMeta) (G : gset Z) (HB : big_inv h own rs Ab M G).

Lemma entry_place a meta :
  entry h own Ab a meta -> 0 < a /\ (4096 | a) /\ a + block_len meta <= 2 ^ 47 /\
    forall y, a <= y < a + block_len meta -> if bm_buddy_region meta =? 0 then own_bytes own y else region_bytes rs y.
Proof using HB.
  intros [[_ Hs] Hh _ _]. unfold block_len in *. destruct (Z.eqb_spec (bm_buddy_region meta) 0) as [E|E].
  - destruct (bi_own _ _ _ _ _ _ HB a _ Hh) as (H1 & H2 & _ & _ & H5). split_and!; try done. intros y Hy. by exists a, (mapping_size (bm_size meta)).
  - destruct (whole_block _ _ _ _ _ _ _ (bi_whole _ _ _ _ _ _ HB) Hh) as (b & t & Hin & (H1 & H2 & H3 & _) & (Ho & Hlo & Hhi & Hd)).
    destruct (ro_space _ _ _ _ _ _ (wh_region _ _ _ _ (bi_whole _ _ _ _ _ _ HB) _ _ _ Hin)) as [_ Hb4]. split_and!; [lia| |lia|].
    + replace a with (b + (a - b)) by lia. apply Z.divide_add_r; [done|]. apply Z.divide_trans with (2 ^ bm_order meta); [|done]. exists (2 ^ (bm_order meta - 12)). change 4096 with (2 ^ 12). rewrite <- Z.pow_add_r by lia. f_equal. lia.
    + intros y Hy. exists (bm_buddy_region meta), b, t. split; [done|lia].
Qed.

(** Regions are mapped in the view, mappings are not. *)
Lemma region_seen y : region_bytes rs y -> smapped own (hp_kern h) y.
Proof using HB. intros (r & b & t & Hin & Hy). by apply (ro_bytes _ _ _ _ _ _ (wh_region _ _ _ _ (bi_whole _ _ _ _ _ _ HB) _ _ _ Hin) y). Qed.

Lemma own_unseen y k : own_bytes own y -> ~ smapped own k y.
Proof using. intros Hy (_ & Hn & _). done. Qed.

(** Blocks with a byte in common are one. *)
Lemma entries_apart a a' meta meta' y :
  entry h own Ab a meta -> entry h own Ab a' meta' -> a <= y < a + block_len meta -> a' <= y < a' + block_len meta' -> a = a'.
Proof using HB.
  intros He He' Hy Hy'. destruct (entry_place a meta He) as (_ & _ & _ & Hp). destruct (entry_place a' meta' He') as (_ & _ & _ & Hp'). specialize (Hp y Hy). specialize (Hp' y Hy').
  pose proof (en_home _ _ _ _ _ He) as Hh. pose proof (en_home _ _ _ _ _ He') as Hh'. unfold block_len in *.
  destruct (bm_buddy_region meta =? 0), (bm_buddy_region meta' =? 0).
  - by eapply (bi_apart _ _ _ _ _ _ HB).
  - by destruct (own_unseen y (hp_kern h) Hp); apply region_seen.
  - by destruct (own_unseen y (hp_kern h) Hp'); apply region_seen.
  - by destruct (whole_disjoint _ _ _ _ _ _ _ _ _ _ y (bi_whole _ _ _ _ _ _ HB) Hh Hh' Hy Hy') as (_ & _ & ?).
Qed.
End Where.

(** ** Moving from one state to another *)

(** The parts of the heap that hold small blocks are the same. *)
Record same_small h h' : Prop := {
  ss_inner : sl_inner (hp_slab h') = sl_inner (hp_slab h);
  ss_spans : hp_queue h' = hp_queue h /\ hp_spans h' = hp_spans h;
  ss_pages : pg_inner (hp_pages h') = pg_inner (hp_pages h) /\ pg_mem (hp_pages h') = pg_mem (hp_pages h) /\ hp_pages_once h' = hp_pages_once h;
}.

(** Headers and words change in the bytes of big allocations only, and the headers
    there are those of [G']. *)
Record memory_moved h h' own rs G own' rs' G' : Prop := {
  mm_headers a : ~ big_bytes own rs a -> ~ big_bytes own' rs' a -> sl_mem (hp_slab h') !! a = sl_mem (hp_slab h) !! a;
  mm_dom a : is_Some (sl_mem (hp_slab h') !! a) -> a ∉ G' -> is_Some (sl_mem (hp_slab h) !! a) /\ a ∉ G;
  mm_heads a : a ∈ G' -> big_bytes own' rs' a /\ exists x, sl_mem (hp_slab h') !! a = Some x /\ (big_header cfg x \/ a ∈ G /\ sl_mem (hp_slab h) !! a = Some x);
  mm_raw y : ~ big_bytes own rs y -> ~ big_bytes own' rs' y -> hp_raw h' !! y = hp_raw h !! y;
}.

(** The heads of the big allocations have headers. *)
Lemma heads_ok h ts Vs own rs G a (Fr : frame) :
  heap_ok (KernelSpec0 := seen own) (Fr := Fr) cfg cpus h ts Vs -> @fr_heads Fr = G -> a ∈ G -> @fr_bytes Fr a /\ exists x, sl_mem (hp_slab h) !! a = Some x /\ big_header cfg x.
Proof using. intros (C & B & D & A & HI & _) <- Ha. exact (bv_big _ _ _ _ _ _ (hi_blocks _ _ _ _ _ _ _ _ _ HI) a Ha). Qed.

Lemma small_moved h h' ts Vs own rs G own' rs' G' (Fr : frame) :
  heap_ok (KernelSpec0 := seen own) (Fr := Fr) cfg cpus h ts Vs -> @fr_bytes Fr = big_bytes own rs -> @fr_heads Fr = G ->
  same_small h h' -> memory_moved h h' own rs G own' rs' G' ->
  (forall x, smapped own (hp_kern h) x -> smapped own' (hp_kern h') x) -> radix_wf (KernelSpec0 := seen own') (hp_radix h') ->
  (forall y, 0 <= y < 2 ^ 47 -> smapped own (hp_kern h) y -> Radix.get (hp_radix h) (y / CHUNK_SIZE) = true -> Radix.get (hp_radix h') (y / CHUNK_SIZE) = true) ->
  (forall y, region_bytes rs' y -> smapped own' (hp_kern h') y /\ (region_bytes rs y \/ ~ smapped own (hp_kern h) y)) ->
  heap_ok (KernelSpec0 := seen own') (Fr := big_frame h' own' rs' G') cfg cpus h' ts Vs.
Proof using.
  intros Hok Eb Eh [S1 S2 S3] [M1 M2 M3 M4] Hm Hwf Ho Hr. eapply (heap_moved (seen own) (seen own') Fr (big_frame h' own' rs' G')); [|exact Hok].
  constructor; cbn [fr_bytes fr_heads fr_mapped fr_owned fr_raw fr_same big_frame]; rewrite ?Eb, ?Eh; try done.
  - intros y [Hy|Hy]; [left; intros k; by apply own_unseen|right]. destruct (Hr y Hy) as [H1 H2]. split; [done|]. destruct H2; [left; by right|by right].
  - intros a Ha. destruct (decide (a ∈ G')) as [|Hn]; [by left|right; by apply M2].
  - intros a Ha. destruct (M3 a Ha) as (Hb & x & Hx & Hor). split; [done|]. exists x. split; [done|]. destruct Hor as [|[Hg Hold]]; [done|].
    destruct (heads_ok _ _ _ _ rs _ a _ Hok Eh Hg) as (_ & x' & Hx' & Hbh). congruence.
Qed.

(** Nothing is written. *)
Lemma memory_same h h' own rs own' rs' G :
  sl_mem (hp_slab h') = sl_mem (hp_slab h) -> hp_raw h' = hp_raw h -> (forall a, a ∈ G -> big_bytes own' rs' a /\ is_Some (sl_mem (hp_slab h) !! a)) ->
  memory_moved h h' own rs G own' rs' G.
Proof using.
  intros E1 E2 HG. constructor; rewrite ?E1, ?E2; try done. intros a Ha. destruct (HG a Ha) as [Hb [x Hx]]. split; [done|]. exists x. split; [done|]. by right.
Qed.

Lemma chunk_range y : 0 <= y <= 2 ^ 47 -> 0 <= y / CHUNK_SIZE < 2 ^ 44.
Proof using. intros Hy. change CHUNK_SIZE with 4096. split; [apply Z.div_pos; lia|apply Z.div_lt_upper_bound; lia]. Qed.

(** Nothing is disowned. *)
Definition owned_grows h h' : Prop := forall j, 0 <= j < 2 ^ 44 -> Radix.get (hp_radix h) j = true -> Radix.get (hp_radix h') j = true.

(** The regions after a change that unmaps and disowns nothing of theirs. *)
Lemma whole_kept h h' own own' rs Ab :
  whole (KernelSpec0 := seen own) (hp_buddy h) (hp_radix h) rs Ab -> hp_buddy h' = hp_buddy h ->
  (forall x, smapped own (hp_kern h) x -> smapped own' (hp_kern h') x) -> radix_wf (KernelSpec0 := seen own') (hp_radix h') ->
  (forall y, 0 <= y < 2 ^ 47 -> smapped own (hp_kern h) y -> Radix.get (hp_radix h) (y / CHUNK_SIZE) = true -> Radix.get (hp_radix h') (y / CHUNK_SIZE) = true) ->
  whole (KernelSpec0 := seen own') (hp_buddy h') (hp_radix h') rs Ab.
Proof using.
  intros HW Eb Hm Hwf Hown. rewrite Eb. apply (whole_view (seen own) (seen own') _ _ _ _ _ HW Hwf Hm). intros a Ha Hma Hoa.
  rewrite (is_owned_get (KernelSpec0 := seen own') (hp_radix h') a Hwf) by (change MAX_ADDR with (2 ^ 56); lia).
  rewrite (is_owned_get (KernelSpec0 := seen own) (hp_radix h) a (wh_radix _ _ _ _ HW)) in Hoa by (change MAX_ADDR with (2 ^ 56); lia). injection Hoa as Hoa. f_equal. by apply Hown.
Qed.

Lemma owned_bytes_grow h h' y : owned_grows h h' -> 0 <= y < 2 ^ 47 -> Radix.get (hp_radix h) (y / CHUNK_SIZE) = true -> Radix.get (hp_radix h') (y / CHUNK_SIZE) = true.
Proof using. intros Ho Hy. apply Ho, chunk_range. lia. Qed.

(** The same blocks in a larger heap. *)
Lemma entry_grown h h' own own' rs Ab Ab' M G a meta :
  big_inv h own rs Ab M G -> entry h own Ab a meta -> own ⊆ own' -> (forall r, Ab r ⊆ Ab' r) -> owned_grows h h' -> entry h' own' Ab' a meta.
Proof using.
  intros HB He Ho HA Hown. destruct (entry_place h own rs Ab M G HB _ _ He) as (P1 & _ & P3 & _). destruct He as [E1 E2 E3 E4].
  constructor; [done| |apply (owned_bytes_grow h); [done|lia|done]|intros y Hal Hy; apply (owned_bytes_grow h); [done|lia|by apply E4]]. destruct (_ =? 0); [by eapply lookup_weaken|by apply HA].
Qed.

(** The big allocations after a change that unmaps and disowns nothing of theirs. *)
Lemma big_inv_grown h h' own rs Ab M G own' rs' Ab' G' :
  big_inv h own rs Ab M G -> hp_big h' = hp_big h -> whole (KernelSpec0 := seen own') (hp_buddy h') (hp_radix h') rs' Ab' -> own ⊆ own' -> (forall r, Ab r ⊆ Ab' r) ->
  (forall b l, own' !! b = Some l -> 0 < b /\ (4096 | b) /\ (4096 | l) /\ 0 < l /\ b + l <= 2 ^ 47) ->
  (forall b l b' l' y, own' !! b = Some l -> own' !! b' = Some l' -> b <= y < b + l -> b' <= y < b' + l' -> b = b') ->
  (forall x, smapped own (hp_kern h) x -> smapped own' (hp_kern h') x) -> owned_grows h h' -> G ⊆ G' ->
  big_inv h' own' rs' Ab' M G'.
Proof using.
  intros HB Et HW Ho HA H1 H2 Hm Hown HG. constructor; [done|done|done|rewrite Et; exact (tree_ok_view (seen own) (seen own') _ _ _ _ (bi_tree _ _ _ _ _ _ HB) Hm)|].
  intros p meta Hp. destruct (bi_entry _ _ _ _ _ _ HB p meta Hp) as [He Hg]. split; [|by apply HG]. by eapply entry_grown.
Qed.

(** Live pointers to big allocations keep what they promise when their words stay
    and no header is put into their payloads. *)
Lemma big_live_grown h h' own rs Ab M G M' G' Vb Db :
  big_inv h own rs Ab M G -> big_live h M G Vb Db -> M ⊆ M' ->
  (forall p q meta y, Db !! p = Some q -> M !! q = Some meta -> q <= y < q - 16 + block_len meta -> hp_raw h' !! y = hp_raw h !! y /\ (y ∈ G' -> y ∈ G)) ->
  owned_grows h h' -> big_live h' M' G' Vb Db.
Proof using.
  intros HB [L1 L2 L3] HM Hw Ho. constructor; [done|done|]. intros p q size align Hp HV. destruct (L3 p q size align Hp HV) as (meta & Hq & Hs & Hal & Hown & Htg & Hlt & Hfit).
  destruct (bi_entry _ _ _ _ _ _ HB q meta Hq) as [He _]. destruct (entry_place h own rs Ab M G HB _ _ He) as (P1 & _ & P3 & _). pose proof (en_size _ _ _ _ _ He).
  assert (q <= p) by (destruct Htg as [->|(? & _)]; lia). exists meta. split; [by eapply lookup_weaken|]. split_and!; try done; [apply Ho; [apply chunk_range; lia|done]|].
  destruct Htg as [->|(H1 & H2 & H3 & H4 & H5)]; [by left|right]. destruct (Hw p q meta (p - 16) Hp Hq ltac:(lia)) as [-> Hg1]. destruct (Hw p q meta (p - 8) Hp Hq ltac:(lia)) as [-> Hg2]. split_and!; auto.
Qed.

(** What the operations on small blocks have kept. *)
Lemma frame_kept h h' ts Vs own rs G :
  heap_ok (KernelSpec0 := seen own) (Fr := big_frame h own rs G) cfg cpus h' ts Vs ->
  (forall x, smapped own (hp_kern h) x -> smapped own (hp_kern h') x) /\ radix_wf (KernelSpec0 := seen own) (hp_radix h') /\
  owned_grows h h' /\ (forall y, big_bytes own rs y -> hp_raw h' !! y = hp_raw h !! y) /\ hp_big h' = hp_big h /\ hp_buddy h' = hp_buddy h.
Proof using. intros (C & B & D & A & [_ [L HP] _ _] & HL). destruct HP as [_ _ P3 _ _ P6 P7]. destruct HL as [_ _ _ _ L5 L6]. split_and!; try done; apply L6. Qed.

(** A step of the small blocks. *)
Lemma big_ok_small h h' ts ts' Vs Vs' Vb own rs Ab M G Db :
  big_ok h ts Vs Vb own rs Ab M G Db -> heap_ok (KernelSpec0 := seen own) (Fr := big_frame h own rs G) cfg cpus h' ts' Vs' ->
  big_ok h' ts' Vs' Vb own rs Ab M G Db.
Proof using.
  intros [Hs HB HL] Hok. destruct (frame_kept _ _ _ _ _ _ _ Hok) as (Hm & Hwf & Ho & Hraw & Et & Eb).
  assert (HB' : big_inv h' own rs Ab M G).
  { eapply (big_inv_grown h h' own rs Ab M G); try done; [|apply HB|apply HB]. eapply whole_kept; [apply HB|done..|]. intros y Hy _. by apply owned_bytes_grow. }
  constructor; [|done|].
  - eapply small_moved; [exact Hok|done|done|by constructor| |done|done|done|].
    + apply memory_same; [done|done|]. intros a Ha. destruct (heads_ok _ _ _ _ rs _ a _ Hok eq_refl Ha) as (Hb & x & Hx & _). eauto.
    + intros y Hy. split; [by eapply region_seen|by left].
  - apply (big_live_grown h h' own rs Ab M G M G); try done. intros p q meta y _ Hq Hy. split; [|done]. apply Hraw. destruct (bi_entry _ _ _ _ _ _ HB q meta Hq) as [He _].
    destruct (entry_place h own rs Ab M G HB _ _ He) as (_ & _ & _ & Hpl). specialize (Hpl y ltac:(lia)). unfold big_bytes. destruct (_ =? 0); auto.
Qed.

(** A step that only adds to the big allocations. *)
Lemma big_ok_grown h h' ts Vs Vb own rs Ab M G Db own' rs' Ab' G' :
  big_ok h ts Vs Vb own rs Ab M G Db -> same_small h h' -> hp_big h' = hp_big h -> memory_moved h h' own rs G own' rs' G' ->
  whole (KernelSpec0 := seen own') (hp_buddy h') (hp_radix h') rs' Ab' -> own ⊆ own' -> (forall r, Ab r ⊆ Ab' r) ->
  (forall b l, own' !! b = Some l -> 0 < b /\ (4096 | b) /\ (4096 | l) /\ 0 < l /\ b + l <= 2 ^ 47) ->
  (forall b l b' l' y, own' !! b = Some l -> own' !! b' = Some l' -> b <= y < b + l -> b' <= y < b' + l' -> b = b') ->
  (forall x, smapped own (hp_kern h) x -> smapped own' (hp_kern h') x) -> owned_grows h h' -> G ⊆ G' ->
  (forall y, region_bytes rs' y -> region_bytes rs y \/ ~ smapped own (hp_kern h) y) ->
  (forall q meta y, M !! q = Some meta -> q <= y < q - 16 + block_len meta -> hp_raw h' !! y = hp_raw h !! y /\ (y ∈ G' -> y ∈ G)) ->
  big_ok h' ts Vs Vb own' rs' Ab' M G' Db.
Proof using.
  intros [Hs HB HL] Hss Et Hmm HW Ho HA H1 H2 Hm Hown HG Hr Hw. assert (HB' : big_inv h' own' rs' Ab' M G') by (by eapply (big_inv_grown h h' own rs Ab M G)).
  constructor; [|done|apply (big_live_grown h h' own rs Ab M G M G'); [done..|by intros p q meta y _; apply Hw|done]]. eapply (small_moved h h' ts Vs own rs G own' rs' G'); try done.
  - apply (wh_radix _ _ _ _ HW).
  - intros y Hy _. by apply owned_bytes_grow.
  - intros y Hy. split; [by eapply region_seen|by apply Hr].
Qed.

(** The heads have headers, in the bytes of big allocations. *)
Lemma big_heads h ts Vs Vb own rs Ab M G Db a : big_ok h ts Vs Vb own rs Ab M G Db -> a ∈ G -> big_bytes own rs a /\ is_Some (sl_mem (hp_slab h) !! a).
Proof using. intros [Hs _ _] Ha. destruct (heads_ok _ _ _ _ rs _ a _ Hs eq_refl Ha) as (Hb & x & Hx & _). eauto. Qed.
End Big.
