(* ===== verification/BigOps.v ===== *)
(** * Big allocations keep the invariant of the whole heap *)

From stdpp Require Import functions.
From S2P Require Import Prelude Types SizeClasses Kernel Binder Radix RadixProofs RBTree RBTreeProofs Buddy BuddyRep BuddyProofs BuddyGrow BuddySpec BuddyWhole PageAllocator PageProofs PageSpec Numa NumaSpec Predictor SList PendingQueue Rseq Bitmap SlabCache SlabProofs SlabSteal SlabSpec Heap BulkFill Alloc HeapFrame HeapInv HeapFill HeapOps HeapLive HeapView BigInv.

Ltac Zify.zify_post_hook ::= idtac.

Section Ops.
Context {K : Type} `{!Kernel K} {S : KernelSpec K} (cfg : config) (cpus : Z).
Implicit Types (h : heap K) (ts : gmap nat tls) (own : gmap Z Z) (rs : regions) (Ab : Z -> gset (Z * Z)) (M : gmap Z BigAllocMeta) (G : gset Z)
  (Vs Vb : gmap Z (Z * Z)) (Db : gmap Z Z).

Abbreviation seen own := (view S (own_bytes own)).
Abbreviation smapped own := (@mapped K _ (view S (own_bytes own))).
Abbreviation ok := (big_ok cfg cpus).

(** ** Steps of [big_malloc] *)

(** Ownership in terms of addresses. *)
Lemma owned_grows_at h h' own own' :
  radix_wf (KernelSpec0 := seen own) (hp_radix h) -> radix_wf (KernelSpec0 := seen own') (hp_radix h') ->
  (forall a, 0 <= a < MAX_ADDR -> is_owned (hp_radix h) a = Ret true -> is_owned (hp_radix h') a = Ret true) -> owned_grows h h'.
Proof using.
  intros H1 H2 Ho j Hj Hg. assert (Hr : 0 <= j * 4096 < MAX_ADDR) by (change MAX_ADDR with (2 ^ 56); lia). specialize (Ho (j * 4096) Hr).
  rewrite (is_owned_get (KernelSpec0 := seen own) _ _ H1 Hr), (is_owned_get (KernelSpec0 := seen own') _ _ H2 Hr) in Ho. change CHUNK_SIZE with 4096 in Ho. rewrite Z.div_mul in Ho by lia. rewrite Hg in Ho. specialize (Ho eq_refl). by injection Ho.
Qed.

(** The buddy allocator is asked for a block. *)
Lemma buddy_alloc_ok h ts Vs Vb own rs Ab M G Db (env : BuddyEnv) size node nr numa :
  ok h ts Vs Vb own rs Ab M G Db -> is_u 64 size ->
  match Buddy.alloc env (hp_buddy h) (hp_radix h) size node nr numa with
  | Ret (res, b, t) => exists rs', let h' := set_radix (set_buddy h b) t in
      match res with
      | Some (a, o, _, r) => r <> 0 /\ (o, a) ∉ Ab r /\ size <= 2 ^ o /\ ok h' ts Vs Vb own rs' (<[r := {[(o, a)]} ∪ Ab r]> Ab) M G Db
      | None => ok h' ts Vs Vb own rs' Ab M G Db
      end
  | Fatal e => e = VAIinitFailed
  | Stuck => False
  end.
Proof.
  intros Hok Hs. pose proof (bo_big _ _ _ _ _ _ _ _ _ _ _ _ Hok) as HB. pose proof (bi_whole _ _ _ _ _ _ _ HB) as HW0. pose proof (alloc_whole (KernelSpec0 := seen own) env _ _ rs Ab size node nr numa HW0 Hs) as Ha.
  destruct (Buddy.alloc _ _ _ _ _ _ _) as [[[res b] t]| |]; [|done..]. destruct Ha as (rs' & req & [[l Gs] Gm Go Gf] & Hsz & Hd). exists rs'. cbv zeta. set (h' := set_radix (set_buddy h b) t).
  assert (Et : hp_radix h' = t) by (by destruct t).
  assert (Hgrow : forall Ab', (forall r, Ab r ⊆ Ab' r) -> whole (KernelSpec0 := seen own) b t rs' Ab' -> ok h' ts Vs Vb own rs' Ab' M G Db).
  { intros Ab' HA HW. eapply (big_ok_grown cfg cpus h h' ts Vs Vb own rs Ab M G Db own rs' Ab' G); [exact Hok|done|done| |by rewrite Et|done|exact HA|apply HB|apply HB|exact Gm| |done| |done].
    - apply memory_same; [done|done|]. intros a Ha. destruct (big_heads _ _ _ _ _ _ _ _ _ _ _ _ a Hok Ha) as [Hb Hh]. split; [|done]. destruct Hb as [|(r & b1 & t1 & Hin & Hy)]; [by left|right].
      exists r, b1, t1. split; [|done]. rewrite Gs. apply elem_of_app. by right.
    - eapply (owned_grows_at h h' own own); [apply HW0|rewrite Et; apply HW|by rewrite Et].
    - intros y (r & b1 & t1 & Hin & Hy). destruct (Gf r b1 t1 Hin) as [Hin'|Hn]; [left; by exists r, b1, t1|right; by apply Hn]. }
  destruct res as [[[[a o] f] r]|]; [|by apply Hgrow]. destruct Hd as (-> & (b1 & t1 & Hin & _) & Hn & HW). destruct Hsz as [|Hsz]; [done|].
  split; [exact (linked_ne _ _ _ _ (wh_linked _ _ _ _ HW) (whole_in _ _ _ _ Hin))|]. split; [done|]. split; [done|]. apply Hgrow; [|done].
  intros r'. destruct (decide (r' = r)) as [->|Hne]; [rewrite fn_lookup_insert; set_solver|by rewrite fn_lookup_insert_ne].
Qed.

(** A block is mapped for the allocation alone. *)
Lemma own_alloc_ok h ts Vs Vb own rs Ab M G Db len base k1 k2 :
  ok h ts Vs Vb own rs Ab M G Db -> 0 < len -> (4096 | len) -> mmap_anonymous len (hp_kern h) = (Some base, k1) -> (forall x, mapped k2 x <-> mapped k1 x) ->
  own !! base = None /\ 0 < base /\ (4096 | base) /\ base + len <= 2 ^ 47 /\ ok (set_kern h k2) ts Vs Vb (<[base := len]> own) rs Ab M G Db.
Proof.
  intros Hok Hl Hd Hmm Hk2. pose proof (bo_big _ _ _ _ _ _ _ _ _ _ _ _ Hok) as HB. pose proof (bi_whole _ _ _ _ _ _ _ HB) as HW. destruct (radix_process (KernelSpec0 := seen own) _ (wh_radix _ _ _ _ HW)) as (Hv & _ & HO). specialize (HO eq_refl).
  destruct (mmap_some len (hp_kern h) base k1 Hl Hv Hmm) as (H1 & H2 & H3 & H4 & H5). rewrite round_up_id in H3, H4, H5 by (lia || done). setoid_rewrite <- Hk2 in H5.
  assert (Hfr : forall y, own_bytes own y -> ~ base <= y < base + len) by (intros y Hy Hr; by apply (H4 y Hr), HO).
  assert (Hnone : own !! base = None). { destruct (own !! base) as [l|] eqn:E; [|done]. exfalso. destruct (bi_own _ _ _ _ _ _ _ HB base l E) as (_ & _ & _ & Hl0 & _). apply (Hfr base); [exists base, l; split; [done|lia]|lia]. }
  assert (Hob : forall y, own_bytes (<[base := len]> own) y <-> own_bytes own y \/ base <= y < base + len).
  { intros y. split.
    - intros (b & l & [[<- <-]|[Hne Hb]]%lookup_insert_Some & Hy); [by right|left; by exists b, l].
    - intros [(b & l & Hb & Hy)|Hy]; [exists b, l; split; [|done]; rewrite lookup_insert_ne; [done|congruence]|exists base, len; split; [apply lookup_insert_eq|done]]. }
  assert (Hm : forall x, smapped own (hp_kern h) x -> smapped (<[base := len]> own) k2 x).
  { intros x (Hx & Hn & _). split; [apply H5; by left|]. split; [rewrite Hob; intros [|Hr]; [done|by apply (H4 x Hr)]|]. intros _ y [Hy|Hy]%Hob; apply H5; [left; by apply HO|by right]. }
  split; [done|]. split; [done|]. split; [done|]. split; [done|].
  assert (Hwf : radix_wf (KernelSpec0 := seen (<[base := len]> own)) (hp_radix (set_kern h k2))) by (apply (radix_wf_view (seen own) (seen _) (hp_radix h) k2); [apply HW|exact Hm]).
  eapply (big_ok_grown cfg cpus h (set_kern h k2) ts Vs Vb own rs Ab M G Db _ rs Ab G); [exact Hok|done|done| | |by apply insert_subseteq|done| | |exact Hm|by intros j|done|by left|done].
  - apply memory_same; [done|done|]. intros a Ha. destruct (big_heads _ _ _ _ _ _ _ _ _ _ _ _ a Hok Ha) as [Hb Hh]. split; [|done]. destruct Hb; [left; apply Hob; by left|by right].
  - by eapply (whole_kept h).
  - intros b l [[<- <-]|[Hne Hb]]%lookup_insert_Some; [by split_and!|by eapply (bi_own _ _ _ _ _ _ _ HB)].
  - intros b l b' l' y [[<- <-]|[Hne Hb]]%lookup_insert_Some [[<- <-]|[Hne' Hb']]%lookup_insert_Some Hy Hy'; [done| | |by eapply (bi_apart _ _ _ _ _ _ _ HB)].
    + destruct (Hfr y); [by exists b', l'|done].
    + destruct (Hfr y); [by exists b, l|done].
Qed.

(** The header of a block that is not yet in the tree. *)
Lemma header_put_ok h ts Vs Vb own rs Ab M G Db a x :
  ok h ts Vs Vb own rs Ab M G Db -> big_bytes own rs a -> big_header cfg x -> (forall q meta, M !! q = Some meta -> ~ q <= a < q - 16 + block_len cfg meta) ->
  ok (put_header h a x) ts Vs Vb own rs Ab M (G ∪ {[a]}) Db.
Proof.
  intros Hok Ha Hx Hn. pose proof (bo_big _ _ _ _ _ _ _ _ _ _ _ _ Hok) as HB. set (h' := put_header h a x).
  assert (Hl : forall b, sl_mem (hp_slab h') !! b = if decide (b = a) then Some x else sl_mem (hp_slab h) !! b).
  { intros b. cbn. case_decide as E; [by rewrite E, lookup_insert_eq|by rewrite lookup_insert_ne]. }
  eapply (big_ok_grown cfg cpus h h' ts Vs Vb own rs Ab M G Db own rs Ab); [exact Hok|done|done| |apply HB|done|done|apply HB|apply HB|done|by intros j|set_solver|by left|].
  - constructor; [| | |done].
    + intros b Hb _. rewrite Hl, decide_False; [done|]. by intros ->.
    + intros b Hb Hng. rewrite Hl in Hb. rewrite decide_False in Hb by set_solver. split; [done|set_solver].
    + intros b Hb. rewrite Hl. destruct (decide (b = a)) as [->|Hne]; [split; [done|]; eauto|]. assert (Hbg : b ∈ G) by set_solver.
      destruct (big_heads _ _ _ _ _ _ _ _ _ _ _ _ b Hok Hbg) as [Hb1 [y Hy]]. split; [done|]. exists y. split; [done|]. by right.
  - intros q meta y Hq Hy. split; [done|]. intros [| ->%elem_of_singleton]%elem_of_union; [done|]. by destruct (Hn q meta Hq).
Qed.

(** More is owned. *)
Lemma radix_grown_ok h ts Vs Vb own rs Ab M G Db t :
  ok h ts Vs Vb own rs Ab M G Db -> radix_wf (KernelSpec0 := seen own) t -> (forall x, smapped own (hp_kern h) x -> smapped own (kern t) x) ->
  (forall j, 0 <= j < 2 ^ 44 -> Radix.get (hp_radix h) j = true -> Radix.get t j = true) -> ok (set_radix h t) ts Vs Vb own rs Ab M G Db.
Proof.
  intros Hok Hwf Hm Ho. pose proof (bo_big _ _ _ _ _ _ _ _ _ _ _ _ Hok) as HB. assert (Et : hp_radix (set_radix h t) = t) by (by destruct t).
  assert (Hg : owned_grows h (set_radix h t)) by (intros j; rewrite Et; apply Ho).
  eapply (big_ok_grown cfg cpus h _ ts Vs Vb own rs Ab M G Db own rs Ab G); [exact Hok|done|done| | |done|done|apply HB|apply HB|exact Hm|done|done|by left|done].
  - apply memory_same; [done|done|]. intros a Ha. by apply (big_heads _ _ _ _ _ _ _ _ _ _ _ _ a Hok).
  - eapply (whole_kept h); [apply HB|done|exact Hm|by rewrite Et|]. intros y Hy _. by apply owned_bytes_grow.
Qed.

(** The kernel has done something else. *)
Lemma kernel_kept_ok h ts Vs Vb own rs Ab M G Db k :
  ok h ts Vs Vb own rs Ab M G Db -> (forall x, smapped own (hp_kern h) x -> smapped own k x) -> ok (set_kern h k) ts Vs Vb own rs Ab M G Db.
Proof.
  intros Hok Hm. replace (set_kern h k) with (set_radix h (mkRadixTree (hp_root h) (hp_words h) k)) by done. apply radix_grown_ok; [done| |exact Hm|done].
  apply (radix_wf_view (seen own) (seen own) (hp_radix h) k); [apply (wh_radix _ _ _ _ (bi_whole _ _ _ _ _ _ _ (bo_big _ _ _ _ _ _ _ _ _ _ _ _ Hok)))|exact Hm].
Qed.

(** The small blocks, when only the state of the big allocations changes. *)
Lemma small_kept h h' ts Vs Vb own rs Ab M G Db :
  ok h ts Vs Vb own rs Ab M G Db -> same_small h h' -> sl_mem (hp_slab h') = sl_mem (hp_slab h) -> hp_raw h' = hp_raw h ->
  (forall x, smapped own (hp_kern h) x -> smapped own (hp_kern h') x) -> radix_wf (KernelSpec0 := seen own) (hp_radix h') -> owned_grows h h' ->
  heap_ok (KernelSpec0 := seen own) (Fr := big_frame h' own rs G) cfg cpus h' ts Vs.
Proof.
  intros Hok Hs E1 E2 Hm Hwf Ho. pose proof Hok as [Hsm HB _]. eapply (small_moved cfg cpus h h' ts Vs own rs G own rs G); [exact Hsm|done|done|done| |done|done|by intros y Hy _; apply owned_bytes_grow|].
  - apply memory_same; [done|done|]. intros a Ha. by apply (big_heads _ _ _ _ _ _ _ _ _ _ _ _ a Hok).
  - intros y Hy. split; [|by left]. apply Hm. by eapply region_seen.
Qed.

(** The tree learns of a block. *)
Lemma tree_insert_ok h ts Vs Vb own rs Ab M G Db p meta :
  ok h ts Vs Vb own rs Ab M G Db -> entry cfg h own Ab (p - 16) meta -> p - 16 ∈ G -> M !! p = None ->
  match RBTree.insert (hp_big h) (hp_kern h) p meta with
  | Ret (t, k) => ok (set_kern (set_big h t) k) ts Vs Vb own rs Ab (<[p := meta]> M) G Db
  | Fatal e => e = OutOfMemory
  | Stuck => False
  end.
Proof.
  intros Hok He Hg Hn. pose proof Hok as [_ HB HL]. pose proof (insert_ok (KernelSpec0 := seen own) (hp_big h) (hp_kern h) M p meta (bi_tree _ _ _ _ _ _ _ HB)) as Hi.
  pose proof (fun t k x => insert_mapped (KernelSpec0 := seen own) (hp_big h) (hp_kern h) p meta t k x) as Hi2. destruct (RBTree.insert _ _ _ _) as [[t k]| |]; [|done..].
  assert (Hm : forall x, smapped own (hp_kern h) x -> smapped own k x) by (intros x; by apply Hi2 with t). clear Hi2. set (h' := set_kern (set_big h t) k). pose proof (bi_whole _ _ _ _ _ _ _ HB) as HW.
  assert (Hwf : radix_wf (KernelSpec0 := seen own) (hp_radix h')) by (apply (radix_wf_view (seen own) (seen own) (hp_radix h) k); [apply HW|exact Hm]). constructor.
  - eapply (small_kept h h' _ _ _ own rs Ab M G); [exact Hok|done|done|done|exact Hm|exact Hwf|by intros j].
  - constructor; [apply HB|apply HB| |exact Hi|].
    + by eapply (whole_kept h).
    + intros q m [[<- <-]|[Hne Hq]]%lookup_insert_Some; [by destruct He|]. destruct (bi_entry _ _ _ _ _ _ _ HB q m Hq) as [[] ?]. done.
  - apply (big_live_grown cfg h h' own rs Ab M G (<[p := meta]> M) G Vb Db HB HL); [by apply insert_subseteq|done|by intros j].
Qed.

(** ** The end of [big_malloc] *)

Lemma set_single_updated own (t : RadixTree K) addr v :
  radix_wf (KernelSpec0 := seen own) t -> 0 <= addr < 2 ^ 47 -> updated (KernelSpec0 := seen own) t (fun j => j =? addr / CHUNK_SIZE) v (set_single_big t addr v).
Proof using.
  intros Hwf Ha. unfold set_single_big, valid_user_addr. change MAX_ADDR with (2 ^ 56). destruct (Z.ltb_spec addr (2 ^ 56)); [|lia]. cbn [negb]. apply set_updated; [done|]. apply chunk_range. lia.
Qed.

Lemma set_single_mapped own (t : RadixTree K) addr v t' x : set_single_big t addr v = Ret t' -> smapped own (kern t) x -> smapped own (kern t') x.
Proof using. unfold set_single_big. case_match; [by intros [= <-]|]. apply set_mapped. Qed.

(** What becomes owned with a block of [len] bytes at [a]. *)
Lemma mark_owned h ts Vs Vb own rs Ab M G Db a len (registered aligned : bool) :
  ok h ts Vs Vb own rs Ab M G Db -> 0 < a -> 0 < len -> a + len <= 2 ^ 47 -> (registered = true -> forall y, a <= y < a + len -> Radix.get (hp_radix h) (y / CHUNK_SIZE) = true) ->
  match (if registered then Ret h
         else if negb registered && negb aligned then set_radix h <$> Radix.set_single_big (hp_radix h) a true
         else set_radix h <$> Radix.set_range (hp_radix h) a len true) with
  | Ret h' => ok h' ts Vs Vb own rs Ab M G Db /\ Radix.get (hp_radix h') (a / CHUNK_SIZE) = true /\
      (aligned = true -> forall y, a <= y < a + len -> Radix.get (hp_radix h') (y / CHUNK_SIZE) = true) /\ hp_big h' = hp_big h
  | Fatal e => e = VAIinitFailed
  | Stuck => False
  end.
Proof.
  intros Hok H0 Hl Hend Hreg. destruct registered; [split; [done|]; split; [apply Hreg; lia|]; split; [by intros _; apply Hreg|done]|]. cbn [negb andb].
  pose proof (wh_radix _ _ _ _ (bi_whole _ _ _ _ _ _ _ (bo_big _ _ _ _ _ _ _ _ _ _ _ _ Hok))) as Hwf.
  assert (Hdone : forall (sel : Z -> bool) (t : RadixTree K), radix_wf (KernelSpec0 := seen own) t -> (forall x, smapped own (hp_kern h) x -> smapped own (kern t) x) ->
    (forall j, 0 <= j < 2 ^ 44 -> Radix.get t j = if sel j then true else Radix.get (hp_radix h) j) -> sel (a / CHUNK_SIZE) = true -> (aligned = true -> forall y, a <= y < a + len -> sel (y / CHUNK_SIZE) = true) ->
    ok (set_radix h t) ts Vs Vb own rs Ab M G Db /\ Radix.get (hp_radix (set_radix h t)) (a / CHUNK_SIZE) = true /\
    (aligned = true -> forall y, a <= y < a + len -> Radix.get (hp_radix (set_radix h t)) (y / CHUNK_SIZE) = true) /\ hp_big (set_radix h t) = hp_big h).
  { intros sel t Hw Hm Hg Ha Hy. assert (Et : hp_radix (set_radix h t) = t) by (by destruct t). rewrite Et. split_and!; [|rewrite Hg, Ha by (apply chunk_range; lia); done| |done].
    - apply radix_grown_ok; try done. intros j Hj Hj'. rewrite Hg, Hj' by done. by case_match.
    - intros Hal y Hya. rewrite Hg, Hy by (done || apply chunk_range; lia). done. }
  destruct aligned; cbn [negb].
  - pose proof (set_range_updated (KernelSpec0 := seen own) (hp_radix h) a len true Hwf ltac:(lia) Hl ltac:(change MAX_ADDR with (2 ^ 56); lia)) as Hu.
    pose proof (fun t' x => set_range_mapped (KernelSpec0 := seen own) (hp_radix h) a len true t' x) as Hm. destruct (Radix.set_range _ _ _ _) as [t| |]; cbn [fmap outcome_fmap]; [|done..]. destruct Hu as (Hw & _ & Hg).
    eapply (Hdone _ t Hw); [intros x; by apply Hm|exact Hg| |]; intros; rewrite andb_true_iff, !Z.leb_le; change CHUNK_SIZE with 4096; split; apply Z.div_le_mono; lia.
  - pose proof (set_single_updated own (hp_radix h) a true Hwf ltac:(lia)) as Hu. pose proof (fun t' x => set_single_mapped own (hp_radix h) a true t' x) as Hm.
    destruct (Radix.set_single_big _ _ _) as [t| |]; cbn [fmap outcome_fmap]; [|done..]. destruct Hu as (Hw & _ & Hg). eapply (Hdone _ t Hw); [intros x; by apply Hm|exact Hg|apply Z.eqb_refl|done].
Qed.

(** The block at [a] gets its header, its owner and its entry in the tree. *)
Lemma register_ok h ts Vs Vb own rs Ab M G Db a total region flag size (registered aligned : bool) :
  let meta := mkBigAllocMeta null size (trailing_zeros (next_power_of_two total)) region aligned in
  ok h ts Vs Vb own rs Ab M G Db -> 0 < a -> (4096 | a) -> a + total <= 2 ^ 47 -> total = block_len cfg meta -> 0 <= size -> size + 16 <= total ->
  (forall y, a <= y < a + total -> big_bytes own rs y) -> (if region =? 0 then own !! a = Some total else (bm_order meta, a) ∈ Ab region) ->
  (registered = true -> forall y, a <= y < a + total -> Radix.get (hp_radix h) (y / CHUNK_SIZE) = true) ->
  (forall q m y, M !! q = Some m -> q - 16 <= y < q - 16 + block_len cfg m -> ~ a <= y < a + total) ->
  match big_register cfg h a total region flag size registered aligned with
  | Ret (p, h') => p = a + 16 /\ M !! (a + 16) = None /\ ok h' ts Vs Vb own rs Ab (<[a + 16 := meta]> M) (G ∪ {[a]}) Db
  | Fatal e => e = VAIinitFailed \/ e = OutOfMemory
  | Stuck => False
  end.
Proof.
  intros meta Hok H0 Hal Hend Hlen Hs Hfit Hbytes Hhome Hreg Hno. pose proof (bo_big _ _ _ _ _ _ _ _ _ _ _ _ Hok) as HB. unfold big_register.
  set (x := mkHeader null flag 100 (BIG_MAGIC cfg) 0). change (wadd a Header_SIZE) with (wadd a 16). change (walk_header a) with (wadd a 16). rewrite wadd_small by lia.
  assert (Hnone : M !! (a + 16) = None).
  { destruct (M !! (a + 16)) as [m|] eqn:E; [|done]. exfalso. destruct (bi_entry _ _ _ _ _ _ _ HB _ _ E) as [He _]. pose proof (en_size _ _ _ _ _ _ He). apply (Hno (a + 16) m a E); lia. }
  assert (Hok1 : ok (put_header h a x) ts Vs Vb own rs Ab M (G ∪ {[a]}) Db).
  { apply header_put_ok; [done|apply Hbytes; lia|by split|]. intros q m Hq Hy. destruct (bi_entry _ _ _ _ _ _ _ HB _ _ Hq) as [He _]. apply (Hno q m a Hq); lia. }
  pose proof (mark_owned _ ts Vs Vb own rs Ab M _ Db a total registered aligned Hok1 H0 ltac:(lia) Hend Hreg) as Hm.
  destruct (if registered then _ else _) as [h1| |]; cbn [mbind outcome_bind]; [|by left|done]. destruct Hm as (Hok2 & Hf & Hall & _). fold meta.
  assert (He : entry cfg h1 own Ab (a + 16 - 16) meta).
  { replace (a + 16 - 16) with a by lia. constructor; rewrite <- ?Hlen; [by split|exact Hhome|exact Hf|intros y Hy; by apply Hall]. }
  pose proof (tree_insert_ok h1 ts Vs Vb own rs Ab M _ Db (a + 16) meta Hok2 He ltac:(set_solver by lia) Hnone) as Hi.
  destruct (RBTree.insert _ _ _ _) as [[t k]| |]; cbn [mbind outcome_bind]; [|by right|done]. done.
Qed.

(** ** [big_malloc] *)

Abbreviation mapping_size size := (estimate_and_align_2mb cfg (size + 16)).

Lemma mapping_fits size : 0 <= size <= 2 ^ 63 + 2 ^ 62 -> size + 16 <= mapping_size size /\ (4096 | mapping_size size) /\ is_u 64 (mapping_size size).
Proof using.
  intros Hs. unfold estimate_and_align_2mb, TWO_MB. change (1024 * 1024 * 2) with (2 ^ 21). change 4096 with (2 ^ 12).
  case_match; [destruct (align_to_spec (size + 16) 21) as [H1 H2]; [lia..|]|destruct (align_to_spec (size + 16) 12) as [H1 H2]; [lia..|]].
  - split_and!; [lia| |unfold is_u; lia]. apply Z.divide_trans with (2 ^ 21); [by exists (2 ^ 9)|done].
  - split_and!; [lia|done|unfold is_u; lia].
Qed.

(** A request of any size: a new block in the tree, or null. *)
Definition big_served ts Vs Vb M Db size (aligned : bool) (r : outcome (Z * heap K)) : Prop :=
  match r with
  | Ret (p, h') => exists own' rs' Ab' G',
      if p =? null then ok h' ts Vs Vb own' rs' Ab' M G' Db
      else exists meta, M !! p = None /\ bm_size meta = size /\ bm_aligned meta = aligned /\ ok h' ts Vs Vb own' rs' Ab' (<[p := meta]> M) G' Db
  | Fatal e => e = VAIinitFailed \/ e = OutOfMemory
  | Stuck => False
  end.

Lemma register_served h1 ts Vs Vb M Db size aligned own rs Ab G a total region flag registered :
  0 < a ->
  match big_register cfg h1 a total region flag size registered aligned with
  | Ret (p, h') => p = a + 16 /\ M !! (a + 16) = None /\
      ok h' ts Vs Vb own rs Ab (<[a + 16 := mkBigAllocMeta null size (trailing_zeros (next_power_of_two total)) region aligned]> M) (G ∪ {[a]}) Db
  | Fatal e => e = VAIinitFailed \/ e = OutOfMemory
  | Stuck => False
  end -> big_served ts Vs Vb M Db size aligned (big_register cfg h1 a total region flag size registered aligned).
Proof using.
  intros H0. destruct (big_register _ _ _ _ _ _ _ _ _) as [[p h']| |]; cbn [big_served]; [|done..]. intros (-> & Hn & Hok). exists own, rs, Ab, (G ∪ {[a]}).
  destruct (Z.eqb_spec (a + 16) null) as [E|_]; [change null with 0 in E; lia|]. eexists. split; [exact Hn|]. split; [|split; [|exact Hok]]; done.
Qed.

(** A block of the buddy allocator that is not yet in the tree. *)
Lemma buddy_registered h ts Vs Vb own rs Ab M G Db h1 rs' a o r flag size aligned :
  big_inv cfg h own rs Ab M G -> ok h1 ts Vs Vb own rs' (<[r := {[(o, a)]} ∪ Ab r]> Ab) M G Db -> r <> 0 -> (o, a) ∉ Ab r -> 0 <= size -> size + 16 <= 2 ^ o ->
  big_served ts Vs Vb M Db size aligned (big_register cfg h1 a (wshl 1 o) r flag size true aligned).
Proof.
  intros HB Hok Hr Hn Hs Hfit. set (Ab' := <[r := _]> Ab) in *. pose proof (bo_big _ _ _ _ _ _ _ _ _ _ _ _ Hok) as HB1. pose proof (bi_whole _ _ _ _ _ _ _ HB1) as HW.
  assert (Hin : (o, a) ∈ Ab' r) by (unfold Ab'; rewrite fn_lookup_insert; set_solver). destruct (whole_block _ _ _ _ _ _ _ HW Hin) as (b & t & Hrs & (H1 & H2 & H3 & _) & (Ho & Hlo & Hhi & Hd)).
  assert (Hw : wshl 1 o = 2 ^ o) by (unfold wshl; rewrite Z.shiftl_1_l; apply wrap_small; split; [lia|apply Z.pow_lt_mono_r; lia]). rewrite Hw.
  assert (Hz : trailing_zeros (next_power_of_two (2 ^ o)) = o).
  { unfold next_power_of_two. destruct (pow2_ceil_spec (2 ^ o)) as (i & Hi & He & Hle & Hlt); [lia|]. rewrite He. assert (i = o) as ->.
    { apply Z.le_antisymm; [|by apply (Z.pow_le_mono_r_iff 2)]. specialize (Hlt ltac:(lia)). apply (Z.pow_lt_mono_r_iff 2) in Hlt; lia. }
    rewrite wrap_small by (split; [lia|apply Z.pow_lt_mono_r; lia]). by apply trailing_zeros_pow2. }
  assert (Hreg : forall y, a <= y < a + 2 ^ o -> region_bytes rs' y) by (intros y Hy; exists r, b, t; split; [done|lia]).
  apply (register_served h1 ts Vs Vb M Db size aligned own rs' Ab' G); [lia|]. destruct (ro_space _ _ _ _ _ _ (wh_region _ _ _ _ HW _ _ _ Hrs)) as [_ Hb4]. apply register_ok; try done; try lia.
  - replace a with (b + (a - b)) by lia. apply Z.divide_add_r; [done|]. apply Z.divide_trans with (2 ^ o); [|done]. exists (2 ^ (o - 12)). change 4096 with (2 ^ 12). rewrite <- Z.pow_add_r by lia. f_equal. lia.
  - unfold block_len. cbn [bm_buddy_region bm_order]. destruct (Z.eqb_spec r 0); [done|]. by rewrite Hz.
  - intros y Hy. right. by apply Hreg.
  - destruct (Z.eqb_spec r 0); [done|]. cbn [bm_order]. by rewrite Hz.
  - intros _ y Hy. destruct (whole_bytes _ _ _ _ _ _ _ y HW Hin Hy) as (Hy47 & _ & Hoy). rewrite (is_owned_get (KernelSpec0 := seen own) _ _ (wh_radix _ _ _ _ HW)) in Hoy by (change MAX_ADDR with (2 ^ 56); lia). by injection Hoy.
  - intros q m y Hq Hy Hya. destruct (bi_entry _ _ _ _ _ _ _ HB1 q m Hq) as [He _]. destruct (bi_entry _ _ _ _ _ _ _ HB q m Hq) as [He0 _].
    pose proof (entry_place cfg h1 own rs' Ab' M G HB1 _ _ He) as (_ & _ & _ & Hp). specialize (Hp y Hy). pose proof (en_home _ _ _ _ _ _ He) as Hh. pose proof (en_home _ _ _ _ _ _ He0) as Hh0. unfold block_len in *.
    destruct (bm_buddy_region m =? 0); [by destruct (own_unseen own y (hp_kern h1) Hp); eapply region_seen, Hreg|].
    destruct (whole_disjoint _ _ _ _ _ _ _ _ _ _ y HW Hh Hin Hy Hya) as (E1 & E2 & E3). rewrite E1, E2, E3 in Hh0. done.
Qed.

Lemma own_registered h ts Vs Vb own rs Ab M G Db len base k1 k2 flag size aligned :
  ok h ts Vs Vb own rs Ab M G Db -> len = mapping_size size -> 0 <= size -> size + 16 <= len -> (4096 | len) ->
  mmap_anonymous len (hp_kern h) = (Some base, k1) -> (forall x, mapped k2 x <-> mapped k1 x) ->
  big_served ts Vs Vb M Db size aligned (big_register cfg (set_kern h k2) base len 0 flag size false aligned).
Proof.
  intros Hok -> Hs Hfit Hd Hm Hk. destruct (own_alloc_ok _ _ _ _ _ _ _ _ _ _ (mapping_size size) base k1 k2 Hok ltac:(lia) Hd Hm Hk) as (Hnone & H0 & Hal & Hend & Hok1).
  pose proof (bo_big _ _ _ _ _ _ _ _ _ _ _ _ Hok) as HB. pose proof (bo_big _ _ _ _ _ _ _ _ _ _ _ _ Hok1) as HB1.
  apply (register_served _ ts Vs Vb M Db size aligned (<[base := mapping_size size]> own) rs Ab G); [done|]. apply register_ok; try done.
  - intros y Hy. left. exists base, (mapping_size size). split; [apply lookup_insert_eq|done].
  - cbn. apply lookup_insert_eq.
  - intros q m y Hq Hy Hya. destruct (bi_entry _ _ _ _ _ _ _ HB1 q m Hq) as [He _]. destruct (bi_entry _ _ _ _ _ _ _ HB q m Hq) as [He0 _].
    pose proof (entry_place cfg _ _ rs Ab M G HB1 _ _ He) as (_ & _ & _ & Hp). specialize (Hp y Hy). pose proof (en_home _ _ _ _ _ _ He) as Hh. pose proof (en_home _ _ _ _ _ _ He0) as Hh0.
    destruct (bm_buddy_region m =? 0).
    + assert (q - 16 = base) as E; [|rewrite E in Hh0; congruence]. eapply (bi_apart _ _ _ _ _ _ _ HB1); [exact Hh|apply lookup_insert_eq|done|done].
    + destruct (own_unseen (<[base := mapping_size size]> own) y (hp_kern (set_kern h k2))); [exists base, (mapping_size size); split; [apply lookup_insert_eq|done]|by eapply region_seen].
Qed.

Lemma big_malloc_served h ts Vs Vb own rs Ab M G Db cpu size aligned :
  ok h ts Vs Vb own rs Ab M G Db -> 0 <= cpu < cpus -> 0 <= size <= 2 ^ 63 + 2 ^ 62 -> big_served ts Vs Vb M Db size aligned (big_malloc cfg h cpu size aligned).
Proof.
  intros Hok Hcpu Hs. pose proof Hok as [(C & B & D & A & HI & _) HB _]. destruct (node_ok _ _ h B A A cpu (hi_blocks _ _ _ _ _ _ _ _ _ HI) Hcpu) as [(node & Hnode & _) _].
  unfold big_malloc, checked_add. change Header_SIZE with 16. destruct (Z.ltb_spec (size + 16) (2 ^ 64)); [|lia]. cbv zeta. rewrite Hnode. cbn [mbind outcome_bind]. destruct (mapping_fits size Hs) as (Hf1 & Hf2 & Hf3).
  assert (Hown : forall h1 rs1 Ab1, ok h1 ts Vs Vb own rs1 Ab1 M G Db -> sl_inner (hp_slab h1) = sl_inner (hp_slab h) ->
    big_served ts Vs Vb M Db size aligned
      (match mmap_anonymous (mapping_size size) (hp_kern h1) with
       | (None, k) => Ret (null, set_kern h1 k)
       | (Some pointer, k) =>
           big_register cfg (set_kern h1 (if (mapping_size size mod TWO_MB =? 0) && negb (RS_DISABLE_THP cfg)
             then (madvise pointer (mapping_size size) LinuxHugepage (if si_is_numa (sl_inner (hp_slab h)) then (prefer_node pointer (mapping_size size) node k).2 else k)).2
             else if si_is_numa (sl_inner (hp_slab h)) then (prefer_node pointer (mapping_size size) node k).2 else k)) pointer (mapping_size size) 0 ZERO_FLAG size false aligned
       end)).
  { intros h1 rs1 Ab1 Hok1 _. destruct (mmap_anonymous (mapping_size size) (hp_kern h1)) as [[base|] k1] eqn:Hk.
    - eapply (own_registered h1 ts Vs Vb own rs1 Ab1 M G Db _ base k1); try done; [lia|]. intros x. case_match; [rewrite madvise_mapped|]; (case_match; [apply prefer_node_mapped|done]).
    - cbn [big_served]. exists own, rs1, Ab1, G. cbn [Z.eqb]. apply kernel_kept_ok; [done|]. intros x. by apply (mmap_kept (KernelSpec0 := seen own) _ _ _ _ _ Hk). }
  unfold big_from_buddy. destruct (_ && negb (hp_disable_buddy h)); [|cbn [mbind outcome_bind]; by apply (Hown h rs Ab)].
  pose proof (buddy_alloc_ok h ts Vs Vb own rs Ab M G Db (buddy_env cfg h) (mapping_size size) node (nranges (si_numa (sl_inner (hp_slab h)))) (si_is_numa (sl_inner (hp_slab h))) Hok Hf3) as Ha.
  destruct (Buddy.alloc _ _ _ _ _ _ _) as [[[res b] t]| |]; cbn [mbind outcome_bind]; [|by left|done]. destruct Ha as [rs' Ha]. cbv zeta in Ha.
  destruct res as [[[[a o] f] r]|]; [|by apply (Hown _ rs' Ab)]. destruct Ha as (Hr & Hn & Hfit & Hok1). eapply (buddy_registered h); [exact HB|exact Hok1|done|done|lia|lia].
Qed.

(** ** Pointers *)

(** Where a live pointer to a big allocation points. *)
Lemma live_entry h ts Vs Vb own rs Ab M G Db p size align :
  ok h ts Vs Vb own rs Ab M G Db -> Vb !! p = Some (size, align) ->
  exists q meta, Db !! p = Some q /\ M !! q = Some meta /\ entry cfg h own Ab (q - 16) meta /\ q <= p < q + bm_size meta /\ 0 <= size /\ p + size <= q + bm_size meta /\
    aligned_at p q align /\ Radix.get (hp_radix h) (p / CHUNK_SIZE) = true /\ tagged cfg h G p q.
Proof using.
  intros [_ HB [L1 L2 L3]] Hp. assert (Hd : is_Some (Db !! p)) by (apply elem_of_dom; rewrite L1; by apply elem_of_dom_2 in Hp). destruct Hd as [q Hq].
  destruct (L3 p q size align Hq Hp) as (meta & Hm & Hs & Hal & Ho & Ht & Hlt & Hfit). destruct (bi_entry _ _ _ _ _ _ _ HB q meta Hm) as [He _]. exists q, meta. split_and!; try (done || lia). destruct Ht as [->|(? & _)]; lia.
Qed.

(** Big pointers are not small ones. *)
Lemma small_apart_big h ts Vs Vb own rs Ab M G Db p q meta y size align :
  ok h ts Vs Vb own rs Ab M G Db -> M !! q = Some meta -> q - 16 <= y < q - 16 + block_len cfg meta -> Vs !! p = Some (size, align) -> p - 16 <= y < Z.max p (p + size) -> False.
Proof using.
  intros [(C & B & D & A & HI & HL) HB _] Hq Hy Hp Hyp. destruct (live_block (KernelSpec0 := seen own) _ _ _ _ _ _ _ _ _ _ _ _ HI HL Hp) as (a & c & _ & _ & HBa & _ & Hs & _ & Hin & Hfit).
  apply (block_not_framed (KernelSpec0 := seen own) cfg cpus h ts C B A A ∅ a c y HI HBa); [lia|]. destruct (bi_entry _ _ _ _ _ _ _ HB q meta Hq) as [He _].
  destruct (entry_place cfg h own rs Ab M G HB _ _ He) as (_ & _ & _ & Hpl). specialize (Hpl y Hy). cbn. unfold big_bytes. destruct (_ =? 0); auto.
Qed.

(** A pointer to a block nobody points to. *)
Lemma live_added h ts Vs Vb own rs Ab M G Db p q meta size align :
  ok h ts Vs Vb own rs Ab M G Db -> M !! q = Some meta -> (forall p', Db !! p' <> Some q) -> 0 <= size -> aligned_at p q align -> Radix.get (hp_radix h) (p / CHUNK_SIZE) = true ->
  tagged cfg h G p q -> p < q + bm_size meta -> p + size <= q + bm_size meta -> Vs !! p = None /\ Vb !! p = None /\ ok h ts Vs (<[p := (size, align)]> Vb) own rs Ab M G (<[p := q]> Db).
Proof using.
  intros Hok Hq Hnew Hs Hal Ho Ht Hlt Hfit. pose proof Hok as [Hsm HB HL]. destruct (bi_entry _ _ _ _ _ _ _ HB q meta Hq) as [He _]. pose proof (en_size _ _ _ _ _ _ He) as Hsz.
  assert (Hqp : q <= p) by (destruct Ht as [->|(? & _)]; lia).
  assert (Hv : Vb !! p = None).
  { destruct (Vb !! p) as [[sz al]|] eqn:E; [|done]. exfalso. destruct (live_entry _ _ _ _ _ _ _ _ _ _ _ _ _ Hok E) as (q' & m' & Hd & Hq' & He' & Hle & Hs' & Hfit' & _).
    pose proof (en_size _ _ _ _ _ _ He') as Hsz'. assert (q - 16 = q' - 16) by (eapply (entries_apart cfg h own rs Ab M G HB _ _ _ _ (p - 16) He He'); lia). apply (Hnew p). rewrite Hd. f_equal. lia. }
  split; [|split; [done|]].
  - destruct (Vs !! p) as [[sz al]|] eqn:E; [|done]. exfalso. eapply (small_apart_big h ts Vs Vb own rs Ab M G Db p q meta (p - 16)); try done; lia.
  - constructor; [done|done|]. destruct HL as [L1 L2 L3]. assert (Hdn : Db !! p = None) by (apply not_elem_of_dom; rewrite L1; by apply not_elem_of_dom). constructor.
    + rewrite !dom_insert_L. by rewrite L1.
    + intros p1 p2 q1 [[<- <-]|[Hne1 H1]]%lookup_insert_Some [[<- E2]|[Hne2 H2]]%lookup_insert_Some; [done|by destruct (Hnew p2)|simplify_eq; by destruct (Hnew p1)|by eapply L2].
    + intros p1 q1 sz al [[<- <-]|[Hne1 H1]]%lookup_insert_Some [[E2 [= <- <-]]|[Hne2 H2]]%lookup_insert_Some; [|done|done|by eapply L3]. exists meta. by split_and!.
Qed.

Lemma live_dropped h ts Vs Vb own rs Ab M G Db p q :
  ok h ts Vs Vb own rs Ab M G Db -> Db !! p = Some q -> ok h ts Vs (delete p Vb) own rs Ab M G (delete p Db) /\ forall p', delete p Db !! p' <> Some q.
Proof using.
  intros [Hsm HB [L1 L2 L3]] Hd. split; [constructor; [done|done|constructor]|].
  - rewrite !dom_delete_L. by rewrite L1.
  - intros p1 p2 q1 [_ H1]%lookup_delete_Some [_ H2]%lookup_delete_Some. by eapply L2.
  - intros p1 q1 sz al [_ H1]%lookup_delete_Some [_ H2]%lookup_delete_Some. by eapply L3.
  - intros p' [Hne Hd']%lookup_delete_Some. by apply Hne, (L2 _ _ q).
Qed.

(** A word is written to the payload of a block nobody points to. *)
Lemma write_word_ok h ts Vs Vb own rs Ab M G Db q meta y v :
  ok h ts Vs Vb own rs Ab M G Db -> M !! q = Some meta -> (forall p', Db !! p' <> Some q) -> q <= y -> y + 8 <= q + bm_size meta ->
  ok (write_word h y v) ts Vs Vb own rs Ab M (G ∖ {[y; y - 8]}) Db.
Proof using.
  intros Hok Hq Hnew Hy Hyv. pose proof Hok as [Hsm HB HL]. destruct (bi_entry _ _ _ _ _ _ _ HB q meta Hq) as [He _]. pose proof (en_size _ _ _ _ _ _ He) as Hsz.
  destruct (entry_place cfg h own rs Ab M G HB _ _ He) as (_ & _ & _ & Hpl). set (h' := write_word h y v). set (G' := G ∖ {[y; y - 8]}).
  assert (Hin : forall z, z = y \/ z = y - 8 -> big_bytes own rs z) by (intros z Hz; specialize (Hpl z ltac:(lia)); unfold big_bytes; destruct (_ =? 0); auto).
  assert (Hl : forall b, sl_mem (hp_slab h') !! b = if decide (b = y \/ b = y - 8) then None else sl_mem (hp_slab h) !! b).
  { intros b. cbn. case_decide as E; [|rewrite !lookup_delete_ne by naive_solver; done]. destruct (decide (b = y)) as [->|]; [by rewrite lookup_delete_eq|]. rewrite lookup_delete_ne by done. destruct E as [| ->]; [done|]. by rewrite lookup_delete_eq. }
  assert (Hr : forall b, b <> y -> hp_raw h' !! b = hp_raw h !! b) by (intros b Hb; cbn; by rewrite lookup_insert_ne).
  assert (Hap : forall q' m' z, M !! q' = Some m' -> q' <> q -> q' - 16 <= z < q' - 16 + block_len cfg m' -> ~ (z = y \/ z = y - 8)).
  { intros q' m' z Hq' Hne Hz Hz'. destruct (bi_entry _ _ _ _ _ _ _ HB q' m' Hq') as [He' _]. assert (q' - 16 = q - 16) by (eapply (entries_apart cfg h own rs Ab M G HB _ _ _ _ z He' He); lia). lia. }
  constructor.
  - eapply (small_moved cfg cpus h h' ts Vs own rs G own rs G'); [exact Hsm|done|done|done| |done|apply (wh_radix _ _ _ _ (bi_whole _ _ _ _ _ _ _ HB))|done|intros z Hz; split; [exact (region_seen cfg h own rs Ab M G HB z Hz)|by left]]. constructor.
    + intros a Ha _. rewrite Hl, decide_False; [done|]. intros Hz. by apply Ha, Hin.
    + intros a Ha Hng. rewrite Hl in Ha. case_decide as E; [by destruct Ha|]. split; [done|]. set_solver.
    + intros a Ha. assert (Hag : a ∈ G) by set_solver. destruct (big_heads _ _ _ _ _ _ _ _ _ _ _ _ a Hok Hag) as [Hb [x Hx]]. split; [done|]. exists x. rewrite Hl, decide_False by set_solver. split; [done|]. by right.
    + intros z Hz _. apply Hr. intros ->. apply Hz, Hin. by left.
  - constructor; [apply HB|apply HB|apply HB|apply HB|]. intros q' m' Hq'. destruct (bi_entry _ _ _ _ _ _ _ HB q' m' Hq') as [He' Hg']. split; [by destruct He'|]. pose proof (en_size _ _ _ _ _ _ He'). apply elem_of_difference. split; [done|].
    destruct (decide (q' = q)) as [->|Hne]; [set_solver by lia|]. pose proof (Hap q' m' (q' - 16) Hq' Hne ltac:(lia)). set_solver.
  - apply (big_live_grown cfg h h' own rs Ab M G M G' Vb Db HB HL); [done| |by intros j]. intros p' q' m' z Hd' Hq' Hz. assert (Hne : q' <> q) by (intros ->; by apply (Hnew p')).
    split; [|set_solver]. apply Hr. intros ->. apply (Hap q' m' y Hq' Hne); [lia|by left].
Qed.

(** ** Release *)

(** The tree forgets a block nobody points to. *)
Lemma tree_removed h ts Vs Vb own rs Ab M G Db q meta :
  ok h ts Vs Vb own rs Ab M G Db -> M !! q = Some meta -> (forall p', Db !! p' <> Some q) ->
  exists t, RBTree.remove (hp_big h) q = Ret (Some meta, t) /\ ok (set_big h t) ts Vs Vb own rs Ab (delete q M) G Db.
Proof using.
  intros Hok Hq Hnew. pose proof Hok as [Hsm HB [L1 L2 L3]]. destruct (remove_ok (KernelSpec0 := seen own) _ _ _ q (bi_tree _ _ _ _ _ _ _ HB)) as (t & Hr & HT). rewrite Hq in Hr. exists t. split; [done|]. constructor.
  - eapply (small_kept h (set_big h t) _ _ _ own rs Ab M G); [exact Hok|done|done|done|done|apply (wh_radix _ _ _ _ (bi_whole _ _ _ _ _ _ _ HB))|by intros j].
  - constructor; [apply HB|apply HB|apply HB|exact HT|]. intros q' m' [_ Hq']%lookup_delete_Some. destruct (bi_entry _ _ _ _ _ _ _ HB q' m' Hq') as [He Hg]. split; [by destruct He|done].
  - constructor; [done|done|]. intros p q' sz al Hd Hv. destruct (L3 p q' sz al Hd Hv) as (m' & Hm' & Hrest). exists m'. split; [|done]. rewrite lookup_delete_ne; [done|]. intros <-. by apply (Hnew p).
Qed.

(** A block goes back to the buddy allocator. *)
Lemma buddy_released h ts Vs Vb own rs Ab M G Db r o a :
  ok h ts Vs Vb own rs Ab M G Db -> (o, a) ∈ Ab r -> (forall q m, M !! q = Some m -> q - 16 <> a) ->
  exists b, Buddy.free (hp_buddy h) (hp_stamp h) r a o = Ret b /\ ok (set_buddy h b) ts Vs Vb own rs (<[r := Ab r ∖ {[(o, a)]}]> Ab) M G Db.
Proof using.
  intros Hok Ha Hno. pose proof Hok as [Hsm HB HL]. destruct (free_whole (KernelSpec0 := seen own) _ _ rs Ab (hp_stamp h) r o a (bi_whole _ _ _ _ _ _ _ HB) Ha) as (b & Hr & HW). exists b. split; [done|]. constructor.
  - eapply (small_kept h (set_buddy h b) _ _ _ own rs Ab M G); [exact Hok|done|done|done|done|apply (wh_radix _ _ _ _ (bi_whole _ _ _ _ _ _ _ HB))|by intros j].
  - constructor; [apply HB|apply HB|exact HW|apply HB|]. intros q m Hq. destruct (bi_entry _ _ _ _ _ _ _ HB q m Hq) as [[E1 E2 E3 E4] Hg]. split; [|done]. constructor; try done.
    destruct (_ =? 0); [done|]. destruct (decide (bm_buddy_region m = r)) as [<-|Hne]; [|by rewrite fn_lookup_insert_ne]. rewrite fn_lookup_insert. apply elem_of_difference. split; [done|].
    intros [= _ E]%elem_of_singleton. by apply (Hno q m Hq).
  - by destruct HL.
Qed.

Lemma own_chunk base len y z : (4096 | base) -> (4096 | len) -> base <= y < base + len -> z / CHUNK_SIZE = y / CHUNK_SIZE -> base <= z < base + len.
Proof using.
  intros [i ->] [j ->] Hy Hz. change CHUNK_SIZE with 4096 in Hz. pose proof (Z.div_mod y 4096 ltac:(lia)). pose proof (Z.mod_pos_bound y 4096 ltac:(lia)). pose proof (Z.div_mod z 4096 ltac:(lia)).
  pose proof (Z.mod_pos_bound z 4096 ltac:(lia)). assert (i <= y / 4096 < i + j) by (split; [apply Z.div_le_lower_bound; lia|apply Z.div_lt_upper_bound; lia]). nia.
Qed.

Lemma filter_outside {T} (m : gmap Z T) base len y : ~ base <= y < base + len -> filter (fun x : Z * T => ~ base <= x.1 < base + len) m !! y = m !! y.
Proof using. intros Hy. rewrite map_lookup_filter. destruct (m !! y) as [v|]; [|done]. cbn. by rewrite option_guard_True. Qed.

Lemma own_bytes_delete h own rs Ab M G base len y :
  big_inv cfg h own rs Ab M G -> own !! base = Some len -> own_bytes (delete base own) y <-> own_bytes own y /\ ~ base <= y < base + len.
Proof using.
  intros HB Hb. split.
  - intros (b & l & [Hne Hl]%lookup_delete_Some & Hy). split; [by exists b, l|]. intros Hy'. by apply Hne, (bi_apart _ _ _ _ _ _ _ HB _ _ _ _ y Hb Hl).
  - intros [(b & l & Hl & Hy) Hn]. exists b, l. split; [|done]. apply lookup_delete_Some. split; [|done]. intros <-. assert (l = len) as -> by congruence. done.
Qed.

(** The memory of a mapping is gone with it. *)
Lemma forget_moved h h1 ts Vs Vb own rs Ab M G Db base len :
  ok h ts Vs Vb own rs Ab M G Db -> own !! base = Some len -> sl_mem (hp_slab h1) = sl_mem (hp_slab h) -> hp_raw h1 = hp_raw h ->
  (forall y, own_bytes (delete base own) y <-> own_bytes own y /\ ~ base <= y < base + len) ->
  memory_moved cfg h (forget h1 base len) own rs G (delete base own) rs (filter (fun a => ~ base <= a < base + len) G).
Proof using.
  intros Hok Hb E1 E2 Hob.
  assert (Hout : forall y, ~ big_bytes own rs y -> ~ base <= y < base + len) by (intros y Hy Hr; apply Hy; left; by exists base, len).
  constructor; cbn [forget hp_slab hp_raw set_raw set_headers set_slab sl_mem]; rewrite ?E1, ?E2.
  - intros a Ha _. by apply filter_outside, Hout.
  - intros a [x [Hx Hn]%map_lookup_filter_Some] Hng. split; [eauto|]. intros Hg. apply Hng, elem_of_filter. by split.
  - intros a [Hn Hg]%elem_of_filter. destruct (big_heads _ _ _ _ _ _ _ _ _ _ _ _ a Hok Hg) as [Hbb [x Hx]]. split; [destruct Hbb as [Ho|]; [left; by apply Hob|by right]|]. exists x. rewrite filter_outside by done. split; [done|]. by right.
  - intros y Hy _. by apply filter_outside, Hout.
Qed.

(** A mapping of its own is given up: [t] is the ownership map without it. *)
Lemma own_released h ts Vs Vb own rs Ab M G Db base len t (sel : Z -> bool) :
  ok h ts Vs Vb own rs Ab M G Db -> own !! base = Some len -> (forall q m, M !! q = Some m -> q - 16 <> base) ->
  radix_wf (KernelSpec0 := seen own) t -> (forall x, smapped own (hp_kern h) x -> smapped own (kern t) x) ->
  (forall j, 0 <= j < 2 ^ 44 -> Radix.get t j = if sel j then false else Radix.get (hp_radix h) j) -> (forall j, sel j = true -> exists y, j = y / CHUNK_SIZE /\ base <= y < base + len) ->
  let h' := forget (set_kern (set_radix h t) (munmap base len (hp_kern (set_radix h t)))) base len in
  ok h' ts Vs Vb (delete base own) rs Ab M (filter (fun a => ~ base <= a < base + len) G) Db.
Proof using.
  intros Hok Hb Hno Hwf Hm Hg Hsel h'. pose proof Hok as [Hsm HB HL]. destruct (bi_own _ _ _ _ _ _ _ HB base len Hb) as (B1 & B2 & B3 & B4 & B5). set (own' := delete base own). set (G' := filter _ G).
  pose proof (fun y => own_bytes_delete h own rs Ab M G base len y HB Hb) as Hob. fold own' in Hob.
  assert (Hrange : forall y, base <= y < base + len -> own_bytes own y) by (intros y Hy; by exists base, len).
  destruct (radix_process (KernelSpec0 := seen own) t Hwf) as (_ & _ & HO). specialize (HO eq_refl).
  assert (Hm2 : forall x, smapped own (kern t) x -> smapped own' (munmap base len (kern t)) x).
  { intros x (H1 & H2 & _). assert (Hr : forall y, mapped (kern t) y -> ~ base <= y < base + len -> mapped (munmap base len (kern t)) y).
    { intros y Hy Hny. apply munmap_other; rewrite ?round_up_id by (lia || done); [done| |done]. intros z Hz. by apply HO, Hrange. }
    split; [apply Hr; [done|]; intros Hx'; by apply H2, Hrange|]. split; [by rewrite Hob; intros [? _]|]. intros _ y [Hy Hny]%Hob. apply Hr; [by apply HO|done]. }
  assert (Hkeep : forall y, 0 <= y <= 2 ^ 47 -> ~ base <= y < base + len -> Radix.get (hp_radix h) (y / CHUNK_SIZE) = true -> Radix.get (hp_radix h') (y / CHUNK_SIZE) = true).
  { intros y Hy Hny Hget. change (Radix.get (mkRadixTree (l0 t) (mem t) (munmap base len (kern t))) (y / CHUNK_SIZE) = true). assert (Hgt : Radix.get t (y / CHUNK_SIZE) = true); [|by destruct t].
    rewrite Hg by (by apply chunk_range). destruct (sel (y / CHUNK_SIZE)) eqn:E; [|done]. exfalso. destruct (Hsel _ E) as (z & Hz & Hzr). apply Hny. by eapply (own_chunk base len z y). }
  assert (Hwf' : radix_wf (KernelSpec0 := seen own') (hp_radix h')) by (apply (radix_wf_view (seen own) (seen own') t); [done|exact Hm2]).
  assert (Hm' : forall x, smapped own (hp_kern h) x -> smapped own' (hp_kern h') x) by (intros x Hx; by apply Hm2, Hm).
  assert (Hap : forall q m y, M !! q = Some m -> q - 16 <= y < q - 16 + block_len cfg m -> ~ base <= y < base + len).
  { intros q m y Hq Hy Hyb. destruct (bi_entry _ _ _ _ _ _ _ HB q m Hq) as [He _]. destruct (entry_place cfg h own rs Ab M G HB _ _ He) as (_ & _ & _ & Hp). specialize (Hp y Hy). pose proof (en_home _ _ _ _ _ _ He) as Hh.
    destruct (bm_buddy_region m =? 0); [by apply (Hno q m Hq), (bi_apart _ _ _ _ _ _ _ HB _ _ _ _ y Hh Hb)|]. apply (own_unseen own y (hp_kern h)); [by apply Hrange|by eapply region_seen]. }
  assert (Hown : forall y, 0 <= y < 2 ^ 47 -> smapped own (hp_kern h) y -> Radix.get (hp_radix h) (y / CHUNK_SIZE) = true -> Radix.get (hp_radix h') (y / CHUNK_SIZE) = true).
  { intros y Hy Hmy. apply Hkeep; [lia|]. intros Hyb. by apply (own_unseen own y (hp_kern h)); [apply Hrange|]. }
  constructor.
  - eapply (small_moved cfg cpus h h' ts Vs own rs G own' rs G'); [exact Hsm|done|done|done| |exact Hm'|exact Hwf'|exact Hown|intros z Hz; split; [by eapply Hm', region_seen|by left]]. by eapply (forget_moved h).
  - constructor.
    + intros b l [_ Hl]%lookup_delete_Some. by eapply (bi_own _ _ _ _ _ _ _ HB).
    + intros b l b' l' y [_ Hl]%lookup_delete_Some [_ Hl']%lookup_delete_Some. by eapply (bi_apart _ _ _ _ _ _ _ HB).
    + eapply (whole_kept h); [apply HB|done|exact Hm'|exact Hwf'|exact Hown].
    + exact (tree_ok_view (seen own) (seen own') _ _ _ _ (bi_tree _ _ _ _ _ _ _ HB) Hm').
    + intros q m Hq. destruct (bi_entry _ _ _ _ _ _ _ HB q m Hq) as [He Hg']. pose proof (entry_place cfg h own rs Ab M G HB _ _ He) as (P1 & _ & P3 & _). pose proof (en_size _ _ _ _ _ _ He). split; [|apply elem_of_filter; split; [apply (Hap q m); [done|lia]|done]].
      destruct He as [E1 E2 E3 E4]. constructor; [done| | |].
      * destruct (_ =? 0); [|done]. apply lookup_delete_Some. split; [|done]. intros E. by apply (Hno q m Hq).
      * apply Hkeep; [lia|apply (Hap q m); [done|lia]|done].
      * intros y Hal Hy. apply Hkeep; [lia|by apply (Hap q m)|by apply E4].
  - destruct HL as [L1 L2 L3]. constructor; [done|done|]. intros p q sz al Hd Hv. destruct (L3 p q sz al Hd Hv) as (m & Hq & Hs & Hal & Ho & Ht & Hlt & Hfit). exists m.
    destruct (bi_entry _ _ _ _ _ _ _ HB q m Hq) as [He _]. pose proof (entry_place cfg h own rs Ab M G HB _ _ He) as (P1 & _ & P3 & _). pose proof (en_size _ _ _ _ _ _ He). assert (q <= p) by (destruct Ht as [->|(? & _)]; lia).
    split_and!; try done; [apply Hkeep; [lia|apply (Hap q m); [done|lia]|done]|]. destruct Ht as [->|(T1 & T2 & T3 & T4 & T5)]; [by left|right]. cbn [hp_raw h' forget set_raw]. rewrite !filter_outside by (apply (Hap q m); [done|lia]).
    split_and!; [done|done|done|set_solver|set_solver].
Qed.

Lemma range_chunk base len j : 0 < len -> (base / CHUNK_SIZE <=? j) && (j <=? (base + len - 1) / CHUNK_SIZE) = true -> exists y, j = y / CHUNK_SIZE /\ base <= y < base + len.
Proof using.
  intros Hl [H1%Z.leb_le H2%Z.leb_le]%andb_true_iff. change CHUNK_SIZE with 4096 in *. exists (Z.max base (j * 4096)). split; [|split; [lia|]].
  - destruct (Z.max_spec base (j * 4096)) as [[_ ->]|[Hle ->]]; [by rewrite Z.div_mul|]. pose proof (Z.div_le_lower_bound base 4096 j ltac:(lia) ltac:(lia)). lia.
  - pose proof (Z.div_mod (base + len - 1) 4096 ltac:(lia)). pose proof (Z.mod_pos_bound (base + len - 1) 4096 ltac:(lia)). lia.
Qed.

(** [big_free] of a block nobody points to. *)
Lemma big_free_ok h ts Vs Vb own rs Ab M G Db q meta :
  ok h ts Vs Vb own rs Ab M G Db -> M !! q = Some meta -> (forall p', Db !! p' <> Some q) ->
  match big_free cfg h q with
  | Ret h' => exists own' Ab' G', ok h' ts Vs Vb own' rs Ab' (delete q M) G' Db
  | Fatal e => e = VAIinitFailed
  | Stuck => False
  end.
Proof using.
  intros Hok Hq Hnew. pose proof (bo_big _ _ _ _ _ _ _ _ _ _ _ _ Hok) as HB. destruct (bi_entry _ _ _ _ _ _ _ HB q meta Hq) as [He _]. destruct (entry_place cfg h own rs Ab M G HB _ _ He) as (P1 & P2 & P3 & _).
  destruct (en_size _ _ _ _ _ _ He) as [S1 S2]. destruct (tree_removed _ _ _ _ _ _ _ _ _ _ q meta Hok Hq Hnew) as (t & Hr & Hok1). unfold big_free. rewrite Hr. cbn [mbind outcome_bind].
  change (wsub q Header_SIZE) with (wsub q 16). change (wadd (bm_size meta) Header_SIZE) with (wadd (bm_size meta) 16). rewrite wsub_small, wadd_small by lia.
  assert (Hno : forall q' m, delete q M !! q' = Some m -> q' - 16 <> q - 16) by (intros q' m [Hne _]%lookup_delete_Some E; apply Hne; lia).
  pose proof (en_home _ _ _ _ _ _ He) as Hh. unfold block_len in *. destruct (Z.eqb_spec (bm_buddy_region meta) 0) as [E|E]; cbn [negb].
  - set (h1 := set_big h t) in *. pose proof (wh_radix _ _ _ _ (bi_whole _ _ _ _ _ _ _ (bo_big _ _ _ _ _ _ _ _ _ _ _ _ Hok1))) as Hwf. pose proof (fun rx sel => own_released h1 ts Vs Vb own rs Ab (delete q M) G Db (q - 16) (mapping_size (bm_size meta)) rx sel Hok1 Hh Hno) as Hdone. destruct (bm_aligned meta).
    + pose proof (set_range_updated (KernelSpec0 := seen own) (hp_radix h1) (q - 16) (mapping_size (bm_size meta)) false Hwf ltac:(lia) ltac:(lia) ltac:(change MAX_ADDR with (2 ^ 56); lia)) as Hu.
      pose proof (fun t' x => set_range_mapped (KernelSpec0 := seen own) (hp_radix h1) (q - 16) (mapping_size (bm_size meta)) false t' x) as Hm. destruct (Radix.set_range _ _ _ _) as [rx| |]; cbn [mbind outcome_bind]; [|done..]. destruct Hu as (Hw & _ & Hg).
      eexists _, _, _. eapply (Hdone rx _ Hw); [intros x; by apply Hm|exact Hg|]. intros j Hj. by apply range_chunk; [lia|].
    + pose proof (set_single_updated own (hp_radix h1) (q - 16) false Hwf ltac:(lia)) as Hu. pose proof (fun t' x => set_single_mapped own (hp_radix h1) (q - 16) false t' x) as Hm.
      destruct (Radix.set_single_big _ _ _) as [rx| |]; cbn [mbind outcome_bind]; [|done..]. destruct Hu as (Hw & _ & Hg). eexists _, _, _. eapply (Hdone rx _ Hw); [intros x; by apply Hm|exact Hg|].
      intros j ->%Z.eqb_eq. exists (q - 16). split; [done|lia].
  - destruct (buddy_released _ _ _ _ _ _ _ _ _ _ (bm_buddy_region meta) (bm_order meta) (q - 16) Hok1 Hh Hno) as (b & Hfree & Hok2).
    rewrite Hfree. cbn [fmap outcome_fmap]. eauto.
Qed.
End Ops.
