(* ===== verification/BigAlloc.v ===== *)
(** * Requests and releases of any size

    A pointer to a big allocation is found again by its header or by the tag before
    it; [rs_alloc], [memalign_inner] and [rs_free] keep the invariant of the whole
    heap on their big branches. *)

From stdpp Require Import functions.
From S2P Require Import Prelude Types SizeClasses Kernel Binder Radix RadixProofs RBTree RBTreeProofs Buddy BuddyRep BuddyProofs BuddyGrow BuddySpec BuddyWhole PageAllocator PageProofs PageSpec Numa NumaSpec Predictor SList PendingQueue Rseq Bitmap SlabCache SlabProofs SlabSteal SlabSpec Heap BulkFill Alloc HeapFrame HeapInv HeapFill HeapOps HeapLive HeapView BigInv BigOps.

Ltac Zify.zify_post_hook ::= idtac.

Lemma no_class size : 2097152 < size -> match_size_class size = None.
Proof.
  intros Hs. destruct (match_size_class size) as [c|] eqn:E; [|done]. rewrite match_size_class_eq, reference_match_big in E by lia. done.
Qed.

Lemma same_chunk base : (4096 | base) -> ((base + 16) / CHUNK_SIZE =? base / CHUNK_SIZE) = true.
Proof. intros [q ->]. change CHUNK_SIZE with 4096. apply Z.eqb_eq. rewrite Z.div_add_l, Z.div_mul by lia. change (16 / 4096) with 0. lia. Qed.

Section Pointers.
Context {K : Type} `{!Kernel K} {S : KernelSpec K} (cfg : config) (cpus : Z).
Implicit Types (h : heap K) (ts : gmap nat tls) (own : gmap Z Z) (rs : regions) (Ab : Z -> gset (Z * Z)) (M : gmap Z BigAllocMeta) (G : gset Z)
  (Vs Vb : gmap Z (Z * Z)) (Db : gmap Z Z).

Abbreviation seen own := (view S (own_bytes own)).
Abbreviation ok := (big_ok cfg cpus).

Section State.
Context (h : heap K) (ts : gmap nat tls) (Vs Vb : gmap Z (Z * Z)) (own : gmap Z Z) (rs : regions) (Ab : Z -> gset (Z * Z)) (M : gmap Z BigAllocMeta) (G : gset Z) (Db : gmap Z Z).
Context (Hok : ok h ts Vs Vb own rs Ab M G Db).

Lemma big_radix : radix_wf (KernelSpec0 := seen own) (hp_radix h).
Proof using Hok. apply (wh_radix _ _ _ _ (bi_whole _ _ _ _ _ _ _ (bo_big _ _ _ _ _ _ _ _ _ _ _ _ Hok))). Qed.

(** The bytes of a block in the tree are bytes of big allocations. *)
Lemma entry_bytes q meta y : M !! q = Some meta -> q - 16 <= y < q - 16 + block_len cfg meta -> big_bytes own rs y.
Proof using Hok.
  intros Hq Hy. pose proof (bo_big _ _ _ _ _ _ _ _ _ _ _ _ Hok) as HB. destruct (bi_entry _ _ _ _ _ _ _ HB q meta Hq) as [He _]. destruct (entry_place cfg h own rs Ab M G HB _ _ He) as (_ & _ & _ & Hp).
  specialize (Hp y Hy). unfold big_bytes. destruct (_ =? 0); auto.
Qed.

(** Away from the heads there are no headers. *)
Lemma no_header y : big_bytes own rs y -> y ∉ G -> sl_mem (hp_slab h) !! y = None.
Proof using Hok.
  intros Hy Hn. destruct (sl_mem (hp_slab h) !! y) as [x|] eqn:E; [|done]. exfalso. destruct Hok as [(C & B & D & A & HI & _) _ _].
  destruct (bv_dom _ _ _ _ _ _ (hi_blocks _ _ _ _ _ _ _ _ _ HI) y ltac:(eauto)) as [[c HBy]|]; [|done]. pose proof (block_class _ _ _ _ _ _ _ _ _ _ _ HI HBy) as Hc. destruct (class_facts_of c Hc) as [F1 _ F3 _ _ _ _].
  eapply (block_not_framed (KernelSpec0 := seen own) cfg cpus h ts C B A A ∅ y c y HI HBy); [lia|done].
Qed.

(** The payload behind a live pointer. *)
Record behind (p q : Z) (meta : BigAllocMeta) : Prop := {
  bh_owned : is_owned (hp_radix h) p = Ret true;
  bh_find : find_original_ptr cfg h p = Ret q;
  bh_head : get_actual_header q = q - 16;
  bh_magic : exists x, get_header h (q - 16) = Ret x /\ h_magic x = BIG_MAGIC cfg;
  bh_get : RBTree.get (hp_big h) q = Ret (Some meta);
  bh_place : 0 < q /\ q <= p /\ p < q + bm_size meta /\ q + bm_size meta <= 2 ^ 47;
}.

Lemma find_original_big p size align :
  2 ^ 56 <= ALIGN_TAG cfg -> Vb !! p = Some (size, align) -> exists q meta, Db !! p = Some q /\ M !! q = Some meta /\ 0 <= size /\ p + size <= q + bm_size meta /\ aligned_at p q align /\ tagged cfg h G p q /\ behind p q meta.
Proof using Hok.
  intros Htag Hp. destruct (live_entry cfg cpus _ _ _ _ _ _ _ _ _ _ _ _ _ Hok Hp) as (q & meta & Hd & Hq & He & Hin & Hs & Hfit & Hal & Ho & Ht). exists q, meta. split_and!; try done.
  pose proof (bo_big _ _ _ _ _ _ _ _ _ _ _ _ Hok) as HB. destruct (entry_place cfg h own rs Ab M G HB _ _ He) as (P1 & P2 & P3 & _). destruct (en_size _ _ _ _ _ _ He) as [S1 S2]. destruct (bi_entry _ _ _ _ _ _ _ HB q meta Hq) as [_ Hg].
  destruct (heads_ok cfg cpus h ts Vs own rs G (q - 16) _ (bo_small _ _ _ _ _ _ _ _ _ _ _ _ Hok) eq_refl Hg) as (_ & x & Hx & Hmg & Hnx).
  assert (Hown : forall y, 0 <= y < 2 ^ 47 -> is_owned (hp_radix h) y = Ret (Radix.get (hp_radix h) (y / CHUNK_SIZE))) by (intros y Hy; apply (is_owned_get (KernelSpec0 := seen own)); [apply big_radix|change MAX_ADDR with (2 ^ 56); lia]).
  constructor.
  - rewrite Hown, Ho by lia. done.
  - unfold find_original_ptr, read_word. change TAG_SIZE with 16. change OFFSET_SIZE with 8. rewrite !wsub_small by lia. destruct Ht as [->|(T1 & T2 & T3 & T4 & T5)].
    + rewrite Hx. destruct (Z.eqb_spec (h_next x) (ALIGN_TAG cfg)); [lia|done].
    + rewrite !no_header by first [done|apply (entry_bytes q meta); [done|lia]]. rewrite T2, T3. change (default 0 (Some (ALIGN_TAG cfg))) with (ALIGN_TAG cfg). change (default 0 (Some q)) with q. rewrite Z.eqb_refl, Hown by lia. cbn [mbind outcome_bind].
      pose proof (en_first _ _ _ _ _ _ He) as Hf. pose proof (same_chunk _ P2) as Hc%Z.eqb_eq. replace (q - 16 + 16) with q in Hc by lia. by rewrite Hc, Hf.
  - change (get_actual_header q) with (wsub q 16). apply wsub_small. lia.
  - exists x. split; [|done]. unfold get_header. by rewrite Hx.
  - by rewrite (get_ok _ _ _ q (bi_tree _ _ _ _ _ _ _ HB)), Hq.
  - lia.
Qed.

(** Live pointers are small or big. *)
Lemma live_disjoint : Vs ##ₘ Vb.
Proof using Hok.
  apply map_disjoint_spec. intros p [s1 a1] [s2 a2] H1 H2. destruct (live_entry cfg cpus _ _ _ _ _ _ _ _ _ _ _ _ _ Hok H2) as (q & meta & _ & Hq & He & Hin & _). pose proof (en_size _ _ _ _ _ _ He).
  eapply (small_apart_big cfg cpus h ts Vs Vb own rs Ab M G Db p q meta (p - 16)); try done; lia.
Qed.

(** ** Release *)

Lemma rs_free_big (e : env) p size align :
  2 ^ 56 <= ALIGN_TAG cfg -> MAGIC cfg <> BIG_MAGIC cfg -> Vb !! p = Some (size, align) ->
  match rs_free cfg h e p with
  | Ret h' => exists own' Ab' M' G' Db', ok h' ts Vs (delete p Vb) own' rs Ab' M' G' Db'
  | Fatal er => er = VAIinitFailed
  | Stuck => False
  end.
Proof using Hok.
  intros Htag Hmg Hp. destruct (find_original_big p size align Htag Hp) as (q & meta & Hd & Hq & _ & _ & _ & _ & [B1 B2 B3 (x & B4 & B5) _ B6]). unfold rs_free.
  destruct (Z.eqb_spec p null) as [E|_]; [change null with 0 in E; lia|]. rewrite B1. cbn [mbind outcome_bind negb]. rewrite B2. cbn [mbind outcome_bind]. rewrite B3, B4. cbn [mbind outcome_bind]. rewrite B5.
  destruct (Z.eqb_spec (BIG_MAGIC cfg) (MAGIC cfg)) as [E|_]; [by symmetry in E|]. rewrite Z.eqb_refl. destruct (live_dropped cfg cpus _ _ _ _ _ _ _ _ _ _ p q Hok Hd) as [Hok1 Hnew].
  pose proof (big_free_ok cfg cpus h ts Vs (delete p Vb) own rs Ab M G (delete p Db) q meta Hok1 Hq Hnew) as Hf. destruct (big_free cfg h q) as [h'| |]; [|done..]. destruct Hf as (own' & Ab' & G' & Hf). eauto 6.
Qed.

(** The usable size of a big pointer is what is left of its payload. *)
Lemma usable_size_big p size align :
  2 ^ 56 <= ALIGN_TAG cfg -> Vb !! p = Some (size, align) -> exists q meta, Db !! p = Some q /\ M !! q = Some meta /\ usable_size cfg h p = Ret (q + bm_size meta - p) /\ size <= q + bm_size meta - p /\ p < q + bm_size meta.
Proof using Hok.
  intros Htag Hp. destruct (find_original_big p size align Htag Hp) as (q & meta & Hd & Hq & Hs & Hfit & _ & _ & [B1 B2 B3 (x & B4 & B5) B6 B7]). unfold usable_size. rewrite B1. cbn [mbind outcome_bind].
  rewrite B2. cbn [mbind outcome_bind]. rewrite B3, B4. cbn [mbind outcome_bind]. rewrite B5, Z.eqb_refl, B6. cbn [mbind outcome_bind]. rewrite wsub_small by lia. unfold saturating_sub. exists q, meta. split; [done|]. split; [done|]. split; [f_equal; lia|lia].
Qed.

(** ** Requests *)

(** A request for [size] bytes at a multiple of [align]: a new pointer, or null. *)
Definition big_given size align (r : outcome (Z * heap K)) : Prop :=
  match r with
  | Ret (p, h') => exists own' rs' Ab' M' G' Db',
      if p =? null then ok h' ts Vs Vb own' rs' Ab' M' G' Db'
      else Vs !! p = None /\ Vb !! p = None /\ ok h' ts Vs (<[p := (size, align)]> Vb) own' rs' Ab' M' G' Db'
  | Fatal e => e = VAIinitFailed \/ e = OutOfMemory
  | Stuck => False
  end.

(** A block that is not in the tree has no pointer. *)
Lemma unpointed q : M !! q = None -> forall p', Db !! p' <> Some q.
Proof using Hok.
  intros Hq p' Hd. destruct (bo_live _ _ _ _ _ _ _ _ _ _ _ _ Hok) as [L1 _ L3]. assert (Hv : is_Some (Vb !! p')) by (apply elem_of_dom; rewrite <- L1; by apply elem_of_dom_2 in Hd).
  destruct Hv as [[sz al] Hv]. destruct (L3 p' q sz al Hd Hv) as (m & Hm & _). congruence.
Qed.

Lemma big_malloc_given cpu size align :
  0 <= cpu < cpus -> 0 < size <= 2 ^ 63 -> (align | 16) -> 0 < align -> is_power_of_two align = true -> big_given size align (big_malloc cfg h cpu size false).
Proof using Hok.
  intros Hcpu Hs Hal Ha0 Hpow. pose proof (big_malloc_served cfg cpus h ts Vs Vb own rs Ab M G Db cpu size false Hok Hcpu ltac:(lia)) as Hm. destruct (big_malloc _ _ _ _ _) as [[q h']| |]; cbn [big_served big_given] in *; [|done..].
  destruct Hm as (own' & rs' & Ab' & G' & Hm). destruct (q =? null); [by exists own', rs', Ab', M, G', Db|]. destruct Hm as (meta & Hnone & Hsz & _ & Hok'). exists own', rs', Ab', (<[q := meta]> M), G', (<[q := q]> Db).
  pose proof (bo_big _ _ _ _ _ _ _ _ _ _ _ _ Hok') as HB. assert (Hq : <[q := meta]> M !! q = Some meta) by apply lookup_insert_eq. destruct (bi_entry _ _ _ _ _ _ _ HB q meta Hq) as [He _].
  destruct (entry_place cfg h' own' rs' Ab' _ G' HB _ _ He) as (P1 & P2 & _). pose proof (same_chunk _ P2) as Hc%Z.eqb_eq. replace (q - 16 + 16) with q in Hc by lia.
  apply (live_added cfg cpus h' ts Vs Vb own' rs' Ab' _ G' Db q q meta size align Hok' Hq); [by apply unpointed|lia| |rewrite Hc; apply (en_first _ _ _ _ _ _ He)|by left|lia|lia]. split_and!; try done.
  replace q with (q - 16 + 16) by lia. apply Z.divide_add_r; [|done]. apply Z.divide_trans with 4096; [|done]. apply Z.divide_trans with 16; [done|by exists 256].
Qed.
End State.

(** The tag and the payload written before an aligned pointer. *)
Lemma tag_written h ts Vs Vb own rs Ab M G Db q meta p size align :
  ok h ts Vs Vb own rs Ab M G Db -> M !! q = Some meta -> (forall p', Db !! p' <> Some q) -> bm_aligned meta = true -> q + 16 <= p -> p < q + bm_size meta -> 0 <= size -> p + size <= q + bm_size meta -> (align | p) -> 0 < align -> is_power_of_two align = true ->
  exists G', Vs !! p = None /\ Vb !! p = None /\
    ok (write_word (write_word h (p - 16) (ALIGN_TAG cfg)) (p - 8) q) ts Vs (<[p := (size, align)]> Vb) own rs Ab M G' (<[p := q]> Db).
Proof using.
  intros Hok Hq Hnew Hal Hlo Hhi Hs Hfit Hd Ha0 Hpow. pose proof (write_word_ok cfg cpus _ _ _ _ _ _ _ _ _ _ q meta (p - 16) (ALIGN_TAG cfg) Hok Hq Hnew ltac:(lia) ltac:(lia)) as Hok1.
  pose proof (write_word_ok cfg cpus _ _ _ _ _ _ _ _ _ _ q meta (p - 8) q Hok1 Hq Hnew ltac:(lia) ltac:(lia)) as Hok2. set (h2 := write_word _ (p - 8) q) in *. eexists. eapply (live_added cfg cpus h2); [exact Hok2|exact Hq|done|done|split_and!; try done; lia| | |done|done].
  - destruct (bi_entry _ _ _ _ _ _ _ (bo_big _ _ _ _ _ _ _ _ _ _ _ _ Hok2) q meta Hq) as [He _]. pose proof (en_size _ _ _ _ _ _ He). apply (en_aligned _ _ _ _ _ _ He p Hal). lia.
  - right. split; [done|]. cbn [hp_raw h2 write_word set_raw set_headers]. rewrite lookup_insert_eq, lookup_insert_ne, lookup_insert_eq by lia. split; [done|]. split; [done|]. set_solver.
Qed.

Lemma posix_align_big h ts Vs Vb own rs Ab M G Db th (e : env) alignment size align :
  ok h ts Vs Vb own rs Ab M G Db -> 0 <= e_cpu e < cpus -> 8 <= alignment -> is_power_of_two alignment = true -> (align | alignment) -> 0 < align -> is_power_of_two align = true -> 0 <= size -> 2097152 < size + alignment + 16 -> size + alignment <= 2 ^ 63 ->
  match posix_align_inner cfg th h e alignment size with
  | Ret (r, th', h') => th' = th /\ r <> inl null /\ r <> inr EINVAL /\ big_given ts Vs Vb size align (Ret (match r with inl p => p | inr _ => null end, h'))
  | Fatal er => er = VAIinitFailed \/ er = OutOfMemory
  | Stuck => False
  end.
Proof using.
  intros Hok Hcpu H8 Hp Hdiv Ha0 Hpow Hs Hbig Hsum. unfold posix_align_inner. destruct (Z.ltb_spec alignment 8); [lia|]. rewrite Hp. cbn [orb negb]. unfold checked_add. change TAG_SIZE with 16. change OFFSET_SIZE with 8.
  destruct (Z.ltb_spec (size + alignment) (2 ^ 64)); [|lia]. cbn [mbind option_bind]. destruct (Z.ltb_spec (size + alignment + 16) (2 ^ 64)); [|lia]. unfold rs_alloc. rewrite no_class by lia.
  pose proof (big_malloc_served cfg cpus h ts Vs Vb own rs Ab M G Db (e_cpu e) (size + alignment + 16) true Hok Hcpu ltac:(lia)) as Hm. destruct (big_malloc _ _ _ _ _) as [[q h']| |]; cbn [big_served mbind outcome_bind] in *; [|done..].
  destruct Hm as (own' & rs' & Ab' & G' & Hm). destruct (q =? null) eqn:Hq0; [cbn [big_given]; split_and!; try done; by exists own', rs', Ab', M, G', Db|]. destruct Hm as (meta & Hnone & Hsz & Hal & Hok').
  pose proof (bo_big _ _ _ _ _ _ _ _ _ _ _ _ Hok') as HB. assert (Hq : <[q := meta]> M !! q = Some meta) by apply lookup_insert_eq. destruct (bi_entry _ _ _ _ _ _ _ HB q meta Hq) as [He _].
  destruct (entry_place cfg h' own' rs' Ab' _ G' HB _ _ He) as (P1 & _ & P3 & _). destruct (en_size _ _ _ _ _ _ He) as [_ S2]. unfold saturating_add, saturating_sub. rewrite (Z.min_l (q + 16)) by lia.
  destruct (aligned_up (q + 16) alignment H8 Hp ltac:(lia) ltac:(lia)) as [Hb Hd]. cbv zeta in Hb, Hd. set (p := Z.land _ _) in *. rewrite !Z.max_r by lia. split; [done|]. split; [intros [= E]; change null with 0 in E; lia|]. split; [done|]. cbn [big_given].
  destruct (tag_written h' ts Vs Vb own' rs' Ab' _ G' Db q meta p size align Hok' Hq (unpointed _ _ _ _ _ _ _ _ _ _ Hok q Hnone) Hal ltac:(lia) ltac:(lia) Hs ltac:(lia) ltac:(by etrans) Ha0 Hpow) as (G2 & V1 & V2 & Hok2).
  destruct (Z.eqb_spec p null) as [E|_]; [change null with 0 in E; lia|]. eauto 10.
Qed.
End Pointers.
