(* ===== verification/BigResize.v ===== *)
(** * Big allocations that change their size in place

    In the block they have, in the buddy allocator, or with their mapping. *)

From stdpp Require Import functions.
From S2P Require Import Prelude Types SizeClasses Kernel Binder Radix RadixProofs RBTree RBTreeProofs Buddy BuddyRep BuddyProofs BuddyGrow BuddySpec BuddyWhole PageAllocator PageProofs PageSpec Numa NumaSpec Predictor SList PendingQueue Rseq Bitmap SlabCache SlabProofs SlabSteal SlabSpec Heap BulkFill Alloc HeapFrame HeapInv HeapFill HeapOps Random GlobalAlloc Realloc HeapLive HeapView BigInv BigOps BigAlloc.

Ltac Zify.zify_post_hook ::= idtac.

Section Resize.
Context {K : Type} `{!Kernel K} {S : KernelSpec K} (cfg : config) (cpus : Z).
Implicit Types (h : heap K) (ts : gmap nat tls) (own : gmap Z Z) (rs : regions) (Ab : Z -> gset (Z * Z)) (M : gmap Z BigAllocMeta) (G : gset Z)
  (Vs Vb : gmap Z (Z * Z)) (Db : gmap Z Z).

Abbreviation seen own := (view S (own_bytes own)).
Abbreviation smapped own := (@mapped K _ (view S (own_bytes own))).
Abbreviation ok := (big_ok cfg cpus).
Abbreviation mapping_size size := (estimate_and_align_2mb cfg (size + 16)).

(** A live pointer with as much of its payload as it likes. *)
Lemma live_sized h ts Vs Vb own rs Ab M G Db p q meta size align n :
  ok h ts Vs Vb own rs Ab M G Db -> Vb !! p = Some (size, align) -> Db !! p = Some q -> M !! q = Some meta -> 0 <= n -> p + n <= q + bm_size meta ->
  ok h ts Vs (<[p := (n, align)]> Vb) own rs Ab M G Db.
Proof using.
  intros [Hs HB [L1 L2 L3]] Hp Hd Hq Hn Hfit. constructor; [done|done|constructor; [|done|]].
  - rewrite dom_insert_L, L1. apply elem_of_dom_2 in Hp. set_solver.
  - intros p1 q1 sz al Hd1 [[<- [= <- <-]]|[_ Hv]]%lookup_insert_Some; [|by eapply L3]. destruct (L3 p q size align Hd Hp) as (m' & Hm' & _ & Hal & Ho & Ht & Hlt & _).
    simplify_eq. exists meta. by split_and!.
Qed.

(** The pointers stay when no payload shrinks. *)
Lemma big_live_meta h h' M G Vb Db q meta meta' :
  big_live cfg h M G Vb Db -> hp_radix h' = mkRadixTree (hp_root h) (hp_words h) (hp_kern h') -> hp_raw h' = hp_raw h -> M !! q = Some meta -> bm_size meta <= bm_size meta' -> big_live cfg h' (<[q := meta']> M) G Vb Db.
Proof using.
  intros [L1 L2 L3] Er Ew Hq Hle. constructor; [done|done|]. intros p q' size align Hd Hv. destruct (L3 p q' size align Hd Hv) as (m & Hm & Hs & Hal & Ho & Ht & Hlt & Hfit).
  unfold tagged in *. rewrite Ew, Er. change (Radix.get (mkRadixTree (hp_root h) (hp_words h) (hp_kern h')) (p / CHUNK_SIZE)) with (Radix.get (hp_radix h) (p / CHUNK_SIZE)).
  destruct (decide (q' = q)) as [->|Hne]; [exists meta'; rewrite lookup_insert_eq; simplify_eq|exists m; rewrite lookup_insert_ne by done]; split_and!; done || lia.
Qed.

(** New metadata for a block. *)
Lemma tree_replaced h ts Vs Vb own rs Ab M G Db q meta meta' :
  ok h ts Vs Vb own rs Ab M G Db -> M !! q = Some meta -> entry cfg h own Ab (q - 16) meta' -> bm_size meta <= bm_size meta' ->
  exists t, RBTree.replace (hp_big h) q meta' = Ret (Some meta, t) /\ ok (set_big h t) ts Vs Vb own rs Ab (<[q := meta']> M) G Db.
Proof using.
  intros Hok Hq He Hle. pose proof Hok as [Hsm HB HL]. destruct (replace_ok (KernelSpec0 := seen own) _ _ _ q meta' (bi_tree _ _ _ _ _ _ _ HB)) as (t & Hr & HT). rewrite Hq in Hr. rewrite Hq, decide_True in HT by eauto. exists t. split; [done|]. constructor.
  - eapply (small_kept cfg cpus h (set_big h t) _ _ _ own rs Ab M G); [exact Hok|done|done|done|done|apply (wh_radix _ _ _ _ (bi_whole _ _ _ _ _ _ _ HB))|by intros j].
  - constructor; [apply HB|apply HB|apply HB|exact HT|]. intros q' m' [[<- <-]|[_ Hq']]%lookup_insert_Some; [split; [by destruct He|by apply (bi_entry _ _ _ _ _ _ _ HB q meta)]|].
    destruct (bi_entry _ _ _ _ _ _ _ HB q' m' Hq') as [He' Hg]. split; [by destruct He'|done].
  - by eapply (big_live_meta h).
Qed.

(** ** In the buddy allocator *)

Definition with_order (m : BigAllocMeta) (o : Z) : BigAllocMeta := mkBigAllocMeta null (bm_size m) o (bm_buddy_region m) (bm_aligned m).

(** The block [o] of the allocation [q] takes its buddy in. *)
Lemma buddy_grown_ok h ts Vs Vb own rs Ab M G Db q meta :
  ok h ts Vs Vb own rs Ab M G Db -> M !! q = Some meta -> bm_buddy_region meta <> 0 ->
  Buddy.try_grow_inplace (hp_buddy h) (bm_buddy_region meta) (q - 16) (bm_order meta) = Ret (None, hp_buddy h) \/
  exists b t Ab', Buddy.try_grow_inplace (hp_buddy h) (bm_buddy_region meta) (q - 16) (bm_order meta) = Ret (Some (q - 16, bm_order meta + 1), b) /\
    RBTree.replace (hp_big h) q (with_order meta (bm_order meta + 1)) = Ret (Some meta, t) /\
    ok (set_big (set_buddy h b) t) ts Vs Vb own rs Ab' (<[q := with_order meta (bm_order meta + 1)]> M) G Db.
Proof using.
  intros Hok Hq Hr. pose proof Hok as [Hsm HB HL]. destruct (bi_entry _ _ _ _ _ _ _ HB q meta Hq) as [He Hg]. pose proof (en_home _ _ _ _ _ _ He) as Hh. pose proof (en_size _ _ _ _ _ _ He) as [S1 S2]. unfold block_len in S2.
  destruct (Z.eqb_spec (bm_buddy_region meta) 0) as [|_]; [done|]. set (r := bm_buddy_region meta) in *. set (o := bm_order meta) in *. pose proof (bi_whole _ _ _ _ _ _ _ HB) as HW.
  destruct (grow_whole (KernelSpec0 := seen own) _ _ rs Ab r o (q - 16) HW Hh) as [(b & Hrun & HW')|Hrun]; [right|by left]. set (Ab' := <[r := _]> Ab) in *. set (meta' := with_order meta (o + 1)).
  destruct (replace_ok (KernelSpec0 := seen own) _ _ _ q meta' (bi_tree _ _ _ _ _ _ _ HB)) as (t & Hrep & HT). rewrite Hq in Hrep. rewrite Hq, decide_True in HT by eauto. exists b, t, Ab'. split; [done|]. split; [done|].
  assert (Hin : (o + 1, q - 16) ∈ Ab' r) by (unfold Ab'; rewrite fn_lookup_insert; set_solver). destruct (whole_block _ _ _ _ _ _ _ HW Hh) as (_ & _ & _ & _ & (Ho & _)). set (h' := set_big (set_buddy h b) t). constructor.
  - eapply (small_kept cfg cpus h h' _ _ _ own rs Ab M G); [exact Hok|done|done|done|done|apply (wh_radix _ _ _ _ HW)|by intros j].
  - constructor; [apply HB|apply HB|exact HW'|exact HT|]. intros q' m' [[<- <-]|[Hne Hq']]%lookup_insert_Some.
    + split; [|done]. assert (Hz : (r =? 0) = false) by lia. constructor; unfold block_len; cbn [meta' with_order bm_size bm_buddy_region bm_order bm_aligned]; fold r; rewrite ?Hz; [|done|by destruct He|].
      * rewrite Z.pow_add_r by lia. lia.
      * intros y _ Hy. destruct (whole_bytes _ _ _ _ _ _ _ y HW' Hin Hy) as (Hy47 & _ & Hoy). rewrite (is_owned_get (KernelSpec0 := seen own) _ _ (wh_radix _ _ _ _ HW)) in Hoy by (change MAX_ADDR with (2 ^ 56); lia). by injection Hoy.
    + destruct (bi_entry _ _ _ _ _ _ _ HB q' m' Hq') as [[E1 E2 E3 E4] Hg']. split; [|done]. constructor; try done. destruct (_ =? 0); [done|]. unfold Ab'.
      destruct (decide (bm_buddy_region m' = r)) as [<-|Hn]; [|by rewrite fn_lookup_insert_ne]. rewrite fn_lookup_insert. apply elem_of_union_r, elem_of_difference. split; [done|]. intros [= _ E]%elem_of_singleton. apply Hne. lia.
  - eapply (big_live_meta h); [exact HL|done|done|exact Hq|cbn; lia].
Qed.

(** [grow_buddy]: the block of [q] grows until it holds [aligned_new] bytes, or
    as far as it goes. *)
Lemma grow_buddy_ok n aligned_new new_size meta : forall h ts Vs Vb own rs Ab M G Db q mc,
  ok h ts Vs Vb own rs Ab M G Db -> M !! q = Some mc -> bm_buddy_region meta <> 0 -> mc = with_order meta (bm_order mc) \/ mc = meta -> bm_size meta <= new_size -> new_size + 16 <= aligned_new ->
  match grow_buddy n h q (q - 16) (bm_order mc) aligned_new new_size meta with
  | Ret (r, h') => exists Ab' meta', ok h' ts Vs Vb own rs Ab' (<[q := meta']> M) G Db /\ match r with Some p => p = q /\ bm_size meta' = new_size | None => bm_size meta' = bm_size meta end
  | _ => False
  end.
Proof using.
  induction n as [|n IH]; intros h ts Vs Vb own rs Ab M G Db q mc Hok Hq Hr Hmc Hle Hfit; cbn [grow_buddy].
  all: assert (Hstay : exists Ab' meta', ok h ts Vs Vb own rs Ab' (<[q := meta']> M) G Db /\ bm_size meta' = bm_size meta)
    by (exists Ab, mc; rewrite insert_id by done; split; [done|]; destruct Hmc as [->| ->]; done).
  { exact Hstay. }
  destruct (negb _); [done|]. destruct (_ <? _); [done|]. assert (Er : bm_buddy_region mc = bm_buddy_region meta) by (destruct Hmc as [->| ->]; done).
  destruct (buddy_grown_ok h ts Vs Vb own rs Ab M G Db q mc Hok Hq ltac:(congruence)) as [Hrun|(b & t & Ab' & Hrun & Hrep & Hok')]; rewrite <- Er, Hrun; cbn [mbind outcome_bind]; [by destruct h|].
  set (mc' := with_order mc (bm_order mc + 1)) in *. assert (Emc : mkBigAllocMeta null (bm_size meta) (bm_order mc + 1) (bm_buddy_region mc) (bm_aligned meta) = mc') by (unfold mc', with_order; destruct Hmc as [->| ->]; done).
  rewrite Emc. change (hp_big (set_buddy h b)) with (hp_big h). rewrite Hrep. cbn [mbind outcome_bind]. set (h1 := set_big (set_buddy h b) t) in *. assert (Hq1 : <[q := mc']> M !! q = Some mc') by apply lookup_insert_eq.
  pose proof (bo_big _ _ _ _ _ _ _ _ _ _ _ _ Hok') as HB. destruct (bi_entry _ _ _ _ _ _ _ HB q mc' Hq1) as [He _]. destruct (entry_place cfg h1 own rs Ab' _ G HB _ _ He) as (P1 & _ & P3 & _).
  destruct (Z.leb_spec aligned_new (wshl 1 (bm_order mc + 1))) as [Hen|Hno].
  - set (meta' := mkBigAllocMeta _ _ _ _ _). assert (Hz : (bm_buddy_region mc =? 0) = false) by (rewrite Er; lia). pose proof (en_home _ _ _ _ _ _ He) as Hh. cbn [mc' with_order bm_buddy_region bm_order] in Hh. rewrite Hz in Hh.
    destruct (whole_block _ _ _ _ _ _ _ (bi_whole _ _ _ _ _ _ _ HB) Hh) as (b1 & t1 & _ & _ & (Ho & _)).
    assert (Hw : wshl 1 (bm_order mc + 1) <= 2 ^ (bm_order mc + 1)) by (unfold wshl; rewrite Z.shiftl_1_l; apply Z.mod_le; [apply Z.pow_nonneg; lia|lia]).
    destruct (tree_replaced h1 ts Vs Vb own rs Ab' _ G Db q mc' meta' Hok' Hq1) as (t' & Hrep' & Hok2).
    + destruct He as [E1 E2 E3 E4]. unfold block_len in *. cbn [mc' meta' with_order bm_size bm_buddy_region bm_order bm_aligned] in *. rewrite Hz in E1, E2, E4. constructor; unfold block_len; cbn [meta' bm_size bm_buddy_region bm_order bm_aligned]; rewrite ?Hz; [|done|done|].
      * destruct Hmc as [Emc'| ->]; [rewrite Emc' in E1; cbn in E1|]; lia.
      * destruct Hmc as [Emc'| ->]; [rewrite Emc' in E4; exact E4|exact E4].
    + cbn. destruct Hmc as [->| ->]; cbn; lia.
    + rewrite Hrep'. cbn [mbind outcome_bind]. rewrite insert_insert_eq in Hok2. exists Ab', meta'. split; [exact Hok2|]. split; [|done]. pose proof (en_size _ _ _ _ _ _ He). change (walk_header (q - 16)) with (wadd (q - 16) 16). rewrite wadd_small by lia. lia.
  - pose proof (IH h1 ts Vs Vb own rs Ab' (<[q := mc']> M) G Db q mc' Hok' Hq1 Hr) as Hi. cbn [mc' with_order bm_order] in Hi. change (with_order mc (bm_order mc + 1)) with mc' in Hi.
    specialize (Hi ltac:(left; unfold mc', with_order; destruct Hmc as [->| ->]; done) Hle Hfit). destruct (grow_buddy n h1 _ _ _ _ _ _) as [[r h2]| |]; [|done..]. destruct Hi as (Ab2 & m2 & Hok2 & Hres). rewrite insert_insert_eq in Hok2. eauto.
Qed.

(** ** With its mapping *)

Lemma estimate_mono a b : 0 <= a -> a <= b -> b <= 2 ^ 63 -> estimate_and_align_2mb cfg a <= estimate_and_align_2mb cfg b.
Proof using.
  intros H0 Hle Hb. unfold estimate_and_align_2mb, TWO_MB. change (1024 * 1024 * 2) with (2 ^ 21). change 4096 with (2 ^ 12). rewrite !align_to_pow2 by lia.
  change (2 ^ 21) with 2097152. change (2 ^ 12) with 4096. change (1024 * 64) with 65536. destruct (RS_DISABLE_THP cfg); cbn [negb]; rewrite ?andb_false_r, ?andb_true_r; [Z.to_euclidean_division_equations; lia|].
  destruct ((0 <? a mod 2097152) && _) eqn:E1, ((0 <? b mod 2097152) && _) eqn:E2; rewrite ?andb_true_iff, ?andb_false_iff, ?Z.ltb_lt, ?Z.ltb_ge, ?Z.leb_le, ?Z.leb_gt in *; Z.to_euclidean_division_equations; lia.
Qed.

(** The mapping of [q] grows where it is. *)
Lemma mapping_remapped h ts Vs Vb own rs Ab M G Db q meta len a k n ord :
  let meta' := mkBigAllocMeta null n ord 0 false in
  ok h ts Vs Vb own rs Ab M G Db -> M !! q = Some meta -> own !! (q - 16) = Some len -> bm_size meta <= n -> n + 16 <= mapping_size n -> (4096 | mapping_size n) -> len <= mapping_size n ->
  mremap (q - 16) len (mapping_size n) (hp_kern h) = (Some a, k) ->
  a = q - 16 /\ exists t, RBTree.replace (hp_big h) q meta' = Ret (Some meta, t) /\ ok (set_big (set_kern h k) t) ts Vs Vb (<[q - 16 := mapping_size n]> own) rs Ab (<[q := meta']> M) G Db.
Proof using.
  intros meta' Hok Hq Hb Hle Hfit Hdiv Hlen Hm. set (nlen := mapping_size n) in *. set (base := q - 16) in *. pose proof Hok as [Hsm HB HL]. destruct (bi_own _ _ _ _ _ _ _ HB base len Hb) as (B1 & B2 & B3 & B4 & B5).
  pose proof (bi_whole _ _ _ _ _ _ _ HB) as HW. destruct (radix_process (KernelSpec0 := seen own) _ (wh_radix _ _ _ _ HW)) as (Hv & _ & HO). specialize (HO eq_refl).
  destruct (mremap_some base len nlen (hp_kern h) a k ltac:(lia) B2 B3 Hdiv Hv ltac:(intros x Hx; apply HO; by exists base, len) Hm) as (-> & H1 & H2 & H3). split; [done|]. set (own' := <[base := nlen]> own).
  destruct (replace_ok (KernelSpec0 := seen own) _ _ _ q meta' (bi_tree _ _ _ _ _ _ _ HB)) as (t & Hrep & HT). rewrite Hq in Hrep. rewrite Hq, decide_True in HT by eauto. exists t. split; [done|]. set (h' := set_big (set_kern h k) t).
  assert (Hap : forall b l y, own !! b = Some l -> b <= y < b + l -> base <= y < base + nlen -> b = base).
  { intros b l y Hl Hy Hy'. destruct (Z.ltb_spec y (base + len)); [by eapply (bi_apart _ _ _ _ _ _ _ HB b l base len y); [..|lia]|]. destruct (H2 y); [lia|]. apply HO. by exists b, l. }
  assert (Hob : forall y, own_bytes own' y <-> own_bytes own y \/ base <= y < base + nlen).
  { intros y. split.
    - intros (b & l & [[<- <-]|[Hne Hl]]%lookup_insert_Some & Hy); [by right|left; by exists b, l].
    - intros [(b & l & Hl & Hy)|Hy]; [|exists base, nlen; split; [apply lookup_insert_eq|done]]. destruct (decide (b = base)) as [->|Hne]; [exists base, nlen; split; [apply lookup_insert_eq|simplify_eq; lia]|exists b, l; unfold own'; by rewrite lookup_insert_ne]. }
  assert (Hsm' : forall x, smapped own (hp_kern h) x -> smapped own' k x).
  { intros x (Hx & Hn & _). split; [apply H3; by left|]. split; [|intros _ y [Hy|Hy]%Hob; apply H3; [left; by apply HO|by right]]. rewrite Hob. intros [|Hr]; [done|].
    destruct (Z.ltb_spec x (base + len)); [apply Hn; exists base, len; split; [done|lia]|by apply (H2 x); [lia|]]. }
  assert (Hwf : radix_wf (KernelSpec0 := seen own') (hp_radix h')) by (apply (radix_wf_view (seen own) (seen own') (hp_radix h) k); [apply HW|exact Hsm']).
  assert (HW' : whole (KernelSpec0 := seen own') (hp_buddy h') (hp_radix h') rs Ab) by (by eapply (whole_kept h h' own own')). constructor.
  - eapply (small_moved cfg cpus h h' ts Vs own rs G own' rs G); [exact Hsm|done|done|done| |exact Hsm'|exact Hwf|done|intros y Hy; split; [by eapply Hsm', region_seen|by left]].
    apply memory_same; [done|done|]. intros b Hg. destruct (big_heads _ _ _ _ _ _ _ _ _ _ _ _ b Hok Hg) as [Hbb Hh]. split; [|done]. destruct Hbb; [left; apply Hob; by left|by right].
  - constructor; [| |exact HW'|exact (tree_ok_view (seen own) (seen own') _ _ _ _ HT Hsm')|].
    + intros b l [[<- <-]|[Hne Hl]]%lookup_insert_Some; [split_and!; done || lia|by eapply (bi_own _ _ _ _ _ _ _ HB)].
    + intros b l b' l' y [[<- <-]|[Hne Hl]]%lookup_insert_Some [[<- <-]|[Hne' Hl']]%lookup_insert_Some Hy Hy'; [done|symmetry; by eapply Hap|by eapply Hap|by eapply (bi_apart _ _ _ _ _ _ _ HB)].
    + intros q' m' [[<- <-]|[Hne Hq']]%lookup_insert_Some; destruct (bi_entry _ _ _ _ _ _ _ HB _ _ ltac:(eassumption)) as [[E1 E2 E3 E4] Hg]; (split; [|done]).
      * constructor; [|apply lookup_insert_eq|done|done]. change (block_len cfg meta') with nlen. cbn [meta' bm_size]. lia.
      * constructor; try done. destruct (_ =? 0); [|done]. unfold own'. rewrite lookup_insert_ne; [done|]. unfold base. lia.
  - eapply (big_live_meta h); [exact HL|done|done|exact Hq|done].
Qed.
End Resize.
