(* ===== verification/HeapFull.v ===== *)
(** * The heap with requests of every size

    [full_ok] is the invariant of a heap whose live pointers are small or big; every
    call of the allocator keeps it. *)

From stdpp Require Import functions.
From S2P Require Import Prelude Types SizeClasses Kernel Binder Radix RadixProofs RBTree RBTreeProofs Buddy BuddyRep BuddyProofs BuddyGrow BuddySpec BuddyWhole PageAllocator PageProofs PageSpec Numa NumaSpec Predictor SList PendingQueue Rseq Bitmap SlabCache SlabProofs SlabSteal SlabSpec Heap BulkFill Alloc HeapFrame HeapInv HeapFill HeapOps Random GlobalAlloc Trim TrimProofs Realloc ReallocProofs HeapLive HeapStart HeapResize HeapSpec HeapView BigInv BigOps BigAlloc.

Ltac Zify.zify_post_hook ::= idtac.

(** A layout of the Rust interface: at most [isize::MAX] bytes, padding included. *)
Definition layout_ok (size align : Z) : Prop :=
  0 <= size /\ 0 < align /\ is_power_of_two align = true /\ size + align <= 2 ^ 63.

Section Full.
Context {K : Type} `{!Kernel K} {S : KernelSpec K} (cfg : config) (cpus : Z).
Implicit Types (h : heap K) (ts : gmap nat tls) (V Vs Vb : gmap Z (Z * Z)).

Abbreviation seen own := (view S (own_bytes own)).

Definition full_ok h ts V : Prop := exists Vs Vb own rs Ab M G Db, V = Vs ∪ Vb /\ big_ok cfg cpus h ts Vs Vb own rs Ab M G Db.

Definition full_allocated ts V (t : nat) (size align : Z) (r : outcome (Z * tls * heap K)) : Prop :=
  match r with
  | Ret (p, th', h') => if p =? null then full_ok h' (<[t := th']> ts) V else V !! p = None /\ full_ok h' (<[t := th']> ts) (<[p := (size, align)]> V)
  | Fatal e => e = VAIinitFailed \/ e = OutOfMemory
  | Stuck => False
  end.

(** A small live pointer is no big one. *)
Lemma small_not_big h ts Vs Vb own rs Ab M G Db p x : big_ok cfg cpus h ts Vs Vb own rs Ab M G Db -> Vs !! p = Some x -> Vb !! p = None.
Proof using. intros Hok Hp. pose proof (live_disjoint _ _ _ _ _ _ _ _ _ _ _ _ Hok) as Hd. by eapply map_disjoint_Some_l. Qed.

(** A request that a size class serves. *)
Lemma full_small h ts Vs Vb own rs Ab M G Db t size align r :
  big_ok cfg cpus h ts Vs Vb own rs Ab M G Db -> allocated (KernelSpec0 := seen own) (Fr := big_frame h own rs G) cfg cpus ts Vs t size align r ->
  full_allocated ts (Vs ∪ Vb) t size align r.
Proof using.
  intros Hok Hr. destruct r as [[[p th'] h']| |]; cbn [allocated full_allocated] in *; [|by left|done]. destruct (p =? null).
  - exists Vs, Vb, own, rs, Ab, M, G, Db. split; [done|]. by eapply big_ok_small.
  - destruct Hr as [Hn Hr]. pose proof (big_ok_small cfg cpus h h' ts _ Vs _ Vb own rs Ab M G Db Hok Hr) as Hok'.
    pose proof (small_not_big _ _ _ _ _ _ _ _ _ _ p _ Hok' (lookup_insert_eq _ _ _)) as Hb. split; [by apply lookup_union_None|]. rewrite insert_union_l. eexists _, _, own, rs, Ab, M, G, Db. done.
Qed.

(** A request that none does. *)
Lemma full_big ts Vs Vb t th size align r :
  ts !! t = Some th -> big_given cfg cpus ts Vs Vb size align r -> full_allocated ts (Vs ∪ Vb) t size align ('(p, h) ← r; Ret (p, th, h)).
Proof using.
  intros Ht Hr. destruct r as [[p h']| |]; cbn [big_given mbind outcome_bind full_allocated] in *; [|done..]. destruct Hr as (own' & rs' & Ab' & M' & G' & Db' & Hr). rewrite insert_id by done.
  destruct (p =? null); [by exists Vs, Vb, own', rs', Ab', M', G', Db'|]. destruct Hr as (V1 & V2 & Hr). split; [by apply lookup_union_None|]. rewrite insert_union_r by done. eexists _, _, own', rs', Ab', M', G', Db'. done.
Qed.

Section Calls.
Context (Harena : 0 <= ARENA_SIZE cfg <= 2 ^ 62) (Htag : 2 ^ 56 <= ALIGN_TAG cfg) (Hmagic : MAGIC cfg <> BIG_MAGIC cfg) (Hfreed : FREED_MAGIC cfg <> BIG_MAGIC cfg).

Lemma rs_alloc_full h ts V t th e size align :
  full_ok h ts V -> ts !! t = Some th -> env_ok cpus e -> 0 <= size <= 2 ^ 63 -> (align | 16) -> 0 < align -> is_power_of_two align = true -> full_allocated ts V t size align (rs_alloc cfg th h e size false).
Proof using Harena.
  clear Htag Hmagic Hfreed. intros (Vs & Vb & own & rs & Ab & M & G & Db & -> & Hok) Ht He Hs Hal Ha Hp. destruct (Z.leb_spec size 2097152) as [Hle|Hgt].
  - eapply full_small; [exact Hok|]. apply rs_alloc_live; try done; [apply Hok|lia].
  - unfold rs_alloc. rewrite no_class by lia. apply full_big; [done|]. eapply big_malloc_given; try done; [apply He|lia].
Qed.

Lemma memalign_full h ts V t th e al size align :
  full_ok h ts V -> ts !! t = Some th -> env_ok cpus e -> 0 <= size -> size + Z.max al 8 <= 2 ^ 63 -> is_power_of_two (Z.max al 8) = true ->
  (align | Z.max al 8) -> 0 < align -> is_power_of_two align = true -> full_allocated ts V t size align (memalign_inner cfg th h e al size).
Proof using Harena.
  clear Htag Hmagic Hfreed. intros (Vs & Vb & own & rs & Ab & M & G & Db & -> & Hok) Ht He Hs Hsum Hpal Hal Ha Hp. destruct (Z.leb_spec (size + Z.max al 8 + 16) 2097152) as [Hle|Hgt].
  - eapply full_small; [exact Hok|]. apply memalign_live; try done. apply Hok.
  - unfold memalign_inner. cbv zeta. rewrite Hpal. cbn [negb].
    pose proof (posix_align_big cfg cpus h ts Vs Vb own rs Ab M G Db th e (Z.max al 8) size align Hok (eo_cpu _ _ He) ltac:(lia) Hpal Hal Ha Hp Hs ltac:(lia) Hsum) as Hr.
    destruct (posix_align_inner _ _ _ _ _ _) as [[[r th'] h']| |]; cbn [mbind outcome_bind]; [|done..]. destruct Hr as (-> & _ & _ & Hr). apply (full_big ts Vs Vb t th size align (Ret (match r with inl p => p | inr _ => null end, h')) Ht Hr).
Qed.

Lemma alloc_full h ts V t th e size align :
  full_ok h ts V -> ts !! t = Some th -> env_ok cpus e -> layout_ok size align -> full_allocated ts V t size align (GlobalAlloc.alloc cfg th h e size align).
Proof using Harena.
  clear Htag Hmagic Hfreed. intros Hok Ht He (Hs & Ha & Hp & Hsum). unfold GlobalAlloc.alloc. destruct (Z.leb_spec align 16) as [Hle|Hgt].
  - apply (rs_alloc_full h); try done; [lia|]. apply small_align; [lia|done].
  - apply (memalign_full h); rewrite ?Z.max_l by lia; try done.
Qed.

Lemma free_full h ts V e p :
  full_ok h ts V -> is_Some (V !! p) -> env_ok cpus e ->
  match rs_free cfg h e p with
  | Ret h' => full_ok h' ts (delete p V)
  | Fatal er => er = VAIinitFailed
  | Stuck => False
  end.
Proof using All.
  intros (Vs & Vb & own & rs & Ab & M & G & Db & -> & Hok) [x Hp] He. apply lookup_union_Some_raw in Hp as [Hp|[Hn Hp]].
  - destruct (dealloc_live (KernelSpec0 := seen own) (Fr := big_frame h own rs G) cfg cpus Harena Htag h ts Vs e p (bo_small _ _ _ _ _ _ _ _ _ _ _ _ Hok) ltac:(eauto) He) as (h' & Hd & Hok' & _).
    unfold dealloc in Hd. rewrite Hd. rewrite delete_union, (delete_id Vb p) by (by eapply small_not_big). eexists _, _, own, rs, Ab, M, G, Db. split; [done|]. by eapply big_ok_small.
  - destruct x as [size align]. pose proof (rs_free_big cfg cpus h ts Vs Vb own rs Ab M G Db Hok e p size align Htag Hmagic Hp) as Hr. destruct (rs_free _ _ _ _) as [h'| |]; [|done..].
    destruct Hr as (own' & Ab' & M' & G' & Db' & Hr). rewrite delete_union, (delete_id Vs p) by done. by eexists _, _, own', rs, Ab', M', G', Db'.
Qed.

(** ** What the invariant says of the live pointers *)

(** No two share a byte. *)
Lemma full_apart h ts V p p' size size' align align' y :
  full_ok h ts V -> V !! p = Some (size, align) -> V !! p' = Some (size', align') -> p <= y < p + size -> p' <= y < p' + size' -> p = p'.
Proof using.
  clear Harena Htag Hmagic Hfreed. intros (Vs & Vb & own & rs & Ab & M & G & Db & -> & Hok) Hp Hp' Hy Hy'. pose proof (bo_big _ _ _ _ _ _ _ _ _ _ _ _ Hok) as HB.
  assert (Hmix : forall p p' size size' align align', Vs !! p = Some (size, align) -> Vb !! p' = Some (size', align') -> p <= y < p + size -> p' <= y < p' + size' -> False).
  { intros p1 p2 s1 s2 a1 a2 H1 H2 Hy1 Hy2. destruct (live_entry cfg cpus _ _ _ _ _ _ _ _ _ _ _ _ _ Hok H2) as (q & meta & _ & Hq & He & Hin & _ & Hfit & _). pose proof (en_size _ _ _ _ _ _ He).
    eapply (small_apart_big cfg cpus h ts Vs Vb own rs Ab M G Db p1 q meta y); try done; lia. }
  apply lookup_union_Some_raw in Hp as [Hp|[_ Hp]]; apply lookup_union_Some_raw in Hp' as [Hp'|[_ Hp']].
  - exact (live_apart (KernelSpec0 := seen own) (Fr := big_frame h own rs G) cfg cpus h ts Vs p p' size size' align align' y (bo_small _ _ _ _ _ _ _ _ _ _ _ _ Hok) Hp Hp' Hy Hy').
  - by destruct (Hmix p p' size size' align align').
  - by destruct (Hmix p' p size' size align' align).
  - destruct (live_entry cfg cpus _ _ _ _ _ _ _ _ _ _ _ _ _ Hok Hp) as (q & meta & Hd & _ & He & Hin & _ & Hfit & _). destruct (live_entry cfg cpus _ _ _ _ _ _ _ _ _ _ _ _ _ Hok Hp') as (q' & meta' & Hd' & _ & He' & Hin' & _ & Hfit' & _).
    pose proof (en_size _ _ _ _ _ _ He). pose proof (en_size _ _ _ _ _ _ He'). assert (q - 16 = q' - 16) by (eapply (entries_apart cfg h own rs Ab M G HB _ _ _ _ y He He'); lia).
    apply (bl_one _ _ _ _ _ _ (bo_live _ _ _ _ _ _ _ _ _ _ _ _ Hok) p p' q Hd). rewrite Hd'. f_equal. lia.
Qed.

(** Each is aligned, owned and mapped. *)
Lemma full_facts h ts V p size align :
  full_ok h ts V -> V !! p = Some (size, align) ->
  0 < p /\ (align | p) /\ p + size <= 2 ^ 47 /\ is_owned (hp_radix h) p = Ret true /\ forall y, p <= y < p + size -> mapped (hp_kern h) y.
Proof using Htag.
  clear Harena Hmagic Hfreed. intros (Vs & Vb & own & rs & Ab & M & G & Db & -> & Hok) Hp. apply lookup_union_Some_raw in Hp as [Hp|[_ Hp]].
  - pose proof (bo_small _ _ _ _ _ _ _ _ _ _ _ _ Hok) as (C & B & D & A & HI & HL). destruct (live_block (KernelSpec0 := seen own) _ _ _ _ _ _ _ _ _ _ _ _ HI HL Hp) as (a & c & _ & _ & HB & _ & Hs & Hal & Hin & Hfit).
    destruct (block_bytes (KernelSpec0 := seen own) _ _ _ _ _ _ _ _ _ _ _ p HI HB ltac:(lia)) as (H0 & _ & Hend & Ho & _). split_and!; [lia|done|lia|done|]. intros y Hy.
    by destruct (block_mapped (KernelSpec0 := seen own) (Fr := big_frame h own rs G) cfg cpus h ts C B A A ∅ a c y HI HB ltac:(lia)) as (? & _).
  - pose proof (bo_big _ _ _ _ _ _ _ _ _ _ _ _ Hok) as HB. destruct (live_entry cfg cpus _ _ _ _ _ _ _ _ _ _ _ _ _ Hok Hp) as (q & meta & _ & Hq & He & Hin & Hs & Hfit & (Hal & _) & _ & _).
    destruct (find_original_big cfg cpus _ _ _ _ _ _ _ _ _ _ Hok p size align Htag Hp) as (_ & _ & _ & _ & _ & _ & _ & _ & [Ho _ _ _ _ _]). destruct (entry_place cfg h own rs Ab M G HB _ _ He) as (P1 & _ & P3 & Hpl).
    pose proof (en_size _ _ _ _ _ _ He). split_and!; [lia|done|lia|done|]. intros y Hy. destruct (radix_process (KernelSpec0 := seen own) _ (big_radix cfg cpus _ _ _ _ _ _ _ _ _ _ Hok)) as (_ & _ & HO).
    specialize (Hpl y ltac:(lia)). destruct (_ =? 0); [by apply HO|]. by destruct (region_seen cfg h own rs Ab M G HB y Hpl) as (? & _).
Qed.

(** ** Second releases and usable sizes *)

(** The header behind [p] is that of a small block in use. *)
Definition small_pointer h (p : Z) : Prop := exists q x, find_original_ptr cfg h p = Ret q /\ get_header h (get_actual_header q) = Ret x /\ h_magic x = MAGIC cfg.

Lemma free_again_full h ts V e e' p :
  full_ok h ts V -> is_Some (V !! p) -> small_pointer h p -> env_ok cpus e -> MAGIC cfg <> FREED_MAGIC cfg -> (h' ← dealloc cfg h e p; dealloc cfg h' e' p) = Fatal DoubleFree.
Proof using All.
  intros (Vs & Vb & own & rs & Ab & M & G & Db & -> & Hok) [[size align] Hp] (q & x & Hf & Hx & Hm) He Hd. apply lookup_union_Some_raw in Hp as [Hp|[_ Hp]].
  - destruct (dealloc_live (KernelSpec0 := seen own) (Fr := big_frame h own rs G) cfg cpus Harena Htag h ts Vs e p (bo_small _ _ _ _ _ _ _ _ _ _ _ _ Hok) ltac:(eauto) He) as (h' & Hr & _ & Hagain).
    rewrite Hr. cbn [mbind outcome_bind]. apply Hagain; congruence.
  - destruct (find_original_big cfg cpus _ _ _ _ _ _ _ _ _ _ Hok p size align Htag Hp) as (q' & meta & _ & _ & _ & _ & _ & _ & [_ B2 B3 (x' & B4 & B5) _ _]). rewrite B2 in Hf. injection Hf as <-. rewrite B3, B4 in Hx. injection Hx as <-. congruence.
Qed.

Lemma usable_full h ts V p size align :
  full_ok h ts V -> V !! p = Some (size, align) ->
  exists n, usable_size cfg h p = Ret n /\ size <= n /\ 0 < n /\ forall p' size' align' y, V !! p' = Some (size', align') -> p <= y < p + n -> p' <= y < p' + size' -> p' = p.
Proof using Htag Hmagic Hfreed.
  clear Harena. intros (Vs & Vb & own & rs & Ab & M & G & Db & -> & Hok) Hp. pose proof Hok as [(C & B & D & A & HI & HL) HB _]. apply lookup_union_Some_raw in Hp as [Hp|[_ Hp]].
  - destruct (live_block (KernelSpec0 := seen own) _ _ _ _ _ _ _ _ _ _ _ _ HI HL Hp) as (a & c & Hd & _ & HBa & Hpt & Hs & _ & Hin & Hfit). exists (a + block_size_of c - p).
    split; [by apply (usable_size_ok (KernelSpec0 := seen own) (Fr := big_frame h own rs G) cfg cpus h ts C B A A a c p Htag)|]. split_and!; [lia|lia|]. intros p' size' align' y Hp' Hy Hy'. apply lookup_union_Some_raw in Hp' as [Hp'|[_ Hp']].
    + destruct (live_block (KernelSpec0 := seen own) _ _ _ _ _ _ _ _ _ _ _ _ HI HL Hp') as (a' & c' & Hd' & _ & HB' & _ & _ & _ & Hin' & Hfit').
      apply (lv_one _ _ _ _ _ _ _ HL p' p a); [|done]. rewrite Hd'. f_equal. symmetry. eapply (blocks_apart h C B a a' c c' y); [apply HI|done|done|lia|lia].
    + exfalso. destruct (live_entry cfg cpus _ _ _ _ _ _ _ _ _ _ _ _ _ Hok Hp') as (q & meta & _ & Hq & He & Hin' & _ & Hfit' & _). pose proof (en_size _ _ _ _ _ _ He).
      apply (block_not_framed (KernelSpec0 := seen own) cfg cpus h ts C B A A ∅ a c y HI HBa); [lia|]. eapply (entry_bytes cfg cpus); [exact Hok|exact Hq|lia].
  - destruct (usable_size_big cfg cpus _ _ _ _ _ _ _ _ _ _ Hok p size align Htag Hp) as (q & meta & Hd & Hq & Hu & Hle & Hlt). exists (q + bm_size meta - p). split; [done|]. split_and!; [lia|lia|]. intros p' size' align' y Hp' Hy Hy'.
    destruct (live_entry cfg cpus _ _ _ _ _ _ _ _ _ _ _ _ _ Hok Hp) as (q1 & meta1 & Hd1 & Hq1 & He & Hin & _). simplify_eq. pose proof (en_size _ _ _ _ _ _ He) as Hsz. apply lookup_union_Some_raw in Hp' as [Hp'|[_ Hp']].
    + exfalso. eapply (small_apart_big cfg cpus h ts Vs Vb own rs Ab M G Db p' q meta y); try done; lia.
    + destruct (live_entry cfg cpus _ _ _ _ _ _ _ _ _ _ _ _ _ Hok Hp') as (q' & meta' & Hd' & _ & He' & Hin' & _ & Hfit' & _). pose proof (en_size _ _ _ _ _ _ He').
      assert (q - 16 = q' - 16) by (eapply (entries_apart cfg h own rs Ab M G HB _ _ _ _ y He He'); lia). apply (bl_one _ _ _ _ _ _ (bo_live _ _ _ _ _ _ _ _ _ _ _ _ Hok) p' p q'); [done|]. rewrite Hd. f_equal. lia.
Qed.

(** ** The other calls *)

(** A step of the small blocks that keeps the small pointers. *)
Lemma full_kept h h' ts ts' V :
  full_ok h ts V -> (forall (S1 : KernelSpec K) (Fr : frame) Vs, heap_ok (KernelSpec0 := S1) (Fr := Fr) cfg cpus h ts Vs -> heap_ok (KernelSpec0 := S1) (Fr := Fr) cfg cpus h' ts' Vs) -> full_ok h' ts' V.
Proof using.
  clear Harena Htag Hmagic Hfreed. intros (Vs & Vb & own & rs & Ab & M & G & Db & -> & Hok) Hs. exists Vs, Vb, own, rs, Ab, M, G, Db. split; [done|]. eapply big_ok_small; [exact Hok|]. apply Hs, Hok.
Qed.

Lemma full_exit h ts V t th : full_ok h ts V -> ts !! t = Some th -> exists th' h', thread_exit th h = Ret (th', h') /\ full_ok h' (delete t ts) V.
Proof using Harena.
  clear Htag Hmagic Hfreed. intros Hok Ht. destruct Hok as (Vs & Vb & own & rs & Ab & M & G & Db & -> & Hok).
  destruct (exit_live (KernelSpec0 := seen own) (Fr := big_frame h own rs G) cfg cpus Harena h ts Vs t th (bo_small _ _ _ _ _ _ _ _ _ _ _ _ Hok) Ht) as (th' & h' & Hr & Hok'). exists th', h'. split; [done|].
  exists Vs, Vb, own, rs, Ab, M, G, Db. split; [done|]. by eapply big_ok_small.
Qed.

(** ** Zeroed requests *)

Definition full_zeroed ts V (t : nat) m (n : Z) (r : outcome (Z * tls * heap K * (Z -> Z))) : Prop :=
  match r with
  | Ret (p, th', h', m') =>
      if p =? null then full_ok h' (<[t := th']> ts) V /\ m' = m
      else V !! p = None /\ full_ok h' (<[t := th']> ts) (<[p := (n, 16)]> V) /\
        (n <= 2097152 -> forall y, p <= y < p + n -> m' y = 0) /\ forall q sz al y, V !! q = Some (sz, al) -> q <= y < q + sz -> m' y = m y
  | Fatal e => e = VAIinitFailed \/ e = OutOfMemory
  | Stuck => False
  end.

(** Bytes that are not in the new pointer are not in another one. *)
Lemma zeroed_apart h' ts V (m m' : Z -> Z) p n :
  V !! p = None -> full_ok h' ts (<[p := (n, 16)]> V) -> (forall y, ~ p <= y < p + n -> m' y = m y) -> forall q sz al y, V !! q = Some (sz, al) -> q <= y < q + sz -> m' y = m y.
Proof using.
  clear Harena Htag Hmagic Hfreed. intros Hn Hok Hm q sz al y Hq Hy. apply Hm. intros Hy'. assert (q <> p) by congruence. assert (q = p); [|done].
  eapply (full_apart h' ts _ q p sz n al 16 y Hok); [by rewrite lookup_insert_ne|apply lookup_insert_eq|done|done].
Qed.

(** A new big block has metadata and a header. *)
Lemma big_fresh h ts Vs Vb own rs Ab M G Db cpu n p h' :
  big_ok cfg cpus h ts Vs Vb own rs Ab M G Db -> 0 <= cpu < cpus -> 0 <= n <= 2 ^ 63 -> big_malloc cfg h cpu n false = Ret (p, h') -> p <> null ->
  exists meta x, RBTree.get (hp_big h') p = Ret (Some meta) /\ bm_size meta = n /\ get_header h' (get_actual_header p) = Ret x.
Proof using.
  clear Harena Htag Hmagic Hfreed. intros Hok Hcpu Hn Hr Hp. pose proof (big_malloc_served cfg cpus h ts Vs Vb own rs Ab M G Db cpu n false Hok Hcpu ltac:(lia)) as Hm. rewrite Hr in Hm. cbn [big_served] in Hm.
  destruct Hm as (own' & rs' & Ab' & G' & Hm). destruct (Z.eqb_spec p null); [done|]. destruct Hm as (meta & _ & Hsz & _ & Hok'). pose proof (bo_big _ _ _ _ _ _ _ _ _ _ _ _ Hok') as HB.
  assert (Hq : <[p := meta]> M !! p = Some meta) by apply lookup_insert_eq. destruct (bi_entry _ _ _ _ _ _ _ HB p meta Hq) as [He Hg]. destruct (entry_place cfg h' own' rs' Ab' _ G' HB _ _ He) as (P1 & _ & P3 & _). pose proof (en_size _ _ _ _ _ _ He).
  destruct (heads_ok cfg cpus h' ts Vs own' rs' G' (p - 16) _ (bo_small _ _ _ _ _ _ _ _ _ _ _ _ Hok') eq_refl Hg) as (_ & x & Hx & _). exists meta, x.
  split; [by rewrite (get_ok _ _ _ p (bi_tree _ _ _ _ _ _ _ HB)), Hq|]. split; [done|]. change (get_actual_header p) with (wsub p 16). rewrite wsub_small by lia. unfold get_header. by rewrite Hx.
Qed.

Lemma calloc_full h ts V t th e m size nmemb :
  full_ok h ts V -> ts !! t = Some th -> env_ok cpus e -> 0 <= size -> 0 <= nmemb -> nmemb * size <= 2 ^ 63 -> full_zeroed ts V t m (Z.max (nmemb * size) 1) (rs_calloc cfg th h e m size nmemb).
Proof using Harena Hmagic.
  clear Htag Hfreed. intros Hfull Ht He Hs Hn Hsum. pose proof Hfull as (Vs & Vb & own & rs & Ab & M & G & Db & HV & Hok). set (n := Z.max (nmemb * size) 1). destruct (Z.leb_spec (nmemb * size) 2097152) as [Hle|Hgt].
  - pose proof (rs_calloc_live (KernelSpec0 := seen own) (Fr := big_frame h own rs G) cfg cpus Harena Hmagic h ts Vs t th e m size nmemb 16 (bo_small _ _ _ _ _ _ _ _ _ _ _ _ Hok) Ht He Hs Hn Hle ltac:(by exists 1) ltac:(lia) ltac:(done)) as Hr. fold n in Hr.
    destruct (rs_calloc _ _ _ _ _ _ _) as [[[[p th'] h'] m']| |]; cbn [full_zeroed]; [|by left|done].
    assert (Ha : full_allocated ts (Vs ∪ Vb) t n 16 (Ret (p, th', h'))) by (eapply full_small; [exact Hok|]; cbn [allocated]; destruct (p =? null); tauto). cbn [full_allocated] in Ha. rewrite <- HV in Ha.
    destruct (p =? null); [by destruct Hr as [_ ->]|]. destruct Ha as [Hnone Ha]. destruct Hr as (_ & _ & Hz & Hout & _). split_and!; try done. by eapply zeroed_apart.
  - unfold rs_calloc, layout_array. destruct (Z.leb_spec size (2 ^ 63 - 1)); [|cbn [full_zeroed Z.eqb]; rewrite insert_id by done; done]. unfold calc_and_get, checked_mul. destruct (Z.ltb_spec (nmemb * size) (2 ^ 64)); [|lia]. cbv zeta. fold n.
    pose proof (rs_alloc_full h ts V t th e n 16 Hfull Ht He ltac:(lia) ltac:(by exists 1) ltac:(lia) ltac:(done)) as Ha. unfold rs_alloc in *. rewrite no_class in * by lia.
    pose proof (big_fresh h ts Vs Vb own rs Ab M G Db (e_cpu e) n) as Hf. destruct (big_malloc cfg h (e_cpu e) n false) as [[p h']| |]; cbn [mbind outcome_bind full_allocated full_zeroed] in *; [|done..].
    destruct (Z.eqb_spec p null) as [->|Hp]; [done|]. destruct Ha as [Hnone Ha]. destruct (Hf p h' Hok (eo_cpu _ _ He) ltac:(lia) eq_refl Hp) as (meta & x & Hg & Hsz & Hx). rewrite no_class by lia. rewrite Hg. cbn [mbind outcome_bind].
    unfold calloc_zero. rewrite Hx, Hsz, Z.min_id. cbn [mbind outcome_bind full_zeroed]. destruct (Z.eqb_spec p null) as [|_]; [done|]. split_and!; try done; [lia|]. eapply (zeroed_apart h'); [done|exact Ha|]. intros y Hy. destruct (_ || _); [|done].
    unfold zero. destruct (Z.leb_spec p y); [|done]. destruct (Z.ltb_spec y (p + n)); [lia|done].
Qed.
End Calls.

(** ** The start *)

Lemma own_none y : ~ own_bytes ∅ y.
Proof using. by intros (b & l & Hb & _). Qed.

Lemma view_none k y : @mapped K _ (seen ∅) k y <-> mapped k y.
Proof using. split; [by intros (? & _)|]. intros Hy. split_and!; [done|apply own_none|]. intros _ z Hz. by destruct (own_none z). Qed.
End Full.

Lemma start_full {K} `{!Kernel K} `{!KernelSpec K} (cfg : config) (m : machine) (h : heap K) : fresh_heap m h -> full_ok cfg (get_max_cpu (get_nprocs_conf m)) h ∅ ∅.
Proof.
  intros Hf. destruct (fh_buddy _ _ Hf) as [rs HW]. pose proof (wh_radix _ _ _ _ HW) as Hwf.
  assert (Hwf' : radix_wf (KernelSpec0 := view _ (own_bytes ∅)) (hp_radix h)) by (apply (radix_wf_view KernelSpec0 (view _ _) (hp_radix h) (hp_kern h) Hwf); intros x Hx; by apply view_none).
  assert (HW' : whole (KernelSpec0 := view _ (own_bytes ∅)) (hp_buddy h) (hp_radix h) rs (fun _ => ∅)) by (apply (whole_view KernelSpec0 (view _ _) _ _ _ _ _ HW Hwf'); [intros x Hx; by apply view_none|done]).
  assert (Hreg : forall y, region_bytes rs y -> mapped (hp_kern h) y) by (intros y (r & b & t & Hin & Hy); by apply (ro_bytes _ _ _ _ _ _ (wh_region _ _ _ _ HW _ _ _ Hin) y)).
  exists ∅, ∅, ∅, rs, (fun _ => ∅), ∅, ∅, ∅. split; [by rewrite (left_id_L ∅ (∪))|]. constructor.
  - apply fresh_heap_ok; try done. intros y [Hy|Hy]; [by destruct (own_none y)|]. by apply view_none, Hreg. destruct (fh_mem _ _ Hf) as [_ Hr]. intros y _. cbn. by rewrite Hr.
  - constructor; [done|done|done| |done]. rewrite (fh_big _ _ Hf). apply RBTree_new_ok. apply view_none. exact (radix_process (hp_radix h) Hwf).
  - constructor; [done|done|done].
Qed.
