(* ===== verification/FullResize.v ===== *)
(** * Resizing pointers of every size

    [rs_realloc] of a live pointer, small or big, to a size of any kind. *)

From stdpp Require Import functions.
From S2P Require Import Prelude Types SizeClasses Kernel Binder Radix RadixProofs RBTree RBTreeProofs Buddy BuddyRep BuddyProofs BuddyGrow BuddySpec BuddyWhole PageAllocator PageProofs PageSpec Numa NumaSpec Predictor SList PendingQueue Rseq Bitmap SlabCache SlabProofs SlabSteal SlabSpec Heap BulkFill Alloc HeapFrame HeapInv HeapFill HeapOps Random GlobalAlloc Trim TrimProofs Realloc ReallocProofs HeapLive HeapStart HeapResize HeapSpec HeapView BigInv BigOps BigAlloc BigResize HeapFull.

Ltac Zify.zify_post_hook ::= idtac.

Section Resize.
Context {K : Type} `{!Kernel K} {S : KernelSpec K} (cfg : config) (cpus : Z).
Context (Harena : 0 <= ARENA_SIZE cfg <= 2 ^ 62) (Htag : 2 ^ 56 <= ALIGN_TAG cfg) (Hmagic : MAGIC cfg <> BIG_MAGIC cfg) (Hfreed : FREED_MAGIC cfg <> BIG_MAGIC cfg).
Implicit Types (h : heap K) (ts : gmap nat tls) (V Vs Vb : gmap Z (Z * Z)) (m : Z -> Z).

Abbreviation seen own := (view S (own_bytes own)).
Abbreviation ok := (full_ok cfg cpus).

(** The live pointer [p] of [size] bytes has become one of [n] bytes, with its
    contents, or the request was refused; the other pointers keep theirs. *)
Definition full_resized ts V (t : nat) m (p size align n : Z) (r : outcome (Z * tls * heap K * (Z -> Z))) : Prop :=
  match r with
  | Ret (p', th', h', m') =>
      if p' =? null then ok h' (<[t := th']> ts) V /\ m' = m
      else ok h' (<[t := th']> ts) (<[p' := (n, align)]> (delete p V)) /\ (p' = p \/ V !! p' = None) /\
        (forall i, 0 <= i < Z.min size n -> m' (p' + i) = m (p + i)) /\
        forall q sz al y, q <> p -> V !! q = Some (sz, al) -> q <= y < q + sz -> m' y = m y
  | Fatal e => e = VAIinitFailed \/ e = OutOfMemory
  | Stuck => False
  end.

(** Where the pointer is. *)
Lemma full_in_place h' ts V t th m p size align n :
  ts !! t = Some th -> V !! p = Some (size, align) -> 0 < p -> ok h' ts (<[p := (n, align)]> V) -> full_resized ts V t m p size align n (Ret (p, th, h', m)).
Proof using.
  clear Harena Htag Hmagic Hfreed. intros Ht Hp H0 Hok. cbn [full_resized]. destruct (Z.eqb_spec p null) as [->|_]; [done|]. rewrite insert_id by done. rewrite insert_delete_eq. split; [done|]. split; [by left|]. done.
Qed.

(** A new pointer takes the contents over and the old one is released. *)
Lemma full_by_move ts V t e m p size align n old (r : outcome (Z * tls * heap K)) :
  V !! p = Some (size, align) -> env_ok cpus e -> full_allocated cfg cpus ts V t n align r -> size <= old ->
  full_resized ts V t m p size align n
    ('(new, th, h) ← r;
     if new =? null then Ret (null, th, h, m)
     else
       let m := copy_nonoverlapping m p new (Z.min old n) in
       h ← rs_free cfg h e p;
       Ret (new, th, h, m)).
Proof using All.
  intros Hp He Hr Hold. destruct r as [[[new th1] h1]| |]; cbn [mbind outcome_bind full_allocated] in *; [|done..].
  destruct (Z.eqb_spec new null) as [->|Hnew]; [done|]. destruct Hr as [Hfresh Hok1]. assert (Hne : p <> new) by congruence. cbv zeta.
  assert (Hp1 : (<[new := (n, align)]> V : gmap Z (Z * Z)) !! p = Some (size, align)) by (by rewrite lookup_insert_ne).
  pose proof (free_full cfg cpus Harena Htag Hmagic Hfreed h1 _ _ e p Hok1 ltac:(eauto) He) as Hf. destruct (rs_free cfg h1 e p) as [h2| |]; cbn [mbind outcome_bind full_resized]; [|by left|done].
  destruct (Z.eqb_spec new null) as [|_]; [done|]. rewrite delete_insert_ne in Hf by done. split; [done|]. split; [by right|]. unfold copy_nonoverlapping. split.
  - intros i Hi. destruct (Z.leb_spec new (new + i)); [|lia]. destruct (Z.ltb_spec (new + i) (new + Z.min old n)); [|lia]. cbn [andb]. f_equal. lia.
  - intros q sz al y Hq HV Hy. destruct (Z.leb_spec new y); [|done]. destruct (Z.ltb_spec y (new + Z.min old n)); [|done]. exfalso.
    assert (q <> new) by congruence. assert (q = new); [|done]. eapply (full_apart cfg cpus h1 _ _ q new sz n al align y Hok1); [by rewrite lookup_insert_ne|by rewrite lookup_insert_eq|lia|lia].
Qed.

Lemma move_full h ts V t th e m p size align n old :
  ok h ts V -> ts !! t = Some th -> env_ok cpus e -> V !! p = Some (size, align) -> (align | 16) -> 0 < align -> is_power_of_two align = true -> 0 < n <= 2 ^ 62 -> size <= old ->
  full_resized ts V t m p size align n (move_block cfg th h e m p old n).
Proof using All. intros Hok Ht He Hp Hal Ha Hpow Hn Hold. apply full_by_move; try done. apply (rs_alloc_full cfg cpus Harena h); try done. lia. Qed.

(** ** Small pointers *)

(** A step of the small blocks. *)
Lemma full_resized_small h ts Vs Vb own rs Ab M G Db t m p size align n r :
  big_ok cfg cpus h ts Vs Vb own rs Ab M G Db -> Vs !! p = Some (size, align) ->
  resized (KernelSpec0 := seen own) (Fr := big_frame h own rs G) cfg cpus ts Vs t m p size align n r -> full_resized ts (Vs ∪ Vb) t m p size align n r.
Proof using.
  clear Harena Htag Hmagic Hfreed. intros Hok Hp Hr. pose proof (small_not_big _ _ _ _ _ _ _ _ _ _ _ _ p _ Hok Hp) as Hb. destruct r as [[[[p' th'] h'] m']| |]; cbn [resized full_resized] in *; [|by left|done]. destruct (p' =? null).
  - destruct Hr as [Hr ->]. split; [|done]. exists Vs, Vb, own, rs, Ab, M, G, Db. split; [done|]. by eapply big_ok_small.
  - destruct Hr as (Hr & Hnew & Hc & Hout & Hoth). pose proof (big_ok_small cfg cpus h h' ts _ Vs _ Vb own rs Ab M G Db Hok Hr) as Hok'. pose proof (small_not_big _ _ _ _ _ _ _ _ _ _ _ _ p' _ Hok' (lookup_insert_eq _ _ _)) as Hb'.
    assert (HV : <[p' := (n, align)]> (delete p (Vs ∪ Vb)) = <[p' := (n, align)]> (delete p Vs) ∪ Vb) by (rewrite delete_union, (delete_id Vb p) by done; apply insert_union_l).
    assert (Hfull : ok h' (<[t := th']> ts) (<[p' := (n, align)]> (delete p (Vs ∪ Vb)))) by (rewrite HV; eexists _, _, own, rs, Ab, M, G, Db; done).
    split; [done|]. split; [destruct Hnew as [->|Hnew]; [by left|right; by apply lookup_union_None]|]. split; [done|]. intros q sz al y Hq Hv Hy. apply Hout. intros Hy'. assert (q = p') as ->.
    { destruct (decide (q = p')) as [|Hne]; [done|]. eapply (full_apart cfg cpus h' _ _ q p' sz n al align y Hfull); [rewrite lookup_insert_ne, lookup_delete_ne by done; done|apply lookup_insert_eq|done|done]. }
    destruct Hnew as [->|Hnew]; [done|]. rewrite lookup_union_r in Hv by done. congruence.
Qed.

Lemma observed_alignment_le p : 0 < p < 2 ^ 47 -> observed_alignment p <= 2 ^ 47.
Proof using.
  clear Harena Htag Hmagic Hfreed. intros Hp. destruct (trailing_zeros_spec p) as (H1 & _ & H3); [lia|]. unfold observed_alignment, wshl. rewrite Z.shiftl_1_l. set (t := trailing_zeros p) in *.
  assert (t < 47). { destruct (Z.ltb_spec t 47); [done|]. exfalso. rewrite Z.bits_above_log2 in H3; [done|lia|]. apply Z.log2_lt_pow2; [lia|]. eapply Z.lt_le_trans; [apply Hp|]. by apply Z.pow_le_mono_r. }
  etrans; [apply Z.mod_le; [apply Z.pow_nonneg; lia|lia]|]. apply Z.pow_le_mono_r; lia.
Qed.

(** A pointer inside its block that needs more than there is. *)
Lemma aligned_move_full h ts V t th e m p size align n old :
  ok h ts V -> ts !! t = Some th -> env_ok cpus e -> V !! p = Some (size, align) -> 0 < p < 2 ^ 47 -> (align | p) -> 0 < align -> is_power_of_two align = true -> 0 < n <= 2 ^ 62 -> size <= old ->
  full_resized ts V t m p size align n
    ('(new, th, h) ← memalign_inner cfg th h e (observed_alignment p) n;
     if new =? null then Ret (null, th, h, m)
     else
       let m := copy_nonoverlapping m p new (Z.min old n) in
       h ← rs_free cfg h e p;
       Ret (new, th, h, m)).
Proof using All.
  intros Hok Ht He Hp H0 Hal Ha Hpow Hn Hold. destruct (observed_alignment_ok p align) as [Hpo Hdiv]; [lia|done|done|done|]. pose proof (observed_alignment_le p H0). apply full_by_move; try done.
  apply (memalign_full cfg cpus Harena h); try done; lia.
Qed.

Lemma realloc_small h ts Vs Vb own rs Ab M G Db t th e m p size align n :
  big_ok cfg cpus h ts Vs Vb own rs Ab M G Db -> ts !! t = Some th -> env_ok cpus e -> Vs !! p = Some (size, align) -> 0 < n <= 2 ^ 62 ->
  full_resized ts (Vs ∪ Vb) t m p size align n (rs_realloc cfg th h e m p n).
Proof using All.
  intros Hok Ht He Hp Hn. pose proof Hok as [Hsm _ _]. pose proof Hsm as (C & B & D & A & HI & HL). destruct (live_placed _ _ _ _ _ _ _ _ _ _ HL Hp) as (a & Ha & HA & [P1 P2 [P3 P3'] P4 (c & HB & Hpt & Hfit)]).
  destruct (find_original_ok (KernelSpec0 := seen own) _ _ _ _ _ _ _ _ _ _ _ _ Htag HI HB Hpt) as (Ho & Hf & Hg & H0 & Hend). pose proof (block_class _ _ _ _ _ _ _ _ _ _ _ HI HB) as Hc. pose proof (points_inside _ _ _ _ _ Hc Hpt) as Hin.
  assert (Hfull : ok h ts (Vs ∪ Vb)) by (by exists Vs, Vb, own, rs, Ab, M, G, Db). assert (Hpv : (Vs ∪ Vb) !! p = Some (size, align)) by (by apply lookup_union_Some_l).
  destruct (Z.eqb_spec (a + 16) p) as [E|E]; [destruct (Z.leb_spec n 2097152)|].
  - eapply full_resized_small; [exact Hok|done|]. apply (rs_realloc_live (KernelSpec0 := seen own)); try done. split; [lia|]. left. by rewrite Hf, E.
  - unfold rs_realloc. destruct (Z.eqb_spec p null) as [|_]; [lia|]. destruct (Z.eqb_spec n 0) as [|_]; [lia|]. rewrite Ho. cbn [mbind outcome_bind]. rewrite Hf. cbn [mbind outcome_bind]. rewrite E, Z.eqb_refl. cbn [negb].
    rewrite <- E, Hg. destruct (block_header (KernelSpec0 := seen own) _ _ _ _ _ _ _ _ _ _ _ HI HB) as (x & Hx & (Hxc & Hmg & _)). assert (Hget : get_header h a = Ret x) by (unfold get_header; by rewrite Hx). rewrite Hget. cbn [mbind outcome_bind].
    rewrite decide_True in Hmg by done. rewrite Hmg. destruct (Z.eqb_spec (MAGIC cfg) (BIG_MAGIC cfg)); [done|]. unfold small_realloc. rewrite Hg, Hget. cbn [mbind outcome_bind]. rewrite Hxc, (class_entry c Hc). cbn [from_option mbind outcome_bind].
    destruct (class_facts_of c Hc) as [F1 _ F3 _ _ _ _]. destruct (Z.leb_spec n (class_size c)); [lia|]. rewrite no_class by lia. rewrite E. apply move_full; try done; [apply P4; lia|lia].
  - unfold rs_realloc. destruct (Z.eqb_spec p null) as [|_]; [lia|]. destruct (Z.eqb_spec n 0) as [|_]; [lia|]. rewrite Ho. cbn [mbind outcome_bind]. rewrite Hf. cbn [mbind outcome_bind]. destruct (Z.eqb_spec (a + 16) p); [done|]. cbn [negb].
    unfold aligned_realloc. rewrite (usable_size_ok (KernelSpec0 := seen own) (Fr := big_frame h own rs G) cfg cpus h ts C B A A a c p Htag ltac:(congruence) ltac:(congruence) HI HB Hpt). cbn [mbind outcome_bind]. destruct (Z.leb_spec n (a + block_size_of c - p)) as [Hle|Hgt].
    + eapply full_resized_small; [exact Hok|done|]. eapply (resized_in_place (KernelSpec0 := seen own) cfg cpus h h); try done; [by rewrite insert_id| |lia]. constructor; [lia|done|done|done|]. exists c. split; [done|]. split; [done|lia].
    + apply (aligned_move_full h); try done; lia.
Qed.

(** ** Big pointers *)

(** The payload has become large enough. *)
Lemma big_in_place h ts Vs Vb own rs Ab M G Db t th m p q meta size align n :
  big_ok cfg cpus h ts Vs Vb own rs Ab M G Db -> ts !! t = Some th -> Vs !! p = None -> Vb !! p = Some (size, align) -> Db !! p = Some q -> M !! q = Some meta -> 0 < p -> 0 <= n -> p + n <= q + bm_size meta ->
  full_resized ts (Vs ∪ Vb) t m p size align n (Ret (p, th, h, m)).
Proof using.
  clear Harena Htag Hmagic Hfreed. intros Hok Ht Hs Hp Hd Hq H0 Hn Hfit. apply full_in_place; [done|by rewrite lookup_union_r|done|]. rewrite insert_union_r by done. eexists _, _, own, rs, Ab, M, G, Db. split; [done|]. by eapply live_sized.
Qed.

Lemma big_grow_full h ts Vs Vb own rs Ab M G Db t th e m p meta size align n :
  big_ok cfg cpus h ts Vs Vb own rs Ab M G Db -> ts !! t = Some th -> env_ok cpus e -> Vs !! p = None -> Vb !! p = Some (size, align) -> Db !! p = Some p -> M !! p = Some meta ->
  size <= bm_size meta -> bm_size meta < n -> n <= 2 ^ 62 -> (align | 16) -> 0 < align -> is_power_of_two align = true ->
  full_resized ts (Vs ∪ Vb) t m p size align n (big_realloc_grow cfg th h e m p n (n + 16) meta).
Proof using All.
  intros Hok Ht He Hs Hp Hd Hq Hsz Hgt Hn Hal Ha Hpow. pose proof (bo_big _ _ _ _ _ _ _ _ _ _ _ _ Hok) as HB. destruct (bi_entry _ _ _ _ _ _ _ HB p meta Hq) as [Hen _]. destruct (entry_place cfg h own rs Ab M G HB _ _ Hen) as (P1 & _ & P3 & _).
  destruct (en_size _ _ _ _ _ _ Hen) as [S1 S2]. destruct (mapping_fits cfg n ltac:(lia)) as (F1 & F2 & _). assert (Hpv : (Vs ∪ Vb) !! p = Some (size, align)) by (by rewrite lookup_union_r).
  assert (Hmove : forall h' own' Ab' M', big_ok cfg cpus h' ts Vs Vb own' rs Ab' M' G Db -> full_resized ts (Vs ∪ Vb) t m p size align n (move_block cfg th h' e m p (bm_size meta) n)).
  { intros h' own' Ab' M' Hok'. apply move_full; try done; [by exists Vs, Vb, own', rs, Ab', M', G, Db|lia]. }
  unfold big_realloc_grow. change (wsub p Header_SIZE) with (wsub p 16). change (wadd (bm_size meta) Header_SIZE) with (wadd (bm_size meta) 16). rewrite wsub_small, wadd_small by lia. cbv zeta.
  pose proof (en_home _ _ _ _ _ _ Hen) as Hh. unfold block_len in *. destruct (Z.eqb_spec (bm_buddy_region meta) 0) as [E|E]; cbn [negb andb].
  - destruct (mremap (p - 16) _ _ (hp_kern h)) as [[a|] k] eqn:Hm; cbn [mbind outcome_bind].
    + pose proof (estimate_mono cfg (bm_size meta + 16) (n + 16) ltac:(lia) ltac:(lia) ltac:(lia)) as Hle.
      destruct (mapping_remapped cfg cpus h ts Vs Vb own rs Ab M G Db p meta _ a k n (trailing_zeros (next_power_of_two (estimate_and_align_2mb cfg (n + 16)))) Hok Hq Hh ltac:(lia) F1 F2 Hle Hm) as (-> & t' & Hrep & Hok').
      change (hp_big (set_kern h k)) with (hp_big h). rewrite Hrep. cbn [mbind outcome_bind]. change (walk_header (p - 16)) with (wadd (p - 16) 16). rewrite wadd_small by lia. replace (p - 16 + 16) with p by lia.
      eapply big_in_place; [exact Hok'|done|done|done|exact Hd|apply lookup_insert_eq|lia|lia|cbn; lia].
    + apply (Hmove _ own Ab M). apply kernel_kept_ok; [done|]. intros x. by rewrite (mremap_none (KernelSpec := view S (own_bytes own)) _ _ _ _ _ x Hm).
  - destruct (whole_block _ _ _ _ _ _ _ (bi_whole _ _ _ _ _ _ _ HB) Hh) as (b1 & t1 & _ & (T1 & T2 & T3 & _) & (Ho & Hlo & Hhi & _)).
    assert (Hw : wshl 1 (bm_order meta) <= 2 ^ bm_order meta) by (unfold wshl; rewrite Z.shiftl_1_l; apply Z.mod_le; [apply Z.pow_nonneg; lia|lia]).
    destruct (Z.leb_spec (estimate_and_align_2mb cfg (n + 16)) (wshl 1 (bm_order meta))) as [Hle|Hno].
    + set (meta' := mkBigAllocMeta _ _ _ _ _). destruct (tree_replaced cfg cpus h ts Vs Vb own rs Ab M G Db p meta meta' Hok Hq) as (t' & Hrep & Hok'); [|cbn; lia|].
      * assert (Hz : (bm_buddy_region meta =? 0) = false) by lia. destruct Hen as [E1 E2 E3 E4]. unfold block_len in E1, E2, E4. rewrite Hz in E1, E2, E4.
        constructor; unfold block_len; cbn [meta' bm_size bm_buddy_region bm_order bm_aligned]; rewrite ?Hz; [lia|done..].
      * rewrite Hrep. cbn [mbind outcome_bind]. eapply big_in_place; [exact Hok'|done|done|done|exact Hd|apply lookup_insert_eq|lia|lia|cbn; lia].
    + pose proof (grow_buddy_ok cfg cpus (Z.to_nat BIG_BUDDY_MAX_ORDER) (estimate_and_align_2mb cfg (n + 16)) n meta h ts Vs Vb own rs Ab M G Db p meta Hok Hq E ltac:(by right) ltac:(lia) F1) as Hg.
      destruct (grow_buddy _ _ _ _ _ _ _ _) as [[[p'|] h']| |]; cbn [mbind outcome_bind]; [| |done..]; destruct Hg as (Ab' & meta' & Hok' & Hres); [|by apply (Hmove h' own Ab' (<[p := meta']> M))].
      destruct Hres as [-> Hsz']. eapply big_in_place; [exact Hok'|done|done|done|exact Hd|apply lookup_insert_eq|lia|lia|lia].
Qed.

Lemma realloc_big h ts Vs Vb own rs Ab M G Db t th e m p size align n :
  big_ok cfg cpus h ts Vs Vb own rs Ab M G Db -> ts !! t = Some th -> env_ok cpus e -> Vs !! p = None -> Vb !! p = Some (size, align) -> 0 < n <= 2 ^ 62 ->
  full_resized ts (Vs ∪ Vb) t m p size align n (rs_realloc cfg th h e m p n).
Proof using All.
  intros Hok Ht He Hs Hp Hn. destruct (find_original_big cfg cpus _ _ _ _ _ _ _ _ _ _ Hok p size align Htag Hp) as (q & meta & Hd & Hq & H0 & Hfit & (Hal & Ha & Hpow & H16) & _ & [B1 B2 B3 (x & B4 & B5) B6 B7]).
  assert (Hfull : ok h ts (Vs ∪ Vb)) by (by exists Vs, Vb, own, rs, Ab, M, G, Db). assert (Hpv : (Vs ∪ Vb) !! p = Some (size, align)) by (by rewrite lookup_union_r).
  unfold rs_realloc. destruct (Z.eqb_spec p null) as [E|_]; [change null with 0 in E; lia|]. destruct (Z.eqb_spec n 0) as [|_]; [lia|]. rewrite B1. cbn [mbind outcome_bind]. rewrite B2. cbn [mbind outcome_bind].
  destruct (Z.eqb_spec q p) as [->|Hne]; cbn [negb].
  - rewrite B3, B4. cbn [mbind outcome_bind]. rewrite B5, Z.eqb_refl. unfold big_realloc. rewrite B6. cbn [mbind outcome_bind]. destruct (Z.leb_spec n (bm_size meta)) as [Hle|Hgt]; [by eapply big_in_place; try done; lia|].
    destruct (match_size_class n); [apply move_full; try done; [by apply H16|lia]|]. unfold checked_add. change Header_SIZE with 16. destruct (Z.ltb_spec (n + 16) (2 ^ 64)); [|lia]. eapply big_grow_full; try done; [lia|lia|by apply H16].
  - unfold aligned_realloc. destruct (usable_size_big cfg cpus _ _ _ _ _ _ _ _ _ _ Hok p size align Htag Hp) as (q' & meta' & Hd' & Hq' & Hu & Hle' & _). simplify_eq. rewrite Hu. cbn [mbind outcome_bind].
    destruct (Z.leb_spec n (q + bm_size meta - p)) as [Hle|Hgt]; [by eapply big_in_place; try done; lia|]. apply (aligned_move_full h); try done; lia.
Qed.

(** Any live pointer, to any size. *)
Lemma realloc_full h ts V t th e m p size align n :
  ok h ts V -> ts !! t = Some th -> env_ok cpus e -> V !! p = Some (size, align) -> 0 < n <= 2 ^ 62 -> full_resized ts V t m p size align n (rs_realloc cfg th h e m p n).
Proof using All.
  intros (Vs & Vb & own & rs & Ab & M & G & Db & -> & Hok) Ht He Hp Hn. apply lookup_union_Some_raw in Hp as [Hp|[Hs Hp]]; [by eapply realloc_small|by eapply realloc_big].
Qed.
End Resize.
