(* ===== verification/FullTrim.v ===== *)
(** * Trimming the whole heap

    Free blocks of the slab caches and of the buddy allocator give their pages back;
    no page with a byte of a live pointer does. *)

From stdpp Require Import functions.
From S2P Require Import Prelude Types SizeClasses Kernel Binder Radix RadixProofs RBTree RBTreeProofs Buddy BuddyRep BuddyProofs BuddyGrow BuddySpec BuddyWhole PageAllocator PageProofs PageSpec Numa NumaSpec Predictor SList PendingQueue Rseq Bitmap SlabCache SlabProofs SlabSteal SlabSpec Heap BulkFill Alloc HeapFrame HeapInv HeapFill HeapOps Random GlobalAlloc Trim TrimProofs Realloc ReallocProofs HeapLive HeapStart HeapResize HeapSpec HeapView BigInv BigOps BigAlloc HeapFull.

Ltac Zify.zify_post_hook ::= idtac.

(** Whole pages without a byte of a live pointer may be advised away. *)
Definition advisable {K} `{!Kernel K} (V : gmap Z (Z * Z)) (R : relation K) : Prop :=
  forall start len k, (4096 | start) -> (4096 | len) -> (forall p size align y, V !! p = Some (size, align) -> p <= y < p + size -> ~ start <= y < start + len) -> R k (madvise start len LinuxDontNeed k).2.

Section Trim.
Context {K : Type} `{!Kernel K} {S : KernelSpec K} (g : globals) (cpus : Z) (ts : gmap nat tls) (V : gmap Z (Z * Z)) (R : relation K) {PR : PreOrder R} (HR : advisable V R).
Implicit Types (h : heap K).

Abbreviation seen own := (view S (own_bytes own)).
Abbreviation ok h := (full_ok (g_config g) cpus h ts V).

(** The relation, and that nothing is unmapped. *)
Definition related (k k' : K) : Prop := R k k' /\ forall y, mapped k y -> mapped k' y.

Lemma related_preorder : PreOrder related.
Proof using PR. split; [by intros k; split|]. intros k1 k2 k3 [A1 A2] [B1 B2]. split; [by etrans|auto]. Qed.

Lemma related_advice start len k :
  (4096 | start) -> (4096 | len) -> (forall p size align y, V !! p = Some (size, align) -> p <= y < p + size -> ~ start <= y < start + len) -> related k (madvise start len LinuxDontNeed k).2.
Proof using HR. intros H1 H2 H3. split; [by apply HR|]. intros y. apply madvise_mapped. Qed.

Lemma related_seen own k k' : related k k' -> forall y, @mapped K _ (seen own) k y -> @mapped K _ (seen own) k' y.
Proof using. intros [_ Hm] y (H1 & H2 & H3). split; [by apply Hm|]. split; [done|]. intros He z Hz. by apply Hm, H3. Qed.

Lemma trim_small_full h l average stamp requested free :
  ok h -> length l = class_count ->
  exists n s k l' average', trim_small (hp_slab h) (hp_kern h) l average stamp requested free = Ret (n, s, k, l', average') /\
    ok (set_kern (set_slab h s) k) /\ R (hp_kern h) k /\ length l' = class_count.
Proof using PR HR.
  intros (Vs & Vb & own & rs & Ab & M & G & Db & HV & Hok) Hl. pose proof related_preorder. pose proof (bo_big _ _ _ _ _ _ _ _ _ _ _ _ Hok) as HB.
  destruct (trim_live (KernelSpec0 := seen own) (Fr := big_frame h own rs G) (g_config g) cpus h ts Vs related l average stamp requested free (bo_small _ _ _ _ _ _ _ _ _ _ _ _ Hok) Hl) as (n & s & k & l' & av & Hr & Hok' & [HRk _] & Hl').
  - intros k k' Hk. by apply related_seen.
  - intros start len k H1 H2 H3 H4. apply related_advice; [done|done|]. intros p size align y Hp Hy. rewrite HV in Hp. apply lookup_union_Some_raw in Hp as [Hp|[_ Hp]]; [by eapply H3|]. intros Hy'. apply (H4 y Hy').
    destruct (live_entry _ cpus _ _ _ _ _ _ _ _ _ _ _ _ _ Hok Hp) as (q & meta & _ & Hq & He & Hin & _ & Hfit & _). pose proof (en_size _ _ _ _ _ _ He). eapply (entry_bytes _ cpus); [exact Hok|exact Hq|lia].
  - exists n, s, k, l', av. split_and!; try done. exists Vs, Vb, own, rs, Ab, M, G, Db. split; [done|]. by eapply big_ok_small.
Qed.

Lemma buddy_trim_full h average requested force :
  ok h -> exists n average' h', buddy_trim g h average requested force = Ret (n, average', h') /\ ok h' /\ R (hp_kern h) (hp_kern h').
Proof using PR HR.
  intros (Vs & Vb & own & rs & Ab & M & G & Db & HV & Hok). pose proof related_preorder. pose proof Hok as [_ HB HL]. pose proof (bi_whole _ _ _ _ _ _ _ HB) as HW.
  assert (Hadv : forall start len k, (4096 | start) -> (4096 | len) -> (forall r o a y, (o, a) ∈ Ab r -> a <= y < a + 2 ^ o -> ~ start <= y < start + len) -> (exists r b t, (r, (b, t)) ∈ rs /\ b <= start /\ start + len <= b + t) -> related k (madvise start len LinuxDontNeed k).2).
  { intros start len k H1 H2 H3 (r1 & b1 & t1 & Hin1 & Hb1 & Ht1). apply related_advice; [done|done|]. intros p size align y Hp Hy Hy'. rewrite HV in Hp. assert (H4 : region_bytes rs y) by (exists r1, b1, t1; split; [done|lia]). apply lookup_union_Some_raw in Hp as [Hp|[_ Hp]].
    - pose proof (bo_small _ _ _ _ _ _ _ _ _ _ _ _ Hok) as (C & B & D & A & HI & HLs). destruct (live_block (KernelSpec0 := seen own) _ _ _ _ _ _ _ _ _ _ _ _ HI HLs Hp) as (a & c & _ & _ & HBa & _ & _ & _ & Hin & Hfit).
      apply (block_not_framed (KernelSpec0 := seen own) _ cpus h ts C B A A ∅ a c y HI HBa); [lia|by right].
    - destruct (live_entry _ cpus _ _ _ _ _ _ _ _ _ _ _ _ _ Hok Hp) as (q & meta & _ & Hq & He & Hin & _ & Hfit & _). pose proof (en_size _ _ _ _ _ _ He) as Hsz. pose proof (en_home _ _ _ _ _ _ He) as Hh.
      destruct (entry_place _ h own rs Ab M G HB _ _ He) as (_ & _ & _ & Hpl). specialize (Hpl y ltac:(lia)). unfold block_len in *.
      destruct (_ =? 0); [by apply (own_unseen own y (hp_kern h) Hpl); eapply region_seen|]. eapply (H3 _ _ _ y Hh); [lia|done]. }
  unfold buddy_trim. destruct (trim_whole (KernelSpec0 := seen own) (hp_buddy h) (hp_radix h) rs Ab HW related Hadv (mkBuddyEnv (MAX_REFILL_RETRIES (g_config g)) (hp_stamp h)) blend average requested force) as (n & av & b & k & Hr & Hrel & [HRk Hmk]).
  change (kern (hp_radix h)) with (hp_kern h) in Hr. rewrite Hr. cbn [mbind outcome_bind]. eexists _, _, _. split; [done|]. split; [|done]. exists Vs, Vb, own, rs, Ab, M, G, Db. split; [done|].
  assert (Hm : forall x, @mapped K _ (seen own) (hp_kern h) x -> @mapped K _ (seen own) k x) by (by apply related_seen). set (h' := set_kern (set_buddy h b) k).
  pose proof (whole_relabel (KernelSpec0 := seen own) _ _ _ _ _ k HW Hrel Hm) as HW'. constructor.
  - eapply (small_kept _ cpus h h' _ _ _ own rs Ab M G); [exact Hok|done|done|done|exact Hm|exact (wh_radix _ _ _ _ HW')|by intros j].
  - constructor; [apply HB|apply HB|exact HW'|exact (tree_ok_view (seen own) (seen own) _ _ _ _ (bi_tree _ _ _ _ _ _ _ HB) Hm)|]. intros q meta Hq. destruct (bi_entry _ _ _ _ _ _ _ HB q meta Hq) as [He Hg]. split; [by destruct He|done].
  - by destruct HL.
Qed.

(** ** The trim thread and the two requests *)

Lemma flags_full h va stamp guard disable :
  ok h -> ok (mkHeap (hp_slab h) (hp_queue h) (hp_spans h) (hp_pages h) (hp_pages_once h) (hp_root h) (hp_words h) (hp_buddy h) (hp_big h) (hp_raw h) va stamp guard disable).
Proof using. intros Hok. eapply full_kept; [exact Hok|]. intros S1 Fr Vs. by apply flags_live. Qed.

(** What a round of trimming leaves behind. *)
Record trimmed (st st' : TrimmerThread (K := K)) : Prop := {
  tm_ok : ok (tt_heap st');
  tm_smoothing : length (tt_smoothing st') = class_count;
  tm_kernel : R (hp_kern (tt_heap st)) (hp_kern (tt_heap st'));
}.

Lemma relief_full (st : TrimmerThread (K := K)) pressure : ok (tt_heap st) -> length (tt_smoothing st) = class_count -> exists st', relief_paths g st pressure = Ret st' /\ trimmed st st'.
Proof using PR HR.
  intros Hok Hl. unfold relief_paths. destruct (_ && negb _).
  - destruct (buddy_trim_full (with_disable_buddy (tt_heap st) true) (BUDDY_AVERAGE_BLOCK_TIMES st) 0 true) as (n & av & h' & Hr & Hok' & HRk); [by apply flags_full|]. rewrite Hr. cbn [mbind outcome_bind]. eexists. split; [done|]. by constructor.
  - repeat case_match; simplify_eq; eexists; (split; [done|]); constructor; try done; by apply flags_full.
Qed.

Lemma trimmer_round_full (st : TrimmerThread (K := K)) info stamp : ok (tt_heap st) -> length (tt_smoothing st) = class_count -> exists st', trimmer_round g st info stamp = Ret st' /\ trimmed st st'.
Proof using PR HR.
  intros Hok Hl. unfold trimmer_round. set (st0 := mkTrimmerThread _ _ _ _ _ _ _).
  assert (Hrel : exists st1, (if relief_due (add_i32 (total_elapsed st) 100) && negb (DISABLE_RELIEF g) then relief_paths g st0 (check_memory_pressure info) else Ret st0) = Ret st1 /\ trimmed st0 st1).
  { case_match; [by apply relief_full|]. exists st0. split; [done|]. by constructor. }
  destruct Hrel as (st1 & -> & [T1 T2 T3]). cbn [mbind outcome_bind]. pose proof (flags_full _ (hp_cached_va (tt_heap st1)) stamp (hp_trim_guard (tt_heap st1)) (hp_disable_buddy (tt_heap st1)) T1) as T1'.
  destruct (_ && negb _); [|eexists; split; [done|]; by constructor].
  destruct (trim_small_full _ (tt_smoothing st1) (AVERAGE_BLOCK_TIMES st1) stamp 0 true T1' T2) as (n & s & k & l' & av & Hr & Hok2 & HR2 & Hl2). fold (with_stamp (tt_heap st1) stamp) in Hr, Hok2. rewrite Hr. cbn [mbind outcome_bind].
  destruct (buddy_trim_full _ (BUDDY_AVERAGE_BLOCK_TIMES st1) 0 false Hok2) as (n3 & av3 & h3 & Hr3 & Hok3 & HR3). rewrite Hr3. cbn [mbind outcome_bind]. eexists. split; [done|]. constructor; [done|done|]. cbn [tt_heap] in *. etrans; [exact T3|]. by etrans.
Qed.

Lemma rs_trim_full (st : TrimmerThread (K := K)) r : ok (tt_heap st) -> length (tt_smoothing st) = class_count -> exists x st', rs_trim g st r = Ret (x, st') /\ trimmed st st'.
Proof using PR HR.
  intros Hok Hl. unfold rs_trim. destruct (buddy_trim_full _ (BUDDY_AVERAGE_BLOCK_TIMES st) (get_request_size r) true Hok) as (n & av & h1 & Hr & Hok1 & HR1). rewrite Hr. cbn [mbind outcome_bind].
  destruct (_ && negb _); [|eexists _, _; split; [done|]; by constructor].
  destruct (trim_small_full h1 (tt_smoothing st) (AVERAGE_BLOCK_TIMES st) (hp_stamp h1) (saturating_sub (get_request_size r) n) true Hok1 Hl) as (n2 & s & k & l' & av2 & Hr2 & Hok2 & HR2 & Hl2).
  cbn [tt_smoothing AVERAGE_BLOCK_TIMES]. rewrite Hr2. cbn [mbind outcome_bind]. eexists _, _. split; [done|]. constructor; [done|done|by etrans].
Qed.

Lemma malloc_trim_full (st : TrimmerThread (K := K)) requested : ok (tt_heap st) -> length (tt_smoothing st) = class_count -> exists x st', malloc_trim g st requested = Ret (x, st') /\ trimmed st st'.
Proof using PR HR.
  intros Hok Hl. unfold malloc_trim. destruct (buddy_trim_full _ (BUDDY_AVERAGE_BLOCK_TIMES st) requested false Hok) as (n & av & h1 & Hr & Hok1 & HR1). rewrite Hr. cbn [mbind outcome_bind].
  destruct (_ || _); [|cbn [mbind outcome_bind]; eexists _, _; split; [done|]; by constructor].
  destruct (trim_small_full h1 (tt_smoothing st) (AVERAGE_BLOCK_TIMES st) (hp_stamp h1) (saturating_sub requested n) true Hok1 Hl) as (n2 & s & k & l' & av2 & Hr2 & Hok2 & HR2 & Hl2).
  cbn [tt_smoothing AVERAGE_BLOCK_TIMES]. rewrite Hr2. cbn [mbind outcome_bind]. eexists _, _. split; [done|]. constructor; [done|done|by etrans].
Qed.
End Trim.
