(* ===== verification/FullSpec.v ===== *)
(** * What the allocator promises

    Threads start, allocate, resize, release and exit in any order, with requests of
    every size, while the clock ticks, cold memory is trimmed and the buddy allocator
    is switched off and on. *)

From S2P Require Import Prelude Types SizeClasses Kernel Radix RadixProofs RBTree Buddy BuddyGrow BuddyWhole PageAllocator PageProofs PageSpec Numa NumaSpec Predictor SList PendingQueue Rseq Bitmap SlabCache SlabProofs SlabSteal SlabSpec Heap BulkFill Alloc HeapFrame HeapInv HeapFill HeapOps Random GlobalAlloc Trim TrimProofs Realloc ReallocProofs HeapLive HeapStart HeapResize HeapSpec HeapView BigInv BigOps BigAlloc BigResize HeapFull FullResize FullTrim.

Section Spec.
Context {K : Type} `{!Kernel K} `{!KernelSpec K} (g : globals) (cpus : Z).
Implicit Types (h : heap K) (ts : gmap nat tls) (V : gmap Z (Z * Z)).

Abbreviation cfg := (g_config g).
Abbreviation live_map := (gmap Z (Z * Z)).

Inductive full_step : heap K * gmap nat tls * live_map -> heap K * gmap nat tls * live_map -> Prop :=
  | full_step_start h ts V t : ts !! t = None -> full_step (h, ts, V) (h, <[t := tls_new]> ts, V)
  | full_step_alloc h ts V t th e size align p th' h' :
      ts !! t = Some th -> env_ok cpus e -> layout_ok size align -> GlobalAlloc.alloc cfg th h e size align = Ret (p, th', h') ->
      full_step (h, ts, V) (h', <[t := th']> ts, if p =? null then V else <[p := (size, align)]> V)
  | full_step_dealloc h ts V e p h' :
      is_Some (V !! p) -> env_ok cpus e -> dealloc cfg h e p = Ret h' -> full_step (h, ts, V) (h', ts, delete p V)
  | full_step_calloc h ts V t th e m size nmemb p th' h' m' :
      ts !! t = Some th -> env_ok cpus e -> 0 <= size -> 0 <= nmemb -> nmemb * size <= 2 ^ 63 -> rs_calloc cfg th h e m size nmemb = Ret (p, th', h', m') ->
      full_step (h, ts, V) (h', <[t := th']> ts, if p =? null then V else <[p := (Z.max (nmemb * size) 1, 16)]> V)
  | full_step_realloc h ts V t th e m p size align n p' th' h' m' :
      ts !! t = Some th -> env_ok cpus e -> V !! p = Some (size, align) -> 0 < n <= 2 ^ 62 -> rs_realloc cfg th h e m p n = Ret (p', th', h', m') ->
      full_step (h, ts, V) (h', <[t := th']> ts, if p' =? null then V else <[p' := (n, align)]> (delete p V))
  | full_step_exit h ts V t th th' h' :
      ts !! t = Some th -> thread_exit th h = Ret (th', h') -> full_step (h, ts, V) (h', delete t ts, V)
  | full_step_tick h ts V stamp : full_step (h, ts, V) (with_stamp h stamp, ts, V)
  | full_step_trim h ts V l average requested free n s k l' average' :
      length l = class_count -> trim_small (hp_slab h) (hp_kern h) l average (hp_stamp h) requested free = Ret (n, s, k, l', average') ->
      full_step (h, ts, V) (set_kern (set_slab h s) k, ts, V)
  | full_step_buddy_trim h ts V average requested force n average' h' :
      buddy_trim g h average requested force = Ret (n, average', h') -> full_step (h, ts, V) (h', ts, V)
  | full_step_relief h ts V b : full_step (h, ts, V) (with_disable_buddy h b, ts, V).

Context (Harena : 0 <= ARENA_SIZE cfg <= 2 ^ 62) (Htag : 2 ^ 56 <= ALIGN_TAG cfg) (Hmagic : MAGIC cfg <> BIG_MAGIC cfg) (Hfreed : FREED_MAGIC cfg <> BIG_MAGIC cfg).

Lemma full_step_ok st st' : full_step st st' -> full_ok cfg cpus st.1.1 st.1.2 st.2 -> full_ok cfg cpus st'.1.1 st'.1.2 st'.2.
Proof using All.
  set (any := fun _ _ : K => True). assert (HP : PreOrder any) by done. assert (HA : forall V, advisable V any) by done.
  destruct 1 as [h ts V t Ht|h ts V t th e size align p th' h' Ht He Hs Hr|h ts V e p h' Hp He Hr|h ts V t th e m size nmemb p th' h' m' Ht He Hs Hn Hsum Hr|h ts V t th e m p size align n p' th' h' m' Ht He Hp Hn Hr
    |h ts V t th th' h' Ht Hr|h ts V stamp|h ts V l av req free n s k l' av' Hl Hr|h ts V av req force n av' h' Hr|h ts V b]; cbn [fst snd]; intros Hok.
  - eapply full_kept; [exact Hok|]. intros S1 Fr Vs Hs. by apply start_live.
  - pose proof (alloc_full cfg cpus Harena h ts V t th e size align Hok Ht He Hs) as Ha. rewrite Hr in Ha. cbn [full_allocated] in Ha. case_match; tauto.
  - pose proof (free_full cfg cpus Harena Htag Hmagic Hfreed h ts V e p Hok Hp He) as Ha. unfold dealloc in Hr. by rewrite Hr in Ha.
  - pose proof (calloc_full cfg cpus Harena Hmagic h ts V t th e m size nmemb Hok Ht He Hs Hn Hsum) as Ha. rewrite Hr in Ha. cbn [full_zeroed] in Ha. case_match; tauto.
  - pose proof (realloc_full cfg cpus Harena Htag Hmagic Hfreed h ts V t th e m p size align n Hok Ht He Hp Hn) as Ha. rewrite Hr in Ha. cbn [full_resized] in Ha. case_match; tauto.
  - destruct (full_exit cfg cpus Harena h ts V t th Hok Ht) as (th1 & h1 & Hr1 & Hok1). congruence.
  - by apply (flags_full g).
  - destruct (trim_small_full g cpus ts V any (HA V) h l av (hp_stamp h) req free Hok Hl) as (n1 & s1 & k1 & l1 & av1 & Hr1 & Hok1 & _). congruence.
  - destruct (buddy_trim_full g cpus ts V any (HA V) h av req force Hok) as (n1 & av1 & h1 & Hr1 & Hok1 & _). congruence.
  - by apply (flags_full g).
Qed.

Lemma full_steps_ok st st' : rtc full_step st st' -> full_ok cfg cpus st.1.1 st.1.2 st.2 -> full_ok cfg cpus st'.1.1 st'.1.2 st'.2.
Proof using All. induction 1 as [|st1 st2 st3 Hs _ IH]; [done|]. intros Hok. by eapply IH, full_step_ok. Qed.
End Spec.

(** ** From the start *)

Section Reach.
Context {K : Type} `{!Kernel K} `{!KernelSpec K} (m : machine) (rc : RSMallocConfig).
Implicit Types (k : K) (h : heap K) (ts : gmap nat tls) (V : gmap Z (Z * Z)).

Abbreviation cpus := (get_max_cpu (get_nprocs_conf m)).

(** A state some threads have reached after [init] in a process. *)
Definition reached (k : K) (g : globals) h ts V : Prop :=
  mapped k VSYSCALL /\ exists h0, init m rc k = Ret (g, h0) /\ rtc (full_step g cpus) (h0, ∅, ∅) (h, ts, V).

(** What the settings of the process are. *)
Record settings_ok (cfg : config) : Prop := {
  so_arena : 0 <= ARENA_SIZE cfg <= 2 ^ 62;
  so_magic : MAGIC cfg <> BIG_MAGIC cfg;
  so_freed : FREED_MAGIC cfg <> BIG_MAGIC cfg;
  so_differ : MAGIC cfg <> FREED_MAGIC cfg;
}.

Lemma reached_ok k g h ts V :
  machine_ok m -> config_ok rc -> 2 ^ 56 <= ALIGN_TAG (g_config g) -> reached k g h ts V -> full_ok (g_config g) cpus h ts V /\ settings_ok (g_config g).
Proof.
  intros Hm Hc Ht (Hv & h0 & Hi & Hs). pose proof (start_fresh m rc k Hm Hc Hv) as Hok. rewrite Hi in Hok. cbv zeta in Hok. destruct Hok as (Ha & M1 & M2 & M3 & _ & _ & Hf).
  split; [|constructor; [lia|done..]]. exact (full_steps_ok g cpus ltac:(lia) Ht M2 M3 _ _ Hs (start_full _ m _ Hf)).
Qed.
End Reach.
