(* ===== verification/HeapProps.v ===== *)
(** * The properties of the heap

    What a program that uses the allocator can rely on, from [init] on and for every
    interleaving of the calls of its threads. *)

From S2P Require Import Prelude Types SizeClasses Kernel Radix RadixProofs RBTree Buddy PageAllocator Numa Predictor SList PendingQueue Rseq SlabCache Heap BulkFill Alloc HeapOps Random GlobalAlloc Trim Realloc HeapLive HeapStart HeapSpec HeapFull FullSpec.

(** C5. Initialisation.  On any machine and for any configuration, in a process,
    [init] either sets up an allocator that satisfies the invariant of the heap with
    no live pointer, with arenas of at least 256 KiB, pairwise different magic values,
    a tag that is not zero and relief percentages in order and at most 100; or it
    aborts for one of four reasons.  Only the random draws can keep it from
    ending. *)
Theorem init_establishes {K} `{!Kernel K} `{!KernelSpec K} (m : machine) (rc : RSMallocConfig) (k : K) :
  machine_ok m -> config_ok rc -> mapped k VSYSCALL ->
  match init m rc k with
  | Ret (g, h) => let cfg := g_config g in
      262144 <= ARENA_SIZE cfg <= 2 ^ 62 /\ MAGIC cfg <> FREED_MAGIC cfg /\ MAGIC cfg <> BIG_MAGIC cfg /\ FREED_MAGIC cfg <> BIG_MAGIC cfg /\ ALIGN_TAG cfg <> 0 /\
      BUDDY_ENABLE_PERCENTAGE g <= BUDDY_DISABLE_PERCENTAGE g <= 100 /\ full_ok cfg (get_max_cpu (get_nprocs_conf m)) h ∅ ∅
  | Fatal e => e = RSEQRegFailed \/ e = VAIinitFailed \/ e = OutOfMemory \/ e = SecurityViolation
  | Stuck => rc_magic_safety rc = MagicRandomization
  end.
Proof.
  intros Hm Hc Hv. pose proof (start_fresh m rc k Hm Hc Hv) as Hf. destruct (init m rc k) as [[g h]| |]; [|done..]. cbv zeta in *.
  destruct Hf as (H1 & H2 & H3 & H4 & H5 & H6 & Hf). split_and!; try done; [lia..|]. by apply start_full.
Qed.

(** C1. The allocator is safe.  Start from [init] in a process and let threads start,
    call [alloc] and [dealloc] of the Rust interface with any layout, [rs_calloc] and
    [rs_realloc], and exit, while the clock ticks, small blocks and the buddy
    allocator are trimmed and the buddy allocator is switched off and on, in any
    order, on any CPUs and with any aborts of the restartable sequences; every release
    and every resize is of a live pointer.  Then every live pointer, whether a block
    of a size class, of the buddy allocator or a mapping of its own, is aligned as
    asked and owned by the allocator, all its bytes are mapped, and no two live
    pointers share a byte.  Every further call ends: an allocation and a release
    return or abort because the kernel refuses memory for the allocator's own tables,
    and the exit of a thread returns. *)
Theorem heap_safe {K} `{!Kernel K} `{!KernelSpec K} (m : machine) (rc : RSMallocConfig) (k : K) g h ts V :
  machine_ok m -> config_ok rc -> 2 ^ 56 <= ALIGN_TAG (g_config g) -> reached m rc k g h ts V ->
  (forall p size align, V !! p = Some (size, align) ->
     0 < p /\ (align | p) /\ p + size <= 2 ^ 47 /\ is_owned (hp_radix h) p = Ret true /\ forall y, p <= y < p + size -> mapped (hp_kern h) y) /\
  (forall p p' size size' align align' y, V !! p = Some (size, align) -> V !! p' = Some (size', align') -> p <= y < p + size -> p' <= y < p' + size' -> p = p') /\
  (forall t th e size align, ts !! t = Some th -> env_ok (get_max_cpu (get_nprocs_conf m)) e -> layout_ok size align ->
     match GlobalAlloc.alloc (g_config g) th h e size align with Ret _ => True | Fatal e => e = VAIinitFailed \/ e = OutOfMemory | Stuck => False end) /\
  (forall e p, is_Some (V !! p) -> env_ok (get_max_cpu (get_nprocs_conf m)) e ->
     match dealloc (g_config g) h e p with Ret _ => True | Fatal e => e = VAIinitFailed | Stuck => False end) /\
  (forall t th, ts !! t = Some th -> exists r, thread_exit th h = Ret r).
Proof.
  intros Hm Hc Ht Hr. destruct (reached_ok m rc k g h ts V Hm Hc Ht Hr) as (Hok & [Ha M1 M2 _]). split_and!.
  - intros p size align Hp. by eapply full_facts.
  - intros p p' size size' align align' y Hp Hp'. by eapply full_apart.
  - intros t th e size align Hth He Hs. pose proof (alloc_full (g_config g) _ Ha h ts V t th e size align Hok Hth He Hs) as Hl.
    by destruct (GlobalAlloc.alloc _ _ _ _ _ _) as [[[p th'] h']| |].
  - intros e p Hp He. pose proof (free_full (g_config g) _ Ha Ht M1 M2 h ts V e p Hok Hp He) as Hd. unfold dealloc. by destruct (rs_free _ _ _ _).
  - intros t th Hth. destruct (full_exit (g_config g) _ Ha h ts V t th Hok Hth) as (th' & h' & He & _). eauto.
Qed.

(** C4. A second release is caught.  After a live pointer to a small block has been
    released, plain or aligned, releasing it again, on whatever CPU, aborts with
    [DoubleFree]. *)
Theorem double_free_aborts {K} `{!Kernel K} `{!KernelSpec K} (m : machine) (rc : RSMallocConfig) (k : K) g h ts V e e' p :
  machine_ok m -> config_ok rc -> 2 ^ 56 <= ALIGN_TAG (g_config g) -> reached m rc k g h ts V ->
  is_Some (V !! p) -> small_pointer (g_config g) h p -> env_ok (get_max_cpu (get_nprocs_conf m)) e ->
  (h' ← dealloc (g_config g) h e p; dealloc (g_config g) h' e' p) = Fatal DoubleFree.
Proof.
  intros Hm Hc Ht Hr Hp Hs He. destruct (reached_ok m rc k g h ts V Hm Hc Ht Hr) as (Hok & [Ha M1 M2 M3]). by eapply free_again_full.
Qed.

(** C6. The usable size.  For a live pointer of any size [rs_usable_size] reports at
    least the size asked for, at least one byte, and all the bytes it reports are
    apart from those of every other live pointer. *)
Theorem usable_size_covers {K} `{!Kernel K} `{!KernelSpec K} (m : machine) (rc : RSMallocConfig) (k : K) g h ts V p size align :
  machine_ok m -> config_ok rc -> 2 ^ 56 <= ALIGN_TAG (g_config g) -> reached m rc k g h ts V -> V !! p = Some (size, align) ->
  exists n, rs_usable_size (g_config g) h p = Ret (Some n) /\ size <= n /\ 0 < n /\
    forall p' size' align' y, V !! p' = Some (size', align') -> p <= y < p + n -> p' <= y < p' + size' -> p' = p.
Proof.
  intros Hm Hc Ht Hr Hp. destruct (reached_ok m rc k g h ts V Hm Hc Ht Hr) as (Hok & [Ha M1 M2 M3]). destruct (usable_full (g_config g) _ Ht M1 M2 h ts V p size align Hok Hp) as (n & Hu & H1 & H2 & H3).
  exists n. unfold rs_usable_size. rewrite Hu. cbn [mbind outcome_bind]. destruct (Z.eqb_spec n 0); [lia|]. done.
Qed.

(** ** Witnesses: two CPUs, fixed magic values, one thread and one live pointer *)

Definition demo_machine : machine := mkMachine 32 1 (fun _ => None) 2 0 0 [].
Definition demo_config : RSMallocConfig :=
  mkRSMallocConfig THP_Enabled BuddyTHP_Disabled DEFAULT_BATCH FixedMagic Abort_ 3 PerCacheDefault
    TrimThread_Disabled (1024 * 1024 * 10) Relief_Disabled 85 80 (1024 * 1024 * 256).
Definition demo_env : env := mkEnv 0 [(0, false)] [(0, false)] (0, false) true false.

(** The header behind [p] is that of a small block in use. *)
Definition small_pointer_check (cfg : config) (h : heap BumpKernel.state) (p : Z) : bool :=
  match (q ← find_original_ptr cfg h p; get_header h (get_actual_header q)) with Ret x => h_magic x =? MAGIC cfg | _ => false end.

Lemma small_pointer_checked cfg h p : small_pointer_check cfg h p = true -> small_pointer cfg h p.
Proof.
  unfold small_pointer_check, small_pointer. destruct (find_original_ptr cfg h p) as [q| |]; cbn [mbind outcome_bind]; [|done..]. destruct (get_header h (get_actual_header q)) as [x| |] eqn:E; [|done..]. intros Hx. exists q, x. split_and!; [done|done|lia].
Qed.

Lemma demo_runs :
  match init demo_machine demo_config BumpKernel.empty with
  | Ret (g, h) =>
      match GlobalAlloc.alloc (g_config g) tls_new h demo_env 100000 64 with
      | Ret (p, _, h) => negb (p =? 0) && ((2 ^ 56 <=? ALIGN_TAG (g_config g)) && small_pointer_check (g_config g) h p)
      | _ => false
      end
  | _ => false
  end = true.
Proof. by vm_compute. Qed.

Lemma demo_machine_ok : machine_ok demo_machine.
Proof. constructor; [done|done|by vm_compute]. Qed.

Lemma demo_config_ok : config_ok demo_config.
Proof. by constructor. Qed.

Lemma demo_env_ok : env_ok (get_max_cpu (get_nprocs_conf demo_machine)) demo_env.
Proof. constructor; [done| | |done]; (split; [by constructor|]); [|right]; by constructor. Qed.

Lemma demo_reached : exists g h ts p,
  reached demo_machine demo_config BumpKernel.empty g h ts {[p := (100000, 64)]} /\ 2 ^ 56 <= ALIGN_TAG (g_config g) /\ small_pointer (g_config g) h p.
Proof.
  pose proof demo_runs as Hd. destruct (init demo_machine demo_config BumpKernel.empty) as [[g h0]| |] eqn:Hi; [|done..].
  destruct (GlobalAlloc.alloc (g_config g) tls_new h0 demo_env 100000 64) as [[[p th] h]| |] eqn:Ha; [|done..].
  apply andb_true_iff in Hd as [Hp Ht]. apply andb_true_iff in Ht as [Ht Hal]. exists g, h, (<[0%nat := th]> (<[0%nat := tls_new]> ∅)), p. split; [|split; [lia|by apply small_pointer_checked]]. split; [apply BumpKernel.empty_process|]. exists h0. split; [done|].
  eapply rtc_l; [by apply (full_step_start g (get_max_cpu (get_nprocs_conf demo_machine)) h0 ∅ ∅ 0%nat)|]. apply rtc_once.
  pose proof (full_step_alloc g (get_max_cpu (get_nprocs_conf demo_machine)) h0 (<[0%nat := tls_new]> ∅) ∅ 0%nat tls_new demo_env 100000 64 p th h) as Hs.
  apply negb_true_iff in Hp. rewrite Hp in Hs. apply Hs; [by rewrite lookup_insert_eq|apply demo_env_ok|by split_and!|done].
Qed.

(** A further request of the thread. *)
Lemma demo_grows k g h ts V th size align p th' h' :
  reached demo_machine demo_config k g h ts V -> ts !! 0%nat = Some th -> layout_ok size align -> GlobalAlloc.alloc (g_config g) th h demo_env size align = Ret (p, th', h') -> (p =? null) = false ->
  reached demo_machine demo_config k g h' (<[0%nat := th']> ts) (<[p := (size, align)]> V).
Proof.
  intros (Hv & h0 & Hi & Hs) Ht Hl Ha Hp. split; [done|]. exists h0. split; [done|]. eapply rtc_r; [exact Hs|].
  pose proof (full_step_alloc g (get_max_cpu (get_nprocs_conf demo_machine)) h ts V 0%nat th demo_env size align p th' h' Ht demo_env_ok Hl Ha) as Hst. by rewrite Hp in Hst.
Qed.

(** Three pointers: a block of a size class, an aligned one of the buddy allocator,
    and a mapping of its own. *)
Definition demo_three : outcome (globals * heap BumpKernel.state * list (Z * tls * heap BumpKernel.state)) :=
  '(g, h0) ← init demo_machine demo_config BumpKernel.empty;
  '(p1, th1, h1) ← GlobalAlloc.alloc (g_config g) tls_new h0 demo_env 100000 64;
  '(p2, th2, h2) ← GlobalAlloc.alloc (g_config g) th1 h1 demo_env (3 * 1024 * 1024) 4096;
  '(p3, th3, h3) ← GlobalAlloc.alloc (g_config g) th2 h2 demo_env (100 * 1024 * 1024) 16;
  Ret (g, h0, [(p1, th1, h1); (p2, th2, h2); (p3, th3, h3)]).

Lemma demo_three_runs :
  match demo_three with
  | Ret (g, _, l) => (2 ^ 56 <=? ALIGN_TAG (g_config g)) && forallb (fun x => negb (x.1.1 =? 0)) l && bool_decide (NoDup (map (fun x => x.1.1) l)) && (length l =? 3)%nat = true
  | _ => False
  end.
Proof. by vm_compute. Qed.

Lemma demo_layouts : layout_ok 100000 64 /\ layout_ok (3 * 1024 * 1024) 4096 /\ layout_ok (100 * 1024 * 1024) 16.
Proof. by split_and!. Qed.

Lemma demo_three_reached : exists g h ts p1 p2 p3,
  reached demo_machine demo_config BumpKernel.empty g h ts (<[p3 := (100 * 1024 * 1024, 16)]> (<[p2 := (3 * 1024 * 1024, 4096)]> {[p1 := (100000, 64)]})) /\ 2 ^ 56 <= ALIGN_TAG (g_config g) /\ p3 <> p2.
Proof.
  pose proof demo_three_runs as Hd. unfold demo_three in Hd. destruct (init demo_machine demo_config BumpKernel.empty) as [[g h0]| |] eqn:Hi; cbn [mbind outcome_bind] in Hd; [|destruct Hd|destruct Hd].
  destruct (GlobalAlloc.alloc _ _ h0 _ _ _) as [[[p1 th1] h1]| |] eqn:H1; cbn [mbind outcome_bind] in Hd; [|destruct Hd|destruct Hd]. destruct (GlobalAlloc.alloc _ _ h1 _ _ _) as [[[p2 th2] h2]| |] eqn:H2; cbn [mbind outcome_bind] in Hd; [|destruct Hd|destruct Hd].
  destruct (GlobalAlloc.alloc _ _ h2 _ _ _) as [[[p3 th3] h3]| |] eqn:H3; cbn [mbind outcome_bind] in Hd; [|destruct Hd|destruct Hd]. rewrite !andb_true_iff, bool_decide_eq_true in Hd. destruct Hd as [[[Ht Hp] Hn] _].
  cbn [forallb map fst snd] in Hp, Hn. rewrite !andb_true_iff, !negb_true_iff in Hp. destruct Hp as (P1 & P2 & P3 & _). rewrite !NoDup_cons in Hn. destruct Hn as (_ & Hn2 & _).
  destruct demo_layouts as (L1 & L2 & L3). assert (R0 : reached demo_machine demo_config BumpKernel.empty g h0 (<[0%nat := tls_new]> ∅) ∅) by (split; [apply BumpKernel.empty_process|]; exists h0; split; [exact Hi|]; apply rtc_once; apply full_step_start, lookup_empty).
  pose proof (demo_grows _ _ _ _ _ _ _ _ _ _ _ R0 (lookup_insert_eq _ _ _) L1 H1 P1) as R1. pose proof (demo_grows _ _ _ _ _ _ _ _ _ _ _ R1 (lookup_insert_eq _ _ _) L2 H2 P2) as R2.
  pose proof (demo_grows _ _ _ _ _ _ _ _ _ _ _ R2 (lookup_insert_eq _ _ _) L3 H3 P3) as R3. eexists g, h3, _, p1, p2, p3. split; [exact R3|]. split; [by apply Z.leb_le|]. clear -Hn2. set_solver.
Qed.

Lemma init_establishes_witness :
  exists g h, init demo_machine demo_config BumpKernel.empty = Ret (g, h) /\ full_ok (g_config g) (get_max_cpu 2) h ∅ ∅.
Proof.
  pose proof demo_runs as Hd. pose proof (init_establishes demo_machine demo_config BumpKernel.empty demo_machine_ok demo_config_ok BumpKernel.empty_process) as H.
  destruct (init demo_machine demo_config BumpKernel.empty) as [[g h]| |]; [|discriminate Hd|discriminate Hd]. exists g, h. split; [reflexivity|apply H].
Defined.

Lemma heap_safe_witness :
  exists g (h : heap BumpKernel.state) p2 p3, (4096 | p2) /\ p2 + 3 * 1024 * 1024 <= 2 ^ 47 /\ (p2 <= p3 < p2 + 3 * 1024 * 1024 -> False) /\
    match dealloc (g_config g) h demo_env p3 with Ret _ => True | Fatal e => e = VAIinitFailed | Stuck => False end.
Proof.
  destruct demo_three_reached as (g & h & ts & p1 & p2 & p3 & Hr & Ht & Hne).
  destruct (heap_safe demo_machine demo_config BumpKernel.empty g h ts _ demo_machine_ok demo_config_ok Ht Hr) as (H1 & H2 & _ & H3 & _).
  assert (V3 : <[p3 := (100 * 1024 * 1024, 16)]> (<[p2 := (3 * 1024 * 1024, 4096)]> {[p1 := (100000, 64)]} : gmap Z (Z * Z)) !! p3 = Some (100 * 1024 * 1024, 16)) by apply lookup_insert_eq.
  assert (V2 : <[p3 := (100 * 1024 * 1024, 16)]> (<[p2 := (3 * 1024 * 1024, 4096)]> {[p1 := (100000, 64)]} : gmap Z (Z * Z)) !! p2 = Some (3 * 1024 * 1024, 4096)) by (rewrite lookup_insert_ne by assumption; apply lookup_insert_eq).
  destruct (H1 p2 _ _ V2) as (_ & H4 & H5 & _). exists g, h, p2, p3. split; [exact H4|]. split; [exact H5|]. split.
  - intros Hp. apply Hne, (H2 p3 p2 _ _ _ _ p3 V3 V2); lia.
  - apply H3; [rewrite V3; eauto|apply demo_env_ok].
Defined.

Lemma double_free_aborts_witness :
  exists g (h : heap BumpKernel.state) p, (h' ← dealloc (g_config g) h demo_env p; dealloc (g_config g) h' demo_env p) = Fatal DoubleFree.
Proof.
  destruct demo_reached as (g & h & ts & p & Hr & Ht & Hsm). exists g, h, p.
  apply (double_free_aborts demo_machine demo_config BumpKernel.empty g h ts {[p := (100000, 64)]} demo_env demo_env p demo_machine_ok demo_config_ok Ht Hr); [rewrite lookup_singleton_eq; eauto|exact Hsm|apply demo_env_ok].
Defined.

Lemma usable_size_covers_witness :
  exists g (h : heap BumpKernel.state) p n, rs_usable_size (g_config g) h p = Ret (Some n) /\ 104857600 <= n.
Proof.
  destruct demo_three_reached as (g & h & ts & p1 & p2 & p3 & Hr & Ht & _).
  destruct (usable_size_covers demo_machine demo_config BumpKernel.empty g h ts _ p3 (100 * 1024 * 1024) 16 demo_machine_ok demo_config_ok Ht Hr (lookup_insert_eq _ p3 _)) as (n & H1 & H2 & _).
  exists g, h, p3, n. split; assumption.
Defined.
