(* ===== verification/TrimProps.v ===== *)
(** * The properties of trimming

    What trimming does to the live pointers, and two places where the code of
    src/trim.rs and src/global_alloc.rs does less than it says. *)

From S2P Require Import Prelude Types SizeClasses Kernel Radix RBTree Buddy PageAllocator Numa Predictor SList PendingQueue Rseq SlabCache Heap Random GlobalAlloc Trim HeapLive HeapStart HeapSpec HeapFull FullTrim FullSpec HeapProps.

(** C7. Trimming takes no live memory.  In a state that threads have reached, a round
    of the trim thread, [rs_trim] and [malloc_trim] end, whatever the averages, the
    clock, the memory pressure and the request are.  The live pointers, small and big,
    stay valid, the table of averages keeps its length, and whatever relation between
    kernel states is kept by advising whole pages away that share no byte with a live
    pointer holds between the kernel before and after. *)
Theorem trim_safe {K} `{!Kernel K} `{!KernelSpec K} (m : machine) (rc : RSMallocConfig) (k : K) g (st : TrimmerThread) ts V (R : relation K) :
  machine_ok m -> config_ok rc -> 2 ^ 56 <= ALIGN_TAG (g_config g) -> reached m rc k g (tt_heap st) ts V -> length (tt_smoothing st) = class_count -> PreOrder R -> advisable V R ->
  let ok := trimmed g (get_max_cpu (get_nprocs_conf m)) ts V R st in
  (forall info stamp, exists st', trimmer_round g st info stamp = Ret st' /\ ok st') /\
  (forall r, exists x st', rs_trim g st r = Ret (x, st') /\ ok st') /\
  (forall requested, exists x st', malloc_trim g st requested = Ret (x, st') /\ ok st').
Proof.
  intros Hm Hc Ht Hr Hl HP HA ok. destruct (reached_ok m rc k g _ ts V Hm Hc Ht Hr) as (Hok & _). split_and!.
  - intros info stamp. by apply trimmer_round_full.
  - intros r. by apply rs_trim_full.
  - intros requested. by apply malloc_trim_full.
Qed.

(** ** The clock of the pressure relief *)

(** The elapsed time after [n] rounds. *)
Definition elapsed_after (n : nat) : Z := Nat.iter n (fun t => add_i32 t 100) 0.

Lemma elapsed_after_wraps n : elapsed_after n = (100 * Z.of_nat n + 2 ^ 31) mod 2 ^ 32 - 2 ^ 31.
Proof.
  induction n as [|n IH]; [done|]. change (elapsed_after (S n)) with (add_i32 (elapsed_after n) 100). rewrite IH. unfold add_i32.
  replace ((100 * Z.of_nat n + 2 ^ 31) mod 2 ^ 32 - 2 ^ 31 + 100 + 2 ^ 31) with ((100 * Z.of_nat n + 2 ^ 31) mod 2 ^ 32 + 100) by lia. rewrite Zplus_mod_idemp_l. do 2 f_equal. lia.
Qed.

(** The relief of every third round works until the counter of milliseconds, an
    [i32], has passed 2 ^ 31 (24.8 days), and then for 24 further revolutions (3.2
    years) no round calls [relief_paths]. *)
Lemma relief_stops (n : nat) :
  (100 * Z.of_nat n < 2 ^ 31 -> relief_due (elapsed_after n) = (Z.of_nat n mod 3 =? 0)) /\
  (2 ^ 31 <= 100 * Z.of_nat n < 2 ^ 31 + 24 * 2 ^ 32 -> relief_due (elapsed_after n) = false).
Proof.
  rewrite elapsed_after_wraps. set (v := 100 * Z.of_nat n + 2 ^ 31). pose proof (Z.div_mod v (2 ^ 32) ltac:(lia)) as Hd. pose proof (Z.mod_pos_bound v (2 ^ 32) ltac:(lia)) as Hb.
  set (e := v mod 2 ^ 32 - 2 ^ 31) in *. assert (He : e = 100 * Z.of_nat n - 2 ^ 32 * (v / 2 ^ 32)) by lia. unfold relief_due. split; intros Hn.
  - assert (Hq : v / 2 ^ 32 = 0) by (apply Z.div_small; lia). rewrite Hq in He. replace e with (100 * Z.of_nat n) by lia. rewrite Z.rem_mod_nonneg by lia.
    change 300 with (100 * 3). rewrite Z.mul_mod_distr_l by lia. destruct (Z.eqb_spec (100 * (Z.of_nat n mod 3)) 0); destruct (Z.eqb_spec (Z.of_nat n mod 3) 0); lia.
  - assert (Hq : 1 <= v / 2 ^ 32 <= 24) by (split; [apply Z.div_le_lower_bound; lia|apply Z.lt_succ_r, Z.div_lt_upper_bound; lia]). destruct (Z.eqb_spec (Z.rem e 300) 0) as [Hz|]; [|done].
    exfalso. apply Z.rem_divide in Hz as [q Hz]; [|done]. lia.
Qed.

(** [rs_trim] with [RSMallocTrim::All] does not look at the small blocks. *)
Lemma rs_trim_all_skips_small {K} `{!Kernel K} g (st : TrimmerThread) r st' :
  rs_trim g st TrimAll = Ret (r, st') -> hp_slab (tt_heap st') = hp_slab (tt_heap st) /\ tt_smoothing st' = tt_smoothing st.
Proof.
  unfold rs_trim, buddy_trim. cbn [get_request_size]. intros H. destruct (trim_inner _ _ _ _ _ _ _) as [[[[n av] b] k]| |]; cbn [mbind outcome_bind] in H; [|done..].
  rewrite andb_false_r in H. by simplify_eq.
Qed.

(** [rs_trim] says [Trimmed] whatever happened, so [succeeded] holds and [disabled]
    does not, even when no page was given back. *)
Lemma rs_trim_always_succeeds {K} `{!Kernel K} g (st : TrimmerThread) r x st' : rs_trim g st r = Ret (x, st') -> succeeded x = true /\ disabled x = false.
Proof.
  unfold rs_trim. intros H. destruct (buddy_trim _ _ _ _ _) as [[[n av] h]| |]; cbn [mbind outcome_bind] in H; [|done..].
  case_match; [|by simplify_eq]. destruct (trim_small _ _ _ _ _ _ _) as [[[[[small s] k] l] average]| |]; cbn [mbind outcome_bind] in H; [|done..]. by simplify_eq.
Qed.

(** ** Witness *)

Lemma trim_safe_witness :
  exists g (st : TrimmerThread (K := BumpKernel.state)) x st', malloc_trim g st 0 = Ret (x, st') /\ hp_kern (tt_heap st') = hp_kern (tt_heap st).
Proof.
  destruct demo_three_reached as (g & h & ts & p1 & p2 & p3 & Hr & Ht & _).
  destruct (trim_safe demo_machine demo_config BumpKernel.empty g (mkTrimmerThread h (replicate class_count EmaSmoothing_new) 10 10 0 0 0) ts _ (fun k k' => k' = k)
    demo_machine_ok demo_config_ok Ht Hr (length_replicate _ _)) as (_ & _ & H3).
  - split; [intros k; reflexivity|intros k1 k2 k3 H1 H2; transitivity k2; assumption].
  - intros start len k _ _ _. reflexivity.
  - destruct (H3 0) as (x & st' & H1 & [_ _ H2]). exists g, (mkTrimmerThread h (replicate class_count EmaSmoothing_new) 10 10 0 0 0), x, st'. split; assumption.
Defined.
