(* ===== verification/ResizeProps.v ===== *)
(** * The properties of zeroed and resized allocations

    What a program can rely on when it calls [rs_calloc] and [rs_realloc], and a big
    request of [rs_calloc] whose bytes are not zero. *)

From S2P Require Import Prelude Types SizeClasses Kernel Radix RBTree Buddy PageAllocator Numa Predictor SList PendingQueue Rseq SlabCache Heap BulkFill Alloc HeapOps Random GlobalAlloc Trim Realloc HeapLive HeapStart HeapSpec HeapFull FullResize FullSpec HeapProps.

(** C2. Resizing.  In a state that threads have reached, [rs_realloc] of a live
    pointer, small or big, plain or aligned, to any size up to 2^62 ends, or aborts
    because the kernel refuses memory for the allocator's own tables.  When it
    returns null the pointer stays live and no byte has changed.  Otherwise the
    pointer it returns is live in place of the old one, with the same alignment; the
    first bytes, up to the smaller of both sizes, are those of the old pointer; and
    the bytes of every other live pointer have not changed.  With size zero it
    releases the pointer. *)
Theorem realloc_keeps_contents {K} `{!Kernel K} `{!KernelSpec K} (ma : machine) (rc : RSMallocConfig) (k : K) g h ts V t th e (m : Z -> Z) p size align n :
  machine_ok ma -> config_ok rc -> 2 ^ 56 <= ALIGN_TAG (g_config g) -> reached ma rc k g h ts V ->
  ts !! t = Some th -> env_ok (get_max_cpu (get_nprocs_conf ma)) e -> V !! p = Some (size, align) -> 0 <= n <= 2 ^ 62 ->
  match rs_realloc (g_config g) th h e m p n with
  | Ret (p', th', h', m') =>
      let ok := full_ok (g_config g) (get_max_cpu (get_nprocs_conf ma)) h' (<[t := th']> ts) in
      if p' =? null then ok (if n =? 0 then delete p V else V) /\ m' = m
      else ok (<[p' := (n, align)]> (delete p V)) /\ (p' = p \/ V !! p' = None) /\
        (forall i, 0 <= i < Z.min size n -> m' (p' + i) = m (p + i)) /\
        forall q sz al y, q <> p -> V !! q = Some (sz, al) -> q <= y < q + sz -> m' y = m y
  | Fatal er => er = VAIinitFailed \/ er = OutOfMemory
  | Stuck => False
  end.
Proof.
  intros Hm Hc Ht Hr Hth He Hp Hn. destruct (reached_ok ma rc k g h ts V Hm Hc Ht Hr) as (Hok & [Ha M1 M2 _]). destruct (Z.eqb_spec n 0) as [->|Hn0].
  - destruct (full_facts (g_config g) _ Ht h ts V p size align Hok Hp) as (H0 & _). unfold rs_realloc. destruct (Z.eqb_spec p null) as [->|_]; [done|]. cbn [Z.eqb].
    pose proof (free_full (g_config g) _ Ha Ht M1 M2 h ts V e p Hok ltac:(eauto) He) as Hf. destruct (rs_free _ _ _ _); cbn [mbind outcome_bind Z.eqb]; [|by left|done]. by rewrite insert_id.
  - pose proof (realloc_full (g_config g) _ Ha Ht M1 M2 h ts V t th e m p size align n Hok Hth He Hp ltac:(lia)) as Hl. by destruct (rs_realloc _ _ _ _ _ _ _) as [[[[p' th'] h'] m']| |].
Qed.

(** C3. Zeroed memory.  In a state that threads have reached, [rs_calloc] of
    [nmemb] times [size] bytes, at most 2^63, ends, or aborts because the kernel
    refuses memory for the allocator's own tables.  The pointer it returns, if not
    null, is new; when a size class serves the request all its bytes are zero; and
    the bytes of the live pointers have not changed. *)
Theorem calloc_zeroes {K} `{!Kernel K} `{!KernelSpec K} (ma : machine) (rc : RSMallocConfig) (k : K) g h ts V t th e (m : Z -> Z) size nmemb :
  machine_ok ma -> config_ok rc -> 2 ^ 56 <= ALIGN_TAG (g_config g) -> reached ma rc k g h ts V ->
  ts !! t = Some th -> env_ok (get_max_cpu (get_nprocs_conf ma)) e -> 0 <= size -> 0 <= nmemb -> nmemb * size <= 2 ^ 63 ->
  match rs_calloc (g_config g) th h e m size nmemb with
  | Ret (p, th', h', m') =>
      let ok := full_ok (g_config g) (get_max_cpu (get_nprocs_conf ma)) h' (<[t := th']> ts) in
      let n := Z.max (nmemb * size) 1 in
      if p =? null then ok V /\ m' = m
      else V !! p = None /\ ok (<[p := (n, 16)]> V) /\
        (n <= 2097152 -> forall y, p <= y < p + n -> m' y = 0) /\ forall q sz al y, V !! q = Some (sz, al) -> q <= y < q + sz -> m' y = m y
  | Fatal er => er = VAIinitFailed \/ er = OutOfMemory
  | Stuck => False
  end.
Proof.
  intros Hm Hc Ht Hr Hth He Hs Hn Hsum. destruct (reached_ok ma rc k g h ts V Hm Hc Ht Hr) as (Hok & [Ha M1 M2 _]).
  pose proof (calloc_full (g_config g) _ Ha M1 h ts V t th e m size nmemb Hok Hth He Hs Hn Hsum) as Hl. by destruct (rs_calloc _ _ _ _ _ _ _) as [[[[p th'] h'] m']| |].
Qed.

(** ** Big requests *)

(** A block that the buddy allocator has never handed out starts with its
    [FreeBlock], whose [life_time] lies 16 bytes after the start of the block, where
    the payload starts.  Here the first region is used up and the clock stands at 5;
    [rs_calloc] takes a block of a new region and leaves its memory as it is. *)
Definition calloc_demo (m : Z -> Z) : outcome (Z * heap BumpKernel.state * (Z -> Z)) :=
  '(g, h) ← GlobalAlloc.init demo_machine demo_config BumpKernel.empty;
  '(_, th, h) ← rs_alloc (g_config g) tls_new h demo_env (64 * 1024 * 1024 - 16) false;
  '(p, _, h, m) ← rs_calloc (g_config g) th (with_stamp h 5) demo_env m 1 (3 * 1024 * 1024);
  Ret (p, h, m).

Lemma calloc_not_zeroed (m : Z -> Z) :
  exists p h b, calloc_demo m = Ret (p, h, m) /\ p <> null /\ bd_blocks (hp_buddy h) !! (p - Header_SIZE) = Some b /\ fb_life_time b = 5.
Proof.
  assert (Hr : match calloc_demo m with
               | Ret (p, h, m') => m' = m /\ negb (p =? 0) && match bd_blocks (hp_buddy h) !! (p - Header_SIZE) with Some b => fb_life_time b =? 5 | None => false end = true
               | _ => False
               end) by (vm_compute; done).
  destruct (calloc_demo m) as [[[p h] m']| |]; [|done..]. destruct Hr as [-> Hr]. apply andb_true_iff in Hr as [H1 H2]. destruct (bd_blocks (hp_buddy h) !! (p - Header_SIZE)) as [b|] eqn:Hb; [|done].
  exists p, h, b. split; [done|]. split; [|split; [done|lia]]. intros ->. done.
Qed.

(** ** Witnesses *)

Lemma demo_thread : exists g (h : heap BumpKernel.state) ts V p th,
  reached demo_machine demo_config BumpKernel.empty g h ts V /\ V !! p = Some (100 * 1024 * 1024, 16) /\ 2 ^ 56 <= ALIGN_TAG (g_config g) /\ ts !! 1%nat = Some th.
Proof.
  destruct demo_three_reached as (g & h & ts & p1 & p2 & p3 & (Hv & h0 & Hi & Hs) & Ht & _). destruct (ts !! 1%nat) as [th|] eqn:E.
  - exists g, h, ts, (<[p3 := (100 * 1024 * 1024, 16)]> (<[p2 := (3 * 1024 * 1024, 4096)]> {[p1 := (100000, 64)]})), p3, th. split; [split; [assumption|]; exists h0; split; assumption|split; [apply lookup_insert_eq|split; assumption]].
  - exists g, h, (<[1%nat := tls_new]> ts), (<[p3 := (100 * 1024 * 1024, 16)]> (<[p2 := (3 * 1024 * 1024, 4096)]> {[p1 := (100000, 64)]})), p3, tls_new. split; [|split; [apply lookup_insert_eq|split; [assumption|apply lookup_insert_eq]]].
    split; [assumption|]. exists h0. split; [assumption|]. eapply rtc_r; [exact Hs|]. apply full_step_start. assumption.
Qed.

Lemma realloc_keeps_contents_witness :
  exists g (h : heap BumpKernel.state) th p, match rs_realloc (g_config g) th h demo_env (fun y => y mod 256) p 200000000 with
    | Ret (p', _, _, m') => p' <> null -> m' p' = p mod 256
    | _ => True
    end.
Proof.
  destruct demo_thread as (g & h & ts & V & p & th & Hr & Hp & Ht & Hth). exists g, h, th, p.
  pose proof (realloc_keeps_contents demo_machine demo_config BumpKernel.empty g h ts V 1%nat th demo_env (fun y => y mod 256) p (100 * 1024 * 1024) 16 200000000 demo_machine_ok demo_config_ok Ht Hr Hth demo_env_ok Hp ltac:(lia)) as Hl.
  destruct (rs_realloc _ _ _ _ _ _ _) as [[[[p' th'] h'] m']| |]; [|exact I|exact I]. intros Hp'. destruct (Z.eqb_spec p' null) as [E|_]; [contradiction|]. destruct Hl as (_ & _ & Hc & _).
  specialize (Hc 0 ltac:(lia)). rewrite !Z.add_0_r in Hc. exact Hc.
Defined.

Lemma calloc_zeroes_witness :
  exists g (h : heap BumpKernel.state) th, match rs_calloc (g_config g) th h demo_env (fun _ => 7) 40 25 with
    | Ret (p, _, _, m') => p <> null -> m' (p + 999) = 0
    | Fatal er => er = VAIinitFailed \/ er = OutOfMemory
    | Stuck => False
    end.
Proof.
  destruct demo_thread as (g & h & ts & V & p & th & Hr & Hp & Ht & Hth). exists g, h, th.
  pose proof (calloc_zeroes demo_machine demo_config BumpKernel.empty g h ts V 1%nat th demo_env (fun _ => 7) 40 25 demo_machine_ok demo_config_ok Ht Hr Hth demo_env_ok ltac:(lia) ltac:(lia) ltac:(lia)) as Hl.
  destruct (rs_calloc _ _ _ _ _ _ _) as [[[[p' th'] h'] m']| |]; [|exact Hl|exact Hl]. intros Hp'. destruct (Z.eqb_spec p' null) as [E|_]; [contradiction|]. destruct Hl as (_ & _ & Hc & _).
  apply Hc; lia.
Defined.
