(* ===== verification/Stats.v ===== *)
(** * Statistics (src/global_alloc.rs, with the reports of the components)

    [get_stats] and [get_exact_stats] of the Rust interface, in a build with the
    features [debug] and [debug-exact]: the walks over the free lists of the buddy
    allocator, the tables of the ownership map, the arenas and the per-CPU caches,
    and the counters, which are an argument.  The theorems say what the numbers of
    the walks mean.  The features [transfer-debug] and [transfer-debug-exact] are
    off. *)

From Stdlib Require Import SpecFloat.
From stdpp Require Import strings.
From S2P Require Import Prelude Types SizeClasses Kernel Radix RBTree Buddy PageAllocator Numa Bitmap SlabCache Heap BulkFill Alloc GlobalAlloc Realloc Trim.

(** ** The buddy allocator (src/big_allocations/buddy.rs) *)

Record BuddyBackendReport := mkBuddyBackendReport {
  br_regions : Z;
  br_total_region_bytes : Z;
  br_free_bytes : Z;
  br_free_blocks : list Z;
  br_never_allocated_blocks : Z;
  br_reused_blocks : Z;
  br_trimmed_blocks : Z;
  br_never_allocated_by_order : list Z;
  br_reused_by_order : list Z;
  br_trimmed_by_order : list Z;
  br_grow_order : Z;
  br_thp : bool;
}.

(** [l[i] += 1]; an index out of range is a panic. *)
Definition increment (l : list Z) (i : Z) : outcome (list Z) :=
  v ← at_index l i; Ret (<[Z.to_nat i := wadd v 1]> l).

Definition report_block (rep : BuddyBackendReport) (index block_size : Z) (b : FreeBlock) : outcome BuddyBackendReport :=
  free ← increment (br_free_blocks rep) index;
  let free_bytes := saturating_add 64 (br_free_bytes rep) block_size in
  if fb_trim_state b =? BUDDY_TRIM_NOT_ALLOCATED then
    l ← increment (br_never_allocated_by_order rep) index;
    Ret (mkBuddyBackendReport (br_regions rep) (br_total_region_bytes rep) free_bytes free (wadd (br_never_allocated_blocks rep) 1) (br_reused_blocks rep)
           (br_trimmed_blocks rep) l (br_reused_by_order rep) (br_trimmed_by_order rep) (br_grow_order rep) (br_thp rep))
  else if fb_trim_state b =? BUDDY_TRIM_TRIMMED then
    l ← increment (br_trimmed_by_order rep) index;
    Ret (mkBuddyBackendReport (br_regions rep) (br_total_region_bytes rep) free_bytes free (br_never_allocated_blocks rep) (br_reused_blocks rep)
           (wadd (br_trimmed_blocks rep) 1) (br_never_allocated_by_order rep) (br_reused_by_order rep) l (br_grow_order rep) (br_thp rep))
  else
    l ← increment (br_reused_by_order rep) index;
    Ret (mkBuddyBackendReport (br_regions rep) (br_total_region_bytes rep) free_bytes free (br_never_allocated_blocks rep) (wadd (br_reused_blocks rep) 1)
           (br_trimmed_blocks rep) (br_never_allocated_by_order rep) l (br_trimmed_by_order rep) (br_grow_order rep) (br_thp rep)).

Fixpoint report_list (fuel : nat) (s : Buddy) (rep : BuddyBackendReport) (curr index block_size : Z) : outcome BuddyBackendReport :=
  match fuel with
  | O => Stuck
  | S fuel' =>
      if curr =? null then Ret rep
      else
        b ← get_block s curr;
        rep ← report_block rep index block_size b;
        report_list fuel' s rep (fb_next b) index block_size
  end.

Fixpoint report_orders (fuel : nat) (s : Buddy) (rep : BuddyBackendReport) (x : BuddyRegion) (order : Z) : outcome BuddyBackendReport :=
  match fuel with
  | O => Stuck
  | S fuel' =>
      if order <=? r_order x then
        let index := order_index order in
        head ← at_index (r_free x) index;
        rep ← report_list (S (size (bd_blocks s))) s rep head index (wshl 1 order);
        report_orders fuel' s rep x (order + 1)
      else Ret rep
  end.

(** One more region. *)
Definition count_region (rep : BuddyBackendReport) (total_size : Z) : BuddyBackendReport :=
  mkBuddyBackendReport (wadd (br_regions rep) 1) (saturating_add 64 (br_total_region_bytes rep) total_size) (br_free_bytes rep) (br_free_blocks rep)
    (br_never_allocated_blocks rep) (br_reused_blocks rep) (br_trimmed_blocks rep) (br_never_allocated_by_order rep) (br_reused_by_order rep)
    (br_trimmed_by_order rep) (br_grow_order rep) (br_thp rep).

Fixpoint report_regions (fuel : nat) (s : Buddy) (rep : BuddyBackendReport) (r : Z) : outcome BuddyBackendReport :=
  match fuel with
  | O => Stuck
  | S fuel' =>
      if r =? null then Ret rep
      else
        x ← get_region s r;
        rep ← report_orders 65 s (count_region rep (r_total_size x)) x BIG_BUDDY_MIN_ORDER;
        report_regions fuel' s rep (r_next x)
  end.

Definition report_zero (s : Buddy) : BuddyBackendReport :=
  let zeros := replicate (Z.to_nat BUDDY_NUM_ORDERS) 0 in
  mkBuddyBackendReport 0 0 0 zeros 0 0 0 zeros zeros zeros (bd_grow_order s) (bd_thp s).

Definition buddy_report (s : Buddy) : outcome BuddyBackendReport :=
  report_regions (S (size (bd_region_mem s))) s (report_zero s) (bd_regions s).

(** ** The ownership map (src/internals/radix_tree.rs) *)

Record RadixReport := mkRadixReport {
  rr_l1_nodes : Z;
  rr_l2_nodes : Z;
  rr_leaves : Z;
  rr_owned_chunks : Z;
  rr_metadata_bytes : Z;
}.

(** [u64::count_ones] *)
Definition count_ones (w : Z) : Z := Z.of_nat (length (filter (fun b => Z.testbit w b = true) (seqZ 0 64))).

(** The numbers of tables of each level and of owned chunks, so far. *)
Record RadixCounts := mkRadixCounts { n_l1 : Z; n_l2 : Z; n_leaves : Z; n_owned : Z }.

Definition report_l3 (m : words) (l3 : Z) (c : RadixCounts) : RadixCounts :=
  fold_left (fun c word => mkRadixCounts (n_l1 c) (n_l2 c) (n_leaves c) (wadd (n_owned c) (count_ones (load m l3 word)))) (seqZ 0 L3_BITMAP_WORDS) c.

Definition report_l2 (m : words) (l2 : Z) (c : RadixCounts) : RadixCounts :=
  fold_left (fun c i2 =>
    let l3 := load m l2 i2 in
    if l3 =? null then c
    else report_l3 m l3 (mkRadixCounts (n_l1 c) (n_l2 c) (wadd (n_leaves c) 1) (n_owned c))) (seqZ 0 L2_SIZE) c.

Definition report_l1 (m : words) (l1 : Z) (c : RadixCounts) : RadixCounts :=
  fold_left (fun c i1 =>
    let l2 := load m l1 i1 in
    if l2 =? null then c
    else report_l2 m l2 (mkRadixCounts (n_l1 c) (wadd (n_l2 c) 1) (n_leaves c) (n_owned c))) (seqZ 0 L1_SIZE) c.

Definition report_l0 (m : words) (l0 : Z) (c : RadixCounts) : RadixCounts :=
  fold_left (fun c i0 =>
    let l1 := load m l0 i0 in
    if l1 =? null then c
    else report_l1 m l1 (mkRadixCounts (wadd (n_l1 c) 1) (n_l2 c) (n_leaves c) (n_owned c))) (seqZ 0 L0_SIZE) c.

Definition radix_report {K} (t : RadixTree K) : RadixReport :=
  if l0 t =? null then mkRadixReport 0 0 0 0 0
  else
    let c := report_l0 (mem t) (l0 t) (mkRadixCounts 0 0 0 0) in
    let metadata_bytes :=
      wadd (wadd (wadd (wmul L0_SIZE 8) (wmul (wmul (n_l1 c) L1_SIZE) 8)) (wmul (wmul (n_l2 c) L2_SIZE) 8)) (wmul (wmul (n_leaves c) L3_BITMAP_WORDS) 8) in
    mkRadixReport (n_l1 c) (n_l2 c) (n_leaves c) (n_owned c) metadata_bytes.

(** ** The page allocator (src/backend/page_allocator.rs) *)

Fixpoint count_arenas (fuel : nat) (m : gmap Z PageArena) (arena count : Z) : outcome Z :=
  match fuel with
  | O => Stuck
  | S fuel' =>
      if arena =? null then Ret count
      else
        a ← from_option (m !! arena);
        count_arenas fuel' m (pa_next a) (wadd count 1)
  end.

Fixpoint node_counts {K} (p : PageAllocator K) (nodes : list NodeArena) : outcome (list Z) :=
  match nodes with
  | [] => Ret []
  | node :: nodes =>
      count ← count_arenas (S (size (pg_mem p))) (pg_mem p) (na_arenas (na_state node)) 0;
      counts ← node_counts p nodes;
      Ret (count :: counts)
  end.

Definition arena_counts {K} (p : PageAllocator K) : outcome (list Z) :=
  match it_arenas (pg_inner p) with
  | None => Ret []
  | Some arenas => node_counts p (take (Z.to_nat (it_node_count (pg_inner p))) arenas)
  end.

(** ** The per-CPU caches (src/rseq_core/slab_cache.rs) *)

Definition get_rseq_cpu_class_usage_bytes (i : SlabCacheInner) (cpu_id class : Z) : outcome Z :=
  cpu ← get_cache i cpu_id class;
  payload ← from_option (SIZE_CLASSES !! Z.to_nat class);
  let block_size := align_to (payload + Header_SIZE) 16 in
  Ret (saturating_mul (rc_usage cpu) block_size).

Fixpoint cpu_usage_loop (i : SlabCacheInner) (cpu_id : Z) (classes : list Z) (total_usage : Z) : outcome Z :=
  match classes with
  | [] => Ret total_usage
  | class :: classes =>
      bytes ← get_rseq_cpu_class_usage_bytes i cpu_id class;
      cpu_usage_loop i cpu_id classes (saturating_add 64 total_usage bytes)
  end.

Definition get_rseq_cpu_usage_bytes (i : SlabCacheInner) (cpu_id : Z) : outcome Z :=
  cpu_usage_loop i cpu_id (seqZ 0 NUM_SIZE_CLASSES) 0.

(** ** The statistics (src/global_alloc.rs) *)

(** The counters of the feature [debug] (src/lib.rs, src/trim.rs) and the averages of
    the trim thread. *)
Record Counters := mkCounters {
  REFILL_UNDER_PREDICTS : Z;
  REFILL_OVER_PREDICTS : Z;
  TOTAL_REFILL_CALLS : Z;
  REFILLS_BY_CLASS : list Z;
  ABORTS : Z;
  HIGH_WATER_SLAB_CACHED_VA : Z;
  HIGH_WATER_BUDDY_CACHED_VA : Z;
  HIGH_WATER_TOTAL_CACHED_VA : Z;
  TOTAL_TRIM_CALLS : Z;
  TOTAL_TRIMMED_VA : Z;
  SMALL_BLOCK_TIMES : Z;
  BUDDY_BLOCK_TIMES : Z;
}.

Definition f64 : Set := spec_float.
Definition f64_of_Z (z : Z) : f64 := binary_normalize 53 1024 z 0 false.
Definition f64_div : f64 -> f64 -> f64 := SFdiv 53 1024.
Definition f64_mul : f64 -> f64 -> f64 := SFmul 53 1024.
Definition f64_sub : f64 -> f64 -> f64 := SFsub 53 1024.

Record RSMallocStats := mkRSMallocStats {
  total_refills : Z;
  refill_under_predicts : Z;
  refill_over_predicts : Z;
  total_misses : Z;
  success_rates : f64;
  miss_percentage : f64;
  rseq_aborts : Z;

  total_cached_va : Z;
  slab_cached_va : Z;
  buddy_cached_va : Z;
  high_water_slab_cached_va : Z;
  high_water_buddy_cached_va : Z;
  high_water_total_cached_va : Z;

  numa_enabled : bool;
  numa_cpus : Z;
  numa_nodes : Z;
  numa_ranges : Z;

  rseq_cpu_count : Z;
  rseq_cpu_cached_bytes : Z;
  rseq_cpu_buffer : Z;
  rseq_cpu_total_cached_bytes : Z;
  rseq_cpu_min_cached_bytes : Z;
  rseq_cpu_max_cached_bytes : Z;
  rseq_cpu_nonempty : Z;

  size_classes : list Z;
  refills_by_class : list Z;
  class_cached_bytes : list Z;
  class_active_cpus : list Z;
  class_min_cached_bytes : list Z;
  class_max_cached_bytes : list Z;
  class_avg_cached_bytes : list Z;

  trim_calls : Z;
  trimmed_va : Z;
  avg_small_life_ms : Z;
  avg_buddy_life_ms : Z;
  buddy_disabled : bool;

  buddy_regions : Z;
  buddy_total_region_bytes : Z;
  buddy_used_bytes : Z;
  buddy_free_bytes : Z;
  buddy_free_blocks : Z;
  buddy_never_allocated_blocks : Z;
  buddy_reused_blocks : Z;
  buddy_trimmed_blocks : Z;
  buddy_never_allocated_bytes : Z;
  buddy_reused_bytes : Z;
  buddy_trimmed_bytes : Z;
  buddy_free_blocks_by_order : list Z;
  buddy_never_allocated_by_order : list Z;
  buddy_reused_by_order : list Z;
  buddy_trimmed_by_order : list Z;
  buddy_grow_order : Z;
  buddy_thp : bool;

  radix_l1_nodes : Z;
  radix_l2_nodes : Z;
  radix_leaves : Z;
  radix_owned_chunks : Z;
  radix_chunk_size : Z;
  radix_owned_bytes : Z;
  radix_metadata_bytes : Z;
  radix_metadata_per_chunk : f64;
}.

(** A store of a [usize] to eight bytes, the least significant first. *)
Definition store_usize (m : bytes) (p v : Z) : bytes :=
  fun y => if (p <=? y) && (y <? p + 8) then Z.land (Z.shiftr v (8 * (y - p))) 255 else m y.

(** Total, least and greatest usage of the CPUs and the number of CPUs in use. *)
Record Usage := mkUsage { us_total : Z; us_min : Z; us_max : Z; us_count : Z }.

Fixpoint cpu_stats (i : SlabCacheInner) (m : bytes) (buffer : Z) (cpus : list Z) (u : Usage) : outcome (Usage * bytes) :=
  match cpus with
  | [] => Ret (u, m)
  | cpu :: cpus =>
      bytes ← get_rseq_cpu_usage_bytes i cpu;
      let m := if negb (buffer =? null) then store_usize m (wadd buffer (wmul 8 cpu)) bytes else m in
      let u := mkUsage (saturating_add 64 (us_total u) bytes) (Z.min (us_min u) bytes) (Z.max (us_max u) bytes)
                 (if negb (bytes =? 0) then wadd (us_count u) 1 else us_count u) in
      cpu_stats i m buffer cpus u
  end.

Fixpoint class_cpu_stats (i : SlabCacheInner) (class : Z) (cpus : list Z) (u : Usage) : outcome Usage :=
  match cpus with
  | [] => Ret u
  | cpu :: cpus =>
      bytes ← get_rseq_cpu_class_usage_bytes i cpu class;
      let total := saturating_add 64 (us_total u) bytes in
      let u := if negb (bytes =? 0) then mkUsage total (Z.min (us_min u) bytes) (Z.max (us_max u) bytes) (wadd (us_count u) 1)
               else mkUsage total (us_min u) (us_max u) (us_count u) in
      class_cpu_stats i class cpus u
  end.

(** The usage of each class, and the refills. *)
Fixpoint class_stats (i : SlabCacheInner) (cpus : list Z) (refills : list Z) (classes : list Z) : outcome (list (Z * Usage)) :=
  match classes with
  | [] => Ret []
  | class :: classes =>
      n ← from_option (refills !! Z.to_nat class);
      u ← class_cpu_stats i class cpus (mkUsage 0 usize_max 0 0);
      l ← class_stats i cpus refills classes;
      Ret ((n, u) :: l)
  end.

Definition class_min (u : Usage) : Z := if us_count u =? 0 then 0 else us_min u.
Definition class_avg (u : Usage) : Z := if us_count u =? 0 then 0 else us_total u / us_count u.

(** [iter().sum()] *)
Definition sum_usize (l : list Z) : Z := fold_left wadd l 0.

Definition bytes_by_order (l : list Z) : Z :=
  sum_usize (imap (fun index blocks => saturating_mul blocks (wshl 1 (BIG_BUDDY_MIN_ORDER + Z.of_nat index))) l).

Definition miss_percent (misses total : Z) : f64 :=
  if total =? 0 then f64_of_Z 0 else f64_mul (f64_div (f64_of_Z misses) (f64_of_Z total)) (f64_of_Z 100).

Section Stats.
Context {K : Type} `{!Kernel K} (cfg : config).
Implicit Types (h : heap K) (th : tls) (m : bytes).

Definition alloc_usize_array th h (e : env) (count : Z) : outcome (Z * tls * heap K) :=
  match checked_mul count 8 with
  | None => Ret (null, th, h)
  | Some bytes => rs_alloc cfg th h e bytes false
  end.

(** After [init], which does nothing the second time. *)
Definition get_stats th h (e : env) m (c : Counters) : outcome (RSMallocStats * tls * heap K * bytes) :=
  let under := REFILL_UNDER_PREDICTS c in
  let over := REFILL_OVER_PREDICTS c in
  let misses := saturating_add 64 under over in
  let total := TOTAL_REFILL_CALLS c in
  let percentage := miss_percent misses total in
  let success_rates := f64_sub (f64_of_Z 100) percentage in
  let slab_cached := hp_cached_va h in
  let buddy_cached := bd_cached_va (hp_buddy h) in
  let total_cached := saturating_add 64 slab_cached buddy_cached in
  let cpu_limit := ncpu (si_numa (sl_inner (hp_slab h))) in
  '(buffer, th, h) ← alloc_usize_array th h e cpu_limit;
  let inner := sl_inner (hp_slab h) in
  '(u, m) ← cpu_stats inner m buffer (seqZ 0 cpu_limit) (mkUsage 0 usize_max 0 0);
  let cpu_min := if cpu_limit =? 0 then 0 else us_min u in
  classes ← class_stats inner (seqZ 0 cpu_limit) (REFILLS_BY_CLASS c) (seqZ 0 NUM_SIZE_CLASSES);
  let us := classes.*2 in
  let numa := si_numa inner in
  buddy ← buddy_report (hp_buddy h);
  let radix := radix_report (hp_radix h) in
  let used := saturating_sub (br_total_region_bytes buddy) (br_free_bytes buddy) in
  let owned_bytes := saturating_mul (rr_owned_chunks radix) CHUNK_SIZE in
  let per_chunk := if rr_owned_chunks radix =? 0 then f64_of_Z 0 else f64_div (f64_of_Z (rr_metadata_bytes radix)) (f64_of_Z (rr_owned_chunks radix)) in
  Ret (mkRSMallocStats total under over misses success_rates percentage (ABORTS c)
         total_cached slab_cached buddy_cached (HIGH_WATER_SLAB_CACHED_VA c) (HIGH_WATER_BUDDY_CACHED_VA c) (HIGH_WATER_TOTAL_CACHED_VA c)
         (si_is_numa inner) (ncpu numa) (nnodes numa) (nranges numa)
         cpu_limit buffer buffer (us_total u) cpu_min (us_max u) (us_count u)
         SIZE_CLASSES classes.*1 (us_total <$> us) (us_count <$> us) (class_min <$> us) (us_max <$> us) (class_avg <$> us)
         (TOTAL_TRIM_CALLS c) (TOTAL_TRIMMED_VA c) (Z.min (SMALL_BLOCK_TIMES c * 100) (2 ^ 32 - 1)) (Z.min (BUDDY_BLOCK_TIMES c * 100) (2 ^ 32 - 1)) (hp_disable_buddy h)
         (br_regions buddy) (br_total_region_bytes buddy) used (br_free_bytes buddy) (sum_usize (br_free_blocks buddy))
         (br_never_allocated_blocks buddy) (br_reused_blocks buddy) (br_trimmed_blocks buddy)
         (bytes_by_order (br_never_allocated_by_order buddy)) (bytes_by_order (br_reused_by_order buddy)) (bytes_by_order (br_trimmed_by_order buddy))
         (br_free_blocks buddy) (br_never_allocated_by_order buddy) (br_reused_by_order buddy) (br_trimmed_by_order buddy)
         (br_grow_order buddy) (br_thp buddy)
         (rr_l1_nodes radix) (rr_l2_nodes radix) (rr_leaves radix) (rr_owned_chunks radix) CHUNK_SIZE owned_bytes (rr_metadata_bytes radix) per_chunk,
       th, h, m).

(** [RSMallocStats::drop] *)
Definition drop_stats h (e : env) (s : RSMallocStats) : outcome (heap K) :=
  if (rseq_cpu_cached_bytes s =? null) || (rseq_cpu_count s =? 0) then Ret h else rs_free cfg h e (rseq_cpu_buffer s).
End Stats.

(** ** Capabilities and exact statistics *)

Inductive NumaSupport := Unsupported | Partial | Supported.

Definition is_unsupported (n : NumaSupport) : bool := match n with Unsupported => true | _ => false end.
Definition is_partial (n : NumaSupport) : bool := match n with Partial => true | _ => false end.
Definition is_supported (n : NumaSupport) : bool := match n with Supported => true | _ => false end.

Record RSMallocCapabilities := mkRSMallocCapabilities { thp_enabled : bool; numa_support : NumaSupport; version : string }.

(** The counters of the feature [debug-exact] (src/lib.rs). *)
Record LockCounters := mkLockCounters {
  GLOBAL_LOCKS : Z;
  GLOBAL_LOCK_RETRIES : Z;
  GLOBAL_TRY_LOCKS : Z;
  GLOBAL_TRY_LOCK_MISSES : Z;
  GLOBAL_SPIN_WAITS : Z;
}.

Record RSMallocExactStats := mkRSMallocExactStats {
  stats : RSMallocStats;
  total_locks : Z;
  total_lock_retries : Z;
  total_try_locks : Z;
  total_try_lock_misses : Z;
  total_spin_waits : Z;
  aborts_vs_locks : f64;
  under_vs_over : Z;
  over_vs_under : Z;
  capabilities : RSMallocCapabilities;
}.

(** The version is the one of the build. *)
Definition get_capabilities (rc : RSMallocConfig) (CARGO_PKG_VERSION : string) : RSMallocCapabilities :=
  mkRSMallocCapabilities (THP_enabled (rc_thp rc)) Partial CARGO_PKG_VERSION.

(** On the statistics [get_stats] returns. *)
Definition get_exact_stats (rc : RSMallocConfig) (CARGO_PKG_VERSION : string) (s : RSMallocStats) (l : LockCounters) : RSMallocExactStats :=
  let locks := GLOBAL_LOCKS l in
  let aborts_vs_locks := if locks =? 0 then f64_of_Z 0 else f64_div (f64_of_Z (rseq_aborts s)) (f64_of_Z locks) in
  mkRSMallocExactStats s locks (GLOBAL_LOCK_RETRIES l) (GLOBAL_TRY_LOCKS l) (GLOBAL_TRY_LOCK_MISSES l) (GLOBAL_SPIN_WAITS l) aborts_vs_locks
    (saturating_sub (refill_under_predicts s) (refill_over_predicts s)) (saturating_sub (refill_over_predicts s) (refill_under_predicts s))
    (get_capabilities rc CARGO_PKG_VERSION).

(** ** The calls in the style of malloc

    After [init]; [rs_calloc] of the interface takes its arguments in the order of C. *)

Module RSMalloc.
Section RSMalloc.
Context {K : Type} `{!Kernel K} (cfg : config).
Implicit Types (h : heap K) (th : tls) (m : bytes).

Definition rs_malloc th h (e : env) (size : Z) : outcome (Z * tls * heap K) := Alloc.rs_alloc cfg th h e size false.

Definition rs_calloc th h (e : env) m (nmemb size : Z) : outcome (Z * tls * heap K * bytes) := Realloc.rs_calloc cfg th h e m size nmemb.

Definition rs_memalign th h (e : env) (alignment size : Z) : outcome (Z * tls * heap K) := Alloc.memalign_inner cfg th h e alignment size.

Definition rs_realloc th h (e : env) m (ptr new_size : Z) : outcome (Z * tls * heap K * bytes) := Realloc.rs_realloc cfg th h e m ptr new_size.

Definition rs_free h (e : env) (ptr : Z) : outcome (heap K) := Alloc.rs_free cfg h e ptr.
End RSMalloc.
End RSMalloc.
