(* ===== verification/BuddyReport.v ===== *)
(** * The report of the buddy allocator

    The report counts the regions and each block on their free lists once, by order and
    trim state; no counter of it overflows.  The free blocks and the blocks handed out
    tile every region, so the bytes the report finds free and the bytes handed out add
    up to the bytes of the regions. *)

From S2P Require Import Prelude Types SizeClasses DList Kernel Binder Radix RadixProofs Buddy BuddyRep BuddyProofs BuddyGrow BuddySpec BuddyWhole BuddyProps Stats.

Ltac Zify.zify_post_hook ::= idtac.

(** ** Sums *)

Fixpoint sum_by {A} (f : A -> Z) (l : list A) : Z := match l with [] => 0 | x :: l => f x + sum_by f l end.

Lemma sum_by_app {A} (f : A -> Z) l l' : sum_by f (l ++ l') = sum_by f l + sum_by f l'.
Proof. induction l as [|x l IH]; cbn [sum_by app]; lia. Qed.

Lemma sum_by_fmap {A B} (f : B -> Z) (g : A -> B) l : sum_by f (g <$> l) = sum_by (fun x => f (g x)) l.
Proof. induction l as [|x l IH]; cbn; [done|]. by rewrite IH. Qed.

Lemma sum_by_nonneg {A} (f : A -> Z) l : (forall x, x ∈ l -> 0 <= f x) -> 0 <= sum_by f l.
Proof.
  induction l as [|x l IH]; cbn [sum_by]; [done|]. intros H. pose proof (H x ltac:(by left)).
  pose proof (IH ltac:(intros y Hy; apply H; by right)). lia.
Qed.

Lemma sum_by_ext {A} (f g : A -> Z) l : (forall x, x ∈ l -> f x = g x) -> sum_by f l = sum_by g l.
Proof.
  induction l as [|x l IH]; cbn [sum_by]; [done|]. intros H. rewrite (H x), IH; [done| |by left]. intros y Hy. apply H. by right.
Qed.

Lemma sum_by_plus {A} (f g : A -> Z) l : sum_by (fun x => f x + g x) l = sum_by f l + sum_by g l.
Proof. induction l as [|x l IH]; cbn [sum_by]; lia. Qed.

Lemma sum_by_bind {A B} (f : B -> Z) (g : A -> list B) l : sum_by f (l ≫= g) = sum_by (fun x => sum_by f (g x)) l.
Proof. induction l as [|x l IH]; cbn; [done|]. by rewrite sum_by_app, IH. Qed.

#[export] Instance sum_by_perm {A} (f : A -> Z) : Proper (Permutation ==> eq) (sum_by f).
Proof. induction 1; cbn [sum_by]; lia. Qed.

(** How many elements have the property. *)
Definition count_by {A} (p : A -> bool) (l : list A) : Z := sum_by (fun x => if p x then 1 else 0) l.

Lemma count_by_bound {A} (p : A -> bool) l : 0 <= count_by p l <= Z.of_nat (length l).
Proof. unfold count_by. induction l as [|x l IH]; cbn [sum_by length]; [lia|]. destruct (p x); lia. Qed.

Lemma count_by_snoc {A} (p : A -> bool) l x : count_by p (l ++ [x]) = count_by p l + (if p x then 1 else 0).
Proof. unfold count_by. rewrite sum_by_app. cbn [sum_by]. lia. Qed.

(** ** Intervals

    Disjoint intervals inside another one, as pairs of a start and a length. *)

Section Intervals.
Context {A : Type} (start len : A -> Z).

Definition bytes_of (l : list A) : list Z := l ≫= fun x => seqZ (start x) (len x).

Lemma bytes_length l : (forall x, x ∈ l -> 0 <= len x) -> Z.of_nat (length (bytes_of l)) = sum_by len l.
Proof.
  induction l as [|x l IH]; cbn [bytes_of mbind list_bind sum_by]; [done|]. intros H. pose proof (H x ltac:(by left)).
  fold (bytes_of l). rewrite length_app, length_seqZ, Nat2Z.inj_add, IH by (intros y Hy; apply H; by right). lia.
Qed.

Lemma bytes_elem l y : y ∈ bytes_of l <-> exists x, x ∈ l /\ start x <= y < start x + len x.
Proof. unfold bytes_of. rewrite list_elem_of_bind. setoid_rewrite elem_of_seqZ. naive_solver. Qed.

Context (l : list A) (Hnd : NoDup l) (Hlen : forall x, x ∈ l -> 0 <= len x)
  (Hdisj : forall x x' y, x ∈ l -> x' ∈ l -> start x <= y < start x + len x -> start x' <= y < start x' + len x' -> x = x').

Lemma bytes_nodup : NoDup (bytes_of l).
Proof using Hnd Hdisj.
  apply NoDup_bind; [|intros; apply NoDup_seqZ|done]. intros x x' y Hx Hx' Hy%elem_of_seqZ Hy'%elem_of_seqZ. by eapply Hdisj.
Qed.

Lemma intervals_inside b t : 0 <= t -> (forall x, x ∈ l -> b <= start x /\ start x + len x <= b + t) -> sum_by len l <= t.
Proof using All.
  intros Ht Hin. rewrite <- bytes_length by done. rewrite <- (Z2Nat.id t Ht) at 1. rewrite <- (length_seqZ b t). apply inj_le, submseteq_length, NoDup_submseteq; [apply bytes_nodup|].
  intros y (x & Hx & Hy)%bytes_elem. apply elem_of_seqZ. specialize (Hin x Hx). lia.
Qed.

Lemma intervals_cover b t : 0 <= t -> (forall x, x ∈ l -> b <= start x /\ start x + len x <= b + t) ->
  (forall y, b <= y < b + t -> exists x, x ∈ l /\ start x <= y < start x + len x) -> sum_by len l = t.
Proof using All.
  intros Ht Hin Hc. rewrite <- bytes_length by done. assert (Hp : bytes_of l ≡ₚ seqZ b t); [|rewrite Hp, length_seqZ; lia].
  apply NoDup_Permutation; [apply bytes_nodup|apply NoDup_seqZ|].
  intros y. rewrite bytes_elem, elem_of_seqZ. split; [|apply Hc]. intros (x & Hx & Hy). specialize (Hin x Hx). lia.
Qed.
End Intervals.

(** ** A region

    Its blocks, free or handed out, as pairs of order and address. *)

Definition block_bytes (oa : Z * Z) : Z := 2 ^ oa.1.

Definition orders : list Z := seqZ 22 5.

Definition free_pairs (L : Z -> list Z) : list (Z * Z) := orders ≫= fun o => pair o <$> L o.

Definition free_total (L : Z -> list Z) : Z := sum_by (fun o => Z.of_nat (length (L o)) * 2 ^ o) orders.

Definition used_total (A : gset (Z * Z)) : Z := sum_by block_bytes (elements A).

Lemma block_bytes_const o (l : list Z) : sum_by block_bytes (pair o <$> l) = Z.of_nat (length l) * 2 ^ o.
Proof. induction l as [|a l IH]; cbn [fmap list_fmap sum_by length]; [done|]. rewrite IH. unfold block_bytes at 1. cbn [fst]. lia. Qed.

Lemma free_pairs_total L : sum_by block_bytes (free_pairs L) = free_total L.
Proof. unfold free_pairs, free_total. rewrite sum_by_bind. apply sum_by_ext. intros o _. apply block_bytes_const. Qed.

Lemma free_pairs_elem L o a : (o, a) ∈ free_pairs L <-> 22 <= o <= 26 /\ a ∈ L o.
Proof.
  unfold free_pairs, orders. rewrite list_elem_of_bind. setoid_rewrite elem_of_seqZ. setoid_rewrite list_elem_of_fmap. split.
  - intros (o' & (a' & [= -> ->] & Ha) & Ho). split; [lia|done].
  - intros [Ho Ha]. exists o. split; [by exists a|lia].
Qed.

Section Region.
Context (b t : Z) (Hsp : region_space b t) (s : Buddy) (r : Z) (x : BuddyRegion) (L : Z -> list Z) (A : gset (Z * Z)) (Hi : buddy_inv b t s r x L A).

Lemma region_pairs_nodup : NoDup (free_pairs L ++ elements A).
Proof using Hi.
  apply NoDup_app. split_and!.
  - apply NoDup_bind; [|intros o _; apply NoDup_fmap; [by intros ? ? [=]|apply Hi]|apply NoDup_seqZ].
    intros o o' y _ _ (a & -> & _)%list_elem_of_fmap (a' & [= -> _] & _)%list_elem_of_fmap. done.
  - intros [o a] [_ Ha]%free_pairs_elem Hu%elem_of_elements. by eapply bi_apart.
  - apply NoDup_elements.
Qed.

(** The free bytes and the bytes handed out are the bytes of the region. *)
Lemma region_total : free_total L + used_total A = t.
Proof using Hi Hsp.
  destruct Hsp as (_ & Ht & _). destruct (bi_tiling _ _ _ _ _ _ _ Hi) as [T1 T2 T3].
  assert (Hel : forall o a, (o, a) ∈ free_pairs L ++ elements A <-> held L A o a).
  { intros o a. rewrite elem_of_app, free_pairs_elem, elem_of_elements. unfold held. split; [tauto|]. intros [Ha|Ha]; [|by right]. left. split; [|done].
    by destruct (rr_valid _ _ _ _ _ _ (bi_rep _ _ _ _ _ _ _ Hi) _ _ Ha) as [? _]. }
  rewrite <- free_pairs_total. unfold used_total. rewrite <- sum_by_app. apply (intervals_cover snd block_bytes _ region_pairs_nodup) with (b := b); [..|lia| |].
  - intros [o a] Ha%Hel%T1. destruct Ha as (Ho & _). unfold block_bytes. cbn [fst]. apply Z.pow_nonneg. lia.
  - intros [o a] [o' a'] y Ha%Hel Ha'%Hel Hy Hy'. unfold block_bytes in *. cbn [fst snd] in *. destruct (T2 o a o' a') as [-> ->]; [done..|lia|lia|done].
  - intros [o a] Ha%Hel%T1. destruct Ha as (_ & H1 & H2 & _). done.
  - intros y Hy. destruct (T3 y Hy) as (o & a & Ha & Hr). exists (o, a). split; [by apply Hel|done].
Qed.
End Region.

(** ** The report

    The free blocks of the regions as pairs of order and address; [state_of] is the
    trim state that the header of a free block records. *)

Definition state_of (s : Buddy) (a : Z) : Z := default 0 (fb_trim_state <$> bd_blocks s !! a).

Definition any_state (st : Z) : bool := true.
Definition never_allocated (st : Z) : bool := st =? BUDDY_TRIM_NOT_ALLOCATED.
Definition is_trimmed (st : Z) : bool := st =? BUDDY_TRIM_TRIMMED.
Definition reused (st : Z) : bool := negb (never_allocated st) && negb (is_trimmed st).

(** The blocks of [l] in a state, of one order and in all. *)
Definition at_order (s : Buddy) (q : Z -> bool) (l : list (Z * Z)) (i : nat) : Z := count_by (fun oa => (oa.1 =? 22 + Z.of_nat i) && q (state_of s oa.2)) l.
Definition in_state (s : Buddy) (q : Z -> bool) (l : list (Z * Z)) : Z := count_by (fun oa => q (state_of s oa.2)) l.

(** The array [v] counts the blocks of [l] in a state by order. *)
Record by_order (s : Buddy) (q : Z -> bool) (l : list (Z * Z)) (v : list Z) : Prop := {
  bo_len : length v = 5%nat;
  bo_at i : (i < 5)%nat -> v !!! i = at_order s q l i;
}.

(** What a report that has walked the free blocks [l] says. *)
Record tally (s : Buddy) (l : list (Z * Z)) (rep : BuddyBackendReport) : Prop := {
  ta_free : by_order s any_state l (br_free_blocks rep);
  ta_never : by_order s never_allocated l (br_never_allocated_by_order rep) /\ br_never_allocated_blocks rep = in_state s never_allocated l;
  ta_reused : by_order s reused l (br_reused_by_order rep) /\ br_reused_blocks rep = in_state s reused l;
  ta_trimmed : by_order s is_trimmed l (br_trimmed_by_order rep) /\ br_trimmed_blocks rep = in_state s is_trimmed l;
  ta_bytes : br_free_bytes rep = sum_by block_bytes l;
  ta_orders oa : oa ∈ l -> 22 <= oa.1 <= 26;
}.

Lemma length_bytes (l : list (Z * Z)) : (forall oa, oa ∈ l -> 22 <= oa.1 <= 26) -> Z.of_nat (length l) <= sum_by block_bytes l.
Proof.
  induction l as [|[o a] l IH]; intros H; cbn [length sum_by]; [lia|]. specialize (IH ltac:(intros oa Hoa; apply H; by right)). pose proof (H (o, a) ltac:(by left)) as Ho. cbn in Ho.
  pose proof (Z.pow_pos_nonneg 2 o ltac:(lia) ltac:(lia)). unfold block_bytes at 1. cbn [fst]. lia.
Qed.

(** A block in another state is not counted, one in this state is, without
    overflow. *)
Lemma by_order_skip s q l v o a : by_order s q l v -> q (state_of s a) = false -> by_order s q (l ++ [(o, a)]) v.
Proof. intros [H1 H2] Hq. constructor; [done|]. intros i Hi. rewrite H2 by done. unfold at_order. rewrite count_by_snoc. cbn [fst snd]. rewrite Hq, andb_false_r. lia. Qed.

Lemma by_order_count s q l v o a : by_order s q l v -> q (state_of s a) = true -> 22 <= o <= 26 -> Z.of_nat (length l) < 2 ^ 63 ->
  exists v', increment v (o - 22) = Ret v' /\ by_order s q (l ++ [(o, a)]) v'.
Proof.
  intros [H1 H2] Hq Ho Hb. set (i := Z.to_nat (o - 22)). assert (E : v !! i = Some (v !!! i)) by (apply list_lookup_lookup_total_lt; lia).
  pose proof (count_by_bound (fun oa => (oa.1 =? 22 + Z.of_nat i) && q (state_of s oa.2)) l) as Hc. fold (at_order s q l i) in Hc. rewrite <- H2 in Hc by lia.
  unfold increment, at_index. fold i. rewrite E. cbn [from_option mbind outcome_bind]. eexists. split; [done|]. constructor; [by rewrite length_insert|]. intros j Hj. unfold at_order. rewrite count_by_snoc. cbn [fst snd]. rewrite Hq, andb_true_r.
  fold (at_order s q l j). rewrite wadd_small by lia. destruct (decide (i = j)) as [<-|Hne].
  - rewrite list_lookup_total_insert_eq by lia. rewrite H2 by lia. destruct (Z.eqb_spec o (22 + Z.of_nat i)); lia.
  - rewrite list_lookup_total_insert_ne by done. rewrite H2 by lia. destruct (Z.eqb_spec o (22 + Z.of_nat j)); lia.
Qed.

Lemma in_state_snoc s q l o a : Z.of_nat (length l) < 2 ^ 63 ->
  in_state s q (l ++ [(o, a)]) = if q (state_of s a) then wadd (in_state s q l) 1 else in_state s q l.
Proof.
  intros Hb. unfold in_state. rewrite count_by_snoc. cbn [snd]. pose proof (count_by_bound (fun oa => q (state_of s oa.2)) l). destruct (q (state_of s a)); [rewrite wadd_small by lia|]; lia.
Qed.

(** What the walk over the free blocks [l'], after [l], does. *)
Record reported (s : Buddy) (l l' : list (Z * Z)) (rep rep' : BuddyBackendReport) : Prop := {
  rd_tally : tally s (l ++ l') rep';
  rd_total : br_total_region_bytes rep' = br_total_region_bytes rep;
  rd_regions : br_regions rep' = br_regions rep;
}.

Lemma reported_nil s l rep : tally s l rep -> reported s l [] rep rep.
Proof. constructor; [|done..]. by rewrite app_nil_r. Qed.

Lemma reported_app s l l1 l2 rep rep1 rep2 : reported s l l1 rep rep1 -> reported s (l ++ l1) l2 rep1 rep2 -> reported s l (l1 ++ l2) rep rep2.
Proof. intros [A1 A2 A3] [B1 B2 B3]. constructor; [|congruence..]. by rewrite app_assoc. Qed.

Lemma bytes_pos (l : list (Z * Z)) : (forall oa, oa ∈ l -> 22 <= oa.1 <= 26) -> 0 <= sum_by block_bytes l.
Proof. intros H. pose proof (length_bytes l H). lia. Qed.

Section Blocks.
Context (s : Buddy).

Lemma report_block_ok l rep o a b :
  tally s l rep -> 22 <= o <= 26 -> sum_by block_bytes (l ++ [(o, a)]) <= 2 ^ 47 -> bd_blocks s !! a = Some b ->
  exists rep', report_block rep (o - 22) (2 ^ o) b = Ret rep' /\ reported s l [(o, a)] rep rep'.
Proof.
  intros [T0 [T1 N1] [T2 N2] [T3 N3] TB TO] Ho Hb Hblk. pose proof (length_bytes l TO) as Hlen. rewrite sum_by_app in Hb. cbn [sum_by] in Hb. unfold block_bytes at 2 in Hb. cbn [fst] in Hb.
  pose proof (Z.pow_pos_nonneg 2 o ltac:(lia) ltac:(lia)). assert (Hst : state_of s a = fb_trim_state b) by (unfold state_of; by rewrite Hblk).
  assert (Hl : Z.of_nat (length l) < 2 ^ 63) by lia. destruct (by_order_count s any_state l _ o a T0 eq_refl Ho Hl) as (f & Ef & Cf).
  assert (Hsat : saturating_add 64 (br_free_bytes rep) (2 ^ o) = sum_by block_bytes (l ++ [(o, a)])) by (rewrite TB, sum_by_app; cbn [sum_by]; unfold block_bytes at 3, saturating_add; cbn [fst]; lia).
  assert (HO : forall oa, oa ∈ l ++ [(o, a)] -> 22 <= oa.1 <= 26) by (intros oa [Hoa|Hoa]%elem_of_app; [auto|apply list_elem_of_singleton in Hoa as ->; done]).
  pose proof (in_state_snoc s never_allocated l o a Hl) as S1. pose proof (in_state_snoc s reused l o a Hl) as S2. pose proof (in_state_snoc s is_trimmed l o a Hl) as S3.
  unfold report_block. rewrite Ef. cbn [mbind outcome_bind]. rewrite Hsat. rewrite <- Hst. unfold reused in S2.
  change (state_of s a =? BUDDY_TRIM_NOT_ALLOCATED) with (never_allocated (state_of s a)). change (state_of s a =? BUDDY_TRIM_TRIMMED) with (is_trimmed (state_of s a)).
  destruct (never_allocated (state_of s a)) eqn:E1; [assert (E3 : is_trimmed (state_of s a) = false) by (unfold never_allocated, is_trimmed in *; apply Z.eqb_eq in E1; rewrite E1; done)|destruct (is_trimmed (state_of s a)) eqn:E3].
  - destruct (by_order_count s never_allocated l _ o a T1 E1 Ho Hl) as (v & -> & Cv). cbn [mbind outcome_bind]. rewrite E3 in S3. eexists. split; [reflexivity|]. constructor; [|done..]. constructor; cbn; try done.
    + rewrite S1. by split; [|f_equal].
    + split; [apply by_order_skip; [done|unfold reused; by rewrite E1]|rewrite N2; symmetry; exact S2].
    + split; [by apply by_order_skip|by rewrite S3].
  - destruct (by_order_count s is_trimmed l _ o a T3 E3 Ho Hl) as (v & -> & Cv). cbn [mbind outcome_bind]. eexists. split; [reflexivity|]. constructor; [|done..]. constructor; cbn; try done.
    + split; [by apply by_order_skip|by rewrite S1].
    + split; [apply by_order_skip; [done|unfold reused; by rewrite E1, E3]|rewrite N2; symmetry; exact S2].
    + rewrite S3. by split; [|f_equal].
  - destruct (by_order_count s reused l _ o a T2 ltac:(unfold reused; by rewrite E1, E3) Ho Hl) as (v & -> & Cv). cbn [mbind outcome_bind]. eexists. split; [reflexivity|]. constructor; [|done..]. constructor; cbn; try done.
    + split; [by apply by_order_skip|by rewrite S1].
    + split; [done|]. rewrite N2. symmetry. exact S2.
    + split; [by apply by_order_skip|by rewrite S3].
Qed.

Lemma report_list_ok o : 22 <= o <= 26 -> forall fuel l0 rep p h l,
  tally s l0 rep -> seg (bd_blocks s) p h l 0 -> null ∉ l -> (length l < fuel)%nat -> sum_by block_bytes (l0 ++ (pair o <$> l)) <= 2 ^ 47 ->
  exists rep', report_list fuel s rep h (o - 22) (2 ^ o) = Ret rep' /\ reported s l0 (pair o <$> l) rep rep'.
Proof.
  intros Ho fuel. induction fuel as [|fuel IH]; intros l0 rep p h l Ht Hs Hn Hf Hb; [lia|]. cbn [report_list].
  destruct l as [|a l]; cbn [seg length fmap list_fmap] in *; [subst h; exists rep; split; [done|by apply reported_nil]|].
  destruct Hs as (-> & b & Hb' & Hp & Hs). apply not_elem_of_cons in Hn as [Ha Hn]. destruct (Z.eqb_spec a null) as [->|_]; [done|].
  unfold get_block. rewrite Hb'. cbn [from_option mbind outcome_bind]. change (l0 ++ (o, a) :: (pair o <$> l)) with (l0 ++ [(o, a)] ++ (pair o <$> l)) in Hb. rewrite app_assoc in Hb. pose proof (bytes_pos (pair o <$> l)) as Hpos.
  destruct (report_block_ok l0 rep o a b Ht Ho) as (rep1 & -> & Hr); [|done|]. { rewrite sum_by_app in Hb. specialize (Hpos ltac:(intros oa (? & -> & _)%list_elem_of_fmap; done)). lia. }
  cbn [mbind outcome_bind]. destruct (IH (l0 ++ [(o, a)]) rep1 a (fb_next b) l) as (rep2 & -> & Hr2); [apply Hr|done..|lia|done|].
  exists rep2. split; [done|]. by apply (reported_app s l0 [(o, a)] _ rep rep1).
Qed.
End Blocks.

Lemma used_total_pos (A : gset (Z * Z)) : (forall o a, (o, a) ∈ A -> 0 <= o) -> 0 <= used_total A.
Proof. intros H. apply sum_by_nonneg. intros [o a] Ha%elem_of_elements. apply Z.pow_nonneg. lia. Qed.

(** ** The state that a report describes

    A free block of a region is on the list that the region header keeps for the
    order. *)

Definition on_free_list (s : Buddy) (x : BuddyRegion) (o a : Z) : Prop :=
  22 <= o <= r_order x /\ exists h l, r_free x !! Z.to_nat (o - 22) = Some h /\ seg (bd_blocks s) 0 h l 0 /\ null ∉ l /\ a ∈ l.

(** The regions that are linked from the state, with the bounds in their headers, and
    each free block of theirs once. *)
Record census (s : Buddy) (rs : regions) (l : list (Z * Z)) : Prop := {
  ce_linked : linked s (bd_regions s) rs;
  ce_header r b t : (r, (b, t)) ∈ rs -> exists x, bd_region_mem s !! r = Some x /\ r_base x = b /\ r_total_size x = t;
  ce_nodup : NoDup l;
  ce_free o a : (o, a) ∈ l <-> exists r bt x, (r, bt) ∈ rs /\ bd_region_mem s !! r = Some x /\ on_free_list s x o a;
}.

(** The bytes of regions. *)
Definition regions_total (l : regions) : Z := sum_by (fun z => z.2.2) l.

(** The report is that of the state: its regions and their bytes, and its free blocks
    by order and trim state. *)
Definition describes (s : Buddy) (rep : BuddyBackendReport) : Prop :=
  exists rs l, census s rs l /\ br_regions rep = Z.of_nat (length rs) /\ br_total_region_bytes rep = regions_total rs /\ tally s l rep.

Lemma seg_fun {B} `{!Linked B} (m : gmap Z B) l : forall l' p h, seg m p h l 0 -> seg m p h l' 0 -> null ∉ l -> null ∉ l' -> l = l'.
Proof.
  induction l as [|a l IH]; intros [|a' l'] p h; cbn [seg]; [done| | |].
  - intros -> [<- _] _ Hn. set_solver.
  - intros [<- _] -> Hn _. set_solver.
  - intros (-> & b & Hb & _ & H1) (<- & b' & Hb' & _ & H2) Hn Hn'. assert (b' = b) as -> by congruence. f_equal. apply not_elem_of_cons in Hn as [_ Hn]. apply not_elem_of_cons in Hn' as [_ Hn']. by eapply IH.
Qed.

(** What the representation says of the lists. *)
Lemma on_free_list_rep b t s r x L o a : region_space b t -> region_rep b t s r x L -> on_free_list s x o a <-> a ∈ L o.
Proof.
  intros (Hb & _) Hr. assert (Hnull : forall o, null ∉ L o) by (intros o' (_ & H1 & _)%(rr_valid _ _ _ _ _ _ Hr); lia). split.
  - intros (Ho & h & l & Hh & Hs & Hn & Ha). rewrite (rr_order _ _ _ _ _ _ Hr) in Ho.
    destruct (rr_list _ _ _ _ _ _ Hr o ltac:(lia)) as (h' & Hh' & Hs'). assert (h' = h) as -> by congruence. by rewrite <- (seg_fun _ l (L o) 0 h Hs Hs' Hn (Hnull o)).
  - intros Ha. destruct (rr_valid _ _ _ _ _ _ Hr _ _ Ha) as [Ho _]. destruct (rr_list _ _ _ _ _ _ Hr o ltac:(lia)) as (h & Hh & Hs). split; [rewrite (rr_order _ _ _ _ _ _ Hr); lia|]. by exists h, (L o).
Qed.

Section Walk.
Context {K : Type} `{!Kernel K} `{!KernelSpec K} (s : Buddy) (rx : RadixTree K) (rs : regions) (A : Z -> gset (Z * Z)) (HW : whole s rx rs A).

(** The bytes handed out of regions. *)
Definition regions_used (l : regions) : Z := sum_by (fun z => used_total (A z.1)) l.

(** The free blocks of regions in the order of the walk. *)
Fixpoint free_of (l : regions) (fp : list (Z * Z)) : Prop :=
  match l with
  | [] => fp = []
  | (r, (b, t)) :: l => exists x L fp', buddy_inv b t s r x L (A r) /\ fp = free_pairs L ++ fp' /\ free_of l fp'
  end.

Lemma report_orders_ok r b t x L : buddy_inv b t s r x L (A r) -> region_space b t -> forall fuel l0 rep o,
  tally s l0 rep -> 22 <= o <= 27 -> (Z.to_nat (27 - o) < fuel)%nat ->
  let l := seqZ o (27 - o) ≫= fun o => pair o <$> L o in
  sum_by block_bytes (l0 ++ l) <= 2 ^ 47 -> exists rep', report_orders fuel s rep x o = Ret rep' /\ reported s l0 l rep rep'.
Proof using.
  intros Hi Hsp fuel. pose proof (bi_rep _ _ _ _ _ _ _ Hi) as Hrep. induction fuel as [|fuel IH]; intros l0 rep o Ht Ho Hf; [lia|]. cbn [report_orders].
  rewrite (rr_order _ _ _ _ _ _ Hrep). destruct (Z.leb_spec o 26) as [Hle|Hgt].
  - rewrite seqZ_cons by lia. rewrite bind_cons. replace (Z.pred (27 - o)) with (27 - (o + 1)) by lia. change (Z.succ o) with (o + 1). set (l1 := seqZ (o + 1) _ ≫= _). cbv zeta. rewrite app_assoc.
    intros Hb. assert (0 <= sum_by block_bytes l1) by (apply bytes_pos; intros oa (o' & (a & -> & _)%list_elem_of_fmap & Ho'%elem_of_seqZ)%list_elem_of_bind; cbn; lia).
    destruct (rr_list _ _ _ _ _ _ Hrep o ltac:(lia)) as (h & Hh & Hs).
    rewrite order_index_ok, wshl_pow2 by lia. unfold at_index. rewrite Hh. cbn [from_option mbind outcome_bind].
    destruct (report_list_ok s o ltac:(lia) (S (size (bd_blocks s))) l0 rep 0 h (L o) Ht Hs) as (rep1 & -> & Hr); [|eapply seg_fuel; [done|apply Hrep]|rewrite sum_by_app in Hb; lia|].
    { intros (_ & H1 & _)%(rr_valid _ _ _ _ _ _ Hrep). destruct Hsp as (? & _). lia. }
    cbn [mbind outcome_bind]. destruct (IH (l0 ++ (pair o <$> L o)) rep1 (o + 1)) as (rep2 & -> & Hr2); [apply Hr|lia|lia|exact Hb|]. exists rep2. split; [done|]. by eapply reported_app.
  - replace o with 27 by lia. change (seqZ 27 (27 - 27)) with (@nil Z). cbv zeta. intros _. exists rep. split; [done|]. by apply reported_nil.
Qed.

Lemma region_used_pos r : 0 <= used_total (A r).
Proof using HW. apply used_total_pos. intros o a Ha. pose proof (whole_order _ _ _ _ _ _ _ HW Ha). lia. Qed.

Lemma count_region_tally l rep t : tally s l rep -> tally s l (count_region rep t).
Proof using. intros [H1 H2 H3 H4 H5 H6]. by constructor. Qed.

Lemma report_regions_ok fuel : forall l0 rep h l,
  linked s h l -> (forall z, z ∈ l -> z ∈ rs) -> (length l < fuel)%nat -> tally s l0 rep ->
  0 <= br_total_region_bytes rep -> sum_by block_bytes l0 + regions_total l <= 2 ^ 47 -> br_total_region_bytes rep + regions_total l <= 2 ^ 47 ->
  0 <= br_regions rep -> br_regions rep + Z.of_nat (length l) < 2 ^ 63 ->
  exists rep' fp, report_regions fuel s rep h = Ret rep' /\ tally s (l0 ++ fp) rep' /\ free_of l fp /\ br_regions rep' = br_regions rep + Z.of_nat (length l) /\
    br_total_region_bytes rep' = br_total_region_bytes rep + regions_total l /\ sum_by block_bytes fp + regions_used l = regions_total l.
Proof using HW.
  induction fuel as [|fuel IH]; intros l0 rep h l Hl Hsub Hf Ht H0 Hb Hb' Hp Hn; [lia|]. cbn [report_regions].
  destruct l as [|[r [b t]] l]; cbn [linked length free_of] in *; [subst h; exists rep, []; rewrite app_nil_r; split_and!; try done; unfold regions_used, regions_total; cbn; lia|].
  destruct Hl as (-> & Hr & x & Hx & Hl). destruct (Z.eqb_spec r null) as [|_]; [done|]. rewrite (get_region_ok _ _ _ Hx). cbn [mbind outcome_bind].
  destruct (wh_region _ _ _ _ HW r b t (Hsub _ ltac:(by left))) as [[Hsp _] (x' & L & Hi) _ _ _]. pose proof (bi_rep _ _ _ _ _ _ _ Hi) as Hrep.
  assert (x' = x) as -> by (pose proof (rr_region _ _ _ _ _ _ Hrep); congruence). pose proof (region_total b t Hsp s r x L (A r) Hi) as Htot. pose proof (region_used_pos r).
  assert (Hrest : 0 <= regions_total l).
  { apply sum_by_nonneg. intros [r' [b' t']] Hin. destruct (wh_region _ _ _ _ HW r' b' t' (Hsub _ ltac:(by right))) as [[(_ & ? & _) _] _ _ _ _]. cbn. lia. }
  assert (Hs1 : forall l', regions_total ((r, (b, t)) :: l') = t + regions_total l') by done. assert (Hs2 : regions_used ((r, (b, t)) :: l) = used_total (A r) + regions_used l) by done. rewrite Hs1 in *.
  rewrite (rr_total _ _ _ _ _ _ Hrep). change BIG_BUDDY_MIN_ORDER with 22. rewrite <- free_pairs_total in Htot.
  destruct (report_orders_ok r b t x L Hi Hsp 65 l0 (count_region rep t) 22 (count_region_tally _ _ _ Ht) ltac:(lia) ltac:(lia)) as (rep1 & -> & Hr1); [change (27 - 22) with 5; fold orders; fold (free_pairs L); rewrite sum_by_app; lia|].
  cbn [mbind outcome_bind]. change (seqZ 22 (27 - 22) ≫= _) with (free_pairs L) in Hr1. destruct Hr1 as [R1 R2 R3]. cbn [count_region br_total_region_bytes br_regions] in *.
  rewrite wadd_small in R3 by lia. assert (Hsat : saturating_add 64 (br_total_region_bytes rep) t = br_total_region_bytes rep + t) by (unfold saturating_add; destruct Hsp as (_ & ? & _); lia). rewrite Hsat in R2.
  destruct (IH (l0 ++ free_pairs L) rep1 (r_next x) l Hl) as (rep2 & fp & -> & T & F & E1 & E2 & E3); try done; try lia; [intros z Hz; apply Hsub; by right|destruct Hsp as (_ & ? & _); lia|rewrite sum_by_app; lia|].
  rewrite <- app_assoc in T. exists rep2, (free_pairs L ++ fp). rewrite sum_by_app. split_and!; try done; [by exists x, L, fp|lia..].
Qed.

(** The blocks found are the free blocks of the regions, each once. *)
Lemma free_of_elem l : forall fp, free_of l fp -> (forall z, z ∈ l -> z ∈ rs) ->
  forall o a, (o, a) ∈ fp <-> exists r bt x, (r, bt) ∈ l /\ bd_region_mem s !! r = Some x /\ on_free_list s x o a.
Proof using HW.
  induction l as [|[r [b t]] l IH]; cbn [free_of]; [intros fp -> _ o a; split; [set_solver|intros (r & bt & x & Hin & _); set_solver]|].
  intros fp (x & L & fp' & Hi & -> & Hf) Hsub o a. destruct (wh_region _ _ _ _ HW r b t (Hsub _ ltac:(by left))) as [[Hsp _] _ _ _ _]. pose proof (bi_rep _ _ _ _ _ _ _ Hi) as Hrep.
  pose proof (on_free_list_rep b t s r x L o a Hsp Hrep) as Hon. rewrite elem_of_app, free_pairs_elem, (IH fp' Hf ltac:(intros z Hz; apply Hsub; by right)). split.
  - intros [[_ Ha]|(r' & bt' & x' & Hin & H1 & H2)]; [exists r, (b, t), x; split_and!; [by left|apply Hrep|by apply Hon]|exists r', bt', x'; split_and!; [by right|done..]].
  - intros (r' & bt' & x' & [[= -> ->]|Hin]%elem_of_cons & H1 & H2); [|right; by exists r', bt', x'].
    assert (x' = x) as -> by (pose proof (rr_region _ _ _ _ _ _ Hrep); congruence). apply Hon in H2. left. split; [|done]. by destruct (rr_valid _ _ _ _ _ _ Hrep _ _ H2) as [? _].
Qed.

Lemma free_of_inside l : forall fp, free_of l fp -> forall o a, (o, a) ∈ fp -> exists r b t, (r, (b, t)) ∈ l /\ b <= a < b + t.
Proof using.
  clear HW. induction l as [|[r [b t]] l IH]; cbn [free_of]; [intros fp -> o a; set_solver|]. intros fp (x & L & fp' & Hi & -> & Hf) o a [[_ Ha]%free_pairs_elem|Ha]%elem_of_app.
  - destruct (rr_valid _ _ _ _ _ _ (bi_rep _ _ _ _ _ _ _ Hi) _ _ Ha) as (Ho & H1 & H2 & _). pose proof (Z.pow_pos_nonneg 2 o ltac:(lia) ltac:(lia)). exists r, b, t. split; [by left|lia].
  - destruct (IH fp' Hf o a Ha) as (r' & b' & t' & Hin & Hr). exists r', b', t'. split; [by right|done].
Qed.

Lemma free_of_nodup l : forall fp, free_of l fp -> (forall z, z ∈ l -> z ∈ rs) -> NoDup l.*1 -> NoDup fp.
Proof using HW.
  induction l as [|[r [b t]] l IH]; cbn [free_of fmap list_fmap fst]; [intros fp -> _ _; constructor|]. intros fp (x & L & fp' & Hi & -> & Hf) Hsub [Hr Hnd]%NoDup_cons.
  pose proof (region_pairs_nodup b t s r x L (A r) Hi) as Hp. apply NoDup_app in Hp as [Hp _]. apply NoDup_app. split_and!; [done| |apply IH; [done|intros z Hz; apply Hsub; by right|done]].
  intros [o a] [_ Ha]%free_pairs_elem Ha'. destruct (free_of_inside l fp' Hf o a Ha') as (r' & b' & t' & Hin & Hb'). assert (r <> r') by (intros <-; apply Hr, list_elem_of_fmap; by exists (r, (b', t'))).
  destruct (wh_apart _ _ _ _ HW _ _ _ _ _ _ (Hsub _ ltac:(by left)) (Hsub _ ltac:(by right; exact Hin)) ltac:(done)) as [Hd _]. apply (Hd a); [|lia].
  destruct (rr_valid _ _ _ _ _ _ (bi_rep _ _ _ _ _ _ _ Hi) _ _ Ha) as (Ho & H1 & H2 & _). pose proof (Z.pow_pos_nonneg 2 o ltac:(lia) ltac:(lia)). lia.
Qed.

Lemma free_of_census fp : free_of rs fp -> census s rs fp.
Proof using HW.
  intros Hf. constructor; [apply HW| |by apply (free_of_nodup rs); [| |apply HW]|by apply free_of_elem]. intros r b t Hin. destruct (wh_region _ _ _ _ HW r b t Hin) as [_ (x & L & Hi) _ _ _].
  exists x. pose proof (bi_rep _ _ _ _ _ _ _ Hi) as Hrep. split_and!; apply Hrep.
Qed.

(** All regions lie below 2^47. *)
Lemma regions_bound : regions_total rs <= 2 ^ 47.
Proof using HW.
  apply (intervals_inside (fun z => z.2.1) (fun z => z.2.2) rs) with (b := 0); [|..|lia|].
  - eapply NoDup_fmap_1, HW.
  - intros [r [b t]] Hin. destruct (wh_region _ _ _ _ HW r b t Hin) as [[(_ & ? & _) _] _ _ _ _]. cbn. lia.
  - intros [r [b t]] [r' [b' t']] y Hin Hin' Hy Hy'. cbn in *. destruct (decide (r = r')) as [<-|Hne].
    + destruct (whole_unique rs r b t b' t' (wh_nodup _ _ _ _ HW) Hin Hin') as [-> ->]. done.
    + destruct (wh_apart _ _ _ _ HW _ _ _ _ _ _ Hin Hin' Hne) as [Hd _]. by destruct (Hd y).
  - intros [r [b t]] Hin. destruct (wh_region _ _ _ _ HW r b t Hin) as [[(? & ? & ? & _) _] _ _ _ _]. cbn. lia.
Qed.

Lemma report_zero_tally : tally s [] (report_zero s).
Proof using.
  clear HW. assert (Hz : forall q, by_order s q [] (replicate (Z.to_nat BUDDY_NUM_ORDERS) 0)) by (intros q; constructor; [done|]; intros i Hi; do 5 (destruct i as [|i]; [done|]); lia).
  constructor; try apply Hz; try (split; [apply Hz|done]); [done|]. set_solver.
Qed.

Lemma buddy_report_ok : exists rep, buddy_report s = Ret rep /\ describes s rep /\ br_total_region_bytes rep = regions_total rs /\ 0 <= br_free_bytes rep /\ br_free_bytes rep + regions_used rs = regions_total rs.
Proof using HW.
  pose proof regions_bound as Hb. assert (Hlen : Z.of_nat (length rs) <= regions_total rs).
  { assert (Hall : forall z, z ∈ rs -> 1 <= z.2.2) by (intros [r [b t]] Hin; destruct (wh_region _ _ _ _ HW r b t Hin) as [[(_ & ? & _) _] _ _ _ _]; cbn; lia).
    clear - Hall. induction rs as [|z l IH]; [done|]. pose proof (Hall z ltac:(by left)). cbn [length]. change (regions_total (z :: l)) with (z.2.2 + regions_total l). pose proof (IH ltac:(intros y Hy; apply Hall; by right)). lia. }
  destruct (report_regions_ok (S (size (bd_region_mem s))) [] (report_zero s) (bd_regions s) rs) as (rep & fp & Hr & T & F & E1 & E2 & E3); try done; try (cbn; lia).
  - apply HW.
  - apply Nat.lt_succ_r, (linked_fuel s (bd_regions s)); apply HW.
  - apply report_zero_tally.
  - exists rep. rewrite app_nil_l in T. split_and!; [done|exists rs, fp; split_and!; [by apply free_of_census|done..]|done|rewrite (ta_bytes _ _ _ T); apply bytes_pos, T|rewrite (ta_bytes _ _ _ T); done].
Qed.
End Walk.

(** ** What a report says of itself

    [weigh] is the number of bytes in blocks counted by order, from order [o] on. *)

Fixpoint weigh (o : Z) (l : list Z) : Z := match l with [] => 0 | n :: l => n * 2 ^ o + weigh (o + 1) l end.

Lemma by_order_list s q l v : by_order s q l v -> v = at_order s q l <$> seq 0 5.
Proof.
  intros [H1 H2]. do 6 (destruct v as [|? v]; try discriminate H1). cbn. pose proof (H2 0%nat) as E0. pose proof (H2 1%nat) as E1. pose proof (H2 2%nat) as E2. pose proof (H2 3%nat) as E3. pose proof (H2 4%nat) as E4. cbn in *.
  rewrite E0, E1, E2, E3, E4 by lia. done.
Qed.

Lemma at_order_cons s q o a l i : at_order s q ((o, a) :: l) i = (if (o =? 22 + Z.of_nat i) && q (state_of s a) then 1 else 0) + at_order s q l i.
Proof. done. Qed.

(** Compares the numbers that are given. *)
Ltac compare_orders := repeat match goal with |- context [?x =? ?y] => let v := eval vm_compute in (x =? y) in change (x =? y) with v; cbv match end.

(** The bytes are those of the blocks counted by order. *)
Lemma tally_weigh s l rep : tally s l rep -> br_free_bytes rep = weigh 22 (br_free_blocks rep).
Proof.
  intros Ht. rewrite (ta_bytes _ _ _ Ht), (by_order_list _ _ _ _ (ta_free _ _ _ Ht)). pose proof (ta_orders _ _ _ Ht) as Ho. clear Ht rep.
  induction l as [|[o a] l IH]; [done|]. cbn [sum_by]. rewrite IH by (intros oa Hoa; apply Ho; by right). pose proof (Ho (o, a) ltac:(by left)) as Hr. cbn [fst] in Hr.
  cbn [fmap list_fmap seq weigh]. rewrite !at_order_cons. unfold any_state, block_bytes. cbn [fst]. rewrite !andb_true_r. generalize (at_order s (fun _ => true) l). intros n.
  assert (o = 22 \/ o = 23 \/ o = 24 \/ o = 25 \/ o = 26) as [-> | [-> | [-> | [-> | ->]]]] by lia; compare_orders; lia.
Qed.

(** A free block is in one state. *)
Lemma state_cases st : (if any_state st then 1 else 0) = (if never_allocated st then 1 else 0) + (if reused st then 1 else 0) + (if is_trimmed st then 1 else 0).
Proof.
  unfold reused, any_state, never_allocated, is_trimmed. destruct (Z.eqb_spec st BUDDY_TRIM_NOT_ALLOCATED) as [->|]; [done|]. by destruct (st =? BUDDY_TRIM_TRIMMED).
Qed.

Lemma at_order_split s l i : at_order s any_state l i = at_order s never_allocated l i + at_order s reused l i + at_order s is_trimmed l i.
Proof.
  induction l as [|[o a] l IH]; [done|]. rewrite !at_order_cons. pose proof (state_cases (state_of s a)). destruct (o =? _); cbn [andb]; lia.
Qed.

Lemma tally_split s l rep i : tally s l rep -> (i < 5)%nat ->
  br_free_blocks rep !!! i = br_never_allocated_by_order rep !!! i + br_reused_by_order rep !!! i + br_trimmed_by_order rep !!! i.
Proof. intros [H0 [H1 _] [H2 _] [H3 _] _ _] Hi. rewrite (bo_at _ _ _ _ H0), (bo_at _ _ _ _ H1), (bo_at _ _ _ _ H2), (bo_at _ _ _ _ H3) by done. apply at_order_split. Qed.

(** The blocks of all states are the free blocks. *)
Lemma tally_sum s l rep : tally s l rep -> br_never_allocated_blocks rep + br_reused_blocks rep + br_trimmed_blocks rep = sum_by id (br_free_blocks rep) /\ sum_by id (br_free_blocks rep) = Z.of_nat (length l).
Proof.
  intros [H0 [_ ->] [_ ->] [_ ->] _ Ho]. rewrite (by_order_list _ _ _ _ H0). assert (Hl : sum_by id (at_order s any_state l <$> seq 0 5) = Z.of_nat (length l)).
  { clear H0 rep. induction l as [|[o a] l IH]; [done|]. specialize (IH ltac:(intros oa Hoa; apply Ho; by right)). pose proof (Ho (o, a) ltac:(by left)) as Hr. cbn [fst] in Hr.
    cbn [fmap list_fmap seq sum_by length] in *. rewrite !at_order_cons. unfold any_state, id in *. rewrite !andb_true_r.
    assert (o = 22 \/ o = 23 \/ o = 24 \/ o = 25 \/ o = 26) as [-> | [-> | [-> | [-> | ->]]]] by lia; compare_orders; lia. }
  rewrite Hl. split; [|done]. clear. unfold in_state, count_by. induction l as [|[o a] l IH]; [done|]. cbn [sum_by length snd]. pose proof (state_cases (state_of s a)) as E. unfold any_state in E. lia.
Qed.

(** The sums that the statistics take of the counters do not overflow. *)
Lemma at_order_le s q l i : 0 <= at_order s q l i <= at_order s any_state l i.
Proof.
  induction l as [|[o a] l IH]; [done|]. rewrite !at_order_cons. unfold any_state at 1. rewrite andb_true_r. destruct (o =? _), (q (state_of s a)); cbn [andb]; lia.
Qed.

Ltac small_sums := repeat match goal with |- context [wadd ?x ?y] => lazymatch x with context [wadd _ _] => fail | _ => rewrite (wadd_small x y) by lia end end.

Lemma bytes_by_order_ok s q l v rep : tally s l rep -> by_order s q l v -> br_free_bytes rep <= 2 ^ 47 -> bytes_by_order v = weigh 22 v.
Proof.
  intros Ht Hv Hb. rewrite (tally_weigh _ _ _ Ht), (by_order_list _ _ _ _ (ta_free _ _ _ Ht)) in Hb. rewrite (by_order_list _ _ _ _ Hv). clear Ht Hv.
  pose proof (at_order_le s q l) as Hle. revert Hb Hle. generalize (at_order s any_state l) (at_order s q l). intros m n Hb Hle.
  pose proof (Hle 0%nat). pose proof (Hle 1%nat). pose proof (Hle 2%nat). pose proof (Hle 3%nat). pose proof (Hle 4%nat).
  cbn [fmap list_fmap seq weigh] in *. unfold bytes_by_order, sum_usize, saturating_mul. cbn [imap fold_left compose]. change BIG_BUDDY_MIN_ORDER with 22. cbn [Z.of_nat]. rewrite !wshl_pow2 by lia.
  rewrite !Z.min_l by lia. small_sums. lia.
Qed.

Lemma sum_usize_ok s l rep : tally s l rep -> br_free_bytes rep <= 2 ^ 47 -> sum_usize (br_free_blocks rep) = sum_by id (br_free_blocks rep).
Proof.
  intros Ht Hb. destruct (tally_sum _ _ _ Ht) as [_ Hs]. pose proof (length_bytes l (ta_orders _ _ _ Ht)) as Hl. rewrite <- (ta_bytes _ _ _ Ht) in Hl.
  rewrite (by_order_list _ _ _ _ (ta_free _ _ _ Ht)) in *. pose proof (at_order_le s any_state l) as Hle. revert Hs Hle. generalize (at_order s any_state l). intros n Hs Hle.
  pose proof (Hle 0%nat). pose proof (Hle 1%nat). pose proof (Hle 2%nat). pose proof (Hle 3%nat). pose proof (Hle 4%nat).
  cbn [fmap list_fmap seq sum_by] in *. unfold sum_usize, id in *. cbn [fold_left]. small_sums. lia.
Qed.

(** ** The client's view *)

(** The bytes of the blocks handed out. *)
Definition handed_bytes (H : blocks) : Z := sum_by (fun k : Z * Z * Z => 2 ^ k.1.2) (elements (dom H)).

Lemma handed_used {K} `{!Kernel K} `{!KernelSpec K} s (rx : RadixTree K) rs A H : whole s rx rs A -> handed H A -> handed_bytes H = regions_used A rs.
Proof.
  intros HW [HH _]. unfold handed_bytes, regions_used.
  assert (Hp : elements (dom H) ≡ₚ rs ≫= fun z => (fun oa => (z.1, oa.1, oa.2)) <$> elements (A z.1)).
  { apply NoDup_Permutation; [apply NoDup_elements| |].
    - apply NoDup_bind; [|intros z _; apply NoDup_fmap; [by intros [] [] [= -> ->]|apply NoDup_elements]|eapply NoDup_fmap_1, HW].
      intros [r [b t]] [r' [b' t']] y Hin Hin' (oa & -> & _)%list_elem_of_fmap (oa' & [= E _ _] & _)%list_elem_of_fmap. cbn in E. subst r'.
      destruct (whole_unique rs r b t b' t' (wh_nodup _ _ _ _ HW) Hin Hin') as [-> ->]. done.
    - intros [[r o] a]. rewrite elem_of_elements, elem_of_dom, HH, list_elem_of_bind. split.
      + intros Ha. destruct (whole_block _ _ _ _ _ _ _ HW Ha) as (b & t & Hin & _). exists (r, (b, t)). split; [|done]. apply list_elem_of_fmap. exists (o, a). split; [done|]. by apply elem_of_elements.
      + intros (z & (oa & [= -> -> ->] & Ha%elem_of_elements)%list_elem_of_fmap & _). by destruct oa. }
  rewrite Hp, sum_by_bind. apply sum_by_ext. intros z _. by rewrite sum_by_fmap.
Qed.

(** C15. The report of the buddy allocator is exact.  After its initialisation and any
    sequence of allocations, releases, growths in place and trims the walk over all
    free lists ends.  The report describes the state: it counts the regions that are
    linked from it and their bytes, and each block on a free list of theirs once, by
    order and under the trim state in its header.  The bytes of the regions that it does
    not find free, which the statistics show as used, are exactly the bytes of the
    blocks handed out; and the free blocks of every order are split into those never
    allocated, reused and trimmed. *)
Theorem buddy_report_exact {K} `{!Kernel K} `{!KernelSpec K} (env : BuddyEnv) (rx : RadixTree K) (size node nranges : Z) (thp numa : bool)
    (blend : Z -> Z -> Z) (ops : list (BuddyEnv * BuddyOp))
    (Hwf : radix_wf rx) (Hsize : is_u 64 size) (Hops : Forall buddy_op_ok ops) :
  match ('(s, rx) ← Buddy.init env BuddyAllocator_new rx size thp node numa; '(s, rx, H) ← buddy_ops nranges numa blend (s, rx, ∅) ops; rep ← buddy_report s; Ret (s, H, rep)) with
  | Ret (s, H, rep) =>
      describes s rep /\
      br_free_bytes rep <= br_total_region_bytes rep /\ br_total_region_bytes rep - br_free_bytes rep = handed_bytes H /\
      br_free_bytes rep = weigh BIG_BUDDY_MIN_ORDER (br_free_blocks rep) /\
      (forall i, (i < 5)%nat -> br_free_blocks rep !!! i = br_never_allocated_by_order rep !!! i + br_reused_by_order rep !!! i + br_trimmed_by_order rep !!! i) /\
      br_never_allocated_blocks rep + br_reused_blocks rep + br_trimmed_blocks rep = sum_by id (br_free_blocks rep)
  | Fatal e => e = VAIinitFailed
  | Stuck => False
  end.
Proof.
  pose proof (init_whole env rx size thp node numa Hwf Hsize) as Hi. destruct (Buddy.init _ _ _ _ _ _ _) as [[s0 rx0]| |]; cbn [mbind outcome_bind]; [|done..]. destruct Hi as [rs0 HW0].
  pose proof (buddy_ops_keep nranges numa blend ops s0 rx0 ∅ ltac:(exists rs0, (fun _ => ∅); split; [done|by constructor; [intros r o a; split; [by intros []|set_solver]|]]) Hops) as Hk.
  destruct (buddy_ops _ _ _ _ ops) as [[[s rx'] H]| |]; cbn [mbind outcome_bind]; [|done..]. destruct Hk as (rs & A & HW & HH).
  destruct (buddy_report_ok s rx' rs A HW) as (rep & -> & Hd & E1 & _ & E2). cbn [mbind outcome_bind]. rewrite (handed_used s rx' rs A H HW HH).
  assert (0 <= regions_used A rs) by (apply sum_by_nonneg; intros z _; by apply (region_used_pos s rx' rs A HW)). pose proof Hd as (rs' & fp & _ & _ & _ & Ht).
  split_and!; [done|lia|lia|by eapply tally_weigh|intros i Hlt; by eapply tally_split|by eapply tally_sum].
Qed.

Lemma buddy_report_exact_witness :
  exists rx s H rep, ('(s, rx) ← Buddy.init (mkBuddyEnv 3 7) BuddyAllocator_new rx 1000 false 0 false;
    '(s, rx, H) ← buddy_ops 1 false (fun v _ => v) (s, rx, ∅) [(mkBuddyEnv 3 8, BAlloc 5000000 0); (mkBuddyEnv 3 9, BAlloc 60000000 0); (mkBuddyEnv 3 10, BTrim 10 0 true)];
    rep ← buddy_report s; Ret (s, H, rep)) = Ret (s, H : gmap (Z * Z * Z) Z, rep) /\ bool_decide (size H = 2%nat) = true /\ describes s rep /\ br_total_region_bytes rep - br_free_bytes rep = handed_bytes H.
Proof.
  pose proof (Radix_new_ok BumpKernel.empty BumpKernel.empty_process) as Hn. set (ops := [_; _; _]).
  set (run := fun rx => '(s, rx) ← Buddy.init (mkBuddyEnv 3 7) BuddyAllocator_new rx 1000 false 0 false; '(s, rx, H) ← buddy_ops 1 false (fun v _ => v) (s, rx, ∅) ops; rep ← buddy_report s; Ret (s, H, rep)).
  assert (Hc : match (rx ← Radix_new BumpKernel.empty; run rx) with Ret (_, H, _) => bool_decide (size H = 2%nat) | _ => false end = true) by (vm_compute; reflexivity).
  destruct (Radix_new BumpKernel.empty) as [rx| |]; [|discriminate Hc|discriminate Hc]. cbn [mbind outcome_bind] in Hc. destruct Hn as [Hwf _]. exists rx.
  pose proof (buddy_report_exact (mkBuddyEnv 3 7) rx 1000 0 1 false false (fun v _ => v) ops Hwf ltac:(split; [lia|lia]) ltac:(apply (bool_decide_unpack _); vm_compute; reflexivity)) as Hb.
  fold (run rx) in Hb. fold (run rx). destruct (run rx) as [[[s H] rep]| |]; [|discriminate Hc|discriminate Hc]. exists s, H, rep. destruct Hb as (H1 & _ & H2 & _). split; [reflexivity|]. split; [exact Hc|]. split; assumption.
Defined.
