(* ===== verification/StatsProofs.v ===== *)
(** * What the reports of the ownership map, the arenas and the caches say

    The walk over the tables of the ownership map counts the chunks it owns, the walk
    over the arenas their number, and the usage of a CPU is that of its lists. *)

From S2P Require Import Prelude Types SizeClasses DList Kernel Radix RadixProofs Buddy PageAllocator PageProofs Numa Rseq Bitmap SList PendingQueue SlabCache SlabProofs SlabSteal SlabSpec Heap BulkFill Realloc HeapInv Stats BuddyReport.

Ltac Zify.zify_post_hook ::= idtac.

(** ** Counting *)

(** The numbers from [a] on, [n] of them, that have the property. *)
Definition count (P : Z -> bool) (a n : Z) : Z := Z.of_nat (length (filter (fun c => P c = true) (seqZ a n))).

Lemma count_add P a n m : 0 <= n -> 0 <= m -> count P a (n + m) = count P a n + count P (a + n) m.
Proof. intros Hn Hm. unfold count. rewrite seqZ_app by done. rewrite filter_app, length_app. lia. Qed.

Lemma count_none P a n : (forall c, a <= c < a + n -> P c = false) -> count P a n = 0.
Proof.
  intros H. unfold count. destruct (filter _ _) as [|c l] eqn:E; [done|]. assert (Hc : c ∈ filter (fun c => P c = true) (seqZ a n)) by (rewrite E; by left).
  apply list_elem_of_filter in Hc as [Hc Hr%elem_of_seqZ]. by rewrite (H c Hr) in Hc.
Qed.

Lemma count_shift P Q a n : (forall i, 0 <= i < n -> P (a + i) = Q i) -> count P a n = count Q 0 n.
Proof.
  intros H. unfold count. f_equal. replace a with (a + 0) by lia. rewrite <- fmap_add_seqZ. assert (Hl : forall l, (forall i, i ∈ l -> 0 <= i < n) -> length (filter (fun c => P c = true) (Z.add a <$> l)) = length (filter (fun c => Q c = true) l)).
  { induction l as [|i l IH]; intros Hl; [done|]. cbn [fmap list_fmap]. rewrite !filter_cons, (H i) by (apply Hl; by left). specialize (IH ltac:(intros j Hj; apply Hl; by right)). destruct (decide (Q i = true)); cbn [length]; by rewrite IH. }
  apply Hl. intros i Hi%elem_of_seqZ. lia.
Qed.

Lemma count_bound P a n : 0 <= n -> 0 <= count P a n <= n.
Proof.
  intros Hn. unfold count. split; [lia|]. rewrite <- (Z2Nat.id n Hn) at 2. rewrite <- (length_seqZ a n). apply inj_le, length_filter.
Qed.

Lemma sum_by_seqZ_succ (g : Z -> Z) n : 0 <= n -> sum_by g (seqZ 0 (Z.succ n)) = sum_by g (seqZ 0 n) + g n.
Proof.
  intros Hn. unfold Z.succ. rewrite seqZ_app, sum_by_app by lia. rewrite (seqZ_cons (0 + n) 1) by lia.
  change (seqZ (Z.succ (0 + n)) (Z.pred 1)) with (@nil Z). cbn [sum_by]. by rewrite Z.add_0_l, Z.add_0_r.
Qed.

(** In [n] parts of [m]. *)
Lemma count_parts P a n m : 0 <= n -> 0 <= m -> count P a (n * m) = sum_by (fun i => count P (a + i * m) m) (seqZ 0 n).
Proof.
  intros Hn Hm. pattern n. apply natlike_ind; [done| |done]. clear n Hn. intros n Hn IH.
  replace (Z.succ n * m) with (n * m + m) by lia. rewrite count_add by lia. by rewrite IH, sum_by_seqZ_succ.
Qed.

(** ** The ownership map *)

(** A step of the walk that counts [n] more chunks. *)
Definition adds (c c' : RadixCounts) (n : Z) : Prop := is_u 64 (n_owned c) -> is_u 64 (n_owned c') /\ n_owned c' = wrap 64 (n_owned c + n).

Lemma adds_nothing c : adds c c 0.
Proof. intros H. split; [done|]. rewrite Z.add_0_r. symmetry. by apply wrap_small. Qed.

Lemma adds_trans c c1 c2 n n' : adds c c1 n -> adds c1 c2 n' -> adds c c2 (n + n').
Proof.
  intros H1 H2 Hu. destruct (H1 Hu) as [Hu1 E1]. destruct (H2 Hu1) as [Hu2 E2]. split; [done|]. rewrite E2, E1. unfold wrap. rewrite Zplus_mod_idemp_l. f_equal. lia.
Qed.

Lemma adds_fold (f : RadixCounts -> Z -> RadixCounts) (g : Z -> Z) l : (forall c i, i ∈ l -> adds c (f c i) (g i)) -> forall c, adds c (fold_left f l c) (sum_by g l).
Proof.
  induction l as [|i l IH]; intros H c; cbn [fold_left sum_by]; [apply adds_nothing|].
  eapply adds_trans; [apply H; by left|]. apply IH. intros c' j Hj. apply H. by right.
Qed.

Ltac Zify.zify_post_hook ::= Z.to_euclidean_division_equations.

Lemma chunk_indices i0 i1 i2 w b : 0 <= i0 < 256 -> 0 <= i1 < 4096 -> 0 <= i2 < 4096 -> 0 <= w < 64 -> 0 <= b < 64 ->
  let c := i0 * 68719476736 + i1 * 16777216 + i2 * 4096 + w * 64 + b in
  c < 17592186044416 /\ (c / 68719476736) mod 256 = i0 /\ (c / 16777216) mod 4096 = i1 /\ (c / 4096) mod 4096 = i2 /\ c mod 4096 / 64 = w /\ (c mod 4096) mod 64 = b.
Proof. intros H0 H1 H2 Hw Hb c. subst c. split_and!; lia. Qed.

(** Every chunk has indices. *)
Lemma chunk_has_indices c : 0 <= c < 17592186044416 ->
  exists i0 i1 i2 w b, 0 <= i0 < 256 /\ 0 <= i1 < 4096 /\ 0 <= i2 < 4096 /\ 0 <= w < 64 /\ 0 <= b < 64 /\ c = i0 * 68719476736 + i1 * 16777216 + i2 * 4096 + w * 64 + b.
Proof.
  intros Hc. exists (c / 68719476736), (c / 16777216 mod 4096), (c / 4096 mod 4096), (c mod 4096 / 64), (c mod 64). split_and!; lia.
Qed.

Ltac Zify.zify_post_hook ::= idtac.

Section Radix.
Context {K : Type} (t : RadixTree K).
Abbreviation m := (mem t).

(** The lookup of a chunk by its four indices. *)
Lemma get_indices c i0 i1 i2 w b : 0 <= i0 < 256 -> 0 <= i1 < 4096 -> 0 <= i2 < 4096 -> 0 <= w < 64 -> 0 <= b < 64 ->
  c = i0 * 68719476736 + i1 * 16777216 + i2 * 4096 + w * 64 + b ->
  Radix.get t c = if load m (l0 t) i0 =? 0 then false else let l2 := load m (load m (l0 t) i0) i1 in if l2 =? 0 then false else
    let l3 := load m l2 i2 in if l3 =? 0 then false else Z.testbit (load m l3 w) b.
Proof.
  intros H0 H1 H2 Hw Hb ->. unfold Radix.get. change RADIX_MAX_CHUNKS with 17592186044416. destruct (chunk_indices i0 i1 i2 w b H0 H1 H2 Hw Hb) as (Hlt & E0 & E1 & E2 & Ew & Eb). set (c := _ + b) in *.
  destruct (Z.leb_spec 17592186044416 c); [lia|]. rewrite split_eq. change (2 ^ 36) with 68719476736. change (2 ^ 24) with 16777216. change (2 ^ 12) with 4096.
  rewrite E0, E1, E2. change L3_WORD_BITS with 64. rewrite Ew, Eb. case_match; [done|]. cbv zeta. case_match; [done|]. case_match; [done|]. by apply single_mask_land.
Qed.

(** The chunks owned below a table of each level. *)
Abbreviation owned a n := (count (Radix.get t) a n).

Lemma word_owned a i0 i1 i2 w : 0 <= i0 < 256 -> 0 <= i1 < 4096 -> 0 <= i2 < 4096 -> 0 <= w < 64 -> a = i0 * 68719476736 + i1 * 16777216 + i2 * 4096 + w * 64 ->
  let l1 := load m (l0 t) i0 in let l2 := load m l1 i1 in let l3 := load m l2 i2 in
  owned a 64 = if l1 =? 0 then 0 else if l2 =? 0 then 0 else if l3 =? 0 then 0 else count_ones (load m l3 w).
Proof.
  intros H0 H1 H2 Hw -> l1 l2 l3. assert (Hg : forall b, 0 <= b < 64 -> Radix.get t (i0 * 68719476736 + i1 * 16777216 + i2 * 4096 + w * 64 + b) =
    if l1 =? 0 then false else if l2 =? 0 then false else if l3 =? 0 then false else Z.testbit (load m l3 w) b) by (intros b Hb; by apply get_indices).
  rewrite (count_shift _ _ _ _ Hg). destruct (l1 =? 0); [by apply count_none|]. destruct (l2 =? 0); [by apply count_none|]. destruct (l3 =? 0); [by apply count_none|]. done.
Qed.

(** The part of a table below one of its entries. *)
Lemma parts_eq (g : Z -> Z) a n p : 0 <= n -> 0 <= p -> (forall i, 0 <= i < n -> owned (a + i * p) p = g i) -> owned a (n * p) = sum_by g (seqZ 0 n).
Proof. intros Hn Hp H. rewrite count_parts by done. apply sum_by_ext. intros i Hi%elem_of_seqZ. apply H. lia. Qed.

Lemma sum_by_zero (l : list Z) : sum_by (fun _ => 0) l = 0.
Proof. induction l as [|x l IH]; cbn [sum_by]; lia. Qed.

Lemma leaf_owned a i0 i1 i2 : 0 <= i0 < 256 -> 0 <= i1 < 4096 -> 0 <= i2 < 4096 -> a = i0 * 68719476736 + i1 * 16777216 + i2 * 4096 ->
  let l1 := load m (l0 t) i0 in let l2 := load m l1 i1 in let l3 := load m l2 i2 in
  owned a 4096 = if l1 =? 0 then 0 else if l2 =? 0 then 0 else if l3 =? 0 then 0 else sum_by (fun w => count_ones (load m l3 w)) (seqZ 0 64).
Proof.
  intros H0 H1 H2 -> l1 l2 l3. change 4096 with (64 * 64) at 2. erewrite parts_eq; [|lia|lia|intros w Hw; by apply (word_owned _ i0 i1 i2 w)]. cbv zeta. fold l1. fold l2. fold l3.
  destruct (l1 =? 0); [apply sum_by_zero|]. destruct (l2 =? 0); [apply sum_by_zero|]. destruct (l3 =? 0); [apply sum_by_zero|done].
Qed.

Lemma l2_owned a i0 i1 : 0 <= i0 < 256 -> 0 <= i1 < 4096 -> a = i0 * 68719476736 + i1 * 16777216 ->
  let l1 := load m (l0 t) i0 in let l2 := load m l1 i1 in
  owned a 16777216 = if l1 =? 0 then 0 else if l2 =? 0 then 0 else sum_by (fun i2 => owned (a + i2 * 4096) 4096) (seqZ 0 4096).
Proof.
  intros H0 H1 -> l1 l2. change 16777216 with (4096 * 4096) at 2. rewrite count_parts by lia. destruct (l1 =? 0) eqn:E1; [|destruct (l2 =? 0) eqn:E2; [|done]].
  all: etrans; [|apply (sum_by_zero (seqZ 0 4096))]; apply sum_by_ext; intros i Hi%elem_of_seqZ; rewrite (leaf_owned _ i0 i1 i) by lia; cbv zeta; fold l1; rewrite E1; try done; fold l2; by rewrite E2.
Qed.

Lemma l1_owned a i0 : 0 <= i0 < 256 -> a = i0 * 68719476736 ->
  owned a 68719476736 = if load m (l0 t) i0 =? 0 then 0 else sum_by (fun i1 => owned (a + i1 * 16777216) 16777216) (seqZ 0 4096).
Proof.
  intros H0 ->. change 68719476736 with (4096 * 16777216) at 2. rewrite count_parts by lia. destruct (_ =? 0) eqn:E1; [|done].
  etrans; [|apply (sum_by_zero (seqZ 0 4096))]. apply sum_by_ext. intros i Hi%elem_of_seqZ. rewrite (l2_owned _ i0 i) by lia. cbv zeta. by rewrite E1.
Qed.

(** ** The walk *)

Lemma report_l3_adds l3 c : adds c (report_l3 m l3 c) (sum_by (fun w => count_ones (load m l3 w)) (seqZ 0 64)).
Proof.
  unfold report_l3. change L3_BITMAP_WORDS with 64. apply adds_fold. intros c' w _ Hu. cbn [n_owned]. unfold wadd. split; [apply wrap64_range|done].
Qed.

(** A new table does not change the number of chunks. *)
Lemma adds_counted c c' c1 n : n_owned c1 = n_owned c -> adds c1 c' n -> adds c c' n.
Proof. unfold adds. by intros ->. Qed.

Lemma report_l2_adds i0 i1 c : 0 <= i0 < 256 -> 0 <= i1 < 4096 -> let l1 := load m (l0 t) i0 in let l2 := load m l1 i1 in l1 <> 0 -> l2 <> 0 ->
  adds c (report_l2 m l2 c) (owned (i0 * 68719476736 + i1 * 16777216) 16777216).
Proof.
  intros H0 H1 l1 l2 N1 N2. rewrite (l2_owned _ i0 i1) by done. cbv zeta. fold l1. fold l2. rewrite (proj2 (Z.eqb_neq _ _) N1), (proj2 (Z.eqb_neq _ _) N2).
  unfold report_l2. change L2_SIZE with 4096. apply adds_fold. intros c' i2 Hi%elem_of_seqZ. rewrite (leaf_owned _ i0 i1 i2) by lia. cbv zeta. fold l1. fold l2.
  rewrite (proj2 (Z.eqb_neq _ _) N1), (proj2 (Z.eqb_neq _ _) N2). destruct (load m l2 i2 =? 0); [apply adds_nothing|]. eapply adds_counted; [|apply report_l3_adds]. done.
Qed.

Lemma report_l1_adds i0 c : 0 <= i0 < 256 -> load m (l0 t) i0 <> 0 -> adds c (report_l1 m (load m (l0 t) i0) c) (owned (i0 * 68719476736) 68719476736).
Proof.
  intros H0 N1. rewrite (l1_owned _ i0) by done. rewrite (proj2 (Z.eqb_neq _ _) N1). unfold report_l1. change L1_SIZE with 4096. apply adds_fold. intros c' i1 Hi%elem_of_seqZ.
  destruct (Z.eqb_spec (load m (load m (l0 t) i0) i1) 0) as [E|N2].
  - rewrite (l2_owned _ i0 i1) by lia. cbv zeta. rewrite (proj2 (Z.eqb_neq _ _) N1), E. apply adds_nothing.
  - eapply adds_counted; [|apply report_l2_adds; [lia|lia|done|done]]. done.
Qed.

(** The number of chunks the report gives is that of the chunks the map owns. *)
Lemma radix_report_ok : l0 t <> 0 -> rr_owned_chunks (radix_report t) = owned 0 (2 ^ 44).
Proof.
  intros Hn. unfold radix_report. rewrite (proj2 (Z.eqb_neq _ _) Hn). cbv zeta. cbn [rr_owned_chunks].
  assert (Ha : adds (mkRadixCounts 0 0 0 0) (report_l0 m (l0 t) (mkRadixCounts 0 0 0 0)) (owned 0 (256 * 68719476736))).
  { rewrite count_parts by lia. unfold report_l0. change L0_SIZE with 256. apply adds_fold. intros c i0 Hi%elem_of_seqZ. rewrite Z.add_0_l. destruct (Z.eqb_spec (load m (l0 t) i0) 0) as [E|N1].
    - rewrite (l1_owned _ i0) by lia. rewrite E. apply adds_nothing.
    - eapply adds_counted; [|apply report_l1_adds; [lia|done]]. done. }
  destruct Ha as [_ ->]; [done|]. cbn [n_owned]. change (256 * 68719476736) with (2 ^ 44). pose proof (count_bound (Radix.get t) 0 (2 ^ 44) ltac:(lia)). rewrite Z.add_0_l. apply wrap_small. lia.
Qed.
End Radix.

(** ** The arenas *)

Lemma count_arenas_ok (m : gmap Z PageArena) fuel : forall p a l n,
  seg m p a l 0 -> (forall c, c ∈ l -> c <> 0) -> (length l < fuel)%nat -> 0 <= n -> n + Z.of_nat (length l) < 2 ^ 64 -> count_arenas fuel m a n = Ret (n + Z.of_nat (length l)).
Proof.
  induction fuel as [|fuel IH]; intros p a l n Hs Hz Hf Hn Hb; [lia|]. cbn [count_arenas]. destruct l as [|c l]; cbn [seg length] in *; [subst a; rewrite Z.add_0_r; done|].
  destruct Hs as (-> & x & Hx & Hp & Hs). destruct (Z.eqb_spec c null) as [->|_]; [by destruct (Hz 0 ltac:(by left))|]. rewrite Hx. cbn [from_option mbind outcome_bind].
  rewrite wadd_small by lia. rewrite (IH c (pa_next x) l (n + 1)); [f_equal; lia|done|intros d Hd; apply Hz; by right|lia..].
Qed.

(** [arena_counts] gives the number of arenas of every node. *)
Lemma arena_counts_ok {K} `{!Kernel K} `{!KernelSpec K} (p : PageAllocator K) L : page_inv p L -> Z.of_nat (size (pg_mem p)) < 2 ^ 64 ->
  arena_counts p = Ret ((fun i => Z.of_nat (length (L i))) <$> seq 0 (length (nodes p))).
Proof.
  intros [(E1 & E2 & _) Hn _ _] Hs. unfold arena_counts. rewrite E1, E2, Nat2Z.id, firstn_all.
  assert (H : forall l off, (forall i node, l !! i = Some node -> node_ok (pg_mem p) (na_state node) (L (off + i)%nat)) -> node_counts p l = Ret ((fun i => Z.of_nat (length (L i))) <$> seq off (length l))).
  { induction l as [|node l IH]; intros off Hl; cbn [node_counts length seq fmap list_fmap]; [done|]. destruct (Hl 0%nat node eq_refl) as [N1 N2 N3 _]. rewrite Nat.add_0_r in *.
    assert (Hlen : (length (L off) <= size (pg_mem p))%nat).
    { rewrite <- size_dom, <- (size_list_to_set (C := gset Z) (L off) N2). apply subseteq_size. intros a Ha%elem_of_list_to_set. apply elem_of_dom. by eapply seg_elem. }
    rewrite (count_arenas_ok _ _ 0 _ (L off) 0 N1 N3) by lia. cbn [mbind outcome_bind]. rewrite (IH (S off)); [done|]. intros i node' Hi. rewrite Nat.add_succ_l, <- Nat.add_succ_r. by apply Hl. }
  apply H. intros i node Hi. by apply Hn.
Qed.

(** ** The caches of the CPUs *)

(** The bytes in the blocks of one list, and of all lists of a CPU. *)
Definition class_bytes (Q : lists) (cpu class : Z) : Z := Z.of_nat (length (Q Local cpu class)) * block_size_of class.
Definition cpu_bytes (Q : lists) (cpu : Z) : Z := sum_by (class_bytes Q cpu) (seqZ 0 NUM_SIZE_CLASSES).

(** What a counter of 64 bits that saturates shows. *)
Definition shown (n : Z) : Z := Z.min n (2 ^ 64 - 1).

Lemma shown_add a b : 0 <= a -> 0 <= b -> saturating_add 64 (shown a) (shown b) = shown (a + b).
Proof. unfold saturating_add, shown. lia. Qed.

Section Slab.
Context (n : Z) (S : Z -> Z -> bool) (s : slab) (Q : lists) (HR : slab_rep n S s Q).

Lemma block_size_pos class : 0 <= class < NUM_SIZE_CLASSES -> 0 < block_size_of class.
Proof using. intros Hc. destruct (class_facts_of class Hc). lia. Qed.

Lemma class_bytes_pos cpu class : 0 <= class < NUM_SIZE_CLASSES -> 0 <= class_bytes Q cpu class.
Proof using. intros Hc. pose proof (block_size_pos class Hc). unfold class_bytes. nia. Qed.

(** A list has fewer blocks than there are addresses. *)
Lemma local_length cpu class : Z.of_nat (length (Q Local cpu class)) < 2 ^ 64.
Proof using HR.
  assert (H : (length (Q Local cpu class) <= length (seqZ 0 (2 ^ 56)))%nat); [|rewrite length_seqZ in H; lia].
  apply submseteq_length, NoDup_submseteq; [apply HR|]. intros a Ha%(sr_addr _ _ _ _ HR). apply elem_of_seqZ. destruct Ha. lia.
Qed.

Lemma class_usage_ok cpu class : SlabProofs.valid n cpu class -> get_rseq_cpu_class_usage_bytes (sl_inner s) cpu class = Ret (shown (class_bytes Q cpu class)).
Proof using HR.
  intros Hv. unfold get_rseq_cpu_class_usage_bytes. rewrite (get_cache_ok n _ _ _ (sr_dims _ _ _ _ HR) Hv). cbn [mbind outcome_bind].
  destruct Hv as [Hc Hk]. assert (Hl : SIZE_CLASSES !! Z.to_nat class = Some (class_size class)) by (apply list_lookup_lookup_total_lt; change (length SIZE_CLASSES) with (Z.to_nat NUM_SIZE_CLASSES); lia).
  rewrite Hl. cbn [from_option mbind outcome_bind]. rewrite (sr_usage _ _ _ _ HR) by done. rewrite wrap_small by (pose proof (local_length cpu class); lia). done.
Qed.

Lemma cpu_usage_loop_ok cpu l : 0 <= cpu < n -> (forall c, c ∈ l -> 0 <= c < NUM_SIZE_CLASSES) -> forall acc, 0 <= acc ->
  cpu_usage_loop (sl_inner s) cpu l (shown acc) = Ret (shown (acc + sum_by (class_bytes Q cpu) l)).
Proof using HR.
  intros Hc. induction l as [|c l IH]; intros Hl acc Ha; cbn [cpu_usage_loop sum_by]; [by rewrite Z.add_0_r|]. pose proof (Hl c ltac:(by left)) as Hk. pose proof (class_bytes_pos cpu c Hk).
  rewrite class_usage_ok by done. cbn [mbind outcome_bind]. rewrite shown_add by lia. rewrite IH; [f_equal; f_equal; lia|intros c' Hc'; apply Hl; by right|lia].
Qed.

Lemma cpu_usage_ok cpu : 0 <= cpu < n -> get_rseq_cpu_usage_bytes (sl_inner s) cpu = Ret (shown (cpu_bytes Q cpu)).
Proof using HR. intros Hc. apply (cpu_usage_loop_ok cpu (seqZ 0 NUM_SIZE_CLASSES) Hc) with (acc := 0); [|lia]. intros c Hk%elem_of_seqZ. lia. Qed.

Lemma cpu_bytes_pos cpu : 0 <= cpu_bytes Q cpu.
Proof using. apply sum_by_nonneg. intros c Hc%elem_of_seqZ. apply class_bytes_pos. lia. Qed.

(** The bytes of a word that [store_usize] wrote. *)
Definition holds (m : bytes) (p v : Z) : Prop := forall i, 0 <= i < 8 -> m (p + i) = Z.land (Z.shiftr v (8 * i)) 255.

(** The walk over the CPUs ends, gives the total and fills the buffer, and writes
    nowhere else. *)
Lemma cpu_stats_ok buffer k : forall from (m : bytes) u, 0 <= from -> 0 <= k -> from + k <= n -> 0 <= buffer -> buffer + 8 * (from + k) <= 2 ^ 63 -> us_total u = shown (sum_by (cpu_bytes Q) (seqZ 0 from)) ->
  exists u' m', cpu_stats (sl_inner s) m buffer (seqZ from k) u = Ret (u', m') /\ us_total u' = shown (sum_by (cpu_bytes Q) (seqZ 0 (from + k))) /\
    (buffer <> null -> forall cpu, from <= cpu < from + k -> holds m' (buffer + 8 * cpu) (shown (cpu_bytes Q cpu))) /\
    forall y, buffer = null \/ ~ buffer + 8 * from <= y < buffer + 8 * (from + k) -> m' y = m y.
Proof using HR.
  intros from m u Hf Hk. revert from m u Hf. pattern k. apply natlike_ind; [| |done]; clear k Hk.
  - intros from m u Hf _ _ _ Hu. exists u, m. rewrite Z.add_0_r. split_and!; try done. intros _ cpu Hc. lia.
  - intros k Hk IH from m u Hf Hn Hb Hb2 Hu. rewrite seqZ_cons by lia. rewrite Z.pred_succ. cbn [cpu_stats]. rewrite cpu_usage_ok by lia. cbn [mbind outcome_bind].
    assert (Ea : wadd buffer (wmul 8 from) = buffer + 8 * from) by (rewrite wmul_small, wadd_small by lia; done). rewrite Ea. set (v := shown (cpu_bytes Q from)). set (m1 := if negb (buffer =? null) then _ else m). set (u1 := mkUsage _ _ _ _).
    destruct (IH (Z.succ from) m1 u1) as (u' & m' & Hr & Ht & Hh & Ho); try done; try lia.
    { subst u1. cbn [us_total]. rewrite Hu. subst v. rewrite shown_add; [|apply sum_by_nonneg; intros; apply cpu_bytes_pos|apply cpu_bytes_pos]. f_equal.
      by rewrite sum_by_seqZ_succ. }
    exists u', m'. replace (from + Z.succ k) with (Z.succ from + k) by lia. split_and!; [done|done|..].
    + intros Hnz cpu Hc. destruct (decide (cpu = from)) as [->|]; [|apply Hh; [done|lia]]. intros i Hi. rewrite Ho by (right; lia). subst m1. destruct (Z.eqb_spec buffer null); [done|]. cbn [negb]. unfold store_usize.
      rewrite (proj2 (andb_true_iff _ _)) by (split; lia). f_equal. f_equal. lia.
    + intros y Hy. rewrite Ho by (destruct Hy; [by left|right; lia]). subst m1. destruct (Z.eqb_spec buffer null); [done|]. cbn [negb]. unfold store_usize.
      destruct Hy as [|Hy]; [done|]. destruct (Z.leb_spec (buffer + 8 * from) y); [|done]. destruct (Z.ltb_spec y (buffer + 8 * from + 8)); [lia|done].
Qed.

Lemma class_cpu_stats_ok class l : 0 <= class < NUM_SIZE_CLASSES -> (forall c, c ∈ l -> 0 <= c < n) -> forall u, exists u', class_cpu_stats (sl_inner s) class l u = Ret u'.
Proof using HR.
  intros Hk. induction l as [|c l IH]; intros Hl u; cbn [class_cpu_stats]; [by exists u|]. rewrite class_usage_ok by (split; [apply Hl; by left|done]). cbn [mbind outcome_bind]. apply IH. intros c' Hc'. apply Hl. by right.
Qed.

Lemma class_stats_ok refills cpus l : length refills = class_count -> (forall c, c ∈ cpus -> 0 <= c < n) -> (forall c, c ∈ l -> 0 <= c < NUM_SIZE_CLASSES) -> exists r, class_stats (sl_inner s) cpus refills l = Ret r.
Proof using HR.
  intros Hr Hc. induction l as [|c l IH]; intros Hl; cbn [class_stats]; [by eexists|]. pose proof (Hl c ltac:(by left)) as Hk.
  destruct (lookup_lt_is_Some_2 refills (Z.to_nat c)) as [v Hv]; [rewrite Hr; change class_count with (Z.to_nat NUM_SIZE_CLASSES); lia|]. rewrite Hv. cbn [from_option mbind outcome_bind].
  destruct (class_cpu_stats_ok c cpus Hk Hc (mkUsage 0 usize_max 0 0)) as (u & ->). cbn [mbind outcome_bind]. destruct IH as (r & ->); [intros c' Hc'; apply Hl; by right|]. by eexists.
Qed.
End Slab.
