(* ===== verification/StatsProps.v ===== *)
(** * The properties of the statistics

    [get_stats] takes its numbers from the state of the allocator and leaves every live
    pointer alone. *)

From S2P Require Import Prelude Types SizeClasses DList Kernel Radix RadixProofs RBTree Buddy BuddyProofs BuddyWhole PageAllocator Numa Rseq Bitmap SList PendingQueue SlabCache SlabProofs SlabSteal SlabSpec Heap BulkFill Alloc GlobalAlloc Trim Realloc HeapFrame HeapInv HeapOps HeapLive HeapStart HeapResize HeapSpec HeapView BigInv HeapFull FullSpec HeapProps ResizeProps Stats BuddyReport StatsProofs.

Section Full.
Context {K : Type} `{!Kernel K} {S : KernelSpec K} (cfg : config) (cpus : Z).
Implicit Types (h : heap K) (ts : gmap nat tls) (V : gmap Z (Z * Z)).

(** What the walks of [get_stats] find in a heap. *)
Lemma full_parts h ts V : full_ok cfg cpus h ts V ->
  (exists Q, slab_rep (cpus + 1) calm (hp_slab h) Q) /\ topo_ok cpus (hp_slab h) /\ (exists rep, buddy_report (hp_buddy h) = Ret rep /\ describes (hp_buddy h) rep /\ 0 <= br_free_bytes rep <= br_total_region_bytes rep /\ br_total_region_bytes rep <= 2 ^ 47) /\ hp_root h <> 0.
Proof.
  intros (Vs & Vb & own & rs & Ab & M & G & Db & _ & Hok). destruct (bo_small _ _ _ _ _ _ _ _ _ _ _ _ Hok) as (C & B & D & A & HI & _).
  destruct (bv_slab _ _ _ _ _ _ (hi_blocks _ _ _ _ _ _ _ _ _ HI)) as [Q HQ]. pose proof (bi_whole _ _ _ _ _ _ _ (bo_big _ _ _ _ _ _ _ _ _ _ _ _ Hok)) as HW.
  destruct (buddy_report_ok _ _ _ _ HW) as (rep & Hr & Hd & E1 & E0 & E2). pose proof (regions_bound _ _ _ _ HW). destruct (wh_radix _ _ _ _ HW) as [tabs Hi].
  assert (0 <= regions_used Ab rs) by (apply sum_by_nonneg; intros z _; by apply (region_used_pos _ _ _ _ HW)).
  split_and!; [exists Q; apply HQ|apply HQ| |apply (ri_nz _ _ _ _ Hi [] (hp_root h)), Hi]. exists rep. split_and!; try done; lia.
Qed.
End Full.

(** The report of the buddy allocator that the statistics show. *)
Definition buddy_part (s : RSMallocStats) : BuddyBackendReport :=
  mkBuddyBackendReport (buddy_regions s) (buddy_total_region_bytes s) (buddy_free_bytes s) (buddy_free_blocks_by_order s)
    (buddy_never_allocated_blocks s) (buddy_reused_blocks s) (buddy_trimmed_blocks s) (buddy_never_allocated_by_order s)
    (buddy_reused_by_order s) (buddy_trimmed_by_order s) (buddy_grow_order s) (buddy_thp s).

(** The sums that the statistics add to it. *)
Definition buddy_sums (s : RSMallocStats) : Prop :=
  buddy_total_region_bytes s = buddy_used_bytes s + buddy_free_bytes s /\ buddy_free_bytes s = weigh BIG_BUDDY_MIN_ORDER (buddy_free_blocks_by_order s) /\
  buddy_free_blocks s = sum_by id (buddy_free_blocks_by_order s) /\ buddy_never_allocated_bytes s = weigh BIG_BUDDY_MIN_ORDER (buddy_never_allocated_by_order s) /\
  buddy_reused_bytes s = weigh BIG_BUDDY_MIN_ORDER (buddy_reused_by_order s) /\ buddy_trimmed_bytes s = weigh BIG_BUDDY_MIN_ORDER (buddy_trimmed_by_order s).

(** C16. The statistics.  In a state that threads have reached [get_stats] ends, or
    aborts because the kernel refuses memory for the allocator's own tables.  It
    allocates one buffer, apart from the live pointers, and changes no byte of them.
    Its numbers are those of the state.  The figures of the buddy allocator describe it:
    they count the regions linked from it and their bytes, and each block on a free list
    of theirs once, by order and under the trim state in its header; the used bytes are
    the rest of the regions, and the bytes of the free blocks, in all and by state, are
    those of the blocks by order.  The owned chunks are those the ownership map answers
    for, and the cached bytes in all and of every CPU, which the buffer holds, are those
    of the blocks on the lists of the CPUs (the greatest 64-bit number if they are more).
    Dropping the statistics releases the buffer again. *)
Theorem stats_exact {K} `{!Kernel K} `{!KernelSpec K} (ma : machine) (rc : RSMallocConfig) (k : K) g h ts V t th e e' (m : Z -> Z) (c : Counters) :
  machine_ok ma -> config_ok rc -> 2 ^ 56 <= ALIGN_TAG (g_config g) -> reached ma rc k g h ts V -> ts !! t = Some th ->
  env_ok (get_max_cpu (get_nprocs_conf ma)) e -> env_ok (get_max_cpu (get_nprocs_conf ma)) e' -> length (REFILLS_BY_CLASS c) = class_count ->
  let n := get_max_cpu (get_nprocs_conf ma) in
  match get_stats (g_config g) th h e m c with
  | Ret (s, th', h', m') =>
      let buffer := rseq_cpu_buffer s in
      full_ok (g_config g) n h' (<[t := th']> ts) (if buffer =? null then V else <[buffer := (8 * n, 16)]> V) /\ (buffer = null \/ V !! buffer = None) /\
      (forall q sz al y, V !! q = Some (sz, al) -> q <= y < q + sz -> m' y = m y) /\
      describes (hp_buddy h') (buddy_part s) /\ buddy_sums s /\
      radix_owned_chunks s = count (Radix.get (hp_radix h')) 0 (2 ^ 44) /\
      (exists Q, slab_rep (n + 1) calm (hp_slab h') Q /\ rseq_cpu_total_cached_bytes s = shown (sum_by (cpu_bytes Q) (seqZ 0 n)) /\
         (buffer <> null -> forall cpu, 0 <= cpu < n -> holds m' (buffer + 8 * cpu) (shown (cpu_bytes Q cpu)))) /\
      match drop_stats (g_config g) h' e' s with
      | Ret h2 => full_ok (g_config g) n h2 (<[t := th']> ts) V
      | Fatal er => er = VAIinitFailed
      | Stuck => False
      end
  | Fatal er => er = VAIinitFailed \/ er = OutOfMemory
  | Stuck => False
  end.
Proof.
  intros Hm Hc Ht Hr Hth He He' Hlen n. destruct (reached_ok ma rc k g h ts V Hm Hc Ht Hr) as (Hok & [Ha M1 M2 _]). set (cfg := g_config g) in *.
  destruct (full_parts cfg n h ts V Hok) as (_ & [Hn1 Hn _ _] & _). assert (Hn31 : n < 2 ^ 31) by (pose proof (mo_nprocs _ Hm); unfold n, get_max_cpu; case_match; lia).
  unfold get_stats. cbv zeta. rewrite Hn. unfold alloc_usize_array. assert (Hmul : checked_mul n 8 = Some (8 * n)) by (unfold checked_mul; destruct (Z.ltb_spec (n * 8) (2 ^ 64)); [f_equal; lia|lia]). rewrite Hmul.
  pose proof (rs_alloc_full cfg n Ha h ts V t th e (8 * n) 16 Hok Hth He ltac:(lia) ltac:(done) ltac:(lia) eq_refl) as Hal.
  destruct (rs_alloc cfg th h e (8 * n) false) as [[[p th'] h']| |]; cbn [mbind outcome_bind full_allocated] in *; [|done..].
  assert (Hp : full_ok cfg n h' (<[t := th']> ts) (if p =? null then V else <[p := (8 * n, 16)]> V) /\ (p = null \/ V !! p = None)) by (destruct (Z.eqb_spec p null); [by split; [|left]|destruct Hal; split; [done|by right]]). clear Hal. destruct Hp as [Hok' Hnew].
  assert (Hpos : 0 <= p /\ p + 8 * n <= 2 ^ 63).
  { destruct (Z.eqb_spec p null) as [->|Hnz]; [lia|]. destruct (full_facts cfg n Ht _ _ _ p (8 * n) 16 Hok' (lookup_insert_eq _ _ _)) as (? & _ & ? & _). lia. }
  destruct (full_parts cfg n h' _ _ Hok') as ([Q HQ] & [_ Hn' _ _] & (rep & -> & Hd & Hb & Hb47) & Hroot).
  destruct (cpu_stats_ok (n + 1) calm (hp_slab h') Q HQ p n 0 m (mkUsage 0 usize_max 0 0)) as (u & m' & -> & Hu & Hh & Hm'); try lia; [done|]. cbn [mbind outcome_bind].
  destruct (class_stats_ok (n + 1) calm (hp_slab h') Q HQ (REFILLS_BY_CLASS c) (seqZ 0 n) (seqZ 0 NUM_SIZE_CLASSES) Hlen) as (r & ->); [intros x Hx%elem_of_seqZ; lia|intros x Hx%elem_of_seqZ; lia|]. cbn [mbind outcome_bind].
  cbn [rseq_cpu_buffer buddy_total_region_bytes buddy_used_bytes buddy_free_bytes buddy_free_blocks_by_order radix_owned_chunks rseq_cpu_total_cached_bytes]. split_and!; try done.
  - intros q sz al y Hq Hy. apply Hm'. destruct (Z.eqb_spec p null) as [|Hnz]; [by left|]. right. intros Hy'. destruct Hnew as [|Hnew]; [done|]. rewrite Z.add_0_l, Z.add_0_r in *.
    assert (q <> p) by congruence. assert (q = p); [|done]. eapply (full_apart cfg n _ _ _ q p); [exact Hok'|by rewrite lookup_insert_ne|apply lookup_insert_eq|done|lia].
  - destruct Hd as (rs & fp & Hce & H1 & H2 & Htl). exists rs, fp. split_and!; [exact Hce|exact H1|exact H2|]. by destruct Htl; constructor.
  - destruct Hd as (rs & fp & _ & _ & _ & Htl). assert (Hf : br_free_bytes rep <= 2 ^ 47) by lia. unfold buddy_sums. cbn. split_and!; [unfold saturating_sub; lia|by eapply tally_weigh|by eapply sum_usize_ok|..]; eapply bytes_by_order_ok; try done; apply Htl.
  - by apply radix_report_ok.
  - exists Q. split_and!; [done|done|]. intros Hnz cpu Hcpu. apply Hh; [done|lia].
  - unfold drop_stats. cbn [rseq_cpu_cached_bytes rseq_cpu_count rseq_cpu_buffer]. destruct (Z.eqb_spec p null) as [|Hnz]; [done|]. destruct (Z.eqb_spec n 0) as [|_]; [lia|]. cbn [orb].
    destruct Hnew as [|Hnew]; [done|]. pose proof (free_full cfg n Ha Ht M1 M2 h' _ _ e' p Hok' ltac:(rewrite lookup_insert_eq; eauto) He') as Hf. by rewrite delete_insert_id in Hf.
Qed.

Definition demo_counters : Counters := mkCounters 2 1 40 (replicate class_count 3) 5 100 200 300 7 4096 10 20.

Lemma stats_exact_witness :
  exists g (h : heap BumpKernel.state) th, match get_stats (g_config g) th h demo_env (fun _ => 7) demo_counters with
    | Ret (s, _, h', _) => describes (hp_buddy h') (buddy_part s) /\ radix_owned_chunks s = count (Radix.get (hp_radix h')) 0 (2 ^ 44)
    | Fatal er => er = VAIinitFailed \/ er = OutOfMemory
    | Stuck => False
    end.
Proof.
  destruct demo_thread as (g & h & ts & V & p & th & Hr & Hp & Ht & Hth). exists g, h, th.
  pose proof (stats_exact demo_machine demo_config BumpKernel.empty g h ts V 1%nat th demo_env demo_env (fun _ => 7) demo_counters demo_machine_ok demo_config_ok Ht Hr Hth demo_env_ok demo_env_ok eq_refl) as Hl.
  cbv zeta in Hl. destruct (get_stats _ _ _ _ _ _) as [[[[s th'] h'] m']| |]; [|exact Hl|exact Hl]. destruct Hl as (_ & _ & _ & H1 & _ & H2 & _). split; assumption.
Defined.

(** The numbers of a fresh process: one region, all of it free. *)
Definition stats_demo : outcome RSMallocStats :=
  '(g, h) ← GlobalAlloc.init demo_machine demo_config BumpKernel.empty;
  '(s, _, _, _) ← get_stats (g_config g) tls_new h demo_env (fun _ => 0) demo_counters;
  Ret s.

Example stats_of_fresh_process :
  match stats_demo with
  | Ret s => [buddy_regions s; buddy_total_region_bytes s; buddy_used_bytes s; buddy_free_blocks s; buddy_never_allocated_blocks s; total_misses s] = [1; 67108864; 0; 1; 1; 3]
  | _ => False
  end.
Proof. vm_compute. reflexivity. Qed.
