(* ===== verification/Sync.v ===== *)
(** * The spin lock and the one-time initialisation (src/internals/lock.rs,
      src/internals/once.rs, src/internals/oncelock.rs)

    Threads interleave at the atomic operations, each of which is one step on the
    shared word; the memory is sequentially consistent. *)

From S2P Require Import Prelude Types.

(** [compare_exchange(current, new)]: whether it succeeded, and the new value. *)
Definition compare_exchange {A} `{!EqDecision A} (word current new : A) : bool * A :=
  if decide (word = current) then (true, new) else (false, word).

(** ** [SpinLock] *)

Module SpinLock.

(** Where a thread is: outside, in the loop of [lock], in that of
    [spin_until_unlock], or holding the guard. *)
Inductive place := Outside | Locking | Waiting | Holding.

#[export] Instance place_eq_dec : EqDecision place.
Proof. solve_decision. Defined.

(** One atomic operation of the calls; [Drop] is that of the guard. *)
Definition lock (state : bool) : bool * place :=
  let '(ok, state) := compare_exchange state false true in (state, if ok then Holding else Locking).

Definition try_lock (state : bool) : bool * place :=
  let '(ok, state) := compare_exchange state false true in (state, if ok then Holding else Outside).

Definition spin_until_unlock (state : bool) : bool * place := (state, if state then Waiting else Outside).

Definition drop_guard (state : bool) : bool * place := (false, Outside).

(** The reset of the word in the child of a fork. *)
Definition reset_at_fork (state : bool) : bool := false.

Abbreviation threads := (gmap nat place).

(** Threads call the operations in any order; only a holder drops the guard. *)
Inductive lock_step : bool * threads -> bool * threads -> Prop :=
  | step_lock s ts t p : ts !! t = Some p -> p = Outside \/ p = Locking -> lock_step (s, ts) ((lock s).1, <[t := (lock s).2]> ts)
  | step_try s ts t : ts !! t = Some Outside -> lock_step (s, ts) ((try_lock s).1, <[t := (try_lock s).2]> ts)
  | step_spin s ts t p : ts !! t = Some p -> p = Outside \/ p = Waiting -> lock_step (s, ts) ((spin_until_unlock s).1, <[t := (spin_until_unlock s).2]> ts)
  | step_drop s ts t : ts !! t = Some Holding -> lock_step (s, ts) ((drop_guard s).1, <[t := (drop_guard s).2]> ts).

(** The word is set exactly while one thread holds the guard. *)
Record lock_inv (s : bool) (ts : threads) : Prop := {
  li_word : s = true <-> exists t, ts !! t = Some Holding;
  li_one t t' : ts !! t = Some Holding -> ts !! t' = Some Holding -> t = t';
}.

(** A thread other than the holder moves, without taking the lock. *)
Lemma inv_move s ts t p p' : lock_inv s ts -> ts !! t = Some p -> p <> Holding -> p' <> Holding -> lock_inv s (<[t := p']> ts).
Proof.
  intros [H1 H2] Ht Hp Hp'. assert (Hh : forall u, <[t := p']> ts !! u = Some Holding <-> ts !! u = Some Holding).
  { intros u. rewrite lookup_insert_Some. split; [intros [[_ He]|[_ Hu]]; [congruence|done]|intros Hu; right; split; [congruence|done]]. }
  constructor; [rewrite H1; by setoid_rewrite Hh|]. intros u u'. rewrite !Hh. apply H2.
Qed.

Lemma inv_take ts t p : lock_inv false ts -> ts !! t = Some p -> lock_inv true (<[t := Holding]> ts).
Proof.
  intros [H1 H2] Ht. assert (Hno : forall u, ts !! u <> Some Holding) by (intros u Hu; discriminate (proj2 H1 (ex_intro _ u Hu))). constructor.
  - split; [|done]. intros _. exists t. by rewrite lookup_insert_eq.
  - intros u u' [[<- _]|[_ Hu]]%lookup_insert_Some [[<- _]|[_ Hu']]%lookup_insert_Some; [done|by destruct (Hno u')|by destruct (Hno u)..].
Qed.

Lemma inv_drop s ts t : lock_inv s ts -> ts !! t = Some Holding -> lock_inv false (<[t := Outside]> ts).
Proof.
  intros [H1 H2] Ht. assert (Hno : forall u, <[t := Outside]> ts !! u <> Some Holding).
  { intros u [[_ He]|[Hne Hu]]%lookup_insert_Some; [done|]. by apply Hne, H2. }
  constructor; [split; [done|intros [u Hu]; by destruct (Hno u)]|]. intros u u' Hu. by destruct (Hno u).
Qed.

Lemma lock_step_inv st st' : lock_step st st' -> lock_inv st.1 st.2 -> lock_inv st'.1 st'.2.
Proof.
  destruct 1 as [s ts t p Ht Hp|s ts t Ht|s ts t p Ht Hp|s ts t Ht]; cbn [fst snd]; intros Hi.
  - unfold lock, compare_exchange. destruct s; cbn [decide fst snd]; [|by eapply inv_take]. apply (inv_move _ _ _ p); [done|done|by destruct Hp as [->| ->]|done].
  - unfold try_lock, compare_exchange. destruct s; cbn [decide fst snd]; [|by eapply inv_take]. by eapply inv_move.
  - unfold spin_until_unlock. cbn [fst snd]. apply (inv_move _ _ _ p); [done|done|by destruct Hp as [->| ->]|by destruct s].
  - by eapply inv_drop.
Qed.

(** C38. The spin lock.  Start with the lock free and no thread holding it, and let
    the threads run [lock], [try_lock], [spin_until_unlock] and drop their guards,
    interleaved at every atomic operation.  Then at most one thread holds the
    guard, the word says whether one does, and the lock is never lost: whenever no
    thread holds it, the next attempt of any thread succeeds, and when the holder
    drops the guard the lock is free. *)
Theorem spin_lock_exclusive (ts0 : threads) s ts :
  (forall t, ts0 !! t <> Some Holding) -> rtc lock_step (false, ts0) (s, ts) ->
  (forall t t', ts !! t = Some Holding -> ts !! t' = Some Holding -> t = t') /\
  (s = true <-> exists t, ts !! t = Some Holding) /\
  ((forall t, ts !! t <> Some Holding) -> lock s = (true, Holding) /\ try_lock s = (true, Holding)) /\
  (drop_guard s).1 = false.
Proof.
  intros H0 Hs. assert (Hi : lock_inv s ts).
  { apply (rtc_invariant lock_step (fun st => lock_inv st.1 st.2) _ (s, ts) lock_step_inv Hs).
    constructor; [split; [done|intros [t Ht]; by destruct (H0 t)]|intros t t' Ht; by destruct (H0 t)]. }
  destruct Hi as [H1 H2]. split; [done|]. split; [done|]. split; [|done]. intros Hno. destruct s; [|done].
  destruct (proj1 H1 eq_refl) as [t Ht]. by destruct (Hno t).
Qed.

Lemma spin_lock_exclusive_witness :
  let ts : threads := {[0%nat := Outside; 1%nat := Outside]} in
  exists s ts', rtc lock_step (false, ts) (s, ts') /\ ts' !! 0%nat = Some Holding /\ ts' !! 1%nat = Some Locking /\ (s = true <-> exists t, ts' !! t = Some Holding).
Proof.
  intros ts. exists true, (<[1%nat := Locking]> (<[0%nat := Holding]> ts)).
  assert (Hr : rtc lock_step (false, ts) (true, <[1%nat := Locking]> (<[0%nat := Holding]> ts))).
  { eapply rtc_l; [apply (step_lock false ts 0%nat Outside); [reflexivity|by left]|]. apply rtc_once. apply (step_lock true (<[0%nat := Holding]> ts) 1%nat Outside); [reflexivity|by left]. }
  assert (H0 : forall t, ts !! t <> Some Holding) by (intros t; unfold ts; rewrite lookup_insert_Some, lookup_singleton_Some; naive_solver).
  destruct (spin_lock_exclusive ts true _ H0 Hr) as (_ & H & _). split; [exact Hr|]. split; [reflexivity|]. split; [reflexivity|exact H].
Defined.
End SpinLock.

(** ** [Once] and [OnceLock] *)

Module OnceLock.

Section Once.
Context {T : Type} (f : nat -> T).

(** [Once.state] and the value; [None] is uninitialised memory. *)
Record cell := mkCell { state : Z; value : option T }.

Definition new : cell := mkCell 0 None.

(** Where a thread is in [get_or_init]: before the first load of [call_once],
    before the exchange of [start], in the closure, writing the value, before the
    store of [2], in the loop, before the read of the value, and returned with
    what it read. *)
Inductive place := Entry | Start | Closure | Write (v : T) | Publish | Spin | Read | Returned (r : option T).

(** The next atomic operation of the thread [t]; [f t] is what its closure
    computes. *)
Definition get_or_init (t : nat) (c : cell) (p : place) : cell * place :=
  match p with
  | Entry => (c, if state c =? 2 then Read else Start)
  | Start => let '(ok, s) := compare_exchange (state c) 0 1 in (mkCell s (value c), if ok then Closure else Spin)
  | Closure => (c, Write (f t))
  | Write v => (mkCell (state c) (Some v), Publish)
  | Publish => (mkCell 2 (value c), Spin)
  | Spin => (c, if negb (state c =? 2) then Spin else Read)
  | Read => (c, Returned (value c))
  | Returned _ => (c, p)
  end.

Abbreviation threads := (gmap nat place).

Inductive once_step : cell * threads -> cell * threads -> Prop :=
  | step_call c ts t : (forall p, ts !! t = Some p -> exists r, p = Returned r) -> once_step (c, ts) (c, <[t := Entry]> ts)
  | step_run c ts t p : ts !! t = Some p -> once_step (c, ts) ((get_or_init t c p).1, <[t := (get_or_init t c p).2]> ts).

(** The thread that won the exchange. *)
Definition inside (p : place) : Prop := p = Closure \/ (exists v, p = Write v) \/ p = Publish.

(** What a thread at [p] may rely on. *)
Definition place_ok (t : nat) (c : cell) (p : place) : Prop :=
  match p with
  | Write v => v = f t
  | Publish => exists u, value c = Some (f u)
  | Read => state c = 2
  | Returned r => state c = 2 /\ r = value c
  | _ => True
  end.

Record once_inv (c : cell) (ts : threads) : Prop := {
  oi_state : state c = 0 \/ state c = 1 \/ state c = 2;
  oi_none : state c = 0 -> value c = None;
  oi_done : state c = 2 -> exists u, value c = Some (f u);
  oi_inside t p : ts !! t = Some p -> inside p -> state c = 1;
  oi_one t t' p p' : ts !! t = Some p -> ts !! t' = Some p' -> inside p -> inside p' -> t = t';
  oi_place t p : ts !! t = Some p -> place_ok t c p;
}.

(** A thread that is not inside, and does not get inside, moves. *)
Lemma once_move c ts t p' : once_inv c ts -> ~ inside p' -> place_ok t c p' -> once_inv c (<[t := p']> ts).
Proof.
  intros [O1 O2 O3 O4 O5 O6] Hn Hp. constructor; [done|done|done| | |].
  - intros u q [[_ <-]|[_ Hu]]%lookup_insert_Some Hq; [done|by eapply O4].
  - intros u u' q q' [[_ <-]|[_ Hu]]%lookup_insert_Some [[_ <-]|[_ Hu']]%lookup_insert_Some Hq Hq'; [done|done|done|by eapply O5].
  - intros u q [[<- <-]|[_ Hu]]%lookup_insert_Some; [done|by apply O6].
Qed.

(** The thread inside moves on, and changes the cell. *)
Lemma once_inside c c' ts t p p' :
  once_inv c ts -> ts !! t = Some p -> inside p -> place_ok t c' p' -> (inside p' -> state c' = 1) ->
  (state c' = 1 \/ state c' = 2) -> (state c' = 2 -> exists u, value c' = Some (f u)) -> once_inv c' (<[t := p']> ts).
Proof.
  intros [O1 O2 O3 O4 O5 O6] Ht Hin Hp Hs Hc Hv. pose proof (O4 t p Ht Hin) as H1. constructor; [tauto|lia|done| | |].
  - intros u q [[_ <-]|[Hne Hu]]%lookup_insert_Some Hq; [by apply Hs|]. destruct Hne. by eapply O5.
  - intros u u' q q' [[<- <-]|[Hne Hu]]%lookup_insert_Some [[<- <-]|[Hne' Hu']]%lookup_insert_Some Hq Hq'; [done| | |by eapply O5].
    + by eapply O5.
    + by eapply O5.
  - intros u q [[<- <-]|[Hne Hu]]%lookup_insert_Some; [done|]. specialize (O6 u q Hu). destruct q; cbn [place_ok] in *; try done; [|lia|lia].
    destruct Hne. eapply (O5 t u p Publish); try done. by right; right.
Qed.

Lemma once_step_inv st st' : once_step st st' -> once_inv st.1 st.2 -> once_inv st'.1 st'.2.
Proof.
  destruct 1 as [c ts t Ht|c ts t p Ht]; cbn [fst snd]; intros Hi; [apply once_move; [done|by intros [|[[? ?]|]]|done]|].
  pose proof (oi_place _ _ Hi t p Ht) as Hp. destruct p as [| | |v| | | |r]; cbn [get_or_init fst snd].
  - apply once_move; [done|by destruct (state c =? 2); intros [|[[? ?]|]]|]. by destruct (Z.eqb_spec (state c) 2).
  - unfold compare_exchange. case_decide as H0; cbn [fst snd]; [|destruct c; by apply once_move; [..|intros [|[[? ?]|]]|]].
    destruct Hi as [O1 O2 O3 O4 O5 O6]. assert (Hno : forall u q, ts !! u = Some q -> ~ inside q) by (intros u q Hu Hq; specialize (O4 u q Hu Hq); lia).
    constructor; cbn [state value]; [tauto|done|done|done| |].
    + intros u u' q q' [[<- <-]|[Hne Hu]]%lookup_insert_Some [[<- <-]|[Hne' Hu']]%lookup_insert_Some Hq Hq'; [done|by destruct (Hno u' q')|by destruct (Hno u q)..].
    + intros u q [[<- <-]|[Hne Hu]]%lookup_insert_Some; [done|]. specialize (O6 u q Hu). destruct q; cbn [place_ok] in *; try done; lia.
  - eapply (once_inside c c); [done|done|by left|done| | |]; pose proof (oi_inside _ _ Hi t _ Ht ltac:(by left)); [done|by left|lia].
  - pose proof (oi_inside _ _ Hi t _ Ht ltac:(right; left; eauto)) as H1. cbn [place_ok] in Hp. subst v.
    eapply (once_inside c); [done|done|right; left; eauto|by exists t|done|by left|]. cbn. lia.
  - destruct Hp as [u Hu]. eapply (once_inside c); [done|done|by right; right|done|by intros [|[[? ?]|]]|by right|]. intros _. by exists u.
  - apply once_move; [done|by destruct (state c =? 2); intros [|[[? ?]|]]|]. by destruct (Z.eqb_spec (state c) 2).
  - apply once_move; [done|by intros [|[[? ?]|]]|]. done.
  - apply once_move; [done|by intros [|[[? ?]|]]|done].
Qed.

(** Steps of one thread. *)
Fixpoint run_thread (n : nat) (t : nat) (c : cell) (p : place) : cell * place :=
  match n with O => (c, p) | S n' => let '(c, p) := get_or_init t c p in run_thread n' t c p end.

(** The reset of the state in the child of a fork; the old value stays in memory. *)
Definition reset_at_fork (c : cell) : cell := mkCell 0 (value c).

(** After it the first call runs its closure, whatever the cell held. *)
Lemma reset_runs_closure t c : run_thread 7 t (reset_at_fork c) Entry = (mkCell 2 (Some (f t)), Returned (Some (f t))).
Proof. done. Qed.
End Once.
Arguments new {T}.

(** C39. One-time initialisation.  Threads call [get_or_init] of a new [OnceLock],
    any number of times, interleaved at every atomic operation.  Then every call
    that returned read an initialised value, the closure of one thread computed
    it, and all calls that ever return read the same one.  At most one thread is
    in the closure, and no call is stuck: a thread inside leaves the closure and
    sets the state within three of its own steps, and once the state is set a
    thread anywhere in the call returns within three of its own steps. *)
Theorem once_lock_initialises {T} (f : nat -> T) c ts :
  rtc (once_step f) (new, ∅) (c, ts) ->
  (forall t r, ts !! t = Some (Returned r) -> state c = 2 /\ r = value c /\ exists u, r = Some (f u)) /\
  (forall t t' p p', ts !! t = Some p -> ts !! t' = Some p' -> inside p -> inside p' -> t = t') /\
  (forall t p, ts !! t = Some p -> inside p -> exists n, (n <= 3)%nat /\ state (run_thread f n t c p).1 = 2) /\
  (forall t p, ts !! t = Some p -> state c = 2 -> exists n, (n <= 3)%nat /\ (run_thread f n t c p).2 = Returned (value c)).
Proof.
  intros Hs. assert (Hi : once_inv f c ts).
  { apply (rtc_invariant (once_step f) (fun st => once_inv f st.1 st.2) _ (c, ts) (once_step_inv f) Hs).
    constructor; cbn; [tauto|done|done|by intros t p|by intros t t' p p'|by intros t p]. }
  split_and!.
  - intros t r Ht. destruct (oi_place _ _ _ Hi t _ Ht) as [H2 ->]. split; [done|]. split; [done|]. by apply (oi_done _ _ _ Hi).
  - apply (oi_one _ _ _ Hi).
  - intros t p Ht [->|[[v ->]| ->]]; [exists 3%nat|exists 2%nat|exists 1%nat]; (split; [lia|done]).
  - intros t p Ht H2. assert (Hno : ~ inside p) by (intros Hin; pose proof (oi_inside _ _ _ Hi t p Ht Hin); lia). pose proof (oi_place _ _ _ Hi t p Ht) as Hp.
    assert (E : state c =? 2 = true) by lia. destruct p as [| | |v| | | |r]; cbn [place_ok] in Hp; [exists 2%nat| | | | |exists 2%nat|exists 1%nat|exists 0%nat];
      try (by destruct Hno; unfold inside; eauto); try (split; [lia|]; cbn; by rewrite ?E).
    + exists 3%nat. split; [lia|]. cbn. unfold compare_exchange. rewrite decide_False by lia. cbn. by rewrite E.
    + split; [lia|]. by destruct Hp as [_ ->].
Qed.

Lemma once_lock_initialises_witness :
  exists c ts, rtc (once_step (fun t => Z.of_nat t + 7)) (new, ∅) (c, ts) /\ ts !! 0%nat = Some (Returned (Some 7)) /\ exists u : nat, Some 7 = Some (Z.of_nat u + 7).
Proof.
  set (f := fun t => Z.of_nat t + 7). set (run := fun st : cell * gmap nat place => match st.2 !! 0%nat with Some p => ((get_or_init f 0 st.1 p).1, <[0%nat := (get_or_init f 0 st.1 p).2]> st.2) | None => st end).
  set (st0 := (new (T := Z), <[0%nat := Entry]> (∅ : gmap nat (place (T := Z))))).
  assert (Hr : rtc (once_step f) (new, ∅) (Nat.iter 7 run st0)).
  { eapply rtc_l; [apply (step_call f new ∅ 0%nat); intros p Hp; discriminate Hp|]. fold st0.
    assert (Hone : forall st, rtc (once_step f) st (run st)).
    { intros [c ts]. unfold run. cbn [fst snd]. destruct (ts !! 0%nat) as [p|] eqn:Hp; [|reflexivity]. apply rtc_once. by apply step_run. }
    generalize 7%nat as n. induction n as [|n IH]; [reflexivity|]. cbn [Nat.iter]. etrans; [exact IH|apply Hone]. }
  destruct (Nat.iter 7 run st0) as [c ts] eqn:E. assert (Ht : ts !! 0%nat = Some (Returned (Some 7))) by (vm_compute in E; injection E as <- <-; reflexivity).
  exists c, ts. split; [exact Hr|]. split; [exact Ht|]. destruct (once_lock_initialises f c ts Hr) as (H1 & _). destruct (H1 0%nat (Some 7) Ht) as (_ & _ & u & Hu). exists u. exact Hu.
Defined.
End OnceLock.
