(* ===== verification/TransferList.v ===== *)
(** * A transfer list under interference (src/rseq_core/slab_cache.rs, src/trim.rs)

    [transfer_push_batch], [transfer_pop_batch] and the way [trim_small] takes a
    whole list are loops around a compare-and-exchange on the tagged head of a
    list.  Here threads run them on one list, interleaved at every access to the
    head or to the [next] field of a header, on a sequentially consistent memory;
    the hints of the bitmaps are left out.  [transfer_push_single] is the push of
    one block, [transfer_pop_single] the pop with a batch of one.

    While a thread walks the list, others may take the blocks it is looking at and
    write to their headers; only the tag tells it.  The tag has eight bits: the
    theorem asks that an exchange that finds the word it loaded comes before 256
    updates have passed, and [tag_wraps] shows that it has to. *)

From S2P Require Import Prelude Types SList Rseq SlabCache SlabProofs Sync.

(** Local variables at each program point.  [old] is the word a round loaded; the
    rest is there to state the properties: [at_] is the number of updates before the
    load, [seg] the blocks from [start] to [tail], [seen] the blocks walked over. *)
Inductive place :=
  | Idle
  | PushLoad (start tail : Z) (seg : list Z)
  | PushLink (start tail : Z) (seg : list Z) (old at_ : Z)
  | PushCas (start tail : Z) (seg : list Z) (old at_ : Z)
  | PopLoad (batch_size : Z)
  | PopNext (batch_size old at_ : Z)
  | PopWalk (batch_size old at_ tail next count : Z) (seen : list Z)
  | TakeLoad
  | TakeCas (old at_ : Z)
  | Empty
  | Popped (head tail count : Z)
  | Taken (head : Z).

(** A completed update of the head, with the blocks it pushed or took. *)
Inductive update := Pushes (seg : list Z) | Takes (seg : list Z).

(** The head of the list, the headers, and the updates of the head so far, the last
    one first. *)
Record shared := mkShared { s_word : Z; s_heads : gmap Z Header; s_log : list update }.

Definition s_updates (s : shared) : Z := Z.of_nat (length (s_log s)).

(** A thread and the blocks that are its own. *)
Record thread := mkThread { t_own : gset Z; t_place : place }.

Definition ready (p : place) : bool := match p with Idle | Empty | Popped _ _ _ | Taken _ => true | _ => false end.

(** The blocks from [a] on. *)
Fixpoint collect (fuel : nat) (heads : gmap Z Header) (a : Z) : list Z :=
  match fuel with
  | O => []
  | S fuel' => if a =? null then [] else match heads !! a with Some h => a :: collect fuel' heads (s_next h) | None => [] end
  end.

(** An exchange of the head: where the thread goes on. *)
Definition exchange (s : shared) (old new : Z) (own : gset Z) (u : update) (ok retry : place) (mine : gset Z) : shared * thread :=
  let '(b, w) := compare_exchange (s_word s) old new in
  if b : bool then (mkShared w (s_heads s) (u :: s_log s), mkThread mine ok) else (s, mkThread own retry).

(** The next access of a thread in [transfer_push_batch]. *)
Definition transfer_push (s : shared) (own : gset Z) (p : place) : outcome (shared * thread) :=
  match p with
  | PushLoad start tail seg => Ret (s, mkThread own (PushLink start tail seg (s_word s) (s_updates s)))
  | PushLink start tail seg old at_ =>
      let '(old_head, tag) := unpack_ptr old in
      heads ← set_header_next (s_heads s) tail old_head;
      Ret (mkShared (s_word s) heads (s_log s), mkThread own (PushCas start tail seg old at_))
  | PushCas start tail seg old at_ =>
      let '(old_head, tag) := unpack_ptr old in
      Ret (exchange s old (pack start tag) own (Pushes seg) Idle (PushLoad start tail seg) (own ∖ list_to_set seg))
  | _ => Ret (s, mkThread own p)
  end.

(** In [transfer_pop_batch], on one of the two lists of a CPU: [Empty] is where the
    code goes on to the other list. *)
Definition transfer_pop (s : shared) (own : gset Z) (p : place) : outcome (shared * thread) :=
  let goto p := Ret (s, mkThread own p) in
  match p with
  | PopLoad batch_size =>
      let '(head, tag) := unpack_ptr (s_word s) in
      if head =? null then goto Empty else goto (PopNext batch_size (s_word s) (s_updates s))
  | PopNext batch_size old at_ =>
      let '(head, tag) := unpack_ptr old in
      h ← from_option (s_heads s !! head);
      goto (PopWalk batch_size old at_ head (s_next h) 1 [head])
  | PopWalk batch_size old at_ tail next count seen =>
      if (count <? batch_size) && negb (next =? null) then
        h ← from_option (s_heads s !! next);
        goto (PopWalk batch_size old at_ next (s_next h) (wadd count 1) (seen ++ [next]))
      else
        let '(head, tag) := unpack_ptr old in
        Ret (exchange s old (pack next tag) own (Takes seen) (Popped head tail count) (PopLoad batch_size) (own ∪ list_to_set seen))
  | _ => goto p
  end.

(** The loop of [trim_small] that takes the list looks at the word it loaded, or at
    the one a failed exchange has found. *)
Definition take_check (s : shared) : place :=
  let '(unpacked, tag) := unpack_ptr (s_word s) in
  if unpacked =? null then Empty else TakeCas (s_word s) (s_updates s).

Definition transfer_take (s : shared) (own : gset Z) (p : place) : outcome (shared * thread) :=
  match p with
  | TakeLoad => Ret (s, mkThread own (take_check s))
  | TakeCas old at_ =>
      let '(unpacked, tag) := unpack_ptr old in
      let all := collect (size (s_heads s)) (s_heads s) unpacked in
      Ret (exchange s old (pack null tag) own (Takes all) (Taken unpacked) (take_check s) (own ∪ list_to_set all))
  | _ => Ret (s, mkThread own p)
  end.

Definition advance (s : shared) (th : thread) : outcome (shared * thread) :=
  match t_place th with
  | PushLoad _ _ _ | PushLink _ _ _ _ _ | PushCas _ _ _ _ _ => transfer_push s (t_own th) (t_place th)
  | PopLoad _ | PopNext _ _ _ | PopWalk _ _ _ _ _ _ _ => transfer_pop s (t_own th) (t_place th)
  | TakeLoad | TakeCas _ _ => transfer_take s (t_own th) (t_place th)
  | p => Ret (s, mkThread (t_own th) p)
  end.

(** An exchange that finds the word it loaded finds it before 256 updates. *)
Definition tag_fresh (s : shared) (th : thread) : Prop :=
  match t_place th with
  | PushLink _ _ _ old at_ | PushCas _ _ _ old at_ | PopNext _ old at_ | PopWalk _ old at_ _ _ _ _ | TakeCas old at_ => s_word s = old -> s_updates s < at_ + 256
  | _ => True
  end.

Abbreviation threads := (gmap nat thread).

(** The blocks [seg] of a thread, linked from [start] to [tail], then [q]. *)
Record segment (heads : gmap Z Header) (own : gset Z) (start tail : Z) (seg : list Z) (q : Z) : Prop := {
  sg_chain : chain heads start seg q;
  sg_last : last seg = Some tail;
  sg_nodup : NoDup seg;
  sg_own : list_to_set seg ⊆ own;
}.

(** A thread that is not in a call starts one, links the headers of its blocks as
    it likes or hands a block to another thread; a thread in a call goes on.
    [guarded] says whether the tags are fresh. *)
Inductive list_step (guarded : bool) : shared * threads -> shared * threads -> Prop :=
  | step_push s ts t own p start tail seg q :
      ts !! t = Some (mkThread own p) -> ready p = true -> segment (s_heads s) own start tail seg q ->
      list_step guarded (s, ts) (s, <[t := mkThread own (PushLoad start tail seg)]> ts)
  | step_pop s ts t own p batch_size :
      ts !! t = Some (mkThread own p) -> ready p = true -> is_u 64 batch_size -> list_step guarded (s, ts) (s, <[t := mkThread own (PopLoad batch_size)]> ts)
  | step_take s ts t own p : ts !! t = Some (mkThread own p) -> ready p = true -> list_step guarded (s, ts) (s, <[t := mkThread own TakeLoad]> ts)
  | step_write s ts t own p a h v :
      ts !! t = Some (mkThread own p) -> ready p = true -> a ∈ own -> s_heads s !! a = Some h -> v = null \/ is_Some (s_heads s !! v) ->
      list_step guarded (s, ts) (mkShared (s_word s) (<[a := with_s_next v h]> (s_heads s)) (s_log s), <[t := mkThread own Idle]> ts)
  | step_give s ts t t' own own' p p' a :
      t <> t' -> ts !! t = Some (mkThread own p) -> ts !! t' = Some (mkThread own' p') -> ready p = true -> ready p' = true -> a ∈ own ->
      list_step guarded (s, ts) (s, <[t' := mkThread (own' ∪ {[a]}) Idle]> (<[t := mkThread (own ∖ {[a]}) Idle]> ts))
  | step_run s ts t th s' th' :
      ts !! t = Some th -> (guarded = true -> tag_fresh s th) -> advance s th = Ret (s', th') -> list_step guarded (s, ts) (s', <[t := th']> ts).

(** ** The abstract stack *)

(** A push puts its blocks in front; blocks are taken from the front, or not at
    all. *)
Definition apply_update (u : update) (L : list Z) : option (list Z) :=
  match u with
  | Pushes seg => Some (seg ++ L)
  | Takes seg => if decide (seg `prefix_of` L) then Some (drop (length seg) L) else None
  end.

Definition replay (log : list update) : option (list Z) := foldr (fun u r => r ≫= apply_update u) (Some []) log.

(** ** The invariant *)

(** A word loaded when [at_] updates had been made. *)
Record snapshot (tag0 : Z) (s : shared) (old at_ : Z) : Prop := {
  sn_word : is_u 64 old;
  sn_at : 0 <= at_ <= s_updates s;
  sn_tag : old / 2 ^ 56 = (tag0 + at_) mod 256;
  sn_same : s_updates s = at_ -> s_word s = old;
  sn_head : (unpack_ptr old).1 = null \/ is_Some (s_heads s !! (unpack_ptr old).1);
}.

Definition place_ok (tag0 : Z) (s : shared) (L : list Z) (th : thread) : Prop :=
  let heads := s_heads s in
  match t_place th with
  | Idle | Empty | TakeLoad | Taken _ => True
  | PushLoad start tail seg => exists q, segment heads (t_own th) start tail seg q
  | PushLink start tail seg old at_ => (exists q, segment heads (t_own th) start tail seg q) /\ snapshot tag0 s old at_
  | PushCas start tail seg old at_ => segment heads (t_own th) start tail seg (unpack_ptr old).1 /\ snapshot tag0 s old at_
  | PopLoad n => is_u 64 n
  | PopNext n old at_ => is_u 64 n /\ snapshot tag0 s old at_ /\ (unpack_ptr old).1 <> null
  | PopWalk n old at_ tail next count seen =>
      is_u 64 n /\ snapshot tag0 s old at_ /\ (next = null \/ is_Some (heads !! next)) /\
      last seen = Some tail /\ count = Z.of_nat (length seen) /\ count <= Z.max n 1 /\
      (s_updates s = at_ -> exists rest, L = seen ++ rest /\ chain heads (unpack_ptr old).1 seen next /\ chain heads next rest null)
  | TakeCas old at_ => snapshot tag0 s old at_
  | Popped head tail count => exists seg q, segment heads (t_own th) head tail seg q /\ count = Z.of_nat (length seg)
  end.

Record list_inv (tag0 : Z) (blocks : gset Z) (s : shared) (ts : threads) (L : list Z) : Prop := {
  li_word : is_u 64 (s_word s);
  li_log : replay (s_log s) = Some L;
  li_tag : s_word s / 2 ^ 56 = (tag0 + s_updates s) mod 256;
  li_chain : chain (s_heads s) (unpack_ptr (s_word s)).1 L null;
  li_nodup : NoDup L;
  li_heads a h : s_heads s !! a = Some h -> 0 < a < 2 ^ 56 /\ (s_next h = null \/ is_Some (s_heads s !! s_next h));
  li_dom : dom (s_heads s) = blocks;
  li_all b : b ∈ blocks <-> b ∈ L \/ exists t th, ts !! t = Some th /\ b ∈ t_own th;
  li_list t th : ts !! t = Some th -> t_own th ## list_to_set L;
  li_own t t' th th' : t <> t' -> ts !! t = Some th -> ts !! t' = Some th' -> t_own th ## t_own th';
  li_place t th : ts !! t = Some th -> place_ok tag0 s L th;
}.

Section Inv.
Context (tag0 : Z) (blocks : gset Z).
Implicit Types (s : shared) (ts : threads) (L : list Z) (th : thread).

Lemma segment_frame heads heads' own start tail seg q :
  (forall a, a ∈ own -> heads' !! a = heads !! a) -> segment heads own start tail seg q -> segment heads' own start tail seg q.
Proof. intros Hm [H1 H2 H3 H4]. constructor; [|done..]. eapply chain_frame; [|done]. intros a Ha. apply Hm. set_solver. Qed.

Lemma snapshot_mono s s' old at_ :
  s_updates s <= s_updates s' -> (s_updates s' = s_updates s -> s_word s' = s_word s) -> (forall a, is_Some (s_heads s !! a) -> is_Some (s_heads s' !! a)) ->
  snapshot tag0 s old at_ -> snapshot tag0 s' old at_.
Proof. intros Hu Hw Hd [S1 S2 S3 S4 S5]. constructor; [done|lia|done| |by destruct S5; eauto]. intros He. rewrite Hw by lia. apply S4. lia. Qed.

(** What a thread relies on survives the steps of the others: they leave its own
    blocks alone, and the list too as long as they do not update the head. *)
Lemma place_stable s s' L L' th :
  s_updates s <= s_updates s' ->
  (s_updates s' = s_updates s -> s_word s' = s_word s /\ L' = L /\ forall a, a ∈ L -> s_heads s' !! a = s_heads s !! a) ->
  (forall a, a ∈ t_own th -> s_heads s' !! a = s_heads s !! a) -> (forall a, is_Some (s_heads s !! a) -> is_Some (s_heads s' !! a)) ->
  place_ok tag0 s L th -> place_ok tag0 s' L' th.
Proof.
  intros Hu Hsame Hown Hdom. assert (Hsn : forall old at_, snapshot tag0 s old at_ -> snapshot tag0 s' old at_) by (intros old at_; apply snapshot_mono; [done|apply Hsame|done]).
  assert (Hsg : forall start tail seg q, segment (s_heads s) (t_own th) start tail seg q -> segment (s_heads s') (t_own th) start tail seg q) by (intros; by eapply segment_frame).
  unfold place_ok. destruct (t_place th); try done.
  - intros [q Hq]. eauto.
  - intros [[q Hq] Hs]. eauto.
  - intros [Hq Hs]. eauto.
  - intros (H1 & H2 & H3). eauto.
  - intros (H1 & H2 & H3 & H4 & H5 & H6 & H7). split; [done|]. split; [eauto|]. split; [by destruct H3; eauto|]. split; [done|]. split; [done|]. split; [done|]. intros He. destruct H2 as [_ H2 _ _ _].
    destruct (Hsame ltac:(lia)) as (_ & -> & HL). destruct (H7 ltac:(lia)) as (rest & -> & Hc1 & Hc2). exists rest. split; [done|].
    split; (eapply chain_frame; [|done]); intros a Ha; apply HL, elem_of_app; auto.
  - auto.
  - intros (seg & q & Hq & Hc). eauto.
Qed.

(** One thread changes the shared state and what it owns. *)
Lemma inv_change s s' ts L L' t th own' p' :
  list_inv tag0 blocks s ts L -> ts !! t = Some th ->
  (s_log s' = s_log s /\ s_word s' = s_word s /\ L' = L \/
     exists u, s_log s' = u :: s_log s /\ apply_update u L = Some L' /\ is_u 64 (s_word s') /\ s_word s' / 2 ^ 56 = (s_word s / 2 ^ 56 + 1) mod 256) ->
  chain (s_heads s') (unpack_ptr (s_word s')).1 L' null -> NoDup L' ->
  (forall a h, s_heads s' !! a = Some h -> s_next h = null \/ is_Some (s_heads s !! s_next h)) ->
  dom (s_heads s') = dom (s_heads s) -> (forall a, a ∉ t_own th -> s_heads s' !! a = s_heads s !! a) ->
  own' ∪ list_to_set L' = t_own th ∪ list_to_set L -> own' ## list_to_set L' -> place_ok tag0 s' L' (mkThread own' p') ->
  list_inv tag0 blocks s' (<[t := mkThread own' p']> ts) L'.
Proof.
  intros HI Ht Hw Hc Hnd Hn Hdom Hh Heq Hd Hp. destruct HI as [I1 I2 I3 I4 I5 I6 I7 I8 I9 I10 I11].
  assert (Hsome : forall a, is_Some (s_heads s' !! a) <-> is_Some (s_heads s !! a)) by (intros a; rewrite <- !elem_of_dom; by rewrite Hdom).
  constructor.
  - destruct Hw as [(_ & -> & _)|(u & _ & _ & ? & _)]; done.
  - destruct Hw as [(-> & _ & ->)|(u & -> & Hu & _)]; [done|]. cbn [replay foldr] in *. fold (replay (s_log s)). by rewrite I2.
  - destruct Hw as [(Hl & -> & _)|(u & Hl & _ & _ & ->)]; unfold s_updates; rewrite Hl; [done|]. rewrite I3, Zplus_mod_idemp_l. f_equal. unfold s_updates. cbn [length]. lia.
  - done.
  - done.
  - intros a h Ha. split; [|by rewrite Hsome; eapply Hn]. destruct (proj1 (Hsome a) (ex_intro _ h Ha)) as [h0 Hh0]. by apply (I6 a h0).
  - by rewrite Hdom.
  - intros b. rewrite I8. assert (Hb : b ∈ own' \/ b ∈ L' <-> b ∈ t_own th \/ b ∈ L) by (rewrite <- !(elem_of_list_to_set (C := gset Z)), <- !elem_of_union, Heq; done). split.
    + intros HB. assert (Hor : (b ∈ t_own th \/ b ∈ L) \/ exists u thu, u <> t /\ ts !! u = Some thu /\ b ∈ t_own thu).
      { destruct HB as [HB|(u & thu & Hu & HB)]; [by left; right|]. destruct (decide (u = t)) as [->|Hne]; [left; left; congruence|right; eauto]. }
      destruct Hor as [[Ho|Ho]%Hb|(u & thu & Hne & Hu & Ho)]; [right; exists t, (mkThread own' p'); by rewrite lookup_insert_eq|by left|right; exists u, thu; by rewrite lookup_insert_ne].
    + intros HB. assert (Hor : (b ∈ own' \/ b ∈ L') \/ exists u thu, ts !! u = Some thu /\ b ∈ t_own thu).
      { destruct HB as [HB|(u & thu & [[<- <-]|[Hne Hu]]%lookup_insert_Some & HB)]; [by left; right|by left; left|right; eauto]. }
      destruct Hor as [[Ho|Ho]%Hb|Ho]; [right; eauto|by left|by right].
  - intros u thu [[<- <-]|[Hne Hu]]%lookup_insert_Some; [done|]. specialize (I9 u thu Hu). specialize (I10 u t thu th ltac:(done) Hu Ht). set_solver.
  - intros u u' thu thu' Huu [[<- <-]|[Hne Hu]]%lookup_insert_Some [[<- <-]|[Hne' Hu']]%lookup_insert_Some; [done| | |by apply (I10 u u')].
    + specialize (I9 u' thu' Hu'). specialize (I10 u' t thu' th ltac:(done) Hu' Ht). set_solver.
    + specialize (I9 u thu Hu). specialize (I10 u t thu th ltac:(done) Hu Ht). set_solver.
  - intros u thu [[<- <-]|[Hne Hu]]%lookup_insert_Some; [done|]. apply (place_stable s s' L L' thu); [unfold s_updates; destruct Hw as [(-> & _)|(v & -> & _)]; cbn [length]; lia| | | |by eapply I11].
    + intros He. destruct Hw as [(_ & H1 & H2)|(v & Hl & _)]; [|unfold s_updates in He; rewrite Hl in He; cbn [length] in He; lia]. split; [done|]. split; [done|]. intros a Ha. apply Hh. specialize (I9 t th Ht). set_solver.
    + intros a Ha. apply Hh. specialize (I10 u t thu th ltac:(done) Hu Ht). set_solver.
    + intros a. apply Hsome.
Qed.

(** A thread moves on. *)
Lemma list_inv_move s ts L t own p p' :
  list_inv tag0 blocks s ts L -> ts !! t = Some (mkThread own p) -> place_ok tag0 s L (mkThread own p') -> list_inv tag0 blocks s (<[t := mkThread own p']> ts) L.
Proof.
  intros HI Ht Hp. pose proof HI as [I1 I2 I3 I4 I5 I6 I7 I8 I9 I10 I11]. apply (inv_change s s ts L L t (mkThread own p) own p'); try done; [by left| |].
  - intros a h Ha. by apply (I6 a h).
  - by apply (I9 t _ Ht).
Qed.

(** A word that was found again in time was never replaced. *)
Lemma same_word s ts L old at_ :
  list_inv tag0 blocks s ts L -> snapshot tag0 s old at_ -> s_word s = old -> s_updates s < at_ + 256 -> s_updates s = at_.
Proof.
  intros HI [S1 S2 S3 S4 S5] Hw Hu. pose proof (li_tag _ _ _ _ _ HI) as Ht. rewrite Hw, S3 in Ht.
  pose proof (Z.div_mod (tag0 + at_) 256 ltac:(lia)). pose proof (Z.div_mod (tag0 + s_updates s) 256 ltac:(lia)). lia.
Qed.

Lemma pack_word p w : p = null \/ 0 < p < 2 ^ 56 -> is_u 64 w -> (unpack_ptr (pack p w)).1 = p /\ is_u 64 (pack p w) /\ pack p w / 2 ^ 56 = (w / 2 ^ 56 + 1) mod 256.
Proof.
  intros Hp Hw. assert (Hu : is_u 56 p) by (unfold is_u; lia). destruct (unpack_pack p w Hu Hw) as [H1 H2]. split; [done|]. split; [done|].
  by destruct (pack_roundtrip p w Hu Hw) as [_ H3].
Qed.

(** The head of the list and every link is null or an address of 56 bits. *)
Lemma link_range s ts L a : list_inv tag0 blocks s ts L -> a = null \/ is_Some (s_heads s !! a) -> a = null \/ 0 < a < 2 ^ 56.
Proof. intros HI [Ha|[h Hh]]; [by left|right]. by apply (li_heads _ _ _ _ _ HI a h). Qed.

Lemma snapshot_now s ts L : list_inv tag0 blocks s ts L -> snapshot tag0 s (s_word s) (s_updates s).
Proof.
  intros [I1 I2 I3 I4 _ _ _ _ _ _ _]. constructor; [done|unfold s_updates; lia|done|done|]. destruct (decide ((unpack_ptr (s_word s)).1 = null)) as [|Hn]; [by left|right].
  destruct (chain_head _ _ _ I4 Hn) as (l & _ & b & Hb & _). by exists b.
Qed.

(** An exchange fails, or updates the head. *)
Lemma exchange_cases s old new own u ok retry mine :
  s_word s <> old /\ exchange s old new own u ok retry mine = (s, mkThread own retry) \/
  s_word s = old /\ exchange s old new own u ok retry mine = (mkShared new (s_heads s) (u :: s_log s), mkThread mine ok).
Proof. unfold exchange, compare_exchange. case_decide; [by right|by left]. Qed.

(** One access of a thread keeps the invariant. *)
Definition advances s ts L (t : nat) th : Prop :=
  exists s' th' L', advance s th = Ret (s', th') /\ list_inv tag0 blocks s' (<[t := th']> ts) L'.

Lemma takes_front seg L : apply_update (Takes seg) (seg ++ L) = Some L.
Proof. unfold apply_update. rewrite decide_True by apply prefix_app_r, reflexivity. by rewrite drop_app_length. Qed.

(** An update of the head that passes blocks between the list and the thread. *)
Lemma inv_update s ts L L' t own p new u own' p' :
  list_inv tag0 blocks s ts L -> ts !! t = Some (mkThread own p) -> new = null \/ 0 < new < 2 ^ 56 -> apply_update u L = Some L' -> chain (s_heads s) new L' null -> NoDup L' ->
  own' ∪ list_to_set L' = own ∪ list_to_set L -> own' ## list_to_set L' ->
  place_ok tag0 (mkShared (pack new (s_word s)) (s_heads s) (u :: s_log s)) L' (mkThread own' p') ->
  list_inv tag0 blocks (mkShared (pack new (s_word s)) (s_heads s) (u :: s_log s)) (<[t := mkThread own' p']> ts) L'.
Proof.
  intros HI Ht Hnew Hu Hc Hnd Heq Hd Hp. pose proof HI as [I1 I2 I3 I4 I5 I6 I7 I8 I9 I10 I11]. destruct (pack_word new (s_word s) Hnew I1) as (P1 & P2 & P3).
  apply (inv_change s _ ts L L' t (mkThread own p)); cbn [s_word s_heads s_log t_own]; try done; [right; by exists u|by rewrite P1|]. intros a h Ha. by apply (I6 a h).
Qed.

Lemma push_link_ok s ts L t own start tail seg old at_ :
  list_inv tag0 blocks s ts L -> ts !! t = Some (mkThread own (PushLink start tail seg old at_)) -> advances s ts L t (mkThread own (PushLink start tail seg old at_)).
Proof.
  intros HI Ht. pose proof HI as [I1 I2 I3 I4 I5 I6 I7 I8 I9 I10 I11]. destruct (I11 t _ Ht) as [(q & [G1 G2 G3 G4]) Hs]. cbn [t_own] in *.
  assert (Htail : tail ∈ seg) by (rewrite last_Some in G2; destruct G2 as [l' ->]; set_solver). destruct (chain_in _ _ _ _ _ G1 Htail) as [_ [h Hh]].
  unfold advances, advance, transfer_push, set_header_next, store_next. cbn [t_place t_own unpack_ptr]. rewrite Hh. cbn [mbind option_bind from_option outcome_bind].
  eexists _, _, L. split; [reflexivity|]. pose proof (sn_head _ _ _ _ Hs) as Hv. cbn [unpack_ptr fst] in Hv.
  assert (Hto : tail ∈ own) by set_solver. assert (Hnl : tail ∉ L) by (specialize (I9 t _ Ht); cbn [t_own] in I9; set_solver).
  eapply (inv_change s _ ts L L t); cbn [s_word s_heads s_log t_own]; try done; [by left|by apply chain_insert| | | |by apply (I9 t _ Ht)|].
  - intros a x [[<- <-]|[_ Hx]]%lookup_insert_Some; [by rewrite s_next_with|by apply (I6 a x)].
  - by rewrite dom_insert_lookup_L by (by exists h).
  - intros a Ha. rewrite lookup_insert_ne; [done|]. intros ->. done.
  - split; cbn [t_own s_heads].
    + apply last_Some in G2 as [l' ->]. constructor; [|by rewrite last_snoc|done|done]. eapply chain_redirect; [done| |done]. apply NoDup_app in G3 as (_ & G3 & _). intros Hin. apply (G3 tail Hin). by left.
    + eapply snapshot_mono; [..|exact Hs]; cbn [s_word s_heads]; [done|done|]. intros a Ha. destruct (decide (a = tail)) as [->|]; [by rewrite lookup_insert_eq|by rewrite lookup_insert_ne].
Qed.

Lemma push_cas_ok s ts L t own start tail seg old at_ :
  list_inv tag0 blocks s ts L -> ts !! t = Some (mkThread own (PushCas start tail seg old at_)) -> advances s ts L t (mkThread own (PushCas start tail seg old at_)).
Proof.
  intros HI Ht. pose proof HI as [I1 I2 I3 I4 I5 I6 I7 I8 I9 I10 I11]. destruct (I11 t _ Ht) as [[G1 G2 G3 G4] Hs]. cbn [t_own] in *. specialize (I9 t _ Ht). cbn [t_own] in I9.
  unfold advances, advance, transfer_push, transfer_pop, transfer_take. cbn [t_place t_own unpack_ptr]. destruct (exchange_cases s old (pack start old) own (Pushes seg) Idle (PushLoad start tail seg) (own ∖ list_to_set seg)) as [[_ ->]|[Hw ->]].
  - eexists _, _, L. split; [reflexivity|]. eapply list_inv_move; [done|done|]. by exists (unpack_ptr old).1.
  - subst old. eexists _, _, (seg ++ L). split; [reflexivity|].
    assert (Hset : list_to_set (seg ++ L) = list_to_set seg ∪ list_to_set L :> gset Z) by apply list_to_set_app_L.
    eapply inv_update; [done|done| |done| | | | |done].
    + destruct seg as [|a seg]; [done|]. destruct G1 as (-> & _ & h & Hh & _). right. by apply (I6 a h).
    + apply chain_app. eauto.
    + apply NoDup_app. split; [done|]. split; [|done]. set_solver.
    + rewrite Hset, (assoc_L (∪)). rewrite difference_union_L. f_equal. set_solver.
    + rewrite Hset. set_solver.
Qed.

Lemma pop_next_ok s ts L t own n old at_ :
  list_inv tag0 blocks s ts L -> ts !! t = Some (mkThread own (PopNext n old at_)) -> advances s ts L t (mkThread own (PopNext n old at_)).
Proof.
  intros HI Ht. pose proof HI as [I1 I2 I3 I4 I5 I6 I7 I8 I9 I10 I11]. destruct (I11 t _ Ht) as (Hn & Hs & Hne). destruct (sn_head _ _ _ _ Hs) as [|[h Hh]]; [done|].
  unfold advances, advance, transfer_push, transfer_pop, transfer_take. cbn [t_place t_own unpack_ptr fst] in *. rewrite Hh. cbn [from_option mbind outcome_bind]. eexists _, _, L. split; [reflexivity|].
  eapply list_inv_move; [done|done|]. cbn [place_ok t_place]. split; [done|]. split; [done|]. split; [by eapply I6|]. split; [done|]. split; [done|]. split; [lia|]. intros He.
  pose proof (sn_same _ _ _ _ Hs He) as Hw. rewrite Hw in I4. cbn [unpack_ptr fst] in I4. destruct (chain_head _ _ _ I4 Hne) as (l & -> & b & Hb & Hl). exists l. split; [done|]. simplify_eq. split; [|done].
  cbn [chain unpack_ptr fst]. eauto.
Qed.

Lemma pop_walk_ok s ts L t own n old at_ tail next count seen :
  list_inv tag0 blocks s ts L -> ts !! t = Some (mkThread own (PopWalk n old at_ tail next count seen)) -> (count <? n) && negb (next =? null) = true ->
  advances s ts L t (mkThread own (PopWalk n old at_ tail next count seen)).
Proof.
  intros HI Ht Hc. pose proof HI as [I1 I2 I3 I4 I5 I6 I7 I8 I9 I10 I11]. destruct (I11 t _ Ht) as (Hn & Hs & Hnext & Hlast & Hcount & Hle & Hseen).
  pose proof Hc as [Hlt Hnn]%andb_true_iff. assert (Hz : next <> null) by (intros ->; done). destruct Hnext as [|[h Hh]]; [done|].
  unfold advances, advance, transfer_push, transfer_pop, transfer_take. cbn [t_place t_own unpack_ptr fst] in *. rewrite Hc, Hh. cbn [from_option mbind outcome_bind]. eexists _, _, L. split; [reflexivity|].
  eapply list_inv_move; [done|done|]. cbn [place_ok t_place]. rewrite last_snoc, length_app. unfold wadd. rewrite wrap_small by (unfold is_u in *; lia). split; [done|]. split; [done|]. split; [by eapply I6|].
  split; [done|]. split; [cbn [length]; lia|]. split; [lia|]. intros He. destruct (Hseen He) as (rest & -> & H1 & H2). destruct (chain_head _ _ _ H2 Hz) as (l & -> & b & Hb & Hl). simplify_eq.
  exists l. split; [by rewrite <- (assoc_L (++))|]. split; [|done]. apply chain_app. exists next. split; [done|]. cbn [chain]. eauto.
Qed.

Lemma pop_cas_ok s ts L t own n old at_ tail next count seen :
  list_inv tag0 blocks s ts L -> ts !! t = Some (mkThread own (PopWalk n old at_ tail next count seen)) -> (count <? n) && negb (next =? null) = false ->
  tag_fresh s (mkThread own (PopWalk n old at_ tail next count seen)) -> advances s ts L t (mkThread own (PopWalk n old at_ tail next count seen)).
Proof.
  intros HI Ht Hc Hf. pose proof HI as [I1 I2 I3 I4 I5 I6 I7 I8 I9 I10 I11]. destruct (I11 t _ Ht) as (Hn & Hs & Hnext & Hlast & Hcount & Hle & Hseen). specialize (I9 t _ Ht). cbn [t_own] in I9.
  unfold advances, advance, transfer_push, transfer_pop, transfer_take. cbn [t_place t_own unpack_ptr fst] in *. rewrite Hc. cbn [tag_fresh t_place] in Hf.
  destruct (exchange_cases s old (pack next old) own (Takes seen) (Popped (Z.land old PTR_MASK) tail count) (PopLoad n) (own ∪ list_to_set seen)) as [[_ ->]|[Hw ->]].
  - eexists _, _, L. split; [reflexivity|]. by eapply list_inv_move.
  - destruct (Hseen (same_word s ts L old at_ HI Hs Hw (Hf Hw))) as (rest & -> & H1 & H2). subst old. eexists _, _, rest. split; [reflexivity|].
    rewrite list_to_set_app_L in I9. apply NoDup_app in I5 as (N1 & N2 & N3). eapply inv_update; [done|done|by eapply link_range|by apply takes_front|done|done| | |].
    + by rewrite list_to_set_app_L, (assoc_L (∪)).
    + set_solver.
    + exists seen, next. split; [|done]. constructor; [done|done|done|]. cbn [t_own]. set_solver.
Qed.

Lemma collect_chain heads a l fuel : chain heads a l null -> (length l <= fuel)%nat -> collect fuel heads a = l.
Proof.
  revert a fuel. induction l as [|b l IH]; intros a fuel Hc Hf; destruct fuel as [|fuel]; cbn [length] in Hf; cbn [collect chain] in *; [done|by subst a|lia|].
  destruct Hc as (-> & Hb & h & Hh & Hc). destruct (Z.eqb_spec b null) as [|_]; [done|]. rewrite Hh. f_equal. apply IH; [done|lia].
Qed.

Lemma take_check_ok s ts L own : list_inv tag0 blocks s ts L -> place_ok tag0 s L (mkThread own (take_check s)).
Proof. intros HI. unfold take_check. cbn [unpack_ptr]. destruct (_ =? null); [done|]. by apply (snapshot_now s ts L). Qed.

Lemma take_cas_ok s ts L t own old at_ :
  list_inv tag0 blocks s ts L -> ts !! t = Some (mkThread own (TakeCas old at_)) -> advances s ts L t (mkThread own (TakeCas old at_)).
Proof.
  intros HI Ht. pose proof HI as [I1 I2 I3 I4 I5 I6 I7 I8 I9 I10 I11]. specialize (I9 t _ Ht). cbn [t_own] in I9.
  unfold advances, advance, transfer_push, transfer_pop, transfer_take. cbn [t_place t_own unpack_ptr fst] in *. set (all := collect _ _ _). destruct (exchange_cases s old (pack null old) own (Takes all) (Taken (Z.land old PTR_MASK)) (take_check s) (own ∪ list_to_set all)) as [[_ ->]|[Hw ->]].
  - eexists _, _, L. split; [reflexivity|]. eapply list_inv_move; [done|done|by eapply take_check_ok].
  - subst old all. rewrite (collect_chain _ _ L); [|done|].
    + eexists _, _, []. split; [reflexivity|]. eapply inv_update; [done|done|by left|rewrite <- (app_nil_r L) at 2; apply takes_front|done|constructor| |set_solver|done]. set_solver.
    + pose proof (chain_length _ _ _ _ (dom (s_heads s)) I4 I5 ltac:(done)) as Hl. rewrite size_dom in Hl. lia.
Qed.

(** Any access. *)
Lemma access_ok s ts L t th : list_inv tag0 blocks s ts L -> ts !! t = Some th -> tag_fresh s th -> advances s ts L t th.
Proof.
  intros HI Ht Hf. assert (Hgo : forall p, advance s th = Ret (s, mkThread (t_own th) p) -> place_ok tag0 s L (mkThread (t_own th) p) -> advances s ts L t th).
  { intros p Ha Hp. exists s, (mkThread (t_own th) p), L. split; [done|]. destruct th as [own q]. by eapply list_inv_move. }
  pose proof (li_place _ _ _ _ _ HI t th Ht) as Hp. pose proof (snapshot_now s ts L HI) as Hnow. destruct th as [own p].
  destruct p as [| |start tail seg old at_|start tail seg old at_|n|n old at_|n old at_ tail next count seen| |old at_| | |]; try (by eapply Hgo).
  - by apply push_link_ok.
  - by apply push_cas_ok.
  - cbn [advance transfer_pop transfer_take t_place t_own unpack_ptr] in Hgo. destruct (Z.eqb_spec (Z.land (s_word s) PTR_MASK) null); eapply Hgo; [reflexivity|done|reflexivity|]. done.
  - by apply pop_next_ok.
  - destruct ((count <? n) && negb (next =? null)) eqn:E; [by apply pop_walk_ok|by apply pop_cas_ok].
  - eapply Hgo; [reflexivity|by eapply take_check_ok].
  - by apply take_cas_ok.
Qed.

(** A block passes from one thread to another. *)
Lemma inv_give s ts L t t' own own' p p' a :
  list_inv tag0 blocks s ts L -> t <> t' -> ts !! t = Some (mkThread own p) -> ts !! t' = Some (mkThread own' p') -> a ∈ own ->
  list_inv tag0 blocks s (<[t' := mkThread (own' ∪ {[a]}) Idle]> (<[t := mkThread (own ∖ {[a]}) Idle]> ts)) L.
Proof.
  intros [I1 I2 I3 I4 I5 I6 I7 I8 I9 I10 I11] Hne Ht Ht' Ha. set (ts' := <[t' := _]> _).
  assert (Hcase : forall u th, ts' !! u = Some th -> (u <> t /\ u <> t' /\ ts !! u = Some th) \/ (u = t /\ th = mkThread (own ∖ {[a]}) Idle) \/ (u = t' /\ th = mkThread (own' ∪ {[a]}) Idle)).
  { intros u th [[<- <-]|[? [[<- <-]|[? Hu]]%lookup_insert_Some]]%lookup_insert_Some; [right; right; done|right; left; done|left; done]. }
  assert (E1 : ts' !! t = Some (mkThread (own ∖ {[a]}) Idle)) by (unfold ts'; by rewrite lookup_insert_ne, lookup_insert_eq).
  assert (E2 : ts' !! t' = Some (mkThread (own' ∪ {[a]}) Idle)) by (unfold ts'; by rewrite lookup_insert_eq).
  pose proof (I9 t _ Ht) as D1. pose proof (I9 t' _ Ht') as D2. pose proof (I10 t t' _ _ Hne Ht Ht') as D3. cbn [t_own] in D1, D2, D3. constructor; try done.
  - intros b. rewrite I8. split; (intros [Hb|(u & th & Hu & Hb)]; [by left|right]).
    + destruct (decide (u = t)) as [->|Hu1]; [simplify_eq; destruct (decide (b = a)) as [->|]; [exists t', (mkThread (own' ∪ {[a]}) Idle)|exists t, (mkThread (own ∖ {[a]}) Idle)]; (split; [done|]); cbn [t_own] in *; set_solver|].
      destruct (decide (u = t')) as [->|Hu2]; [simplify_eq; exists t', (mkThread (own' ∪ {[a]}) Idle); split; [done|]; cbn [t_own] in *; set_solver|].
      exists u, th. split; [|done]. unfold ts'. by rewrite !lookup_insert_ne.
    + destruct (Hcase u th Hu) as [(_ & _ & Hu')|[[-> ->]|[-> ->]]]; [eauto|exists t, (mkThread own p); split; [done|]; cbn [t_own] in *; set_solver|]. cbn [t_own] in Hb. apply elem_of_union in Hb as [Hb|Hb%elem_of_singleton]; [by exists t', (mkThread own' p')|subst b; by exists t, (mkThread own p)].
  - intros u th Hu. destruct (Hcase u th Hu) as [(_ & _ & Hu')|[[-> ->]|[-> ->]]]; [by eapply I9|cbn [t_own]; set_solver..].
  - intros u u' th th' Huu Hu Hu'. assert (Hother : forall v thv, v <> t -> v <> t' -> ts !! v = Some thv -> t_own thv ## own /\ t_own thv ## own').
    { intros v thv V1 V2 Hv. split; [apply (I10 v t thv (mkThread own p) V1 Hv Ht)|apply (I10 v t' thv (mkThread own' p') V2 Hv Ht')]. }
    destruct (Hcase u th Hu) as [(N1 & N2 & Hu1)|[[-> ->]|[-> ->]]], (Hcase u' th' Hu') as [(N1' & N2' & Hu1')|[[-> ->]|[-> ->]]]; try done; cbn [t_own];
      [by apply (I10 u u')|destruct (Hother u th N1 N2 Hu1); set_solver..|destruct (Hother u' th' N1' N2' Hu1'); set_solver|set_solver|destruct (Hother u' th' N1' N2' Hu1'); set_solver|set_solver].
  - intros u th Hu. destruct (Hcase u th Hu) as [(_ & _ & Hu')|[[-> ->]|[-> ->]]]; [by eapply I11|done..].
Qed.

Lemma inv_write s ts L t own p a h v :
  list_inv tag0 blocks s ts L -> ts !! t = Some (mkThread own p) -> a ∈ own -> s_heads s !! a = Some h -> v = null \/ is_Some (s_heads s !! v) ->
  list_inv tag0 blocks (mkShared (s_word s) (<[a := with_s_next v h]> (s_heads s)) (s_log s)) (<[t := mkThread own Idle]> ts) L.
Proof.
  intros HI Ht Ha Hh Hv. pose proof HI as [I1 I2 I3 I4 I5 I6 I7 I8 I9 I10 I11]. pose proof (I9 t _ Ht) as D. cbn [t_own] in D.
  eapply (inv_change s _ ts L L t); cbn [s_word s_heads s_log t_own]; try done; [by left|apply chain_insert; [set_solver|done]| | |].
  - intros b x [[<- <-]|[_ Hx]]%lookup_insert_Some; [by rewrite s_next_with|by apply (I6 b x)].
  - by rewrite dom_insert_lookup_L by (by exists h).
  - intros b Hb. rewrite lookup_insert_ne; [done|]. intros ->. done.
Qed.

Lemma list_step_inv st st' L : list_step true st st' -> list_inv tag0 blocks st.1 st.2 L -> exists L', list_inv tag0 blocks st'.1 st'.2 L'.
Proof.
  destruct 1 as [s ts t own p start tail seg q Ht Hr Hs|s ts t own p n Ht Hr Hn|s ts t own p Ht Hr|s ts t own p a h v Ht Hr Ha Hh Hv|s ts t t' own own' p p' a Hne Ht Ht' Hr Hr' Ha|s ts t th s' th' Ht Hf Ha]; cbn [fst snd]; intros HI.
  - exists L. eapply list_inv_move; [done|done|]. by exists q.
  - exists L. by eapply list_inv_move.
  - exists L. by eapply list_inv_move.
  - exists L. by eapply inv_write.
  - exists L. by eapply inv_give.
  - destruct (access_ok s ts L t th HI Ht (Hf eq_refl)) as (s1 & th1 & L1 & Ha1 & HI1). rewrite Ha1 in Ha. injection Ha as <- <-. by exists L1.
Qed.

Lemma list_steps_inv st st' L : rtc (list_step true) st st' -> list_inv tag0 blocks st.1 st.2 L -> exists L', list_inv tag0 blocks st'.1 st'.2 L'.
Proof.
  intros Hs. revert L. induction Hs as [|st1 st2 st3 H1 _ IH]; intros L HI; [by exists L|]. destruct (list_step_inv _ _ _ H1 HI) as (L1 & HI1). by apply (IH L1).
Qed.
End Inv.

(** ** A thread that runs alone *)

Fixpoint run_alone (n : nat) (s : shared) (th : thread) : outcome (shared * thread) :=
  match n with
  | O => Ret (s, th)
  | S n' => if ready (t_place th) then Ret (s, th) else '(s, th) ← advance s th; run_alone n' s th
  end.

(** The accesses left: those of a failed exchange and the round after it. *)
Definition accesses (s : shared) (p : place) : nat :=
  let pops n := Z.to_nat (Z.max n 1) in
  let again old k := if s_word s =? old then O else k in
  match p with
  | PushLoad _ _ _ => 3
  | PushLink _ _ _ old _ => 2 + again old 3
  | PushCas _ _ _ old _ => 1 + again old 3
  | PopLoad n => 2 + pops n
  | PopNext n old _ => 1 + pops n + again old (2 + pops n)
  | PopWalk n old _ _ _ count _ => 1 + (pops n - Z.to_nat count) + again old (2 + pops n)
  | TakeLoad => 2
  | TakeCas old _ => 1 + again old 2
  | _ => 0
  end%nat.

Lemma advance_accesses s th s' th' tag0 L :
  place_ok tag0 s L th -> ready (t_place th) = false -> tag_fresh s th -> advance s th = Ret (s', th') -> (accesses s' (t_place th') < accesses s (t_place th))%nat /\ tag_fresh s' th'.
Proof.
  intros Hp Hr Hf Ha. destruct th as [own p]. destruct p as [| |start tail seg old at_|start tail seg old at_|n|n old at_|n old at_ tail next count seen| |old at_| | |]; try done; cbn [advance transfer_push transfer_pop transfer_take t_place t_own unpack_ptr] in *.
  - injection Ha as <- <-. cbn. rewrite Z.eqb_refl. split; lia.
  - destruct (set_header_next _ _ _) as [heads| |]; cbn [mbind outcome_bind] in Ha; [|done..]. injection Ha as <- <-. cbn [accesses tag_fresh t_place s_word s_updates]. split; [lia|done].
  - destruct (exchange_cases s old (pack start old) own (Pushes seg) Idle (PushLoad start tail seg) (own ∖ list_to_set seg)) as [[Hw He]|[Hw He]]; rewrite He in Ha; injection Ha as <- <-; cbn [accesses t_place tag_fresh]; [|split; [lia|done]].
    destruct (Z.eqb_spec (s_word s) old); [done|]. split; [lia|done].
  - destruct (Z.land (s_word s) PTR_MASK =? null); injection Ha as <- <-; cbn [accesses t_place tag_fresh]; [split; [lia|done]|]. rewrite Z.eqb_refl. split; lia.
  - destruct (s_heads s !! _) as [h|]; cbn [from_option mbind outcome_bind] in Ha; [|done]. injection Ha as <- <-. cbn [accesses t_place tag_fresh]. split; [lia|done].
  - destruct Hp as (Hn & _ & _ & Hlast & Hcount & Hle & _). destruct ((count <? n) && negb (next =? null)) eqn:E.
    + destruct (s_heads s !! _) as [h|]; cbn [from_option mbind outcome_bind] in Ha; [|done]. injection Ha as <- <-. apply andb_true_iff in E as [E _]. cbn [accesses t_place tag_fresh].
      unfold wadd. rewrite wrap_small by (unfold is_u in *; lia). split; [lia|done].
    + destruct (exchange_cases s old (pack next old) own (Takes seen) (Popped (Z.land old PTR_MASK) tail count) (PopLoad n) (own ∪ list_to_set seen)) as [[Hw He]|[Hw He]]; rewrite He in Ha; injection Ha as <- <-; cbn [accesses t_place tag_fresh]; [|split; [lia|done]].
      destruct (Z.eqb_spec (s_word s) old); [done|]. split; [lia|done].
  - injection Ha as <- <-. unfold take_check. cbn [unpack_ptr t_place]. destruct (_ =? null); cbn [accesses t_place tag_fresh]; [split; [lia|done]|]. rewrite Z.eqb_refl. split; lia.
  - set (all := collect _ _ _) in Ha. destruct (exchange_cases s old (pack null old) own (Takes all) (Taken (Z.land old PTR_MASK)) (take_check s) (own ∪ list_to_set all)) as [[Hw He]|[Hw He]]; rewrite He in Ha; injection Ha as <- <-; [|cbn [accesses t_place tag_fresh]; split; [lia|done]].
    unfold take_check. cbn [unpack_ptr t_place]. destruct (Z.eqb_spec (s_word s) old); [done|]. destruct (_ =? null); cbn [accesses t_place tag_fresh]; [split; [lia|done]|]. rewrite Z.eqb_refl. destruct (Z.eqb_spec (s_word s) old); [done|]. split; lia.
Qed.

Lemma run_alone_returns tag0 blocks n s ts L t th :
  list_inv tag0 blocks s ts L -> ts !! t = Some th -> tag_fresh s th -> (accesses s (t_place th) <= n)%nat -> exists s' th', run_alone n s th = Ret (s', th') /\ ready (t_place th') = true.
Proof.
  revert s ts L th. induction n as [|n IH]; intros s ts L th HI Ht Hf Hn; cbn [run_alone].
  - exists s, th. split; [done|]. destruct (t_place th); cbn in *; done || lia.
  - destruct (ready (t_place th)) eqn:Hr; [by exists s, th|]. destruct (access_ok tag0 blocks s ts L t th HI Ht Hf) as (s1 & th1 & L1 & Ha & HI1). rewrite Ha. cbn [mbind outcome_bind].
    destruct (advance_accesses s th s1 th1 tag0 L (li_place _ _ _ _ _ HI t th Ht) Hr Hf Ha) as [Hlt Hf1]. apply (IH s1 (<[t := th1]> ts) L1 th1 HI1); [by rewrite lookup_insert_eq|done|lia].
Qed.

(** ** The theorem *)

(** An empty list, threads at rest that own all blocks, and headers linked in any
    way. *)
Record list_start (blocks : gset Z) (s : shared) (ts : threads) : Prop := {
  ls_word : is_u 64 (s_word s);
  ls_empty : (unpack_ptr (s_word s)).1 = null;
  ls_log : s_log s = [];
  ls_heads a h : s_heads s !! a = Some h -> 0 < a < 2 ^ 56 /\ (s_next h = null \/ is_Some (s_heads s !! s_next h));
  ls_dom : dom (s_heads s) = blocks;
  ls_all b : b ∈ blocks <-> exists t th, ts !! t = Some th /\ b ∈ t_own th;
  ls_own t t' th th' : t <> t' -> ts !! t = Some th -> ts !! t' = Some th' -> t_own th ## t_own th';
  ls_idle t th : ts !! t = Some th -> t_place th = Idle;
}.

Lemma list_start_inv blocks s ts : list_start blocks s ts -> list_inv (s_word s / 2 ^ 56) blocks s ts [].
Proof.
  intros [S1 S2 S3 S4 S5 S6 S7 S8]. constructor; try done.
  - by rewrite S3.
  - unfold s_updates. rewrite S3, Z.add_0_r. symmetry. apply Z.mod_small. unfold is_u in S1. split; [apply Z.div_pos; lia|apply Z.div_lt_upper_bound; lia].
  - constructor.
  - intros b. rewrite S6. split; [by right|]. by intros [?%not_elem_of_nil|].
  - intros t th Ht. unfold place_ok. by rewrite (S8 t th Ht).
Qed.

(** C13. The transfer lists are lock-free stacks.  Threads push segments of blocks
    to a list, pop batches and take it whole, with the loops of the code interleaved
    at every access to the head of the list and to the headers, and between the
    calls link the headers of their blocks as they like and pass blocks on.  As long
    as an exchange that finds the word it loaded does so before 256 updates, the
    blocks linked from the head are those of a stack to which the completed updates are
    applied in their order; every block is in the list or with one thread, never both; no access
    misses a header; a completed pop has taken a linked segment with the head, tail
    and count it reports; and a thread that runs alone returns within the accesses
    of two rounds. *)
Theorem transfer_list_conserves blocks s0 ts0 s ts :
  list_start blocks s0 ts0 -> rtc (list_step true) (s0, ts0) (s, ts) ->
  exists L, replay (s_log s) = Some L /\ chain (s_heads s) (unpack_ptr (s_word s)).1 L null /\ NoDup L /\
    (forall b, b ∈ blocks <-> b ∈ L \/ exists t th, ts !! t = Some th /\ b ∈ t_own th) /\
    (forall t th b, ts !! t = Some th -> b ∈ t_own th -> b ∉ L) /\
    (forall t t' th th' b, ts !! t = Some th -> ts !! t' = Some th' -> b ∈ t_own th -> b ∈ t_own th' -> t = t') /\
    (forall t th, ts !! t = Some th -> tag_fresh s th ->
       (exists r, advance s th = Ret r) /\ exists s' th', run_alone (accesses s (t_place th)) s th = Ret (s', th') /\ ready (t_place th') = true) /\
    (forall t th head tail count, ts !! t = Some th -> t_place th = Popped head tail count ->
       exists seg q, segment (s_heads s) (t_own th) head tail seg q /\ count = Z.of_nat (length seg)).
Proof.
  intros H0%list_start_inv Hs. destruct (list_steps_inv _ _ _ _ _ Hs H0) as (L & HI). cbn [fst snd] in HI. pose proof HI as [I1 I2 I3 I4 I5 I6 I7 I8 I9 I10 I11]. exists L.
  do 4 (split; [done|]). split; [intros t th b Ht Hb HbL; apply (proj1 (elem_of_disjoint _ _) (I9 t th Ht) b Hb), elem_of_list_to_set, HbL|]. split.
  { intros t t' th th' b Ht Ht' Hb Hb'. destruct (decide (t = t')) as [|Hne]; [done|]. by destruct (proj1 (elem_of_disjoint _ _) (I10 t t' th th' Hne Ht Ht') b). }
  split.
  - intros t th Ht Hf. destruct (access_ok _ _ _ _ _ t th HI Ht Hf) as (s' & th' & L' & Ha & _). split; [by exists (s', th')|]. by eapply run_alone_returns.
  - intros t th head tail count Ht Hp. specialize (I11 t th Ht). unfold place_ok in I11. by rewrite Hp in I11.
Qed.

(** ** Runs *)

(** A thread starts a call on one block or a batch, or goes on. *)
Inductive event := EPush (t : nat) (a : Z) | EPop (t : nat) (batch_size : Z) | ERun (t : nat).

Definition event_step (st : shared * threads) (e : event) : option (shared * threads) :=
  let '(s, ts) := st in
  match e with
  | EPush t a =>
      th ← ts !! t; h ← s_heads s !! a;
      if ready (t_place th) && bool_decide (a ∈ t_own th) && negb (a =? null) then Some (s, <[t := mkThread (t_own th) (PushLoad a a [a])]> ts) else None
  | EPop t n =>
      th ← ts !! t;
      if ready (t_place th) && (0 <=? n) && (n <? 2 ^ 64) then Some (s, <[t := mkThread (t_own th) (PopLoad n)]> ts) else None
  | ERun t => th ← ts !! t; match advance s th with Ret (s, th) => Some (s, <[t := th]> ts) | _ => None end
  end.

Definition events (st : shared * threads) (es : list event) : option (shared * threads) := foldl (fun r e => r ≫= fun st => event_step st e) (Some st) es.

Lemma list_event_sound st e st' : event_step st e = Some st' -> list_step false st st'.
Proof.
  destruct st as [s ts]. destruct e as [t a|t n|t]; cbn [event_step]; destruct (ts !! t) as [[own p]|] eqn:Ht; try done; cbn [mbind option_bind t_own t_place].
  - destruct (s_heads s !! a) as [h|] eqn:Hh; [|done]. cbn [mbind option_bind]. destruct (ready p) eqn:Hr; [|done]. case_bool_decide as Ha; [|done]. destruct (Z.eqb_spec a null) as [|Hn]; [done|].
    intros [= <-]. apply (step_push false s ts t own p a a [a] (s_next h)); [done|done|]. constructor; [cbn; eauto 6|done|apply NoDup_singleton|set_solver].
  - destruct (ready p) eqn:Hr; [|done]. cbn [andb]. destruct ((0 <=? n) && (n <? 2 ^ 64)) eqn:E; [|done]. intros [= <-]. eapply step_pop; [done|done|]. unfold is_u. lia.
  - destruct (advance s _) as [[s' th']| |] eqn:Ha; [|done..]. intros [= <-]. by eapply step_run.
Qed.

Lemma events_sound es st st' : events st es = Some st' -> rtc (list_step false) st st'.
Proof.
  unfold events. revert st. induction es as [|e es IH]; intros st; cbn [foldl]; [intros [= ->]; done|]. cbn [mbind option_bind]. destruct (event_step st e) as [st1|] eqn:E.
  - intros H. eapply rtc_l; [by eapply list_event_sound|by apply IH].
  - assert (Hnone : forall l, foldl (fun r e => r ≫= fun st => event_step st e) None l = None) by (induction l; done). by rewrite Hnone.
Qed.

(** Two blocks, at 16 and 32, of thread 0; thread 1 owns nothing. *)
Definition demo_list : shared * threads :=
  (mkShared 0 {[16 := mkHeader 0 0 0 0 0; 32 := mkHeader 0 0 0 0 0]} [], {[0%nat := mkThread {[16; 32]} Idle; 1%nat := mkThread ∅ Idle]}).

Definition push_events (t : nat) (a : Z) : list event := [EPush t a; ERun t; ERun t; ERun t].
Definition pop_events (t : nat) : list event := [EPop t 1; ERun t; ERun t; ERun t].

(** Thread 0 pushes both blocks; thread 1 loads the head 16 and reads its successor
    32; then thread 0 pops both, pushes 16, and pops and pushes it until the tag is
    the same again. *)
Definition wrap_events : list event :=
  push_events 0 32 ++ push_events 0 16 ++ [EPop 1 1; ERun 1; ERun 1] ++ [EPop 0 2; ERun 0; ERun 0; ERun 0; ERun 0] ++ push_events 0 16 ++
  concat (repeat (pop_events 0 ++ push_events 0 16) 127) ++ [ERun 1].

(** After 256 updates the exchange of thread 1 succeeds, and the block 32 of thread 0
    is the head of the list. *)
Lemma tag_wraps :
  exists s ts th, rtc (list_step false) demo_list (s, ts) /\ (unpack_ptr (s_word s)).1 = 32 /\ ts !! 0%nat = Some th /\ 32 ∈ t_own th.
Proof.
  assert (Hr : match events demo_list wrap_events with
               | Some (s, ts) => (unpack_ptr (s_word s)).1 = 32 /\ match ts !! 0%nat with Some th => bool_decide (32 ∈ t_own th) = true | None => False end
               | None => False
               end) by (vm_compute; done).
  destruct (events demo_list wrap_events) as [[s ts]|] eqn:E; [|destruct Hr]. destruct Hr as [H1 H2]. destruct (ts !! 0%nat) as [th|] eqn:Ht; [|destruct H2]. exists s, ts, th.
  split; [exact (events_sound _ _ _ E)|]. split; [exact H1|]. split; [exact Ht|]. apply bool_decide_eq_true in H2. exact H2.
Qed.

Lemma demo_list_start : list_start {[16; 32]} demo_list.1 demo_list.2.
Proof.
  assert (Hts : forall t th, demo_list.2 !! t = Some th -> t = 0%nat /\ th = mkThread {[16; 32]} Idle \/ t = 1%nat /\ th = mkThread ∅ Idle).
  { intros t th. cbn [demo_list snd]. rewrite lookup_insert_Some, lookup_singleton_Some. naive_solver. }
  constructor; [split; [reflexivity|reflexivity]|reflexivity|reflexivity| |reflexivity| | |].
  - intros a h. cbn [demo_list fst s_heads]. rewrite lookup_insert_Some, lookup_singleton_Some. intros [[<- <-]|[_ [<- <-]]]; (split; [lia|by left]).
  - intros b. split; [intros Hb; by exists 0%nat, (mkThread {[16; 32]} Idle)|]. intros (t & th & [[-> ->]|[-> ->]]%Hts & Hb); [done|by apply elem_of_empty in Hb].
  - intros t t' th th' Hne [[-> ->]|[-> ->]]%Hts [[-> ->]|[-> ->]]%Hts; try done; cbn [t_own]; set_solver.
  - by intros t th [[-> ->]|[-> ->]]%Hts.
Qed.

Lemma transfer_list_conserves_witness :
  exists s ts, rtc (list_step true) demo_list (s, ts) /\ (unpack_ptr (s_word s)).1 = 16 /\ exists L, replay (s_log s) = Some L /\ chain (s_heads s) 16 L null.
Proof.
  set (ts0 := demo_list.2). set (s0 := demo_list.1).
  set (th1 := mkThread {[16; 32]} (PushLoad 16 16 [16])). set (th2 := mkThread {[16; 32]} (PushLink 16 16 [16] 0 0)). set (th3 := mkThread {[16; 32]} (PushCas 16 16 [16] 0 0)).
  set (th4 := mkThread ({[16; 32]} ∖ {[16]}) Idle).
  assert (Hr : rtc (list_step true) (s0, ts0) (mkShared (pack 16 0) (s_heads s0) [Pushes [16]], <[0%nat := mkThread ({[16; 32]} ∖ list_to_set [16]) Idle]> (<[0%nat := th3]> (<[0%nat := th2]> (<[0%nat := th1]> ts0))))).
  { eapply rtc_l; [apply (step_push true s0 ts0 0%nat {[16; 32]} Idle 16 16 [16] 0); [reflexivity|reflexivity|]|].
    - constructor; [split; [reflexivity|split; [discriminate|]]; exists (mkHeader 0 0 0 0 0); split; reflexivity|reflexivity|apply NoDup_singleton|set_solver].
    - eapply rtc_l; [apply (step_run true s0 _ 0%nat th1 s0 th2); [reflexivity|intros _; exact I|reflexivity]|].
      eapply rtc_l; [apply (step_run true s0 _ 0%nat th2 s0 th3); [reflexivity|intros _ _; reflexivity|reflexivity]|].
      apply rtc_once. apply (step_run true s0 _ 0%nat th3); [reflexivity|intros _ _; reflexivity|reflexivity]. }
  eexists _, _. split; [exact Hr|]. split; [reflexivity|]. destruct (transfer_list_conserves {[16; 32]} s0 ts0 _ _ demo_list_start Hr) as (L & H1 & H2 & _). exists L. split; [exact H1|exact H2].
Defined.
