(* ===== verification/BigProps.v ===== *)
(** * Big allocations with a mapping of their own

    A request that no size class serves and the buddy allocator does not take gets
    its own mapping: header, ownership and metadata are recorded, and the release
    unmaps what was mapped. *)

From S2P Require Import Prelude Types SizeClasses Kernel Radix RadixProofs RBTree RBTreeProofs Buddy BuddyGrow BuddyWhole PageAllocator PageSpec Numa NumaSpec Predictor SList PendingQueue Rseq Bitmap SlabCache SlabProofs SlabSteal SlabSpec Heap BulkFill Alloc HeapFrame HeapInv HeapFill HeapOps Random GlobalAlloc Trim Realloc HeapStart HeapLive HeapSpec HeapView BigInv BigOps BigAlloc HeapFull FullSpec HeapProps.

Section Big.
Context {K : Type} `{!Kernel K} `{!KernelSpec K} (cfg : config).
Implicit Types (h : heap K) (k : K).

(** ** One big allocation *)

(** A request that gets a mapping of its own. *)
Definition own_mapping h (size : Z) : Prop :=
  2097152 < size < 2 ^ 62 /\ (64 * 1024 * 1024 < size \/ bd_init (hp_buddy h) = false \/ hp_disable_buddy h = true).

(** The bytes of the mapping: header and payload, in whole pages. *)
Abbreviation mapping_size size := (estimate_and_align_2mb cfg (size + 16)).

Lemma skips_buddy h size total node : own_mapping h size -> big_from_buddy cfg h size total node = Ret (None, h).
Proof.
  intros [_ Hs]. unfold big_from_buddy. destruct Hs as [Hs|[->| ->]]; [|by rewrite andb_false_r|by rewrite andb_false_r].
  destruct (Z.leb_spec size (1024 * 1024 * 64)); [lia|done].
Qed.

(** What [big_register] records for a mapping at [base]. *)
Record registered h h' (base size : Z) (M : gmap Z BigAllocMeta) : Prop := {
  rg_tree : exists meta, bm_size meta = size /\ bm_buddy_region meta = 0 /\ bm_aligned meta = false /\ tree_ok (hp_big h') (hp_kern h') (<[base + 16 := meta]> M);
  rg_radix : radix_wf (hp_radix h') /\ Radix.is_owned (hp_radix h') (base + 16) = Ret true;
  rg_header : exists x, sl_mem (hp_slab h') !! base = Some x /\ h_magic x = BIG_MAGIC cfg /\ h_next x = null;
  rg_same : hp_buddy h' = hp_buddy h /\ hp_raw h' = hp_raw h;
}.

Lemma big_register_ok h base total size M :
  tree_ok (hp_big h) (hp_kern h) M -> radix_wf (hp_radix h) -> 0 <= base -> (4096 | base) -> base + 16 < 2 ^ 47 ->
  match big_register cfg h base total 0 ZERO_FLAG size false false with
  | Ret (p, h') => p = base + 16 /\ registered h h' base size M
  | Fatal e => e = VAIinitFailed \/ e = OutOfMemory
  | Stuck => False
  end.
Proof.
  intros HT HX Hb Hal Hend. unfold big_register. cbn [negb andb]. set (h1 := put_header _ _ _). change (walk_header base) with (wadd base 16). change (wadd base Header_SIZE) with (wadd base 16). rewrite wadd_small by lia.
  assert (HX1 : radix_wf (hp_radix h1)) by done. pose proof (set_single_big_owns_chunk (hp_radix h1) base true HX1 ltac:(change MAX_ADDR with (2 ^ 56); lia)) as Hu.
  pose proof (fun t' x => set_mapped (hp_radix h1) (base / CHUNK_SIZE) true t' x) as Hmap. unfold set_single_big in *.
  assert (Hval : valid_user_addr base = true) by (unfold valid_user_addr; change MAX_ADDR with (2 ^ 56); lia). rewrite Hval in *. cbn [negb] in *.
  destruct (Radix.set (hp_radix h1) (base / CHUNK_SIZE) true) as [t|e|]; cbn [mbind outcome_bind fmap outcome_fmap] in *; [|by left|done].
  set (h2 := set_radix h1 t). set (meta := mkBigAllocMeta _ _ _ _ _). destruct Hu as [Hwf Hown].
  assert (HT2 : tree_ok (hp_big h2) (hp_kern h2) M) by (eapply (tree_ok_view _ _ _ (hp_kern h)); [exact HT|]; intros x; by apply (Hmap t x)).
  pose proof (insert_ok (hp_big h2) (hp_kern h2) M (base + 16) meta HT2) as Hi. pose proof (insert_mapped (hp_big h2) (hp_kern h2) (base + 16) meta) as Him.
  destruct (RBTree.insert _ _ _ _) as [[s' k']|e|]; cbn [mbind outcome_bind]; [|by right|done]. split; [done|]. constructor.
  - by exists meta.
  - split; [apply (radix_wf_mono t); [by destruct t|]; intros x; by apply (Him s' k' x)|]. destruct t as [r w kt]. change (Radix.is_owned (mkRadixTree r w kt) (base + 16) = Ret true). rewrite Hown by (change MAX_ADDR with (2 ^ 56); lia).
    by rewrite same_chunk.
  - eexists. cbn. by rewrite lookup_insert_eq.
  - done.
Qed.

(** The release of a registered mapping. *)
Lemma release_registered h h' (e : env) base size M :
  registered h h' base size M -> MAGIC cfg <> BIG_MAGIC cfg -> 2 ^ 56 <= ALIGN_TAG cfg -> 0 < base -> (4096 | base) -> base + 16 < 2 ^ 47 -> 0 <= size < 2 ^ 62 ->
  usable_size cfg h' (base + 16) = Ret size /\
  match rs_free cfg h' e (base + 16) with
  | Ret h2 => (forall q, RBTree.get (hp_big h2) q = Ret (if q =? base + 16 then None else M !! q)) /\
      Radix.is_owned (hp_radix h2) (base + 16) = Ret false /\ exists k, hp_kern h2 = munmap base (mapping_size size) k
  | Fatal er => er = VAIinitFailed
  | Stuck => False
  end.
Proof.
  intros [(meta & Hsz & Hreg & Hal & HT) [HX Hown] (x & Hx & Hmg & Hnx) _] Hm1 Htag H0 Hdiv Hend Hs. set (p := base + 16) in *.
  assert (Hfind : find_original_ptr cfg h' p = Ret p).
  { unfold find_original_ptr, read_word. change (wsub p TAG_SIZE) with (wsub p 16). rewrite wsub_small by lia. replace (p - 16) with base by lia. rewrite Hx, Hnx. destruct (Z.eqb_spec null (ALIGN_TAG cfg)) as [E|_]; [|done]. change null with 0 in E. lia. }
  assert (Hhead : get_actual_header p = base) by (change (get_actual_header p) with (wsub p 16); rewrite wsub_small; lia).
  assert (Hget : get_header h' base = Ret x) by (unfold get_header; by rewrite Hx). split.
  - unfold usable_size. rewrite Hown. cbn [mbind outcome_bind]. rewrite Hfind. cbn [mbind outcome_bind]. rewrite Hhead, Hget. cbn [mbind outcome_bind]. rewrite Hmg, Z.eqb_refl.
    rewrite (get_ok _ _ _ p HT), lookup_insert_eq. cbn [mbind outcome_bind]. rewrite wsub_small by lia. unfold saturating_sub. f_equal. lia.
  - unfold rs_free. destruct (Z.eqb_spec p null) as [E|_]; [change null with 0 in E; lia|]. rewrite Hown. cbn [mbind outcome_bind negb]. rewrite Hfind. cbn [mbind outcome_bind]. rewrite Hhead, Hget. cbn [mbind outcome_bind].
    rewrite Hmg. destruct (Z.eqb_spec (BIG_MAGIC cfg) (MAGIC cfg)) as [E|_]; [by symmetry in E|]. rewrite Z.eqb_refl. unfold big_free. destruct (remove_ok (hp_big h') (hp_kern h') _ p HT) as (s' & Hr & HT').
    rewrite Hr, lookup_insert_eq. cbn [mbind outcome_bind]. rewrite Hreg, Hal. cbn [negb]. change (0 =? 0) with true. cbn [negb]. change (wsub p Header_SIZE) with (wsub p 16). change (wadd (bm_size meta) Header_SIZE) with (wadd (bm_size meta) 16).
    rewrite wsub_small, Hsz, wadd_small by lia. replace (p - 16) with base by lia. pose proof (set_single_big_owns_chunk (hp_radix (set_big h' s')) base false HX ltac:(change MAX_ADDR with (2 ^ 56); lia)) as Hu.
    destruct (Radix.set_single_big (hp_radix (set_big h' s')) base false) as [t|er|]; cbn [mbind outcome_bind]; [|done..]. destruct Hu as [_ Hu]. split_and!.
    + intros q. change (RBTree.get s' q = Ret (if q =? p then None else M !! q)). rewrite (get_ok _ _ _ q HT'). destruct (Z.eqb_spec q p) as [->|Hne]; [by rewrite lookup_delete_eq|]. by rewrite lookup_delete_ne, lookup_insert_ne by done.
    + destruct t as [r w kt]. change (Radix.is_owned (mkRadixTree r w kt) p = Ret false). rewrite Hu by (change MAX_ADDR with (2 ^ 56); lia). unfold p. by rewrite same_chunk.
    + by eexists.
Qed.

(** The mapping of [big_malloc], with the advice given for it. *)
Lemma big_malloc_ok h cpu node size M :
  own_mapping h size -> node_for_cpu (sl_inner (hp_slab h)) cpu = Ret node -> tree_ok (hp_big h) (hp_kern h) M -> radix_wf (hp_radix h) ->
  match big_malloc cfg h cpu size false with
  | Ret (p, h') => p = null \/ exists base k1, p = base + 16 /\ mmap_anonymous (mapping_size size) (hp_kern h) = (Some base, k1) /\
      0 < base /\ (4096 | base) /\ base + mapping_size size <= 2 ^ 47 /\ registered h h' base size M
  | Fatal e => e = VAIinitFailed \/ e = OutOfMemory
  | Stuck => False
  end.
Proof.
  intros Hown Hnode HT HX. pose proof Hown as [Hs _]. unfold big_malloc, checked_add. change Header_SIZE with 16. destruct (Z.ltb_spec (size + 16) (2 ^ 64)); [|lia]. cbv zeta. rewrite Hnode. cbn [mbind outcome_bind].
  rewrite (skips_buddy h size _ node Hown). cbn [mbind outcome_bind]. destruct (mapping_fits cfg size ltac:(lia)) as [Hms _].
  destruct (mmap_anonymous (mapping_size size) (hp_kern h)) as [[base|] k1] eqn:Hk; [|by left]. destruct (mmap_some _ _ _ _ (Z.lt_le_trans 0 (size + 16) _ ltac:(lia) Hms) (radix_process _ HX) Hk) as (H0 & Hal & Hend & _ & Hmap). pose proof (round_up_ge (mapping_size size) 4096 ltac:(lia)).
  set (k2 := if si_is_numa _ then _ else _). set (k3 := if _ && _ then _ else k2). assert (Hk3 : forall x, mapped (hp_kern h) x -> mapped k3 x).
  { intros x Hx. assert (Hk2 : mapped k2 x) by (unfold k2; case_match; [apply prefer_node_mapped|]; apply Hmap; by left). unfold k3. case_match; [by apply madvise_mapped|done]. }
  pose proof (big_register_ok (set_kern h k3) base (mapping_size size) size M ltac:(by eapply tree_ok_view) ltac:(by apply (radix_wf_mono (hp_radix h))) ltac:(lia) Hal ltac:(lia)) as Hr.
  destruct (big_register _ _ _ _ _ _ _ _ _) as [[p h']| |]; [|done..]. destruct Hr as [-> [R1 R2 R3 R4]]. right. exists base, k1. split_and!; try done. lia.
Qed.
End Big.

(** C8. Big allocations round trip.  In a state that threads have reached, a request
    that gets a mapping of its own returns null, or a pointer 16 bytes into a new
    mapping of whole pages that holds header and payload; the usable size is the size
    asked for; and the release takes the pointer out of the map of big allocations,
    leaves every other entry, gives the ownership up and unmaps exactly the bytes that
    were mapped. *)
Theorem big_mapping_roundtrip {K} `{!Kernel K} `{!KernelSpec K} (m : machine) (rc : RSMallocConfig) (k : K) g h ts V th e e' size :
  machine_ok m -> config_ok rc -> 2 ^ 56 <= ALIGN_TAG (g_config g) -> reached m rc k g h ts V -> env_ok (get_max_cpu (get_nprocs_conf m)) e -> own_mapping h size ->
  match rs_alloc (g_config g) th h e size false with
  | Ret (p, th', h') => th' = th /\ (p = null \/ exists base k1,
      let mapping := estimate_and_align_2mb (g_config g) (size + 16) in
      p = base + 16 /\ (4096 | base) /\ size + 16 <= mapping /\ mmap_anonymous mapping (hp_kern h) = (Some base, k1) /\ usable_size (g_config g) h' p = Ret size /\
      match rs_free (g_config g) h' e' p with
      | Ret h2 => (forall q, RBTree.get (hp_big h2) q = if q =? p then Ret None else RBTree.get (hp_big h) q) /\
          Radix.is_owned (hp_radix h2) p = Ret false /\ exists k2, hp_kern h2 = munmap base mapping k2
      | Fatal er => er = VAIinitFailed
      | Stuck => False
      end)
  | Fatal er => er = VAIinitFailed \/ er = OutOfMemory
  | Stuck => False
  end.
Proof.
  intros Hm Hc Ht Hr He Hown. destruct (reached_ok m rc k g h ts V Hm Hc Ht Hr) as ((Vs & Vb & own & rs & Ab & M & G & Db & _ & Hok) & [_ M2 _ _]). pose proof Hown as [Hs _].
  pose proof Hok as [(C & B & D & A & HI & _) HB _]. destruct (node_ok _ _ h B A A (e_cpu e) (hi_blocks _ _ _ _ _ _ _ _ _ HI) (eo_cpu _ _ He)) as [(node & Hnode & _) _].
  assert (HT : tree_ok (hp_big h) (hp_kern h) M) by (apply (tree_ok_view (view _ (own_bytes own)) _ _ _ _ _ (bi_tree _ _ _ _ _ _ _ HB)); by intros x (? & _)).
  assert (HX : radix_wf (hp_radix h)) by (apply (radix_wf_view (view _ (own_bytes own)) _ (hp_radix h) (hp_kern h) (wh_radix _ _ _ _ (bi_whole _ _ _ _ _ _ _ HB))); by intros x (? & _)).
  unfold rs_alloc. rewrite no_class by lia. pose proof (big_malloc_ok (g_config g) h (e_cpu e) node size M Hown Hnode HT HX) as Hb.
  destruct (big_malloc _ _ _ _ _) as [[p h']| |]; cbn [mbind outcome_bind]; [|done..]. split; [done|]. destruct Hb as [->|(base & k1 & -> & Hk & H0 & Hal & Hend & Hreg)]; [by left|right].
  destruct (mapping_fits (g_config g) size ltac:(lia)) as [Hms _]. exists base, k1. cbv zeta. destruct (release_registered (g_config g) h h' e' base size M Hreg M2 Ht H0 Hal ltac:(lia) ltac:(lia)) as [Hu Hf]. split_and!; try done.
  destruct (rs_free _ _ _ _) as [h2| |]; [|done..]. destruct Hf as (Hg & Ho & Hk2). split; [|done]. intros q. rewrite Hg, (get_ok _ _ _ q HT). by case_match.
Qed.

(** ** Witness: 100 MB next to other pointers *)

Lemma big_mapping_roundtrip_witness :
  exists g (h : heap BumpKernel.state), match rs_alloc (g_config g) tls_new h demo_env 100000000 false with
    | Ret (p, _, h') => p = null \/ usable_size (g_config g) h' p = Ret 100000000
    | Fatal er => er = VAIinitFailed \/ er = OutOfMemory
    | Stuck => False
    end.
Proof.
  destruct demo_three_reached as (g & h & ts & p1 & p2 & p3 & Hr & Ht & _). exists g, h. assert (Ho : own_mapping h 100000000) by (split; [lia|left; lia]).
  pose proof (big_mapping_roundtrip demo_machine demo_config BumpKernel.empty g h ts _ tls_new demo_env demo_env 100000000 demo_machine_ok demo_config_ok Ht Hr demo_env_ok Ho) as Hl.
  destruct (rs_alloc _ _ _ _ _ _) as [[[p th'] h']| |]; [|exact Hl|exact Hl]. destruct Hl as [_ [Hn|(base & k1 & _ & _ & _ & _ & Hu & _)]]; [left; exact Hn|right; exact Hu].
Defined.
