(* ===== verification/Bootstrap.v ===== *)
(** * Start of a preloaded process (src/core_prim/bootstrap.rs)

    [bootstrap] reads the configuration from the environment and sets the
    allocator up; [Fork] has the handlers of fork it registers.  The heap it sets
    up satisfies the invariant that the Rust interface starts from. *)

From Stdlib Require Import String Ascii.
From S2P Require Import Prelude Types SizeClasses Kernel Radix RBTree Buddy BuddyGrow PageAllocator Numa NumaSpec Env Predictor PendingQueue SlabCache SlabSpec Heap BulkFill Alloc Random GlobalAlloc HeapLive HeapStart HeapSpec HeapFull FullSpec HeapProps.

(** [.as_bytes()] *)
Definition as_bytes (s : string) : list Z := (fun c => Z.of_nat (nat_of_ascii c)) <$> list_ascii_of_string s.

(** [get_env_usize(name).unwrap_or(d)] *)
Definition env_or (environ : list (list Z)) (name : string) (d : Z) : Z := default d (get_env_usize environ (as_bytes name)).

(** [BUDDY_MAX_CACHE] *)
Definition buddy_max_cache (environ : list (list Z)) : Z :=
  next_power_of_two (clamp (env_or environ "RS_BUDDY_PER_CACHE_SIZE" (1024 * 1024 * 64)) (1024 * 1024 * 64) (wshl 2 46)).

Section Bootstrap.
Context {K : Type} `{!Kernel K}.

(** A preload build has no [FOREIGN_POINTER_ABORT]: foreign pointers go to the C
    library. *)
Definition bootstrap (environ : list (list Z)) (m : machine) (k : K) : outcome (globals * heap K) :=
  if (rseq_size m =? 0) || (rseq_offset m =? 0) then Fatal RSEQRegFailed
  else
    let arena_size := Z.max (env_or environ "RS_ARENA_SIZE" (1024 * 1024 * 256)) (256 * 1024) in
    let max_refill_retries := env_or environ "RS_MAX_REFILL_RETRIES" 3 in
    let predictor := env_or environ "RS_PREDICTOR_INIT_BATCH" DEFAULT_BATCH in
    let max_cache := buddy_max_cache environ in
    let attempt_huge := negb (env_or environ "RS_BUDDY_ATTEMPT_HUGEPAGE" 0 =? 0) in
    let disable_trim_thread := negb (env_or environ "RS_DISABLE_TRIM_THREAD" 0 =? 0) in
    let trim_threshold := env_or environ "RS_TRIMMER_THRESHOLD" (1024 * 1024 * 10) in
    let disable_relief := negb (env_or environ "RS_ENABLE_RELIEF" 1 =? 0) in
    let disable_percentage := Z.min (env_or environ "RS_BUDDY_RELIEF_DISABLE_PERCENTAGE" 85) 100 in
    let enable_percentage := Z.min (env_or environ "RS_BUDDY_RELIEF_ENABLE_PERCENTAGE" 80) disable_percentage in
    let disable_thp := env_or environ "RS_DISABLE_THP" 0 =? 1 in
    h ← init_heap m max_refill_retries max_cache (attempt_huge && negb disable_thp) k;
    let random_magic := env_or environ "RS_DISABLE_RANDOMIZING" 0 =? 0 in
    '(magic, freed, big, tag) ← init_tags (if random_magic then MagicRandomization else FixedMagic) (random m);
    let cfg := mkConfig magic freed big tag arena_size max_refill_retries disable_thp false trim_threshold (mkPredictorConfig predictor 384) in
    Ret (mkGlobals cfg max_cache attempt_huge disable_trim_thread disable_relief disable_percentage enable_percentage, h).
End Bootstrap.

(** The size of the first buddy region is a power of two of at least 64 MiB,
    whatever the environment says. *)
Lemma buddy_max_cache_ok environ : exists i, 26 <= i <= 47 /\ buddy_max_cache environ = 2 ^ i.
Proof.
  unfold buddy_max_cache. set (v := clamp _ _ _). assert (Hv : 2 ^ 26 <= v <= 2 ^ 47) by (unfold v, clamp; change (wshl 2 46) with (2 ^ 47); lia).
  destruct (pow2_ceil_spec v ltac:(lia)) as (i & Hi & He & Hle & Hlt). specialize (Hlt ltac:(lia)). exists i. unfold next_power_of_two. rewrite He.
  assert (26 <= i) by (apply (Z.pow_le_mono_r_iff 2); lia). assert (i - 1 < 47) by (apply (Z.pow_lt_mono_r_iff 2); lia). split; [lia|]. apply wrap_small. split; [lia|]. apply Z.pow_lt_mono_r; lia.
Qed.

(** [bootstrap] starts from the same heap as [init]. *)
Lemma bootstrap_ok {K} `{!Kernel K} `{!KernelSpec K} environ (m : machine) (k : K) :
  machine_ok m -> mapped k VSYSCALL ->
  match bootstrap environ m k with
  | Ret (g, h) => let cfg := g_config g in
      262144 <= ARENA_SIZE cfg /\ MAGIC cfg <> FREED_MAGIC cfg /\ MAGIC cfg <> BIG_MAGIC cfg /\ FREED_MAGIC cfg <> BIG_MAGIC cfg /\ ALIGN_TAG cfg <> 0 /\
      BUDDY_ENABLE_PERCENTAGE g <= BUDDY_DISABLE_PERCENTAGE g <= 100 /\ full_ok cfg (get_max_cpu (get_nprocs_conf m)) h ∅ ∅
  | Fatal e => e = RSEQRegFailed \/ e = VAIinitFailed \/ e = OutOfMemory \/ e = SecurityViolation
  | Stuck => env_or environ "RS_DISABLE_RANDOMIZING" 0 = 0
  end.
Proof.
  intros Hm Hv. unfold bootstrap. destruct ((rseq_size m =? 0) || (rseq_offset m =? 0)); [by left|]. cbv zeta. destruct (buddy_max_cache_ok environ) as (i & Hi & Hb).
  assert (Hc : is_u 64 (buddy_max_cache environ)) by (rewrite Hb; split; [lia|]; apply Z.pow_lt_mono_r; lia).
  pose proof (init_heap_ok m (env_or environ "RS_MAX_REFILL_RETRIES" 3) (buddy_max_cache environ) (negb (env_or environ "RS_BUDDY_ATTEMPT_HUGEPAGE" 0 =? 0) && negb (env_or environ "RS_DISABLE_THP" 0 =? 1)) k Hm Hc Hv) as Hh.
  destruct (init_heap _ _ _ _ _) as [h|e|]; cbn [mbind outcome_bind]; [|tauto|done].
  set (safety := if env_or environ "RS_DISABLE_RANDOMIZING" 0 =? 0 then _ else _). pose proof (init_tags_ok safety (random m)) as Ht.
  destruct (init_tags _ _) as [[[[mg fr] bg] tag]|e|]; cbn [mbind outcome_bind g_config]; [|tauto|by unfold safety in Ht; destruct (Z.eqb_spec (env_or environ "RS_DISABLE_RANDOMIZING" 0) 0)].
  cbn [ARENA_SIZE MAGIC FREED_MAGIC BIG_MAGIC ALIGN_TAG BUDDY_ENABLE_PERCENTAGE BUDDY_DISABLE_PERCENTAGE]. destruct Ht as (T1 & T2 & T3 & T4). split; [lia|]. do 4 (split; [done|]). split; [lia|]. by apply start_full.
Qed.
