(* ===== verification/Fork.v ===== *)
(** * Handlers of fork (src/core_prim/fork.rs, with the resets they call)

    A process is the memory the handlers touch: the words of every lock of the
    allocator, the two guards that [fork_prepare] parks, the cells of the next
    allocator's functions, the trimmer's flag and the buddy allocator's regions.
    Threads interleave at the acquisition and release of locks.  The child starts
    from a copy of the memory with the forking thread alone. *)

From S2P Require Import Prelude Types Kernel Buddy BuddyWhole Sync.

(** ** The locks *)

(** Every lock of the allocator: the two of fork and trimming, the buddy's list
    of regions, its free lists, the big-allocation map, a node of the page
    allocator and a slot of the queue of pending spans. *)
Inductive lock_id :=
  | BOOTSTRAP_LOCK | GLOBAL_TRIM_LOCK | BuddySpin | BigMapLock
  | OrderLock (region index : Z) | ArenaLock (node : Z) | SlotLock (node class : Z).

#[export] Instance lock_id_eq_dec : EqDecision lock_id.
Proof. solve_decision. Defined.

#[export] Instance lock_id_countable : Countable lock_id.
Proof.
  refine (inj_countable'
    (fun l => match l with
     | BOOTSTRAP_LOCK => (0, 0, 0) | GLOBAL_TRIM_LOCK => (1, 0, 0) | BuddySpin => (2, 0, 0) | BigMapLock => (3, 0, 0)
     | OrderLock r i => (4, r, i) | ArenaLock n => (5, n, 0) | SlotLock n c => (6, n, c) end)
    (fun c => match c with
     | (0, _, _) => BOOTSTRAP_LOCK | (1, _, _) => GLOBAL_TRIM_LOCK | (2, _, _) => BuddySpin | (3, _, _) => BigMapLock
     | (4, r, i) => OrderLock r i | (5, n, _) => ArenaLock n | (_, n, c) => SlotLock n c end) _).
  by intros [].
Defined.

(** ** The process *)

(** [words] is the set of the locks whose word is set. *)
Record process := mkProcess {
  words : gset lock_id;
  ATFORK_GUARD : bool;
  TRIM_ATFORK_GUARD : bool;
  FREE_FALLBACK : OnceLock.cell (T := Z);
  REALLOC_FALLBACK : OnceLock.cell (T := Z);
  MUS_FALLBACK : OnceLock.cell (T := Z);
  TRIM_GUARD : bool;
  BUDDY_BACKEND : Buddy;
}.

Definition set_words (w : gset lock_id) (p : process) : process :=
  mkProcess w (ATFORK_GUARD p) (TRIM_ATFORK_GUARD p) (FREE_FALLBACK p) (REALLOC_FALLBACK p) (MUS_FALLBACK p) (TRIM_GUARD p) (BUDDY_BACKEND p).

Definition set_guards (atfork trim : bool) (p : process) : process :=
  mkProcess (words p) atfork trim (FREE_FALLBACK p) (REALLOC_FALLBACK p) (MUS_FALLBACK p) (TRIM_GUARD p) (BUDDY_BACKEND p).

(** The last exchange of [lock], [None] while it fails; the drop of a guard; the
    reset.  The bootstrap lock and those of the page allocator's nodes are mutexes of
    the standard library, which are taken in the same case. *)
Definition lock (l : lock_id) (p : process) : option process :=
  match SpinLock.lock (bool_decide (l ∈ words p)) with
  | (_, SpinLock.Holding) => Some (set_words ({[l]} ∪ words p) p)
  | _ => None
  end.

Definition unlock (l : lock_id) (p : process) : process := set_words (words p ∖ {[l]}) p.

Definition reset_at_fork (l : lock_id) (p : process) : process :=
  set_words (if SpinLock.reset_at_fork (bool_decide (l ∈ words p)) then {[l]} ∪ words p else words p ∖ {[l]}) p.

(** ** The handlers *)

Definition fork_prepare_bootstrap (p : process) : option process :=
  p ← lock BOOTSTRAP_LOCK p; Some (set_guards true (TRIM_ATFORK_GUARD p) p).

Definition fork_prepare_trim (p : process) : option process :=
  p ← lock GLOBAL_TRIM_LOCK p; Some (set_guards (ATFORK_GUARD p) true p).

Definition fork_prepare (p : process) : option process := p ← fork_prepare_bootstrap p; fork_prepare_trim p.

(** [if let Some(guard) = TRIM_ATFORK_GUARD.take() { drop(guard) }] *)
Definition drop_trim_guard (p : process) : process :=
  if TRIM_ATFORK_GUARD p then unlock GLOBAL_TRIM_LOCK (set_guards (ATFORK_GUARD p) false p) else p.

Definition drop_atfork_guard (p : process) : process :=
  if ATFORK_GUARD p then unlock BOOTSTRAP_LOCK (set_guards false (TRIM_ATFORK_GUARD p) p) else p.

Definition fork_parent (p : process) : process := drop_atfork_guard (drop_trim_guard p).

Definition fallback_reinit_on_fork (p : process) : process :=
  mkProcess (words p) (ATFORK_GUARD p) (TRIM_ATFORK_GUARD p) (OnceLock.reset_at_fork (FREE_FALLBACK p))
    (OnceLock.reset_at_fork (REALLOC_FALLBACK p)) (OnceLock.reset_at_fork (MUS_FALLBACK p)) (TRIM_GUARD p) (BUDDY_BACKEND p).

(** [while index < NUM_ORDERS] *)
Fixpoint reset_order_locks (n : nat) (region index : Z) (p : process) : process :=
  match n with O => p | S n' => reset_order_locks n' region (index + 1) (reset_at_fork (OrderLock region index) p) end.

Fixpoint reset_regions (fuel : nat) (region : Z) (p : process) : outcome process :=
  match fuel with
  | O => Stuck
  | S fuel' =>
      if region =? null then Ret p
      else
        x ← get_region (BUDDY_BACKEND p) region;
        reset_regions fuel' (r_next x) (reset_order_locks (Z.to_nat BUDDY_NUM_ORDERS) region 0 p)
  end.

Definition reset_locks_on_fork (p : process) : outcome process :=
  reset_regions (S (size (bd_region_mem (BUDDY_BACKEND p)))) (bd_regions (BUDDY_BACKEND p)) (reset_at_fork BuddySpin p).

Definition reset_lock_on_fork (p : process) : process := reset_at_fork BigMapLock p.

Definition clear_trim_guard (p : process) : process :=
  mkProcess (words p) (ATFORK_GUARD p) (TRIM_ATFORK_GUARD p) (FREE_FALLBACK p) (REALLOC_FALLBACK p) (MUS_FALLBACK p) false (BUDDY_BACKEND p).

Definition fork_child (rseq_size rseq_offset : Z) (p : process) : outcome process :=
  let p := drop_atfork_guard (drop_trim_guard p) in
  let p := fallback_reinit_on_fork p in
  p ← reset_locks_on_fork p;
  let p := reset_lock_on_fork p in
  let p := reset_at_fork GLOBAL_TRIM_LOCK p in
  let p := clear_trim_guard p in
  if (rseq_size =? 0) || (rseq_offset =? 0) then Fatal RSEQRegFailed else Ret p.

(** ** The threads of a process *)

(** A thread runs with the guards it holds, or forks: it has parked the bootstrap
    guard, then also the trim guard, then dropped the latter again. *)
Inductive place := Running (held : gset lock_id) | Preparing | ForkReady | Resuming.

Abbreviation threads := (gmap nat place).

Definition forking (q : place) : Prop := match q with Running _ => False | _ => True end.

(** The locks that a thread at [q] releases. *)
Definition holds (q : place) : gset lock_id :=
  match q with
  | Running h => h
  | Preparing | Resuming => {[BOOTSTRAP_LOCK]}
  | ForkReady => {[BOOTSTRAP_LOCK; GLOBAL_TRIM_LOCK]}
  end.

(** What a call of the allocator may take: only [fork_prepare] takes the bootstrap
    lock, and the order locks are those of a published region. *)
Definition takes (p : process) (l : lock_id) : Prop :=
  match l with
  | BOOTSTRAP_LOCK => False
  | OrderLock r i => 0 <= i < BUDDY_NUM_ORDERS /\ exists rs, linked (BUDDY_BACKEND p) (bd_regions (BUDDY_BACKEND p)) rs /\ r ∈ rs.*1
  | _ => True
  end.

(** Regions are published at the head of the list and never removed. *)
Definition published (b b' : Buddy) : Prop :=
  forall rs, linked b (bd_regions b) rs -> NoDup rs.*1 -> exists rs', linked b' (bd_regions b') rs' /\ NoDup rs'.*1 /\ rs.*1 ⊆ rs'.*1.

(** The handlers run with their thread outside the allocator.  [step_memory] is
    any other work of the threads: on the buddy's regions, the cells, the flag. *)
Inductive step : process * threads -> process * threads -> Prop :=
  | step_spawn p ts t : ts !! t = None -> step (p, ts) (p, <[t := Running ∅]> ts)
  | step_lock p p' ts t h l : ts !! t = Some (Running h) -> takes p l -> lock l p = Some p' -> step (p, ts) (p', <[t := Running ({[l]} ∪ h)]> ts)
  | step_unlock p ts t h l : ts !! t = Some (Running h) -> l ∈ h -> step (p, ts) (unlock l p, <[t := Running (h ∖ {[l]})]> ts)
  | step_memory p p' ts : words p' = words p -> ATFORK_GUARD p' = ATFORK_GUARD p -> TRIM_ATFORK_GUARD p' = TRIM_ATFORK_GUARD p ->
      published (BUDDY_BACKEND p) (BUDDY_BACKEND p') -> step (p, ts) (p', ts)
  | step_prepare p p' ts t : ts !! t = Some (Running ∅) -> fork_prepare_bootstrap p = Some p' -> step (p, ts) (p', <[t := Preparing]> ts)
  | step_ready p p' ts t : ts !! t = Some Preparing -> fork_prepare_trim p = Some p' -> step (p, ts) (p', <[t := ForkReady]> ts)
  | step_parent_trim p ts t : ts !! t = Some ForkReady -> step (p, ts) (drop_trim_guard p, <[t := Resuming]> ts)
  | step_parent_atfork p ts t : ts !! t = Some Resuming -> step (p, ts) (drop_atfork_guard p, <[t := Running ∅]> ts).

(** The processes that a start without locks leads to, through forks too. *)
Inductive reachable (rseq_size rseq_offset : Z) : process -> threads -> Prop :=
  | reach_start p rs : words p = ∅ -> ATFORK_GUARD p = false -> TRIM_ATFORK_GUARD p = false ->
      linked (BUDDY_BACKEND p) (bd_regions (BUDDY_BACKEND p)) rs -> NoDup rs.*1 -> reachable rseq_size rseq_offset p {[0%nat := Running ∅]}
  | reach_step p ts p' ts' : reachable rseq_size rseq_offset p ts -> step (p, ts) (p', ts') -> reachable rseq_size rseq_offset p' ts'
  | reach_child p ts t c : reachable rseq_size rseq_offset p ts -> ts !! t = Some ForkReady -> fork_child rseq_size rseq_offset p = Ret c ->
      reachable rseq_size rseq_offset c {[t := Running ∅]}.

(** ** The owners of the locks *)

(** A set word belongs to one thread, or to none for the dead locks [D]. *)
Record owners (D w : gset lock_id) (ts : threads) : Prop := {
  ow_word l : l ∈ w <-> l ∈ D \/ exists t q, ts !! t = Some q /\ l ∈ holds q;
  ow_dead t q l : ts !! t = Some q -> l ∈ holds q -> l ∉ D;
  ow_one t t' q q' l : ts !! t = Some q -> ts !! t' = Some q' -> l ∈ holds q -> l ∈ holds q' -> t = t';
}.

Lemma owners_same D w ts t q' : owners D w ts -> holds q' = holds (default (Running ∅) (ts !! t)) -> owners D w (<[t := q']> ts).
Proof.
  intros [O1 O2 O3] Hh. assert (Hb : forall u q l, <[t := q']> ts !! u = Some q -> l ∈ holds q -> exists q0, ts !! u = Some q0 /\ l ∈ holds q0).
  { intros u q l [[<- <-]|[_ Hu]]%lookup_insert_Some Hl; [|eauto]. rewrite Hh in Hl. destruct (ts !! t) as [q0|]; [eauto|by apply not_elem_of_empty in Hl]. }
  constructor.
  - intros l. rewrite O1. split; (intros [?|(u & q & Hu & Hl)]; [by left|right]); [|by destruct (Hb u q l Hu Hl) as (q0 & ? & ?); eauto].
    destruct (decide (u = t)) as [->|Hne]; [exists t, q'; rewrite lookup_insert_eq, Hh, Hu; done|exists u, q; by rewrite lookup_insert_ne].
  - intros u q l Hu Hl. destruct (Hb u q l Hu Hl) as (q0 & ? & ?). by eapply O2.
  - intros u u' q r l Hu Hu' Hl Hl'. destruct (Hb u q l Hu Hl) as (q0 & ? & ?). destruct (Hb u' r l Hu' Hl') as (r0 & ? & ?). by eapply O3.
Qed.

Lemma owners_take D w ts t q q' l :
  owners D w ts -> l ∉ w -> ts !! t = Some q -> holds q' = {[l]} ∪ holds q -> owners D ({[l]} ∪ w) (<[t := q']> ts).
Proof.
  intros [O1 O2 O3] Hl Ht Hh. assert (Hn : forall u r, ts !! u = Some r -> l ∉ holds r) by (intros u r Hu Hr; apply Hl, O1; eauto).
  assert (HD : l ∉ D) by (intros Hd; apply Hl, O1; by left).
  assert (Hb : forall u r l', <[t := q']> ts !! u = Some r -> l' ∈ holds r -> (u = t /\ l' = l) \/ exists r0, ts !! u = Some r0 /\ l' ∈ holds r0).
  { intros u r l' [[<- <-]|[_ Hu]]%lookup_insert_Some Hl'; [|eauto]. rewrite Hh in Hl'. apply elem_of_union in Hl' as [->%elem_of_singleton|]; eauto. }
  constructor.
  - intros l'. rewrite elem_of_union, elem_of_singleton, O1. split.
    + intros [->|[?|(u & r & Hu & Hr)]]; [|by left|]; right; [exists t, q'; rewrite lookup_insert_eq, Hh; set_solver|].
      destruct (decide (u = t)) as [->|Hne]; [exists t, q'; rewrite lookup_insert_eq, Hh; simplify_eq; set_solver|exists u, r; by rewrite lookup_insert_ne].
    + intros [?|(u & r & Hu & Hr)]; [by auto|]. destruct (Hb u r l' Hu Hr) as [[_ ->]|(r0 & ? & ?)]; eauto 7.
  - intros u r l' Hu Hr. destruct (Hb u r l' Hu Hr) as [[_ ->]|(r0 & ? & ?)]; [done|by eapply O2].
  - intros u u' r r' l' Hu Hu' Hr Hr'. destruct (Hb u r l' Hu Hr) as [[-> He]|(r0 & Hu0 & Hr0)], (Hb u' r' l' Hu' Hr') as [[-> He']|(r1 & Hu1 & Hr1)]; [done| | |by eapply O3].
    + subst l'. by destruct (Hn u' r1).
    + subst l'. by destruct (Hn u r0).
Qed.

Lemma owners_drop D w ts t q q' l :
  owners D w ts -> ts !! t = Some q -> l ∈ holds q -> holds q' = holds q ∖ {[l]} -> owners D (w ∖ {[l]}) (<[t := q']> ts).
Proof.
  intros [O1 O2 O3] Ht Hl Hh.
  assert (Hb : forall u r l', <[t := q']> ts !! u = Some r -> l' ∈ holds r -> l' <> l /\ exists r0, ts !! u = Some r0 /\ l' ∈ holds r0).
  { intros u r l' [[<- <-]|[Hne Hu]]%lookup_insert_Some Hl'; [rewrite Hh in Hl'; set_solver|]. split; [|eauto]. intros ->. by destruct Hne; eapply O3. }
  constructor.
  - intros l'. rewrite elem_of_difference, elem_of_singleton, O1. split.
    + intros [[?|(u & r & Hu & Hr)] Hne]; [by left|]. right.
      destruct (decide (u = t)) as [->|Hut]; [exists t, q'; rewrite lookup_insert_eq, Hh; simplify_eq; set_solver|exists u, r; by rewrite lookup_insert_ne].
    + intros [?|(u & r & Hu & Hr)]; [split; [by left|]; intros ->; by destruct (O2 t q l Ht Hl)|]. destruct (Hb u r l' Hu Hr) as (? & r0 & ? & ?). eauto 7.
  - intros u r l' Hu Hr. destruct (Hb u r l' Hu Hr) as (_ & r0 & ? & ?). by eapply O2.
  - intros u u' r r' l' Hu Hu' Hr Hr'. destruct (Hb u r l' Hu Hr) as (_ & r0 & ? & ?), (Hb u' r' l' Hu' Hr') as (_ & r1 & ? & ?). by eapply O3.
Qed.

(** ** The invariant *)

(** The locks that no handler takes or resets. *)
Definition data_lock (l : lock_id) : Prop := match l with ArenaLock _ | SlotLock _ _ => True | _ => False end.

Record process_inv (D : gset lock_id) (p : process) (ts : threads) : Prop := {
  pi_owners : owners D (words p) ts;
  pi_dead l : l ∈ D -> data_lock l;
  pi_boot t h : ts !! t = Some (Running h) -> BOOTSTRAP_LOCK ∉ h;
  pi_atfork : ATFORK_GUARD p = true <-> exists t q, ts !! t = Some q /\ forking q;
  pi_trim : TRIM_ATFORK_GUARD p = true <-> exists t, ts !! t = Some ForkReady;
  pi_regions : exists rs, linked (BUDDY_BACKEND p) (bd_regions (BUDDY_BACKEND p)) rs /\ NoDup rs.*1 /\
    forall r i, OrderLock r i ∈ words p -> r ∈ rs.*1 /\ 0 <= i < BUDDY_NUM_ORDERS;
}.

Lemma lock_some l p p' : lock l p = Some p' <-> l ∉ words p /\ p' = set_words ({[l]} ∪ words p) p.
Proof.
  unfold lock, SpinLock.lock, compare_exchange. case_bool_decide as Hl; cbn [decide]; [split; [done|by intros []]|].
  split; [intros [= <-]; done|by intros [_ ->]].
Qed.

Lemma linked_head s h rs rs' : linked s h rs -> linked s h rs' -> rs.*1 = rs'.*1.
Proof.
  revert h rs'. induction rs as [|[r bt] rs IH]; intros h [|[r' bt'] rs']; cbn [linked].
  - done.
  - intros -> (He & Hn & _). by destruct Hn.
  - intros (-> & Hn & _) He. by destruct Hn.
  - intros (-> & Hn & x & Hx & Hl) (<- & _ & x' & Hx' & Hl'). rewrite Hx in Hx'. injection Hx' as <-. rewrite !fmap_cons. f_equal. by eapply IH.
Qed.

(** Only one thread forks at a time. *)
Lemma forking_one D p ts t t' q q' : process_inv D p ts -> ts !! t = Some q -> ts !! t' = Some q' -> forking q -> forking q' -> t = t'.
Proof.
  intros Hi Ht Ht' Hq Hq'. assert (Hb : forall r, forking r -> BOOTSTRAP_LOCK ∈ holds r) by (intros []; simpl; set_solver).
  eapply (ow_one _ _ _ (pi_owners _ _ _ Hi) t t' q q' BOOTSTRAP_LOCK); auto.
Qed.

(** A thread moves between places that are both forking or both not. *)
Lemma some_forking (ts : threads) t q q' : ts !! t = Some q -> (forking q <-> forking q') ->
  (exists u r, <[t := q']> ts !! u = Some r /\ forking r) <-> exists u r, ts !! u = Some r /\ forking r.
Proof.
  intros Ht Hf. split.
  - intros (u & r & [[<- <-]|[_ Hu]]%lookup_insert_Some & Hr); [exists t, q; tauto|eauto].
  - intros (u & r & Hu & Hr). destruct (decide (u = t)) as [->|Hne]; [exists t, q'; rewrite lookup_insert_eq; simplify_eq; tauto|exists u, r; by rewrite lookup_insert_ne].
Qed.

Lemma some_ready (ts : threads) t q' : ts !! t <> Some ForkReady -> q' <> ForkReady ->
  (exists u, <[t := q']> ts !! u = Some ForkReady) <-> exists u, ts !! u = Some ForkReady.
Proof.
  intros Ht Hq. split.
  - intros (u & [[_ He]|[_ Hu]]%lookup_insert_Some); [done|eauto].
  - intros [u Hu]. exists u. rewrite lookup_insert_ne; [done|congruence].
Qed.

Lemma only_forking D p ts t q q' : process_inv D p ts -> ts !! t = Some q -> forking q -> ~ forking q' -> ~ exists u r, <[t := q']> ts !! u = Some r /\ forking r.
Proof. intros Hi Ht Hq Hq' (u & r & [[_ <-]|[Hne Hu]]%lookup_insert_Some & Hr); [done|]. apply Hne. by eapply forking_one. Qed.

Lemma only_ready D p ts t q q' : process_inv D p ts -> ts !! t = Some q -> forking q -> q' <> ForkReady -> ~ exists u, <[t := q']> ts !! u = Some ForkReady.
Proof. intros Hi Ht Hq Hq' (u & [[_ ?]|[Hne Hu]]%lookup_insert_Some); [done|]. apply Hne. by eapply forking_one. Qed.

(** The words of the order locks only shrink. *)
Lemma regions_shrink D p p' ts : process_inv D p ts -> BUDDY_BACKEND p' = BUDDY_BACKEND p -> (forall r i, OrderLock r i ∈ words p' -> OrderLock r i ∈ words p) ->
  exists rs, linked (BUDDY_BACKEND p') (bd_regions (BUDDY_BACKEND p')) rs /\ NoDup rs.*1 /\ forall r i, OrderLock r i ∈ words p' -> r ∈ rs.*1 /\ 0 <= i < BUDDY_NUM_ORDERS.
Proof. intros Hi -> Hw. destruct (pi_regions _ _ _ Hi) as (rs & R1 & R2 & R3). exists rs. eauto. Qed.

Lemma inv_spawn D p ts t : process_inv D p ts -> ts !! t = None -> process_inv D p (<[t := Running ∅]> ts).
Proof.
  intros [I1 I2 I3 I4 I5 I6] Ht. constructor; try done.
  - apply owners_same; [done|]. by rewrite Ht.
  - intros u h [[_ [= <-]]|[_ Hu]]%lookup_insert_Some; [set_solver|by eapply I3].
  - rewrite I4. split; intros (u & r & Hu & Hr); exists u, r; (split; [|done]); [rewrite lookup_insert_ne; congruence|].
    by apply lookup_insert_Some in Hu as [[_ <-]|[_ Hu]].
  - rewrite I5. symmetry. apply some_ready; [by rewrite Ht|done].
Qed.

Lemma inv_lock D p ts t h l :
  process_inv D p ts -> ts !! t = Some (Running h) -> takes p l -> l ∉ words p ->
  process_inv D (set_words ({[l]} ∪ words p) p) (<[t := Running ({[l]} ∪ h)]> ts).
Proof.
  intros [I1 I2 I3 I4 I5 I6] Ht Hk Hl. constructor; try done.
  - by eapply owners_take.
  - intros u h' [[_ [= <-]]|[_ Hu]]%lookup_insert_Some; [|by eapply I3]. specialize (I3 t h Ht). destruct l; [done|set_solver..].
  - rewrite (some_forking _ _ (Running h)) by done. apply I4.
  - rewrite some_ready by (by rewrite ?Ht). apply I5.
  - destruct I6 as (rs & R1 & R2 & R3). exists rs. split; [done|]. split; [done|]. intros r i [<-%elem_of_singleton|Hr]%elem_of_union; [|by apply R3].
    destruct Hk as (Hk & rs' & Hl' & Hr). split; [|done]. by rewrite (linked_head _ _ _ _ R1 Hl').
Qed.

Lemma inv_unlock D p ts t h l :
  process_inv D p ts -> ts !! t = Some (Running h) -> l ∈ h -> process_inv D (unlock l p) (<[t := Running (h ∖ {[l]})]> ts).
Proof.
  intros Hi Ht Hl. destruct (Hi) as [I1 I2 I3 I4 I5 I6]. constructor; try done.
  - by eapply owners_drop.
  - intros u h' [[_ [= <-]]|[_ Hu]]%lookup_insert_Some; [|by eapply I3]. specialize (I3 t h Ht). set_solver.
  - rewrite (some_forking _ _ (Running h)) by done. apply I4.
  - rewrite some_ready by (by rewrite ?Ht). apply I5.
  - eapply regions_shrink; [done|done|]. by intros r i [Hr _]%elem_of_difference.
Qed.

(** The handlers: a thread takes or drops a lock while it forks. *)
Lemma inv_prepare D p ts t :
  process_inv D p ts -> ts !! t = Some (Running ∅) -> BOOTSTRAP_LOCK ∉ words p ->
  process_inv D (set_guards true (TRIM_ATFORK_GUARD p) (set_words ({[BOOTSTRAP_LOCK]} ∪ words p) p)) (<[t := Preparing]> ts).
Proof.
  intros Hi Ht Hl. destruct (Hi) as [I1 I2 I3 I4 I5 I6]. constructor; try done.
  - eapply owners_take; [done|done|done|]. simpl. set_solver.
  - intros u h' [[_ ?]|[_ Hu]]%lookup_insert_Some; [done|by eapply I3].
  - split; [|done]. intros _. exists t, Preparing. by rewrite lookup_insert_eq.
  - rewrite some_ready by (by rewrite ?Ht). apply I5.
  - eapply regions_shrink; [done|done|]. simpl. set_solver.
Qed.

Lemma inv_ready D p ts t :
  process_inv D p ts -> ts !! t = Some Preparing -> GLOBAL_TRIM_LOCK ∉ words p ->
  process_inv D (set_guards (ATFORK_GUARD p) true (set_words ({[GLOBAL_TRIM_LOCK]} ∪ words p) p)) (<[t := ForkReady]> ts).
Proof.
  intros Hi Ht Hl. destruct (Hi) as [I1 I2 I3 I4 I5 I6]. constructor; try done.
  - eapply owners_take; [done|done|done|]. simpl. set_solver.
  - intros u h' [[_ ?]|[_ Hu]]%lookup_insert_Some; [done|by eapply I3].
  - rewrite (some_forking _ _ Preparing) by done. apply I4.
  - split; [|done]. intros _. exists t. by rewrite lookup_insert_eq.
  - eapply regions_shrink; [done|done|]. simpl. set_solver.
Qed.

Lemma drop_trim_words D p ts t : process_inv D p ts -> ts !! t = Some ForkReady -> drop_trim_guard p = unlock GLOBAL_TRIM_LOCK (set_guards true false p).
Proof.
  intros Hi Ht. unfold drop_trim_guard. assert (TRIM_ATFORK_GUARD p = true) as -> by (apply (pi_trim _ _ _ Hi); eauto).
  assert (ATFORK_GUARD p = true) as ->; [|done]. apply (pi_atfork _ _ _ Hi). by exists t, ForkReady.
Qed.

Lemma inv_parent_trim D p ts t : process_inv D p ts -> ts !! t = Some ForkReady -> process_inv D (drop_trim_guard p) (<[t := Resuming]> ts).
Proof.
  intros Hi Ht. rewrite (drop_trim_words _ _ _ _ Hi Ht). destruct (Hi) as [I1 I2 I3 I4 I5 I6]. constructor; try done.
  - eapply owners_drop; [done|done|simpl; set_solver|]. simpl. set_solver.
  - intros u h' [[_ ?]|[_ Hu]]%lookup_insert_Some; [done|by eapply I3].
  - split; [|done]. intros _. exists t, Resuming. by rewrite lookup_insert_eq.
  - split; [done|]. intros Hr. by destruct (only_ready _ _ _ _ _ Resuming Hi Ht I ltac:(done) Hr).
  - eapply regions_shrink; [done|done|]. simpl. set_solver.
Qed.

Lemma drop_atfork_words D p ts t : process_inv D p ts -> ts !! t = Some Resuming -> drop_atfork_guard p = unlock BOOTSTRAP_LOCK (set_guards false false p).
Proof.
  intros Hi Ht. unfold drop_atfork_guard. assert (ATFORK_GUARD p = true) as -> by (apply (pi_atfork _ _ _ Hi); by exists t, Resuming).
  destruct (TRIM_ATFORK_GUARD p) eqn:E; [|done]. apply (pi_trim _ _ _ Hi) in E as [u Hu].
  assert (t = u) as <- by (by eapply forking_one). congruence.
Qed.

Lemma inv_parent_atfork D p ts t : process_inv D p ts -> ts !! t = Some Resuming -> process_inv D (drop_atfork_guard p) (<[t := Running ∅]> ts).
Proof.
  intros Hi Ht. rewrite (drop_atfork_words _ _ _ _ Hi Ht). destruct (Hi) as [I1 I2 I3 I4 I5 I6]. constructor; try done.
  - eapply owners_drop; [done|done|simpl; set_solver|]. simpl. set_solver.
  - intros u h' [[_ [= <-]]|[_ Hu]]%lookup_insert_Some; [set_solver|by eapply I3].
  - split; [done|]. intros Hr. by destruct (only_forking _ _ _ _ _ (Running ∅) Hi Ht I ltac:(tauto) Hr).
  - split; [done|]. intros Hr. by destruct (only_ready _ _ _ _ _ (Running ∅) Hi Ht I ltac:(done) Hr).
  - eapply regions_shrink; [done|done|]. simpl. set_solver.
Qed.

Lemma process_step_inv D st st' : step st st' -> process_inv D st.1 st.2 -> process_inv D st'.1 st'.2.
Proof.
  destruct 1 as [p ts t Ht|p p' ts t h l Ht Hk Hl|p ts t h l Ht Hl|p p' ts H1 H2 H3 H4|p p' ts t Ht Hp|p p' ts t Ht Hp|p ts t Ht|p ts t Ht]; cbn [fst snd]; intros Hi.
  - by apply inv_spawn.
  - apply lock_some in Hl as [Hl ->]. by apply inv_lock.
  - by apply inv_unlock.
  - destruct Hi as [I1 I2 I3 I4 I5 I6]. constructor; rewrite ?H1, ?H2, ?H3; try done.
    destruct I6 as (rs & R1 & R2 & R3). destruct (H4 rs R1 R2) as (rs' & R1' & R2' & Hs). exists rs'. split; [done|]. split; [done|].
    intros r i Hr. destruct (R3 r i Hr). auto.
  - unfold fork_prepare_bootstrap in Hp. destruct (lock _ p) as [p1|] eqn:E; [|done]. apply lock_some in E as [Hl ->]. injection Hp as <-. by apply inv_prepare.
  - unfold fork_prepare_trim in Hp. destruct (lock _ p) as [p1|] eqn:E; [|done]. apply lock_some in E as [Hl ->]. injection Hp as <-. by apply inv_ready.
  - by apply inv_parent_trim.
  - by apply inv_parent_atfork.
Qed.

(** ** The child *)

Lemma set_words_twice w w' p : set_words w (set_words w' p) = set_words w p.
Proof. done. Qed.

Lemma reset_order_locks_spec n r i p :
  exists w, reset_order_locks n r i p = set_words w p /\ forall l, l ∈ w <-> l ∈ words p /\ ~ exists j, i <= j < i + Z.of_nat n /\ l = OrderLock r j.
Proof.
  revert i p. induction n as [|n IH]; intros i p; cbn [reset_order_locks].
  - exists (words p). split; [by destruct p|]. intros l. split; [|tauto]. intros Hl. split; [done|]. intros (j & Hj & _). lia.
  - destruct (IH (i + 1) (reset_at_fork (OrderLock r i) p)) as (w & -> & Hw). exists w. split; [done|]. intros l. rewrite Hw. cbn. rewrite elem_of_difference, elem_of_singleton. split.
    + intros ((Hl & Hne) & Hno). split; [done|]. intros (j & Hj & ->). destruct (decide (j = i)) as [->|Hji]; [done|]. apply Hno. exists j. split; [lia|done].
    + intros (Hl & Hno). split; [split; [done|]; intros ->; apply Hno; exists i; split; [lia|done]|]. intros (j & Hj & ->). apply Hno. exists j. split; [lia|done].
Qed.

(** The walk over the regions ends and resets every order lock of each. *)
Lemma reset_regions_spec fuel h rs p :
  linked (BUDDY_BACKEND p) h rs -> (length rs < fuel)%nat ->
  exists w, reset_regions fuel h p = Ret (set_words w p) /\
    forall l, l ∈ w <-> l ∈ words p /\ ~ exists r j, r ∈ rs.*1 /\ 0 <= j < BUDDY_NUM_ORDERS /\ l = OrderLock r j.
Proof.
  revert fuel h p. induction rs as [|[r bt] rs IH]; intros [|fuel] h p Hl Hf; [cbn in Hf; lia| |cbn in Hf; lia|]; cbn [reset_regions].
  - cbn in Hl. subst h. exists (words p). split; [by destruct p|]. intros l. split; [|tauto]. intros Hw. split; [done|]. by intros (r & j & ?%elem_of_nil & _).
  - destruct Hl as (-> & Hn & x & Hx & Hl). destruct (Z.eqb_spec r null) as [|_]; [done|]. unfold get_region. rewrite Hx. cbn [mbind outcome_bind from_option].
    destruct (reset_order_locks_spec (Z.to_nat BUDDY_NUM_ORDERS) r 0 p) as (w1 & -> & Hw1).
    destruct (IH fuel (r_next x) (set_words w1 p) Hl ltac:(cbn in Hf; lia)) as (w & -> & Hw). exists w. split; [done|]. intros l. rewrite Hw. cbn [words set_words]. rewrite Hw1, fmap_cons.
    setoid_rewrite elem_of_cons. split.
    + intros ((Hp & H1) & H2). split; [done|]. intros (r' & j & [->|Hr] & Hj & ->); [apply H1; exists j; split; [lia|done]|apply H2; eauto].
    + intros (Hp & H1). split; [split; [done|]|]; [intros (j & Hj & ->)|intros (r' & j & Hr & Hj & ->)]; apply H1; [exists r, j|exists r', j]; split; [by left|split; [lia|done]|by right|done].
Qed.

(** What [fork_child] leaves: the locks of the page allocator and of the queue. *)
Lemma fork_child_spec D p ts t rseq_size rseq_offset :
  process_inv D p ts -> ts !! t = Some ForkReady -> rseq_size <> 0 -> rseq_offset <> 0 ->
  exists w, (forall l, l ∈ w <-> l ∈ words p /\ data_lock l) /\
    fork_child rseq_size rseq_offset p = Ret (mkProcess w false false (OnceLock.reset_at_fork (FREE_FALLBACK p)) (OnceLock.reset_at_fork (REALLOC_FALLBACK p))
      (OnceLock.reset_at_fork (MUS_FALLBACK p)) false (BUDDY_BACKEND p)).
Proof.
  intros Hi Ht Hs Ho. destruct (pi_regions _ _ _ Hi) as (rs & R1 & R2 & R3). unfold fork_child. cbv zeta. rewrite (drop_trim_words _ _ _ _ Hi Ht).
  set (p1 := reset_at_fork BuddySpin (fallback_reinit_on_fork (drop_atfork_guard (unlock GLOBAL_TRIM_LOCK (set_guards true false p))))).
  destruct (reset_regions_spec (S (size (bd_region_mem (BUDDY_BACKEND p)))) (bd_regions (BUDDY_BACKEND p)) rs p1 R1) as (w & Hw & Hl).
  { pose proof (linked_fuel _ _ _ R1 R2). lia. }
  unfold reset_locks_on_fork. fold p1. change (BUDDY_BACKEND (fallback_reinit_on_fork _)) with (BUDDY_BACKEND p). rewrite Hw. cbn [mbind outcome_bind].
  destruct (Z.eqb_spec rseq_size 0) as [|_]; [done|]. destruct (Z.eqb_spec rseq_offset 0) as [|_]; [done|]. cbn [orb].
  eexists. split; [|reflexivity]. intros l. cbn -[BUDDY_NUM_ORDERS]. rewrite !elem_of_difference, !elem_of_singleton, Hl. cbn -[BUDDY_NUM_ORDERS]. rewrite !elem_of_difference, !elem_of_singleton.
  split; [|intros [Hp Hd]; destruct l; try done; split_and!; try done; by intros (? & ? & ? & ? & ?)].
  intros ((((((Hp & H1) & H2) & H3) & H4) & H5) & H6). split; [done|]. destruct l as [| | | |r i|n|n c]; try done. destruct H4. exists r, i. by destruct (R3 r i Hp).
Qed.

Lemma fork_child_rseq p c rseq_size rseq_offset : fork_child rseq_size rseq_offset p = Ret c -> rseq_size <> 0 /\ rseq_offset <> 0.
Proof.
  unfold fork_child. destruct (reset_locks_on_fork _); [|done|done]. cbn [mbind outcome_bind]. cbv zeta.
  destruct (Z.eqb_spec rseq_size 0), (Z.eqb_spec rseq_offset 0); done.
Qed.

(** In the child the locks left set belong to no thread. *)
Lemma child_inv D p ts t c rseq_size rseq_offset :
  process_inv D p ts -> ts !! t = Some ForkReady -> fork_child rseq_size rseq_offset p = Ret c -> process_inv (words c) c {[t := Running ∅]}.
Proof.
  intros Hi Ht Hc. pose proof (fork_child_rseq _ _ _ _ Hc) as Hr.
  destruct (fork_child_spec _ _ _ _ _ _ Hi Ht (proj1 Hr) (proj2 Hr)) as (w & Hw & Hc'). rewrite Hc' in Hc. injection Hc as <-.
  assert (Hno : forall (u : nat) q l, ({[t := Running ∅]} : threads) !! u = Some q -> l ∈ holds q -> False) by (intros u q l [_ <-]%lookup_singleton_Some; simpl; set_solver).
  constructor; cbn [words ATFORK_GUARD TRIM_ATFORK_GUARD BUDDY_BACKEND].
  - constructor; [|by intros u q l Hu Hl; destruct (Hno u q l)|by intros u u' q q' l Hu _ Hl; destruct (Hno u q l)]. intros l. split; [by left|]. intros [?|(u & q & Hu & Hl)]; [done|by destruct (Hno u q l)].
  - intros l Hl. by apply Hw in Hl as [_ ?].
  - intros u h [_ [= <-]]%lookup_singleton_Some. set_solver.
  - split; [done|]. by intros (u & q & [_ <-]%lookup_singleton_Some & Hq).
  - split; [done|]. by intros (u & [_ ?]%lookup_singleton_Some).
  - apply (regions_shrink _ p (set_words w p) _ Hi eq_refl). intros r i Hl. by apply Hw in Hl as [_ ?].
Qed.

Lemma reachable_inv rseq_size rseq_offset p ts : reachable rseq_size rseq_offset p ts -> exists D, process_inv D p ts.
Proof.
  induction 1 as [p rs H1 H2 H3 H4 H5|p ts p' ts' _ [D IH] Hs|p ts t c _ [D IH] Ht Hc].
  - exists ∅. assert (Hno : forall (u : nat) q, ({[0%nat := Running ∅]} : threads) !! u = Some q -> q = Running ∅) by (by intros u q [_ <-]%lookup_singleton_Some).
    constructor; rewrite ?H1, ?H2, ?H3.
    + constructor; [intros l; split; [set_solver|intros [?|(u & q & ->%Hno & ?)]; set_solver]|set_solver|]. intros u u' q q' l ->%Hno ->%Hno. simpl. set_solver.
    + set_solver.
    + intros u h [= ->]%Hno. set_solver.
    + split; [done|]. by intros (u & q & ->%Hno & ?).
    + split; [done|]. by intros (u & ?%Hno).
    + exists rs. set_solver.
  - exists D. by apply (process_step_inv D (p, ts) (p', ts')).
  - exists (words c). by eapply child_inv.
Qed.

(** The other way to see the steps of [fork_prepare]: they are its two locks. *)
Lemma fork_prepare_steps p p' ts t :
  ts !! t = Some (Running ∅) -> fork_prepare p = Some p' -> rtc step (p, ts) (p', <[t := ForkReady]> ts).
Proof.
  intros Ht Hp. unfold fork_prepare in Hp. destruct (fork_prepare_bootstrap p) as [p1|] eqn:E1; [|done]. cbn [mbind option_bind] in Hp.
  eapply rtc_l; [by eapply step_prepare|]. rewrite <- (insert_insert_eq ts t ForkReady Preparing). apply rtc_once. eapply step_ready; [by rewrite lookup_insert_eq|done].
Qed.

Lemma reachable_steps rseq_size rseq_offset p ts p' ts' :
  reachable rseq_size rseq_offset p ts -> rtc step (p, ts) (p', ts') -> reachable rseq_size rseq_offset p' ts'.
Proof.
  intros Hr Hs. apply (rtc_invariant step (fun st => reachable rseq_size rseq_offset st.1 st.2) (p, ts) (p', ts')); [|done|done].
  intros [p1 ts1] [p2 ts2] H1 H2. by eapply reach_step.
Qed.

(** A process whose thread 1 is in the page allocator and in a free list of the
    buddy allocator while thread 0 forks. *)
Definition demo_process : process :=
  let cell := OnceLock.mkCell 2 (Some 4096) in
  mkProcess ∅ false false cell cell cell true (mkBuddy 4096 22 false true 0 {[4096 := BuddyRegion_empty]} ∅ ∅).

Definition demo_held : gset lock_id := {[OrderLock 4096 2]} ∪ ({[ArenaLock 0]} ∪ ∅).

Definition demo_forking : process :=
  set_guards true true (set_words ({[GLOBAL_TRIM_LOCK]} ∪ ({[BOOTSTRAP_LOCK]} ∪ demo_held)) demo_process).

Definition demo_threads : threads := <[0%nat := ForkReady]> (<[1%nat := Running demo_held]> {[0%nat := Running ∅]}).

Lemma demo_linked : linked (BUDDY_BACKEND demo_process) 4096 [(4096, (0, 0))].
Proof. repeat split; [done|]. exists BuddyRegion_empty. by repeat split. Qed.

Lemma demo_reachable : reachable 32 (-64) demo_forking demo_threads.
Proof.
  pose proof (reach_start 32 (-64) demo_process [(4096, (0, 0))] eq_refl eq_refl eq_refl demo_linked ltac:(apply NoDup_singleton)) as H0.
  apply (reachable_steps _ _ _ _ _ _ H0). eapply rtc_l; [by apply (step_spawn _ _ 1%nat)|].
  eapply rtc_l; [eapply (step_lock _ _ _ 1%nat ∅ (ArenaLock 0)); [done|done|by apply lock_some]|]. rewrite insert_insert_eq.
  eapply rtc_l; [eapply (step_lock _ _ _ 1%nat _ (OrderLock 4096 2)); [by rewrite lookup_insert_eq| |by apply lock_some]|].
  { split; [done|]. exists [(4096, (0, 0))]. split; [exact demo_linked|]. by left. }
  rewrite insert_insert_eq. fold demo_held. apply fork_prepare_steps; [by rewrite lookup_insert_ne|]. vm_compute. reflexivity.
Qed.

(** ** What the handlers promise *)

(** C10. Fork.  Take any process that the allocator leads to, its threads interleaved at
    the locks, and children of forks included, and a thread that is about to fork.
    It is the only one that forks.  [fork_child] returns (the walk over the regions
    ends), and in the child the words of the bootstrap lock, of the global trim
    lock, of the buddy's list, of every order lock of every region and of the
    big-allocation map are clear, whoever held them; the words still set are those
    of the page allocator and of the pending queue that were set at the fork.  Both
    guards are gone, the trimmer may be started again, and the first use of each
    cell looks its function up anew.  In the parent exactly the two locks of
    [fork_prepare] are released. *)
Theorem fork_child_unlocks rseq_size rseq_offset p (ts : threads) (t : nat) :
  reachable rseq_size rseq_offset p ts -> ts !! t = Some ForkReady -> rseq_size <> 0 -> rseq_offset <> 0 ->
  (forall u q, ts !! u = Some q -> forking q -> u = t) /\
  (exists c, fork_child rseq_size rseq_offset p = Ret c /\ (forall l, l ∈ words c <-> l ∈ words p /\ data_lock l) /\
    ATFORK_GUARD c = false /\ TRIM_ATFORK_GUARD c = false /\ BUDDY_BACKEND c = BUDDY_BACKEND p /\
    TRIM_GUARD c = false /\
    (forall f u, Forall (fun cell => (OnceLock.run_thread f 7 u cell OnceLock.Entry).2 = OnceLock.Returned (Some (f u))) [FREE_FALLBACK c; REALLOC_FALLBACK c; MUS_FALLBACK c])) /\
  (forall l, l ∈ words (fork_parent p) <-> l ∈ words p /\ l <> BOOTSTRAP_LOCK /\ l <> GLOBAL_TRIM_LOCK) /\
  ATFORK_GUARD (fork_parent p) = false /\ TRIM_ATFORK_GUARD (fork_parent p) = false.
Proof.
  intros Hr Ht Hs Ho. destruct (reachable_inv _ _ _ _ Hr) as [D Hi]. split; [intros u q Hu Hq; by eapply forking_one|]. split.
  - destruct (fork_child_spec _ _ _ _ _ _ Hi Ht Hs Ho) as (w & Hw & Hc). eexists. split; [exact Hc|]. split; [done|]. do 4 (split; [done|]).
    intros f u. by repeat constructor; rewrite OnceLock.reset_runs_closure.
  - unfold fork_parent. rewrite (drop_trim_words _ _ _ _ Hi Ht). split; [|done]. intros l. cbn. set_solver.
Qed.

Lemma fork_child_unlocks_witness :
  exists c, fork_child 32 (-64) demo_forking = Ret c /\ OrderLock 4096 2 ∈ words demo_forking /\ OrderLock 4096 2 ∉ words c /\ BOOTSTRAP_LOCK ∉ words c.
Proof.
  destruct (fork_child_unlocks 32 (-64) demo_forking demo_threads 0%nat demo_reachable eq_refl ltac:(done) ltac:(done)) as (_ & (c & Hc & Hw & _) & _).
  exists c. split; [exact Hc|]. split; [unfold demo_forking, demo_held; set_solver|]. split; intros Hl; by apply Hw in Hl as [_ ?].
Defined.

(** C40. A lock that the child inherits.  The handlers neither take nor reset the locks
    of the page allocator's nodes and of the pending queue's slots.  Whenever a thread
    forks while such a lock is set, [fork_child] returns with the lock set in the
    child; and whatever the child's threads do from then on, it stays set, and every
    attempt to take it fails. *)
Theorem inherited_lock_never_freed rseq_size rseq_offset p (ts : threads) (t : nat) l :
  reachable rseq_size rseq_offset p ts -> ts !! t = Some ForkReady -> rseq_size <> 0 -> rseq_offset <> 0 -> data_lock l -> l ∈ words p ->
  exists c, fork_child rseq_size rseq_offset p = Ret c /\ l ∈ words c /\
    forall c' ts', rtc step (c, {[t := Running ∅]}) (c', ts') -> l ∈ words c' /\ lock l c' = None.
Proof.
  intros Hr Ht Hs Ho Hd Hl. destruct (reachable_inv _ _ _ _ Hr) as [D Hi]. destruct (fork_child_spec _ _ _ _ _ _ Hi Ht Hs Ho) as (w & Hw & Hc). eexists. split; [exact Hc|].
  pose proof (child_inv _ _ _ _ _ _ _ Hi Ht Hc) as Hci. set (c := mkProcess _ _ _ _ _ _ _ _) in *. assert (Hlc : l ∈ words c) by (by apply Hw). split; [done|]. intros c' ts' Hrun.
  pose proof (rtc_invariant step (fun st => process_inv (words c) st.1 st.2) _ (c', ts') (process_step_inv (words c)) Hrun Hci) as Hci'.
  assert (Hw' : l ∈ words c') by (apply (ow_word _ _ _ (pi_owners _ _ _ Hci')); by left). split; [done|]. destruct (lock l c') eqn:E; [|done]. by apply lock_some in E as [? _].
Qed.

Lemma inherited_lock_never_freed_witness :
  exists c, fork_child 32 (-64) demo_forking = Ret c /\ ArenaLock 0 ∈ words c /\ lock (ArenaLock 0) c = None.
Proof.
  destruct (inherited_lock_never_freed 32 (-64) demo_forking demo_threads 0%nat (ArenaLock 0) demo_reachable eq_refl ltac:(done) ltac:(done) I ltac:(vm_compute; reflexivity)) as (c & Hc & H1 & H2).
  exists c. split; [exact Hc|]. split; [exact H1|]. apply (H2 c {[0%nat := Running ∅]}). reflexivity.
Defined.
