(* ===== verification/Preload.v ===== *)
(** * The C interface of a preloaded process (src/abi, src/inner/fallback.rs and the
      [preload] branches of src/inner)

    The first allocation sets the allocator up from the environment.  A pointer
    that the ownership map does not know came from the allocator that was loaded
    before: its functions are looked up once with [dlsym] and called.  That
    allocator is code of the process outside this one, so it is a parameter; its
    lookup does not call back. *)

From Stdlib Require Import String.
From S2P Require Import Prelude Types SizeClasses Kernel Radix RBTree Heap BulkFill Alloc Random GlobalAlloc Realloc Sync Bootstrap.

(** The next allocator, with a state of its own: where [dlsym] finds a symbol,
    null when it does not, and what the functions at an address do. *)
Class NextAllocator (N : Type) := {
  dlsym : string -> Z;
  next_free : Z -> Z -> N -> N;
  next_realloc : Z -> Z -> Z -> N -> Z * N;
  next_usable_size : Z -> Z -> N -> Z;
}.

Section Preload.
Context {K : Type} `{!Kernel K} {N : Type} `{!NextAllocator N} (environ : list (list Z)) (mach : machine).

(** The process: before the first allocation only the kernel, then the allocator;
    the thread-local state and [errno] of its threads; the bytes of the payloads;
    the three cells; the next allocator. *)
Record cstate := mkC {
  c_proc : K + globals * heap K;
  c_tls : gmap nat tls;
  c_errno : gmap nat errno;
  c_bytes : bytes;
  FREE_FALLBACK : OnceLock.cell (T := Z);
  REALLOC_FALLBACK : OnceLock.cell (T := Z);
  MUS_FALLBACK : OnceLock.cell (T := Z);
  c_next : N;
}.
Implicit Types (st : cstate) (t : nat) (e : env).

Definition set_proc st (p : K + globals * heap K) : cstate :=
  mkC p (c_tls st) (c_errno st) (c_bytes st) (FREE_FALLBACK st) (REALLOC_FALLBACK st) (MUS_FALLBACK st) (c_next st).

Definition set_heap st t (g : globals) (th : tls) (h : heap K) (m : bytes) : cstate :=
  mkC (inr (g, h)) (<[t := th]> (c_tls st)) (c_errno st) m (FREE_FALLBACK st) (REALLOC_FALLBACK st) (MUS_FALLBACK st) (c_next st).

Definition set_errno st t (n : errno) : cstate :=
  mkC (c_proc st) (c_tls st) (<[t := n]> (c_errno st)) (c_bytes st) (FREE_FALLBACK st) (REALLOC_FALLBACK st) (MUS_FALLBACK st) (c_next st).

Definition set_nomem st t : cstate := set_errno st t ENOMEM.

Definition get_tls st t : tls := default tls_new (c_tls st !! t).

(** ** The next allocator's functions *)

(** Seven steps of a thread alone are a whole call of [get_or_init]. *)
Definition get_symbol (name : string) (init : OnceLock.cell) : outcome (Z * OnceLock.cell) :=
  match OnceLock.run_thread (fun _ => dlsym name) 7 0 init OnceLock.Entry with
  | (init, OnceLock.Returned (Some sym)) => Ret (sym, init)
  | _ => Stuck
  end.

Definition free_fallback st (ptr : Z) : outcome cstate :=
  if ptr =? null then Ret st
  else
    '(sym, cell) ← get_symbol "free" (FREE_FALLBACK st);
    let st := mkC (c_proc st) (c_tls st) (c_errno st) (c_bytes st) cell (REALLOC_FALLBACK st) (MUS_FALLBACK st) (c_next st) in
    if sym =? null then Ret st
    else Ret (mkC (c_proc st) (c_tls st) (c_errno st) (c_bytes st) cell (REALLOC_FALLBACK st) (MUS_FALLBACK st) (next_free sym ptr (c_next st))).

Definition realloc_fallback st (ptr size : Z) : outcome (Z * cstate) :=
  '(sym, cell) ← get_symbol "realloc" (REALLOC_FALLBACK st);
  let st := mkC (c_proc st) (c_tls st) (c_errno st) (c_bytes st) (FREE_FALLBACK st) cell (MUS_FALLBACK st) (c_next st) in
  if sym =? null then Ret (null, st)
  else
    let '(p, n) := next_realloc sym ptr size (c_next st) in
    Ret (p, mkC (c_proc st) (c_tls st) (c_errno st) (c_bytes st) (FREE_FALLBACK st) cell (MUS_FALLBACK st) n).

Definition malloc_usable_size_fallback st (ptr : Z) : outcome (Z * cstate) :=
  if ptr =? null then Ret (0, st)
  else
    '(sym, cell) ← get_symbol "malloc_usable_size" (MUS_FALLBACK st);
    let st := mkC (c_proc st) (c_tls st) (c_errno st) (c_bytes st) (FREE_FALLBACK st) (REALLOC_FALLBACK st) cell (c_next st) in
    if sym =? null then Ret (0, st) else Ret (next_usable_size sym ptr (c_next st), st).

(** ** The allocator *)

(** [ONCE.call_once(|| bootstrap())] *)
Definition call_once st : outcome (globals * heap K * cstate) :=
  match c_proc st with
  | inr (g, h) => Ret (g, h, st)
  | inl k => '(g, h) ← bootstrap environ mach k; Ret (g, h, set_proc st (inr (g, h)))
  end.

(** [RADIX.is_owned]: the map is empty before [bootstrap]. *)
Definition is_owned st (ptr : Z) : outcome bool :=
  match c_proc st with inl _ => Ret false | inr (_, h) => Radix.is_owned (hp_radix h) ptr end.

Definition fits_class (size : Z) : bool := if match_size_class size then true else false.

(** Only the refill of a class sets [errno]. *)
Definition rs_alloc st t e (size : Z) (aligned : bool) : outcome (Z * cstate) :=
  '(g, h, st) ← call_once st;
  '(p, th, h) ← Alloc.rs_alloc (g_config g) (get_tls st t) h e size aligned;
  let st := set_heap st t g th h (c_bytes st) in
  Ret (p, if fits_class size && (p =? null) then set_nomem st t else st).

Definition rs_free st e (ptr : Z) : outcome cstate :=
  if ptr =? null then Ret st
  else
    owned ← is_owned st ptr;
    if negb owned then free_fallback st ptr
    else
      match c_proc st with
      | inl _ => Ret st
      | inr (g, h) => h ← Alloc.rs_free (g_config g) h e ptr; Ret (set_proc st (inr (g, h)))
      end.

Definition usable_size st (ptr : Z) : outcome (Z * cstate) :=
  owned ← is_owned st ptr;
  match c_proc st with
  | inr (g, h) => if owned : bool then n ← Alloc.usable_size (g_config g) h ptr; Ret (n, st) else malloc_usable_size_fallback st ptr
  | inl _ => malloc_usable_size_fallback st ptr
  end.

Definition rs_calloc st t e (size zero_size : Z) : outcome (Z * cstate) :=
  match layout_array size with
  | None => Ret (null, set_nomem st t)
  | Some layout =>
      match checked_mul zero_size layout with
      | None => Ret (null, set_nomem st t)
      | Some total_size =>
          '(g, h, st) ← call_once st;
          '(p, th, h, m) ← Realloc.rs_calloc (g_config g) (get_tls st t) h e (c_bytes st) size zero_size;
          let st := set_heap st t g th h m in
          Ret (p, if fits_class (Z.max total_size 1) && (p =? null) then set_nomem st t else st)
      end
  end.

Definition posix_align_inner st t e (alignment size : Z) : outcome ((Z + errno) * cstate) :=
  if (alignment <? 8) || negb (is_power_of_two alignment) then Ret (inr EINVAL, st)
  else
    match (v ← checked_add size alignment; checked_add v TAG_SIZE) with
    | None => Ret (inr ENOMEM, st)
    | Some total_requested =>
        '(g, h, st) ← call_once st;
        '(r, th, h) ← Alloc.posix_align_inner (g_config g) (get_tls st t) h e alignment size;
        let st := set_heap st t g th h (c_bytes st) in
        Ret (r, match r with inr _ => if fits_class total_requested then set_nomem st t else st | inl _ => st end)
    end.

Definition memalign_inner st t e (alignment size : Z) : outcome (Z * cstate) :=
  let adjusted_alignment := Z.max alignment 8 in
  if negb (is_power_of_two adjusted_alignment) then Ret (null, set_errno st t EINVAL)
  else
    '(success, st) ← posix_align_inner st t e adjusted_alignment size;
    match success with inl ptr => Ret (ptr, st) | inr n => Ret (null, set_errno st t n) end.

(** Whether a resize that fails went through a call that sets [errno]: of
    [memalign_inner], or of [rs_alloc] for a size class. *)
Definition resize_sets_nomem (cfg : config) (h : heap K) (ptr new_size : Z) : outcome bool :=
  searched ← find_original_ptr cfg h ptr;
  if negb (searched =? ptr) then Ret true
  else
    x ← get_header h (get_actual_header searched);
    if h_magic x =? BIG_MAGIC cfg then
      meta ← RBTree.get (hp_big h) searched;
      Ret (match meta with Some _ => fits_class new_size | None => false end)
    else Ret (fits_class new_size).

Definition rs_realloc st t e (ptr new_size : Z) : outcome (Z * cstate) :=
  if ptr =? null then rs_alloc st t e (Z.max new_size 1) false
  else if new_size =? 0 then st ← rs_free st e ptr; Ret (null, st)
  else
    owned ← is_owned st ptr;
    match c_proc st with
    | inr (g, h) =>
        if owned : bool then
          '(p, th, h', m) ← Realloc.rs_realloc (g_config g) (get_tls st t) h e (c_bytes st) ptr new_size;
          nomem ← resize_sets_nomem (g_config g) h ptr new_size;
          let st := set_heap st t g th h' m in
          Ret (p, if (p =? null) && nomem then set_nomem st t else st)
        else realloc_fallback st ptr new_size
    | inl _ => realloc_fallback st ptr new_size
    end.

(** ** The C functions *)

Definition malloc st t e (size : Z) := rs_alloc st t e size false.
Definition calloc st t e (nmemb size : Z) := rs_calloc st t e size nmemb.
Definition free st e (ptr : Z) := rs_free st e ptr.
Definition free_sized st e (ptr size : Z) := free st e ptr.
Definition free_aligned_sized st e (ptr alignment size : Z) := free st e ptr.
Definition realloc st t e (ptr new_size : Z) := rs_realloc st t e ptr new_size.
Definition malloc_usable_size st (ptr : Z) := usable_size st ptr.
Definition posix_memalign st t e (memptr alignment size : Z) : outcome ((Z + errno) * cstate) :=
  if memptr =? null then Ret (inr EINVAL, st) else posix_align_inner st t e alignment size.
Definition memalign st t e (alignment size : Z) := memalign_inner st t e alignment size.

Definition aligned_alloc st t e (alignment size : Z) : outcome (Z * cstate) :=
  if (alignment =? 0) || negb (is_power_of_two alignment) || negb (size mod alignment =? 0) then Ret (null, set_errno st t EINVAL)
  else memalign st t e alignment size.

Definition valloc st t e (size : Z) := memalign st t e 4096 size.

Definition pvalloc st t e (size : Z) : outcome (Z * cstate) :=
  if size =? 0 then memalign st t e 4096 4096
  else match checked_add size 4095 with None => Ret (null, st) | Some v => memalign st t e 4096 (Z.land v (wnot 64 4095)) end.

Definition reallocarray st t e (ptr nmemb size : Z) : outcome (Z * cstate) :=
  match checked_mul nmemb size with None => Ret (null, set_nomem st t) | Some total_size => realloc st t e ptr total_size end.

Definition recallocarray st t e (ptr oldnmemb newnmemb size : Z) : outcome (Z * cstate) :=
  if ptr =? null then rs_calloc st t e size newnmemb
  else
    match checked_mul newnmemb size with
    | None => Ret (null, set_nomem st t)
    | Some new_size =>
        let old_size := default 0 (checked_mul oldnmemb size) in
        if new_size <=? old_size then realloc st t e ptr new_size
        else
          '(new_ptr, st) ← realloc st t e ptr new_size;
          Ret (new_ptr, if negb (new_ptr =? null) then
                 mkC (c_proc st) (c_tls st) (c_errno st) (zero (c_bytes st) (wadd new_ptr old_size) (new_size - old_size)) (FREE_FALLBACK st) (REALLOC_FALLBACK st) (MUS_FALLBACK st) (c_next st)
               else st)
    end.

(** A [malloc] beyond the size classes that fails leaves [errno] as it was. *)
Lemma call_once_errno st g h st' : call_once st = Ret (g, h, st') -> c_errno st' = c_errno st.
Proof.
  unfold call_once. destruct (c_proc st) as [k|[g' h']]; [|by intros [= _ _ <-]]. destruct (bootstrap environ mach k) as [[g' h']|er|]; [|done|done]. by intros [= _ _ <-].
Qed.

Lemma big_malloc_keeps_errno st t e size st' : match_size_class size = None -> malloc st t e size = Ret (null, st') -> c_errno st' = c_errno st.
Proof.
  intros Hs. unfold malloc, rs_alloc, fits_class. destruct (call_once st) as [[[g h] st1]|er|] eqn:E; [|done|done]. apply call_once_errno in E. cbn [mbind outcome_bind].
  destruct (Alloc.rs_alloc _ _ _ _ _ _) as [[[p th] h']|er|]; [|done|done]. cbn [mbind outcome_bind]. rewrite Hs. cbn [andb]. by intros [= _ <-].
Qed.
End Preload.
Arguments cstate : clear implicits.
