(* ===== verification/PreloadProps.v ===== *)
(** * What the C interface promises in a preloaded process

    From the start of the process on, the calls keep the heap of the allocator safe,
    and every pointer of the next allocator is handed to it. *)

From Stdlib Require Import String.
From S2P Require Import Prelude Types SizeClasses Kernel Radix RadixProofs RBTree Buddy BuddyGrow PageAllocator PageProofs PageSpec Numa NumaSpec Predictor SList PendingQueue Rseq Bitmap SlabCache SlabProofs SlabSteal SlabSpec Heap BulkFill Alloc HeapFrame HeapInv HeapFill HeapOps Random GlobalAlloc Trim TrimProofs Realloc ReallocProofs HeapLive HeapStart HeapResize HeapSpec HeapView BigInv BigOps BigAlloc HeapFull FullResize FullTrim FullSpec HeapProps Sync Bootstrap Preload.

Section PreloadProps.
Context {K : Type} `{!Kernel K} `{!KernelSpec K} {N : Type} `{!NextAllocator N} (environ : list (list Z)) (mach : machine).
Implicit Types (st : cstate K N) (V : gmap Z (Z * Z)) (t : nat) (e : env).

Abbreviation cpus := (get_max_cpu (get_nprocs_conf mach)).

(** ** The cells *)

Definition cell_ok (name : string) (c : OnceLock.cell) : Prop :=
  OnceLock.state c = 0 \/ OnceLock.state c = 2 /\ OnceLock.value c = Some (dlsym name).

Lemma get_symbol_ok name c : cell_ok name c -> exists c', get_symbol name c = Ret (dlsym name, c') /\ cell_ok name c'.
Proof.
  intros Hc. unfold get_symbol. destruct c as [s v]. destruct Hc as [Hs|[Hs Hv]]; cbn in Hs.
  - subst s. exists (OnceLock.mkCell 2 (Some (dlsym name))). split; [done|]. by right.
  - cbn in Hv. subst s v. exists (OnceLock.mkCell 2 (Some (dlsym name))). split; [done|]. by right.
Qed.

(** ** The invariant *)

Record globals_ok (g : globals) : Prop := {
  go_arena : 0 <= ARENA_SIZE (g_config g) <= 2 ^ 62;
  go_tag : 2 ^ 56 <= ALIGN_TAG (g_config g);
  go_big : MAGIC (g_config g) <> BIG_MAGIC (g_config g);
  go_freed : FREED_MAGIC (g_config g) <> BIG_MAGIC (g_config g);
}.

Record c_inv st V : Prop := {
  ci_proc : match c_proc st with inl _ => V = ∅ | inr (g, h) => globals_ok g /\ full_ok (g_config g) cpus h (c_tls st) V end;
  ci_start : forall k, c_proc st = inl k -> c_tls st = ∅ /\ mapped k VSYSCALL;
  ci_free : cell_ok "free" (FREE_FALLBACK st);
  ci_realloc : cell_ok "realloc" (REALLOC_FALLBACK st);
  ci_mus : cell_ok "malloc_usable_size" (MUS_FALLBACK st);
}.

(** The process sets itself up with room for arenas and a tag above the addresses. *)
Definition environ_ok : Prop :=
  machine_ok mach /\ env_or environ "RS_ARENA_SIZE" (1024 * 1024 * 256) <= 2 ^ 62 /\
  forall k g h, bootstrap environ mach k = Ret (g, h) -> 2 ^ 56 <= ALIGN_TAG (g_config g).

(** Why a call may not return. *)
Definition start_error (er : RSMallocError) : Prop :=
  er = RSEQRegFailed \/ er = VAIinitFailed \/ er = OutOfMemory \/ er = SecurityViolation.

Lemma kernel_error er : er = VAIinitFailed \/ er = OutOfMemory -> start_error er.
Proof. unfold start_error. tauto. Qed.

Definition draws_random : Prop := env_or environ "RS_DISABLE_RANDOMIZING" 0 = 0.

Lemma bootstrap_arena k g h : bootstrap environ mach k = Ret (g, h) -> ARENA_SIZE (g_config g) = Z.max (env_or environ "RS_ARENA_SIZE" (1024 * 1024 * 256)) (256 * 1024).
Proof.
  unfold bootstrap. destruct (_ || _); [done|]. cbv zeta. destruct (init_heap _ _ _ _ _); [|done|done]. cbn [mbind outcome_bind].
  destruct (init_tags _ _) as [[[[? ?] ?] ?]|?|]; [|done|done]. cbn [mbind outcome_bind]. by intros [= <- _].
Qed.

(** Entering the allocator on thread [t]. *)
Lemma call_once_ok st V t : environ_ok -> c_inv st V ->
  match call_once environ mach st with
  | Ret (g, h, st') => globals_ok g /\ full_ok (g_config g) cpus h (<[t := get_tls st' t]> (c_tls st')) V /\ c_inv st' V /\ c_proc st' = inr (g, h) /\
      c_next st' = c_next st /\ c_errno st' = c_errno st /\ c_bytes st' = c_bytes st /\ c_tls st' = c_tls st
  | Fatal er => start_error er
  | Stuck => draws_random /\ exists k, c_proc st = inl k
  end.
Proof.
  intros (Hm & Ha & Ht) Hi. assert (Hth : forall cfg h ts, full_ok cfg cpus h ts V -> full_ok cfg cpus h (<[t := default tls_new (ts !! t)]> ts) V).
  { intros cfg h ts Hok. destruct (ts !! t) as [th|] eqn:E; cbn; [by rewrite insert_id|]. eapply full_kept; [exact Hok|]. intros S1 Fr Vs Hs. by apply start_live. }
  unfold call_once. destruct (c_proc st) as [k|[g h]] eqn:E.
  - destruct (ci_start _ _ Hi k E) as [Hts Hv]. pose proof (bootstrap_ok environ mach k Hm Hv) as Hb. destruct (bootstrap environ mach k) as [[g h]|er|] eqn:Eb; cbn [mbind outcome_bind]; [|done|by eauto].
    destruct Hb as (B1 & B2 & B3 & B4 & B5 & _ & B7). assert (Hg : globals_ok g).
    { constructor; [rewrite (bootstrap_arena _ _ _ Eb); lia|by eapply Ht|done|congruence]. }
    pose proof (ci_proc _ _ Hi) as HV. rewrite E in HV. subst V.
    split; [done|]. unfold get_tls. cbn [set_proc c_tls c_proc c_next c_errno c_bytes]. rewrite Hts. split; [by apply Hth|]. split; [|done].
    constructor; [|done|apply Hi..]. cbn. by rewrite Hts.
  - pose proof (ci_proc _ _ Hi) as HV. rewrite E in HV. destruct HV as [Hg Hok]. split; [done|]. split; [by apply Hth|]. by rewrite E.
Qed.

(** Leaving it. *)
Lemma set_heap_inv st V V' t g th h m : c_inv st V -> globals_ok g -> full_ok (g_config g) cpus h (<[t := th]> (c_tls st)) V' -> c_inv (set_heap st t g th h m) V'.
Proof. intros [_ _ C3 C4 C5] Hg Hok. constructor; [done|done|done|done|done]. Qed.

Lemma set_errno_inv st V t n : c_inv st V -> c_inv (set_errno st t n) V.
Proof. by intros [C1 C2 C3 C4 C5]. Qed.
#[local] Hint Resolve set_heap_inv set_errno_inv : core.

(** A live pointer is known to the ownership map. *)
Lemma live_owned st V g h p : c_inv st V -> c_proc st = inr (g, h) -> is_Some (V !! p) -> p <> null /\ is_owned st p = Ret true.
Proof.
  intros Hi E [[size align] Hp]. pose proof (ci_proc _ _ Hi) as HV. rewrite E in HV. destruct HV as [Hg Hok].
  destruct (full_facts (g_config g) cpus (go_tag g Hg) h _ V p size align Hok Hp) as (H0 & _ & _ & Ho & _). split; [change null with 0; lia|]. unfold is_owned. by rewrite E.
Qed.

Lemma live_booted st V p : c_inv st V -> is_Some (V !! p) -> exists g h, c_proc st = inr (g, h) /\ globals_ok g /\ full_ok (g_config g) cpus h (c_tls st) V.
Proof.
  intros Hi Hp. pose proof (ci_proc _ _ Hi) as HV. destruct (c_proc st) as [k|[g h]]; [|by exists g, h]. subst V. by rewrite lookup_empty in Hp; destruct Hp.
Qed.

(** ** The calls *)

Inductive CCall :=
  | CMalloc (size : Z) | CCalloc (nmemb size : Z) | CMemalign (alignment size : Z)
  | CFree (ptr : Z) | CRealloc (ptr size : Z) | CUsable (ptr : Z).

Definition c_call st t e (c : CCall) : outcome (Z * cstate K N) :=
  match c with
  | CMalloc size => malloc environ mach st t e size
  | CCalloc nmemb size => calloc environ mach st t e nmemb size
  | CMemalign alignment size => memalign environ mach st t e alignment size
  | CFree ptr => st ← free st e ptr; Ret (null, st)
  | CRealloc ptr size => realloc environ mach st t e ptr size
  | CUsable ptr => malloc_usable_size st ptr
  end.

(** A pointer of the next allocator: not known to the ownership map. *)
Definition foreign st (p : Z) : Prop := p <> null /\ is_owned st p = Ret false.

(** Requests of every size, and pointers that are null, live or foreign. *)
Definition call_ok st V (c : CCall) : Prop :=
  match c with
  | CMalloc size => 0 <= size <= 2 ^ 63
  | CCalloc nmemb size => 0 <= size /\ 0 <= nmemb /\ nmemb * size <= 2 ^ 63
  | CMemalign alignment size => 0 <= size /\ size + Z.max alignment 8 <= 2 ^ 63 /\ is_power_of_two (Z.max alignment 8) = true
  | CFree p => p = null \/ is_Some (V !! p) \/ foreign st p
  | CUsable p => is_Some (V !! p) \/ is_owned st p = Ret false
  | CRealloc p size =>
      p = null /\ 0 <= size <= 2 ^ 62 \/ foreign st p \/ is_Some (V !! p) /\ 0 <= size <= 2 ^ 62
  end.

Definition served V (p size align : Z) : gmap Z (Z * Z) := if p =? null then V else <[p := (size, align)]> V.

(** The live pointers after a call that returned [p]. *)
Definition call_live V (c : CCall) (p : Z) : gmap Z (Z * Z) :=
  match c with
  | CMalloc size => served V p size 16
  | CCalloc nmemb size => served V p (Z.max (nmemb * size) 1) 16
  | CMemalign alignment size => served V p size (Z.max alignment 8)
  | CFree q => delete q V
  | CRealloc q size =>
      if q =? null then served V p (Z.max size 1) 16
      else if size =? 0 then delete q V
      else match V !! q with Some (_, align) => if p =? null then V else <[p := (size, align)]> (delete q V) | None => V end
  | CUsable _ => V
  end.

(** What the functions of the next allocator do, where it has them. *)
Definition free_next (p : Z) (n : N) : N := if dlsym "free" =? null then n else next_free (dlsym "free") p n.
Definition realloc_next (p size : Z) (n : N) : Z * N := if dlsym "realloc" =? null then (null, n) else next_realloc (dlsym "realloc") p size n.
Definition usable_next (p : Z) (n : N) : Z := if dlsym "malloc_usable_size" =? null then 0 else next_usable_size (dlsym "malloc_usable_size") p n.

Definition is_foreign V (p : Z) : bool := negb (p =? null) && bool_decide (V !! p = None).

(** Its state after a call: it sees exactly the foreign pointers. *)
Definition call_next V (c : CCall) (n : N) : N :=
  match c with
  | CFree p => if is_foreign V p then free_next p n else n
  | CRealloc p size => if is_foreign V p then if size =? 0 then free_next p n else (realloc_next p size n).2 else n
  | _ => n
  end.

(** What the caller gets. *)
Definition call_result V (c : CCall) (n : N) (p : Z) : Prop :=
  match c with
  | CMalloc _ | CCalloc _ _ | CMemalign _ _ => p <> null -> V !! p = None
  | CFree _ => True
  | CRealloc q size => if is_foreign V q && negb (size =? 0) then p = (realloc_next q size n).1 else p <> null -> p = q \/ V !! p = None
  | CUsable q => match V !! q with Some (size, _) => size <= p /\ 0 < p | None => p = if q =? null then 0 else usable_next q n end
  end.

Definition call_spec st V (c : CCall) (r : outcome (Z * cstate K N)) : Prop :=
  match r with
  | Ret (p, st') => c_inv st' (call_live V c p) /\ c_next st' = call_next V c (c_next st) /\ call_result V c (c_next st) p
  | Fatal er => start_error er
  | Stuck => draws_random /\ exists k, c_proc st = inl k
  end.

(** Calls that allocate. *)
Lemma served_inv st V t g th th0 h m p size align :
  c_inv st V -> globals_ok g ->
  (if p =? null then full_ok (g_config g) cpus h (<[t := th]> (<[t := th0]> (c_tls st))) V
   else V !! p = None /\ full_ok (g_config g) cpus h (<[t := th]> (<[t := th0]> (c_tls st))) (<[p := (size, align)]> V)) ->
  c_inv (set_heap st t g th h m) (served V p size align) /\ (p <> null -> V !! p = None).
Proof.
  intros Hi Hg. rewrite insert_insert_eq. unfold served. destruct (Z.eqb_spec p null) as [->|Hp]; [intros Hok; split; [by eapply set_heap_inv|done]|].
  intros [HV Hok]. split; [by eapply set_heap_inv|done].
Qed.

Lemma after_errno st V t (b : bool) (n : N) : c_inv st V /\ c_next st = n -> c_inv (if b then set_nomem st t else st) V /\ c_next (if b then set_nomem st t else st) = n.
Proof. intros [Hi Hn]. destruct b; [|done]. split; [by apply set_errno_inv|done]. Qed.

Lemma rs_alloc_c st V t e n :
  environ_ok -> c_inv st V -> env_ok cpus e -> 0 <= n <= 2 ^ 63 ->
  match rs_alloc environ mach st t e n false with
  | Ret (p, st') => (c_inv st' (served V p n 16) /\ c_next st' = c_next st) /\ (p <> null -> V !! p = None)
  | Fatal er => start_error er
  | Stuck => draws_random /\ exists k, c_proc st = inl k
  end.
Proof.
  intros He Hi Hen Hn. unfold rs_alloc. pose proof (call_once_ok st V t He Hi) as Hc. destruct (call_once environ mach st) as [[[g h] st1]|er|]; cbn [mbind outcome_bind]; [|done|done].
  destruct Hc as (Hg & Hok & Hi1 & _ & Hnx & _). destruct (Hg) as [Ha Ht _ _].
  pose proof (rs_alloc_full (g_config g) cpus Ha h _ V t (get_tls st1 t) e n 16 Hok ltac:(by rewrite lookup_insert_eq) Hen Hn ltac:(by exists 1) ltac:(lia) ltac:(done)) as Hr.
  destruct (Alloc.rs_alloc _ _ _ _ _ _) as [[[p th] h']|er|]; cbn [mbind outcome_bind full_allocated] in *; [|by apply kernel_error|done].
  destruct (served_inv st1 V t g th _ h' (c_bytes st1) p n 16 Hi1 Hg Hr) as [H1 H2]. split; [|done]. by apply after_errno.
Qed.

Lemma calloc_ok st V t e nmemb size :
  environ_ok -> c_inv st V -> env_ok cpus e -> call_ok st V (CCalloc nmemb size) -> call_spec st V (CCalloc nmemb size) (calloc environ mach st t e nmemb size).
Proof.
  intros He Hi Hen (Hs & Hm & Hsum). unfold calloc, rs_calloc, layout_array. destruct (Z.leb_spec size (2 ^ 63 - 1)) as [Hle|Hgt].
  2: { split; [by apply set_errno_inv|]. split; [done|]. by intros []. }
  destruct (checked_mul nmemb size) as [z|]; [|split; [by apply set_errno_inv|]; split; [done|]; by intros []].
  pose proof (call_once_ok st V t He Hi) as Hc. destruct (call_once environ mach st) as [[[g h] st1]|er|]; cbn [mbind outcome_bind]; [|done|done].
  destruct Hc as (Hg & Hok & Hi1 & _ & Hnx & _). destruct (Hg) as [Ha Ht Hmg _].
  pose proof (calloc_full (g_config g) cpus Ha Hmg h _ V t (get_tls st1 t) e (c_bytes st1) size nmemb Hok ltac:(by rewrite lookup_insert_eq) Hen Hs Hm Hsum) as Hr.
  destruct (Realloc.rs_calloc _ _ _ _ _ _ _) as [[[[p th] h'] m']|er|]; cbn [mbind outcome_bind full_zeroed] in *; [|by apply kernel_error|done].
  destruct (served_inv st1 V t g th (get_tls st1 t) h' m' p (Z.max (nmemb * size) 1) 16 Hi1 Hg) as [H1 H2]; [case_match; tauto|].
  destruct (after_errno (set_heap st1 t g th h' m') _ t (fits_class (Z.max z 1) && (p =? null)) _ (conj H1 Hnx)) as [H3 H4]. done.
Qed.

Lemma memalign_ok st V t e alignment size :
  environ_ok -> c_inv st V -> env_ok cpus e -> call_ok st V (CMemalign alignment size) -> call_spec st V (CMemalign alignment size) (memalign environ mach st t e alignment size).
Proof.
  intros He Hi Hen (Hs & Hsum & Hp). unfold memalign, memalign_inner. rewrite Hp. cbn [negb]. unfold posix_align_inner. rewrite Hp. cbn [negb]. destruct (Z.ltb_spec (Z.max alignment 8) 8) as [|_]; [lia|]. cbn [orb].
  destruct (v ← checked_add size (Z.max alignment 8); checked_add v TAG_SIZE) as [total|] eqn:Et; [|split; [by apply set_errno_inv|]; split; [done|]; by intros []].
  pose proof (call_once_ok st V t He Hi) as Hc. destruct (call_once environ mach st) as [[[g h] st1]|er|]; cbn [mbind outcome_bind]; [|done|done].
  destruct Hc as (Hg & Hok & Hi1 & _ & Hnx & _). destruct (Hg) as [Ha Ht _ _].
  pose proof (memalign_full (g_config g) cpus Ha h _ V t (get_tls st1 t) e (Z.max alignment 8) size (Z.max alignment 8) Hok ltac:(by rewrite lookup_insert_eq) Hen Hs) as Hr.
  unfold Alloc.memalign_inner in Hr. rewrite Z.max_l in Hr by lia. specialize (Hr Hsum Hp ltac:(done) ltac:(lia) Hp). rewrite Hp in Hr. cbn [negb] in Hr.
  destruct (Alloc.posix_align_inner _ _ _ _ _ _) as [[[r th] h']|er|]; cbn [mbind outcome_bind full_allocated] in *; [|by apply kernel_error|done].
  destruct (served_inv st1 V t g th _ h' (c_bytes st1) (match r with inl ptr => ptr | inr _ => null end) size (Z.max alignment 8) Hi1 Hg Hr) as [H1 H2].
  destruct r as [p|n]; [done|]. destruct (after_errno (set_heap st1 t g th h' (c_bytes st1)) _ t (fits_class total) _ (conj H1 Hnx)) as [H3 H4].
  split; [by apply set_errno_inv|done].
Qed.

(** A pointer that is not null is live or foreign, never both. *)
Lemma null_not_live st V : c_inv st V -> V !! null = None.
Proof.
  intros Hi. destruct (V !! null) as [x|] eqn:E; [|done]. exfalso. destruct (live_booted st V null Hi ltac:(by rewrite E)) as (g & h & Hp & _).
  by destruct (live_owned st V g h null Hi Hp ltac:(by rewrite E)).
Qed.

Lemma unowned_not_live st V p : c_inv st V -> is_owned st p = Ret false -> V !! p = None.
Proof.
  intros Hi Ho. destruct (V !! p) as [x|] eqn:E; [|done]. exfalso. destruct (live_booted st V p Hi ltac:(by rewrite E)) as (g & h & Hp & _).
  destruct (live_owned st V g h p Hi Hp ltac:(by rewrite E)) as [_ Ho']. congruence.
Qed.

Lemma foreign_not_live st V p : c_inv st V -> foreign st p -> V !! p = None /\ is_foreign V p = true.
Proof.
  intros Hi [Hn Ho]. pose proof (unowned_not_live st V p Hi Ho) as E. split; [done|]. unfold is_foreign. by rewrite (proj2 (Z.eqb_neq _ _) Hn), bool_decide_true.
Qed.

Lemma live_not_foreign V p : is_Some (V !! p) -> is_foreign V p = false.
Proof. intros [x Hx]. unfold is_foreign. rewrite Hx. by rewrite bool_decide_false, andb_false_r. Qed.

(** The calls of the next allocator. *)
Lemma free_fallback_ok st V p : c_inv st V -> p <> null ->
  exists st', free_fallback st p = Ret st' /\ c_inv st' V /\ c_next st' = free_next p (c_next st).
Proof.
  intros [C1 C2 C3 C4 C5] Hp. unfold free_fallback, free_next. rewrite (proj2 (Z.eqb_neq _ _) Hp). destruct (get_symbol_ok _ _ C3) as (c & -> & Hc). cbn [mbind outcome_bind c_next].
  destruct (dlsym "free" =? null); eexists; (split; [reflexivity|]); done.
Qed.

Lemma realloc_fallback_ok st V p size : c_inv st V ->
  exists st', realloc_fallback st p size = Ret ((realloc_next p size (c_next st)).1, st') /\ c_inv st' V /\ c_next st' = (realloc_next p size (c_next st)).2.
Proof.
  intros [C1 C2 C3 C4 C5]. unfold realloc_fallback, realloc_next. destruct (get_symbol_ok _ _ C4) as (c & -> & Hc). cbn [mbind outcome_bind c_next].
  destruct (dlsym "realloc" =? null); [|destruct (next_realloc _ _ _ _) as [q n]]; eexists; (split; [reflexivity|]); done.
Qed.

Lemma malloc_usable_size_fallback_ok st V p : c_inv st V ->
  exists st', malloc_usable_size_fallback st p = Ret (if p =? null then 0 else usable_next p (c_next st), st') /\ c_inv st' V /\ c_next st' = c_next st.
Proof.
  intros Hi. destruct (Hi) as [C1 C2 C3 C4 C5]. unfold malloc_usable_size_fallback, usable_next. destruct (p =? null); [by exists st|]. destruct (get_symbol_ok _ _ C5) as (c & -> & Hc). cbn [mbind outcome_bind c_next].
  destruct (dlsym "malloc_usable_size" =? null); eexists; (split; [reflexivity|]); done.
Qed.

Lemma rs_free_c st V e p :
  c_inv st V -> env_ok cpus e -> p = null \/ is_Some (V !! p) \/ foreign st p ->
  match rs_free st e p with
  | Ret st' => c_inv st' (delete p V) /\ c_next st' = call_next V (CFree p) (c_next st)
  | Fatal er => start_error er
  | Stuck => False
  end.
Proof.
  intros Hi He Hp. unfold rs_free. destruct (Z.eqb_spec p null) as [->|Hn].
  { rewrite delete_id by (by eapply null_not_live). done. }
  destruct Hp as [?|[Hp|Hp]]; [done| |].
  - destruct (live_booted st V p Hi Hp) as (g & h & Hpr & Hg & Hok). destruct (live_owned st V g h p Hi Hpr Hp) as [_ Ho]. rewrite Ho. cbn [mbind outcome_bind negb]. rewrite Hpr.
    pose proof (free_full (g_config g) cpus (go_arena g Hg) (go_tag g Hg) (go_big g Hg) (go_freed g Hg) h (c_tls st) V e p Hok Hp He) as Hd.
    destruct (Alloc.rs_free _ _ _ _) as [h'| |]; cbn [mbind outcome_bind call_next]; [|by apply kernel_error; left|done]. rewrite live_not_foreign by done. split; [|done]. destruct Hi as [C1 C2 C3 C4 C5]. by constructor.
  - destruct (foreign_not_live st V p Hi Hp) as [HV Hf]. destruct Hp as [_ Ho]. rewrite Ho. cbn [mbind outcome_bind negb call_next]. rewrite Hf, delete_id by done. by destruct (free_fallback_ok st V p Hi Hn) as (st' & -> & ?).
Qed.

Lemma usable_ok st V p : c_inv st V -> call_ok st V (CUsable p) -> call_spec st V (CUsable p) (malloc_usable_size st p).
Proof.
  intros Hi [Hp|Ho]; unfold malloc_usable_size, usable_size.
  - destruct (live_booted st V p Hi Hp) as (g & h & Hpr & Hg & Hok). destruct (live_owned st V g h p Hi Hpr Hp) as [_ Ho]. rewrite Ho. cbn [mbind outcome_bind]. rewrite Hpr.
    destruct Hp as [[size align] Hp]. destruct Hg as [_ Ht Hb Hf]. destruct (usable_full (g_config g) cpus Ht Hb Hf h _ V p size align Hok Hp) as (n & Hu & H1 & H2 & _). rewrite Hu. cbn [mbind outcome_bind call_spec call_live call_next call_result].
    rewrite Hp. split; [done|]. split; [done|]. done.
  - rewrite Ho. cbn [mbind outcome_bind]. pose proof (unowned_not_live st V p Hi Ho) as HV. destruct (malloc_usable_size_fallback_ok st V p Hi) as (st' & Hr & Hi' & Hn).
    assert (call_spec st V (CUsable p) (malloc_usable_size_fallback st p)); [|by destruct (c_proc st) as [|[]]]. rewrite Hr. cbn [call_spec call_live call_next call_result]. by rewrite HV.
Qed.

(** A resize of a live block: the decision on [errno] always ends. *)
Lemma resize_nomem_ok cfg h ts V p n : full_ok cfg cpus h ts V -> 2 ^ 56 <= ALIGN_TAG cfg -> MAGIC cfg <> BIG_MAGIC cfg -> is_Some (V !! p) -> exists b, resize_sets_nomem cfg h p n = Ret b.
Proof.
  intros (Vs & Vb & own & rs & Ab & M & G & Db & -> & Hok) Ht Hm [[size align] Hp]. unfold resize_sets_nomem. apply lookup_union_Some_raw in Hp as [Hp|[_ Hp]].
  - pose proof Hok as [(C & B & D & A & HI & HL) _ _]. destruct (live_block (KernelSpec0 := view _ (own_bytes own)) _ _ _ _ _ _ _ _ _ _ _ _ HI HL Hp) as (a & c & Ha & HA & HB & Hpt & _).
    destruct (find_original_ok (KernelSpec0 := view _ (own_bytes own)) _ _ _ _ _ _ _ _ _ _ _ _ Ht HI HB Hpt) as (_ & Hf & Hg & _). rewrite Hf. cbn [mbind outcome_bind]. destruct (negb _); [by eexists|]. rewrite Hg.
    destruct (block_header (KernelSpec0 := view _ (own_bytes own)) _ _ _ _ _ _ _ _ _ _ _ HI HB) as (x & Hx & (_ & Hmg & _)). unfold get_header. rewrite Hx. cbn [mbind outcome_bind from_option].
    rewrite decide_True in Hmg by done. rewrite Hmg, (proj2 (Z.eqb_neq _ _) Hm). by eexists.
  - destruct (find_original_big cfg cpus _ _ _ _ _ _ _ _ _ _ Hok p size align Ht Hp) as (q & meta & _ & _ & _ & _ & _ & _ & [_ B2 B3 (x & B4 & B5) B6 _]). rewrite B2. cbn [mbind outcome_bind]. destruct (negb _); [by eexists|].
    rewrite B3, B4. cbn [mbind outcome_bind]. rewrite B5, Z.eqb_refl, B6. by eexists.
Qed.

Lemma realloc_live_ok st V t e p n :
  environ_ok -> c_inv st V -> env_ok cpus e -> is_Some (V !! p) -> 0 < n <= 2 ^ 62 ->
  call_spec st V (CRealloc p n) (realloc environ mach st t e p n).
Proof.
  intros He Hi Hen Hp Hres. assert (Hn : n <> 0) by lia. destruct (live_booted st V p Hi Hp) as (g & h & Hpr & Hg & Hok). destruct (live_owned st V g h p Hi Hpr Hp) as [Hp0 Ho].
  unfold realloc, rs_realloc. rewrite (proj2 (Z.eqb_neq _ _) Hp0), (proj2 (Z.eqb_neq _ _) Hn), Ho. cbn [mbind outcome_bind]. rewrite Hpr. destruct (Hg) as [G1 G2 G3 G4].
  destruct (resize_nomem_ok _ _ _ _ p n Hok G2 G3 Hp) as [b Hb]. pose proof (call_once_ok st V t He Hi) as Hc. unfold call_once in Hc. rewrite Hpr in Hc. destruct Hc as (_ & Hok1 & _).
  destruct Hp as [[size align] Hp]. pose proof (realloc_full (g_config g) cpus G1 G2 G3 G4 h _ V t (get_tls st t) e (c_bytes st) p size align n Hok1 ltac:(by rewrite lookup_insert_eq) Hen Hp Hres) as Hr.
  destruct (Realloc.rs_realloc _ _ _ _ _ _ _) as [[[[q th] h'] m]|er|]; cbn [mbind outcome_bind full_resized] in *; [|by apply kernel_error|done]. rewrite Hb. cbn [mbind outcome_bind]. rewrite insert_insert_eq in Hr.
  cbn [call_spec call_live call_next call_result]. rewrite live_not_foreign by eauto. rewrite (proj2 (Z.eqb_neq _ _) Hp0), (proj2 (Z.eqb_neq _ _) Hn), Hp. cbn [andb].
  destruct (Z.eqb_spec q null) as [->|Hq]; cbn [andb].
  - destruct (after_errno (set_heap st t g th h' m) V t b (c_next st)) as [H1 H2]; [split; [eapply set_heap_inv; [done|done|tauto]|done]|]. split; [done|]. split; [done|]. done.
  - split; [eapply set_heap_inv; [done|done|tauto]|]. split; [done|]. tauto.
Qed.

Lemma realloc_ok st V t e p n :
  environ_ok -> c_inv st V -> env_ok cpus e -> call_ok st V (CRealloc p n) -> call_spec st V (CRealloc p n) (realloc environ mach st t e p n).
Proof.
  intros He Hi Hen Hp. destruct (decide (p = null)) as [->|Hp0].
  { destruct Hp as [[_ Hn]|[[? _]|[Hp _]]]; [|done|rewrite (null_not_live _ _ Hi) in Hp; by destruct Hp].
    pose proof (rs_alloc_c st V t e (Z.max n 1) He Hi Hen ltac:(lia)) as Hr. unfold realloc, rs_realloc. cbn [Z.eqb].
    destruct (rs_alloc _ _ _ _ _ _ _) as [[q st']|er|]; [|done|done]. destruct Hr as [[H1 H2] H3]. split; [done|]. split; [done|]. cbn. auto. }
  destruct Hp as [[? _]|[Hp|[Hp Hn]]]; [done| |].
  - destruct (foreign_not_live st V p Hi Hp) as [HV Hf]. pose proof Hp as [_ Ho]. unfold realloc, rs_realloc. rewrite (proj2 (Z.eqb_neq _ _) Hp0), Ho. destruct (Z.eqb_spec n 0) as [->|Hn].
    + pose proof (rs_free_c st V e p Hi Hen ltac:(by right; right)) as Hr. destruct (rs_free st e p) as [st'| |]; [|done..]. destruct Hr as (Hi' & Hnx). cbn [mbind outcome_bind call_spec call_live call_next call_result] in *.
      rewrite Hf in *. rewrite (proj2 (Z.eqb_neq _ _) Hp0). cbn [Z.eqb negb andb]. by split_and!.
    + destruct (realloc_fallback_ok st V p n Hi) as (st' & Hr & Hi' & Hnx). cbn [mbind outcome_bind].
      assert (call_spec st V (CRealloc p n) (realloc_fallback st p n)); [|by destruct (c_proc st) as [|[]]]. rewrite Hr. cbn [call_spec call_live call_next call_result].
      rewrite Hf, HV, (proj2 (Z.eqb_neq _ _) Hp0), (proj2 (Z.eqb_neq _ _) Hn). done.
  - destruct (decide (n = 0)) as [->|Hn0]; [|apply realloc_live_ok; done || lia].
    unfold realloc, rs_realloc. rewrite (proj2 (Z.eqb_neq _ _) Hp0). cbn [Z.eqb]. pose proof (rs_free_c st V e p Hi Hen ltac:(by right; left)) as Hr. destruct (rs_free st e p) as [st'| |]; [|done..]. destruct Hr as (Hi' & Hnx).
    cbn [mbind outcome_bind call_spec call_live call_next call_result] in *. rewrite live_not_foreign in * by done. rewrite (proj2 (Z.eqb_neq _ _) Hp0). cbn [Z.eqb negb andb]. by split_and!.
Qed.

Lemma c_call_ok st V t e c : environ_ok -> c_inv st V -> env_ok cpus e -> call_ok st V c -> call_spec st V c (c_call st t e c).
Proof.
  intros He Hi Hen Hc. destruct c as [n|nm n|a n|p|p n|p]; cbn [c_call].
  - pose proof (rs_alloc_c st V t e n He Hi Hen Hc) as Hr. unfold malloc. destruct (rs_alloc _ _ _ _ _ _ _) as [[q st']|er|]; [|done|done]. by destruct Hr as [[H1 H2] H3].
  - by apply calloc_ok.
  - by apply memalign_ok.
  - pose proof (rs_free_c st V e p Hi Hen Hc) as Hr. unfold free. by destruct (rs_free st e p) as [st'| |]; [destruct Hr|..].
  - by apply realloc_ok.
  - by apply usable_ok.
Qed.

(** ** From the start of the process *)

(** Calls, and what else the heap goes through with the pointers it has: threads
    start and exit, the clock ticks, memory is trimmed. *)
Inductive c_step : cstate K N * gmap Z (Z * Z) -> cstate K N * gmap Z (Z * Z) -> Prop :=
  | c_step_call st V t e c p st' : env_ok cpus e -> call_ok st V c -> c_call st t e c = Ret (p, st') -> c_step (st, V) (st', call_live V c p)
  | c_step_heap st V g h h' ts' : c_proc st = inr (g, h) -> full_step g cpus (h, c_tls st, V) (h', ts', V) ->
      c_step (st, V) (mkC (inr (g, h')) ts' (c_errno st) (c_bytes st) (FREE_FALLBACK st) (REALLOC_FALLBACK st) (MUS_FALLBACK st) (c_next st), V).

Definition c_start (k : K) (m : Z -> Z) (n : N) : cstate K N := mkC (inl k) ∅ ∅ m OnceLock.new OnceLock.new OnceLock.new n.

Lemma c_step_inv p p' : environ_ok -> c_step p p' -> c_inv p.1 p.2 -> c_inv p'.1 p'.2.
Proof.
  intros He [st V t e c q st' Hen Hc Hr|st V g h h' ts' Hp Hs]; cbn [fst snd]; intros Hi.
  - pose proof (c_call_ok st V t e c He Hi Hen Hc) as Hcs. rewrite Hr in Hcs. by destruct Hcs.
  - destruct Hi as [C1 C2 C3 C4 C5]. rewrite Hp in C1. destruct C1 as [Hg Hok]. constructor; try done. split; [done|]. destruct Hg as [G1 G2 G3 G4].
    exact (full_step_ok g cpus G1 G2 G3 G4 _ _ Hs Hok).
Qed.

Lemma c_reached_inv k m n st V : environ_ok -> mapped k VSYSCALL -> rtc c_step (c_start k m n, ∅) (st, V) -> c_inv st V.
Proof.
  intros He Hv Hs. apply (rtc_invariant c_step (fun p => c_inv p.1 p.2) _ (st, V)) with (1 := fun p p' => c_step_inv p p' He) (2 := Hs).
  constructor; [done|by intros k' [= <-]|by left..].
Qed.
End PreloadProps.

(** C9. The C interface of a preloaded process.  Let the threads of the process call
    [malloc], [calloc], [memalign], [free], [realloc] and [malloc_usable_size] in any
    order from its start, with requests of every size up to 2^63 (2^62 for [realloc])
    and pointers that are null, live or unknown to the ownership map, while threads
    start and exit, the clock ticks and memory is trimmed.  Then every live pointer is
    aligned and owned, its bytes are mapped, and no two share a byte.  And every further call
    ends: it returns, with a new pointer apart from the live ones and a usable size
    that covers the request; the next allocator sees exactly the calls on unknown
    pointers, with their arguments, and the caller gets what it answered; else the
    call aborts for one of the four reasons of the start, or, on the first
    allocation only, its random draws do not end. *)
Theorem preload_safe {K} `{!Kernel K} `{!KernelSpec K} {N} `{!NextAllocator N} environ mach (k : K) (m : Z -> Z) (n : N) st V :
  environ_ok (K := K) environ mach -> mapped k VSYSCALL -> rtc (c_step environ mach) (c_start k m n, ∅) (st, V) ->
  (forall p size align, V !! p = Some (size, align) -> exists g h, c_proc st = inr (g, h) /\
     0 < p /\ (align | p) /\ p + size <= 2 ^ 47 /\ Radix.is_owned (hp_radix h) p = Ret true /\ forall y, p <= y < p + size -> mapped (hp_kern h) y) /\
  (forall p p' size size' align align' y, V !! p = Some (size, align) -> V !! p' = Some (size', align') -> p <= y < p + size -> p' <= y < p' + size' -> p = p') /\
  (forall t e c, env_ok (get_max_cpu (get_nprocs_conf mach)) e -> call_ok st V c ->
     match c_call environ mach st t e c with
     | Ret (p, st') => c_next st' = call_next V c (c_next st) /\ call_result V c (c_next st) p
     | Fatal er => er = RSEQRegFailed \/ er = VAIinitFailed \/ er = OutOfMemory \/ er = SecurityViolation
     | Stuck => env_or environ "RS_DISABLE_RANDOMIZING" 0 = 0 /\ exists k, c_proc st = inl k
     end).
Proof.
  intros He Hv Hs. pose proof (c_reached_inv environ mach k m n st V He Hv Hs) as Hi. split_and!.
  - intros p size align Hp. destruct (live_booted mach st V p Hi ltac:(by eexists)) as (g & h & Hpr & Hg & Hok). exists g, h. split; [done|]. eapply full_facts; [apply Hg|done|done].
  - intros p p' size size' align align' y Hp Hp'. destruct (live_booted mach st V p Hi ltac:(by eexists)) as (g & h & _ & _ & Hok). by eapply full_apart.
  - intros t e c Hen Hc. pose proof (c_call_ok environ mach st V t e c He Hi Hen Hc) as Hr. destruct (c_call _ _ _ _ _ _) as [[p st']|er|]; [|done|done]. by destruct Hr as (_ & ? & ?).
Qed.

(** ** A process with a next allocator that counts its calls *)

Definition demo_next : NextAllocator (list (Z * Z)) :=
  {| dlsym name := if String.eqb name "free" then 4096 else 0;
     next_free sym p n := (sym, p) :: n;
     next_realloc sym p size n := (0, n);
     next_usable_size sym p n := 0 |}.

Definition demo_environ : list (list Z) := [as_bytes "RS_DISABLE_RANDOMIZING=1"].

Lemma demo_environ_ok : environ_ok (K := BumpKernel.state) demo_environ demo_machine.
Proof.
  split; [exact demo_machine_ok|]. split; [by vm_compute|]. intros k g h. unfold bootstrap. destruct (_ || _); [done|]. cbv zeta. destruct (init_heap _ _ _ _ _); [|done|done]. cbn [mbind outcome_bind].
  replace (env_or demo_environ "RS_DISABLE_RANDOMIZING" 0 =? 0) with false by (by vm_compute). cbn [init_tags is_fixed negb mbind outcome_bind]. intros [= <- _]. by vm_compute.
Qed.

(** After [malloc(100)] a pointer that is not the allocator's is freed. *)
Definition demo_state : outcome (Z * cstate BumpKernel.state (list (Z * Z))) :=
  c_call (NextAllocator0 := demo_next) demo_environ demo_machine (c_start BumpKernel.empty (fun _ => 0) []) 0 demo_env (CMalloc 100).

Lemma demo_state_runs :
  match demo_state with Ret (p, st) => (0 <? p) && (length (c_next st) =? 0)%nat && match is_owned st (2 ^ 40) with Ret b => negb b | _ => false end | _ => false end = true.
Proof. vm_compute. reflexivity. Qed.

Lemma preload_safe_witness :
  exists p st, demo_state = Ret (p, st) /\ 0 < p /\ (16 | p) /\
    match c_call (NextAllocator0 := demo_next) demo_environ demo_machine st 0 demo_env (CFree (2 ^ 40)) with Ret (_, st') => c_next st' = [(4096, 2 ^ 40)] | _ => True end.
Proof.
  pose proof demo_state_runs as Hd. destruct demo_state as [[p st]| |] eqn:E; [|discriminate Hd..]. apply andb_prop in Hd as [[Hp Hn]%andb_prop Ho]. apply Z.ltb_lt in Hp.
  destruct (is_owned st (2 ^ 40)) as [[]| |] eqn:Eo; try discriminate Ho. exists p, st. split; [reflexivity|].
  assert (Hs : rtc (c_step (NextAllocator0 := demo_next) demo_environ demo_machine) (c_start BumpKernel.empty (fun _ => 0) [], ∅) (st, {[p := (100, 16)]})).
  { apply rtc_once. pose proof (c_step_call (NextAllocator0 := demo_next) demo_environ demo_machine (c_start BumpKernel.empty (fun _ => 0) []) ∅ 0 demo_env (CMalloc 100) p st demo_env_ok ltac:(cbn; lia) E) as H1.
    unfold call_live, served in H1. destruct (Z.eqb_spec p null) as [->|_]; [lia|exact H1]. }
  destruct (preload_safe (NextAllocator0 := demo_next) demo_environ demo_machine BumpKernel.empty (fun _ => 0) [] st {[p := (100, 16)]} demo_environ_ok BumpKernel.empty_process Hs) as (H1 & _ & H3).
  destruct (H1 p 100 16 ltac:(by rewrite lookup_singleton_eq)) as (g & h & Hpr & H0 & Hal & _ & Hy & _). split; [exact H0|]. split; [exact Hal|].
  specialize (H3 0%nat demo_env (CFree (2 ^ 40)) demo_env_ok ltac:(right; right; split; [done|exact Eo])).
  destruct (c_call _ _ st _ _ _) as [[q st']| |]; [|exact I..]. destruct H3 as [H3 _]. rewrite H3. destruct (c_next st) as [|x l]; [|discriminate Hn].
  assert (Hne : p <> 2 ^ 40) by (intros ->; unfold is_owned in Eo; rewrite Hpr in Eo; congruence).
  unfold call_next, is_foreign. rewrite lookup_singleton_ne by done. reflexivity.
Defined.
